(* ===== verification/_CoqProject ===== *)
-Q . S2P
Prelude.v
RankList.v
LinkedList.v
AvlTree.v
CFloat.v
CLib.v
FdfsShared.v
SortedArray.v
HashFunc.v
HashTable.v
SharedFunc.v
Base64.v
TrunkShared.v
FastMblock.v
TrunkFile.v
StorePath.v
FreeBlockChecker.v
TrunkBinlog.v
BinlogReader.v
TrunkMem.v
TrunkMemInv.v
TrunkMemOps.v
TrunkMemCreate.v
TrunkMemAlloc.v
TrunkMemSpec.v
TrunkMemSave.v
TrunkDataFile.v
TrunkMemLoad.v
TrunkRecover.v
BinlogSync.v
BinlogFollow.v
TrackerMem.v
TrackerMemInv.v
TrackerMemGrow.v
TrackerMemOps.v
TrackerMemActive.v
TrackerMemSync.v
TrackerQuery.v
TrackerAlive.v
TrackerMemSpec.v
TrackerDownload.v
TrackerGroups.v
TrackerKeeps.v
TrackerGroupsInv.v
TrackerStore.v
TrackerJoin.v
TrackerReport.v
TrackerJoinInv.v
TrackerTable.v
TrackerReportInv.v
TrackerStoreInv.v
TrackerAll.v
StorageReport.v
TrackerSyncReq.v
TrackerSyncReqInv.v
TrackerSyncServe.v
TrackerServe.v
TrackerUsage.v
