(* ===== verification/Prelude.v ===== *)
(** * FastDFS 4.08: a verification library

    FastDFS stores the files of a group on several storage servers; tracker
    servers know the groups and tell clients which server to use.  Small
    files are packed into large trunk files: one storage server of the
    group, the trunk server, hands out the space of the trunk files, logs
    every change in the trunk binlog and sends the log to the other servers.
    This library models the trunk subsystem with everything below it, and
    the tracker: its groups, the requests by which storage servers join and
    report, and the queries for uploads and downloads; from the C text
    under FastDFS_v4.08/ (paths in this header are relative to it), and
    proves them correct.

    ** How the parts work together

    A client's upload becomes [trunk_alloc_space] on the trunk server
    (storage/trunk_mgr/trunk_mem.c): the smallest free block that is large
    enough is taken out of a tree of sizes (common/avl_tree.c) and of the
    index by trunk file (trunk_free_block_checker.c), split, and kept as
    held; without such a block a new trunk file is created, under a sub
    directory chosen by storage/storage_service.c.  [trunk_alloc_confirm]
    removes the block when the file was stored; [trunk_free_space] brings
    the slot of a deleted file back.  Nodes come from the pools of
    common/fast_mblock.c.  Each change is a line of the binlog
    (trunk_sync.c), which a thread per server follows and sends.  The
    name given to the file carries its slot in base64 (common/base64.c,
    trunk_shared.c), so that any server can find the file by its name.
    When the trunk server stops it saves the blocks to a data file; when it
    starts it reads that file and what the binlog has got since, or the
    whole binlog.

    The tracker (tracker/tracker_mem.c, tracker/tracker_service.c) keeps the
    groups sorted by name and the servers of a group in arrays sorted by id.
    A storage server joins with its settings ([tracker_report_join] of
    storage/tracker_client_thread.c writes the request,
    [tracker_deal_storage_join] reads it and creates group and server),
    then asks for a server to copy the files of its group from and becomes
    ACTIVE with its first heart beat; heart beats and reports of disk usage
    bring its counters and sizes, and the answers carry what changed in the
    group.  A query for an upload chooses a group, a server and a store
    path by policy and by the space reported; a query for a download finds
    from the name of the file (the one StorePath builds) the servers that
    have it.  Periodic checks take silent servers offline and choose trunk
    servers.

    ** Files of the library, bottom up

    - Prelude: machine integers, the state-and-failure monad [prog], errno
      values, lists; RankList: lists ordered by a numeric rank, the reference
      for the trees, with the class [RankCompare] that a comparison function
      must satisfy; LinkedList: chains of [next] pointers in a heap.
    - CFloat: doubles, as the IEEE 754 reference of the Standard Library;
      CLib: the string functions of the C library the source calls.
    - SortedArray: arrays of pointers kept sorted by a string key, with
      [bsearch], insertion and removal.
    - HashFunc, HashTable (common/hash.c): the hash functions and CRC32; the
      hash table, against finite maps.
    - AvlTree (common/avl_tree.c): all its functions, against RankList.
    - SharedFunc (common/shared_func.c): byte order, hexadecimal and URL
      encoding, trimming, splitting, replacing, sizes, line reading.
    - Base64 (common/base64.c): encoder and both decoders.
    - FastMblock (common/fast_mblock.c): pools of blocks.
    - TrunkShared (storage/trunk_mgr/trunk_shared.c): slots, headers, names,
      lookup of a file by its name.
    - TrunkFile (trunk_mem.c): creating, awaiting and clearing trunk files.
    - StorePath (storage/storage_service.c): store paths, sub directories,
      file names.
    - FreeBlockChecker (trunk_free_block_checker.c): the index of blocks by
      trunk file, over the tree of AvlTree.
    - TrunkBinlog (trunk_sync.c): writer, reader and sender of the binlog and
      the handler of the replica; BinlogReader: what the readers return;
      BinlogSync: the loop of the sync thread against the replica;
      BinlogFollow: reader and writer interleaved step by step.
    - TrunkMem (trunk_mem.c): the allocator, every operation over one state;
      TrunkMemInv: its invariant and the primitives; TrunkMemOps,
      TrunkMemCreate, TrunkMemAlloc: each operation against a finite map of
      blocks; TrunkMemSpec: the abstract contract and the refinement.
    - TrunkMemSave (trunk_mem.c): saving, loading, recovery, start and stop;
      TrunkDataFile: the text of the data file; TrunkMemLoad: restart from
      the data file; TrunkRecover: restart from the binlog.
    - TrackerMem (tracker/tracker_mem.c, tracker/tracker_types.h, lookups of
      ids in tracker/fdfs_shared_func.c): the data of a group and its
      operations over one state; TrackerMemInv: the invariant [group_ok];
      TrackerMemGrow: the arrays grow; TrackerMemOps: adding and deleting
      servers; TrackerMemActive: becoming active and stopping;
      TrackerMemSync: address changes and reports; TrackerMemSpec: the state
      machine the operations implement.
    - FdfsShared (tracker/fdfs_shared_func.c): the space a storage path must
      keep free.
    - TrackerQuery (tracker_mem.c): [tracker_mem_get_storage_by_filename];
      TrackerDownload: its answers are servers that have the file.
    - TrackerAlive (tracker_mem.c): the periodic check of one group.
    - TrackerGroups (tracker_mem.c, tracker_types.h): the array of groups
      over one state [tracker_state], whose member [gmem] gives each group
      its [group_mem]; [in_group] runs an operation of TrackerMem on one of
      them; TrackerKeeps: what all operations on a group leave alone;
      TrackerGroupsInv: the invariant [groups_ok] and the operations on the
      array.
    - TrackerStore (tracker_service.c): choice of group, server and path for
      an upload; TrackerStoreInv: the answer is right.
    - TrackerJoin (tracker_mem.c, tracker_service.c): the join request;
      TrackerJoinInv: a join keeps the invariant.
    - TrackerReport (tracker_service.c): heart beats, disk usage, trunk
      reports, what [tracker_check_and_sync] answers; TrackerReportInv:
      these handlers keep the invariant.
    - TrackerSyncReq (tracker_service.c): the requests for the copying of
      files and the ones that name a server; TrackerSyncReqInv: they keep
      the invariant and answer as told; TrackerSyncServe: their
      specification [sync_spec].
    - TrackerTable: the tracker as a map from names to maps from ids to
      states; TrackerAll: the checks of all groups; TrackerServe: the
      specification [serve_spec] of all requests, and what the tracker
      promises to its clients; TrackerUsage: reported sizes.
    - StorageReport (storage/tracker_client_thread.c): the requests a storage
      server writes, and the handlers read them back.

    ** State and failures

    A stateful operation is a [prog S A], that is [S -> option (A * S)]:
    [None] is undefined behaviour of the C program (NULL or wild pointer,
    an index outside an array, an uninitialised result, a loop out of fuel);
    error codes are ordinary results.  [trunk_state] holds the globals of
    trunk_mem.c, the heap of nodes, the binlog and the trunk files;
    [trunk_server] adds the data files; [group_state] holds a group of the
    tracker, the heap of its server objects and the change log;
    [tracker_state] holds all groups.  What the program does not decide
    (malloc, system calls, the clock) is a stream of answers ([env], [sys])
    consumed in the order of the calls; theorems hold for every stream, or
    name the conditions on it ([outcome_ok], [sys_ok]: calls succeed).  An
    [int] is a [Z]; an operation that may leave its range is wrapped
    ([s32], [s64], [u8]).

    ** What the theorems show

    - Allocator: [trunk_server_refines] (every sequence of admissible
      requests is served as the contract [spec_step] allows),
      [trunk_server_invariant] (blocks disjoint; trees, index, total and
      binlog agree), [trunk_server_errors],
      [trunk_create_next_file_terminates].
    - Persistence: [storage_trunk_restart], [storage_trunk_recover],
      [trunk_create_file_advance_counts_twice].
    - Trees and index: [avl_tree_refines_map] and the other theorems of
      AvlTree; [trunk_free_block_index_set],
      [trunk_free_block_check_duplicate_exact].
    - Binlog: [trunk_binlog_replay], [trunk_binlog_reader_follows_writer],
      [trunk_binlog_replication], [trunk_binlog_write_log],
      [trunk_binlog_write_overflow].
    - Pools: [fast_mblock_pool].
    - Hash tables: [hash_table_refines_map] (with the two exceptions the
      code has: an update may answer 1, and a failed one may lose the key;
      and the one place where the code leaves its table of primes, when the
      bucket array is the largest), [hash_table_memory],
      [hash_best_op_terminates] (for arrays of buckets below 16 GB); hash
      functions: [CRC32_sign_extension].
    - Names and lookup: [trunk_name_decodes], [trunk_file_lstat_sound] (slot
      and header on disk are those of the name),
      [trunk_file_stat_no_leak], [base64_decode_encode]; as lemmas,
      [trunk_header_roundtrip] and [storage_split_filename_spec].
    - Files and paths: [trunk_wait_file_ready_returns],
      [storage_get_storage_path_index_spec],
      [storage_get_store_path_round_robin].
    - Groups of the tracker: [tracker_group_refines] (every operation keeps
      the invariant and changes the states of the servers as [op_spec]
      says), [store_server_least_priority], [writable_storage_round_robin].
    - The tracker: [tracker_refines] (every request in every reachable
      state is served, and changes the map of groups, servers and states as
      [serve_spec] says), [upload_answered], [load_balance_group],
      [new_server_online], [df_report_stored].
    - Downloads: [download_from_holder], [created_file_from_creator] (a name
      built by [storage_gen_filename] leads back to the server that built
      it).
    - Requests on the wire: [join_request_read]; as a lemma, [reports_read].
    - Helpers: the theorems of SharedFunc.

    ** Fuel

    A loop that is not structural takes fuel, and a theorem shows that the
    fuel given is enough: a chain has at most [size (nodes s)] nodes; the
    search over the sizes makes at most as many tries as the tree has slots;
    the search for a free file name at most one more than there are trunk
    files; the wait for a trunk file polls every 5 ms for at most ten seconds
    ([WAIT_POLLS] = 3000 polls); loading makes at most two steps per byte of
    the data file and two more; replay at most one step per byte of the
    binlog and one more; the search for a capacity without conflicts at most
    two rounds more than the largest hash code.

    ** Not modelled

    Receiving requests and sending replies over the network (a handler is a
    function from the body of the request to the result and what the answer
    carries; the listing requests of the monitor are left out), disk I/O
    threads, the synchronisation of whole files (storage/storage_sync.c),
    the election of a leader among trackers and their state files, the
    clients, the
    configuration reader and the thin layers over system calls (sockets,
    events, logging, threads): they interleave with the kernel and keep no
    state of the parts above.  The branches compiled only WITH_HTTPD are
    left out, because make.sh does not define it.  The mutexes of
    trunk_mem.c, tracker_mem.c and fast_mblock.c are not modelled: each
    operation runs to its end before the next, and the branches for a lock
    that fails are left out.  In BinlogFollow the two reads of the version
    counter by [trunk_binlog_preread] are one step.  Log messages are left
    out. *)

From Stdlib Require Export ZArith Lia.
From stdpp Require Export base option list numbers gmap.
From Stdlib Require Import Sorting.Sorted Permutation.

#[global] Open Scope Z_scope.

(** ** Machine integers

    A C integer is a [Z]; an operation whose result may leave the range of
    its type writes the wrap-around of that type. *)

Declare Scope fdfs_scope.
Delimit Scope fdfs_scope with fdfs.

Definition u8 (z : Z) : Z := z mod 2 ^ 8.
Definition u32 (z : Z) : Z := z mod 2 ^ 32.
Definition s32 (z : Z) : Z := (z + 2 ^ 31) mod 2 ^ 32 - 2 ^ 31.
Definition s64 (z : Z) : Z := (z + 2 ^ 63) mod 2 ^ 64 - 2 ^ 63.

Definition INT_MAX : Z := 2 ^ 31 - 1.

Definition is_byte (z : Z) : Prop := 0 ≤ z < 256.
Definition is_int32 (z : Z) : Prop := - 2 ^ 31 ≤ z < 2 ^ 31.
Definition is_int64 (z : Z) : Prop := - 2 ^ 63 ≤ z < 2 ^ 63.

#[export] Instance is_byte_dec z : Decision (is_byte z).
Proof. unfold is_byte. apply _. Defined.
#[export] Instance is_int32_dec z : Decision (is_int32 z).
Proof. unfold is_int32. apply _. Defined.

(** C's truth values: [0] is false, everything else is true. *)
Definition c_true (z : Z) : bool := negb (z =? 0).
Arguments c_true !z /.

(** ** errno values (Linux, x86-64) *)

Definition EPERM : Z := 1.
Definition ENOENT : Z := 2.
Definition EIO : Z := 5.
Definition ENOMEM : Z := 12.
Definition EEXIST : Z := 17.
Definition EINVAL : Z := 22.
Definition ENOSPC : Z := 28.
Definition ESPIPE : Z := 29.

(** ** Record update

    [r <| field := x |>] is [r] with one field changed, [r <| field ::= f |>]
    applies [f] to the field.  A record type gives its eta expansion as an
    instance of [Eta]; the update of a field is found from it. *)

Class Eta (R : Type) := eta : R → R.
Class Update {R E : Type} (field : R → E) := update : (E → E) → R → R.

Ltac make_update field :=
  lazymatch type of field with
  | ?R → ?E =>
      let f := fresh "f" in
      let r := fresh "r" in
      intros f r;
      let e := eval hnf in (eta r) in
      lazymatch eval pattern (field r) in e with
      | ?F _ => let t := eval cbv beta in (F (f (field r))) in exact t
      end
  end.

#[export] Hint Extern 0 (Update ?field) => make_update field : typeclass_instances.

Declare Scope record_scope.
#[global] Open Scope record_scope.
Notation "r <| field := x |>" := (update (field := field) (λ _, x) r)
  (at level 1, left associativity) : record_scope.
Notation "r <| field ::= f |>" := (update (field := field) f r)
  (at level 1, left associativity) : record_scope.

(** ** Effects

    [prog S A] is a C function body over the global state [S]: it either
    has undefined behaviour ([None]: a NULL dereference, an index outside
    its array) or returns a value and the new state. *)

Definition prog (S A : Type) : Type := S → option (A * S).

#[export] Instance prog_ret {S} : MRet (prog S) := λ A x s, Some (x, s).
#[export] Instance prog_bind {S} : MBind (prog S) :=
  λ A B f m s, match m s with Some (x, s') => f x s' | None => None end.

Definition undefined {S A} : prog S A := λ _, None.
Definition get {S} : prog S S := λ s, Some (s, s).
Definition modify {S} (f : S → S) : prog S unit := λ s, Some (tt, f s).

(** Dereferencing: an absent value is a NULL (or wild) pointer. *)
Definition deref {S A} (o : option A) : prog S A :=
  λ s, match o with Some x => Some (x, s) | None => None end.

(** ** memcmp

    Only the sign of the result is specified by the C standard, so the
    model returns -1, 0 or 1.  Bytes are compared as unsigned. *)
Fixpoint memcmp (a b : list Z) : Z :=
  match a, b with
  | x :: a', y :: b' => if x <? y then -1 else if y <? x then 1 else memcmp a' b'
  | _, _ => 0
  end.

(** The bytes of a 32-bit integer in memory (little endian). *)
Definition int_bytes_le (n : Z) : list Z :=
  [n mod 256; (n / 2 ^ 8) mod 256; (n / 2 ^ 16) mod 256; (n / 2 ^ 24) mod 256].

(** The number whose base-256 digits, most significant first, are [l]. *)
Definition be_value (l : list Z) : Z := fold_left (λ acc b, acc * 256 + b) l 0.

(** * Lemmas *)

(** ** Integers *)

(** [lia] with the defining equations of [/] and [mod]. *)
Ltac dlia := zify; Z.to_euclidean_division_equations; lia.

(** Equality of two explicit lists, element by element. *)
Ltac cons_eq tac := repeat (apply (f_equal2 cons); [first [reflexivity|solve [tac]]|]); reflexivity.

Lemma s32_id z : is_int32 z → s32 z = z.
Proof. unfold is_int32, s32. intros. rewrite Z.mod_small by lia. lia. Qed.

Lemma s32_range z : is_int32 (s32 z).
Proof.
  unfold is_int32, s32.
  pose proof (Z.mod_pos_bound (z + 2 ^ 31) (2 ^ 32) eq_refl). lia.
Qed.

Lemma s64_id z : is_int64 z → s64 z = z.
Proof. unfold is_int64, s64. intros. rewrite Z.mod_small by lia. lia. Qed.

Lemma s64_mod z : s64 z mod 2 ^ 64 = z mod 2 ^ 64.
Proof.
  unfold s64. rewrite Zminus_mod_idemp_l.
  f_equal. lia.
Qed.

Lemma s64_add_idemp a b : s64 (s64 a + b) = s64 (a + b).
Proof.
  unfold s64.
  replace ((a + 2 ^ 63) mod 2 ^ 64 - 2 ^ 63 + b + 2 ^ 63)
    with ((a + 2 ^ 63) mod 2 ^ 64 + b) by lia.
  rewrite Zplus_mod_idemp_l. do 2 f_equal. lia.
Qed.

(** [|] of a multiple of [2 ^ k] and a number below [2 ^ k] adds them. *)
Lemma lor_low k x b : 0 ≤ k → x mod 2 ^ k = 0 → 0 ≤ b < 2 ^ k → Z.lor x b = x + b.
Proof.
  intros Hk Hx Hb. symmetry. apply Z.add_nocarry_lor. apply Z.bits_inj'. intros i Hi.
  rewrite Z.land_spec, Z.bits_0.
  destruct (Z.lt_ge_cases i k).
  - rewrite <- (Z.mod_pow2_bits_low x k i), Hx, Z.bits_0 by done. done.
  - rewrite <- (Z.mod_small b (2 ^ k)), Z.mod_pow2_bits_high by lia. apply andb_false_r.
Qed.

Lemma land_255 x : Z.land x 255 = x mod 256.
Proof. exact (Z.land_ones x 8 ltac:(lia)). Qed.

Lemma s32_cong z : ∃ q, s32 z = z + q * 2 ^ 32.
Proof.
  exists (- ((z + 2 ^ 31) / 2 ^ 32)). unfold s32.
  pose proof (Z.div_mod (z + 2 ^ 31) (2 ^ 32) ltac:(done)). lia.
Qed.

Lemma s64_cong z : ∃ q, s64 z = z + q * 2 ^ 64.
Proof.
  exists (- ((z + 2 ^ 63) / 2 ^ 64)). unfold s64.
  pose proof (Z.div_mod (z + 2 ^ 63) (2 ^ 64) ltac:(done)). lia.
Qed.

Lemma s64_range z : is_int64 (s64 z).
Proof.
  unfold is_int64, s64.
  pose proof (Z.mod_pos_bound (z + 2 ^ 63) (2 ^ 64) eq_refl). lia.
Qed.

Lemma s32_u32 z : s32 (u32 z) = s32 z.
Proof. unfold s32, u32. rewrite Zplus_mod_idemp_l. done. Qed.
Lemma s64_mod64 z : s64 (z mod 2 ^ 64) = s64 z.
Proof. unfold s64. rewrite Zplus_mod_idemp_l. done. Qed.

Lemma u32_s32 x : u32 (s32 x) = u32 x.
Proof. destruct (s32_cong x) as [q ->]. unfold u32. apply Z_mod_plus_full. Qed.

Lemma u32_idemp x : u32 (u32 x) = u32 x.
Proof. unfold u32. apply Z.mod_mod. done. Qed.

(** Exact arithmetic on the wrapped values whenever they fit. *)
Create Rewrite HintDb cint.
#[export] Hint Rewrite s32_id s64_id using (unfold is_int32, is_int64 in *; lia) : cint.

(** ** Programs *)

Lemma prog_bind_Some {S A B} (m : prog S A) (f : A → prog S B) s r :
  (m ≫= f) s = Some r ↔ ∃ x s', m s = Some (x, s') ∧ f x s' = Some r.
Proof.
  unfold mbind, prog_bind. destruct (m s) as [[x s']|]; split.
  - intros Hr. by exists x, s'.
  - by intros (y & t & [= <- <-] & Hr).
  - done.
  - by intros (y & t & [=] & _).
Qed.

Lemma bind_run {S A B} (m : prog S A) (f : A → prog S B) s x s' :
  m s = Some (x, s') → (m ≫= f) s = f x s'.
Proof. unfold mbind, prog_bind. by intros ->. Qed.

(** ** Total correctness

    [returns m s Q]: from the state [s], [m] has no undefined behaviour, and
    its result and final state satisfy [Q]. *)

Definition returns {S A} (m : prog S A) (s : S) (Q : A → S → Prop) : Prop :=
  match m s with Some (x, s') => Q x s' | None => False end.

Section Returns.
Context {S A B : Type} (s : S).
Implicit Types (m : prog S A) (Q : A → S → Prop).

Lemma returns_run m Q : returns m s Q ↔ ∃ x s', m s = Some (x, s') ∧ Q x s'.
Proof. unfold returns. destruct (m s) as [[x s']|]; naive_solver. Qed.

Lemma returns_mono m Q (R : A → S → Prop) : returns m s Q → (∀ x s', Q x s' → R x s') → returns m s R.
Proof. unfold returns. destruct (m s) as [[x s']|]; eauto. Qed.

Lemma returns_ret x Q : Q x s → returns (mret x) s Q.
Proof. done. Qed.

Lemma returns_bind m (f : A → prog S B) (R : B → S → Prop) :
  returns m s (λ x s', returns (f x) s' R) → returns (m ≫= f) s R.
Proof. unfold returns, mbind, prog_bind. by destruct (m s) as [[x s']|]. Qed.

Lemma returns_get (Q : S → S → Prop) : Q s s → returns get s Q.
Proof. done. Qed.

Lemma returns_modify (f : S → S) (Q : unit → S → Prop) : Q tt (f s) → returns (modify f) s Q.
Proof. done. Qed.

Lemma returns_deref (o : option A) x Q : o = Some x → Q x s → returns (deref o) s Q.
Proof. by intros ->. Qed.
End Returns.

(** One step of a program. *)
Section Steps.
Context {S A B C : Type} (s : S).

Lemma get_bind (f : S → prog S B) : (get ≫= f) s = f s s.
Proof. reflexivity. Qed.
Lemma modify_bind (g : S → S) (f : unit → prog S B) : (modify g ≫= f) s = f tt (g s).
Proof. reflexivity. Qed.
Lemma ret_bind (x : A) (f : A → prog S B) : ((mret x : prog S A) ≫= f) s = f x s.
Proof. reflexivity. Qed.
Lemma deref_bind (o : option A) x (f : A → prog S B) : o = Some x → (deref o ≫= f) s = f x s.
Proof. by intros ->. Qed.
Lemma bind_assoc (m : prog S A) (f : A → prog S B) (g : B → prog S C) :
  ((m ≫= f) ≫= g) s = (m ≫= λ x, f x ≫= g) s.
Proof. unfold mbind, prog_bind. by destruct (m s) as [[x s']|]. Qed.
End Steps.

(** Run the commands that cannot fail at the head of a program. *)
Ltac run :=
  repeat first [rewrite get_bind | rewrite modify_bind | rewrite ret_bind | rewrite bind_assoc]; cbv beta.

Lemma deref_Some {S A} (o : option A) (s : S) x s' :
  deref o s = Some (x, s') ↔ o = Some x ∧ s' = s.
Proof. unfold deref. destruct o; naive_solver. Qed.

(** ** memcmp against the numeric value of the bytes *)

Lemma be_value_cons b l : be_value (b :: l) = b * 256 ^ Z.of_nat (length l) + be_value l.
Proof.
  unfold be_value. cbn [fold_left].
  enough (H : ∀ acc, fold_left (λ acc b, acc * 256 + b) l acc
              = acc * 256 ^ Z.of_nat (length l) + fold_left (λ acc b, acc * 256 + b) l 0).
  { rewrite H. lia. }
  induction l as [|x l IH]; intros acc; cbn [fold_left length].
  - rewrite Z.mul_1_r. lia.
  - rewrite IH, (IH (0 * 256 + x)), Nat2Z.inj_succ, Z.pow_succ_r by lia. lia.
Qed.

Lemma be_value_bound l : Forall is_byte l → 0 ≤ be_value l < 256 ^ Z.of_nat (length l).
Proof.
  induction 1 as [|b l Hb _ IH]; [done|].
  rewrite be_value_cons. cbn [length]. rewrite Nat2Z.inj_succ, Z.pow_succ_r by lia.
  unfold is_byte in Hb. nia.
Qed.

Lemma be_value_inj a b : length a = length b → Forall is_byte a → Forall is_byte b →
  be_value a = be_value b → a = b.
Proof.
  intros Hl Ha. revert b Hl. induction Ha as [|x a Hx Ha IH]; intros [|y b] Hl Hb E; try done.
  inversion Hb; subst. injection Hl as Hl. rewrite !be_value_cons, <- Hl in E.
  pose proof (be_value_bound a Ha). pose proof (be_value_bound b ltac:(done)).
  rewrite <- Hl in *. unfold is_byte in *.
  assert (x = y) as ->  by nia. f_equal. apply IH; [done..|lia].
Qed.

Lemma memcmp_be_value a b :
  length a = length b → Forall is_byte a → Forall is_byte b →
  memcmp a b = Z.sgn (be_value a - be_value b).
Proof.
  intros Hlen Ha. revert b Hlen.
  induction Ha as [|x a Hx Ha IH]; intros [|y b] Hlen Hb; try done.
  inversion Hb as [|? ? Hy Hb']; subst. injection Hlen as Hlen.
  pose proof (be_value_bound a Ha) as Ba. pose proof (be_value_bound b Hb') as Bb.
  rewrite !be_value_cons, <- Hlen in *. cbn [memcmp].
  assert (0 < 256 ^ Z.of_nat (length a)) by (apply Z.pow_pos_nonneg; lia).
  destruct (Z.ltb_spec x y); [symmetry; apply Z.sgn_neg_iff; nia|].
  destruct (Z.ltb_spec y x); [symmetry; apply Z.sgn_pos_iff; nia|].
  assert (x = y) as -> by lia.
  rewrite (IH b Hlen Hb'). f_equal. lia.
Qed.

Lemma memcmp_eq a b : length a = length b → memcmp a b = 0 → a = b.
Proof.
  revert b. induction a as [|x a IH]; intros [|y b]; try done. cbn [length memcmp]. intros Hl.
  destruct (Z.ltb_spec x y), (Z.ltb_spec y x); try done. intros Hm.
  f_equal; [lia|apply IH; [lia|done]].
Qed.

Lemma int_bytes_le_byte n : Forall is_byte (int_bytes_le n).
Proof.
  unfold int_bytes_le, is_byte.
  repeat constructor; apply Z.mod_pos_bound; lia.
Qed.

(** ** Filters *)

(** A stronger test that rejects an element of the list keeps fewer. *)
Lemma filter_length_lt {A} (P Q : A → Prop) `{∀ x, Decision (P x), ∀ x, Decision (Q x)} (l : list A) x :
  (∀ y, Q y → P y) → x ∈ l → P x → ¬ Q x → (length (filter Q l) < length (filter P l))%nat.
Proof.
  intros HQP Hx HP HQ.
  assert (∀ l, (length (filter Q l) ≤ length (filter P l))%nat) as Hle.
  { clear -HQP. induction l as [|y l IH]; [done|]. rewrite !filter_cons.
    repeat case_decide; cbn; [lia|naive_solver|lia|lia]. }
  induction l as [|y l IH]; [by apply not_elem_of_nil in Hx|]. rewrite !filter_cons.
  apply elem_of_cons in Hx as [->|Hx].
  - rewrite (decide_False (P := Q y)), (decide_True (P := P y)) by done. cbn. pose proof (Hle l). lia.
  - specialize (IH Hx). repeat case_decide; cbn; [lia|naive_solver|lia|lia].
Qed.

(** ** Bounded case analysis *)

Lemma Z_range_ind (P : Z → Prop) (n : Z) :
  Forall P (seqZ 0 n) → ∀ v, 0 ≤ v < n → P v.
Proof.
  rewrite Forall_forall. intros H v Hv. apply H. apply elem_of_seqZ. lia.
Qed.

(** Prove [P v] for [0 <= v < n] by evaluating every case. *)
Ltac all_below n v :=
  pattern v; apply (Z_range_ind _ n); [|lia]; repeat (constructor; [vm_compute; try done|]); constructor.
