(* ===== verification/RankList.v ===== *)
(** * Lists kept in order by a numeric rank

    The reference specification of the search trees: a tree is what its
    in-order list is, and the operations on that list are written with
    [filter], with no reference to any tree. *)

From S2P Require Import Prelude.
From Stdlib Require Import Sorting.Sorted.

Section RankList.
Context {D : Type} (rank : D → Z).

Definition rsorted (l : list D) : Prop := StronglySorted (λ x y, rank x < rank y) l.

(** The elements of rank less than, and greater than, [r]. *)
Definition below (r : Z) (l : list D) : list D := filter (λ x, rank x < r) l.
Definition above (r : Z) (l : list D) : list D := filter (λ x, r < rank x) l.

(** The first element of rank [r]; the first of rank at least [r]. *)
Definition rfind (r : Z) (l : list D) : option D := head (filter (λ x, rank x = r) l).
Definition rfind_ge (r : Z) (l : list D) : option D := head (filter (λ x, r ≤ rank x) l).

Definition rreplace (x : D) (l : list D) : list D :=
  below (rank x) l ++ x :: above (rank x) l.
Definition rinsert (x : D) (l : list D) : list D :=
  match rfind (rank x) l with Some _ => l | None => rreplace x l end.
Definition rdelete (r : Z) (l : list D) : list D := below r l ++ above r l.

(** ** Sortedness of a list cut at an element *)

Lemma rsorted_app l1 l2 :
  rsorted (l1 ++ l2) ↔
  rsorted l1 ∧ rsorted l2 ∧ Forall (λ x, Forall (λ y, rank x < rank y) l2) l1.
Proof.
  unfold rsorted. induction l1 as [|x l1 IH]; cbn [app].
  - split; [intros; repeat split; try done; constructor | by intros (_ & ? & _)].
  - split.
    + inversion 1 as [|? ? Hs Hx]; subst. apply IH in Hs as (? & ? & ?).
      apply Forall_app in Hx as [? ?]. repeat split; try done; by constructor.
    + intros (H1 & H2 & H3). inversion H1; subst. inversion H3; subst.
      constructor; [by apply IH|]. by apply Forall_app.
Qed.

Lemma rsorted_cut l1 d l2 :
  rsorted (l1 ++ d :: l2) ↔
  rsorted l1 ∧ rsorted l2 ∧ Forall (λ x, rank x < rank d) l1 ∧
  Forall (λ x, rank d < rank x) l2.
Proof.
  rewrite rsorted_app. split.
  - intros (H1 & H2 & H3). inversion H2; subst. repeat split; try done.
    eapply Forall_impl; [exact H3|]. by inversion 1.
  - intros (H1 & H2 & H3 & H4). repeat split; [done|by constructor|].
    eapply Forall_impl; [exact H3|]. intros x Hx. constructor; [done|].
    eapply Forall_impl; [exact H4|]. cbn in *. intros. lia.
Qed.

(** ** Filters on a side of a rank *)

Lemma filter_none (P : D → Prop) `{∀ x, Decision (P x)} l :
  Forall (λ x, ¬ P x) l → filter P l = [].
Proof. induction 1; [done|]. by rewrite filter_cons_False. Qed.

Lemma filter_all (P : D → Prop) `{∀ x, Decision (P x)} l :
  Forall P l → filter P l = l.
Proof. induction 1; [done|]. rewrite filter_cons_True by done. by f_equal. Qed.

Local Ltac side := intros; eapply Forall_impl; [eassumption|]; cbn; intros; lia.

Lemma below_lt r l : Forall (λ x, rank x < r) l → below r l = l.
Proof. apply filter_all. Qed.
Lemma above_gt r l : Forall (λ x, r < rank x) l → above r l = l.
Proof. apply filter_all. Qed.
Lemma below_ge r l : Forall (λ x, r < rank x) l → below r l = [].
Proof. intros. apply filter_none. side. Qed.
Lemma above_le r l : Forall (λ x, rank x < r) l → above r l = [].
Proof. intros. apply filter_none. side. Qed.
Lemma rfind_lt r l : Forall (λ x, rank x < r) l → rfind r l = None.
Proof. intros. unfold rfind. rewrite filter_none; [done|]. side. Qed.
Lemma rfind_gt r l : Forall (λ x, r < rank x) l → rfind r l = None.
Proof. intros. unfold rfind. rewrite filter_none; [done|]. side. Qed.
Lemma rfind_ge_lt r l : Forall (λ x, rank x < r) l → rfind_ge r l = None.
Proof. intros. unfold rfind_ge. rewrite filter_none; [done|]. side. Qed.
Lemma rfind_ge_gt r l : Forall (λ x, r < rank x) l → rfind_ge r l = head l.
Proof. intros. unfold rfind_ge. rewrite filter_all; [done|]. side. Qed.

Lemma below_app r l1 l2 : below r (l1 ++ l2) = below r l1 ++ below r l2.
Proof. apply filter_app. Qed.
Lemma above_app r l1 l2 : above r (l1 ++ l2) = above r l1 ++ above r l2.
Proof. apply filter_app. Qed.
Lemma rfind_app r l1 l2 :
  rfind r (l1 ++ l2) = match rfind r l1 with Some x => Some x | None => rfind r l2 end.
Proof. unfold rfind. rewrite filter_app. by destruct (filter _ l1). Qed.
Lemma rfind_ge_app r l1 l2 :
  rfind_ge r (l1 ++ l2) = match rfind_ge r l1 with Some x => Some x | None => rfind_ge r l2 end.
Proof. unfold rfind_ge. rewrite filter_app. by destruct (filter _ l1). Qed.
Lemma rfind_cons r d l : rfind r (d :: l) = if decide (rank d = r) then Some d else rfind r l.
Proof. unfold rfind. rewrite filter_cons. by case_decide. Qed.
Lemma rfind_ge_cons r d l : rfind_ge r (d :: l) = if decide (r ≤ rank d) then Some d else rfind_ge r l.
Proof. unfold rfind_ge. rewrite filter_cons. by case_decide. Qed.
Lemma below_cons r d l : below r (d :: l) = if decide (rank d < r) then d :: below r l else below r l.
Proof. unfold below. rewrite filter_cons. by case_decide. Qed.
Lemma above_cons r d l : above r (d :: l) = if decide (r < rank d) then d :: above r l else above r l.
Proof. unfold above. rewrite filter_cons. by case_decide. Qed.

(** ** The operations on a sorted list cut at [d]

    When [r] is on one side of [rank d] only that side of the list
    matters: these are the equations a search tree follows. *)
Section Cut.
Context (l1 l2 : list D) (d : D).
Hypothesis Hl1 : Forall (λ x, rank x < rank d) l1.
Hypothesis Hl2 : Forall (λ x, rank d < rank x) l2.

Local Ltac cut :=
  rewrite ?below_app, ?above_app, ?rfind_app, ?rfind_ge_app,
    ?below_cons, ?above_cons, ?rfind_cons, ?rfind_ge_cons;
  repeat case_decide; try lia.
Local Lemma above_all r : r < rank d → above r l2 = l2.
Proof. intros. apply above_gt. side. Qed.
Local Lemma below_nil r : r ≤ rank d → below r l2 = [].
Proof. intros. apply below_ge. side. Qed.
Local Lemma above_nil r : rank d ≤ r → above r l1 = [].
Proof. intros. apply above_le. side. Qed.
Local Lemma below_all r : rank d < r → below r l1 = l1.
Proof. intros. apply below_lt. side. Qed.
Local Lemma rfind_nil1 r : rank d ≤ r → rfind r l1 = None.
Proof. intros. apply rfind_lt. side. Qed.
Local Lemma rfind_nil2 r : r ≤ rank d → rfind r l2 = None.
Proof. intros. apply rfind_gt. side. Qed.
Local Lemma rfind_ge_nil1 r : rank d ≤ r → rfind_ge r l1 = None.
Proof. intros. apply rfind_ge_lt. side. Qed.

Lemma rfind_cut_lt r : r < rank d → rfind r (l1 ++ d :: l2) = rfind r l1.
Proof. intros. cut. rewrite rfind_nil2 by lia. by destruct (rfind r l1). Qed.
Lemma rfind_cut_gt r : rank d < r → rfind r (l1 ++ d :: l2) = rfind r l2.
Proof. intros. cut. by rewrite rfind_nil1 by lia. Qed.
Lemma rfind_cut_eq r : r = rank d → rfind r (l1 ++ d :: l2) = Some d.
Proof. intros. cut. by rewrite rfind_nil1 by lia. Qed.

Lemma rfind_ge_cut_lt r :
  r < rank d →
  rfind_ge r (l1 ++ d :: l2) = match rfind_ge r l1 with Some x => Some x | None => Some d end.
Proof. intros. cut. by destruct (rfind_ge r l1). Qed.
Lemma rfind_ge_cut_gt r : rank d < r → rfind_ge r (l1 ++ d :: l2) = rfind_ge r l2.
Proof. intros. cut. by rewrite rfind_ge_nil1 by lia. Qed.
Lemma rfind_ge_cut_eq r : r = rank d → rfind_ge r (l1 ++ d :: l2) = Some d.
Proof. intros. cut. by rewrite rfind_ge_nil1 by lia. Qed.

Lemma rreplace_cut_lt x :
  rank x < rank d → rreplace x (l1 ++ d :: l2) = rreplace x l1 ++ d :: l2.
Proof.
  intros. unfold rreplace. cut. rewrite above_all, below_nil by lia.
  by rewrite app_nil_r, <- app_assoc.
Qed.
Lemma rreplace_cut_gt x :
  rank d < rank x → rreplace x (l1 ++ d :: l2) = l1 ++ d :: rreplace x l2.
Proof.
  intros. unfold rreplace. cut. rewrite above_nil, below_all by lia.
  by rewrite <- app_assoc.
Qed.
Lemma rreplace_cut_eq x :
  rank x = rank d → rreplace x (l1 ++ d :: l2) = l1 ++ x :: l2.
Proof.
  intros E. unfold rreplace. rewrite E. cut.
  rewrite above_nil, below_nil, (below_lt _ l1), (above_gt _ l2) by done.
  by rewrite app_nil_r.
Qed.

Lemma rinsert_cut_lt x :
  rank x < rank d → rinsert x (l1 ++ d :: l2) = rinsert x l1 ++ d :: l2.
Proof.
  intros. unfold rinsert. rewrite rfind_cut_lt, rreplace_cut_lt by done.
  by destruct (rfind _ l1).
Qed.
Lemma rinsert_cut_gt x :
  rank d < rank x → rinsert x (l1 ++ d :: l2) = l1 ++ d :: rinsert x l2.
Proof.
  intros. unfold rinsert. rewrite rfind_cut_gt, rreplace_cut_gt by done.
  by destruct (rfind _ l2).
Qed.
Lemma rinsert_cut_eq x :
  rank x = rank d → rinsert x (l1 ++ d :: l2) = l1 ++ d :: l2.
Proof. intros. unfold rinsert. by rewrite rfind_cut_eq. Qed.

Lemma rdelete_cut_lt r :
  r < rank d → rdelete r (l1 ++ d :: l2) = rdelete r l1 ++ d :: l2.
Proof.
  intros. unfold rdelete. cut. rewrite above_all, below_nil by lia.
  by rewrite app_nil_r, <- app_assoc.
Qed.
Lemma rdelete_cut_gt r :
  rank d < r → rdelete r (l1 ++ d :: l2) = l1 ++ d :: rdelete r l2.
Proof.
  intros. unfold rdelete. cut. rewrite above_nil, below_all by lia.
  by rewrite <- app_assoc.
Qed.
Lemma rdelete_cut_eq r : r = rank d → rdelete r (l1 ++ d :: l2) = l1 ++ l2.
Proof.
  intros ->. unfold rdelete. cut.
  rewrite above_nil, below_nil, (below_lt _ l1), (above_gt _ l2) by done.
  by rewrite app_nil_r.
Qed.
End Cut.

(** ** What the reference operations give on a sorted list *)

Lemma Forall_filter_sub (Q P : D → Prop) `{∀ x, Decision (P x)} l :
  Forall Q l → Forall Q (filter P l).
Proof.
  rewrite !Forall_forall. intros HQ x [_ Hx]%list_elem_of_filter. by apply HQ.
Qed.
Lemma Forall_below P r l : Forall P l → Forall P (below r l).
Proof. apply Forall_filter_sub. Qed.
Lemma Forall_above P r l : Forall P l → Forall P (above r l).
Proof. apply Forall_filter_sub. Qed.
Lemma Forall_rreplace P x l : P x → Forall P l → Forall P (rreplace x l).
Proof.
  intros. apply Forall_app. split; [by apply Forall_below|].
  constructor; [done|by apply Forall_above].
Qed.
Lemma Forall_rinsert P x l : P x → Forall P l → Forall P (rinsert x l).
Proof. intros. unfold rinsert. destruct (rfind _ _); [done|by apply Forall_rreplace]. Qed.
Lemma Forall_rdelete P r l : Forall P l → Forall P (rdelete r l).
Proof. intros. apply Forall_app. split; [by apply Forall_below|by apply Forall_above]. Qed.

Lemma Forall_below_lt r l : Forall (λ x, rank x < r) (below r l).
Proof. apply Forall_forall. intros x [? _]%list_elem_of_filter. done. Qed.
Lemma Forall_above_gt r l : Forall (λ x, r < rank x) (above r l).
Proof. apply Forall_forall. intros x [? _]%list_elem_of_filter. done. Qed.

Lemma rsorted_filter (P : D → Prop) `{∀ x, Decision (P x)} l : rsorted l → rsorted (filter P l).
Proof.
  induction 1 as [|x l Hs IH Hx]; [constructor|].
  rewrite filter_cons. case_decide; [|done].
  constructor; [done|]. by apply Forall_filter_sub.
Qed.

Lemma rsorted_rreplace x l : rsorted l → rsorted (rreplace x l).
Proof.
  intros. apply rsorted_cut. repeat split.
  - by apply rsorted_filter.
  - by apply rsorted_filter.
  - apply Forall_below_lt.
  - apply Forall_above_gt.
Qed.
Lemma rsorted_rinsert x l : rsorted l → rsorted (rinsert x l).
Proof. intros. unfold rinsert. destruct (rfind _ _); [done|by apply rsorted_rreplace]. Qed.
Lemma rsorted_rdelete r l : rsorted l → rsorted (rdelete r l).
Proof.
  intros. apply rsorted_app. repeat split; [by apply rsorted_filter..|].
  eapply Forall_impl; [apply Forall_below_lt|]. intros x Hx.
  eapply Forall_impl; [apply Forall_above_gt|]. cbn in *. intros. lia.
Qed.

Lemma rfind_Some r l x : rfind r l = Some x → x ∈ l ∧ rank x = r.
Proof. intros [? ?]%head_Some_elem_of%list_elem_of_filter. done. Qed.
Lemma rfind_None r l : rfind r l = None ↔ Forall (λ x, rank x ≠ r) l.
Proof.
  unfold rfind. rewrite head_None. split.
  - intros E. apply Forall_forall. intros x Hx Hr.
    assert (x ∈ filter (λ x, rank x = r) l) as H by (by apply list_elem_of_filter).
    rewrite E in H. by apply not_elem_of_nil in H.
  - apply filter_none.
Qed.
Lemma rsorted_inj l x y : rsorted l → x ∈ l → y ∈ l → rank x = rank y → x = y.
Proof.
  induction 1 as [|z l Hs IH Hz]; [by intros ?%not_elem_of_nil|].
  rewrite Forall_forall in Hz.
  intros [->|Hx]%elem_of_cons [->|Hy]%elem_of_cons Hr; try done.
  - apply Hz in Hy. lia.
  - apply Hz in Hx. lia.
  - by apply IH.
Qed.
Lemma rfind_elem l x : rsorted l → x ∈ l → rfind (rank x) l = Some x.
Proof.
  intros Hs Hx. destruct (rfind (rank x) l) as [y|] eqn:E.
  - apply rfind_Some in E as [Hy Hr]. f_equal. by apply (rsorted_inj l).
  - apply rfind_None in E. rewrite Forall_forall in E. by apply E in Hx.
Qed.

Lemma rreplace_rinsert x l : rfind (rank x) l = None → rinsert x l = rreplace x l.
Proof. intros E. unfold rinsert. by rewrite E. Qed.
Lemma rinsert_present x l d : rfind (rank x) l = Some d → rinsert x l = l.
Proof. intros E. unfold rinsert. by rewrite E. Qed.

(** ** The finite map a list stands for *)

Lemma rfind_below r q l : rfind r (below q l) = if decide (r < q) then rfind r l else None.
Proof.
  induction l as [|d l IH]; [by case_decide|].
  rewrite below_cons, rfind_cons. repeat case_decide; rewrite ?rfind_cons, ?IH;
    repeat case_decide; (done || lia).
Qed.
Lemma rfind_above r q l : rfind r (above q l) = if decide (q < r) then rfind r l else None.
Proof.
  induction l as [|d l IH]; [by case_decide|].
  rewrite above_cons, rfind_cons. repeat case_decide; rewrite ?rfind_cons, ?IH;
    repeat case_decide; (done || lia).
Qed.
Lemma rfind_rreplace r x l :
  rfind r (rreplace x l) = if decide (rank x = r) then Some x else rfind r l.
Proof.
  unfold rreplace. rewrite rfind_app, rfind_cons, rfind_below, rfind_above.
  repeat case_decide; try lia; by destruct (rfind r l).
Qed.
Lemma rfind_rdelete r q l :
  rfind r (rdelete q l) = if decide (q = r) then None else rfind r l.
Proof.
  unfold rdelete. rewrite rfind_app, rfind_below, rfind_above.
  repeat case_decide; try lia; by destruct (rfind r l).
Qed.

Definition to_map (l : list D) : gmap Z D := list_to_map ((λ x, (rank x, x)) <$> l).

Lemma lookup_to_map l r : to_map l !! r = rfind r l.
Proof.
  unfold to_map. induction l as [|d l IH]; [done|].
  rewrite fmap_cons, list_to_map_cons, rfind_cons, lookup_insert, IH.
  repeat case_decide; done.
Qed.
Lemma to_map_rreplace x l : to_map (rreplace x l) = <[rank x := x]> (to_map l).
Proof.
  apply map_eq. intros r.
  rewrite lookup_insert, !lookup_to_map, rfind_rreplace. done.
Qed.
Lemma to_map_rdelete r l : to_map (rdelete r l) = delete r (to_map l).
Proof.
  apply map_eq. intros q.
  rewrite lookup_delete, !lookup_to_map, rfind_rdelete. done.
Qed.
Lemma rsorted_NoDup l : rsorted l → NoDup (rank <$> l).
Proof.
  induction 1 as [|x l _ IH Hx]; [constructor|]. rewrite fmap_cons. constructor; [|done].
  intros (y & E & Hy)%list_elem_of_fmap. rewrite Forall_forall in Hx. apply Hx in Hy. lia.
Qed.
Lemma size_to_map l : rsorted l → size (to_map l) = length l.
Proof.
  intros Hs. unfold to_map. rewrite map_size_list_to_map; [by rewrite length_fmap|].
  rewrite <- list_fmap_compose. by apply rsorted_NoDup.
Qed.

(** [rfind_ge] on a sorted list is the least element of rank at least [r]. *)
Lemma rfind_ge_None r l : rfind_ge r l = None ↔ Forall (λ x, rank x < r) l.
Proof.
  induction l as [|d l IH]; [by split|]. rewrite rfind_ge_cons, Forall_cons.
  case_decide; [split; [done|lia]|]. rewrite IH. split; [|tauto]. split; [lia|done].
Qed.
Lemma rfind_ge_Some r l x :
  rsorted l →
  rfind_ge r l = Some x ↔ x ∈ l ∧ r ≤ rank x ∧ ∀ y, y ∈ l → r ≤ rank y → rank x ≤ rank y.
Proof.
  induction 1 as [|d l Hs IH Hd]; [split; [done|by intros (?%not_elem_of_nil & _)]|].
  rewrite rfind_ge_cons. rewrite Forall_forall in Hd. case_decide as Hr.
  - split.
    + intros [= ->]. split; [by left|]. split; [done|].
      intros y [->|Hy]%elem_of_cons _; [lia|]. apply Hd in Hy. lia.
    + intros ([->|Hx]%elem_of_cons & Hr' & Hmin); [done|].
      pose proof (Hmin d (list_elem_of_here _ _) Hr). apply Hd in Hx. lia.
  - rewrite IH. split.
    + intros (Hx & Hr' & Hmin). split; [by right|]. split; [done|].
      intros y [->|Hy]%elem_of_cons Hy'; [lia|by apply Hmin].
    + intros ([->|Hx]%elem_of_cons & Hr' & Hmin); [lia|].
      split; [done|]. split; [done|]. intros y Hy. apply Hmin. by right.
Qed.

(** ** As multisets *)

Lemma rsorted_split l r d :
  rsorted l → rfind r l = Some d → l = below r l ++ d :: above r l.
Proof.
  intros Hs Hd. pose proof (rfind_Some _ _ _ Hd) as [Hin Hr].
  apply list_elem_of_split in Hin as (l1 & l2 & ->). apply rsorted_cut in Hs as (_ & _ & H1 & H2).
  rewrite below_app, above_app, below_cons, above_cons. subst r.
  destruct (decide (rank d < rank d)); [lia|].
  by rewrite below_lt, below_ge, above_le, above_gt, app_nil_r by done.
Qed.

Lemma rdelete_perm l r d : rsorted l → rfind r l = Some d → l ≡ₚ d :: rdelete r l.
Proof.
  intros Hs Hd. rewrite (rsorted_split l r d Hs Hd) at 1. unfold rdelete.
  by rewrite Permutation_middle.
Qed.

Lemma rreplace_perm l x : rreplace x l ≡ₚ x :: rdelete (rank x) l.
Proof. unfold rreplace, rdelete. by rewrite Permutation_middle. Qed.

Lemma rinsert_perm l x : rsorted l → rfind (rank x) l = None → rinsert x l ≡ₚ x :: l.
Proof.
  intros Hs Hn. rewrite rreplace_rinsert by done. rewrite rreplace_perm. f_equiv.
  rewrite rfind_None in Hn. unfold rdelete, below, above. clear Hs.
  induction Hn as [|y l Hy Hn IH]; [done|]. rewrite !filter_cons.
  case_decide; case_decide; try lia; cbn; [by f_equiv|].
  rewrite <- Permutation_middle. by f_equiv.
Qed.
End RankList.
