(* ===== verification/LinkedList.v ===== *)
(** * Singly linked lists in a heap

    The nodes of trunk_mem.c and of fast_mblock.c are chained by a [next]
    pointer.  A heap gives the [next] field of every address it has
    ([nxt a = None]: no node there, [nxt a = Some None]: NULL).  [lseg p l q]
    says that following [next] from [p] passes through the nodes [l] and
    arrives at [q]. *)

From S2P Require Import Prelude.

Section LinkedList.
Implicit Types (nxt : positive → option (option positive)) (p q : option positive).

Fixpoint lseg nxt p (l : list positive) q : Prop :=
  match l with
  | [] => p = q
  | a :: l => p = Some a ∧ ∃ p', nxt a = Some p' ∧ lseg nxt p' l q
  end.

(** A whole list ends with NULL. *)
Abbreviation llist nxt p l := (lseg nxt p l None).

(** The search loops of trunk_mem.c: while the current node is not NULL and
    does not satisfy [stop], remember it as the previous one and go on.
    [None]: a wild pointer or the fuel is used up. *)
Fixpoint find_node nxt (stop : positive → option bool) (fuel : nat) (prev cur : option positive)
    : option (option positive * option positive) :=
  match cur with
  | None => Some (prev, None)
  | Some a =>
      found ← stop a;
      if (found : bool) then Some (prev, cur)
      else
        match fuel with
        | O => None
        | S fuel => n ← nxt a; find_node nxt stop fuel cur n
        end
  end.

(** ** Lemmas *)

Lemma lseg_app nxt p l1 l2 q :
  lseg nxt p (l1 ++ l2) q ↔ ∃ m, lseg nxt p l1 m ∧ lseg nxt m l2 q.
Proof.
  revert p. induction l1 as [|a l1 IH]; intros p; cbn.
  - split; [by exists p|]. by intros (m & -> & ?).
  - split.
    + intros (-> & p' & Hn & (m & H1 & H2)%IH). exists m. split; [|done]. split; [done|]. by exists p'.
    + intros (m & (-> & p' & Hn & H1) & H2). split; [done|]. exists p'. split; [done|].
      apply IH. by exists m.
Qed.

Lemma lseg_snoc nxt p l a q :
  lseg nxt p (l ++ [a]) q ↔ lseg nxt p l (Some a) ∧ nxt a = Some q.
Proof.
  rewrite lseg_app. cbn. split.
  - intros (m & H & -> & p' & Hn & ->). done.
  - intros [H Hn]. exists (Some a). split; [done|]. split; [done|]. by exists q.
Qed.

(** A list does not depend on the other nodes of the heap. *)
Lemma lseg_frame nxt nxt' p l q :
  (∀ a, a ∈ l → nxt' a = nxt a) → lseg nxt p l q → lseg nxt' p l q.
Proof.
  revert p. induction l as [|a l IH]; intros p Hf; cbn; [done|].
  intros (-> & p' & Hn & Hl). split; [done|]. exists p'. split; [rewrite Hf; [done|by left]|].
  apply IH; [|done]. intros b Hb. apply Hf. by right.
Qed.

Lemma llist_null nxt l : llist nxt None l → l = [].
Proof. destruct l; [done|]. by intros [? _]. Qed.

Lemma llist_nil nxt p : llist nxt p [] ↔ p = None.
Proof. done. Qed.

Lemma llist_head nxt p l : llist nxt p l → p = head l.
Proof. destruct l; [done|]. by intros [? _]. Qed.

Lemma llist_fun nxt p l l' : llist nxt p l → llist nxt p l' → l = l'.
Proof.
  revert p l'. induction l as [|a l IH]; intros p l' H H'.
  - cbn in H. subst. by apply llist_null in H'.
  - destruct H as (-> & p1 & Hn & H). destruct l' as [|b l']; [done|].
    destruct H' as ([= <-] & p2 & Hn' & H'). f_equal. eapply IH; [exact H|]. congruence.
Qed.

(** The last node before the end of a segment, [prev] when it is empty. *)
Definition last_or prev (l : list positive) : option positive :=
  match last l with Some a => Some a | None => prev end.

Lemma last_or_cons prev a l : last_or (Some a) l = last_or prev (a :: l).
Proof.
  unfold last_or. destruct l as [|b l]; [done|]. rewrite last_cons_cons.
  destruct (last (b :: l)) eqn:E; [done|]. by apply last_None in E.
Qed.

(** What the loop returns on a list: the first node that satisfies the
    test, with the node before it. *)
Lemma find_node_spec nxt stop (f : positive → bool) fuel prev cur l :
  llist nxt cur l → (∀ a, a ∈ l → stop a = Some (f a)) → (length l ≤ fuel)%nat →
  ∃ l1 l2, l = l1 ++ l2 ∧ Forall (λ a, f a = false) l1 ∧
    (∀ a, head l2 = Some a → f a = true) ∧
    find_node nxt stop fuel prev cur = Some (last_or prev l1, head l2).
Proof.
  revert fuel prev cur. induction l as [|a l IH]; intros fuel prev cur Hl Hs Hf.
  - cbn in Hl. subst. exists [], []. split_and!; [done|done|done|by destruct fuel].
  - destruct Hl as (-> & p' & Hn & Hl). destruct (f a) eqn:E.
    + exists [], (a :: l). split_and!; [done|done|by intros b [= <-]|].
      destruct fuel; cbn [find_node]; rewrite (Hs a), E by (by left); done.
    + destruct fuel as [|fuel]; [cbn in Hf; lia|].
      destruct (IH fuel (Some a) p' Hl) as (l1 & l2 & -> & H1 & H2 & H3);
        [intros; apply Hs; by right|cbn in Hf; lia|].
      exists (a :: l1), l2. split_and!; [done|by constructor|done|].
      cbn [find_node]. rewrite (Hs a), E by (by left). cbn [mbind option_bind]. rewrite Hn.
      cbn [mbind option_bind]. rewrite H3. by rewrite (last_or_cons prev).
Qed.
End LinkedList.

Abbreviation llist nxt p l := (lseg nxt p l None).
