(* ===== verification/AvlTree.v ===== *)
(** * common/avl_tree.c: balanced search trees

    [AVLTreeNode] is the tree of [AVLTreeNode] structs; an
    [AVLTreeNode **] parameter is the subtree it points at, returned in its
    new form, and the [int *taller] / [int *shorter] flags are threaded as
    the code threads them.  [None] is a dereference of NULL.  The only
    allocation of an insertion, [malloc] in [createTreeNode], may fail: its
    outcome is the argument [malloc_ok].  The user callbacks
    ([free_data_func], [data_op_func]) act on a state [W] of the caller. *)

From S2P Require Import Prelude RankList.

(** ** Data *)

Inductive AVLTreeNode (D : Type) : Type :=
  | TNull
  | TNode (data : D) (left right : AVLTreeNode D) (balance : Z).
Arguments TNull {D}.
Arguments TNode {D} data left right balance.

Record AVLTreeInfo (D W : Type) : Type := mkAVLTreeInfo {
  root : AVLTreeNode D;
  free_data_func : option (D → W → W);
  compare_func : D → D → Z
}.
Arguments mkAVLTreeInfo {D W} root free_data_func compare_func.
Arguments root {D W}.
Arguments free_data_func {D W}.
Arguments compare_func {D W}.

Definition is_null {D} (t : AVLTreeNode D) : bool :=
  match t with TNull => true | _ => false end.

Section AvlTree.
Context {D W : Type}.
Abbreviation tree := (AVLTreeNode D).
Implicit Types (t l r cur : tree) (w : W).

Definition avl_tree_init (f : option (D → W → W)) (cmp : D → D → Z) : AVLTreeInfo D W :=
  mkAVLTreeInfo TNull f cmp.

Definition set_root (tree : AVLTreeInfo D W) (t : AVLTreeNode D) : AVLTreeInfo D W :=
  mkAVLTreeInfo t (free_data_func tree) (compare_func tree).

(** [free_data_func] is applied when it is not NULL. *)
Definition call_free (f : option (D → W → W)) (d : D) w : W :=
  match f with Some g => g d w | None => w end.

Fixpoint avl_tree_destroy_loop (f : option (D → W → W)) cur w : W :=
  match cur with
  | TNull => w
  | TNode d l r _ =>
      let w := if is_null l then w else avl_tree_destroy_loop f l w in
      let w := if is_null r then w else avl_tree_destroy_loop f r w in
      call_free f d w
  end.

Definition avl_tree_destroy (tree : AVLTreeInfo D W) w : AVLTreeInfo D W * W :=
  if is_null (root tree) then (tree, w)
  else (set_root tree TNull, avl_tree_destroy_loop (free_data_func tree) (root tree) w).

(** ** Rotations and rebalancing *)

Definition createTreeNode (malloc_ok : bool) (target : D) : tree :=
  if malloc_ok then TNode target TNull TNull 0 else TNull.

Definition avlRotateLeft t : option tree :=
  match t with
  | TNode d l (TNode rd rl rr rb) b => Some (TNode rd (TNode d l rl b) rr rb)
  | _ => None
  end.

Definition avlRotateRight t : option tree :=
  match t with
  | TNode d (TNode ld ll lr lb) r b => Some (TNode ld ll (TNode d lr r b) lb)
  | _ => None
  end.

Definition balance_of t : option Z :=
  match t with TNode _ _ _ b => Some b | TNull => None end.
Definition set_balance t (b : Z) : tree :=
  match t with TNode d l r _ => TNode d l r b | TNull => TNull end.
Definition left_of t : option tree :=
  match t with TNode _ l _ _ => Some l | TNull => None end.
Definition right_of t : option tree :=
  match t with TNode _ _ r _ => Some r | TNull => None end.
Definition set_left t l' : tree :=
  match t with TNode d _ r b => TNode d l' r b | TNull => TNull end.
Definition set_right t r' : tree :=
  match t with TNode d l _ b => TNode d l r' b | TNull => TNull end.

(** The inner switch of the double rotation, on the balance of the
    grandchild: the new balances of the node and of its child. *)
Definition left_right_balances (rsb node_b leftsub_b : Z) : Z * Z :=
  match rsb with
  | -1 => (1, 0)
  | 0 => (0, 0)
  | 1 => (0, -1)
  | _ => (node_b, leftsub_b)
  end.

Definition right_left_balances (lsb node_b rightsub_b : Z) : Z * Z :=
  match lsb with
  | 1 => (-1, 0)
  | 0 => (0, 0)
  | -1 => (0, 1)
  | _ => (node_b, rightsub_b)
  end.

(** The double rotations: set the three balances, rotate the child, rotate
    the node. *)
Definition double_left_right t : option tree :=
  leftsub ← left_of t;
  rightsub ← right_of leftsub;
  rsb ← balance_of rightsub;
  tb ← balance_of t;
  lb ← balance_of leftsub;
  let '(tb', lb') := left_right_balances rsb tb lb in
  let leftsub := set_balance (set_right leftsub (set_balance rightsub 0)) lb' in
  leftsub' ← avlRotateLeft leftsub;
  avlRotateRight (set_left (set_balance t tb') leftsub').

Definition double_right_left t : option tree :=
  rightsub ← right_of t;
  leftsub ← left_of rightsub;
  lsb ← balance_of leftsub;
  tb ← balance_of t;
  rb ← balance_of rightsub;
  let '(tb', rb') := right_left_balances lsb tb rb in
  let rightsub := set_balance (set_left rightsub (set_balance leftsub 0)) rb' in
  rightsub' ← avlRotateRight rightsub;
  avlRotateLeft (set_right (set_balance t tb') rightsub').

Definition avlLeftBalanceWhenInsert t (taller : Z) : option (tree * Z) :=
  leftsub ← left_of t;
  lb ← balance_of leftsub;
  match lb with
  | -1 =>
      t' ← avlRotateRight (set_balance (set_left t (set_balance leftsub 0)) 0);
      Some (t', 0)
  | 0 => Some (t, taller)
  | 1 => t' ← double_left_right t; Some (t', 0)
  | _ => Some (t, taller)
  end.

Definition avlRightBalanceWhenInsert t (taller : Z) : option (tree * Z) :=
  rightsub ← right_of t;
  rb ← balance_of rightsub;
  match rb with
  | 1 =>
      t' ← avlRotateLeft (set_balance (set_right t (set_balance rightsub 0)) 0);
      Some (t', 0)
  | 0 => Some (t, taller)
  | -1 => t' ← double_right_left t; Some (t', 0)
  | _ => Some (t, taller)
  end.

(** The switch on the balance after the left (right) subtree grew. *)
Definition left_grown t (taller : Z) : option (tree * Z) :=
  b ← balance_of t;
  match b with
  | -1 => avlLeftBalanceWhenInsert t taller
  | 0 => Some (set_balance t (-1), taller)
  | 1 => Some (set_balance t 0, 0)
  | _ => Some (t, taller)
  end.

Definition right_grown t (taller : Z) : option (tree * Z) :=
  b ← balance_of t;
  match b with
  | -1 => Some (set_balance t 0, 0)
  | 0 => Some (set_balance t 1, taller)
  | 1 => avlRightBalanceWhenInsert t taller
  | _ => Some (t, taller)
  end.

(** ** Insertion and replacement *)

Fixpoint avl_tree_insert_loop (cmp : D → D → Z) (malloc_ok : bool) cur
    (target : D) (taller : Z) : option (tree * Z * Z) :=
  match cur with
  | TNull =>
      let cur' := createTreeNode malloc_ok target in
      if is_null cur' then Some (cur', taller, - ENOMEM) else Some (cur', 1, 1)
  | TNode d l r b =>
      let nCompRes := cmp d target in
      if nCompRes >? 0 then
        '(l', taller, success) ← avl_tree_insert_loop cmp malloc_ok l target taller;
        let cur := TNode d l' r b in
        if c_true taller then
          '(cur, taller) ← left_grown cur taller; Some (cur, taller, success)
        else Some (cur, taller, success)
      else if nCompRes <? 0 then
        '(r', taller, success) ← avl_tree_insert_loop cmp malloc_ok r target taller;
        let cur := TNode d l r' b in
        if c_true taller then
          '(cur, taller) ← right_grown cur taller; Some (cur, taller, success)
        else Some (cur, taller, success)
      else Some (cur, taller, 0)
  end.

Definition avl_tree_insert (malloc_ok : bool) (tree : AVLTreeInfo D W) (data : D) :
    option (AVLTreeInfo D W * Z) :=
  '(t, _, success) ←
    avl_tree_insert_loop (compare_func tree) malloc_ok (root tree) data 0;
  Some (set_root tree t, success).

Fixpoint avl_tree_replace_loop (cmp : D → D → Z) (f : option (D → W → W))
    (malloc_ok : bool) cur (target : D) (taller : Z) w : option (tree * Z * Z * W) :=
  match cur with
  | TNull =>
      let cur' := createTreeNode malloc_ok target in
      if is_null cur' then Some (cur', taller, - ENOMEM, w) else Some (cur', 1, 1, w)
  | TNode d l r b =>
      let nCompRes := cmp d target in
      if nCompRes >? 0 then
        '(l', taller, success, w) ←
          avl_tree_replace_loop cmp f malloc_ok l target taller w;
        let cur := TNode d l' r b in
        if c_true taller then
          '(cur, taller) ← left_grown cur taller; Some (cur, taller, success, w)
        else Some (cur, taller, success, w)
      else if nCompRes <? 0 then
        '(r', taller, success, w) ←
          avl_tree_replace_loop cmp f malloc_ok r target taller w;
        let cur := TNode d l r' b in
        if c_true taller then
          '(cur, taller) ← right_grown cur taller; Some (cur, taller, success, w)
        else Some (cur, taller, success, w)
      else Some (TNode target l r b, taller, 0, call_free f d w)
  end.

Definition avl_tree_replace (malloc_ok : bool) (tree : AVLTreeInfo D W) (data : D) w :
    option (AVLTreeInfo D W * Z * W) :=
  '(t, _, success, w) ←
    avl_tree_replace_loop (compare_func tree) (free_data_func tree) malloc_ok
      (root tree) data 0 w;
  Some (set_root tree t, success, w).

(** ** Search *)

Fixpoint avl_tree_find_loop (cmp : D → D → Z) cur (target : D) : option tree :=
  match cur with
  | TNull => None
  | TNode d l r b =>
      let nCompRes := cmp d target in
      if nCompRes >? 0 then
        if is_null l then None else avl_tree_find_loop cmp l target
      else if nCompRes <? 0 then
        if is_null r then None else avl_tree_find_loop cmp r target
      else Some cur
  end.

Fixpoint avl_tree_find_ge_loop (cmp : D → D → Z) cur (target : D) : option D :=
  match cur with
  | TNull => None
  | TNode d l r b =>
      let nCompRes := cmp d target in
      if nCompRes >? 0 then
        if is_null l then Some d
        else match avl_tree_find_ge_loop cmp l target with
             | Some found => Some found
             | None => Some d
             end
      else if nCompRes <? 0 then
        if is_null r then None else avl_tree_find_ge_loop cmp r target
      else Some d
  end.

Definition data_of t : option D :=
  match t with TNode d _ _ _ => Some d | TNull => None end.

(** [None] is the NULL result. *)
Definition avl_tree_find (tree : AVLTreeInfo D W) (target : D) : option D :=
  if is_null (root tree) then None
  else avl_tree_find_loop (compare_func tree) (root tree) target ≫= data_of.

Definition avl_tree_find_ge (tree : AVLTreeInfo D W) (target : D) : option D :=
  if is_null (root tree) then None
  else avl_tree_find_ge_loop (compare_func tree) (root tree) target.

(** A caller that writes through the pointer [avl_tree_find] returned
    changes the data of that node in place: the same descent as
    [avl_tree_find_loop], with the data it ends at replaced. *)
Fixpoint avl_tree_store_loop (cmp : D → D → Z) cur (target new : D) : tree :=
  match cur with
  | TNull => TNull
  | TNode d l r b =>
      let nCompRes := cmp d target in
      if nCompRes >? 0 then TNode d (avl_tree_store_loop cmp l target new) r b
      else if nCompRes <? 0 then TNode d l (avl_tree_store_loop cmp r target new) b
      else TNode new l r b
  end.

Definition avl_tree_store (tree : AVLTreeInfo D W) (target new : D) : AVLTreeInfo D W :=
  set_root tree (avl_tree_store_loop (compare_func tree) (root tree) target new).

(** ** Deletion *)

Definition avlLeftBalanceWhenDelete t (shorter : Z) : option (tree * Z) :=
  leftsub ← left_of t;
  lb ← balance_of leftsub;
  match lb with
  | -1 =>
      t' ← avlRotateRight (set_balance (set_left t (set_balance leftsub 0)) 0);
      Some (t', shorter)
  | 0 =>
      t' ← avlRotateRight (set_left t (set_balance leftsub 1));
      Some (t', 0)
  | 1 => t' ← double_left_right t; Some (t', shorter)
  | _ => Some (t, shorter)
  end.

Definition avlRightBalanceWhenDelete t (shorter : Z) : option (tree * Z) :=
  rightsub ← right_of t;
  rb ← balance_of rightsub;
  match rb with
  | 1 =>
      t' ← avlRotateLeft (set_balance (set_right t (set_balance rightsub 0)) 0);
      Some (t', shorter)
  | 0 =>
      t' ← avlRotateLeft (set_right t (set_balance rightsub (-1)));
      Some (t', 0)
  | -1 => t' ← double_right_left t; Some (t', shorter)
  | _ => Some (t, shorter)
  end.

(** The switch on the balance after the left (right) subtree shrank. *)
Definition left_shrunk t (shorter : Z) : option (tree * Z) :=
  b ← balance_of t;
  match b with
  | -1 => Some (set_balance t 0, shorter)
  | 0 => Some (set_balance t 1, 0)
  | 1 => avlRightBalanceWhenDelete t shorter
  | _ => Some (t, shorter)
  end.

Definition right_shrunk t (shorter : Z) : option (tree * Z) :=
  b ← balance_of t;
  match b with
  | -1 => avlLeftBalanceWhenDelete t shorter
  | 0 => Some (set_balance t (-1), 0)
  | 1 => Some (set_balance t 0, shorter)
  | _ => Some (t, shorter)
  end.

(** [moving] says that [pDeletedDataNode] is not NULL: the loop is then
    looking for the rightmost node, whose data it writes into
    [*pDeletedDataNode]; that data is the fourth component of the result. *)
Fixpoint avl_tree_delete_loop (cmp : D → D → Z) (f : option (D → W → W)) cur
    (target : D) (shorter : Z) (moving : bool) w :
    option (tree * Z * Z * option D * W) :=
  match cur with
  | TNull => None
  | TNode d l r b =>
      if moving && is_null r then Some (l, 1, 1, Some d, w)
      else
        let nCompRes := if moving then -1 else cmp d target in
        if nCompRes >? 0 then
          if is_null l then Some (cur, shorter, 0, None, w)
          else
            '(l', shorter, result, moved, w) ←
              avl_tree_delete_loop cmp f l target shorter moving w;
            let cur := TNode d l' r b in
            if c_true shorter then
              '(cur, shorter) ← left_shrunk cur shorter;
              Some (cur, shorter, result, moved, w)
            else Some (cur, shorter, result, moved, w)
        else if nCompRes <? 0 then
          if is_null r then Some (cur, shorter, 0, None, w)
          else
            '(r', shorter, result, moved, w) ←
              avl_tree_delete_loop cmp f r target shorter moving w;
            let cur := TNode d l r' b in
            if c_true shorter then
              '(cur, shorter) ← right_shrunk cur shorter;
              Some (cur, shorter, result, moved, w)
            else Some (cur, shorter, result, moved, w)
        else
          let w := call_free f d w in
          if is_null l then Some (r, 1, 1, None, w)
          else if is_null r then Some (l, 1, 1, None, w)
          else
            '(l', shorter, _, moved, w) ←
              avl_tree_delete_loop cmp f l target shorter true w;
            let cur := TNode (default d moved) l' r b in
            if c_true shorter then
              '(cur, shorter) ← left_shrunk cur shorter;
              Some (cur, shorter, 1, None, w)
            else Some (cur, shorter, 1, None, w)
  end.

Definition avl_tree_delete (tree : AVLTreeInfo D W) (data : D) w :
    option (AVLTreeInfo D W * Z * W) :=
  if is_null (root tree) then Some (tree, 0, w)
  else
    '(t, _, result, _, w) ←
      avl_tree_delete_loop (compare_func tree) (free_data_func tree) (root tree)
        data 0 false w;
    Some (set_root tree t, result, w).

(** ** Traversal, count and depth *)

Fixpoint avl_tree_walk_loop (op : D → W → Z * W) cur w : Z * W :=
  match cur with
  | TNull => (0, w)
  | TNode d l r _ =>
      let '(result, w) := if is_null l then (0, w) else avl_tree_walk_loop op l w in
      if c_true result then (result, w)
      else
        let '(result, w) := op d w in
        if c_true result then (result, w)
        else if is_null r then (result, w) else avl_tree_walk_loop op r w
  end.

Definition avl_tree_walk (tree : AVLTreeInfo D W) (op : D → W → Z * W) w : Z * W :=
  if is_null (root tree) then (0, w) else avl_tree_walk_loop op (root tree) w.

Fixpoint avl_tree_count_loop cur (count : Z) : Z :=
  match cur with
  | TNull => count
  | TNode _ l r _ =>
      let count := if is_null l then count else avl_tree_count_loop l count in
      let count := count + 1 in
      if is_null r then count else avl_tree_count_loop r count
  end.

Definition avl_tree_count (tree : AVLTreeInfo D W) : Z :=
  if is_null (root tree) then 0 else avl_tree_count_loop (root tree) 0.

Fixpoint avl_tree_depth_loop (cur : tree) (depth : Z) : Z :=
  match cur with
  | TNull => depth
  | TNode _ l r b => avl_tree_depth_loop (if b =? -1 then l else r) (depth + 1)
  end.

Definition avl_tree_depth (tree : AVLTreeInfo D W) : Z :=
  if is_null (root tree) then 0 else avl_tree_depth_loop (root tree) 0.

(** * Properties *)

(** ** The shape invariant

    [avl t h]: [t] has height [h], the subtrees of every node differ in
    height by at most one and the stored [balance] is that difference. *)
Inductive avl : tree → Z → Prop :=
  | avl_null : avl TNull 0
  | avl_node d l r b hl hr :
      avl l hl → avl r hr → b = hr - hl → -1 ≤ b ≤ 1 →
      avl (TNode d l r b) (1 + Z.max hl hr).

Fixpoint elements t : list D :=
  match t with
  | TNull => []
  | TNode d l r _ => elements l ++ d :: elements r
  end.

Lemma avl_null_inv h : avl TNull h → h = 0.
Proof. by inversion 1. Qed.

Lemma avl_node_inv d l r b h :
  avl (TNode d l r b) h →
  ∃ hl hr, avl l hl ∧ avl r hr ∧ b = hr - hl ∧ -1 ≤ b ≤ 1 ∧ h = 1 + Z.max hl hr.
Proof. inversion 1 as [|? ? ? ? hl hr]; subst. by exists hl, hr. Qed.

Lemma avl_node' d l r b hl hr h :
  avl l hl → avl r hr → b = hr - hl → -1 ≤ b ≤ 1 → h = 1 + Z.max hl hr →
  avl (TNode d l r b) h.
Proof. intros ???? ->. by constructor. Qed.

Lemma avl_height_nonneg t h : avl t h → 0 ≤ h.
Proof. induction 1; lia. Qed.

Lemma avl_pos t h :
  avl t h → 0 < h →
  ∃ d l r b hl hr, t = TNode d l r b ∧ avl l hl ∧ avl r hr ∧ b = hr - hl ∧
    -1 ≤ b ≤ 1 ∧ h = 1 + Z.max hl hr.
Proof.
  intros Ht Hh. destruct Ht as [|d l r b hl hr Hl Hr Hb Hb']; [lia|].
  by exists d, l, r, b, hl, hr.
Qed.

Lemma avl_zero t : avl t 0 → t = TNull.
Proof.
  inversion 1 as [|? ? ? ? hl hr Hl Hr]; [done|].
  apply avl_height_nonneg in Hl, Hr. lia.
Qed.

Lemma avl_height_fun t h h' : avl t h → avl t h' → h = h'.
Proof.
  intros H. revert h'. induction H as [|d l r b hl hr Hl IHl Hr IHr]; intros h' H'.
  - by apply avl_null_inv in H'.
  - apply avl_node_inv in H' as (hl' & hr' & Hl' & Hr' & _ & _ & ->).
    by rewrite (IHl _ Hl'), (IHr _ Hr').
Qed.

(** Case analysis on a subtree known to be non-empty, and the heights it
    brings. *)
Ltac avl_case H :=
  let d := fresh "d" in let l := fresh "l" in let r := fresh "r" in
  let b := fresh "b" in let hl := fresh "hl" in let hr := fresh "hr" in
  apply avl_pos in H as (d & l & r & b & hl & hr & -> & ? & ? & ? & ? & ?);
  [|lia];
  repeat match goal with
  | Ht : avl ?t ?h |- _ =>
      lazymatch goal with
      | _ : 0 ≤ h |- _ => fail
      | _ => pose proof (avl_height_nonneg t h Ht)
      end
  end.
(** The balance of a node is one of the three values the code switches on. *)
Ltac balance_case b :=
  let H := fresh in
  assert (b = -1 ∨ b = 0 ∨ b = 1) as H by lia;
  destruct H as [H|[H|H]]; [rewrite H in *..]; try lia.
Ltac build_sub :=
  first [ eassumption | eapply avl_node; [build_sub|build_sub|lia|lia] ].
Ltac build_avl := eapply avl_node'; [build_sub|build_sub|lia|lia|lia].
(** Both sides of an equation of in-order lists, associated the same way. *)
Ltac assoc_lists := cbn; rewrite <- ?app_assoc; cbn; rewrite <- ?app_assoc; done.

(** A double rotation of a node two too high on its left (right), whose left
    (right) child leans the other way, gives back the original height. *)
Lemma double_left_right_avl d l r b hl :
  avl l (hl + 1) → avl r (hl - 1) → balance_of l = Some 1 →
  ∃ t', double_left_right (TNode d l r b) = Some t' ∧ avl t' (hl + 1) ∧
        elements t' = elements l ++ d :: elements r ∧ balance_of t' = Some 0.
Proof.
  intros Hl Hr Hb. pose proof (avl_height_nonneg _ _ Hr).
  avl_case Hl. injection Hb as ->. avl_case H1.
  unfold double_left_right; cbn. balance_case b0; cbn.
  all: eexists; split; [done|]; split; [build_avl|]; split; [assoc_lists|done].
Qed.

Lemma double_right_left_avl d l r b hr :
  avl r (hr + 1) → avl l (hr - 1) → balance_of r = Some (-1) →
  ∃ t', double_right_left (TNode d l r b) = Some t' ∧ avl t' (hr + 1) ∧
        elements t' = elements l ++ d :: elements r ∧ balance_of t' = Some 0.
Proof.
  intros Hr Hl Hb. pose proof (avl_height_nonneg _ _ Hl).
  avl_case Hr. injection Hb as ->. avl_case H0.
  unfold double_right_left; cbn. balance_case b0; cbn.
  all: eexists; split; [done|]; split; [build_avl|]; split; [assoc_lists|done].
Qed.

#[local] Arguments double_left_right : simpl never.
#[local] Arguments double_right_left : simpl never.

(** ** Growth: the subtree below came back one higher *)

Lemma left_grown_avl d l r b hl hr :
  avl l (hl + 1) → avl r hr → b = hr - hl → -1 ≤ b ≤ 1 →
  (hl = 0 ∨ balance_of l ≠ Some 0) →
  ∃ t' taller, left_grown (TNode d l r b) 1 = Some (t', taller) ∧
    elements t' = elements l ++ d :: elements r ∧
    (taller = 0 ∧ avl t' (1 + Z.max hl hr) ∨
     taller = 1 ∧ avl t' (2 + Z.max hl hr) ∧ balance_of t' ≠ Some 0).
Proof.
  intros Hl Hr Hb Hb' Hlean. pose proof (avl_height_nonneg _ _ Hr).
  unfold left_grown; cbn. balance_case b; cbn.
  - pose proof Hl as Hl'. avl_case Hl. unfold avlLeftBalanceWhenInsert; cbn in *.
    balance_case b0; cbn.
    + eexists _, 0. split; [done|]. split; [assoc_lists|]. left. split; [done|build_avl].
    + destruct Hlean; [lia|done].
    + destruct (double_left_right_avl d (TNode d0 l0 r0 1) r (-1) hl) as (t' & -> & ? & ? & _);
        [done|by replace (hl - 1) with hr by lia|done|].
      eexists _, 0. split; [done|]. split; [assumption|]. left. split; [done|].
      by replace (1 + hl `max` hr) with (hl + 1) by lia.
  - eexists _, 1. split; [done|]. split; [done|]. right. split; [done|]. split; [build_avl|done].
  - eexists _, 0. split; [done|]. split; [done|]. left. split; [done|build_avl].
Qed.

Lemma right_grown_avl d l r b hl hr :
  avl l hl → avl r (hr + 1) → b = hr - hl → -1 ≤ b ≤ 1 →
  (hr = 0 ∨ balance_of r ≠ Some 0) →
  ∃ t' taller, right_grown (TNode d l r b) 1 = Some (t', taller) ∧
    elements t' = elements l ++ d :: elements r ∧
    (taller = 0 ∧ avl t' (1 + Z.max hl hr) ∨
     taller = 1 ∧ avl t' (2 + Z.max hl hr) ∧ balance_of t' ≠ Some 0).
Proof.
  intros Hl Hr Hb Hb' Hlean. pose proof (avl_height_nonneg _ _ Hl).
  unfold right_grown; cbn. balance_case b; cbn.
  - eexists _, 0. split; [done|]. split; [done|]. left. split; [done|build_avl].
  - eexists _, 1. split; [done|]. split; [done|]. right. split; [done|]. split; [build_avl|done].
  - pose proof Hr as Hr'. avl_case Hr. unfold avlRightBalanceWhenInsert; cbn in *.
    balance_case b0; cbn.
    + destruct (double_right_left_avl d l (TNode d0 l0 r0 (-1)) 1 hr) as (t' & -> & ? & ? & _);
        [done|by replace (hr - 1) with hl by lia|done|].
      eexists _, 0. split; [done|]. split; [assumption|]. left. split; [done|].
      by replace (1 + hl `max` hr) with (hr + 1) by lia.
    + destruct Hlean; [lia|done].
    + eexists _, 0. split; [done|]. split; [assoc_lists|]. left. split; [done|build_avl].
Qed.

(** ** Shrinkage: the subtree below came back one lower *)

Lemma left_shrunk_avl d l r b hl hr :
  avl l (hl - 1) → avl r hr → b = hr - hl → -1 ≤ b ≤ 1 →
  ∃ t' shorter, left_shrunk (TNode d l r b) 1 = Some (t', shorter) ∧
    elements t' = elements l ++ d :: elements r ∧
    (shorter = 0 ∧ avl t' (1 + Z.max hl hr) ∨ shorter = 1 ∧ avl t' (Z.max hl hr)).
Proof.
  intros Hl Hr Hb Hb'. pose proof (avl_height_nonneg _ _ Hl).
  unfold left_shrunk; cbn. balance_case b; cbn.
  - eexists _, 1. split; [done|]. split; [done|]. right. split; [done|build_avl].
  - eexists _, 0. split; [done|]. split; [done|]. left. split; [done|build_avl].
  - pose proof Hr as Hr'. avl_case Hr. unfold avlRightBalanceWhenDelete; cbn in *.
    balance_case b0; cbn.
    + destruct (double_right_left_avl d l (TNode d0 l0 r0 (-1)) 1 (hr - 1))
        as (t' & -> & ? & ? & _);
        [by replace (hr - 1 + 1) with hr by lia|by replace (hr - 1 - 1) with (hl - 1) by lia|done|].
      eexists _, 1. split; [done|]. split; [assumption|]. right. split; [done|].
      by replace (hl `max` hr) with (hr - 1 + 1) by lia.
    + eexists _, 0. split; [done|]. split; [assoc_lists|]. left. split; [done|build_avl].
    + eexists _, 1. split; [done|]. split; [assoc_lists|]. right. split; [done|build_avl].
Qed.

Lemma right_shrunk_avl d l r b hl hr :
  avl l hl → avl r (hr - 1) → b = hr - hl → -1 ≤ b ≤ 1 →
  ∃ t' shorter, right_shrunk (TNode d l r b) 1 = Some (t', shorter) ∧
    elements t' = elements l ++ d :: elements r ∧
    (shorter = 0 ∧ avl t' (1 + Z.max hl hr) ∨ shorter = 1 ∧ avl t' (Z.max hl hr)).
Proof.
  intros Hl Hr Hb Hb'. pose proof (avl_height_nonneg _ _ Hr).
  unfold right_shrunk; cbn. balance_case b; cbn.
  - pose proof Hl as Hl'. avl_case Hl. unfold avlLeftBalanceWhenDelete; cbn in *.
    balance_case b0; cbn.
    + eexists _, 1. split; [done|]. split; [assoc_lists|]. right. split; [done|build_avl].
    + eexists _, 0. split; [done|]. split; [assoc_lists|]. left. split; [done|build_avl].
    + destruct (double_left_right_avl d (TNode d0 l0 r0 1) r (-1) (hl - 1))
        as (t' & -> & ? & ? & _);
        [by replace (hl - 1 + 1) with hl by lia|by replace (hl - 1 - 1) with (hr - 1) by lia|done|].
      eexists _, 1. split; [done|]. split; [assumption|]. right. split; [done|].
      by replace (hl `max` hr) with (hl - 1 + 1) by lia.
  - eexists _, 0. split; [done|]. split; [done|]. left. split; [done|build_avl].
  - eexists _, 1. split; [done|]. split; [done|]. right. split; [done|build_avl].
Qed.

(** ** The code after a recursive call

    Every loop ends a branch by testing the flag the call set and, when it
    is set, switching on the balance: one lemma per side and direction
    gives what the rest of the branch ([k]) receives. *)

Lemma left_grown_step {A} (k : tree → Z → option A) d l r b hl hr h taller :
  (taller = 0 ∧ avl l hl ∨
   taller = 1 ∧ avl l (hl + 1) ∧ (hl = 0 ∨ balance_of l ≠ Some 0)) →
  avl r hr → b = hr - hl → -1 ≤ b ≤ 1 → h = 1 + Z.max hl hr →
  ∃ t' taller',
    (if c_true taller then
       '(cur, taller) ← left_grown (TNode d l r b) taller; k cur taller
     else k (TNode d l r b) taller) = k t' taller' ∧
    elements t' = elements l ++ d :: elements r ∧
    (taller' = 0 ∧ avl t' h ∨
     taller' = 1 ∧ avl t' (h + 1) ∧ (h = 0 ∨ balance_of t' ≠ Some 0)).
Proof.
  intros [(-> & Hl)|(-> & Hl & Hlean)] Hr Hb Hb' ->.
  - eexists _, 0. split; [done|]. split; [done|]. left. split; [done|by constructor].
  - destruct (left_grown_avl d l r b hl hr) as (t' & tl & E & Et & Hcase); try done.
    cbn [c_true Z.eqb negb]. rewrite E. exists t', tl. split; [done|]. split; [done|].
    destruct Hcase as [[-> ?]|(-> & ? & ?)]; [by left|right].
    split; [done|]. split; [|by right]. by replace (1 + hl `max` hr + 1) with (2 + hl `max` hr) by lia.
Qed.

Lemma right_grown_step {A} (k : tree → Z → option A) d l r b hl hr h taller :
  (taller = 0 ∧ avl r hr ∨
   taller = 1 ∧ avl r (hr + 1) ∧ (hr = 0 ∨ balance_of r ≠ Some 0)) →
  avl l hl → b = hr - hl → -1 ≤ b ≤ 1 → h = 1 + Z.max hl hr →
  ∃ t' taller',
    (if c_true taller then
       '(cur, taller) ← right_grown (TNode d l r b) taller; k cur taller
     else k (TNode d l r b) taller) = k t' taller' ∧
    elements t' = elements l ++ d :: elements r ∧
    (taller' = 0 ∧ avl t' h ∨
     taller' = 1 ∧ avl t' (h + 1) ∧ (h = 0 ∨ balance_of t' ≠ Some 0)).
Proof.
  intros [(-> & Hr)|(-> & Hr & Hlean)] Hl Hb Hb' ->.
  - eexists _, 0. split; [done|]. split; [done|]. left. split; [done|by constructor].
  - destruct (right_grown_avl d l r b hl hr) as (t' & tl & E & Et & Hcase); try done.
    cbn [c_true Z.eqb negb]. rewrite E. exists t', tl. split; [done|]. split; [done|].
    destruct Hcase as [[-> ?]|(-> & ? & ?)]; [by left|right].
    split; [done|]. split; [|by right]. by replace (1 + hl `max` hr + 1) with (2 + hl `max` hr) by lia.
Qed.

Lemma left_shrunk_step {A} (k : tree → Z → option A) d l r b hl hr h shorter :
  (shorter = 0 ∧ avl l hl ∨ shorter = 1 ∧ avl l (hl - 1)) →
  avl r hr → b = hr - hl → -1 ≤ b ≤ 1 → h = 1 + Z.max hl hr →
  ∃ t' shorter',
    (if c_true shorter then
       '(cur, shorter) ← left_shrunk (TNode d l r b) shorter; k cur shorter
     else k (TNode d l r b) shorter) = k t' shorter' ∧
    elements t' = elements l ++ d :: elements r ∧
    (shorter' = 0 ∧ avl t' h ∨ shorter' = 1 ∧ avl t' (h - 1)).
Proof.
  intros [(-> & Hl)|(-> & Hl)] Hr Hb Hb' ->.
  - eexists _, 0. split; [done|]. split; [done|]. left. split; [done|by constructor].
  - destruct (left_shrunk_avl d l r b hl hr) as (t' & sh & E & Et & Hcase); try done.
    cbn [c_true Z.eqb negb]. rewrite E. exists t', sh. split; [done|]. split; [done|].
    destruct Hcase as [[-> ?]|(-> & ?)]; [by left|right].
    split; [done|]. by replace (1 + hl `max` hr - 1) with (hl `max` hr) by lia.
Qed.

Lemma right_shrunk_step {A} (k : tree → Z → option A) d l r b hl hr h shorter :
  (shorter = 0 ∧ avl r hr ∨ shorter = 1 ∧ avl r (hr - 1)) →
  avl l hl → b = hr - hl → -1 ≤ b ≤ 1 → h = 1 + Z.max hl hr →
  ∃ t' shorter',
    (if c_true shorter then
       '(cur, shorter) ← right_shrunk (TNode d l r b) shorter; k cur shorter
     else k (TNode d l r b) shorter) = k t' shorter' ∧
    elements t' = elements l ++ d :: elements r ∧
    (shorter' = 0 ∧ avl t' h ∨ shorter' = 1 ∧ avl t' (h - 1)).
Proof.
  intros [(-> & Hr)|(-> & Hr)] Hl Hb Hb' ->.
  - eexists _, 0. split; [done|]. split; [done|]. left. split; [done|by constructor].
  - destruct (right_shrunk_avl d l r b hl hr) as (t' & sh & E & Et & Hcase); try done.
    cbn [c_true Z.eqb negb]. rewrite E. exists t', sh. split; [done|]. split; [done|].
    destruct Hcase as [[-> ?]|(-> & ?)]; [by left|right].
    split; [done|]. by replace (1 + hl `max` hr - 1) with (hl `max` hr) by lia.
Qed.
End AvlTree.

#[global] Arguments left_grown : simpl never.
#[global] Arguments right_grown : simpl never.
#[global] Arguments left_shrunk : simpl never.
#[global] Arguments right_shrunk : simpl never.

(** ** Comparison functions

    What a client promises of its [compare_func]: on the data it stores
    ([valid]) the sign of the result is that of the difference of two
    ranks. *)
Class RankCompare {D} (valid : D → Prop) (rank : D → Z) (cmp : D → D → Z) : Prop :=
  cmp_rank : ∀ x y, valid x → valid y → Z.sgn (cmp x y) = Z.sgn (rank x - rank y).

(** The three-way test of the loops decides the order of the ranks. *)
Lemma cmp_cases {D valid rank cmp} `{RankCompare D valid rank cmp} x y :
  valid x → valid y →
  (rank y < rank x ∧ (cmp x y >? 0) = true) ∨
  (rank x < rank y ∧ (cmp x y >? 0) = false ∧ (cmp x y <? 0) = true) ∨
  (rank x = rank y ∧ (cmp x y >? 0) = false ∧ (cmp x y <? 0) = false).
Proof.
  intros Hx Hy. pose proof (cmp_rank x y Hx Hy) as E.
  destruct (Z.lt_trichotomy (cmp x y) 0) as [H'|[H'|H']];
    [rewrite (Z.sgn_neg _ H') in E | rewrite H' in E; cbn in E | rewrite (Z.sgn_pos _ H') in E];
    destruct (Z.lt_trichotomy (rank x - rank y) 0) as [Hr|[Hr|Hr]];
    rewrite ?(Z.sgn_neg _ Hr), ?(Z.sgn_pos _ Hr), ?Hr in E; cbn in E; lia.
Qed.

(** The invariant of a tree that a client owns. *)
Record avl_ok {D} (valid : D → Prop) (rank : D → Z) (t : AVLTreeNode D) : Prop := {
  ok_shape : ∃ h, avl t h;
  ok_valid : Forall valid (elements t);
  ok_sorted : rsorted rank (elements t)
}.

Section Ordered.
Context {D W : Type} (valid : D → Prop) (rank : D → Z) (cmp : D → D → Z).
Context `{HC : !RankCompare valid rank cmp}.
Abbreviation tree := (AVLTreeNode D).

(** Descend at a node: its data, its two sides, and the side of the target. *)
Ltac descend Hv Hs :=
  let Hvl := fresh "Hvl" in let Hvd := fresh "Hvd" in let Hvr := fresh "Hvr" in
  let Hsl := fresh "Hsl" in let Hsr := fresh "Hsr" in
  let Hlt := fresh "Hlt" in let Hgt := fresh "Hgt" in
  cbn [elements] in *;
  apply Forall_app in Hv as [Hvl [Hvd Hvr]%Forall_cons];
  apply rsorted_cut in Hs as (Hsl & Hsr & Hlt & Hgt).

(** What an insertion leaves in the list. *)
Definition inserted (malloc_ok : bool) (x : D) (l : list D) : list D :=
  if malloc_ok then rinsert rank x l else l.
Definition insert_code (malloc_ok : bool) (x : D) (l : list D) : Z :=
  match rfind rank (rank x) l with
  | Some _ => 0
  | None => if malloc_ok then 1 else - ENOMEM
  end.

Lemma avl_tree_insert_loop_spec ok t x h :
  avl t h → Forall valid (elements t) → rsorted rank (elements t) → valid x →
  ∃ t' taller,
    avl_tree_insert_loop cmp ok t x 0 = Some (t', taller, insert_code ok x (elements t)) ∧
    elements t' = inserted ok x (elements t) ∧
    (taller = 0 ∧ avl t' h ∨
     taller = 1 ∧ avl t' (h + 1) ∧ (h = 0 ∨ balance_of t' ≠ Some 0)).
Proof.
  intros Ht. induction Ht as [|d l r b hl hr Hl IHl Hr IHr Hb Hb']; intros Hv Hs Hx.
  - destruct ok; cbn; (eexists _, _; split; [done|]; split; [done|]).
    + right. split; [done|]. split; [|by left]. by apply (avl_node x TNull TNull 0 0 0); try constructor.
    + left. split; [done|constructor].
  - descend Hv Hs. cbn [avl_tree_insert_loop].
    destruct (cmp_cases d x Hvd Hx) as [(Hr' & ->)|[(Hr' & -> & ->)|(Hr' & -> & ->)]].
    + destruct (IHl Hvl Hsl Hx) as (l' & tl & -> & El & Hcase).
      unfold insert_code, inserted in *. rewrite rfind_cut_lt, rinsert_cut_lt by done.
      edestruct (left_grown_step (λ (cur : tree) (tl : Z), Some (cur, tl, insert_code ok x (elements l))) d l' r b hl hr (1 + Z.max hl hr) tl)
        as (t' & tl' & E & Et & Hcase'); [exact Hcase|done..|].
      exists t', tl'. split; [exact E|]. split; [|exact Hcase']. rewrite Et, El. by destruct ok.
    + destruct (IHr Hvr Hsr Hx) as (r' & tl & -> & Er & Hcase).
      unfold insert_code, inserted in *. rewrite rfind_cut_gt, rinsert_cut_gt by done.
      edestruct (right_grown_step (λ (cur : tree) (tl : Z), Some (cur, tl, insert_code ok x (elements r))) d l r' b hl hr (1 + Z.max hl hr) tl)
        as (t' & tl' & E & Et & Hcase'); [exact Hcase|done..|].
      exists t', tl'. split; [exact E|]. split; [|exact Hcase']. rewrite Et, Er. by destruct ok.
    + unfold insert_code, inserted. rewrite rfind_cut_eq, rinsert_cut_eq by done.
      eexists _, 0. split; [done|]. split; [by destruct ok|]. left. split; [done|by constructor].
Qed.

(** Search follows the in-order list. *)
Lemma avl_tree_find_loop_spec t x :
  Forall valid (elements t) → rsorted rank (elements t) → valid x →
  avl_tree_find_loop cmp t x ≫= data_of = rfind rank (rank x) (elements t).
Proof.
  induction t as [|d l IHl r IHr b]; intros Hv Hs Hx; [done|].
  descend Hv Hs. cbn [avl_tree_find_loop].
  destruct (cmp_cases d x Hvd Hx) as [(Hr' & ->)|[(Hr' & -> & ->)|(Hr' & -> & ->)]].
  - rewrite rfind_cut_lt by done. rewrite <- IHl by done. by destruct l.
  - rewrite rfind_cut_gt by done. rewrite <- IHr by done. by destruct r.
  - by rewrite rfind_cut_eq.
Qed.

Lemma avl_tree_find_ge_loop_spec t x :
  Forall valid (elements t) → rsorted rank (elements t) → valid x →
  avl_tree_find_ge_loop cmp t x = rfind_ge rank (rank x) (elements t).
Proof.
  induction t as [|d l IHl r IHr b]; intros Hv Hs Hx; [done|].
  descend Hv Hs. cbn [avl_tree_find_ge_loop].
  destruct (cmp_cases d x Hvd Hx) as [(Hr' & ->)|[(Hr' & -> & ->)|(Hr' & -> & ->)]].
  - rewrite rfind_ge_cut_lt, <- IHl by done. by destruct l.
  - rewrite rfind_ge_cut_gt, <- IHr by done. by destruct r.
  - by rewrite rfind_ge_cut_eq.
Qed.

Lemma avl_tree_store_loop_shape t x y h : avl t h → avl (avl_tree_store_loop cmp t x y) h.
Proof.
  induction 1; cbn; [constructor|].
  destruct (_ >? _); [|destruct (_ <? _)]; by constructor.
Qed.

Lemma avl_tree_store_loop_spec t x y :
  Forall valid (elements t) → rsorted rank (elements t) → valid x → rank y = rank x →
  elements (avl_tree_store_loop cmp t x y) =
  match rfind rank (rank x) (elements t) with
  | Some _ => rreplace rank y (elements t)
  | None => elements t
  end.
Proof.
  induction t as [|d l IHl r IHr b]; intros Hv Hs Hx Hy; [done|].
  descend Hv Hs. cbn [avl_tree_store_loop].
  destruct (cmp_cases d x Hvd Hx) as [(Hr' & ->)|[(Hr' & -> & ->)|(Hr' & -> & ->)]].
  - rewrite rfind_cut_lt, rreplace_cut_lt by (done || lia). cbn. rewrite IHl by done.
    by destruct (rfind _ _ (elements l)).
  - rewrite rfind_cut_gt, rreplace_cut_gt by (done || lia). cbn. rewrite IHr by done.
    by destruct (rfind _ _ (elements r)).
  - by rewrite rfind_cut_eq, rreplace_cut_eq by (done || lia).
Qed.

(** Moving the greatest data of a subtree out of it. *)
Lemma avl_tree_delete_loop_moving (f : option (D → W → W)) t x h w :
  avl t h → t ≠ TNull →
  ∃ t' shorter d,
    avl_tree_delete_loop cmp f t x 0 true w = Some (t', shorter, 1, Some d, w) ∧
    elements t = elements t' ++ [d] ∧
    (shorter = 0 ∧ avl t' h ∨ shorter = 1 ∧ avl t' (h - 1)).
Proof.
  intros Ht. induction Ht as [|d l r b hl hr Hl IHl Hr IHr Hb Hb']; [done|intros _].
  destruct r as [|rd rl rr rb] eqn:Er.
  - apply avl_null_inv in Hr as ->. apply avl_height_nonneg in Hl as ?.
    exists l, 1, d. split; [done|]. split; [done|]. right. split; [done|].
    by replace (1 + hl `max` 0 - 1) with hl by lia.
  - rewrite <- Er in *. destruct IHr as (r' & sh & m & E & Er' & Hcase); [by rewrite Er|].
    cbn [avl_tree_delete_loop andb Z.gtb Z.ltb Z.compare].
    replace (is_null r) with false by by rewrite Er. rewrite E.
    edestruct (right_shrunk_step (λ (cur : tree) (sh : Z), Some (cur, sh, 1, Some m, w)) d l r' b hl hr (1 + Z.max hl hr) sh)
      as (t' & sh' & E' & Et & Hcase'); [exact Hcase|done..|].
    exists t', sh', m. split; [exact E'|]. split; [|exact Hcase'].
    cbn. by rewrite Et, Er', <- app_assoc.
Qed.

Definition delete_code (x : D) (l : list D) : Z :=
  match rfind rank (rank x) l with Some _ => 1 | None => 0 end.
Definition delete_effect (f : option (D → W → W)) (x : D) (l : list D) (w : W) : W :=
  match rfind rank (rank x) l with Some d => call_free f d w | None => w end.

Lemma avl_tree_delete_loop_spec (f : option (D → W → W)) t x h w :
  avl t h → t ≠ TNull → Forall valid (elements t) → rsorted rank (elements t) → valid x →
  ∃ t' shorter,
    avl_tree_delete_loop cmp f t x 0 false w =
      Some (t', shorter, delete_code x (elements t), None, delete_effect f x (elements t) w) ∧
    elements t' = rdelete rank (rank x) (elements t) ∧
    (shorter = 0 ∧ avl t' h ∨ shorter = 1 ∧ avl t' (h - 1)).
Proof.
  intros Ht. induction Ht as [|d l r b hl hr Hl IHl Hr IHr Hb Hb']; [done|].
  intros _ Hv Hs Hx. pose proof (avl_height_nonneg _ _ Hl). pose proof (avl_height_nonneg _ _ Hr).
  descend Hv Hs. cbn [avl_tree_delete_loop andb]. unfold delete_code, delete_effect in *.
  destruct (cmp_cases d x Hvd Hx) as [(Hr' & ->)|[(Hr' & -> & ->)|(Hr' & -> & ->)]].
  - rewrite rfind_cut_lt, rdelete_cut_lt by done.
    destruct l as [|ld ll lr lb] eqn:El.
    { eexists _, 0. split; [done|]. split; [done|]. left. split; [done|by constructor]. }
    rewrite <- El in *. replace (is_null l) with false by by rewrite El.
    destruct IHl as (l' & sh & -> & E & Hcase); try done; [by rewrite El|].
    edestruct (left_shrunk_step (λ (cur : tree) (sh : Z), Some (cur, sh, delete_code x (elements l),
      @None D, delete_effect f x (elements l) w)) d l' r b hl hr (1 + Z.max hl hr) sh) as (t' & sh' & E' & Et & Hcase');
      [exact Hcase|done..|].
    exists t', sh'. split; [exact E'|]. split; [by rewrite Et, E|exact Hcase'].
  - rewrite rfind_cut_gt, rdelete_cut_gt by done.
    destruct r as [|rd rl rr rb] eqn:Er.
    { eexists _, 0. split; [done|]. split; [done|]. left. split; [done|by constructor]. }
    rewrite <- Er in *. replace (is_null r) with false by by rewrite Er.
    destruct IHr as (r' & sh & -> & E & Hcase); try done; [by rewrite Er|].
    edestruct (right_shrunk_step (λ (cur : tree) (sh : Z), Some (cur, sh, delete_code x (elements r),
      @None D, delete_effect f x (elements r) w)) d l r' b hl hr (1 + Z.max hl hr) sh) as (t' & sh' & E' & Et & Hcase');
      [exact Hcase|done..|].
    exists t', sh'. split; [exact E'|]. split; [by rewrite Et, E|exact Hcase'].
  - rewrite rfind_cut_eq, rdelete_cut_eq by done.
    destruct l as [|ld ll lr lb] eqn:El.
    { apply avl_null_inv in Hl as ->. eexists _, 1. split; [done|]. split; [done|]. right.
      split; [done|]. by replace (1 + 0 `max` hr - 1) with hr by lia. }
    rewrite <- El in *. replace (is_null l) with false by by rewrite El.
    destruct r as [|rd rl rr rb] eqn:Er.
    { apply avl_null_inv in Hr as ->. eexists _, 1. split; [done|].
      split; [by rewrite app_nil_r|]. right.
      split; [done|]. by replace (1 + hl `max` 0 - 1) with hl by lia. }
    rewrite <- Er in *. replace (is_null r) with false by by rewrite Er.
    destruct (avl_tree_delete_loop_moving f l x hl (call_free f d w)) as
      (l' & sh & m & -> & E & Hcase); [done|by rewrite El|].
    edestruct (left_shrunk_step (λ (cur : tree) (sh : Z), Some (cur, sh, 1, @None D, call_free f d w)) m l' r b hl hr (1 + Z.max hl hr) sh)
      as (t' & sh' & E' & Et & Hcase'); [exact Hcase|done..|].
    exists t', sh'. split; [exact E'|]. split; [by rewrite Et, E, <- app_assoc|exact Hcase'].
Qed.

(** What [avl_tree_replace] leaves in the list. *)
Definition replaced (malloc_ok : bool) (x : D) (l : list D) : list D :=
  match rfind rank (rank x) l with
  | Some _ => rreplace rank x l
  | None => if malloc_ok then rreplace rank x l else l
  end.

Lemma avl_tree_replace_loop_spec (f : option (D → W → W)) ok t x h w :
  avl t h → Forall valid (elements t) → rsorted rank (elements t) → valid x →
  ∃ t' taller,
    avl_tree_replace_loop cmp f ok t x 0 w =
      Some (t', taller, insert_code ok x (elements t), delete_effect f x (elements t) w) ∧
    elements t' = replaced ok x (elements t) ∧
    (taller = 0 ∧ avl t' h ∨
     taller = 1 ∧ avl t' (h + 1) ∧ (h = 0 ∨ balance_of t' ≠ Some 0)).
Proof.
  intros Ht. induction Ht as [|d l r b hl hr Hl IHl Hr IHr Hb Hb']; intros Hv Hs Hx.
  - destruct ok; cbn; (eexists _, _; split; [done|]; split; [done|]).
    + right. split; [done|]. split; [|by left]. by apply (avl_node x TNull TNull 0 0 0); try constructor.
    + left. split; [done|constructor].
  - descend Hv Hs. cbn [avl_tree_replace_loop].
    unfold insert_code, replaced, delete_effect in *.
    destruct (cmp_cases d x Hvd Hx) as [(Hr' & ->)|[(Hr' & -> & ->)|(Hr' & -> & ->)]].
    + destruct (IHl Hvl Hsl Hx) as (l' & tl & -> & El & Hcase).
      rewrite rfind_cut_lt, rreplace_cut_lt by done.
      edestruct (left_grown_step (λ (cur : tree) (tl : Z), Some (cur, tl,
        insert_code ok x (elements l), delete_effect f x (elements l) w))
        d l' r b hl hr (1 + Z.max hl hr) tl)
        as (t' & tl' & E & Et & Hcase'); [exact Hcase|done..|].
      exists t', tl'. split; [exact E|]. split; [|exact Hcase']. rewrite Et, El.
      by destruct (rfind _ _ _), ok.
    + destruct (IHr Hvr Hsr Hx) as (r' & tl & -> & Er & Hcase).
      rewrite rfind_cut_gt, rreplace_cut_gt by done.
      edestruct (right_grown_step (λ (cur : tree) (tl : Z), Some (cur, tl,
        insert_code ok x (elements r), delete_effect f x (elements r) w))
        d l r' b hl hr (1 + Z.max hl hr) tl)
        as (t' & tl' & E & Et & Hcase'); [exact Hcase|done..|].
      exists t', tl'. split; [exact E|]. split; [|exact Hcase']. rewrite Et, Er.
      destruct (rfind rank (rank x) (elements r)); [done|]. by destruct ok.
    + rewrite rfind_cut_eq, rreplace_cut_eq by done.
      eexists _, 0. split; [done|]. split; [done|]. left. split; [done|by constructor].
Qed.

(** ** The interface operations

    These are the lemmas the clients of the tree use. *)

Implicit Types tr : AVLTreeInfo D W.

(** A tree a client owns: its comparison is [cmp] and its root is in order. *)
Definition tree_ok tr : Prop := compare_func tr = cmp ∧ avl_ok valid rank (root tr).

Lemma avl_ok_intro (t : tree) h :
  avl t h → Forall valid (elements t) → rsorted rank (elements t) → avl_ok valid rank t.
Proof. by econstructor; [eexists|..]. Qed.

Lemma avl_tree_init_ok (f : option (D → W → W)) :
  tree_ok (avl_tree_init f cmp) ∧ elements (root (avl_tree_init f cmp)) = [].
Proof.
  split; [|done]. split; [done|]. apply (avl_ok_intro _ 0); cbn; [constructor|done|constructor].
Qed.

Lemma avl_tree_insert_ok ok tr x :
  tree_ok tr → valid x →
  ∃ tr', avl_tree_insert ok tr x = Some (tr', insert_code ok x (elements (root tr))) ∧
    tree_ok tr' ∧ elements (root tr') = inserted ok x (elements (root tr)) ∧
    free_data_func tr' = free_data_func tr.
Proof.
  intros [Hc [[h Ht] Hv Hs]] Hx. unfold avl_tree_insert. rewrite Hc.
  destruct (avl_tree_insert_loop_spec ok _ x h Ht Hv Hs Hx) as (t' & tl & -> & E & Hcase).
  eexists. split; [done|]. split; [|done]. split; [done|].
  assert (∃ h', avl t' h') as [h' Ht'] by (destruct Hcase as [[_ ?]|(_ & ? & _)]; eauto).
  apply (avl_ok_intro _ h'); cbn [set_root root]; [done|rewrite E..];
    unfold inserted; destruct ok; try done; [by apply Forall_rinsert|by apply rsorted_rinsert].
Qed.

Lemma avl_tree_replace_ok ok tr x w :
  tree_ok tr → valid x →
  ∃ tr', avl_tree_replace ok tr x w =
      Some (tr', insert_code ok x (elements (root tr)),
            delete_effect (free_data_func tr) x (elements (root tr)) w) ∧
    tree_ok tr' ∧ elements (root tr') = replaced ok x (elements (root tr)) ∧
    free_data_func tr' = free_data_func tr.
Proof.
  intros [Hc [[h Ht] Hv Hs]] Hx. unfold avl_tree_replace. rewrite Hc.
  destruct (avl_tree_replace_loop_spec (free_data_func tr) ok _ x h w Ht Hv Hs Hx)
    as (t' & tl & -> & E & Hcase).
  eexists. split; [done|]. split; [|done]. split; [done|].
  assert (∃ h', avl t' h') as [h' Ht'] by (destruct Hcase as [[_ ?]|(_ & ? & _)]; eauto).
  apply (avl_ok_intro _ h'); cbn [set_root root]; [done|rewrite E..];
    unfold replaced; destruct (rfind _ _ _), ok; try done;
    first [by apply Forall_rreplace | by apply rsorted_rreplace].
Qed.

Lemma avl_tree_delete_ok tr x w :
  tree_ok tr → valid x →
  ∃ tr', avl_tree_delete tr x w =
      Some (tr', delete_code x (elements (root tr)),
            delete_effect (free_data_func tr) x (elements (root tr)) w) ∧
    tree_ok tr' ∧ elements (root tr') = rdelete rank (rank x) (elements (root tr)) ∧
    free_data_func tr' = free_data_func tr.
Proof.
  intros [Hc [[h Ht] Hv Hs]] Hx. unfold avl_tree_delete.
  destruct (root tr) as [|d l r b] eqn:Er.
  { exists tr. unfold tree_ok, delete_code, delete_effect. rewrite Er.
    split; [done|]. split; [|done]. split; [done|]. by apply (avl_ok_intro _ h). }
  rewrite <- Er in *. replace (is_null (root tr)) with false by by rewrite Er.
  rewrite Hc. destruct (avl_tree_delete_loop_spec (free_data_func tr) (root tr) x h w)
    as (t' & sh & -> & E & Hcase); try done; [by rewrite Er|].
  eexists. split; [done|]. split; [|done]. split; [done|].
  assert (∃ h', avl t' h') as [h' Ht'] by (destruct Hcase as [[_ ?]|(_ & ?)]; eauto).
  apply (avl_ok_intro _ h'); cbn [set_root root]; [done|rewrite E..];
    [by apply Forall_rdelete|by apply rsorted_rdelete].
Qed.

Lemma avl_tree_find_ok tr x :
  tree_ok tr → valid x → avl_tree_find tr x = rfind rank (rank x) (elements (root tr)).
Proof.
  intros [Hc [_ Hv Hs]] Hx. unfold avl_tree_find. rewrite Hc, avl_tree_find_loop_spec by done.
  by destruct (root tr).
Qed.

Lemma avl_tree_find_ge_ok tr x :
  tree_ok tr → valid x → avl_tree_find_ge tr x = rfind_ge rank (rank x) (elements (root tr)).
Proof.
  intros [Hc [_ Hv Hs]] Hx. unfold avl_tree_find_ge. rewrite Hc, avl_tree_find_ge_loop_spec by done.
  by destruct (root tr).
Qed.

Lemma avl_tree_store_ok tr x y d :
  tree_ok tr → valid x → valid y → rank y = rank x → avl_tree_find tr x = Some d →
  tree_ok (avl_tree_store tr x y) ∧
  elements (root (avl_tree_store tr x y)) = rreplace rank y (elements (root tr)) ∧
  free_data_func (avl_tree_store tr x y) = free_data_func tr.
Proof.
  intros Hok Hx Hy Hr Hd. rewrite avl_tree_find_ok in Hd by done.
  destruct Hok as [Hc [[h Ht] Hv Hs]].
  assert (elements (root (avl_tree_store tr x y)) = rreplace rank y (elements (root tr))) as E.
  { cbn. rewrite Hc, avl_tree_store_loop_spec by done. by rewrite Hd. }
  split; [|done]. split; [done|]. apply (avl_ok_intro _ h); [|rewrite E..].
  - cbn. rewrite Hc. by apply avl_tree_store_loop_shape.
  - by apply Forall_rreplace.
  - by apply rsorted_rreplace.
Qed.
End Ordered.

(** ** Traversal, count, depth *)

(** Apply [op] to a list in order until it returns a non-zero code. *)
Fixpoint walk_list {D W} (op : D → W → Z * W) (l : list D) (w : W) : Z * W :=
  match l with
  | [] => (0, w)
  | d :: l =>
      let '(result, w) := op d w in
      if c_true result then (result, w) else walk_list op l w
  end.

Lemma walk_list_app {D W} (op : D → W → Z * W) l1 l2 w :
  walk_list op (l1 ++ l2) w =
  let '(result, w') := walk_list op l1 w in
  if c_true result then (result, w') else walk_list op l2 w'.
Proof.
  revert w. induction l1 as [|d l1 IH]; intros w; cbn [app walk_list]; [done|].
  destruct (op d w) as [result w'] eqn:E. destruct (c_true result) eqn:Er; [by rewrite Er|]. apply IH.
Qed.

Lemma c_true_false z : c_true z = false → z = 0.
Proof. unfold c_true. destruct (Z.eqb_spec z 0); done. Qed.

Lemma avl_tree_walk_loop_spec {D W} (op : D → W → Z * W) t w :
  avl_tree_walk_loop op t w = walk_list op (elements t) w.
Proof.
  revert w. induction t as [|d l IHl r IHr b]; intros w; [done|].
  cbn [avl_tree_walk_loop elements]. rewrite walk_list_app.
  replace (if is_null l then (0, w) else avl_tree_walk_loop op l w)
    with (walk_list op (elements l) w) by (rewrite <- IHl; by destruct l).
  destruct (walk_list op (elements l) w) as [result w']. destruct (c_true result); [done|].
  cbn [walk_list]. destruct (op d w') as [res w''] eqn:E.
  destruct (c_true res) eqn:Er; [done|]. apply c_true_false in Er as ->.
  rewrite <- IHr. by destruct r.
Qed.

Lemma avl_tree_walk_ok {D W} (tr : AVLTreeInfo D W) op w :
  avl_tree_walk tr op w = walk_list op (elements (root tr)) w.
Proof.
  unfold avl_tree_walk. rewrite avl_tree_walk_loop_spec. by destruct (root tr).
Qed.

Lemma avl_tree_count_loop_spec {D} (t : AVLTreeNode D) n :
  avl_tree_count_loop t n = n + Z.of_nat (length (elements t)).
Proof.
  revert n. induction t as [|d l IHl r IHr b]; intros n; cbn; [lia|].
  rewrite length_app. cbn [length].
  replace (if is_null l then n else avl_tree_count_loop l n)
    with (n + Z.of_nat (length (elements l))) by (rewrite <- IHl; by destruct l).
  set (n' := n + Z.of_nat (length (elements l)) + 1).
  replace (if is_null r then n' else avl_tree_count_loop r n')
    with (n' + Z.of_nat (length (elements r))) by (rewrite <- IHr; by destruct r).
  lia.
Qed.

Lemma avl_tree_count_ok {D W} (tr : AVLTreeInfo D W) :
  avl_tree_count tr = Z.of_nat (length (elements (root tr))).
Proof.
  unfold avl_tree_count. destruct (root tr) as [|] eqn:E; [done|]. rewrite <- E.
  rewrite avl_tree_count_loop_spec. by rewrite E.
Qed.

Lemma avl_tree_depth_loop_spec {D} (t : AVLTreeNode D) h n :
  avl t h → avl_tree_depth_loop t n = n + h.
Proof.
  intros Ht. revert n. induction Ht as [|d l r b hl hr Hl IHl Hr IHr Hb Hb']; intros n; cbn; [lia|].
  destruct (Z.eqb_spec b (-1)); rewrite ?IHl, ?IHr; lia.
Qed.

Lemma avl_tree_destroy_loop_spec {D W} (f : option (D → W → W)) t w :
  ∃ freed, freed ≡ₚ elements t ∧
    avl_tree_destroy_loop f t w = fold_left (λ w d, call_free f d w) freed w.
Proof.
  revert w. induction t as [|d l IHl r IHr b]; intros w; [by exists []|].
  destruct (IHl w) as (fl & Hl & El).
  destruct (IHr (fold_left (λ w d, call_free f d w) fl w)) as (fr & Hr & Er).
  exists (fl ++ fr ++ [d]). split.
  - cbn [elements]. rewrite Hl, Hr. f_equiv. by rewrite <- Permutation_cons_append.
  - cbn [avl_tree_destroy_loop]. rewrite !fold_left_app. cbn [fold_left].
    rewrite <- Er, <- El. by destruct l, r.
Qed.

Lemma avl_tree_destroy_ok {D W} (tr : AVLTreeInfo D W) w :
  ∃ freed, freed ≡ₚ elements (root tr) ∧
    avl_tree_destroy tr w =
      (set_root tr TNull, fold_left (λ w d, call_free (free_data_func tr) d w) freed w).
Proof.
  unfold avl_tree_destroy. destruct (is_null (root tr)) eqn:E.
  - exists []. destruct tr as [[|] f c]; done.
  - destruct (avl_tree_destroy_loop_spec (free_data_func tr) (root tr) w) as (fr & ? & ->).
    by exists fr.
Qed.

(** An AVL tree of height [h] has at least about [2 ^ (h / 2)] nodes. *)
Lemma avl_size_bound {D} (t : AVLTreeNode D) h :
  avl t h → 2 ^ h ≤ (Z.of_nat (length (elements t)) + 1) ^ 2.
Proof.
  induction 1 as [|d l r b hl hr Hl IHl Hr IHr Hb Hb']; [cbn; lia|].
  apply avl_height_nonneg in Hl, Hr. cbn [elements]. rewrite length_app. cbn [length].
  rewrite Nat2Z.inj_add, Nat2Z.inj_succ.
  set (x := Z.of_nat (length (elements l))) in *. set (y := Z.of_nat (length (elements r))) in *.
  assert (0 ≤ x ∧ 0 ≤ y) as [Hx Hy] by lia.
  rewrite Z.pow_add_r, !Z.pow_2_r in * by lia.
  assert (hl = hr ∨ hl = hr + 1 ∨ hr = hl + 1) as [->|[->| ->]] by lia.
  - rewrite Z.max_id. destruct (Z.le_ge_cases x y); nia.
  - rewrite Z.max_l, Z.pow_add_r in * by lia.
    assert (0 < 2 ^ hr) by (apply Z.pow_pos_nonneg; lia). destruct (Z.le_ge_cases x y); nia.
  - rewrite Z.max_r, Z.pow_add_r in * by lia.
    assert (0 < 2 ^ hl) by (apply Z.pow_pos_nonneg; lia). destruct (Z.le_ge_cases x y); nia.
Qed.

(** ** Refinement of a finite map

    A client calls the interface functions one after the other; [malloc_ok]
    is what the allocator answers to that call. *)
Inductive avl_op (D : Type) : Type :=
  | OpInsert (malloc_ok : bool) (x : D)
  | OpReplace (malloc_ok : bool) (x : D)
  | OpDelete (x : D)
  | OpFind (x : D)
  | OpCount.
Arguments OpInsert {D}. Arguments OpReplace {D}. Arguments OpDelete {D}.
Arguments OpFind {D}. Arguments OpCount {D}.

Inductive avl_result (D : Type) : Type :=
  | RCode (result : Z)
  | RData (data : option D).
Arguments RCode {D}. Arguments RData {D}.

Definition avl_op_data {D} (op : avl_op D) : list D :=
  match op with OpInsert _ x | OpReplace _ x | OpDelete x | OpFind x => [x] | OpCount => [] end.

Definition run_op {D W} (op : avl_op D) (tr : AVLTreeInfo D W) (w : W) :
    option (AVLTreeInfo D W * W * avl_result D) :=
  match op with
  | OpInsert ok x => '(tr, c) ← avl_tree_insert ok tr x; Some (tr, w, RCode c)
  | OpReplace ok x => '(tr, c, w) ← avl_tree_replace ok tr x w; Some (tr, w, RCode c)
  | OpDelete x => '(tr, c, w) ← avl_tree_delete tr x w; Some (tr, w, RCode c)
  | OpFind x => Some (tr, w, RData (avl_tree_find tr x))
  | OpCount => Some (tr, w, RCode (avl_tree_count tr))
  end.

Fixpoint run_ops {D W} (ops : list (avl_op D)) (tr : AVLTreeInfo D W) (w : W) :
    option (AVLTreeInfo D W * W * list (avl_result D)) :=
  match ops with
  | [] => Some (tr, w, [])
  | op :: ops =>
      '(tr, w, res) ← run_op op tr w;
      '(tr, w, ress) ← run_ops ops tr w;
      Some (tr, w, res :: ress)
  end.

(** The abstract specification: a finite map from ranks to data. *)
Section MapSpec.
Context {D W : Type} (rank : D → Z) (f : option (D → W → W)).

Definition map_op (op : avl_op D) (m : gmap Z D) (w : W) : gmap Z D * W * avl_result D :=
  match op with
  | OpInsert ok x =>
      match m !! rank x with
      | Some _ => (m, w, RCode 0)
      | None => if ok then (<[rank x := x]> m, w, RCode 1) else (m, w, RCode (- ENOMEM))
      end
  | OpReplace ok x =>
      match m !! rank x with
      | Some d => (<[rank x := x]> m, call_free f d w, RCode 0)
      | None => if ok then (<[rank x := x]> m, w, RCode 1) else (m, w, RCode (- ENOMEM))
      end
  | OpDelete x =>
      match m !! rank x with
      | Some d => (delete (rank x) m, call_free f d w, RCode 1)
      | None => (m, w, RCode 0)
      end
  | OpFind x => (m, w, RData (m !! rank x))
  | OpCount => (m, w, RCode (Z.of_nat (size m)))
  end.

Fixpoint map_ops (ops : list (avl_op D)) (m : gmap Z D) (w : W) :
    gmap Z D * W * list (avl_result D) :=
  match ops with
  | [] => (m, w, [])
  | op :: ops =>
      let '(m, w, res) := map_op op m w in
      let '(m, w, ress) := map_ops ops m w in
      (m, w, res :: ress)
  end.
End MapSpec.

Section Refinement.
Context {D W : Type} (valid : D → Prop) (rank : D → Z) (cmp : D → D → Z).
Context `{HC : !RankCompare valid rank cmp}.
Implicit Types (tr : AVLTreeInfo D W) (w : W).

(** The simulation relation. *)
Definition tree_rep (f : option (D → W → W)) tr (m : gmap Z D) : Prop :=
  tree_ok valid rank cmp tr ∧ free_data_func tr = f ∧ m = to_map rank (elements (root tr)).

Lemma tree_rep_intro f tr :
  tree_ok valid rank cmp tr → free_data_func tr = f →
  tree_rep f tr (to_map rank (elements (root tr))).
Proof. done. Qed.

Lemma to_map_delete_absent r (l : list D) :
  rfind rank r l = None → delete r (to_map rank l) = to_map rank l.
Proof. intros E. apply delete_id. by rewrite lookup_to_map. Qed.

Lemma run_op_refines f tr m w op :
  tree_rep f tr m → Forall valid (avl_op_data op) →
  ∃ tr', run_op op tr w = Some (tr', (map_op rank f op m w).1.2, (map_op rank f op m w).2) ∧
         tree_rep f tr' (map_op rank f op m w).1.1.
Proof.
  intros (Hok & Hf & ->) Hv.
  destruct op as [ok x|ok x|x|x|]; cbn in Hv; try (inversion Hv as [|? ? Hx _]; subst).
  - destruct (avl_tree_insert_ok valid rank cmp ok tr x) as (tr' & E & Hok' & El & Hf'); try done.
    exists tr'. cbn [run_op map_op]. rewrite E, lookup_to_map. unfold insert_code, inserted in *.
    destruct (rfind rank (rank x) (elements (root tr))) eqn:Ef; [|destruct ok]; cbn.
    + split; [done|]. split; [done|]. split; [by rewrite Hf'|].
      destruct ok; rewrite El; [|done]. by erewrite rinsert_present.
    + split; [done|]. split; [done|]. split; [by rewrite Hf'|].
      by rewrite El, rreplace_rinsert, to_map_rreplace.
    + split; [done|]. split; [done|]. split; [by rewrite Hf'|]. by rewrite El.
  - destruct (avl_tree_replace_ok valid rank cmp ok tr x w) as (tr' & E & Hok' & El & Hf'); try done.
    exists tr'. cbn [run_op map_op]. rewrite E, lookup_to_map.
    unfold insert_code, replaced, delete_effect in *.
    destruct (rfind rank (rank x) (elements (root tr))) eqn:Ef; [|destruct ok]; cbn;
      (split; [done|]); (split; [done|]); (split; [by rewrite Hf'|]);
      by rewrite El, ?to_map_rreplace.
  - destruct (avl_tree_delete_ok valid rank cmp tr x w) as (tr' & E & Hok' & El & Hf'); try done.
    exists tr'. cbn [run_op map_op]. rewrite E, lookup_to_map. unfold delete_code, delete_effect in *.
    destruct (rfind rank (rank x) (elements (root tr))) eqn:Ef; cbn;
      (split; [done|]); (split; [done|]); (split; [by rewrite Hf'|]);
      rewrite El, to_map_rdelete; [done|]. by rewrite to_map_delete_absent.
  - exists tr. cbn [run_op map_op]. split; [|done].
    by rewrite (avl_tree_find_ok valid rank cmp), lookup_to_map.
  - exists tr. cbn [run_op map_op]. split; [|done].
    rewrite avl_tree_count_ok, size_to_map; [done|apply Hok].
Qed.

Lemma run_ops_refines f tr m w ops :
  tree_rep f tr m → Forall (λ op, Forall valid (avl_op_data op)) ops →
  ∃ tr', run_ops ops tr w = Some (tr', (map_ops rank f ops m w).1.2, (map_ops rank f ops m w).2) ∧
         tree_rep f tr' (map_ops rank f ops m w).1.1.
Proof.
  intros Hr Hv. revert tr m w Hr. induction Hv as [|op ops Hop _ IH]; intros tr m w Hr.
  - by exists tr.
  - destruct (run_op_refines f tr m w op Hr Hop) as (tr1 & E1 & Hr1).
    cbn [run_ops map_ops]. rewrite E1. cbn.
    destruct (map_op rank f op m w) as [[m1 w1] r1]. cbn in *.
    destruct (IH _ _ w1 Hr1) as (tr2 & E2 & Hr2). rewrite E2. cbn.
    destruct (map_ops rank f ops m1 w1) as [[m2 w2] r2]. by exists tr2.
Qed.
End Refinement.

(** ** Properties *)

(** The comparison by difference, on integers. *)
#[export] Instance Z_sub_RankCompare : RankCompare (λ _ : Z, True) id Z.sub.
Proof. by intros x y _ _. Qed.

(** C11: a tree made by [avl_tree_init] and used through
    [avl_tree_insert], [avl_tree_replace], [avl_tree_delete],
    [avl_tree_find] and [avl_tree_count], in any order and whatever the
    allocator answers, never dereferences NULL, stays a height-balanced
    search tree, and returns on every call what a finite map keyed by the
    rank of the data returns; [free_data_func] is called exactly on the
    data that leave the map. *)
Theorem avl_tree_refines_map {D W} (valid : D → Prop) (rank : D → Z) (cmp : D → D → Z)
    (f : option (D → W → W)) (ops : list (avl_op D)) (w : W) :
  RankCompare valid rank cmp →
  Forall (λ op, Forall valid (avl_op_data op)) ops →
  ∃ tr,
    run_ops ops (avl_tree_init f cmp) w =
      Some (tr, (map_ops rank f ops ∅ w).1.2, (map_ops rank f ops ∅ w).2) ∧
    avl_ok valid rank (root tr) ∧
    to_map rank (elements (root tr)) = (map_ops rank f ops ∅ w).1.1.
Proof.
  intros HC Hv.
  destruct (run_ops_refines valid rank cmp f (avl_tree_init f cmp) ∅ w ops)
    as (tr & E & [Hc Hok] & _ & Hm); [|done|by exists tr].
  split; [|done]. by destruct (avl_tree_init_ok valid rank cmp f).
Qed.

Definition sample_ops : list (avl_op Z) :=
  [OpInsert true 5; OpInsert true 3; OpInsert true 4; OpInsert true 9; OpInsert true 7;
   OpInsert true 3; OpInsert false 8; OpDelete 5; OpDelete 6; OpReplace true 4; OpFind 7; OpCount].

Lemma avl_tree_refines_map_witness :
  ∃ tr, run_ops sample_ops (avl_tree_init (Some (λ d w, d :: w)) Z.sub) [] =
      Some (tr, [4; 5], [RCode 1; RCode 1; RCode 1; RCode 1; RCode 1; RCode 0; RCode (-12);
                         RCode 1; RCode 0; RCode 0; RData (Some 7); RCode 4]) ∧
    avl_ok (λ _, True) id (root tr) ∧ to_map id (elements (root tr)) !! 5 = None.
Proof.
  destruct (avl_tree_refines_map (λ _, True) id Z.sub (Some (λ d w, d :: w)) sample_ops [])
    as (tr & E & Hok & Hm).
  - apply _.
  - repeat constructor.
  - exists tr. split; [rewrite E; vm_compute; reflexivity|]. split; [exact Hok|].
    rewrite Hm. vm_compute. reflexivity.
Defined.

(** C37: [avl_tree_find_ge] returns the least data of the tree that is not
    below the target, and NULL only when every data is below it. *)
Theorem avl_tree_find_ge_least {D W} (valid : D → Prop) (rank : D → Z) (cmp : D → D → Z)
    (tr : AVLTreeInfo D W) (x : D) :
  RankCompare valid rank cmp → compare_func tr = cmp → avl_ok valid rank (root tr) → valid x →
  match avl_tree_find_ge tr x with
  | Some d => d ∈ elements (root tr) ∧ rank x ≤ rank d ∧
      ∀ e, e ∈ elements (root tr) → rank x ≤ rank e → rank d ≤ rank e
  | None => ∀ e, e ∈ elements (root tr) → rank e < rank x
  end.
Proof.
  intros HC Hc Hok Hx. rewrite (avl_tree_find_ge_ok valid rank cmp) by done.
  destruct (rfind_ge rank (rank x) (elements (root tr))) as [d|] eqn:E.
  - apply rfind_ge_Some in E; [done|apply Hok].
  - apply rfind_ge_None in E. by rewrite Forall_forall in E.
Qed.

Definition sample_tree : AVLTreeInfo Z unit :=
  mkAVLTreeInfo
    (TNode 4 (TNode 3 TNull TNull 0) (TNode 9 (TNode 7 TNull TNull 0) TNull (-1)) 1)
    None Z.sub.

Lemma sample_tree_ok : avl_ok (λ _ : Z, True) id (root sample_tree).
Proof.
  split; cbn; [exists 3|repeat constructor|repeat constructor; unfold id; lia].
  apply (avl_node _ _ _ _ 1 2); [|apply (avl_node _ _ _ _ 1 0)| |]; try lia; [| |constructor];
    apply (avl_node _ _ _ _ 0 0); try lia; constructor.
Qed.

Lemma avl_tree_find_ge_least_witness :
  avl_tree_find_ge sample_tree 5 = Some 7 ∧
  ∀ e, e ∈ [3; 4; 7; 9] → 5 ≤ e → 7 ≤ e.
Proof.
  split; [reflexivity|].
  apply (avl_tree_find_ge_least (λ _ : Z, True) id Z.sub sample_tree 5
           _ eq_refl sample_tree_ok I).
Defined.

(** C38: [avl_tree_depth], which only follows the stored balances down one
    path, returns the height of the tree, and the height is logarithmic:
    at most twice the logarithm of [avl_tree_count] plus one.  Every loop
    of the component recurses at most that deep. *)
Theorem avl_tree_depth_logarithmic {D W} (valid : D → Prop) (rank : D → Z)
    (tr : AVLTreeInfo D W) :
  avl_ok valid rank (root tr) →
  avl (root tr) (avl_tree_depth tr) ∧
  avl_tree_depth tr ≤ 2 * Z.log2_up (avl_tree_count tr + 1).
Proof.
  intros [[h Ht] _ _]. pose proof (avl_height_nonneg _ _ Ht) as Hh.
  assert (avl_tree_depth tr = h) as ->.
  { unfold avl_tree_depth. destruct (root tr) eqn:E; cbn [is_null].
    - by apply avl_null_inv in Ht.
    - rewrite <- E in *. by rewrite (avl_tree_depth_loop_spec _ h). }
  split; [done|]. rewrite avl_tree_count_ok.
  pose proof (avl_size_bound _ _ Ht) as Hb.
  set (n := Z.of_nat (length (elements (root tr)))) in *. assert (0 ≤ n) as Hn by lia.
  assert (n + 1 ≤ 2 ^ Z.log2_up (n + 1)) as Hl.
  { destruct (Z.eq_dec n 0) as [->|]; [done|]. apply (Z.log2_up_spec (n + 1)). lia. }
  apply (Z.pow_le_mono_r_iff 2); [lia|pose proof (Z.log2_up_nonneg (n + 1)); lia|].
  rewrite Z.mul_comm, Z.pow_mul_r by (pose proof (Z.log2_up_nonneg (n + 1)); lia).
  etransitivity; [exact Hb|]. apply Z.pow_le_mono_l. lia.
Qed.

Lemma avl_tree_depth_logarithmic_witness :
  avl_tree_depth sample_tree = 3 ∧
  avl_tree_depth sample_tree ≤ 2 * Z.log2_up (avl_tree_count sample_tree + 1).
Proof.
  split; [reflexivity|]. apply (avl_tree_depth_logarithmic _ _ sample_tree sample_tree_ok).
Defined.

(** [avl_tree_walk] visits every data once, in increasing order of
    rank, and stops at the first data whose callback returns non-zero,
    returning that code; [avl_tree_destroy] hands every data to
    [free_data_func] exactly once and empties the tree. *)
Theorem avl_tree_walk_in_order {D W} (valid : D → Prop) (rank : D → Z)
    (tr : AVLTreeInfo D W) (op : D → W → Z * W) (w : W) :
  avl_ok valid rank (root tr) →
  rsorted rank (elements (root tr)) ∧
  avl_tree_walk tr op w = walk_list op (elements (root tr)) w ∧
  Z.of_nat (length (elements (root tr))) = avl_tree_count tr ∧
  ∃ freed, freed ≡ₚ elements (root tr) ∧
    avl_tree_destroy tr w =
      (set_root tr TNull, fold_left (λ w d, call_free (free_data_func tr) d w) freed w).
Proof.
  intros [_ _ Hs]. split; [done|]. split; [apply avl_tree_walk_ok|].
  split; [by rewrite avl_tree_count_ok|]. apply avl_tree_destroy_ok.
Qed.

Lemma avl_tree_walk_in_order_witness :
  avl_tree_walk sample_tree (λ d _, (if d =? 7 then 1 else 0, tt)) tt =
    walk_list (λ d _, (if d =? 7 then 1 else 0, tt)) [3; 4; 7; 9] tt ∧
  Z.of_nat (length (elements (root sample_tree))) = 4.
Proof.
  destruct (avl_tree_walk_in_order (λ _, True) id sample_tree
    (λ d _, (if d =? 7 then 1 else 0, tt)) tt sample_tree_ok) as (_ & E & Hl & _).
  split; [exact E|]. rewrite Hl. reflexivity.
Defined.
