(* ===== verification/CFloat.v ===== *)
(** * Doubles

    The C type [double] is the IEEE 754 format with 53 bits of precision;
    its operations are those of the Standard Library's reference
    implementation. *)

From Stdlib Require Import Floats.SpecFloat.
From S2P Require Import Prelude.

Definition double : Type := spec_float.

(** [(double)n] of an integer. *)
Definition double_of_Z (n : Z) : double := binary_normalize 53 1024 n 0 false.
Definition double_div (x y : double) : double := SFdiv 53 1024 x y.

Definition double_lt (x y : double) : bool := SFltb x y.
Definition double_le (x y : double) : bool := SFleb x y.

(** A decimal constant [m / 10 ^ k] of the source. *)
Definition double_const (m : Z) (k : nat) : double := double_div (double_of_Z m) (double_of_Z (10 ^ Z.of_nat k)).
