(* ===== verification/CLib.v ===== *)
(** * The C library functions the source calls on strings

    A C string is the list of its bytes before the terminating NUL, each
    byte a [Z] in [0, 256).  [strtol] (and [strtoll], [atoi]) skip white
    space, take an optional sign and, in base 16, an optional "0x", read
    the longest run of digits and clamp to the range of [long];
    [sprintf] is modelled for the conversions the source uses. *)

From S2P Require Import Prelude.
From stdpp Require Import strings.
#[local] Open Scope Z_scope.

(** The bytes of a string literal of the source. *)
Definition bytes (s : string) : list Z :=
  (λ a, Z.of_nat (Ascii.nat_of_ascii a)) <$> String.list_ascii_of_string s.

Definition CH_TAB : Z := 9.
Definition CH_LF : Z := 10.
Definition CH_CR : Z := 13.
Definition CH_SPACE : Z := 32.
Definition CH_PLUS : Z := 43.
Definition CH_MINUS : Z := 45.
Definition CH_DOT : Z := 46.
Definition CH_SLASH : Z := 47.
Definition CH_0 : Z := 48.
Definition CH_A : Z := 65.
Definition CH_a : Z := 97.

Definition char_in (lo c hi : Z) : bool := (lo <=? c) && (c <=? hi).
Definition is_digit (c : Z) : bool := char_in 48 c 57.
Definition is_upper (c : Z) : bool := char_in 65 c 90.
Definition is_lower (c : Z) : bool := char_in 97 c 122.
Definition is_alnum (c : Z) : bool := is_digit c || is_upper c || is_lower c.
Definition is_space (c : Z) : bool := (c =? 32) || char_in 9 c 13.

(** ** strchr, strstr *)

(** The suffix of [s] that starts at the first [c]; [None] is NULL. *)
Fixpoint strchr (s : list Z) (c : Z) : option (list Z) :=
  match s with
  | [] => None
  | x :: s' => if x =? c then Some s else strchr s' c
  end.

Fixpoint is_prefix (p s : list Z) : bool :=
  match p, s with
  | [], _ => true
  | x :: p', y :: s' => (x =? y) && is_prefix p' s'
  | _ :: _, [] => false
  end.

Fixpoint strstr (s p : list Z) : option (list Z) :=
  if is_prefix p s then Some s
  else match s with [] => None | _ :: s' => strstr s' p end.

(** ** strcmp *)

(** The sign of the result of [strcmp]. *)
Fixpoint strcmp (a b : list Z) : Z :=
  match a, b with
  | [], [] => 0
  | [], _ :: _ => -1
  | _ :: _, [] => 1
  | x :: a, y :: b => if x <? y then -1 else if y <? x then 1 else strcmp a b
  end.

(** ** Reading integers *)

Definition digit_value (c : Z) : option Z :=
  if is_digit c then Some (c - 48)
  else if is_lower c then Some (c - 87)
  else if is_upper c then Some (c - 55)
  else None.

Definition base_digit (base c : Z) : option Z :=
  match digit_value c with
  | Some v => if v <? base then Some v else None
  | None => None
  end.

Fixpoint drop_spaces (s : list Z) : list Z :=
  match s with
  | c :: s' => if is_space c then drop_spaces s' else s
  | [] => []
  end.

(** The value of the longest run of digits, and what follows it. *)
Fixpoint strtol_digits (base : Z) (s : list Z) (acc : Z) : Z * list Z :=
  match s with
  | [] => (acc, [])
  | c :: s' =>
      match base_digit base c with
      | Some v => strtol_digits base s' (acc * base + v)
      | None => (acc, s)
      end
  end.

Definition starts_with_digit (base : Z) (s : list Z) : bool :=
  match s with
  | c :: _ => match base_digit base c with Some _ => true | None => false end
  | [] => false
  end.

Definition skip_0x (base : Z) (s : list Z) : list Z :=
  match s with
  | c :: x :: s' =>
      if (base =? 16) && (c =? CH_0) && ((x =? 120) || (x =? 88)) && starts_with_digit 16 s'
      then s' else s
  | _ => s
  end.

Definition LONG_MIN : Z := - 2 ^ 63.
Definition LONG_MAX : Z := 2 ^ 63 - 1.

(** The value and the rest of the string; when there is no digit the value
    is 0 and the rest is the whole string. *)
Definition strtol (base : Z) (s : list Z) : Z * list Z :=
  let s1 := drop_spaces s in
  let '(sign, s2) :=
    match s1 with
    | c :: r => if c =? CH_MINUS then (-1, r) else if c =? CH_PLUS then (1, r) else (1, s1)
    | [] => (1, s1)
    end in
  let s3 := skip_0x base s2 in
  if starts_with_digit base s3 then
    let '(v, rest) := strtol_digits base s3 0 in
    (Z.max LONG_MIN (Z.min LONG_MAX (sign * v)), rest)
  else (0, s).

(** [atoi] returns the [int] of [strtol]. *)
Definition atoi (s : list Z) : Z := s32 (strtol 10 s).1.

(** ** Writing integers *)

(** Least significant digit last; [fuel] digits at most. *)
Fixpoint digits_fuel (fuel : nat) (digit : Z → Z) (base n : Z) (acc : list Z) : list Z :=
  match fuel with
  | O => acc
  | S fuel =>
      let acc := digit (n mod base) :: acc in
      if n <? base then acc else digits_fuel fuel digit base (n / base) acc
  end.

Definition dec_digit (v : Z) : Z := 48 + v.
Definition hex_upper (v : Z) : Z := if v <? 10 then 48 + v else 55 + v.
Definition hex_lower (v : Z) : Z := if v <? 10 then 48 + v else 87 + v.

(** Enough fuel for [n]: one more than its binary length. *)
Definition num_fuel (n : Z) : nat := S (Z.to_nat (Z.log2 n)).
Definition digits (digit : Z → Z) (base n : Z) : list Z :=
  digits_fuel (num_fuel n) digit base n [].

Definition pad0 (width : nat) (s : list Z) : list Z := replicate (width - length s) 48 ++ s.

(** [%d], [%0<width>d], [%02x], [%02X]. *)
Definition sprintf_d (n : Z) : list Z :=
  if n <? 0 then 45 :: digits dec_digit 10 (- n) else digits dec_digit 10 n.
Definition sprintf_0d (width : nat) (n : Z) : list Z :=
  if n <? 0 then 45 :: pad0 (width - 1) (digits dec_digit 10 (- n))
  else pad0 width (digits dec_digit 10 n).
Definition sprintf_02x (n : Z) : list Z := pad0 2 (digits hex_lower 16 (u32 n)).
Definition sprintf_02X (n : Z) : list Z := pad0 2 (digits hex_upper 16 (u32 n)).

(** ** Memory *)

(** [memcpy] of [n] bytes from [offset]; [None] reads outside the object. *)
Definition read_at (mem : list Z) (offset n : Z) : option (list Z) :=
  if (offset <? 0) || (n <? 0) || (Z.of_nat (length mem) <? offset + n) then None
  else Some (take (Z.to_nat n) (drop (Z.to_nat offset) mem)).

(** * Lemmas *)

Lemma digit_value_dec v : 0 ≤ v < 10 → base_digit 10 (dec_digit v) = Some v.
Proof.
  intros. unfold base_digit, digit_value, dec_digit, is_digit, char_in.
  replace ((48 <=? 48 + v) && (48 + v <=? 57)) with true by lia.
  replace (48 + v - 48) with v by lia. by replace (v <? 10) with true by lia.
Qed.

Lemma digit_value_hex_upper v : 0 ≤ v < 16 → base_digit 16 (hex_upper v) = Some v.
Proof. intros. all_below 16 v. Qed.
Lemma digit_value_hex_lower v : 0 ≤ v < 16 → base_digit 16 (hex_lower v) = Some v.
Proof. intros. all_below 16 v. Qed.

(** A writer of digits that the reader understands. *)
Definition digit_writer (digit : Z → Z) (base : Z) : Prop :=
  2 ≤ base ∧ ∀ v, 0 ≤ v < base → base_digit base (digit v) = Some v.

Lemma dec_digit_writer : digit_writer dec_digit 10.
Proof. split; [lia|apply digit_value_dec]. Qed.
Lemma hex_upper_writer : digit_writer hex_upper 16.
Proof. split; [lia|apply digit_value_hex_upper]. Qed.
Lemma hex_lower_writer : digit_writer hex_lower 16.
Proof. split; [lia|apply digit_value_hex_lower]. Qed.

(** Reading back what [digits_fuel] wrote in front of [acc]. *)
Lemma strtol_digits_fuel digit base fuel n acc a :
  digit_writer digit base → 0 ≤ n < base ^ Z.of_nat fuel → (0 < fuel)%nat →
  ∃ k, strtol_digits base (digits_fuel fuel digit base n acc) a
       = strtol_digits base acc (a * base ^ k + n) ∧ 0 < k.
Proof.
  intros [Hb Hd]. revert n acc a. induction fuel as [|fuel IH]; intros n acc a Hn Hf; [lia|].
  cbn [digits_fuel]. pose proof (Z.mod_pos_bound n base ltac:(lia)) as Hm.
  destruct (Z.ltb_spec n base) as [Hlt|Hge].
  - exists 1. cbn [strtol_digits]. rewrite Hd by lia. rewrite Z.mod_small by lia.
    split; [f_equal; lia|lia].
  - rewrite Nat2Z.inj_succ, Z.pow_succ_r in Hn by lia.
    assert (0 < fuel)%nat as Hf' by (destruct fuel; [cbn in Hn; lia|lia]).
    destruct (IH (n / base) (digit (n mod base) :: acc) a) as (k & -> & Hk); [|done|].
    { split; [apply Z.div_pos; lia|apply Z.div_lt_upper_bound; lia]. }
    exists (k + 1). cbn [strtol_digits]. rewrite Hd by lia. split; [|lia].
    rewrite Z.pow_add_r, Z.pow_1_r by lia. f_equal.
    pose proof (Z.div_mod n base ltac:(lia)). lia.
Qed.

Lemma num_fuel_enough n base : 2 ≤ base → 0 ≤ n → n < base ^ Z.of_nat (num_fuel n).
Proof.
  intros Hb Hn. unfold num_fuel. rewrite Nat2Z.inj_succ, Z2Nat.id by apply Z.log2_nonneg.
  apply Z.lt_le_trans with (2 ^ Z.succ (Z.log2 n)).
  - destruct (Z.eq_dec n 0) as [->|]; [done|]. apply Z.log2_spec. lia.
  - apply Z.pow_le_mono_l. lia.
Qed.

Lemma digits_fuel_head digit base fuel n acc :
  digit_writer digit base → 0 ≤ n → (0 < fuel)%nat →
  ∃ v l, digits_fuel fuel digit base n acc = digit v :: l ∧ 0 ≤ v < base.
Proof.
  intros [Hb _]. revert n acc. induction fuel as [|fuel IH]; intros n acc Hn Hf; [lia|].
  cbn [digits_fuel]. pose proof (Z.mod_pos_bound n base ltac:(lia)).
  destruct (n <? base); [by eexists _, _|].
  destruct fuel as [|fuel]; [by eexists _, _|]. apply IH; [apply Z.div_pos; lia|lia].
Qed.

Lemma digits_fuel_app digit base fuel n acc :
  digits_fuel fuel digit base n acc = digits_fuel fuel digit base n [] ++ acc.
Proof.
  revert n acc. induction fuel as [|fuel IH]; intros n acc; cbn; [done|].
  destruct (n <? base); [done|]. rewrite IH, (IH _ [_]), <- app_assoc. done.
Qed.

Lemma strtol_digits_app digit base n rest :
  digit_writer digit base → 0 ≤ n → starts_with_digit base rest = false →
  strtol_digits base (digits digit base n ++ rest) 0 = (n, rest).
Proof.
  intros Hw Hn Hr. unfold digits. rewrite <- digits_fuel_app.
  destruct (strtol_digits_fuel digit base (num_fuel n) n rest 0 Hw) as (k & -> & _);
    [split; [done|apply num_fuel_enough; [apply Hw|done]]|unfold num_fuel; lia|].
  rewrite Z.mul_0_l, Z.add_0_l. destruct rest as [|c rest]; [done|].
  cbn in *. by destruct (base_digit base c).
Qed.

(** Decimal digits start neither with a space, a sign nor (in base 10) a
    base prefix. *)
Lemma digits_dec_head n rest :
  0 ≤ n → ∃ v l, digits dec_digit 10 n ++ rest = dec_digit v :: l ∧ 0 ≤ v < 10.
Proof.
  intros Hn. unfold digits.
  destruct (digits_fuel_head dec_digit 10 (num_fuel n) n [] dec_digit_writer Hn)
    as (v & l & -> & Hv); [unfold num_fuel; lia|]. by exists v, (l ++ rest).
Qed.

Lemma skip_0x_10 s : skip_0x 10 s = s.
Proof.
  unfold skip_0x. destruct s as [|c [|x s]]; try done; repeat case_match; done.
Qed.

Lemma digits_fuel_length fuel n acc k :
  0 ≤ n < 10 ^ Z.of_nat k → (0 < k)%nat →
  (length (digits_fuel fuel dec_digit 10 n acc) ≤ k + length acc)%nat.
Proof.
  revert n acc k. induction fuel as [|fuel IH]; intros n acc k Hn Hk; cbn [digits_fuel]; [lia|].
  destruct (Z.ltb_spec n 10); [cbn; lia|].
  destruct k as [|[|k]]; [lia|cbn in Hn; lia|].
  etrans; [apply (IH _ _ (S k)); [|lia]|cbn; lia].
  rewrite Nat2Z.inj_succ, Z.pow_succ_r in Hn by lia.
  split; [apply Z.div_pos; lia|apply Z.div_lt_upper_bound; lia].
Qed.

Lemma sprintf_d_length n : is_int32 n → (length (sprintf_d n) ≤ 11)%nat.
Proof.
  unfold is_int32, sprintf_d, digits. intros Hn. destruct (Z.ltb_spec n 0); cbn [length].
  - pose proof (digits_fuel_length (num_fuel (- n)) (- n) [] 10 ltac:(lia) ltac:(lia)). cbn in *. lia.
  - pose proof (digits_fuel_length (num_fuel n) n [] 10 ltac:(lia) ltac:(lia)). cbn in *. lia.
Qed.

Lemma sprintf_d_nonempty n : sprintf_d n ≠ [].
Proof.
  unfold sprintf_d, digits, num_fuel. destruct (n <? 0); [done|]. cbn [digits_fuel]. destruct (n <? 10); [done|].
  rewrite digits_fuel_app. by intros [_ ?]%app_nil.
Qed.

Lemma byte_length z : is_byte z → (length (sprintf_d z) ≤ 3)%nat.
Proof. unfold is_byte. intros H. apply Nat.leb_le. all_below 256 z. Qed.

(** Reading a decimal integer that [sprintf] wrote. *)
Lemma strtol_sprintf_d n rest :
  LONG_MIN ≤ n ≤ LONG_MAX → starts_with_digit 10 rest = false →
  strtol 10 (sprintf_d n ++ rest) = (n, rest).
Proof.
  intros Hn Hr. unfold sprintf_d. destruct (Z.ltb_spec n 0).
  - unfold strtol. rewrite <- app_comm_cons.
    change (drop_spaces (45 :: ?x)) with (45 :: x). cbv iota beta.
    change (45 =? CH_MINUS) with true. cbv iota beta. rewrite skip_0x_10.
    destruct (digits_dec_head (- n) rest) as (v & l & E & Hv); [lia|].
    rewrite E. cbn [starts_with_digit]. rewrite digit_value_dec by done. rewrite <- E.
    rewrite strtol_digits_app; [|apply dec_digit_writer|lia|done]. f_equal. lia.
  - destruct (digits_dec_head n rest) as (v & l & E & Hv); [lia|].
    unfold strtol. rewrite E.
    assert (drop_spaces (dec_digit v :: l) = dec_digit v :: l) as ->.
    { cbn [drop_spaces]. unfold is_space, char_in, dec_digit.
      by replace (_ || _) with false by lia. }
    unfold CH_MINUS, CH_PLUS.
    replace (dec_digit v =? 45) with false by (unfold dec_digit; lia).
    replace (dec_digit v =? 43) with false by (unfold dec_digit; lia).
    rewrite skip_0x_10. cbn [starts_with_digit]. rewrite digit_value_dec by done. rewrite <- E.
    rewrite strtol_digits_app; [|apply dec_digit_writer|lia|done]. f_equal. lia.
Qed.

Lemma strcmp_eq a b : strcmp a b = 0 ↔ a = b.
Proof.
  revert b. induction a as [|x a IH]; intros [|y b]; cbn [strcmp]; [naive_solver lia..|].
  destruct (Z.ltb_spec x y), (Z.ltb_spec y x); split; try lia; intros [= ]; subst; try lia.
  - f_equal; [lia|by apply IH].
  - by apply IH.
Qed.

Lemma strcmp_refl a : strcmp a a = 0.
Proof. by apply strcmp_eq. Qed.

Lemma strcmp_antisym a b : strcmp b a = - strcmp a b.
Proof.
  revert b. induction a as [|x a IH]; intros [|y b]; cbn [strcmp]; [done..|].
  destruct (Z.ltb_spec x y), (Z.ltb_spec y x); try lia. apply IH.
Qed.

Lemma strcmp_trans a b c : strcmp a b < 0 → strcmp b c < 0 → strcmp a c < 0.
Proof.
  revert b c. induction a as [|x a IH]; intros [|y b] [|z c]; cbn [strcmp]; try lia.
  destruct (Z.ltb_spec x y), (Z.ltb_spec y x), (Z.ltb_spec y z), (Z.ltb_spec z y), (Z.ltb_spec x z),
    (Z.ltb_spec z x); try lia. apply IH.
Qed.
