(* ===== verification/FdfsShared.v ===== *)
(** * tracker/fdfs_shared_func.c: reserved space

    The space a storage path must keep free, given in MB or as a ratio: the
    tagged union [FDFSStorageReservedSpace] of tracker/tracker_types.h, and
    the test of one path.  The tests of a whole group are in TrackerStore. *)

From S2P Require Import Prelude CFloat.
#[local] Open Scope Z_scope.

(** [flag] is [TRACKER_STORAGE_RESERVED_SPACE_FLAG_MB] or [..._RATIO]. *)
Inductive FDFSStorageReservedSpace :=
  | ReservedMb (mb : Z)
  | ReservedRatio (ratio : double).

(** How a store path is chosen. *)
Definition FDFS_STORE_PATH_ROUND_ROBIN : Z := 0.
Definition FDFS_STORE_PATH_LOAD_BALANCE : Z := 2.

Definition fdfs_check_reserved_space_path (total_mb free_mb avg_mb : Z)
    (pStorageReservedSpace : FDFSStorageReservedSpace) : bool :=
  match pStorageReservedSpace with
  | ReservedMb _ => avg_mb <? free_mb
  | ReservedRatio ratio =>
      if total_mb =? 0 then false
      else double_lt ratio (double_div (double_of_Z free_mb) (double_of_Z total_mb))
  end.
