(* ===== verification/SortedArray.v ===== *)
(** * Arrays of pointers kept in the order of a string key

    tracker/tracker_mem.c keeps the groups and the storage servers of a
    group in arrays of pointers sorted by name: [bsearch] of the C library
    looks a name up, an insertion shifts the larger entries up from the
    end, a removal shifts the following entries down.  An array is the list
    of its allocated entries, NULL entries included; [None] as a result is
    an access outside the array, a NULL pointer followed, or fuel used up,
    which the lemmas exclude. *)

From S2P Require Import Prelude CLib.
From stdpp Require Import sorting.
#[local] Open Scope Z_scope.

(** ** Definitions *)

(** The loop of [bsearch] between [l] and [u]; [cmp i] compares the target
    with element [i]. *)
Fixpoint bsearch_loop (fuel : nat) (cmp : nat → option Z) (l u : nat) : option (option nat) :=
  if decide (u ≤ l)%nat then Some None
  else
    match fuel with
    | O => None
    | S fuel =>
        let idx := Nat.div2 (l + u) in
        c ← cmp idx;
        if c <? 0 then bsearch_loop fuel cmp l idx
        else if 0 <? c then bsearch_loop fuel cmp (S idx) u
        else Some (Some idx)
    end.

Definition bsearch (cmp : nat → option Z) (nmemb : nat) : option (option nat) :=
  bsearch_loop nmemb cmp 0 nmemb.

(** [arr[i] = x] *)
Definition store_at {A} (i : nat) (x : A) (arr : list A) : option (list A) :=
  if decide (i < length arr)%nat then Some (<[i := x]> arr) else None.

Section arrays.
Context {A : Type} (key : A → option (list Z)).

(** The key of the object entry [i] points to. *)
Definition entry_key (arr : list (option A)) (i : nat) : option (list Z) :=
  p ← mjoin (arr !! i); key p.

(** [bsearch] of a key among the first [count] entries. *)
Definition find_entry (target : list Z) (arr : list (option A)) (count : nat) : option (option nat) :=
  bsearch (λ i, strcmp target <$> entry_key arr i) count.

(** [for (pp=arr+i; pp>arr; pp--) { if (strcmp(k, ( *(pp-1))->key) > 0) break; *pp = *(pp-1); }
    *pp = p;] *)
Fixpoint insert_from (p : A) (k : list Z) (i : nat) (arr : list (option A)) : option (list (option A)) :=
  match i with
  | O => store_at O (Some p) arr
  | S j =>
      k' ← entry_key arr j;
      if 0 <? strcmp k k' then store_at i (Some p) arr
      else
        e ← arr !! j;
        arr ← store_at i e arr;
        insert_from p k j arr
  end.

(** [n] rounds of [*pp = *(pp+1); pp++] from [arr+i] on. *)
Fixpoint shift_down (n i : nat) (arr : list (option A)) : option (list (option A)) :=
  match n with
  | O => Some arr
  | S n =>
      e ← arr !! S i;
      arr ← store_at i e arr;
      shift_down n (S i) arr
  end.

(** The first [count] entries, none of them NULL. *)
Definition entries (arr : list (option A)) (count : nat) : option (list A) :=
  if decide (count ≤ length arr)%nat then mapM id (take count arr) else None.

(** ** The order *)

Definition key_lt (p q : A) : Prop :=
  ∃ a b, key p = Some a ∧ key q = Some b ∧ strcmp a b < 0.

(** The list is sorted strictly. *)
Definition sorted_by (l : list A) : Prop := StronglySorted key_lt l.

(** The array holds [l], and after it what was left there. *)
Definition holds (arr : list (option A)) (l : list A) : Prop :=
  ∃ rest, arr = (Some <$> l) ++ rest.

End arrays.

(** ** bsearch *)

(** The targets above an element form an initial segment, those below it a
    final one: the array is sorted. *)
Lemma bsearch_loop_spec (cmp : nat → option Z) (n fuel l u : nat) :
  (∀ i, (i < n)%nat → is_Some (cmp i)) →
  (∀ i j c d, (i < j < n)%nat → cmp i = Some c → cmp j = Some d → 0 ≤ d → 0 < c) →
  (l ≤ u ≤ n)%nat → (u - l ≤ fuel)%nat →
  (∀ i c, (i < l)%nat → cmp i = Some c → 0 < c) → (∀ i c, (u ≤ i < n)%nat → cmp i = Some c → c < 0) →
  ∃ r, bsearch_loop fuel cmp l u = Some r ∧
    match r with
    | Some i => (i < n)%nat ∧ cmp i = Some 0
    | None => ∀ i c, (i < n)%nat → cmp i = Some c → c ≠ 0
    end.
Proof.
  intros Hdef Hsort. revert l u. induction fuel as [|fuel IH]; intros l u Hlu Hf Hl Hu; cbn [bsearch_loop];
    destruct (decide (u ≤ l)%nat) as [Hle|Hlt].
  1, 3: exists None; split; [done|]; intros i c Hi Hc;
    destruct (decide (i < l)%nat); [specialize (Hl i c)|specialize (Hu i c)]; naive_solver lia.
  { lia. }
  assert (Hm : (l ≤ Nat.div2 (l + u) < u)%nat) by (rewrite Nat.div2_div; split; [apply Nat.div_le_lower_bound|
    apply Nat.Div0.div_lt_upper_bound]; lia).
  destruct (Hdef (Nat.div2 (l + u))) as [c Hc]; [lia|]. rewrite Hc. cbn [mbind option_bind].
  destruct (Z.ltb_spec c 0) as [Hn|Hn]; [|destruct (Z.ltb_spec 0 c) as [Hp|Hp]].
  - apply IH; [lia..|done|]. intros i d Hi Hd.
    destruct (decide (i = Nat.div2 (l + u))) as [->|]; [naive_solver lia|].
    destruct (Z.ltb_spec d 0); [done|]. pose proof (Hsort (Nat.div2 (l + u)) i c d ltac:(lia) Hc Hd). lia.
  - apply IH; [lia..| |done]. intros i d Hi Hd.
    destruct (decide (i = Nat.div2 (l + u))) as [->|]; [naive_solver lia|].
    apply (Hsort i (Nat.div2 (l + u)) d c); [lia|done|done|lia].
  - exists (Some (Nat.div2 (l + u))). replace c with 0 in Hc by lia. split; [done|]. split; [lia|done].
Qed.

Section lemmas.
Context {A : Type} (key : A → option (list Z)).
Implicit Types (l : list A) (p q : A) (arr rest : list (option A)) (k : list Z).

Lemma key_lt_irrefl p : ¬ key_lt key p p.
Proof. intros (a & b & Ha & Hb & H). simplify_eq. rewrite strcmp_refl in H. lia. Qed.

Lemma sorted_by_key_ext (key' : A → option (list Z)) l :
  (∀ p, p ∈ l → key' p = key p) → sorted_by key l → sorted_by key' l.
Proof.
  intros Hid Hs. induction Hs as [|p l Hl IH Hp]; constructor.
  - apply IH. intros q Hq. apply Hid. by right.
  - rewrite Forall_forall in Hp |- *. intros q Hq. destruct (Hp q Hq) as (a & b & Ha & Hb & Hab).
    exists a, b. rewrite !Hid by (by first [left|right]). done.
Qed.

Lemma sorted_by_NoDup l : sorted_by key l → NoDup l.
Proof.
  induction 1 as [|p l Hl IH Hp]; [constructor|]. constructor; [|done].
  intros Hin. rewrite Forall_forall in Hp. by apply (key_lt_irrefl p), Hp.
Qed.

Lemma sorted_by_key l p : sorted_by key l → (1 < length l)%nat → p ∈ l → is_Some (key p).
Proof.
  intros Hs Hl Hp. apply list_elem_of_lookup in Hp as [i Hi].
  destruct l as [|a [|b l]]; cbn in Hl; [lia..|].
  assert (Hab := Hs). apply StronglySorted_inv in Hs as [_ Ha].
  destruct i as [|i]; cbn in Hi.
  - injection Hi as <-. rewrite Forall_cons in Ha. destruct Ha as [(x & y & Hx & _) _]. by exists x.
  - rewrite Forall_forall in Ha. destruct (Ha p) as (x & y & _ & Hy & _); [by eapply list_elem_of_lookup_2|].
    by exists y.
Qed.

Lemma sorted_by_lookup l i j p q : sorted_by key l → (i < j)%nat → l !! i = Some p → l !! j = Some q → key_lt key p q.
Proof.
  intros Hs. revert i j. induction Hs as [|a l Hl IH Ha]; intros i j Hij Hi Hj; [done|].
  destruct i as [|i], j as [|j]; cbn in Hi, Hj; [lia| |lia|].
  - simplify_eq. rewrite Forall_forall in Ha. apply Ha. by eapply list_elem_of_lookup_2.
  - apply (IH i j); [lia|done..].
Qed.

(** Two entries with the same key are the same. *)
Lemma sorted_by_inj l p q k : sorted_by key l → p ∈ l → q ∈ l → key p = Some k → key q = Some k → p = q.
Proof.
  intros Hs [i Hi]%list_elem_of_lookup [j Hj]%list_elem_of_lookup Hp Hq.
  destruct (lt_eq_lt_dec i j) as [[Hij| ->]|Hij]; [|by simplify_eq|].
  - destruct (sorted_by_lookup l i j p q Hs Hij Hi Hj) as (a & b & Ha & Hb & H).
    simplify_eq. rewrite strcmp_refl in H. lia.
  - destruct (sorted_by_lookup l j i q p Hs Hij Hj Hi) as (a & b & Ha & Hb & H).
    simplify_eq. rewrite strcmp_refl in H. lia.
Qed.

Lemma entry_key_app l rest i p : l !! i = Some p → entry_key key ((Some <$> l) ++ rest) i = key p.
Proof.
  intros Hi. unfold entry_key. rewrite lookup_app_l by (rewrite length_fmap; by eapply lookup_lt_Some).
  rewrite list_lookup_fmap, Hi. done.
Qed.

(** [bsearch] finds the entry with the key, or there is none. *)
Lemma find_entry_sorted l rest k :
  sorted_by key l → Forall (λ p, is_Some (key p)) l →
  ∃ r, find_entry key k ((Some <$> l) ++ rest) (length l) = Some r ∧
    match r with
    | Some i => ∃ p, l !! i = Some p ∧ key p = Some k
    | None => ∀ p, p ∈ l → key p ≠ Some k
    end.
Proof.
  intros Hs Hk. rewrite Forall_forall in Hk.
  assert (Hcmp : ∀ i p, l !! i = Some p → ∃ a, key p = Some a ∧
      (strcmp k <$> entry_key key ((Some <$> l) ++ rest) i) = Some (strcmp k a)).
  { intros i p Hi. destruct (Hk p) as [a Ha]; [by eapply list_elem_of_lookup_2|].
    exists a. split; [done|]. by rewrite (entry_key_app _ _ _ _ Hi), Ha. }
  destruct (bsearch_loop_spec (λ i, strcmp k <$> entry_key key ((Some <$> l) ++ rest) i) (length l) (length l) 0 (length l))
    as (r & Hr & Hspec); [| |lia..|intros i c Hi; lia|intros i c Hi; lia|].
  - intros i Hi. apply lookup_lt_is_Some_2 in Hi as [p Hp]. destruct (Hcmp i p Hp) as (a & _ & ->). done.
  - intros i j c d Hij Hc Hd Hnn.
    destruct (lookup_lt_is_Some_2 l i ltac:(lia)) as [p Hp], (lookup_lt_is_Some_2 l j ltac:(lia)) as [q Hq].
    destruct (Hcmp i p Hp) as (a & Ha & Ea), (Hcmp j q Hq) as (b & Hb & Eb).
    rewrite Ea in Hc. rewrite Eb in Hd. simplify_eq.
    destruct (sorted_by_lookup l i j p q Hs ltac:(lia) Hp Hq) as (a' & b' & Ha' & Hb' & Hlt). simplify_eq.
    destruct (decide (strcmp k b = 0)) as [He|He].
    + apply strcmp_eq in He as ->. rewrite strcmp_antisym. lia.
    + rewrite strcmp_antisym. assert (strcmp b k < 0) by (rewrite strcmp_antisym; lia).
      pose proof (strcmp_trans a b k Hlt). lia.
  - exists r. split; [exact Hr|]. destruct r as [i|].
    + destruct Hspec as [Hi Hc]. apply lookup_lt_is_Some_2 in Hi as [p Hp]. exists p.
      destruct (Hcmp i p Hp) as (a & Ha & Ea). rewrite Ea in Hc. injection Hc as Hc%strcmp_eq. by subst.
    + intros p [i Hi]%list_elem_of_lookup Hpk. destruct (Hcmp i p Hi) as (a & Ha & Ea). simplify_eq.
      apply (Hspec i (strcmp k k)); [by eapply lookup_lt_Some|done|apply strcmp_refl].
Qed.

(** ** Insertion *)

(** The loop splits the entries: those behind the hole are not below [k],
    the one before it is. *)
Lemma insert_from_split p k (l b : list A) (e : option A) rest :
  Forall (λ q, is_Some (key q)) l → Forall (λ q, ∃ k', key q = Some k' ∧ strcmp k k' ≤ 0) b →
  ∃ a c, l ++ b = a ++ c ∧
    insert_from key p k (length l) ((Some <$> l) ++ e :: (Some <$> b) ++ rest)
      = Some ((Some <$> a ++ p :: c) ++ rest) ∧
    Forall (λ q, ∃ k', key q = Some k' ∧ strcmp k k' ≤ 0) c ∧
    (∀ q, last a = Some q → ∃ k', key q = Some k' ∧ 0 < strcmp k k').
Proof.
  revert b e. induction l as [|q l IH] using rev_ind; intros b e Hk Hb.
  - exists [], b. split; [done|]. split; [|done]. cbn. unfold store_at.
    rewrite decide_True by (cbn; lia). done.
  - apply Forall_app in Hk as [Hl [k' Hq]%Forall_singleton].
    rewrite length_app, Nat.add_1_r. cbn [insert_from].
    assert (Hj : ∀ x, ((Some <$> l ++ [q]) ++ x) !! length l = Some (Some q)).
    { intros x. rewrite lookup_app_l by (rewrite length_fmap, length_app; cbn; lia).
      rewrite list_lookup_fmap, lookup_app_r, Nat.sub_diag by lia. done. }
    unfold entry_key. rewrite (Hj (e :: (Some <$> b) ++ rest)). cbn [mjoin option_join mbind option_bind]. rewrite Hq.
    cbn [mbind option_bind].
    assert (Hst : ∀ x, store_at (S (length l)) x ((Some <$> l ++ [q]) ++ e :: (Some <$> b) ++ rest)
                  = Some ((Some <$> l ++ [q]) ++ x :: (Some <$> b) ++ rest)).
    { intros x. unfold store_at. rewrite decide_True by (rewrite !length_app, length_fmap, length_app; cbn; lia).
      rewrite insert_app_r_alt by (rewrite length_fmap, length_app; cbn; lia).
      rewrite length_fmap, length_app, Nat.add_1_r, Nat.sub_diag. done. }
    destruct (Z.ltb_spec 0 (strcmp k k')) as [Hlt|Hge].
    + exists (l ++ [q]), b. split; [done|]. rewrite Hst. split.
      { by rewrite (fmap_app _ (l ++ [q])), <- app_assoc. }
      split; [done|]. intros x. rewrite last_snoc. intros [= <-]. by exists k'.
    + rewrite Hst. cbn [mbind option_bind].
      destruct (IH (q :: b) (Some q) Hl) as (a & c & Hac & Hr & Hc & Ha).
      { constructor; [by exists k'|done]. }
      exists a, c. rewrite <- app_assoc. split; [exact Hac|]. split; [|done].
      rewrite fmap_app, <- app_assoc. exact Hr.
Qed.

(** Inserting a new key keeps the array sorted. *)
Lemma insert_from_spec p k l e rest :
  sorted_by key l → Forall (λ q, is_Some (key q)) l → key p = Some k → (∀ q, q ∈ l → key q ≠ Some k) →
  ∃ l', insert_from key p k (length l) ((Some <$> l) ++ e :: rest) = Some ((Some <$> l') ++ rest) ∧
        l' ≡ₚ p :: l ∧ sorted_by key l'.
Proof.
  intros Hs Hk Hp Hne.
  destruct (insert_from_split p k l [] e rest Hk) as (a & c & Hac & Hr & Hc & Ha); [constructor|].
  rewrite app_nil_r in Hac. subst l. exists (a ++ p :: c). split; [exact Hr|]. split; [by rewrite Permutation_middle|].
  apply StronglySorted_app in Hs as (Hcross & Hsa & Hsc).
  assert (Hpc : Forall (key_lt key p) c).
  { rewrite Forall_forall in Hc |- *. intros q Hq. destruct (Hc q Hq) as (k' & Hk' & Hle).
    exists k, k'. split; [done|]. split; [done|]. destruct (decide (strcmp k k' = 0)) as [->%strcmp_eq|]; [|lia].
    destruct (Hne q); [by apply elem_of_app; right|done]. }
  assert (Hap : Forall (λ q, key_lt key q p) a).
  { destruct a as [|x a' _] using rev_ind; [constructor|].
    destruct (Ha x) as (k' & Hk' & Hlt); [apply last_snoc|].
    assert (Hxp : key_lt key x p) by (exists k', k; rewrite strcmp_antisym; split; [done|]; split; [done|lia]).
    apply Forall_app. split; [|by repeat constructor].
    apply StronglySorted_app in Hsa as (Hca & _ & _). apply Forall_forall. intros q Hq.
    destruct (Hca q x Hq) as (u & v & Hu & Hv & Huv); [by apply list_elem_of_here|].
    exists u, k. simplify_eq. split; [done|]. split; [done|].
    apply (strcmp_trans u k' k Huv). rewrite strcmp_antisym. lia. }
  rewrite Forall_forall in Hap. apply StronglySorted_app. split; [|split; [done|by constructor]].
  intros x y Hx [->|Hy]%elem_of_cons; [by apply Hap|by apply Hcross].
Qed.

(** ** Removal *)

Lemma shift_down_spec l c (e : option A) rest :
  ∃ x, shift_down (length c) (length l) ((Some <$> l) ++ e :: (Some <$> c) ++ rest)
       = Some ((Some <$> l ++ c) ++ x :: rest).
Proof.
  revert l e. induction c as [|q c IH]; intros l e; cbn [length shift_down].
  { exists e. by rewrite app_nil_r. }
  rewrite lookup_app_r, length_fmap by (rewrite length_fmap; lia).
  replace (S (length l) - length l)%nat with 1%nat by lia. cbn [lookup list_lookup fmap list_fmap app mbind option_bind].
  unfold store_at. rewrite decide_True by (rewrite length_app, length_fmap; cbn; lia). cbn [mbind option_bind].
  rewrite insert_app_r_alt, length_fmap, Nat.sub_diag by (rewrite length_fmap; lia).
  destruct (IH (l ++ [q]) (Some q)) as [x Hx]. exists x.
  rewrite length_app, Nat.add_1_r, fmap_app, <- !app_assoc in Hx. exact Hx.
Qed.

Lemma remove_spec l i p rest :
  l !! i = Some p →
  ∃ x, shift_down (length l - 1 - i) i ((Some <$> l) ++ rest) = Some ((Some <$> delete i l) ++ x :: rest).
Proof.
  intros Hi. destruct (list_elem_of_split_length l i p Hi) as (a & c & -> & ->).
  rewrite length_app. cbn [length]. replace (length a + S (length c) - 1 - length a)%nat with (length c) by lia.
  rewrite fmap_app, <- app_assoc. cbn [fmap list_fmap app].
  destruct (shift_down_spec a c (Some p) rest) as [x Hx]. exists x. rewrite Hx, delete_middle. done.
Qed.

Lemma sorted_by_delete l i p : sorted_by key l → l !! i = Some p → sorted_by key (delete i l).
Proof.
  intros Hs Hi. destruct (list_elem_of_split_length l i p Hi) as (a & c & -> & ->). rewrite delete_middle.
  apply StronglySorted_app in Hs as (Hx & Ha & [Hc Hp]%StronglySorted_inv).
  apply StronglySorted_app. split; [|done]. intros x y Hxa Hyc. apply Hx; [done|by right].
Qed.

Lemma entries_spec l rest : entries ((Some <$> l) ++ rest) (length l) = Some l.
Proof.
  unfold entries. rewrite decide_True by (rewrite length_app, length_fmap; lia).
  rewrite take_app_length' by (by rewrite length_fmap).
  apply mapM_Some, Forall2_fmap_l, Forall_Forall2_diag. by apply Forall_forall.
Qed.

End lemmas.

(** [bsearch] over any array returns: nothing, or an index where the
    comparison gives 0. *)
Lemma bsearch_loop_total (cmp : nat → option Z) fuel l u :
  (∀ i, (i < u)%nat → is_Some (cmp i)) → (u - l ≤ fuel)%nat →
  ∃ r, bsearch_loop fuel cmp l u = Some r ∧ ∀ i, r = Some i → (i < u)%nat ∧ cmp i = Some 0.
Proof.
  revert l u. induction fuel as [|fuel IH]; intros l u Hdef Hf; cbn [bsearch_loop];
    destruct (decide (u ≤ l)%nat) as [Hle|Hlt]; try (exists None; split; [done|]; by intros i).
  { lia. }
  assert (Hm : (l ≤ Nat.div2 (l + u) < u)%nat) by (rewrite Nat.div2_div; split; [apply Nat.div_le_lower_bound|
    apply Nat.Div0.div_lt_upper_bound]; lia).
  destruct (Hdef (Nat.div2 (l + u))) as [c Hc]; [lia|]. rewrite Hc. cbn [mbind option_bind].
  destruct (Z.ltb_spec c 0); [|destruct (Z.ltb_spec 0 c)].
  - destruct (IH l (Nat.div2 (l + u))) as (r & Hr & Hs); [intros i Hi; apply Hdef; lia|lia|].
    exists r. split; [done|]. intros i Hi. destruct (Hs i Hi). split; [lia|done].
  - apply IH; [done|lia].
  - exists (Some (Nat.div2 (l + u))). split; [done|]. intros i [= <-]. replace c with 0 in Hc by lia. split; [lia|done].
Qed.

Lemma bsearch_total (cmp : nat → option Z) n :
  (∀ i, (i < n)%nat → is_Some (cmp i)) →
  ∃ r, bsearch cmp n = Some r ∧ ∀ i, r = Some i → (i < n)%nat ∧ cmp i = Some 0.
Proof. intros Hdef. apply bsearch_loop_total; [done|lia]. Qed.
