(* ===== verification/HashFunc.v ===== *)
(** * common/hash.c: hash functions

    Each function folds a step over the bytes of the key; the [_ex] variants
    take the initial value, so that a key can be hashed piece by piece.  The
    variables are [int]: products, sums and left shifts wrap, a right shift
    extends the sign. *)

From S2P Require Import Prelude CLib.
From stdpp Require Import strings.
#[local] Open Scope Z_scope.

(** ** The functions *)

(** The two variables of the loop. *)
Definition RSHash_step (s : Z * Z) (c : Z) : Z * Z :=
  let '(hash, a) := s in (s32 (s32 (hash * a) + c), s32 (a * 378551)).
Definition RSHash (key : list Z) : Z := (fold_left RSHash_step key (0, 63689)).1.

Definition JS_step (hash c : Z) : Z :=
  Z.lxor hash (s32 (s32 (s32 (Z.shiftl hash 5) + c) + Z.shiftr hash 2)).
Definition JSHash_ex (key : list Z) (init_value : Z) : Z := fold_left JS_step key init_value.
Definition JSHash (key : list Z) : Z := JSHash_ex key 1315423911.

Definition BITS_IN_UNIGNED_INT : Z := 32.
Definition THREE_QUARTERS : Z := BITS_IN_UNIGNED_INT * 3 / 4.
Definition HASH_ONE_EIGHTH : Z := BITS_IN_UNIGNED_INT / 8.
Definition HASH_HIGH_BITS : Z := s32 (u32 (Z.shiftl 0xFFFFFFFF (BITS_IN_UNIGNED_INT - HASH_ONE_EIGHTH))).

Definition PJW_step (hash c : Z) : Z :=
  let hash := s32 (s32 (Z.shiftl hash HASH_ONE_EIGHTH) + c) in
  let test := Z.land hash HASH_HIGH_BITS in
  if c_true test then Z.land (Z.lxor hash (Z.shiftr test THREE_QUARTERS)) (Z.lnot HASH_HIGH_BITS)
  else hash.
Definition PJWHash_ex (key : list Z) (init_value : Z) : Z := fold_left PJW_step key init_value.
Definition PJWHash (key : list Z) : Z := PJWHash_ex key 0.

(** [hash & 0xF0000000] is an [unsigned int], [x] an [int]. *)
Definition ELF_step (hash c : Z) : Z :=
  let hash := s32 (s32 (Z.shiftl hash 4) + c) in
  let x := s32 (Z.land (u32 hash) 0xF0000000) in
  if c_true x then Z.land (Z.lxor hash (Z.shiftr x 24)) (Z.lnot x) else hash.
Definition ELFHash_ex (key : list Z) (init_value : Z) : Z := fold_left ELF_step key init_value.
Definition ELFHash (key : list Z) : Z := ELFHash_ex key 0.

Definition BKDR_step (hash c : Z) : Z := s32 (s32 (hash * 131) + c).
Definition BKDRHash_ex (key : list Z) (init_value : Z) : Z := fold_left BKDR_step key init_value.
Definition BKDRHash (key : list Z) : Z := BKDRHash_ex key 0.

Definition SDBM_step (hash c : Z) : Z :=
  s32 (s32 (s32 (c + s32 (Z.shiftl hash 6)) + s32 (Z.shiftl hash 16)) - hash).
Definition SDBMHash_ex (key : list Z) (init_value : Z) : Z := fold_left SDBM_step key init_value.
Definition SDBMHash (key : list Z) : Z := SDBMHash_ex key 0.

Definition Time33_step (nHash c : Z) : Z := s32 (nHash + s32 (s32 (Z.shiftl nHash 5) + c)).
Definition Time33Hash_ex (key : list Z) (init_value : Z) : Z := fold_left Time33_step key init_value.
Definition Time33Hash (key : list Z) : Z := Time33Hash_ex key 0.

Definition DJB_step (hash c : Z) : Z := s32 (hash + s32 (s32 (Z.shiftl hash 5) + c)).
Definition DJBHash_ex (key : list Z) (init_value : Z) : Z := fold_left DJB_step key init_value.
Definition DJBHash (key : list Z) : Z := DJBHash_ex key 5381.

(** The hash and [i]. *)
Definition AP_step (s : Z * Z) (c : Z) : Z * Z :=
  let '(hash, i) := s in
  (Z.lxor hash
     (if Z.land i 1 =? 0 then Z.lxor (Z.lxor (s32 (Z.shiftl hash 7)) c) (Z.shiftr hash 3)
      else Z.lnot (Z.lxor (Z.lxor (s32 (Z.shiftl hash 11)) c) (Z.shiftr hash 5))),
   i + 1).
Definition APHash_ex (key : list Z) (init_value : Z) : Z := (fold_left AP_step key (init_value, 0)).1.
Definition APHash (key : list Z) : Z := APHash_ex key 0.

(** [nr] and [nr2]. *)
Definition calc_hashnr_step (s : Z * Z) (c : Z) : Z * Z :=
  let '(nr, nr2) := s in
  (Z.lxor nr (s32 (s32 (s32 (Z.land nr 63 + nr2) * c) + s32 (Z.shiftl nr 8))), s32 (nr2 + 3)).
Definition calc_hashnr (key : list Z) : Z := (fold_left calc_hashnr_step key (1, 4)).1.

Definition calc_hashnr1_step (hash c : Z) : Z := Z.lxor (s32 (hash * 16777619)) c.
Definition calc_hashnr1_ex (key : list Z) (init_value : Z) : Z := fold_left calc_hashnr1_step key init_value.
Definition calc_hashnr1 (key : list Z) : Z := calc_hashnr1_ex key 0.

Definition simple_step (h c : Z) : Z := s32 (s32 (31 * h) + c).
Definition simple_hash_ex (key : list Z) (init_value : Z) : Z := fold_left simple_step key init_value.
Definition simple_hash (key : list Z) : Z := simple_hash_ex key 0.

(** ** CRC32 *)

Definition CRC32_XINIT : Z := 0xFFFFFFFF.
Definition CRC32_XOROT : Z := 0xFFFFFFFF.

Definition crc_table : list Z :=
  [
   0x00000000; 0x77073096; 0xEE0E612C; 0x990951BA; 0x076DC419; 0x706AF48F; 0xE963A535; 0x9E6495A3;
   0x0EDB8832; 0x79DCB8A4; 0xE0D5E91E; 0x97D2D988; 0x09B64C2B; 0x7EB17CBD; 0xE7B82D07; 0x90BF1D91;
   0x1DB71064; 0x6AB020F2; 0xF3B97148; 0x84BE41DE; 0x1ADAD47D; 0x6DDDE4EB; 0xF4D4B551; 0x83D385C7;
   0x136C9856; 0x646BA8C0; 0xFD62F97A; 0x8A65C9EC; 0x14015C4F; 0x63066CD9; 0xFA0F3D63; 0x8D080DF5;
   0x3B6E20C8; 0x4C69105E; 0xD56041E4; 0xA2677172; 0x3C03E4D1; 0x4B04D447; 0xD20D85FD; 0xA50AB56B;
   0x35B5A8FA; 0x42B2986C; 0xDBBBC9D6; 0xACBCF940; 0x32D86CE3; 0x45DF5C75; 0xDCD60DCF; 0xABD13D59;
   0x26D930AC; 0x51DE003A; 0xC8D75180; 0xBFD06116; 0x21B4F4B5; 0x56B3C423; 0xCFBA9599; 0xB8BDA50F;
   0x2802B89E; 0x5F058808; 0xC60CD9B2; 0xB10BE924; 0x2F6F7C87; 0x58684C11; 0xC1611DAB; 0xB6662D3D;
   0x76DC4190; 0x01DB7106; 0x98D220BC; 0xEFD5102A; 0x71B18589; 0x06B6B51F; 0x9FBFE4A5; 0xE8B8D433;
   0x7807C9A2; 0x0F00F934; 0x9609A88E; 0xE10E9818; 0x7F6A0DBB; 0x086D3D2D; 0x91646C97; 0xE6635C01;
   0x6B6B51F4; 0x1C6C6162; 0x856530D8; 0xF262004E; 0x6C0695ED; 0x1B01A57B; 0x8208F4C1; 0xF50FC457;
   0x65B0D9C6; 0x12B7E950; 0x8BBEB8EA; 0xFCB9887C; 0x62DD1DDF; 0x15DA2D49; 0x8CD37CF3; 0xFBD44C65;
   0x4DB26158; 0x3AB551CE; 0xA3BC0074; 0xD4BB30E2; 0x4ADFA541; 0x3DD895D7; 0xA4D1C46D; 0xD3D6F4FB;
   0x4369E96A; 0x346ED9FC; 0xAD678846; 0xDA60B8D0; 0x44042D73; 0x33031DE5; 0xAA0A4C5F; 0xDD0D7CC9;
   0x5005713C; 0x270241AA; 0xBE0B1010; 0xC90C2086; 0x5768B525; 0x206F85B3; 0xB966D409; 0xCE61E49F;
   0x5EDEF90E; 0x29D9C998; 0xB0D09822; 0xC7D7A8B4; 0x59B33D17; 0x2EB40D81; 0xB7BD5C3B; 0xC0BA6CAD;
   0xEDB88320; 0x9ABFB3B6; 0x03B6E20C; 0x74B1D29A; 0xEAD54739; 0x9DD277AF; 0x04DB2615; 0x73DC1683;
   0xE3630B12; 0x94643B84; 0x0D6D6A3E; 0x7A6A5AA8; 0xE40ECF0B; 0x9309FF9D; 0x0A00AE27; 0x7D079EB1;
   0xF00F9344; 0x8708A3D2; 0x1E01F268; 0x6906C2FE; 0xF762575D; 0x806567CB; 0x196C3671; 0x6E6B06E7;
   0xFED41B76; 0x89D32BE0; 0x10DA7A5A; 0x67DD4ACC; 0xF9B9DF6F; 0x8EBEEFF9; 0x17B7BE43; 0x60B08ED5;
   0xD6D6A3E8; 0xA1D1937E; 0x38D8C2C4; 0x4FDFF252; 0xD1BB67F1; 0xA6BC5767; 0x3FB506DD; 0x48B2364B;
   0xD80D2BDA; 0xAF0A1B4C; 0x36034AF6; 0x41047A60; 0xDF60EFC3; 0xA867DF55; 0x316E8EEF; 0x4669BE79;
   0xCB61B38C; 0xBC66831A; 0x256FD2A0; 0x5268E236; 0xCC0C7795; 0xBB0B4703; 0x220216B9; 0x5505262F;
   0xC5BA3BBE; 0xB2BD0B28; 0x2BB45A92; 0x5CB36A04; 0xC2D7FFA7; 0xB5D0CF31; 0x2CD99E8B; 0x5BDEAE1D;
   0x9B64C2B0; 0xEC63F226; 0x756AA39C; 0x026D930A; 0x9C0906A9; 0xEB0E363F; 0x72076785; 0x05005713;
   0x95BF4A82; 0xE2B87A14; 0x7BB12BAE; 0x0CB61B38; 0x92D28E9B; 0xE5D5BE0D; 0x7CDCEFB7; 0x0BDBDF21;
   0x86D3D2D4; 0xF1D4E242; 0x68DDB3F8; 0x1FDA836E; 0x81BE16CD; 0xF6B9265B; 0x6FB077E1; 0x18B74777;
   0x88085AE6; 0xFF0F6A70; 0x66063BCA; 0x11010B5C; 0x8F659EFF; 0xF862AE69; 0x616BFFD3; 0x166CCF45;
   0xA00AE278; 0xD70DD2EE; 0x4E048354; 0x3903B3C2; 0xA7672661; 0xD06016F7; 0x4969474D; 0x3E6E77DB;
   0xAED16A4A; 0xD9D65ADC; 0x40DF0B66; 0x37D83BF0; 0xA9BCAE53; 0xDEBB9EC5; 0x47B2CF7F; 0x30B5FFE9;
   0xBDBDF21C; 0xCABAC28A; 0x53B39330; 0x24B4A3A6; 0xBAD03605; 0xCDD70693; 0x54DE5729; 0x23D967BF;
   0xB3667A2E; 0xC4614AB8; 0x5D681B02; 0x2A6F2B94; 0xB40BBE37; 0xC30C8EA1; 0x5A05DF1B; 0x2D02EF8D
  ].

(** The table is [unsigned int]; [crc] is an [int], and so is [crc >> 8]. *)
Definition crc_step (crc c : Z) : Z :=
  s32 (Z.lxor (nth (Z.to_nat (Z.land (Z.lxor crc c) 0xFF)) crc_table 0) (u32 (Z.shiftr crc 8))).
Definition CRC32_ex (key : list Z) (init_value : Z) : Z := fold_left crc_step key init_value.
Definition CRC32_FINAL (crc : Z) : Z := s32 (Z.lxor (u32 crc) CRC32_XOROT).
Definition CRC32 (key : list Z) : Z := CRC32_FINAL (CRC32_ex key (s32 CRC32_XINIT)).

(** ** The four hash codes of a file

    They are computed while the file is read, buffer by buffer. *)

Definition INIT_HASH_CODES4 : list Z := [s32 CRC32_XINIT; 0; 0; 0].
Definition CALC_HASH_CODES4 (buff hash_codes : list Z) : list Z :=
  match hash_codes with
  | [h0; h1; h2; h3] => [CRC32_ex buff h0; ELFHash_ex buff h1; simple_hash_ex buff h2; Time33Hash_ex buff h3]
  | _ => hash_codes
  end.
Definition FINISH_HASH_CODES4 (hash_codes : list Z) : list Z :=
  match hash_codes with
  | h0 :: hs => CRC32_FINAL h0 :: hs
  | [] => []
  end.

(** ** The reference CRC-32

    The reflected polynomial of IEEE 802.3, one bit at a time. *)

Definition crc_bit (r : Z) : Z :=
  if Z.testbit r 0 then Z.lxor (Z.shiftr r 1) 0xEDB88320 else Z.shiftr r 1.
Definition ref_step (r c : Z) : Z := Nat.iter 8 crc_bit (Z.lxor r c).
Definition ref_crc32 (key : list Z) : Z := Z.lxor (fold_left ref_step key 0xFFFFFFFF) 0xFFFFFFFF.

(** * Lemmas *)

(** ** Pieces *)

Lemma CRC32_ex_app a b i : CRC32_ex (a ++ b) i = CRC32_ex b (CRC32_ex a i).
Proof. apply fold_left_app. Qed.
Lemma ELFHash_ex_app a b i : ELFHash_ex (a ++ b) i = ELFHash_ex b (ELFHash_ex a i).
Proof. apply fold_left_app. Qed.
Lemma simple_hash_ex_app a b i : simple_hash_ex (a ++ b) i = simple_hash_ex b (simple_hash_ex a i).
Proof. apply fold_left_app. Qed.
Lemma Time33Hash_ex_app a b i : Time33Hash_ex (a ++ b) i = Time33Hash_ex b (Time33Hash_ex a i).
Proof. apply fold_left_app. Qed.

Lemma calc_codes_concat pieces h0 h1 h2 h3 :
  fold_left (λ codes buff, CALC_HASH_CODES4 buff codes) pieces [h0; h1; h2; h3]
  = [CRC32_ex (concat pieces) h0; ELFHash_ex (concat pieces) h1;
     simple_hash_ex (concat pieces) h2; Time33Hash_ex (concat pieces) h3].
Proof.
  revert h0 h1 h2 h3. induction pieces as [|p pieces IH]; intros; [done|].
  cbn [fold_left CALC_HASH_CODES4 concat].
  by rewrite IH, CRC32_ex_app, ELFHash_ex_app, simple_hash_ex_app, Time33Hash_ex_app.
Qed.

(** ** The range of the PJW hash *)

Lemma high_clear h : Z.land h (- 2 ^ 28) = 0 → 0 ≤ h < 2 ^ 28.
Proof.
  intros H. assert (Z.shiftr h 28 = 0) as Hs.
  { apply Z.bits_inj'. intros i Hi. rewrite Z.shiftr_spec, Z.bits_0 by done.
    assert (Z.testbit (Z.land h (- 2 ^ 28)) (i + 28) = false) as Hb by (by rewrite H, Z.bits_0).
    rewrite Z.land_spec in Hb.
    assert (Z.testbit (- 2 ^ 28) (i + 28) = true) as E; [|by rewrite E, andb_true_r in Hb].
    change (- 2 ^ 28) with (Z.shiftl (-1) 28). rewrite Z.shiftl_spec by lia.
    replace (i + 28 - 28) with i by lia. by rewrite Z.bits_m1. }
  rewrite Z.shiftr_div_pow2 in Hs by done. apply Z.div_small_iff in Hs; [|done]. lia.
Qed.

Lemma PJW_step_range hash c : 0 ≤ PJW_step hash c < 2 ^ 28.
Proof.
  unfold PJW_step. cbv zeta. change HASH_HIGH_BITS with (- 2 ^ 28).
  set (h := s32 _). unfold c_true. destruct (Z.eqb_spec (Z.land h (- 2 ^ 28)) 0) as [E|_]; cbn [negb].
  - by apply high_clear.
  - change (Z.lnot (- 2 ^ 28)) with (Z.ones 28). rewrite Z.land_ones by done.
    apply Z.mod_pos_bound. lia.
Qed.

Lemma PJWHash_range key : 0 ≤ PJWHash key < 2 ^ 28.
Proof.
  unfold PJWHash, PJWHash_ex. rewrite <- fold_left_rev_right. destruct (rev key); cbn; [lia|].
  apply PJW_step_range.
Qed.

(** ** CRC32 *)

Lemma crc_bit_lxor a b : crc_bit (Z.lxor a b) = Z.lxor (crc_bit a) (crc_bit b).
Proof.
  unfold crc_bit. rewrite Z.lxor_spec, Z.shiftr_lxor.
  destruct (Z.testbit a 0), (Z.testbit b 0); cbn [xorb]; apply Z.bits_inj'; intros i Hi;
    rewrite !Z.lxor_spec; repeat match goal with |- context [Z.testbit ?x i] => destruct (Z.testbit x i) end; done.
Qed.

Lemma crc_bits_lxor n a b : Nat.iter n crc_bit (Z.lxor a b) = Z.lxor (Nat.iter n crc_bit a) (Nat.iter n crc_bit b).
Proof. induction n as [|n IH]; [done|]. by rewrite !Nat.iter_succ, IH, crc_bit_lxor. Qed.

Lemma crc_bits_shift n y : Nat.iter n crc_bit (Z.shiftl y (Z.of_nat n)) = y.
Proof.
  enough (∀ k, (k ≤ n)%nat → Nat.iter k crc_bit (Z.shiftl y (Z.of_nat n)) = Z.shiftl y (Z.of_nat (n - k))) as H.
  { rewrite H, Nat.sub_diag by done. apply Z.shiftl_0_r. }
  induction k as [|k IH]; intros Hk; [by rewrite Nat.sub_0_r|]. rewrite Nat.iter_succ, IH by lia.
  replace (n - k)%nat with (S (n - S k)) by lia. unfold crc_bit. rewrite Nat2Z.inj_succ.
  rewrite Z.shiftl_spec_low by lia. rewrite Z.shiftr_shiftl_l by lia. f_equal. lia.
Qed.

Lemma low_byte_split x : x = Z.lxor (Z.land x 255) (Z.shiftl (Z.shiftr x 8) 8).
Proof.
  change 255 with (Z.ones 8). rewrite Z.land_ones by done.
  apply Z.bits_inj'. intros i Hi. rewrite Z.lxor_spec.
  destruct (Z.lt_ge_cases i 8).
  - rewrite Z.mod_pow2_bits_low, Z.shiftl_spec_low by lia. by rewrite xorb_false_r.
  - rewrite Z.mod_pow2_bits_high, Z.shiftl_spec, Z.shiftr_spec by lia.
    cbn [xorb]. f_equal. lia.
Qed.

Lemma ref_step_table r c :
  is_byte c → ref_step r c = Z.lxor (nth (Z.to_nat (Z.land (Z.lxor r c) 0xFF)) crc_table 0) (Z.shiftr r 8).
Proof.
  intros Hc. unfold ref_step. rewrite (low_byte_split (Z.lxor r c)) at 1.
  rewrite crc_bits_lxor, (crc_bits_shift 8). f_equal.
  - assert (0 ≤ Z.land (Z.lxor r c) 255 < 256) as H.
    { change 255 with (Z.ones 8). rewrite Z.land_ones by done. apply Z.mod_pos_bound. lia. }
    change 0xFF with 255. revert H. generalize (Z.land (Z.lxor r c) 255). intros v H. all_below 256 v.
  - rewrite Z.shiftr_lxor. assert (Z.shiftr c 8 = 0) as ->; [|by rewrite Z.lxor_0_r].
    rewrite Z.shiftr_div_pow2 by done. apply Z.div_small. unfold is_byte in Hc. lia.
Qed.

Lemma u32_lxor a b : u32 (Z.lxor a b) = Z.lxor (u32 a) (u32 b).
Proof.
  unfold u32. rewrite <- !Z.land_ones by done. apply Z.bits_inj'. intros i Hi.
  rewrite !Z.land_spec, !Z.lxor_spec, !Z.land_spec. by destruct (Z.testbit a i), (Z.testbit b i), (Z.testbit (Z.ones 32) i).
Qed.

Lemma crc_index crc c : Z.land (Z.lxor crc c) 0xFF = Z.land (Z.lxor (u32 crc) c) 0xFF.
Proof.
  unfold u32. rewrite <- Z.land_ones by done. apply Z.bits_inj'. intros i Hi.
  rewrite !Z.land_spec, !Z.lxor_spec, Z.land_spec. change 0xFF with (Z.ones 8).
  rewrite !Z.testbit_ones_nonneg by lia.
  destruct (Z.ltb_spec i 8); [|by rewrite !andb_false_r].
  replace (i <? 32) with true by lia. by rewrite !andb_true_r.
Qed.

(** A right shift of a negative [int] brings ones in. *)
Lemma u32_shiftr crc :
  is_int32 crc → u32 (Z.shiftr crc 8) = Z.lxor (Z.shiftr (u32 crc) 8) (if crc <? 0 then 0xFF000000 else 0).
Proof.
  intros Hc. unfold is_int32 in Hc. rewrite !Z.shiftr_div_pow2 by done. unfold u32.
  destruct (Z.ltb_spec crc 0).
  - assert (crc mod 2 ^ 32 = crc + 2 ^ 32) as -> by dlia. rewrite Z.lxor_comm.
    rewrite <- Z.add_nocarry_lxor.
    + dlia.
    + apply Z.bits_inj'. intros i Hi. rewrite Z.land_spec, Z.bits_0.
      destruct (Z.lt_ge_cases i 24).
      * change 0xFF000000 with (Z.shiftl 255 24). rewrite Z.shiftl_spec_low by lia. done.
      * rewrite <- (Z.mod_small ((crc + 2 ^ 32) / 2 ^ 8) (2 ^ 24)) by dlia.
        by rewrite Z.mod_pow2_bits_high, andb_false_r by lia.
  - rewrite Z.lxor_0_r, (Z.mod_small crc) by lia. apply Z.mod_small. dlia.
Qed.

Lemma crc_step_reference crc c :
  is_int32 crc → is_byte c →
  u32 (crc_step crc c) = Z.lxor (ref_step (u32 crc) c) (if crc <? 0 then 0xFF000000 else 0).
Proof.
  intros Hcrc Hc. unfold crc_step. rewrite u32_s32, u32_lxor, u32_idemp, u32_shiftr by done.
  rewrite ref_step_table, <- crc_index, Z.lxor_assoc by done. f_equal.
  assert (0 ≤ Z.land (Z.lxor crc c) 0xFF < 256) as H.
  { change 0xFF with (Z.ones 8). rewrite Z.land_ones by done. apply Z.mod_pos_bound. lia. }
  revert H. generalize (Z.land (Z.lxor crc c) 0xFF). intros v H. all_below 256 v.
Qed.

(** * Properties *)

(** The four hash codes of a file do not depend on how the file is cut
    into buffers: computed piece by piece from the initial codes, and
    finished, they are the hashes of the whole. *)
Theorem hash_codes_pieces pieces :
  FINISH_HASH_CODES4 (fold_left (λ codes buff, CALC_HASH_CODES4 buff codes) pieces INIT_HASH_CODES4)
  = [CRC32 (concat pieces); ELFHash (concat pieces); simple_hash (concat pieces); Time33Hash (concat pieces)].
Proof. unfold INIT_HASH_CODES4. by rewrite calc_codes_concat. Qed.

(** C28 [CRC32] is not the CRC-32 its name, table, initial value and final
    xor promise: the shift of the signed [crc] extends the sign, so a step
    agrees with the reference when the register is not negative and
    differs from it by the ones shifted in when it is.  On the standard
    check string the two differ. *)
Theorem CRC32_sign_extension :
  (∀ crc c, is_int32 crc → is_byte c →
     u32 (crc_step crc c) = Z.lxor (ref_step (u32 crc) c) (if crc <? 0 then 0xFF000000 else 0)) ∧
  ref_crc32 (bytes "123456789") = 0xCBF43926 ∧ u32 (CRC32 (bytes "123456789")) = 0x206AF85B.
Proof. split; [exact crc_step_reference|]. by vm_compute. Qed.

Lemma CRC32_sign_extension_witness :
  is_int32 (-1) ∧ is_byte 49 ∧ u32 (crc_step (-1) 49) = Z.lxor (ref_step (u32 (-1)) 49) 0xFF000000.
Proof.
  split; [by split; vm_compute|]. split; [by split; vm_compute|].
  apply (proj1 CRC32_sign_extension (-1) 49); split; vm_compute; done.
Defined.

(** The comment on [ELFHash] says it is the same as [PJWHash]; it is not:
    where the high bit is set, [~x] keeps the bits that the sign brought in. *)
Lemma ELFHash_PJWHash_differ :
  let key := bytes "zzzzzzz" in
  0 ≤ PJWHash key < 2 ^ 28 ∧ 2 ^ 28 ≤ ELFHash key.
Proof. vm_compute. split; [done|done]. Qed.
