(* ===== verification/HashTable.v ===== *)
(** * common/hash.c: the hash table

    Buckets hold chains of entries; an entry owns its key and, when the
    table was made with [bMallocValue], a copy of its value, otherwise the
    caller's pointer.  The chain of a bucket is the list of its entries:
    only the table reaches them.  [capacity] points into the array of
    primes or to an allocated number.  The [n]-th [malloc] of a call of [b]
    bytes succeeds when [m n b].  [None] is undefined behaviour: a NULL
    pointer, a pointer behind the array of primes, a division by zero, a
    copy outside an object. *)

From S2P Require Import Prelude CFloat CLib.
#[local] Open Scope Z_scope.

(** ** Data *)

Definition prime_array : list Z :=
  [1; 3; 17; 37; 79; 163; 331; 673; 1361; 2729; 5471; 10949; 21911; 43853; 87719; 175447; 350899; 701819;
   1403641; 2807303; 5614657; 11229331; 22458671; 44917381; 89834777; 179669557; 359339171; 718678369;
   1437356741; 2147483647].

(** The caller's pointer, or the bytes behind the key. *)
Inductive hash_value :=
  | VPtr (p : Z)
  | VBuf (buff : list Z).

Record HashData := {
  hd_key : list Z;
  hd_value_len : Z;
  malloc_value_size : Z;
  hd_value : hash_value;
}.

Inductive capacity_ptr :=
  | CapNull
  | CapPrime (i : nat)
  | CapMalloc (c : Z).

Record HashArray := {
  buckets : option (list (list HashData));
  hash_func : list Z → Z;
  item_count : Z;
  capacity : capacity_ptr;
  load_factor : double;
  max_bytes : Z;
  bytes_used : Z;
  is_malloc_capacity : bool;
  is_malloc_value : bool;
}.

Definition sizeof_HashData : Z := 32.
Definition sizeof_pointer : Z := 8.
Definition u64 (z : Z) : Z := z mod 2 ^ 64.

Definition key_len (d : HashData) : Z := Z.of_nat (length (hd_key d)).

(** [*pHash->capacity] *)
Definition cap_value (p : capacity_ptr) : option Z :=
  match p with
  | CapNull => None
  | CapPrime i => prime_array !! i
  | CapMalloc c => Some c
  end.

Definition set_buckets (bs : option (list (list HashData))) (h : HashArray) : HashArray :=
  {| buckets := bs; hash_func := hash_func h; item_count := item_count h; capacity := capacity h;
     load_factor := load_factor h; max_bytes := max_bytes h; bytes_used := bytes_used h;
     is_malloc_capacity := is_malloc_capacity h; is_malloc_value := is_malloc_value h |}.
Definition set_item_count (n : Z) (h : HashArray) : HashArray :=
  {| buckets := buckets h; hash_func := hash_func h; item_count := n; capacity := capacity h;
     load_factor := load_factor h; max_bytes := max_bytes h; bytes_used := bytes_used h;
     is_malloc_capacity := is_malloc_capacity h; is_malloc_value := is_malloc_value h |}.
Definition set_capacity (p : capacity_ptr) (h : HashArray) : HashArray :=
  {| buckets := buckets h; hash_func := hash_func h; item_count := item_count h; capacity := p;
     load_factor := load_factor h; max_bytes := max_bytes h; bytes_used := bytes_used h;
     is_malloc_capacity := is_malloc_capacity h; is_malloc_value := is_malloc_value h |}.
Definition set_bytes_used (n : Z) (h : HashArray) : HashArray :=
  {| buckets := buckets h; hash_func := hash_func h; item_count := item_count h; capacity := capacity h;
     load_factor := load_factor h; max_bytes := max_bytes h; bytes_used := n;
     is_malloc_capacity := is_malloc_capacity h; is_malloc_value := is_malloc_value h |}.
Definition set_is_malloc_capacity (b : bool) (h : HashArray) : HashArray :=
  {| buckets := buckets h; hash_func := hash_func h; item_count := item_count h; capacity := capacity h;
     load_factor := load_factor h; max_bytes := max_bytes h; bytes_used := bytes_used h;
     is_malloc_capacity := b; is_malloc_value := is_malloc_value h |}.

Definition HASH_CODE (h : HashArray) (d : HashData) : Z := u32 (hash_func h (hd_key d)).

Definition CALC_NODE_MALLOC_BYTES (key_len value_size : Z) : Z := u64 (sizeof_HashData + key_len + value_size).

(** ** Making and freeing a table *)

(** The first prime above [n], from position [i] on. *)
Fixpoint prime_above (i : nat) (primes : list Z) (n : Z) : capacity_ptr :=
  match primes with
  | [] => CapNull
  | p :: primes => if n <? p then CapPrime i else prime_above (S i) primes n
  end.

Definition _hash_alloc_buckets (malloc : Z → bool) (h : HashArray) (old_capacity : Z)
    : option (Z * HashArray) :=
  c ← cap_value (capacity h);
  let bytes := sizeof_pointer * c in
  if (0 <? max_bytes h) && (u64 (max_bytes h) <? u64 (bytes_used h + bytes)) then Some (ENOSPC, h)
  else if negb (malloc bytes) then Some (ENOMEM, set_buckets None h)
  else
    Some (0, set_bytes_used (s64 (bytes_used h + (bytes - sizeof_pointer * old_capacity)))
               (set_buckets (Some (replicate (Z.to_nat c) [])) h)).

Definition hash_init_ex (m : Z → bool) (func : list Z → Z) (capacity : Z) (load : double) (max : Z)
    (bMallocValue : bool) : option (Z * HashArray) :=
  let h := {| buckets := None; hash_func := func; item_count := 0;
              capacity := prime_above 0 prime_array (u32 capacity); load_factor := double_of_Z 0;
              max_bytes := 0; bytes_used := 0; is_malloc_capacity := false; is_malloc_value := false |} in
  match prime_above 0 prime_array (u32 capacity) with
  | CapNull => Some (EINVAL, h)
  | _ =>
      '(result, h) ← _hash_alloc_buckets m h 0;
      if c_true result then Some (result, h)
      else
        Some (0,
          {| buckets := buckets h; hash_func := func; item_count := item_count h;
             HashTable.capacity := HashTable.capacity h;
             load_factor := if double_le (double_const 10 2) load && double_le load (double_const 100 2)
                            then load else double_const 50 2;
             max_bytes := max; bytes_used := bytes_used h;
             is_malloc_capacity := is_malloc_capacity h; is_malloc_value := bMallocValue |})
  end.

(** The buckets from [pHash->buckets] to [pHash->buckets + *pHash->capacity]. *)
Definition all_buckets (h : HashArray) : option (list (list HashData)) :=
  bs ← buckets h;
  c ← cap_value (capacity h);
  if Z.of_nat (length bs) <? c then None else Some (take (Z.to_nat c) bs).

(** The entries that were freed, and the table. *)
Definition hash_destroy (h : HashArray) : option (list HashData * HashArray) :=
  match buckets h with
  | None => Some ([], h)
  | Some _ =>
      bs ← all_buckets h;
      let h := set_buckets None h in
      let h := if is_malloc_capacity h then set_is_malloc_capacity false (set_capacity CapNull h) else h in
      Some (concat bs, set_bytes_used 0 (set_item_count 0 h))
  end.

(** ** Chains *)

Definition same_key (key : list Z) (d : HashData) : bool :=
  (Z.of_nat (length key) =? key_len d) && (memcmp key (hd_key d) =? 0).

(** The bucket of a key: [hash_code % *pHash->capacity]. *)
Definition hash_index (h : HashArray) (c : Z) (key : list Z) : option nat :=
  if c =? 0 then None else Some (Z.to_nat (u32 (hash_func h key) mod c)).

Fixpoint _chain_find_entry (chain : list HashData) (key : list Z) : option HashData :=
  match chain with
  | [] => None
  | d :: chain => if same_key key d then Some d else _chain_find_entry chain key
  end.

(** The chain with the first entry of [key] replaced by [ds]. *)
Fixpoint replace_entry (ds : list HashData) (chain : list HashData) (key : list Z) : list HashData :=
  match chain with
  | [] => []
  | d :: chain => if same_key key d then ds ++ chain else d :: replace_entry ds chain key
  end.

Definition hash_find_ex (h : HashArray) (key : list Z) : option (option HashData) :=
  bs ← buckets h;
  c ← cap_value (capacity h);
  i ← hash_index h c key;
  chain ← bs !! i;
  Some (_chain_find_entry chain key).

(** [hash_data->value] *)
Definition hash_find (h : HashArray) (key : list Z) : option (option hash_value) :=
  (λ d : option HashData, hd_value <$> d) <$> hash_find_ex h key.

(** ADD_TO_BUCKET: the new entry becomes the head of its chain. *)
Definition add_to_chain (h : HashArray) (c : Z) (bs : list (list HashData)) (d : HashData)
    : option (list (list HashData)) :=
  i ← hash_index h c (hd_key d);
  chain ← bs !! i;
  Some (<[i := d :: chain]> bs).

(** ** Rehashing *)

Fixpoint relink (h : HashArray) (c : Z) (bs : list (list HashData)) (l : list HashData)
    : option (list (list HashData)) :=
  match l with
  | [] => Some bs
  | d :: l => bs ← add_to_chain h c bs d; relink h c bs l
  end.

Definition _rehash1 (malloc : Z → bool) (h : HashArray) (old_capacity : Z) (new_capacity : capacity_ptr)
    : option (Z * HashArray) :=
  old_buckets ← buckets h;
  '(result, h) ← _hash_alloc_buckets malloc (set_capacity new_capacity h) (u32 old_capacity);
  if c_true result then Some (result, set_buckets (Some old_buckets) h)
  else
    let entries := concat (take (Z.to_nat old_capacity) old_buckets) in
    c ← cap_value (capacity h);
    bs ← buckets h;
    bs ← relink h c bs entries;
    Some (0, set_item_count (s32 (Z.of_nat (length entries))) (set_buckets (Some bs) h)).

Definition _rehash (malloc : Z → bool) (h : HashArray) : option (Z * HashArray) :=
  let pOldCapacity := capacity h in
  old ← cap_value pOldCapacity;
  new_capacity ← (if is_malloc_capacity h then Some (prime_above 0 prime_array old)
                  else match pOldCapacity with CapPrime i => Some (CapPrime (S i)) | _ => None end);
  '(result, h) ← _rehash1 malloc h (s32 old) new_capacity;
  if c_true result then Some (result, set_capacity pOldCapacity h)
  else Some (0, set_is_malloc_capacity false h).

(** ** Inserting and deleting *)

(** DELETE_FROM_BUCKET *)
Definition delete_from_bucket (h : HashArray) (bs : list (list HashData)) (i : nat) (chain : list HashData)
    (d : HashData) : HashArray :=
  set_bytes_used (s64 (bytes_used h - CALC_NODE_MALLOC_BYTES (key_len d) (malloc_value_size d)))
    (set_item_count (s32 (item_count h - 1))
       (set_buckets (Some (<[i := replace_entry [] chain (hd_key d)]> bs)) h)).

Definition over_load (h : HashArray) (c : Z) : bool :=
  double_le (load_factor h) (double_div (double_of_Z (item_count h)) (double_of_Z c)).

(** The second half of [hash_insert_ex]: a new entry. *)
Definition insert_entry (m : nat → Z → bool) (h : HashArray) (key : list Z) (value : Z) (content : list Z)
    (value_len : Z) : option (Z * HashArray) :=
  let size := if is_malloc_value h then value_len else 0 in
  let bytes := s32 (CALC_NODE_MALLOC_BYTES (Z.of_nat (length key)) size) in
  if (0 <? max_bytes h) && (max_bytes h <? s64 (bytes_used h + bytes)) then Some (- ENOSPC, h)
  else if negb (m 0%nat (u64 bytes)) then Some (- ENOMEM, h)
  else if bytes <? sizeof_HashData + Z.of_nat (length key) + size then None
  else
    v ← (if is_malloc_value h then data ← read_at content 0 value_len; Some (VBuf data) else Some (VPtr value));
    let d := {| hd_key := key; hd_value_len := value_len; malloc_value_size := size; hd_value := v |} in
    bs ← buckets h;
    c ← cap_value (capacity h);
    bs ← add_to_chain h c bs d;
    let h := set_item_count (s32 (item_count h + 1))
               (set_buckets (Some bs) (set_bytes_used (s64 (bytes_used h + bytes)) h)) in
    if over_load h c then '(_, h) ← _rehash (m 1%nat) h; Some (1, h) else Some (1, h).

Definition with_value (len : Z) (v : hash_value) (d : HashData) : HashData :=
  {| hd_key := hd_key d; hd_value_len := len; malloc_value_size := malloc_value_size d; hd_value := v |}.

(** [memcpy(hash_data->value, value, value_len)] *)
Definition overwrite (d : HashData) (data : list Z) : option hash_value :=
  match hd_value d with
  | VBuf buff => if Z.of_nat (length buff) <? Z.of_nat (length data) then None
                 else Some (VBuf (data ++ drop (length data) buff))
  | VPtr _ => None
  end.

(** [value] is the pointer and [content] what it points at. *)
Definition hash_insert_ex (m : nat → Z → bool) (h : HashArray) (key : list Z) (value : Z) (content : list Z)
    (value_len : Z) : option (Z * HashArray) :=
  bs ← buckets h;
  c ← cap_value (capacity h);
  i ← hash_index h c key;
  chain ← bs !! i;
  match _chain_find_entry chain key with
  | None => insert_entry m h key value content value_len
  | Some d =>
      let store d' := set_buckets (Some (<[i := replace_entry [d'] chain key]> bs)) h in
      if negb (is_malloc_value h) then Some (0, store (with_value value_len (VPtr value) d))
      else if (value_len <=? malloc_value_size d) && (Z.quot (malloc_value_size d) 2 <? value_len) then
        data ← read_at content 0 value_len;
        v ← overwrite d data;
        Some (0, store (with_value value_len v d))
      else insert_entry m (delete_from_bucket h bs i chain d) key value content value_len
  end.

Definition hash_delete (h : HashArray) (key : list Z) : option (Z * HashArray) :=
  bs ← buckets h;
  c ← cap_value (capacity h);
  i ← hash_index h c key;
  chain ← bs !! i;
  match _chain_find_entry chain key with
  | Some d => Some (0, delete_from_bucket h bs i chain d)
  | None => Some (ENOENT, h)
  end.

Definition hash_count (h : HashArray) : Z := item_count h.

(** ** Walking *)

Section walk.
Context {W : Type} (walkFunc : Z → HashData → W → Z * W).

Fixpoint walk_chain (chain : list HashData) (index : Z) (args : W) : Z * Z * W :=
  match chain with
  | [] => (0, index, args)
  | d :: chain =>
      let '(result, args) := walkFunc index d args in
      if c_true result then (result, index, args) else walk_chain chain (s32 (index + 1)) args
  end.

Fixpoint walk_buckets (bs : list (list HashData)) (index : Z) (args : W) : Z * W :=
  match bs with
  | [] => (0, args)
  | chain :: bs =>
      let '(result, index, args) := walk_chain chain index args in
      if c_true result then (result, args) else walk_buckets bs index args
  end.

Definition hash_walk (h : HashArray) (args : W) : option (Z * W) :=
  bs ← all_buckets h;
  Some (walk_buckets bs 0 args).
End walk.

(** ** Conflicts *)

(** Whether two entries of a chain have different hash codes. *)
Fixpoint conflicted (h : HashArray) (chain : list HashData) : bool :=
  match chain with
  | [] => false
  | d :: chain => existsb (λ d', negb (HASH_CODE h d =? HASH_CODE h d')) chain || conflicted h chain
  end.

Fixpoint conflict_count (h : HashArray) (bs : list (list HashData)) : Z :=
  match bs with
  | [] => 0
  | chain :: bs => (if conflicted h chain then 1 else 0) + conflict_count h bs
  end.

Definition _hash_conflict_count (h : HashArray) : option Z :=
  bs ← all_buckets h;
  Some (s32 (conflict_count h bs)).

(** The next odd number that is no multiple of 3, 5 or 7. *)
Fixpoint next_candidate (fuel : nat) (c : Z) : option Z :=
  let c := u32 (c + 2) in
  if (c mod 3 =? 0) || (c mod 5 =? 0) || (c mod 7 =? 0)
  then match fuel with O => None | S fuel => next_candidate fuel c end
  else Some c.

(** At most nine odd numbers in a row are multiples of 3, 5 or 7. *)
Definition CANDIDATES : nat := 10.

Fixpoint best_loop (fuel : nat) (m : nat → Z → bool) (h : HashArray) (old_capacity new_capacity : Z)
    : option (Z * HashArray) :=
  match fuel with
  | O => None
  | S fuel =>
      c ← next_candidate CANDIDATES new_capacity;
      '(result, h) ← _rehash1 (m fuel) h old_capacity (CapMalloc c);
      if c_true result
      then Some (- result, set_capacity (CapMalloc (u32 old_capacity)) (set_is_malloc_capacity true h))
      else
        n ← _hash_conflict_count h;
        if 0 <? n then best_loop fuel m h (s32 c) c
        else Some (1, set_is_malloc_capacity true h)
  end.

(** The number the search starts from. *)
Definition first_capacity (h : HashArray) (suggest_capacity : Z) : Z :=
  if (2 <? suggest_capacity) && (item_count h <=? suggest_capacity) then
    let c := u32 (suggest_capacity - 2) in
    if c mod 2 =? 0 then u32 (c + 1) else c
  else u32 (s32 (s32 (2 * s32 (item_count h - 1)) + 1)).

(** The [malloc] of the loop that has [k] rounds left is the [k]-th. *)
Definition hash_best_op (fuel : nat) (m : nat → Z → bool) (h : HashArray) (suggest_capacity : Z)
    : option (Z * HashArray) :=
  n ← _hash_conflict_count h;
  if n =? 0 then Some (0, h)
  else
    old ← cap_value (capacity h);
    if negb (m fuel 4) then Some (- ENOMEM, h)
    else best_loop fuel m h (s32 old) (first_capacity h suggest_capacity).

(** ** Statistics *)

Record HashStat := {
  stat_capacity : Z;
  stat_item_count : Z;
  bucket_used : Z;
  bucket_avg_length : double;
  bucket_max_length : Z;
}.

(** The loop over the buckets: the result, [bucket_used],
    [bucket_max_length] and [stat_by_lens]. *)
Fixpoint stat_buckets (bs : list (list HashData)) (used longest : Z) (stat_by_lens : list Z)
    : Z * Z * Z * list Z :=
  match bs with
  | [] => (0, used, longest, stat_by_lens)
  | [] :: bs => stat_buckets bs used longest stat_by_lens
  | chain :: bs =>
      let count := Z.of_nat (length chain) in
      let used := used + 1 in
      if Z.of_nat (length stat_by_lens) - 1 <? count then (ENOSPC, used, longest, stat_by_lens)
      else
        stat_buckets bs used (Z.max longest count) (alter Z.succ (Z.to_nat count) stat_by_lens)
  end.

(** The sum of [i * stat_by_lens[i]] for [i] up to [longest]. *)
Definition total_length (longest : Z) (stat_by_lens : list Z) : Z :=
  foldr (λ p n, p.1 * p.2 + n) 0 (zip (seqZ 0 (longest + 1)) stat_by_lens).

Definition hash_stat (h : HashArray) (stat_size : nat) : option (Z * option HashStat * list Z) :=
  bs ← all_buckets h;
  c ← cap_value (capacity h);
  let '(result, used, longest, stats) := stat_buckets bs 0 0 (replicate stat_size 0) in
  if c_true result then Some (result, None, stats)
  else
    Some (0, Some {| stat_capacity := c; stat_item_count := item_count h; bucket_used := used;
                     bucket_avg_length := if 0 <? used
                                          then double_div (double_of_Z (total_length longest stats)) (double_of_Z used)
                                          else double_of_Z 0;
                     bucket_max_length := longest |}, stats).

(** * Lemmas *)

(** ** Keys and chains *)

Lemma memcmp_refl l : memcmp l l = 0.
Proof. induction l as [|x l IH]; [done|]. cbn. by rewrite Z.ltb_irrefl. Qed.

Lemma same_key_spec key d : same_key key d = true ↔ hd_key d = key.
Proof.
  unfold same_key, key_len. rewrite andb_true_iff, !Z.eqb_eq. split.
  - intros [Hl Hm]. symmetry. apply memcmp_eq; [lia|done].
  - intros <-. by rewrite memcmp_refl.
Qed.

Lemma find_entry_spec chain key :
  match _chain_find_entry chain key with
  | Some d => hd_key d = key ∧ ∃ l1 l2, chain = l1 ++ d :: l2 ∧ ∀ ds, replace_entry ds chain key = l1 ++ ds ++ l2
  | None => ∀ d, d ∈ chain → hd_key d ≠ key
  end.
Proof.
  induction chain as [|d chain IH]; cbn; [by intros d ?%not_elem_of_nil|].
  destruct (same_key key d) eqn:E.
  - apply same_key_spec in E. split; [done|]. by exists [], chain.
  - assert (hd_key d ≠ key) by (by rewrite <- same_key_spec, E).
    destruct (_chain_find_entry chain key) as [d'|].
    + destruct IH as (Hk & l1 & l2 & -> & Hr). split; [done|]. exists (d :: l1), l2. split; [done|].
      intros ds. by rewrite Hr.
    + intros d' [->|Hd]%elem_of_cons; [done|by apply IH].
Qed.

Lemma concat_insert {A} (bs : list (list A)) i chain chain' :
  bs !! i = Some chain → ∃ l1 l2, concat bs = l1 ++ chain ++ l2 ∧ concat (<[i := chain']> bs) = l1 ++ chain' ++ l2.
Proof.
  intros Hi. exists (concat (take i bs)), (concat (drop (S i) bs)). split.
  - rewrite <- (take_drop_middle bs i chain Hi) at 1. by rewrite concat_app.
  - rewrite insert_take_drop by (by eapply lookup_lt_Some). by rewrite concat_app.
Qed.

(** ** Buckets *)

(** Every entry is in the bucket of its hash code. *)
Definition placed (f : list Z → Z) (c : Z) (bs : list (list HashData)) : Prop :=
  length bs = Z.to_nat c ∧
  ∀ i chain d, bs !! i = Some chain → d ∈ chain → u32 (f (hd_key d)) mod c = Z.of_nat i.

Lemma placed_insert f c bs i chain :
  placed f c bs → (∀ d, d ∈ chain → u32 (f (hd_key d)) mod c = Z.of_nat i) → placed f c (<[i := chain]> bs).
Proof.
  intros [Hl Hp] Hc. split; [by rewrite length_insert|]. intros j ch d.
  destruct (decide (i = j)) as [<-|Hne].
  - destruct (decide (i < length bs)%nat).
    + rewrite list_lookup_insert_eq by done. intros [= <-]. apply Hc.
    + rewrite list_insert_ge by lia. apply Hp.
  - rewrite list_lookup_insert_ne by done. apply Hp.
Qed.

Lemma concat_empties {A} n : concat (replicate n ([] : list A)) = [].
Proof. by induction n. Qed.

Lemma placed_empty f c : placed f c (replicate (Z.to_nat c) []).
Proof.
  split; [apply length_replicate|]. intros i chain d [-> _]%lookup_replicate. by intros ?%not_elem_of_nil.
Qed.

(** The bucket of a key exists and has every entry of the key. *)
Lemma bucket_of h c bs key :
  0 < c → placed (hash_func h) c bs →
  ∃ i chain, hash_index h c key = Some i ∧ bs !! i = Some chain ∧
    u32 (hash_func h key) mod c = Z.of_nat i ∧ ∀ d, d ∈ concat bs → hd_key d = key → d ∈ chain.
Proof.
  intros Hc [Hl Hp]. unfold hash_index. rewrite (proj2 (Z.eqb_neq c 0)) by lia.
  pose proof (Z.mod_pos_bound (u32 (hash_func h key)) c Hc) as Hr.
  destruct (lookup_lt_is_Some_2 bs (Z.to_nat (u32 (hash_func h key) mod c))) as [chain Hi]; [lia|].
  exists (Z.to_nat (u32 (hash_func h key) mod c)), chain. split; [done|]. split; [done|]. split; [lia|].
  intros d Hd Hk. apply list_elem_of_In, in_concat in Hd as (ch & Hch & Hd).
  apply list_elem_of_In in Hch, Hd. apply list_elem_of_lookup in Hch as [j Hj].
  pose proof (Hp j ch d Hj Hd) as E. rewrite Hk in E.
  replace (Z.to_nat (u32 (hash_func h key) mod c)) with j in Hi by lia. congruence.
Qed.

Lemma add_to_chain_ok h c bs d :
  0 < c → placed (hash_func h) c bs →
  ∃ bs', add_to_chain h c bs d = Some bs' ∧ placed (hash_func h) c bs' ∧ concat bs' ≡ₚ d :: concat bs.
Proof.
  intros Hc Hp. destruct (bucket_of h c bs (hd_key d) Hc Hp) as (i & chain & Ei & Hi & Hm & _).
  exists (<[i := d :: chain]> bs). unfold add_to_chain. rewrite Ei. cbn [mbind option_bind]. rewrite Hi.
  split; [done|]. split.
  - apply placed_insert; [done|]. intros d' [->|Hd]%elem_of_cons; [done|]. by eapply (proj2 Hp).
  - destruct (concat_insert bs i chain (d :: chain) Hi) as (l1 & l2 & -> & ->). cbn.
    by rewrite <- Permutation_middle.
Qed.

Lemma relink_ok h c l bs :
  0 < c → placed (hash_func h) c bs →
  ∃ bs', relink h c bs l = Some bs' ∧ placed (hash_func h) c bs' ∧ concat bs' ≡ₚ l ++ concat bs.
Proof.
  intros Hc. revert bs. induction l as [|d l IH]; intros bs Hp; [by exists bs|].
  destruct (add_to_chain_ok h c bs d Hc Hp) as (bs1 & E1 & Hp1 & H1).
  destruct (IH bs1 Hp1) as (bs2 & E2 & Hp2 & H2). exists bs2. cbn [relink]. rewrite E1. cbn [mbind option_bind].
  split; [done|]. split; [done|]. rewrite H2, H1. cbn. by rewrite Permutation_middle.
Qed.

(** ** The entries of a table *)

Definition node_bytes (d : HashData) : Z := sizeof_HashData + key_len d + malloc_value_size d.
Definition total (l : list HashData) : Z := foldr (λ d n, node_bytes d + n) 0 l.

#[local] Instance total_perm : Proper ((≡ₚ) ==> (=)) total.
Proof. unfold total. induction 1; cbn; lia. Qed.

(** The value of an entry lies behind the key, or is the caller's. *)
Definition value_ok (is_malloc : bool) (d : HashData) : Prop :=
  if is_malloc
  then ∃ buff, hd_value d = VBuf buff ∧ Z.of_nat (length buff) = malloc_value_size d ∧
         0 ≤ hd_value_len d ≤ malloc_value_size d ∧ node_bytes d ≤ INT_MAX
  else malloc_value_size d = 0 ∧ ∃ p, hd_value d = VPtr p.

(** The table holds the entries [l], in any order. *)
Record entries (h : HashArray) (l : list HashData) : Prop := {
  en_table : ∃ bs c, buckets h = Some bs ∧ cap_value (capacity h) = Some c ∧ 1 ≤ c ≤ INT_MAX ∧
    placed (hash_func h) c bs ∧ concat bs ≡ₚ l ∧ bytes_used h = s64 (sizeof_pointer * c + total l);
  en_keys : NoDup (hd_key <$> l);
  en_count : item_count h = s32 (Z.of_nat (length l));
  en_values : Forall (value_ok (is_malloc_value h)) l;
}.

Definition cap_ok (h : HashArray) : Prop :=
  match capacity h with
  | CapNull => False
  | CapPrime _ => is_malloc_capacity h = false
  | CapMalloc _ => is_malloc_capacity h = true
  end.

(** The memory counted is at most [B]. *)
Definition limited (B : Z) (h : HashArray) (l : list HashData) : Prop :=
  ∃ c, cap_value (capacity h) = Some c ∧ sizeof_pointer * c + total l ≤ B.

(** The largest bucket array, of 16 GB: there is no capacity to grow to. *)
Definition largest (h : HashArray) : Prop := cap_value (capacity h) = Some INT_MAX.

(** The machine has less than 16 GB for one array of buckets. *)
Definition mem_ok (malloc : Z → bool) : Prop := ∀ b, malloc b = true → b < sizeof_pointer * INT_MAX.

(** What an operation does not change. *)
Record same_table (h h' : HashArray) : Prop := {
  st_func : hash_func h' = hash_func h;
  st_max : max_bytes h' = max_bytes h;
  st_malloc : is_malloc_value h' = is_malloc_value h;
}.

Lemma same_table_refl h : same_table h h.
Proof. done. Qed.
Lemma same_table_trans h1 h2 h3 : same_table h1 h2 → same_table h2 h3 → same_table h1 h3.
Proof. intros [E1 E2 E3] [F1 F2 F3]. split; congruence. Qed.

Lemma entries_perm h l l' : entries h l → l ≡ₚ l' → entries h l'.
Proof.
  intros [(bs & c & Hb & Hc & Hr & Hp & Hl & Hu) Hk Hn Hv] E. split.
  - exists bs, c. do 4 (split; [done|]). split; [by rewrite Hl|]. by rewrite Hu, E.
  - by rewrite <- E.
  - by rewrite <- E.
  - by rewrite <- E.
Qed.

Lemma node_bytes_pos d b : value_ok b d → sizeof_HashData ≤ node_bytes d.
Proof.
  unfold value_ok, node_bytes, key_len. destruct b; [intros (buff & _ & H & _)|intros [-> _]]; unfold sizeof_HashData; lia.
Qed.

Lemma total_nonneg b l : Forall (value_ok b) l → 0 ≤ total l.
Proof.
  induction 1 as [|d l Hd _ IH]; [done|]. change (total (d :: l)) with (node_bytes d + total l).
  pose proof (node_bytes_pos d b Hd). unfold sizeof_HashData in *. lia.
Qed.

(** ** Allocating buckets and rehashing *)

Lemma alloc_buckets_ok malloc h c old l :
  (malloc (sizeof_pointer * c) = true → c ≤ INT_MAX) → cap_value (capacity h) = Some c → 0 < c →
  bytes_used h = s64 (sizeof_pointer * old + total l) →
  ∃ r h', _hash_alloc_buckets malloc h old = Some (r, h') ∧
    ((r = 0 ∧ c ≤ INT_MAX ∧
      h' = set_bytes_used (s64 (sizeof_pointer * c + total l))
             (set_buckets (Some (replicate (Z.to_nat c) [])) h) ∧
      (0 < max_bytes h → u64 (bytes_used h + sizeof_pointer * c) ≤ u64 (max_bytes h))) ∨
     ((r = ENOSPC ∨ r = ENOMEM) ∧ ∀ bs, set_buckets bs h' = set_buckets bs h)).
Proof.
  intros Hm Hc Hpos Hu. unfold _hash_alloc_buckets. rewrite Hc. cbn [mbind option_bind].
  destruct (Z.ltb_spec 0 (max_bytes h)); cbn [andb].
  1: destruct (Z.ltb_spec (u64 (max_bytes h)) (u64 (bytes_used h + sizeof_pointer * c))).
  1: { eexists _, _. split; [done|]. right. split; [by left|done]. }
  all: destruct (malloc (sizeof_pointer * c)) eqn:E; cbn [negb];
    (eexists _, _; split; [done|]); [left|right; split; [by right|by destruct h]].
  all: split; [done|]; split; [by apply Hm|];
    split; [|first [done|lia]]; rewrite Hu, s64_add_idemp; do 2 f_equal; lia.
Qed.

Lemma rehash1_ok malloc h l new c :
  (malloc (sizeof_pointer * c) = true → c ≤ INT_MAX) → entries h l → cap_value new = Some c → 0 < c →
  ∃ old r h', cap_value (capacity h) = Some old ∧ _rehash1 malloc h (s32 old) new = Some (r, h') ∧ same_table h h' ∧
    is_malloc_capacity h' = is_malloc_capacity h ∧ capacity h' = new ∧
    ((r = 0 ∧ c ≤ INT_MAX ∧ entries h' l ∧
      (0 < max_bytes h → u64 (bytes_used h + sizeof_pointer * c) ≤ u64 (max_bytes h))) ∨
     ((r = ENOSPC ∨ r = ENOMEM) ∧ h' = set_capacity new h)).
Proof.
  intros Hm [(bs & old & Hb & Ho & Hr & Hp & Hl & Hu) Hk Hn Hv] Hc Hpos. exists old.
  unfold _rehash1. rewrite Hb. cbn [mbind option_bind].
  assert (u32 (s32 old) = old) as ->.
  { rewrite u32_s32. unfold u32. apply Z.mod_small. unfold INT_MAX in *. lia. }
  destruct (alloc_buckets_ok malloc (set_capacity new h) c old l Hm Hc Hpos Hu)
    as (r & h1 & E & [(-> & Hlt & -> & Hmax)|[Hr' Hh1]]); rewrite E; cbn [mbind option_bind].
  - cbn [c_true Z.eqb negb]. cbn [capacity set_bytes_used set_buckets set_capacity buckets]. rewrite Hc. cbn [mbind option_bind].
    assert (Z.to_nat (s32 old) = length bs) as ->.
    { rewrite s32_id by (unfold is_int32, INT_MAX in *; lia). symmetry. apply Hp. }
    rewrite firstn_all.
    destruct (relink_ok (set_bytes_used (s64 (sizeof_pointer * c + total l))
      (set_buckets (Some (replicate (Z.to_nat c) [])) (set_capacity new h))) c (concat bs) (replicate (Z.to_nat c) []) Hpos)
      as (bs' & Er & Hp' & Hc'); [apply placed_empty|].
    rewrite Er. cbn [mbind option_bind]. eexists _, _. split; [done|]. split; [done|]. split; [done|]. split; [done|].
    split; [done|]. left. split; [done|]. split; [done|]. split; [|done]. split.
    + exists bs', c. split; [done|]. split; [done|]. split; [lia|]. split; [done|]. split; [|done].
      by rewrite Hc', Hl, concat_empties, app_nil_r.
    + done.
    + cbn. by rewrite Hl.
    + done.
  - assert (c_true r = true) as -> by (destruct Hr' as [-> | ->]; done).
    eexists _, _. split; [done|]. split; [done|]. rewrite Hh1. split; [done|]. split; [done|].
    split; [done|]. right. split; [done|]. destruct h; cbn in *. by subst.
Qed.

(** The limit of the memory, where there is one. *)
Definition within (B : Z) (h : HashArray) (l : list HashData) : Prop :=
  0 < max_bytes h → max_bytes h ≤ B ≤ 2 ^ 62 → limited B h l.

Lemma limited_bytes B h l :
  entries h l → limited B h l → B ≤ 2 ^ 62 →
  ∃ c, cap_value (capacity h) = Some c ∧ bytes_used h = sizeof_pointer * c + total l ∧ 0 ≤ bytes_used h ≤ B ∧ 0 ≤ total l.
Proof.
  intros [(bs & c & _ & Hc & Hr & _ & _ & Hu) _ _ Hv] (c' & Hc' & Hl) HB.
  rewrite Hc in Hc'. injection Hc' as <-. exists c.
  pose proof (total_nonneg _ l Hv). unfold sizeof_pointer in *.
  rewrite s64_id in Hu by (unfold is_int64; lia). split; [done|]. lia.
Qed.

Lemma rehash1_within malloc h l new c old r h' :
  (malloc (sizeof_pointer * c) = true → c ≤ INT_MAX) → entries h l → cap_value new = Some c → 0 < c →
  cap_value (capacity h) = Some old →
  _rehash1 malloc h (s32 old) new = Some (r, h') → r = 0 → ∀ B, within B h l → within B h' l.
Proof.
  intros Hm He Hc Hpos Ho E -> B Hw Hmax HB.
  destruct (rehash1_ok malloc h l new c Hm He Hc Hpos) as (old' & r & h1 & Ho' & E1 & [_ Hmx _] & _ & Hcap & Hcase).
  rewrite Ho in Ho'. injection Ho' as <-. rewrite E in E1. injection E1 as <- <-.
  destruct Hcase as [(_ & Hlt & He' & Hub)|[[?|?] _]]; [|done..].
  rewrite Hmx in *. destruct (limited_bytes B h l He (Hw Hmax HB) ltac:(lia)) as (o & _ & _ & Hu & Ht).
  exists c. rewrite Hcap. split; [done|]. specialize (Hub Hmax).
  destruct (limited_bytes B h l He (Hw Hmax HB) ltac:(lia)) as (o' & Ho2 & Hu2 & _).
  rewrite Ho in Ho2. injection Ho2 as <-.
  unfold u64 in Hub. unfold sizeof_pointer, INT_MAX in *.
  destruct He as [(bs & c0 & _ & Hc0 & Hr0 & _) _ _ _]. rewrite Ho in Hc0. injection Hc0 as <-. unfold INT_MAX in *.
  rewrite !Z.mod_small in Hub by lia. lia.
Qed.

Lemma prime_above_spec primes n i :
  Exists (λ p, n < p) primes → ∃ j p, prime_above i primes n = CapPrime (i + j) ∧ primes !! j = Some p ∧ n < p.
Proof.
  revert i. induction primes as [|p primes IH]; intros i H; [by inversion H|]. cbn [prime_above].
  destruct (Z.ltb_spec n p) as [Hp|Hp].
  - exists 0%nat, p. rewrite Nat.add_0_r. done.
  - apply Exists_cons in H as [H|H]; [lia|]. destruct (IH (S i) H) as (j & q & -> & Hj & Hq).
    exists (S j), q. split; [f_equal; lia|done].
Qed.

Lemma prime_bounds i c : prime_array !! i = Some c → 0 < c ≤ INT_MAX.
Proof.
  intros Hi. refine (Forall_lookup_1 (λ c, 0 < c ≤ INT_MAX) prime_array i c _ Hi). unfold INT_MAX.
  repeat (constructor; [lia|]). constructor.
Qed.

(** What [_rehash] makes of [capacity]. *)
Lemma next_prime h old :
  cap_ok h → cap_value (capacity h) = Some old → old < INT_MAX →
  ∃ i c, (if is_malloc_capacity h then Some (prime_above 0 prime_array old)
          else match capacity h with CapPrime i => Some (CapPrime (S i)) | _ => None end) = Some (CapPrime i) ∧
    prime_array !! i = Some c ∧ 0 < c ≤ INT_MAX.
Proof.
  intros Hok Hold Hlt. pose proof prime_bounds as Hpos.
  unfold cap_ok in Hok. destruct (capacity h) as [|i|c] eqn:E; [done| |].
  - rewrite Hok. cbn in Hold. destruct (decide (i = 29)%nat) as [->|Hne]; [cbn in Hold; injection Hold as <-; done|].
    pose proof (lookup_lt_Some _ _ _ Hold) as Hi. change (length prime_array) with 30%nat in Hi.
    destruct (lookup_lt_is_Some_2 prime_array (S i)) as [c Hc]; [change (length prime_array) with 30%nat; lia|].
    exists (S i), c. split; [done|]. split; [done|by eapply Hpos].
  - rewrite Hok. destruct (prime_above_spec prime_array old 0) as (j & p & -> & Hj & Hp).
    { apply Exists_exists. exists INT_MAX. split; [|done]. apply list_elem_of_lookup. by exists 29%nat. }
    exists j, p. split; [done|]. split; [done|by eapply Hpos].
Qed.

Lemma rehash_ok malloc h l :
  ¬ largest h → entries h l → cap_ok h →
  ∃ r h', _rehash malloc h = Some (r, h') ∧ same_table h h' ∧ entries h' l ∧ cap_ok h' ∧ ∀ B, within B h l → within B h' l.
Proof.
  intros Hm He Hok. pose proof He as [(bs & old & _ & Ho & Hr & _) _ _ _].
  assert (old ≠ INT_MAX) as Hne by (intros ->; by apply Hm).
  destruct (next_prime h old Hok Ho ltac:(lia)) as (i & c & En & Hc & Hpos & Hmax).
  assert (malloc (sizeof_pointer * c) = true → c ≤ INT_MAX) as Hfit by done.
  destruct (rehash1_ok malloc h l (CapPrime i) c Hfit He Hc Hpos) as (old' & r & h1 & Ho' & E1 & Hst & Hfl & Hcap & Hcase).
  rewrite Ho in Ho'. injection Ho' as <-.
  unfold _rehash. rewrite Ho. cbn [mbind option_bind]. rewrite En. cbn [mbind option_bind]. rewrite E1. cbn [mbind option_bind].
  destruct Hcase as [(-> & Hlt & He1 & _)|[Hr1 ->]].
  - eexists _, _. split; [done|]. split; [destruct Hst; by split|]. split; [destruct He1; by split|].
    split; [unfold cap_ok; cbn; by rewrite Hcap|].
    intros B Hw. exact (rehash1_within malloc h l (CapPrime i) c old 0 h1 Hfit He Hc Hpos Ho E1 eq_refl B Hw).
  - assert (c_true r = true) as -> by (destruct Hr1 as [-> | ->]; done).
    eexists _, _. split; [done|]. assert (set_capacity (capacity h) (set_capacity (CapPrime i) h) = h) as -> by (by destruct h).
    done.
Qed.

(** ** Entries as a finite map *)

(** What the caller sees of an entry: the pointer with the length it gave,
    or the bytes. *)
Definition view (d : HashData) : (Z * Z) + list Z :=
  match hd_value d with
  | VPtr p => inl (p, hd_value_len d)
  | VBuf buff => inr (take (Z.to_nat (hd_value_len d)) buff)
  end.

Definition map_of (l : list HashData) : gmap (list Z) ((Z * Z) + list Z) :=
  list_to_map ((λ d, (hd_key d, view d)) <$> l).

Lemma map_of_keys (l : list HashData) : ((λ d, (hd_key d, view d)) <$> l).*1 = hd_key <$> l.
Proof. rewrite <- list_fmap_compose. done. Qed.

Lemma map_of_perm l l' : NoDup (hd_key <$> l) → l ≡ₚ l' → map_of l = map_of l'.
Proof. intros Hk E. apply list_to_map_proper; [by rewrite map_of_keys|by rewrite E]. Qed.

Lemma map_of_lookup l k :
  NoDup (hd_key <$> l) → ∀ d, d ∈ l → hd_key d = k → map_of l !! k = Some (view d).
Proof.
  intros Hk d Hd <-. apply elem_of_list_to_map; [by rewrite map_of_keys|].
  apply list_elem_of_fmap. by exists d.
Qed.

Lemma map_of_absent l k : (∀ d, d ∈ l → hd_key d ≠ k) → map_of l !! k = None.
Proof.
  intros H. apply not_elem_of_list_to_map. rewrite map_of_keys. intros (d & -> & Hd)%list_elem_of_fmap. by apply (H d).
Qed.

Lemma map_of_cons d l : map_of (d :: l) = <[hd_key d := view d]> (map_of l).
Proof. done. Qed.

Lemma keys_cons d l :
  NoDup (hd_key <$> d :: l) ↔ (∀ d', d' ∈ l → hd_key d' ≠ hd_key d) ∧ NoDup (hd_key <$> l).
Proof.
  rewrite fmap_cons, NoDup_cons, list_elem_of_fmap. split; intros [H1 H2]; (split; [|done]).
  - intros d' Hd' E. apply H1. by exists d'.
  - intros (d' & E & Hd'). by apply (H1 d').
Qed.

Lemma map_of_delete d l : NoDup (hd_key <$> d :: l) → map_of l = delete (hd_key d) (map_of (d :: l)).
Proof.
  intros Hk. rewrite map_of_cons, delete_insert_eq, delete_id; [done|].
  apply map_of_absent. by destruct (proj1 (keys_cons _ _) Hk).
Qed.

Lemma map_of_size l : NoDup (hd_key <$> l) → size (map_of l) = length l.
Proof.
  induction l as [|d l IH]; [done|]. intros Hk. rewrite map_of_cons, map_size_insert_None, IH; [done| |].
  - by destruct (proj1 (keys_cons _ _) Hk).
  - apply map_of_absent. by destruct (proj1 (keys_cons _ _) Hk).
Qed.

(** ** Finding, replacing and deleting an entry *)

(** The bucket of [key] and what [_chain_find_entry] finds in it. *)
Lemma locate h l key :
  entries h l →
  ∃ bs c i chain, buckets h = Some bs ∧ cap_value (capacity h) = Some c ∧ hash_index h c key = Some i ∧
    bs !! i = Some chain ∧
    match _chain_find_entry chain key with
    | Some d => hd_key d = key ∧ ∃ l', l ≡ₚ d :: l' ∧
        (∀ ds, concat (<[i := replace_entry ds chain key]> bs) ≡ₚ ds ++ l') ∧
        (∀ ds, Forall (λ d', hd_key d' = key) ds → placed (hash_func h) c (<[i := replace_entry ds chain key]> bs))
    | None => ∀ d, d ∈ l → hd_key d ≠ key
    end.
Proof.
  intros [(bs & c & Hb & Hc & Hr & Hp & Hl & _) _ _ _].
  destruct (bucket_of h c bs key ltac:(lia) Hp) as (i & chain & Ei & Hi & Hm & Hin).
  exists bs, c, i, chain. do 4 (split; [done|]).
  pose proof (find_entry_spec chain key) as Hf. destruct (_chain_find_entry chain key) as [d|].
  - destruct Hf as (Hk & l1 & l2 & Hch & Hrep). split; [done|].
    destruct (concat_insert bs i chain chain Hi) as (k1 & k2 & E & _).
    exists (k1 ++ (l1 ++ l2) ++ k2). split; [|split].
    + rewrite <- Hl, E, Hch. solve_Permutation.
    + intros ds. rewrite Hrep. destruct (concat_insert bs i chain (l1 ++ ds ++ l2) Hi) as (j1 & j2 & E1 & ->).
      assert (k1 ++ k2 ≡ₚ j1 ++ j2) as Ek.
      { apply (Permutation_app_inv_l chain). rewrite !app_assoc.
        rewrite (Permutation_app_comm chain k1), (Permutation_app_comm chain j1), <- !app_assoc, <- E, E1. done. }
      transitivity (ds ++ (l1 ++ l2) ++ (j1 ++ j2)); [solve_Permutation|]. rewrite <- Ek. solve_Permutation.
    + intros ds Hds. apply placed_insert; [done|]. intros d' Hd'. rewrite Hrep in Hd'.
      rewrite !elem_of_app in Hd'. destruct Hd' as [Hd'|[Hd'|Hd']].
      * eapply (proj2 Hp); [exact Hi|]. rewrite Hch. apply elem_of_app. by left.
      * rewrite Forall_forall in Hds. by rewrite (Hds d' Hd').
      * eapply (proj2 Hp); [exact Hi|]. rewrite Hch. apply elem_of_app. right. apply elem_of_cons. by right.
  - intros d Hd Hk. apply (Hf d); [|done]. apply Hin; [by rewrite Hl|done].
Qed.

Lemma hash_find_ex_ok h l key :
  entries h l → ∃ o, hash_find_ex h key = Some o ∧ view <$> o = map_of l !! key.
Proof.
  intros He. destruct (locate h l key He) as (bs & c & i & chain & Hb & Hc & Ei & Hi & Hf).
  exists (_chain_find_entry chain key). unfold hash_find_ex. rewrite Hb. cbn [mbind option_bind]. rewrite Hc.
  cbn [mbind option_bind]. rewrite Ei. cbn [mbind option_bind]. rewrite Hi. split; [done|].
  destruct (_chain_find_entry chain key) as [d|].
  - destruct Hf as (Hk & l' & E & _). symmetry. cbn. eapply map_of_lookup; [apply He| |exact Hk].
    rewrite E. apply elem_of_cons. by left.
  - symmetry. by apply map_of_absent.
Qed.

(** [sizeof(HashData) + key_len + malloc_value_size] does not wrap. *)
Lemma calc_node_bytes d b :
  value_ok b d → node_bytes d < 2 ^ 63 → CALC_NODE_MALLOC_BYTES (key_len d) (malloc_value_size d) = node_bytes d.
Proof.
  intros Hv Hlt. pose proof (node_bytes_pos d b Hv). unfold CALC_NODE_MALLOC_BYTES, u64, node_bytes, sizeof_HashData in *.
  apply Z.mod_small. lia.
Qed.

Lemma calc_node_s64 d x : s64 (x - CALC_NODE_MALLOC_BYTES (key_len d) (malloc_value_size d)) = s64 (x - node_bytes d).
Proof.
  unfold CALC_NODE_MALLOC_BYTES, u64. change (sizeof_HashData + key_len d + malloc_value_size d) with (node_bytes d).
  unfold s64. f_equal. replace (x - node_bytes d mod 2 ^ 64 + 2 ^ 63) with (x + 2 ^ 63 - node_bytes d mod 2 ^ 64) by lia.
  rewrite Zminus_mod_idemp_r. f_equal. lia.
Qed.

Lemma delete_from_bucket_ok h l bs c i chain d l' :
  entries h l → buckets h = Some bs → cap_value (capacity h) = Some c →
  l ≡ₚ d :: l' → concat (<[i := replace_entry [] chain (hd_key d)]> bs) ≡ₚ l' →
  placed (hash_func h) c (<[i := replace_entry [] chain (hd_key d)]> bs) →
  entries (delete_from_bucket h bs i chain d) l' ∧
  ∀ B, within B h l → within B (delete_from_bucket h bs i chain d) l'.
Proof.
  intros [(bs0 & c0 & Hb & Hc & Hr & Hp & Hl & Hu) Hk Hn Hv] Hb' Hc' E Hcat Hpl.
  rewrite Hc in Hc'. injection Hc' as <-. rewrite E in Hk, Hn, Hv. split; [split|].
  - eexists _, c0. split; [done|]. split; [done|]. split; [done|]. split; [done|]. split; [done|].
    cbn [bytes_used delete_from_bucket set_bytes_used]. rewrite calc_node_s64, Hu, E.
    change (total (d :: l')) with (node_bytes d + total l').
    unfold Z.sub at 1. rewrite s64_add_idemp. f_equal. lia.
  - by destruct (proj1 (keys_cons _ _) Hk).
  - cbn [item_count delete_from_bucket set_bytes_used set_item_count]. rewrite Hn. cbn [length].
    unfold s32. replace ((Z.of_nat (S (length l')) + 2 ^ 31) mod 2 ^ 32 - 2 ^ 31 - 1 + 2 ^ 31)
      with ((Z.of_nat (S (length l')) + 2 ^ 31) mod 2 ^ 32 - 1) by lia.
    rewrite Zminus_mod_idemp_l. do 2 f_equal. lia.
  - by apply Forall_cons_1 in Hv as [_ Hv].
  - intros B Hw Hmax HB. destruct (Hw Hmax HB) as (c1 & Hc1 & Hlim). exists c1. split; [done|].
    rewrite E in Hlim. change (total (d :: l')) with (node_bytes d + total l') in Hlim.
    inversion Hv as [|? ? Hd _]; subst. pose proof (node_bytes_pos d _ Hd). unfold sizeof_HashData in *. lia.
Qed.

Lemma hash_delete_ok h l key :
  entries h l → cap_ok h →
  ∃ r h', hash_delete h key = Some (r, h') ∧ same_table h h' ∧ cap_ok h' ∧
    ((r = 0 ∧ ∃ d l', hd_key d = key ∧ l ≡ₚ d :: l' ∧ entries h' l' ∧ ∀ B, within B h l → within B h' l') ∨
     (r = ENOENT ∧ h' = h ∧ ∀ d, d ∈ l → hd_key d ≠ key)).
Proof.
  intros He Hok. destruct (locate h l key He) as (bs & c & i & chain & Hb & Hc & Ei & Hi & Hf).
  unfold hash_delete. rewrite Hb. cbn [mbind option_bind]. rewrite Hc. cbn [mbind option_bind].
  rewrite Ei. cbn [mbind option_bind]. rewrite Hi. cbn [mbind option_bind].
  destruct (_chain_find_entry chain key) as [d|].
  - destruct Hf as (Hk & l' & E & Hcat & Hpl). eexists _, _. split; [done|]. split; [done|]. split; [done|].
    left. split; [done|]. exists d, l'. split; [done|]. split; [done|].
    apply (delete_from_bucket_ok h l bs c i chain d l'); rewrite ?Hk; try done. by apply Hpl.
  - eexists _, _. split; [done|]. split; [done|]. split; [done|]. right. done.
Qed.

(** ** Inserting *)

(** The value an insertion stores. *)
Definition given (h : HashArray) (value : Z) (content : list Z) (value_len : Z) : (Z * Z) + list Z :=
  if is_malloc_value h then inr (take (Z.to_nat value_len) content) else inl (value, value_len).

(** The arguments of an insertion: the value can be read, the entry can be
    counted by an [int]. *)
Record insertable (h : HashArray) (key content : list Z) (value_len : Z) : Prop := {
  in_content : is_malloc_value h = true → 0 ≤ value_len ≤ Z.of_nat (length content);
  in_size : sizeof_HashData + Z.of_nat (length key) + (if is_malloc_value h then value_len else 0) ≤ INT_MAX;
}.

Lemma read_content h key content value_len :
  insertable h key content value_len → is_malloc_value h = true →
  read_at content 0 value_len = Some (take (Z.to_nat value_len) content).
Proof.
  intros [Hc _] Hm. specialize (Hc Hm). unfold read_at. destruct (Z.ltb_spec value_len 0); [lia|].
  destruct (Z.ltb_spec (Z.of_nat (length content)) (0 + value_len)); [lia|]. done.
Qed.

(** The entry [insert_entry] makes. *)
Definition new_entry (h : HashArray) (key : list Z) (value : Z) (content : list Z) (value_len : Z) : HashData :=
  {| hd_key := key; hd_value_len := value_len;
     malloc_value_size := if is_malloc_value h then value_len else 0;
     hd_value := if is_malloc_value h then VBuf (take (Z.to_nat value_len) content) else VPtr value |}.

Lemma new_entry_ok h key value content value_len :
  insertable h key content value_len →
  value_ok (is_malloc_value h) (new_entry h key value content value_len) ∧
  view (new_entry h key value content value_len) = given h value content value_len.
Proof.
  intros [Hc Hs]. unfold value_ok, view, given, new_entry, node_bytes, key_len. cbn.
  destruct (is_malloc_value h); cbn in *.
  - specialize (Hc eq_refl). rewrite take_take, Nat.min_id. split; [|done].
    eexists. split; [done|]. rewrite length_take. split; [lia|]. split; [lia|]. lia.
  - split; [|done]. split; [done|]. by eexists.
Qed.

(** The table after the new entry is linked. *)
Lemma linked_ok h l bs c d bs' :
  entries h l → buckets h = Some bs → cap_value (capacity h) = Some c →
  value_ok (is_malloc_value h) d → (∀ d', d' ∈ l → hd_key d' ≠ hd_key d) → placed (hash_func h) c bs' → concat bs' ≡ₚ d :: concat bs →
  let h' := set_item_count (s32 (item_count h + 1))
              (set_buckets (Some bs') (set_bytes_used (s64 (bytes_used h + node_bytes d)) h)) in
  entries h' (d :: l) ∧
  (∀ B, (0 < max_bytes h → s64 (bytes_used h + node_bytes d) ≤ max_bytes h) → node_bytes d ≤ INT_MAX →
    within B h l → within B h' (d :: l)).
Proof.
  intros He Hb Hc Hd Habs Hp' Hcat h'. pose proof He as [(bs0 & c0 & Hb0 & Hc0 & Hr & Hp & Hl & Hu) Hk Hn Hv].
  rewrite Hb in Hb0. injection Hb0 as <-. rewrite Hc in Hc0. injection Hc0 as <-. split; [split|].
  - exists bs', c. split; [done|]. split; [done|]. split; [done|]. split; [done|]. split; [by rewrite Hcat, Hl|].
    cbn [h' bytes_used set_item_count set_buckets set_bytes_used]. rewrite Hu, s64_add_idemp. f_equal.
    change (total (d :: l)) with (node_bytes d + total l). lia.
  - by apply keys_cons.
  - cbn [h' item_count set_item_count]. rewrite Hn. cbn [length]. unfold s32.
    replace ((Z.of_nat (length l) + 2 ^ 31) mod 2 ^ 32 - 2 ^ 31 + 1 + 2 ^ 31)
      with ((Z.of_nat (length l) + 2 ^ 31) mod 2 ^ 32 + 1) by lia.
    rewrite Zplus_mod_idemp_l. do 2 f_equal. lia.
  - by constructor.
  - intros B Hmx Hsz Hw Hmax HB. cbn in Hmax, HB. specialize (Hmx Hmax).
    destruct (limited_bytes B h l He (Hw Hmax HB) ltac:(lia)) as (c1 & Hc1 & Hu1 & Hrange & _).
    rewrite Hc in Hc1. injection Hc1 as <-. exists c. split; [done|].
    change (total (d :: l)) with (node_bytes d + total l).
    pose proof (node_bytes_pos d _ Hd). unfold sizeof_HashData in *.
    rewrite s64_id in Hmx by (unfold is_int64, INT_MAX in *; lia). lia.
Qed.

(** Behind the largest prime there is none. *)
Lemma rehash_largest malloc h : cap_ok h → largest h → _rehash malloc h = None.
Proof.
  unfold cap_ok, largest. intros Hok Hl. unfold _rehash. rewrite Hl. cbn [mbind option_bind].
  assert (∃ p, cap_value p = None ∧ (if is_malloc_capacity h then Some (prime_above 0 prime_array INT_MAX)
    else match capacity h with CapPrime i => Some (CapPrime (S i)) | _ => None end) = Some p) as (p & Hp & ->).
  { destruct (capacity h) as [|i|c]; [done| |]; rewrite Hok.
    - exists (CapPrime (S i)). split; [|done]. cbn in Hl. assert (i = 29%nat) as ->; [|done].
      apply lookup_lt_Some in Hl as Hi. change (length prime_array) with 30%nat in Hi.
      do 30 (destruct i as [|i]; [try done; by vm_compute in Hl|]). lia.
    - by exists CapNull. }
  cbn [mbind option_bind]. unfold _rehash1. destruct (buckets h); [|done]. cbn [mbind option_bind].
  unfold _hash_alloc_buckets. cbn [capacity set_capacity]. by rewrite Hp.
Qed.

Lemma insert_entry_ok m h l key value content value_len :
  entries h l → cap_ok h → (largest h → insert_entry m h key value content value_len ≠ None) →
  insertable h key content value_len → (∀ d, d ∈ l → hd_key d ≠ key) →
  ∃ r h', insert_entry m h key value content value_len = Some (r, h') ∧ same_table h h' ∧ cap_ok h' ∧
    ((r = 1 ∧ ∃ d, hd_key d = key ∧ view d = given h value content value_len ∧ entries h' (d :: l) ∧
        ∀ B, within B h l → within B h' (d :: l)) ∨
     ((r = - ENOSPC ∨ r = - ENOMEM) ∧ h' = h)).
Proof.
  intros He Hok Hm Hin Habs. destruct (new_entry_ok h key value content value_len Hin) as [Hv Hview].
  set (d := new_entry h key value content value_len) in *.
  assert (node_bytes d ≤ INT_MAX) as Hsz by (exact (in_size _ _ _ _ Hin)).
  pose proof (node_bytes_pos d _ Hv) as Hpos. revert Hm. unfold insert_entry.
  assert (s32 (CALC_NODE_MALLOC_BYTES (Z.of_nat (length key)) (if is_malloc_value h then value_len else 0)) = node_bytes d)
    as ->.
  { change (CALC_NODE_MALLOC_BYTES _ _) with (CALC_NODE_MALLOC_BYTES (key_len d) (malloc_value_size d)).
    rewrite (calc_node_bytes d _ Hv) by (unfold INT_MAX in *; lia).
    apply s32_id. unfold is_int32, INT_MAX, sizeof_HashData in *. lia. }
  destruct ((0 <? max_bytes h) && (max_bytes h <? s64 (bytes_used h + node_bytes d))) eqn:Emax.
  { intros _. eexists _, _. split; [done|]. split; [done|]. split; [done|]. right. by split; [left|]. }
  destruct (negb (m 0%nat (u64 (node_bytes d)))).
  { intros _. eexists _, _. split; [done|]. split; [done|]. split; [done|]. right. by split; [right|]. }
  change (sizeof_HashData + Z.of_nat (length key) + (if is_malloc_value h then value_len else 0)) with (node_bytes d).
  rewrite Z.ltb_irrefl.
  assert ((if is_malloc_value h then data ← read_at content 0 value_len; Some (VBuf data) else Some (VPtr value))
          = Some (hd_value d)) as ->.
  { unfold d, new_entry. cbn. destruct (is_malloc_value h) eqn:Emv; [|done].
    by rewrite (read_content h key content value_len Hin Emv). }
  cbn [mbind option_bind]. change ({| hd_key := key; hd_value_len := _; malloc_value_size := _; hd_value := _ |}) with d.
  pose proof He as [(bs & c & Hb & Hc & Hr & Hp & Hl & _) _ _ _]. rewrite Hb. cbn [mbind option_bind].
  rewrite Hc. cbn [mbind option_bind].
  destruct (add_to_chain_ok h c bs d ltac:(lia) Hp) as (bs' & -> & Hp' & Hcat). cbn [mbind option_bind].
  destruct (linked_ok h l bs c d bs' He Hb Hc Hv Habs Hp' Hcat) as [He' Hw'].
  set (h1 := set_item_count _ _) in *.
  assert (∀ B, within B h l → within B h1 (d :: l)) as Hw1.
  { intros B. apply Hw'; [|done]. intros Hmx. apply andb_false_iff in Emax as [E|E]; lia. }
  destruct (over_load h1 c); intros Hm.
  - assert (¬ largest h1) as Hnl.
    { intros Hl1. apply (Hm Hl1). by rewrite (rehash_largest (m 1%nat) h1). }
    destruct (rehash_ok (m 1%nat) h1 (d :: l) Hnl He' Hok) as (r & h2 & E2 & Hst & He2 & Hok2 & Hw2). rewrite E2.
    eexists _, _. split; [done|]. split; [by destruct Hst; split|]. split; [done|]. left. split; [done|]. exists d. split_and!; [done..|]. intros B HB. by apply Hw2, Hw1.
  - eexists _, _. split; [done|]. split; [done|]. split; [done|]. left. split; [done|]. exists d. by split_and!.
Qed.

(** The entry whose value is overwritten in place. *)
Lemma update_ok h l key d d' c i l' bs :
  entries h l → cap_value (capacity h) = Some c → hd_key d = key → hd_key d' = key → l ≡ₚ d :: l' →
  node_bytes d' = node_bytes d → value_ok (is_malloc_value h) d' →
  ∀ chain, concat (<[i := replace_entry [d'] chain key]> bs) ≡ₚ d' :: l' →
  placed (hash_func h) c (<[i := replace_entry [d'] chain key]> bs) →
  let h' := set_buckets (Some (<[i := replace_entry [d'] chain key]> bs)) h in
  entries h' (d' :: l') ∧ ∀ B, within B h l → within B h' (d' :: l').
Proof.
  intros [(bs0 & c0 & Hb0 & Hc0 & Hr & _ & _ & Hu) Hk Hn Hv] Hc Hkd Hkd' E Hsz Hv' chain Hcat Hpl h'.
  rewrite Hc in Hc0. injection Hc0 as <-. rewrite E in Hk, Hn, Hv.
  assert (total (d' :: l') = total l) as Ht.
  { rewrite E. change (total (d' :: l')) with (node_bytes d' + total l'). rewrite Hsz. done. }
  split; [split|].
  - eexists _, c. split; [done|]. split; [done|]. split; [done|]. split; [done|]. split; [done|].
    rewrite Ht. done.
  - cbn in *. by rewrite Hkd', <- Hkd.
  - exact Hn.
  - constructor; [done|]. by apply Forall_cons_1 in Hv as [_ Hv].
  - intros B Hw Hmax HB. destruct (Hw Hmax HB) as (c1 & Hc1 & Hl). exists c1. split; [done|]. by rewrite Ht.
Qed.

(** What an insertion does to the entries. *)
Definition inserted (h h' : HashArray) (l : list HashData) (key : list Z) (v : (Z * Z) + list Z) (r : Z) : Prop :=
  ∃ l', (∀ B, within B h l → within B h' l') ∧ entries h' l' ∧
    ((r = 0 ∧ map_of l' = <[key := v]> (map_of l) ∧ is_Some (map_of l !! key)) ∨
     (r = 1 ∧ map_of l' = <[key := v]> (map_of l) ∧ (is_malloc_value h = false → map_of l !! key = None)) ∨
     ((r = - ENOSPC ∨ r = - ENOMEM) ∧ map_of l' = delete key (map_of l) ∧
        (is_malloc_value h = false → map_of l !! key = None))).

Lemma inserted_new h h' l key v r :
  NoDup (hd_key <$> l) → (∀ d, d ∈ l → hd_key d ≠ key) → entries h l →
  (r = 1 ∧ (∃ d, hd_key d = key ∧ view d = v ∧ entries h' (d :: l) ∧ ∀ B, within B h l → within B h' (d :: l))) ∨
  ((r = - ENOSPC ∨ r = - ENOMEM) ∧ h' = h) →
  inserted h h' l key v r.
Proof.
  intros Hk Habs He [(-> & d & Hd & Hv & He' & Hw)|[Hr ->]].
  - exists (d :: l). split; [done|]. split; [done|]. right. left. split; [done|]. rewrite map_of_cons, Hd, Hv.
    split; [done|]. intros _. by apply map_of_absent.
  - exists l. split; [done|]. split; [done|]. right. right. split; [done|].
    pose proof (map_of_absent l key Habs). split; [by rewrite delete_id|done].
Qed.

(** After the old entry was deleted. *)
Lemma inserted_again h h1 h' l l' d key v r :
  entries h l → hd_key d = key → l ≡ₚ d :: l' → is_malloc_value h = true →
  (∀ B, within B h l → within B h1 l') → inserted h1 h' l' key v r → r ≠ 0 → inserted h h' l key v r.
Proof.
  intros He Hd E Hm Hw (l2 & Hw2 & He2 & Hcase) Hr. pose proof (en_keys _ _ He) as Hk. rewrite E in Hk.
  assert (map_of l' = delete key (map_of l)) as Em.
  { rewrite (map_of_perm l (d :: l')), <- Hd by (done || by rewrite E). by apply map_of_delete. }
  exists l2. split; [by auto|]. split; [done|]. right.
  destruct Hcase as [(-> & _)|[(-> & -> & _)|(Hr' & -> & _)]]; [done|left|right]; (split; [done|]); rewrite Em.
  - split; [by rewrite insert_delete_eq|by rewrite Hm].
  - split; [by rewrite delete_delete_eq|by rewrite Hm].
Qed.

Lemma hash_insert_ex_ok m h l key value content value_len :
  entries h l → cap_ok h → (largest h → hash_insert_ex m h key value content value_len ≠ None) →
  insertable h key content value_len →
  ∃ r h', hash_insert_ex m h key value content value_len = Some (r, h') ∧ same_table h h' ∧ cap_ok h' ∧
    inserted h h' l key (given h value content value_len) r.
Proof.
  intros He Hok Hm Hin. destruct (locate h l key He) as (bs & c & i & chain & Hb & Hc & Ei & Hi & Hf).
  pose proof (en_keys _ _ He) as Hk.
  revert Hm. unfold hash_insert_ex. rewrite Hb. cbn [mbind option_bind]. rewrite Hc. cbn [mbind option_bind].
  rewrite Ei. cbn [mbind option_bind]. rewrite Hi. cbn [mbind option_bind].
  destruct (_chain_find_entry chain key) as [d|].
  2: { intros Hm. destruct (insert_entry_ok m h l key value content value_len He Hok Hm Hin Hf) as (r & h' & E & Hst & Hok' & Hcase).
       exists r, h'. split; [done|]. split; [done|]. split; [done|]. by apply inserted_new. }
  destruct Hf as (Hd & l' & E & Hcat & Hpl).
  assert (value_ok (is_malloc_value h) d) as Hvd.
  { pose proof (en_values _ _ He) as Hv. rewrite E in Hv. by apply Forall_cons_1 in Hv as [? _]. }
  assert (∀ d', hd_key d' = key → node_bytes d' = node_bytes d → value_ok (is_malloc_value h) d' →
    inserted h (set_buckets (Some (<[i := replace_entry [d'] chain key]> bs)) h) l key (view d') 0) as Hupd.
  { intros d' Hd' Hsz Hv'.
    destruct (update_ok h l key d d' c i l' bs He Hc Hd Hd' E Hsz Hv' chain (Hcat [d'])) as [He' Hw']; [by apply Hpl; repeat constructor|].
    exists (d' :: l'). split; [done|]. split; [done|]. left. split; [done|]. rewrite E in Hk.
    rewrite (map_of_perm l (d :: l')) by (done || by rewrite E). rewrite !map_of_cons, Hd, Hd', insert_insert_eq.
    split; [done|]. rewrite lookup_insert_eq. done. }
  destruct (is_malloc_value h) eqn:Emv; cbn [negb].
  - destruct ((value_len <=? malloc_value_size d) && (Z.quot (malloc_value_size d) 2 <? value_len)) eqn:Efit.
    + rewrite (read_content h key content value_len Hin Emv). cbn [mbind option_bind].
      destruct Hvd as (buff & Eb & Hlb & Hlen & Hnb). unfold overwrite. rewrite Eb.
      pose proof (in_content _ _ _ _ Hin Emv) as Hvl. rewrite length_take.
      apply andb_true_iff in Efit as [Efit%Z.leb_le _].
      rewrite (proj2 (Z.ltb_ge (Z.of_nat (length buff)) _)) by lia. cbn [mbind option_bind].
      intros _. eexists _, _. split; [done|]. split; [done|]. split; [done|].
      assert (given h value content value_len = view (with_value value_len
        (VBuf (take (Z.to_nat value_len) content ++ drop (Z.to_nat value_len `min` length content) buff)) d)) as ->.
      { unfold given, view, with_value. cbn. rewrite Emv, take_app_length'; [done|]. rewrite length_take. lia. }
      apply Hupd; [done|done|]. unfold value_ok, node_bytes, key_len, with_value in *. cbn.
      eexists. split; [done|]. rewrite length_app, length_take, length_drop. lia.
    + intros Hm. destruct (delete_from_bucket_ok h l bs c i chain d l' He Hb Hc E) as [He1 Hw1]; rewrite ?Hd; [done|by apply Hpl|].
      set (h1 := delete_from_bucket h bs i chain d) in *.
      assert (∀ d', d' ∈ l' → hd_key d' ≠ key) as Habs.
      { rewrite E in Hk. rewrite <- Hd. by destruct (proj1 (keys_cons _ _) Hk). }
      assert (insertable h1 key content value_len) as Hin1 by (destruct Hin; by split).
      destruct (insert_entry_ok m h1 l' key value content value_len He1 Hok Hm Hin1 Habs) as (r & h' & E2 & Hst & Hok' & Hcase).
      exists r, h'. split; [done|]. split; [destruct Hst; by split|]. split; [done|].
      apply (inserted_again h h1 h' l l' d); [done..| |].
      * apply inserted_new; [by apply (en_keys _ _ He1)|done|done|exact Hcase].
      * destruct Hcase as [[-> _]|[[-> | ->] _]]; done.
  - intros _. eexists _, _. split; [done|]. split; [done|]. split; [done|].
    assert (given h value content value_len = view (with_value value_len (VPtr value) d)) as ->.
    { unfold given, view. cbn. by rewrite Emv. }
    apply Hupd; [done|done|]. destruct Hvd as [? _]. split; [done|]. by eexists.
Qed.

(** ** Optimising the capacity *)

Definition good (c : Z) : bool := negb ((c mod 3 =? 0) || (c mod 5 =? 0) || (c mod 7 =? 0)).

Lemma good_period c : good c = good (c mod 210).
Proof.
  unfold good. by rewrite !Z.mod_mod_divide by first [by exists 70|by exists 42|by exists 30].
Qed.

Lemma next_candidate_spec fuel c :
  0 ≤ c → c + 2 * Z.of_nat fuel + 2 < 2 ^ 32 →
  (∃ k, (k ≤ fuel)%nat ∧ good (c + 2 * Z.of_nat k + 2) = true) →
  ∃ c', next_candidate fuel c = Some c' ∧ c + 2 ≤ c' ≤ c + 2 * Z.of_nat fuel + 2.
Proof.
  revert c. induction fuel as [|fuel IH]; intros c H0 Hb (k & Hk & Hg); cbn [next_candidate];
    (assert (u32 (c + 2) = c + 2) as -> by (unfold u32; apply Z.mod_small; lia)).
  - assert (k = 0%nat) as -> by lia. replace (c + 2 * Z.of_nat 0 + 2) with (c + 2) in Hg by lia.
    unfold good in Hg. apply negb_true_iff in Hg. rewrite Hg. eexists. split; [done|]. lia.
  - destruct ((_ || _) || _) eqn:E; [|eexists; split; [done|lia]].
    destruct k as [|k].
    + replace (c + 2 * Z.of_nat 0 + 2) with (c + 2) in Hg by lia. unfold good in Hg. by rewrite E in Hg.
    + destruct (IH (c + 2)) as (c' & -> & Hc'); [lia..| |exists c'; split; [done|lia]].
      exists k. split; [lia|]. by replace (c + 2 + 2 * Z.of_nat k + 2) with (c + 2 * Z.of_nat (S k) + 2) by lia.
Qed.

Lemma good_near c : ∃ k, (k ≤ CANDIDATES)%nat ∧ good (c + 2 * Z.of_nat k + 2) = true.
Proof.
  assert (existsb (λ k, good (c mod 210 + 2 * Z.of_nat k + 2)) (seq 0 (S CANDIDATES)) = true) as H.
  { pose proof (Z.mod_pos_bound c 210 eq_refl) as Hr. revert Hr. generalize (c mod 210). intros v Hr. all_below 210 v. }
  apply existsb_exists in H as (k & Hk%in_seq & Hg). exists k. split; [lia|].
  rewrite good_period in Hg |- *. rewrite <- Hg. f_equal.
  rewrite <- (Zplus_mod_idemp_l (c + 2 * Z.of_nat k) 2), <- (Zplus_mod_idemp_l c (2 * Z.of_nat k)).
  by rewrite Zplus_mod_idemp_l.
Qed.

Lemma next_candidate_ok c : 0 ≤ c → c + 22 < 2 ^ 32 → ∃ c', next_candidate CANDIDATES c = Some c' ∧ c + 2 ≤ c' ≤ c + 22.
Proof.
  intros H0 Hb. destruct (next_candidate_spec CANDIDATES c) as (c' & E & Hc'); [done|unfold CANDIDATES in *; lia|apply good_near|].
  exists c'. split; [done|]. unfold CANDIDATES in Hc'. lia.
Qed.

(** No bucket has entries with different hash codes. *)
Definition no_conflict (h : HashArray) : Prop :=
  ∃ bs, buckets h = Some bs ∧
    ∀ chain d d', chain ∈ bs → d ∈ chain → d' ∈ chain → HASH_CODE h d = HASH_CODE h d'.

Lemma conflicted_false h chain :
  conflicted h chain = false ↔ ∀ d d', d ∈ chain → d' ∈ chain → HASH_CODE h d = HASH_CODE h d'.
Proof.
  induction chain as [|d chain IH]; cbn.
  { split; [|done]. by intros _ d d' ?%not_elem_of_nil. }
  rewrite orb_false_iff, IH. split.
  - intros [He Hr]. assert (∀ d', d' ∈ chain → HASH_CODE h d = HASH_CODE h d') as H.
    { intros d' Hd'. destruct (Z.eqb_spec (HASH_CODE h d) (HASH_CODE h d')) as [|Hne]; [done|].
      exfalso. apply not_true_iff_false in He. apply He, existsb_exists. exists d'.
      split; [by apply list_elem_of_In|]. by apply negb_true_iff, Z.eqb_neq. }
    intros d1 d2 [->|H1]%elem_of_cons [->|H2]%elem_of_cons; [done|by apply H|by symmetry; apply H|by apply Hr].
  - intros H. split.
    + apply not_true_iff_false. intros (d' & Hd' & Hne)%existsb_exists. apply negb_true_iff, Z.eqb_neq in Hne.
      apply Hne, H; [left|right]. by apply list_elem_of_In.
    + intros d1 d2 H1 H2. apply H; by apply elem_of_cons; right.
Qed.

Lemma conflict_count_bounds h bs : 0 ≤ conflict_count h bs ≤ Z.of_nat (length bs).
Proof. induction bs as [|chain bs IH]; cbn; [done|]. destruct (conflicted h chain); lia. Qed.

Lemma conflict_count_zero h bs :
  conflict_count h bs = 0 ↔ ∀ chain, chain ∈ bs → conflicted h chain = false.
Proof.
  induction bs as [|chain bs IH]; cbn.
  { split; [|done]. by intros _ chain ?%not_elem_of_nil. }
  pose proof (conflict_count_bounds h bs). split.
  - intros H0 ch [->|Hch]%elem_of_cons; destruct (conflicted h chain) eqn:E; try lia; try done.
    apply IH; [lia|done].
  - intros H1. rewrite (H1 chain) by (apply elem_of_cons; by left). cbn. apply IH.
    intros ch Hch. apply H1, elem_of_cons. by right.
Qed.

Lemma hash_conflict_count_ok h l :
  entries h l → ∃ n, _hash_conflict_count h = Some n ∧ 0 ≤ n ∧ (n = 0 → no_conflict h) ∧
    (∀ c, cap_value (capacity h) = Some c → (∀ d, d ∈ l → HASH_CODE h d < c) → n = 0).
Proof.
  intros [(bs & c & Hb & Hc & Hr & [Hlen Hp] & Hl & _) _ _ _].
  unfold _hash_conflict_count, all_buckets. rewrite Hb. cbn [mbind option_bind]. rewrite Hc. cbn [mbind option_bind].
  rewrite (proj2 (Z.ltb_ge _ _)) by lia. cbn [mbind option_bind]. rewrite take_ge by lia.
  pose proof (conflict_count_bounds h bs). rewrite s32_id by (unfold is_int32, INT_MAX in *; lia).
  eexists. split; [done|]. split; [lia|]. split.
  - intros H0. exists bs. split; [done|]. intros chain d d' Hch. apply conflicted_false.
    by apply (proj1 (conflict_count_zero h bs) H0).
  - intros c' [= <-] Hcode. apply conflict_count_zero. intros chain Hch. apply conflicted_false. intros d d' Hd Hd'.
    apply list_elem_of_lookup in Hch as [i Hi].
    assert (∀ e, e ∈ chain → HASH_CODE h e = Z.of_nat i) as H1; [|by rewrite !H1].
    intros e He. rewrite <- (Hp i chain e Hi He). symmetry. apply Z.mod_small. split.
    + unfold u32. by apply Z.mod_pos_bound.
    + apply Hcode. rewrite <- Hl. apply list_elem_of_In, in_concat. exists chain.
      split; apply list_elem_of_In; [|done]. by eapply list_elem_of_lookup_2.
Qed.

(** Another pointer to the same number. *)
Lemma entries_capacity h l p b :
  entries h l → cap_value p = cap_value (capacity h) →
  entries (set_capacity p (set_is_malloc_capacity b h)) l ∧
  ∀ B, within B h l → within B (set_capacity p (set_is_malloc_capacity b h)) l.
Proof.
  intros [(bs & c & Hb & Hc & Ht) Hk Hn Hv] E. split; [split; try done|].
  - exists bs, c. split; [done|]. split; [by rewrite <- Hc|done].
  - intros B Hw Hmax HB. destruct (Hw Hmax HB) as (c' & Hc' & Hl). exists c'. split; [by rewrite <- Hc'|done].
Qed.

Lemma best_loop_ok m l K fuel h c old :
  (∀ n, mem_ok (m n)) → entries h l → cap_value (capacity h) = Some old → 0 ≤ c → c + 22 < 2 ^ 32 →
  (∀ d, d ∈ l → HASH_CODE h d ≤ K) → (Z.to_nat (K + 1 - c) < fuel)%nat →
  ∃ r h', best_loop fuel m h (s32 old) c = Some (r, h') ∧ same_table h h' ∧ entries h' l ∧ cap_ok h' ∧
    (∀ B, within B h l → within B h' l) ∧ ((r = 1 ∧ no_conflict h') ∨ r = - ENOSPC ∨ r = - ENOMEM).
Proof.
  intros Hm. revert h c old. induction fuel as [|fuel IH]; intros h c old He Ho H0 Hb HK Hf; [lia|]. cbn [best_loop].
  destruct (next_candidate_ok c H0 Hb) as (c' & -> & Hc'). cbn [mbind option_bind].
  assert (m fuel (sizeof_pointer * c') = true → c' ≤ INT_MAX) as Hfit.
  { intros E. specialize (Hm fuel _ E). unfold sizeof_pointer in Hm. lia. }
  destruct (rehash1_ok (m fuel) h l (CapMalloc c') c' Hfit He eq_refl ltac:(lia))
    as (old' & r & h1 & Ho' & E1 & Hst & Hfl & Hcap & Hcase).
  rewrite Ho in Ho'. injection Ho' as <-. rewrite E1. cbn [mbind option_bind].
  destruct Hcase as [(-> & Hlt & He1 & _)|[Hr1 ->]].
  - cbn [c_true Z.eqb negb].
    pose proof (rehash1_within (m fuel) h l (CapMalloc c') c' old 0 h1 Hfit He eq_refl ltac:(lia) Ho E1 eq_refl) as Hw1.
    destruct (hash_conflict_count_ok h1 l He1) as (n & -> & Hn & Hzero & Hcode). cbn [mbind option_bind].
    assert (∀ d, HASH_CODE h1 d = HASH_CODE h d) as Hcodes by (intros d; unfold HASH_CODE; by rewrite (st_func _ _ Hst)).
    destruct (Z.ltb_spec 0 n).
    + assert (c' ≤ K) as Hle.
      { destruct (Z.le_gt_cases c' K) as [|Hgt]; [done|]. assert (n = 0); [|lia]. apply (Hcode c'); [by rewrite Hcap|].
        intros d Hd. rewrite Hcodes. specialize (HK d Hd). lia. }
      destruct (IH h1 c' c') as (r & h2 & -> & Hst2 & He2 & Hok2 & Hw2 & Hcase2);
        [done|by rewrite Hcap|lia|unfold INT_MAX in *; lia|intros d Hd; rewrite Hcodes; auto|lia|].
      exists r, h2. split; [done|]. split; [by eapply same_table_trans|]. split; [done|]. split; [done|]. split; [by auto|done].
    + assert (n = 0) as H0n by lia. eexists _, _. split; [done|]. split; [destruct Hst; by split|].
      split; [destruct He1; by split|]. split; [unfold cap_ok; cbn; by rewrite Hcap|].
      split; [exact Hw1|]. left. split; [done|exact (Hzero H0n)].
  - assert (c_true r = true) as -> by (destruct Hr1 as [-> | ->]; done).
    pose proof He as [(bs & c0 & _ & Hc0 & Hr & _) _ _ _]. rewrite Ho in Hc0. injection Hc0 as <-.
    assert (u32 (u32 (s32 old)) = old /\ u32 (s32 old) = old) as [_ Hu].
    { rewrite u32_idemp, u32_s32. unfold u32. rewrite Z.mod_small by (unfold INT_MAX in *; lia). done. }
    rewrite Hu. eexists _, _. split; [done|].
    change (set_capacity (CapMalloc old) (set_is_malloc_capacity true (set_capacity (CapMalloc c') h)))
      with (set_capacity (CapMalloc old) (set_is_malloc_capacity true h)).
    destruct (entries_capacity h l (CapMalloc old) true He) as [He' Hw']; [by rewrite Ho|].
    split; [by split|]. split; [done|]. split; [done|]. split; [done|]. right. destruct Hr1 as [-> | ->]; [by left|by right].
Qed.

Lemma first_capacity_range h l suggest :
  entries h l → suggest ≤ INT_MAX → 1 ≤ Z.of_nat (length l) → Z.of_nat (length l) ≤ 2 ^ 30 →
  0 ≤ first_capacity h suggest ∧ first_capacity h suggest + 22 < 2 ^ 32.
Proof.
  intros [_ _ Hcount _] Hs H1 Hlen. unfold first_capacity. rewrite Hcount. unfold u32, INT_MAX in *.
  rewrite (s32_id (Z.of_nat _)) by (unfold is_int32; lia).
  destruct ((2 <? suggest) && (Z.of_nat (length l) <=? suggest)) eqn:E.
  - apply andb_true_iff in E as [E1%Z.ltb_lt E2%Z.leb_le].
    rewrite (Z.mod_small (suggest - 2)) by lia. destruct (_ =? 0); rewrite ?Z.mod_small by lia; lia.
  - rewrite (s32_id (Z.of_nat (length l) - 1)), (s32_id (2 * _)), (s32_id (2 * _ + 1)), Z.mod_small
      by (unfold is_int32; lia). lia.
Qed.

(** ** Sequences of operations *)

Inductive hash_op :=
  | HInsert (m : nat → Z → bool) (key : list Z) (value : Z) (content : list Z) (value_len : Z)
  | HDelete (key : list Z)
  | HFind (key : list Z)
  | HCount.

Inductive hash_response :=
  | HCode (r : Z)
  | HValue (v : option ((Z * Z) + list Z)).

Definition hash_exec (op : hash_op) (h : HashArray) : option (hash_response * HashArray) :=
  match op with
  | HInsert m key value content value_len =>
      '(r, h) ← hash_insert_ex m h key value content value_len; Some (HCode r, h)
  | HDelete key => '(r, h) ← hash_delete h key; Some (HCode r, h)
  | HFind key => (λ d : option HashData, (HValue (view <$> d), h)) <$> hash_find_ex h key
  | HCount => Some (HCode (hash_count h), h)
  end.

Fixpoint hash_run (ops : list hash_op) (h : HashArray) : option (list hash_response * HashArray) :=
  match ops with
  | [] => Some ([], h)
  | op :: ops => '(p, h) ← hash_exec op h; '(ps, h) ← hash_run ops h; Some (p :: ps, h)
  end.

(** The arguments an operation may be given. *)
Definition op_ok (h : HashArray) (op : hash_op) : Prop :=
  match op with
  | HInsert _ key _ content value_len => insertable h key content value_len
  | _ => True
  end.

(** The contract: a table is a finite map from keys to values. *)
Inductive map_step (h : HashArray) (M : gmap (list Z) ((Z * Z) + list Z)) :
    hash_op → hash_response → gmap (list Z) ((Z * Z) + list Z) → Prop :=
  | step_update m key value content len :
      is_Some (M !! key) →
      map_step h M (HInsert m key value content len) (HCode 0) (<[key := given h value content len]> M)
  (** an old value that was copied may be replaced by a new entry *)
  | step_insert m key value content len :
      (is_malloc_value h = false → M !! key = None) →
      map_step h M (HInsert m key value content len) (HCode 1) (<[key := given h value content len]> M)
  (** when that new entry cannot be had, the old one is gone *)
  | step_insert_fails m key value content len r :
      r = - ENOSPC ∨ r = - ENOMEM → (is_malloc_value h = false → M !! key = None) →
      map_step h M (HInsert m key value content len) (HCode r) (delete key M)
  | step_delete key : is_Some (M !! key) → map_step h M (HDelete key) (HCode 0) (delete key M)
  | step_delete_absent key : M !! key = None → map_step h M (HDelete key) (HCode ENOENT) M
  | step_find key : map_step h M (HFind key) (HValue (M !! key)) M
  | step_count : map_step h M HCount (HCode (s32 (Z.of_nat (size M)))) M.

Fixpoint map_run (h : HashArray) (M : gmap (list Z) ((Z * Z) + list Z)) (ops : list hash_op)
    (resps : list hash_response) (M' : gmap (list Z) ((Z * Z) + list Z)) : Prop :=
  match ops, resps with
  | [], [] => M' = M
  | op :: ops, p :: resps => ∃ M1, map_step h M op p M1 ∧ map_run h M1 ops resps M'
  | _, _ => False
  end.

Lemma hash_exec_ok op h l :
  entries h l → cap_ok h → op_ok h op → (largest h → hash_exec op h ≠ None) →
  ∃ p h' l', hash_exec op h = Some (p, h') ∧ same_table h h' ∧ cap_ok h' ∧ entries h' l' ∧
    map_step h (map_of l) op p (map_of l') ∧ ∀ B, within B h l → within B h' l'.
Proof.
  intros He Hok Hop Hm. pose proof (en_keys _ _ He) as Hk. destruct op as [m key value content len|key|key|]; cbn [hash_exec].
  - assert (largest h → hash_insert_ex m h key value content len ≠ None) as Hm'.
    { intros Hl E. apply (Hm Hl). cbn [hash_exec]. by rewrite E. }
    destruct (hash_insert_ex_ok m h l key value content len He Hok Hm' Hop)
      as (r & h' & -> & Hst & Hok' & l' & Hw & He' & Hcase). cbn [mbind option_bind].
    exists (HCode r), h', l'. split; [done|]. split; [done|]. split; [done|]. split; [done|]. split; [|done].
    destruct Hcase as [(-> & -> & H)|[(-> & -> & H)|(Hr & -> & H)]]; by constructor.
  - destruct (hash_delete_ok h l key He Hok) as (r & h' & -> & Hst & Hok' & Hcase). cbn [mbind option_bind].
    destruct Hcase as [(-> & d & l' & Hd & E & He' & Hw)|(-> & -> & Habs)].
    + exists (HCode 0), h', l'. split; [done|]. split; [done|]. split; [done|]. split; [done|]. split; [|done].
      rewrite E in Hk. rewrite (map_of_perm l (d :: l')) by (done || by rewrite E).
      rewrite (map_of_delete d l' Hk), Hd. apply step_delete. rewrite map_of_cons, Hd, lookup_insert_eq. done.
    + exists (HCode ENOENT), h, l. do 4 (split; [done|]). split; [|done]. apply step_delete_absent. by apply map_of_absent.
  - destruct (hash_find_ex_ok h l key He) as (o & -> & Ho). cbn [fmap option_fmap option_map].
    exists (HValue (view <$> o)), h, l. do 4 (split; [done|]). split; [|done]. rewrite Ho. constructor.
  - exists (HCode (hash_count h)), h, l. do 4 (split; [done|]). split; [|done].
    unfold hash_count. rewrite (en_count _ _ He), <- map_of_size by done. constructor.
Qed.

Lemma same_table_step h h' M op p M' : same_table h h' → map_step h' M op p M' → map_step h M op p M'.
Proof.
  intros [_ _ Hm] Hs.
  assert (∀ v c n, given h' v c n = given h v c n) as Hg by (intros; unfold given; by rewrite Hm).
  destruct Hs; rewrite ?Hg; constructor; try done; by rewrite <- Hm.
Qed.

(** The table is full: no larger array for the entry that is inserted. *)
Definition full (h : HashArray) (op : hash_op) : Prop := largest h ∧ hash_exec op h = None.

Lemma op_ok_same h h' op : same_table h h' → op_ok h op → op_ok h' op.
Proof. destruct op as [m key value content len|key|key|]; try done. intros [_ _ E] [H1 H2]. split; by rewrite E. Qed.

Lemma same_table_run h h' ops ps M M' : same_table h h' → map_run h' M ops ps M' → map_run h M ops ps M'.
Proof.
  intros Hst. revert M ps. induction ops as [|op ops IH]; intros M [|p ps]; try done. intros (M1 & H1 & H2). exists M1.
  split; [by eapply same_table_step|by apply IH].
Qed.

(** A run, up to the first operation on a full table if there is one. *)
Lemma hash_run_ok ops h l :
  entries h l → cap_ok h → Forall (op_ok h) ops →
  ∃ ops1 ops2 ps h' l', ops = ops1 ++ ops2 ∧ hash_run ops1 h = Some (ps, h') ∧ same_table h h' ∧ cap_ok h' ∧ entries h' l' ∧
    map_run h (map_of l) ops1 ps (map_of l') ∧ (∀ B, within B h l → within B h' l') ∧
    match ops2 with [] => True | op :: _ => full h' op end.
Proof.
  intros He Hok Hops. revert h l He Hok Hops. induction ops as [|op ops IH]; intros h l He Hok Hops.
  { by exists [], [], [], h, l. }
  apply Forall_cons in Hops as [Hop Hops].
  destruct (decide (largest h)) as [Hl|Hl]; [destruct (hash_exec op h) as [x|] eqn:E|].
  2: { by exists [], (op :: ops), [], h, l. }
  all: destruct (hash_exec_ok op h l He Hok Hop) as (p & h1 & l1 & E1 & Hst1 & Hok1 & He1 & Hs1 & Hw1); [by rewrite ?E|].
  all: destruct (IH h1 l1 He1 Hok1) as (ops1 & ops2 & ps & h2 & l2 & -> & E2 & Hst2 & Hok2 & He2 & Hs2 & Hw2 & Hf);
    [by eapply Forall_impl; [exact Hops|]; intros; eapply op_ok_same|].
  all: exists (op :: ops1), ops2, (p :: ps), h2, l2; split; [done|]; cbn [hash_run]; rewrite E1; cbn [mbind option_bind];
    rewrite E2; cbn [mbind option_bind]; split; [done|]; split; [by eapply same_table_trans|]; split; [done|]; split; [done|];
    split; [|by auto]; exists (map_of l1); split; [done|]; by eapply same_table_run.
Qed.

Lemma prime_above_cases primes n i :
  prime_above i primes n = CapNull ∨ ∃ j p, prime_above i primes n = CapPrime (i + j) ∧ primes !! j = Some p ∧ n < p.
Proof.
  destruct (decide (Exists (λ p, n < p) primes)) as [H|H]; [right; by apply prime_above_spec|left].
  revert i. induction primes as [|p primes IH]; intros i; [done|]. cbn.
  destruct (Z.ltb_spec n p); [|apply IH]; [exfalso; apply H; by left|]. intros H1. apply H. by right.
Qed.

Lemma hash_init_ex_ok m func capacity load max mv h :
  hash_init_ex m func capacity load max mv = Some (0, h) →
  entries h [] ∧ cap_ok h ∧ is_malloc_value h = mv ∧ max_bytes h = max ∧ hash_func h = func ∧
  ∀ c B, cap_value (HashTable.capacity h) = Some c → sizeof_pointer * c ≤ B → within B h [].
Proof.
  unfold hash_init_ex.
  destruct (prime_above_cases prime_array (u32 capacity) 0) as [->|(i & c & -> & Hi & Hc)]; [done|].
  set (h0 := {| buckets := None |}) in *.
  assert (0 ≤ u32 capacity) by (unfold u32; by apply Z.mod_pos_bound).
  assert (m (sizeof_pointer * c) = true → c ≤ INT_MAX) as Hfit by (intros _; by apply (prime_bounds i)).
  destruct (alloc_buckets_ok m h0 c 0 [] Hfit Hi ltac:(lia) eq_refl) as (r & h1 & E & [(-> & Hlt & -> & _)|[Hr _]]).
  - rewrite E. cbn [mbind option_bind]. cbn [c_true Z.eqb negb]. intros [= <-].
    split; [|split; [done|]; do 3 (split; [done|])].
    + split; [|constructor|done|constructor].
      eexists _, c. split; [done|]. split; [done|]. split; [lia|]. split; [apply placed_empty|]. split; [|done].
      by rewrite concat_empties.
    + intros c' B Hc' HB _ _. exists c'. split; [done|]. change (total []) with 0. lia.
  - rewrite E. cbn [mbind option_bind].
    assert (c_true r = true) as -> by (destruct Hr as [-> | ->]; done). intros [= -> ->]. by destruct Hr.
Qed.

(** ** Walking *)

Lemma walk_chain_app {W} (f : Z → HashData → W → Z * W) l1 l2 index w :
  walk_chain f (l1 ++ l2) index w
  = let '(r, index, w) := walk_chain f l1 index w in
    if c_true r then (r, index, w) else walk_chain f l2 index w.
Proof.
  revert index w. induction l1 as [|d l1 IH]; intros index w; [done|]. cbn [walk_chain app].
  destruct (f index d w) as [r w1]. destruct (c_true r) eqn:E; [by rewrite E|apply IH].
Qed.

Lemma walk_buckets_concat {W} (f : Z → HashData → W → Z * W) bs index w :
  walk_buckets f bs index w = let '(r, _, w) := walk_chain f (concat bs) index w in (r, w).
Proof.
  revert index w. induction bs as [|chain bs IH]; intros index w; [done|]. cbn [walk_buckets concat].
  rewrite walk_chain_app. destruct (walk_chain f chain index w) as [[r index1] w1].
  destruct (c_true r); [done|apply IH].
Qed.

Lemma all_buckets_ok h l : entries h l → ∃ bs, all_buckets h = Some bs ∧ buckets h = Some bs ∧ concat bs ≡ₚ l.
Proof.
  intros [(bs & c & Hb & Hc & Hr & [Hlen _] & Hl & _) _ _ _]. exists bs. unfold all_buckets.
  rewrite Hb. cbn [mbind option_bind]. rewrite Hc. cbn [mbind option_bind].
  rewrite (proj2 (Z.ltb_ge _ _)), take_ge by lia. done.
Qed.

(** * Properties *)

(** C25 A hash table is a finite map.  After [hash_init_ex], a sequence of
    insertions, deletions and searches, with any hash function and whatever
    [malloc] and the memory limit answer, follows no bad pointer and gives
    the answers of a map from keys to values; rehashing is invisible.  The
    run stops short only where the array of buckets is the largest one, of
    2147483647 buckets, and an insertion reaches the load factor: there
    [_rehash] reads behind the array of primes.  The contract has two
    exceptions to what hash.h promises: with copied values an insertion may
    return 1 for a key that was there, and one that fails may have removed
    the old value. *)
Theorem hash_table_refines_map m func capacity load max mv h ops :
  hash_init_ex m func capacity load max mv = Some (0, h) → Forall (op_ok h) ops →
  ∃ ops1 ops2 resps h' M, ops = ops1 ++ ops2 ∧ hash_run ops1 h = Some (resps, h') ∧ map_run h ∅ ops1 resps M ∧
    match ops2 with [] => True | op :: _ => full h' op end.
Proof.
  intros Hi Hops. destruct (hash_init_ex_ok _ _ _ _ _ _ _ Hi) as (He & Hok & _).
  destruct (hash_run_ok ops h [] He Hok Hops) as (ops1 & ops2 & ps & h' & l & E & Er & _ & _ & _ & Hs & _ & Hf).
  by exists ops1, ops2, ps, h', (map_of l).
Qed.

(** C26 The memory a table counts is the memory it has, the bucket array and
    the entries.  With a limit below the 16 GB of the largest bucket array
    every sequence of operations is served and the memory stays within the
    limit, or within the first bucket array where that is larger already:
    [hash_init_ex] sets the limit after it has allocated it. *)
Theorem hash_table_memory m func capacity load max mv h ops c :
  hash_init_ex m func capacity load max mv = Some (0, h) → cap_value (HashTable.capacity h) = Some c → c < INT_MAX →
  0 < max < sizeof_pointer * INT_MAX → Forall (op_ok h) ops →
  ∃ resps h' c' bs, hash_run ops h = Some (resps, h') ∧ buckets h' = Some bs ∧ cap_value (HashTable.capacity h') = Some c' ∧
    bytes_used h' = sizeof_pointer * c' + total (concat bs) ∧ bytes_used h' ≤ Z.max max (sizeof_pointer * c).
Proof.
  intros Hi Hc Hc1 Hmax Hops. destruct (hash_init_ex_ok _ _ _ _ _ _ _ Hi) as (He & Hok & _ & Emax & _ & Hw).
  destruct (hash_run_ok ops h [] He Hok Hops) as (ops1 & ops2 & ps & h' & l & -> & E & Hst & _ & He' & _ & Hw' & Hf).
  pose proof He as [(_ & c0 & _ & Hc0 & Hr & _) _ _ _]. rewrite Hc in Hc0. injection Hc0 as <-.
  pose proof He' as [(bs & c2 & Hb & Hc2 & _ & _ & Hl & _) _ _ Hv].
  set (B := Z.max max (sizeof_pointer * c)).
  assert (B ≤ 2 ^ 62 ∧ B < sizeof_pointer * INT_MAX) as [HB HB'] by (unfold B, sizeof_pointer, INT_MAX in *; lia).
  assert (limited B h' l) as Hlim.
  { apply Hw'; [apply (Hw c); [done|unfold B; lia]|rewrite (st_max _ _ Hst), Emax; lia|].
    rewrite (st_max _ _ Hst), Emax. unfold B. lia. }
  destruct (limited_bytes B h' l He' Hlim ltac:(done)) as (c3 & Hc3 & Hu & Hrange & Ht).
  rewrite Hc2 in Hc3. injection Hc3 as <-. destruct ops2 as [|op ops2].
  - rewrite app_nil_r. exists ps, h', c2, bs. do 3 (split; [done|]). split; [by rewrite Hl|lia].
  - exfalso. destruct Hf as [Hf _]. unfold largest in Hf. rewrite Hc2 in Hf. injection Hf as ->. lia.
Qed.

(** C27 [hash_best_op] ends: on a table with at most 2^30 entries whose hash
    codes are at most [K] it stops after at most K + 2 rounds.  The entries
    are the same afterwards; unless memory ran out no two entries of a
    bucket have different hash codes. *)
Theorem hash_best_op_terminates fuel m h l K suggest :
  (∀ n, mem_ok (m n)) → entries h l → cap_ok h → Z.of_nat (length l) ≤ 2 ^ 30 → suggest ≤ INT_MAX →
  (∀ d, d ∈ l → HASH_CODE h d ≤ K) → (Z.to_nat (K + 1) < fuel)%nat →
  ∃ r h', hash_best_op fuel m h suggest = Some (r, h') ∧ entries h' l ∧ cap_ok h' ∧
    (((r = 0 ∨ r = 1) ∧ no_conflict h') ∨ r = - ENOSPC ∨ r = - ENOMEM).
Proof.
  intros Hm He Hok Hlen Hs HK Hf. unfold hash_best_op.
  destruct (hash_conflict_count_ok h l He) as (n & -> & Hn & Hzero & Hcode). cbn [mbind option_bind].
  destruct (Z.eqb_spec n 0) as [->|Hne].
  { exists 0, h. split; [done|]. split; [done|]. split; [done|]. left. split; [by left|by apply Hzero]. }
  pose proof He as [(bs & old & _ & Ho & Hr & _) _ Hcount _]. rewrite Ho. cbn [mbind option_bind].
  destruct (m fuel 4); cbn [negb].
  2: { exists (- ENOMEM), h. split; [done|]. split; [done|]. split; [done|]. right. by right. }
  assert (1 ≤ Z.of_nat (length l)).
  { destruct l; [|cbn; lia]. exfalso. apply Hne, (Hcode old Ho). by intros d ?%not_elem_of_nil. }
  destruct (first_capacity_range h l suggest) as [H0 Hb]; [done..|].
  destruct (best_loop_ok m l K fuel h (first_capacity h suggest) old Hm He Ho H0 Hb HK ltac:(lia))
    as (r & h' & E & _ & He' & Hok' & _ & Hcase).
  exists r, h'. split; [done|]. split; [done|]. split; [done|].
  destruct Hcase as [[-> Hnc]|Hr']; [left; split; [by right|done]|by right].
Qed.

(** [hash_walk] calls back once for every entry, numbered from 0, and
    stops at the first call that does not return 0; [hash_destroy] frees
    every entry once. *)
Theorem hash_walk_visits {W} (f : Z → HashData → W → Z * W) h l w :
  entries h l →
  ∃ l' h', l' ≡ₚ l ∧ NoDup (hd_key <$> l') ∧
    hash_walk f h w = Some (let '(r, _, w) := walk_chain f l' 0 w in (r, w)) ∧
    hash_destroy h = Some (l', h') ∧ buckets h' = None.
Proof.
  intros He. destruct (all_buckets_ok h l He) as (bs & E & Hb & Hl).
  exists (concat bs). unfold hash_walk, hash_destroy. rewrite E, Hb. cbn [mbind option_bind].
  eexists. split; [done|]. split; [rewrite Hl; apply (en_keys _ _ He)|].
  rewrite walk_buckets_concat. split; [done|]. split; [done|]. by destruct (is_malloc_capacity _).
Qed.

(** ** Examples *)

Definition sample_malloc (b : Z) : bool := b <? 2 ^ 20.
Definition sample_hash (key : list Z) : Z := fold_left (λ h c, s32 (31 * h + c)) key 0.

Lemma sample_mem_ok : mem_ok sample_malloc.
Proof. intros b Hb%Z.ltb_lt. unfold sizeof_pointer, INT_MAX. lia. Qed.

(** An old value that grows is stored again: the answer is 1. *)
Definition sample_ops : list hash_op :=
  [HInsert (λ _, sample_malloc) [97] 0 [1; 2; 3] 3; HInsert (λ _, sample_malloc) [98] 0 [4] 1;
   HInsert (λ _, sample_malloc) [97] 0 [5; 6; 7; 8] 4; HDelete [98]; HFind [97]; HCount].

Lemma sample_op_ok h op : is_malloc_value h = true → op ∈ sample_ops → op_ok h op.
Proof.
  intros Hm. unfold sample_ops. rewrite !elem_of_cons, elem_of_nil.
  intros [->|[->|[->|[->|[->|[->|[]]]]]]]; try done.
  all: split; [intros _; cbn; lia|rewrite Hm; unfold sizeof_HashData, INT_MAX; cbn; lia].
Qed.

Definition sample_table : HashArray :=
  {| buckets := Some (replicate 3 []); hash_func := sample_hash; item_count := 0; capacity := CapPrime 1;
     load_factor := double_const 75 2; max_bytes := 1024; bytes_used := 24;
     is_malloc_capacity := false; is_malloc_value := true |}.

Lemma sample_table_init :
  hash_init_ex sample_malloc sample_hash 1 (double_const 75 2) 1024 true = Some (0, sample_table).
Proof. reflexivity. Qed.

Lemma sample_ops_ok : Forall (op_ok sample_table) sample_ops.
Proof. apply Forall_forall. intros op. by apply sample_op_ok. Qed.

Lemma hash_table_refines_map_witness :
  ∃ ops1 ops2 resps h' M, sample_ops = ops1 ++ ops2 ∧ hash_run ops1 sample_table = Some (resps, h') ∧
    map_run sample_table ∅ ops1 resps M ∧ match ops2 with [] => True | op :: _ => full h' op end.
Proof.
  exact (hash_table_refines_map sample_malloc sample_hash 1 (double_const 75 2) 1024 true sample_table sample_ops
    sample_table_init sample_ops_ok).
Defined.

(** The answers there. *)
Lemma sample_answers :
  fst <$> hash_run sample_ops sample_table
  = Some [HCode 1; HCode 1; HCode 1; HCode 0; HValue (Some (inr [5; 6; 7; 8])); HCode 1].
Proof. by vm_compute. Qed.

Lemma hash_table_memory_witness :
  ∃ resps h' c' bs, hash_run sample_ops sample_table = Some (resps, h') ∧ buckets h' = Some bs ∧
    cap_value (HashTable.capacity h') = Some c' ∧
    bytes_used h' = sizeof_pointer * c' + total (concat bs) ∧ bytes_used h' ≤ Z.max 1024 (sizeof_pointer * 3).
Proof.
  apply (hash_table_memory sample_malloc sample_hash 1 (double_const 75 2) 1024 true sample_table sample_ops 3
    sample_table_init eq_refl).
  - done.
  - done.
  - exact sample_ops_ok.
Defined.

(** Three entries whose codes 0, 17 and 34 share a bucket of 17. *)
Definition sample_entry (c : Z) : HashData :=
  {| hd_key := [c]; hd_value_len := 0; malloc_value_size := 0; hd_value := VPtr 1 |}.
Definition sample_entries : list HashData := [sample_entry 0; sample_entry 17; sample_entry 34].
Definition sample_crowded : HashArray :=
  {| buckets := Some (sample_entries :: replicate 16 []); hash_func := sample_hash; item_count := 3;
     capacity := CapPrime 2; load_factor := double_const 50 2; max_bytes := 0; bytes_used := 235;
     is_malloc_capacity := false; is_malloc_value := false |}.

Lemma sample_crowded_ok : entries sample_crowded sample_entries.
Proof.
  split.
  - eexists _, 17. split; [done|]. split; [done|]. split; [done|]. split; [|split; [done|done]].
    split; [done|]. intros i chain d Hi Hd. destruct i as [|i].
    + injection Hi as <-. unfold sample_entries in Hd. rewrite !elem_of_cons, elem_of_nil in Hd.
      by destruct Hd as [->|[->|[->|[]]]].
    + exfalso. assert (chain = []) as ->; [|by apply not_elem_of_nil in Hd].
      change (replicate 16 [] !! i = Some chain) in Hi. by apply lookup_replicate in Hi as [-> _].
  - cbn. repeat (apply NoDup_cons; split; [rewrite ?elem_of_cons, elem_of_nil; intuition congruence|]). apply NoDup_nil_2.
  - done.
  - repeat constructor; by eexists.
Qed.

Lemma hash_best_op_terminates_witness :
  ∃ r h', hash_best_op 36 (λ _, sample_malloc) sample_crowded 0 = Some (r, h') ∧ entries h' sample_entries ∧ cap_ok h' ∧
    (((r = 0 ∨ r = 1) ∧ no_conflict h') ∨ r = - ENOSPC ∨ r = - ENOMEM).
Proof.
  apply (hash_best_op_terminates 36 (λ _, sample_malloc) sample_crowded sample_entries 34 0).
  - intros _. exact sample_mem_ok.
  - exact sample_crowded_ok.
  - reflexivity.
  - vm_compute. discriminate.
  - vm_compute. discriminate.
  - intros d Hd. unfold sample_entries in Hd. rewrite !elem_of_cons, elem_of_nil in Hd.
    destruct Hd as [->|[->|[->|[]]]]; vm_compute; discriminate.
  - apply Nat.ltb_lt. reflexivity.
Defined.

Lemma hash_walk_visits_witness :
  ∃ l' h', l' ≡ₚ sample_entries ∧ NoDup (hd_key <$> l') ∧
    hash_walk (λ i d acc, (0, acc ++ [(i, hd_key d)])) sample_crowded []
    = Some (let '(r, _, w) := walk_chain (λ i d acc, (0, acc ++ [(i, hd_key d)])) l' 0 [] in (r, w)) ∧
    hash_destroy sample_crowded = Some (l', h') ∧ buckets h' = None.
Proof. apply (hash_walk_visits _ sample_crowded sample_entries). exact sample_crowded_ok. Defined.
