(* ===== verification/SharedFunc.v ===== *)
(** * common/shared_func.c: byte order, strings, URL encoding, line reading

    Strings that a function rewrites in place are passed and returned as
    values; a function that returns pointers into its argument returns the
    strings they point to when it ends ([splitEx], [split]) or the offsets
    and the rewritten buffer ([my_strtok]).  Separators are not NUL. *)

From S2P Require Import Prelude CLib.
From stdpp Require Import strings.
#[local] Open Scope Z_scope.

(** ** Integers in network byte order *)

Definition int2buff (n : Z) : list Z :=
  [Z.land (Z.shiftr n 24) 255; Z.land (Z.shiftr n 16) 255;
   Z.land (Z.shiftr n 8) 255; Z.land n 255].

(** The first operand is shifted as an [int]; [None] is a buffer of fewer
    than four bytes. *)
Definition buff2int (buff : list Z) : option Z :=
  match buff with
  | b0 :: b1 :: b2 :: b3 :: _ =>
      Some (Z.lor (Z.lor (Z.lor (s32 (Z.shiftl b0 24)) (Z.shiftl b1 16)) (Z.shiftl b2 8)) b3)
  | _ => None
  end.

Definition long2buff (n : Z) : list Z :=
  [Z.land (Z.shiftr n 56) 255; Z.land (Z.shiftr n 48) 255;
   Z.land (Z.shiftr n 40) 255; Z.land (Z.shiftr n 32) 255;
   Z.land (Z.shiftr n 24) 255; Z.land (Z.shiftr n 16) 255;
   Z.land (Z.shiftr n 8) 255; Z.land n 255].

Definition buff2long (buff : list Z) : option Z :=
  match buff with
  | b0 :: b1 :: b2 :: b3 :: b4 :: b5 :: b6 :: b7 :: _ =>
      Some (Z.lor (Z.lor (Z.lor (Z.lor (Z.lor (Z.lor (Z.lor
        (s64 (Z.shiftl b0 56)) (Z.shiftl b1 48)) (Z.shiftl b2 40)) (Z.shiftl b3 32))
        (Z.shiftl b4 24)) (Z.shiftl b5 16)) (Z.shiftl b6 8)) b7)
  | _ => None
  end.

(** ** Characters *)

(** A byte above 127 and the byte after it count as one character. *)
Fixpoint getCharLen (s : list Z) : Z :=
  match s with
  | [] => 0
  | c :: s' =>
      if 127 <? c then
        match s' with
        | [] => 1
        | _ :: s'' => 1 + getCharLen s''
        end
      else 1 + getCharLen s'
  end.

Definition replaceCRLF2Space (s : list Z) : list Z :=
  (λ c, if (c =? CH_CR) || (c =? CH_LF) then CH_SPACE else c) <$> s.

Definition toLowercase (src : list Z) : list Z :=
  (λ c, if is_upper c then c + 32 else c) <$> src.

Definition toUppercase (src : list Z) : list Z :=
  (λ c, if is_lower c then c - 32 else c) <$> src.

(** ** Hexadecimal *)

Fixpoint bin2hex (s : list Z) : list Z :=
  match s with
  | [] => []
  | c :: s' => sprintf_02x c ++ bin2hex s'
  end.

(** [nSrcLen / 2] bytes; the last of an odd number of digits is dropped. *)
Fixpoint hex2bin (s : list Z) : list Z :=
  match s with
  | c0 :: c1 :: s' => u8 (strtol 16 [c0; c1]).1 :: hex2bin s'
  | _ => []
  end.

(** ** Trimming *)

Definition is_blank (c : Z) : bool :=
  (c =? CH_SPACE) || (c =? CH_LF) || (c =? CH_CR) || (c =? CH_TAB).

Fixpoint trim_left (pStr : list Z) : list Z :=
  match pStr with
  | [] => []
  | c :: p => if negb (is_blank c) then pStr else trim_left p
  end.

(** The scan from the last character to the first. *)
Fixpoint trim_right (pStr : list Z) : list Z :=
  match pStr with
  | [] => []
  | c :: p =>
      match trim_right p with
      | [] => if negb (is_blank c) then [c] else []
      | r => c :: r
      end
  end.

Definition trim (pStr : list Z) : list Z := trim_left (trim_right pStr).

(** ** Columns *)

(** The characters before the suffix [r] of [p]. *)
Definition before (p r : list Z) : list Z := take (length p - length r) p.

Fixpoint getOccurCount_loop (fuel : nat) (p : option (list Z)) (seperator count : Z) : Z :=
  match p, fuel with
  | Some (_ :: p1), S fuel => getOccurCount_loop fuel (strchr p1 seperator) seperator (count + 1)
  | _, _ => count
  end.

Definition getOccurCount (src : list Z) (seperator : Z) : Z :=
  getOccurCount_loop (length src) (strchr src seperator) seperator 0.

(** [room] columns may still be stored. *)
Fixpoint splitEx_loop (room : nat) (p : list Z) (seperator : Z) : list (list Z) :=
  match room with
  | O => []
  | S room =>
      if (room =? 0)%nat then [p]
      else
        match strchr p seperator with
        | None => [p]
        | Some r => before p r :: splitEx_loop room (tail r) seperator
        end
  end.

Definition splitEx (src : list Z) (seperator nMaxCols : Z) : list (list Z) :=
  if nMaxCols <=? 0 then [] else splitEx_loop (Z.to_nat nMaxCols) src seperator.

(** The loop of [split] over the [n] columns it has counted; [None] is the
    store through a NULL [p]. *)
Fixpoint split_loop (n : nat) (p : list Z) (seperator : Z) : option (list (list Z)) :=
  match n with
  | O => Some []
  | S n =>
      if (n =? 0)%nat then Some [p]
      else
        match strchr p seperator with
        | None => None
        | Some r =>
            match split_loop n (tail r) seperator with
            | Some cols => Some (before p r :: cols)
            | None => None
            end
        end
  end.

(** [src = None] is NULL; the result is the columns ([None] inside is NULL,
    when [malloc_ok] is false) and [*nColCount]. *)
Definition split (src : option (list Z)) (seperator nMaxCols : Z) (malloc_ok : bool)
    : option (option (list (list Z)) * Z) :=
  match src with
  | None => Some (None, 0)
  | Some src =>
      let n := 1 + getOccurCount src seperator in
      let nColCount := if (0 <? nMaxCols) && (nMaxCols <? n) then nMaxCols else n in
      if negb malloc_ok then Some (None, nColCount)
      else
        match split_loop (Z.to_nat nColCount) src seperator with
        | Some cols => Some (Some cols, nColCount)
        | None => None
        end
  end.

(** [strchr(delim, c) != NULL] *)
Definition in_delim (delim : list Z) (c : Z) : bool :=
  match strchr delim c with Some _ => true | None => false end.

(** The second loop of [my_strtok], at offset [i] of the string: the
    offsets of the words found from here and the rest of the buffer. *)
Fixpoint my_strtok_loop (delim : list Z) (nMaxCols : Z) (p : list Z) (i : nat)
    (count : Z) (bWordEnd : bool) : list nat * list Z :=
  match p with
  | [] => ([], [])
  | c :: p' =>
      if in_delim delim c then
        let '(cols, b) := my_strtok_loop delim nMaxCols p' (S i) count true in
        (cols, 0 :: b)
      else if bWordEnd then
        if count + 1 >=? nMaxCols then ([i], p)
        else
          let '(cols, b) := my_strtok_loop delim nMaxCols p' (S i) (count + 1) false in
          (i :: cols, c :: b)
      else
        let '(cols, b) := my_strtok_loop delim nMaxCols p' (S i) count bWordEnd in
        (cols, c :: b)
  end.

(** The leading delimiters. *)
Fixpoint skip_delim (delim p : list Z) : list Z :=
  match p with
  | [] => []
  | c :: p' => if in_delim delim c then skip_delim delim p' else p
  end.

(** The return value, the offsets of the columns and the buffer;
    [src = None] is NULL. *)
Definition my_strtok (src : option (list Z)) (delim : list Z) (nMaxCols : Z)
    : Z * list nat * list Z :=
  match src with
  | None => (-1, [], [])
  | Some src =>
      if nMaxCols <=? 0 then (0, [], src)
      else
        let p := skip_delim delim src in
        let head := before src p in
        match p with
        | [] => (0, [], src)
        | _ =>
            if 1 >=? nMaxCols then (1, [length head], src)
            else
              let '(cols, b) := my_strtok_loop delim nMaxCols p (length head) 1 false in
              (1 + Z.of_nat (length cols), length head :: cols, head ++ b)
        end
  end.

(** The C string at an offset of a buffer. *)
Fixpoint c_string (b : list Z) : list Z :=
  match b with
  | [] => []
  | c :: b' => if c =? 0 then [] else c :: c_string b'
  end.

Definition c_string_at (b : list Z) (i : nat) : list Z := c_string (drop i b).

(** ** Replacing *)

(** Copies at most [remain_len] bytes: the two branches of each copy.
    The result is the bytes written and whether there is room left. *)
Definition copy_to (src : list Z) (remain_len : Z) : list Z * bool :=
  if Z.of_nat (length src) <? remain_len then (src, true)
  else (take (Z.to_nat remain_len) src, false).

(** The loop from [pStart]; [src_left] is [pEnd - pStart]. *)
Fixpoint str_replace_loop (fuel : nat) (pStart : list Z) (src_left : Z)
    (replaced new_str : list Z) (remain_len : Z) : list Z :=
  match fuel, strstr pStart replaced with
  | S fuel, Some p =>
      let pre := before pStart p in
      let '(w1, room1) :=
        if 0 <? Z.of_nat (length pre) then copy_to pre remain_len else ([], true) in
      if negb room1 then w1
      else
        let remain_len := remain_len - Z.of_nat (length w1) in
        let '(w2, room2) := copy_to new_str remain_len in
        if negb room2 then w1 ++ w2
        else
          w1 ++ w2 ++
          str_replace_loop fuel (drop (length replaced) p)
            (src_left - Z.of_nat (length pre) - Z.of_nat (length replaced))
            replaced new_str (remain_len - Z.of_nat (length w2))
  | _, _ =>
      if 0 <? src_left then take (Z.to_nat (Z.min src_left remain_len)) pStart else []
  end.

(** The string left in [dest]; its length is the return value. *)
Definition str_replace (s : list Z) (src_len : Z) (replaced new_str : list Z)
    (dest_size : Z) : list Z :=
  if dest_size <=? 0 then []
  else
    let max_dest_len := dest_size - 1 in
    match replaced with
    | [] => take (Z.to_nat (if src_len <? max_dest_len then src_len else max_dest_len)) s
    | _ => str_replace_loop (S (length s)) s src_len replaced new_str max_dest_len
    end.

(** ** Paths *)

Fixpoint chopPath (filePath : list Z) : list Z :=
  match filePath with
  | [] => []
  | [c] => if c =? CH_SLASH then [] else [c]
  | c :: p => c :: chopPath p
  end.

(** [len] is [strlen(filename)] at every call. *)
Definition is_filename_secure (filename : list Z) (len : Z) : bool :=
  if len <? 3 then true
  else if memcmp (take 3 filename) (bytes "../") =? 0 then false
  else
    match strstr filename (bytes "/../") with
    | None => true
    | Some _ => false
    end.

(** ** Configuration values *)

Definition first_is (s : list Z) (c1 c2 : Z) : bool :=
  match s with
  | c :: _ => (c =? c1) || (c =? c2)
  | [] => false
  end.

(** The return code and [*bytes] ([long] arithmetic wraps). *)
Definition parse_bytes (pStr : list Z) (default_unit_bytes : Z) : Z * Z :=
  let '(bytes, pReservedEnd) := strtol 10 pStr in
  if bytes <? 0 then (EINVAL, bytes)
  else
    match pReservedEnd with
    | [] => (0, s64 (bytes * default_unit_bytes))
    | _ =>
        if first_is pReservedEnd 71 103 then (0, s64 (bytes * (1024 * 1024 * 1024)))
        else if first_is pReservedEnd 77 109 then (0, s64 (bytes * (1024 * 1024)))
        else if first_is pReservedEnd 75 107 then (0, s64 (bytes * 1024))
        else (0, bytes)
    end.

Definition LOG_EMERG : Z := 0.
Definition LOG_ALERT : Z := 1.
Definition LOG_CRIT : Z := 2.
Definition LOG_ERR : Z := 3.
Definition LOG_WARNING : Z := 4.
Definition LOG_NOTICE : Z := 5.
Definition LOG_INFO : Z := 6.
Definition LOG_DEBUG : Z := 7.

(** [strncmp(s, prefix, strlen(prefix)) == 0 || strcmp(s, name) == 0] *)
Definition level_is (s : list Z) (prefix name : string) : bool :=
  is_prefix (bytes prefix) s || bool_decide (s = bytes name).

(** The new value of [g_log_context.log_level]. *)
Definition set_log_level (pLogLevel : option (list Z)) (log_level : Z) : Z :=
  match pLogLevel with
  | None => log_level
  | Some s =>
      let s := toUppercase s in
      if level_is s "DEBUG" "LOG_DEBUG" then LOG_DEBUG
      else if level_is s "INFO" "LOG_INFO" then LOG_INFO
      else if level_is s "NOTICE" "LOG_NOTICE" then LOG_NOTICE
      else if level_is s "WARN" "LOG_WARNING" then LOG_WARNING
      else if level_is s "ERR" "LOG_ERR" then LOG_ERR
      else if level_is s "CRIT" "LOG_CRIT" then LOG_CRIT
      else if level_is s "ALERT" "LOG_ALERT" then LOG_ALERT
      else if level_is s "EMERG" "LOG_EMERG" then LOG_EMERG
      else log_level
  end.

(** ** URL encoding *)

Definition hex_chars (i : Z) : Z := nth (Z.to_nat i) (bytes "0123456789ABCDEF") 0.

Definition url_plain (c : Z) : bool :=
  is_digit c || is_lower c || is_upper c || ((c =? 95) || (c =? CH_MINUS) || (c =? CH_DOT)).

Fixpoint urlencode (src : list Z) : list Z :=
  match src with
  | [] => []
  | c :: src' =>
      if url_plain c then c :: urlencode src'
      else if c =? CH_SPACE then CH_PLUS :: urlencode src'
      else 37 :: hex_chars (Z.shiftr c 4) :: hex_chars (Z.land c 15) :: urlencode src'
  end.

Definition IS_HEX_CHAR (ch : Z) : bool := char_in 48 ch 57 || char_in 97 ch 102 || char_in 65 ch 70.

Definition HEX_VALUE (ch : Z) : Z :=
  if char_in 48 ch 57 then ch - 48
  else if char_in 97 ch 102 then ch - 97 + 10
  else ch - 65 + 10.

Fixpoint urldecode (src : list Z) : list Z :=
  match src with
  | [] => []
  | c :: src1 =>
      let other := if c =? CH_PLUS then CH_SPACE else c in
      match src1 with
      | cHigh :: cLow :: src3 =>
          if c =? 37 then
            if IS_HEX_CHAR cHigh && IS_HEX_CHAR cLow then
              Z.lor (Z.shiftl (HEX_VALUE cHigh) 4) (HEX_VALUE cLow) :: urldecode src3
            else c :: urldecode src1
          else other :: urldecode src1
      | _ => other :: urldecode src1
      end
  end.

(** ** Growing buffers *)

Record BufferInfo := {
  buff : option (list Z); (* NULL or the bytes stored in the block *)
  alloc_size : Z;
  buff_length : Z;
}.

(** The common part of [buffer_strcpy] and [buffer_memcpy]: make room for
    [length] bytes, allocating [new_size] when there is not enough. *)
Definition buffer_room (malloc_ok : bool) (errno : Z) (pBuff : BufferInfo)
    (length new_size : Z) : Z * BufferInfo :=
  if alloc_size pBuff <=? length then
    if malloc_ok then
      (0, {| buff := Some []; alloc_size := new_size; buff_length := length |})
    else
      (if c_true errno then errno else ENOMEM,
       {| buff := None; alloc_size := 0; buff_length := length |})
  else (0, {| buff := buff pBuff; alloc_size := alloc_size pBuff; buff_length := length |}).

Definition buffer_fill (r : Z * BufferInfo) (data : list Z) : Z * BufferInfo :=
  let '(result, b) := r in
  if c_true result then (result, b)
  else (0, {| buff := Some data; alloc_size := alloc_size b; buff_length := buff_length b |}).

(** The terminating NUL is copied too. *)
Definition buffer_strcpy (malloc_ok : bool) (errno : Z) (pBuff : BufferInfo) (str : list Z)
    : Z * BufferInfo :=
  let len := Z.of_nat (length str) in
  buffer_fill (buffer_room malloc_ok errno pBuff len (len + 1)) (str ++ [0]).

Definition buffer_memcpy (malloc_ok : bool) (errno : Z) (pBuff : BufferInfo) (data : list Z)
    : Z * BufferInfo :=
  let len := Z.of_nat (length data) in
  buffer_fill (buffer_room malloc_ok errno pBuff len len) data.

(** ** Reading a line from a file

    [read] may return fewer bytes than asked for: how many is given by
    [read_bytes], a function of what is left of the file and of the size
    asked for; a negative value is an error.  [lseek_ok] is the outcome of
    the [lseek] back to the first unread character. *)
Section fd_gets.
Variable read_bytes : list Z → Z → Z.
Variable lseek_ok : bool.

(** The return value, the bytes stored and what is left of the file. *)
Fixpoint fd_gets_loop (fuel : nat) (file : list Z) (pDest : list Z) (remain_bytes once_bytes : Z)
    : option (Z * list Z * list Z) :=
  let finish pDest file := Some (Z.of_nat (length pDest), pDest, file) in
  if remain_bytes <=? 0 then finish pDest file
  else
    match fuel with
    | O => None
    | S fuel =>
        let once_bytes := if remain_bytes <? once_bytes then remain_bytes else once_bytes in
        let n := read_bytes file once_bytes in
        if n <? 0 then Some (-1, pDest, file)
        else if n =? 0 then finish pDest file
        else
          let got := take (Z.to_nat n) file in
          match strchr got CH_LF with
          | Some p =>
              if lseek_ok then
                let line := before got p ++ [CH_LF] in
                finish (pDest ++ line) (drop (length line) file)
              else Some (-1, pDest, drop (Z.to_nat n) file)
          | None =>
              fd_gets_loop fuel (drop (Z.to_nat n) file) (pDest ++ got)
                (remain_bytes - n) once_bytes
          end
    end.

Definition fd_gets (file : list Z) (size once_bytes : Z) : option (Z * list Z * list Z) :=
  fd_gets_loop (Z.to_nat size) file [] (size - 1) (if once_bytes <=? 0 then 1 else once_bytes).
End fd_gets.

(** * Lemmas *)

(** ** strchr and strstr *)

(** A C string holds no NUL. *)
Definition no_nul (s : list Z) : Prop := 0 ∉ s.

Lemma strchr_None s c : strchr s c = None ↔ c ∉ s.
Proof.
  induction s as [|x s IH]; cbn; [split; [by intros _ ?%not_elem_of_nil|done]|].
  rewrite not_elem_of_cons, <- IH. destruct (Z.eqb_spec x c) as [->|]; naive_solver.
Qed.

Lemma strchr_Some s c r :
  strchr s c = Some r ↔ ∃ a b, s = a ++ c :: b ∧ c ∉ a ∧ r = c :: b.
Proof.
  split.
  - revert r. induction s as [|x s IH]; intros r; cbn; [done|].
    destruct (Z.eqb_spec x c) as [->|]; intros Hr.
    + injection Hr as <-. exists [], s. split; [done|]. split; [apply not_elem_of_nil|done].
    + destruct (IH _ Hr) as (a & b & -> & Ha & ->). exists (x :: a), b.
      split; [done|]. split; [rewrite not_elem_of_cons; naive_solver|done].
  - intros (a & b & -> & Ha & ->). induction a as [|x a IH]; cbn.
    + by rewrite Z.eqb_refl.
    + apply not_elem_of_cons in Ha as [Hx Ha].
      destruct (Z.eqb_spec x c) as [->|]; [done|]. by apply IH.
Qed.

Lemma before_app a b : before (a ++ b) b = a.
Proof. unfold before. rewrite length_app, take_app_length'; [done|lia]. Qed.

Lemma is_prefix_spec p s : is_prefix p s = true ↔ ∃ r, s = p ++ r.
Proof.
  revert s. induction p as [|x p IH]; intros s; cbn; [naive_solver|].
  destruct s as [|y s]; [split; [done|by intros [? ?]]|].
  rewrite andb_true_iff, Z.eqb_eq, IH. naive_solver.
Qed.

(** The first occurrence. *)
Lemma strstr_Some s p r :
  strstr s p = Some r → ∃ a b, s = a ++ r ∧ r = p ++ b ∧
    ∀ a' b', s = a' ++ p ++ b' → (length a ≤ length a')%nat.
Proof.
  revert r. induction s as [|x s IH]; intros r; cbn [strstr];
    destruct (is_prefix p _) eqn:Hp; intros Hr.
  1,3: injection Hr as <-; apply is_prefix_spec in Hp as [b Hb];
       exists [], b; split_and!; [done|done|cbn; lia].
  - done.
  - destruct (IH _ Hr) as (a & b & -> & -> & Hmin). exists (x :: a), b.
    split_and!; [done|done|]. intros [|y a'] b' E.
    + exfalso. enough (is_prefix p (x :: a ++ p ++ b) = true) by congruence.
      apply is_prefix_spec. by exists b'.
    + injection E as <- E. apply Hmin in E. cbn. lia.
Qed.

Lemma strstr_None s p : strstr s p = None ↔ ∀ a b, s ≠ (a ++ p ++ b).
Proof.
  split.
  - induction s as [|x s IH]; cbn [strstr]; destruct (is_prefix p _) eqn:Hp; try done.
    + intros _ [|] b E; [|done]. cbn in E. rewrite E in Hp.
      enough (is_prefix p (p ++ b) = true) by congruence. apply is_prefix_spec. by exists b.
    + intros Hr [|y a] b E.
      * cbn in E. rewrite E in Hp.
        enough (is_prefix p (p ++ b) = true) by congruence. apply is_prefix_spec. by exists b.
      * injection E as <- E. by eapply IH.
  - intros Hn. destruct (strstr s p) as [r|] eqn:E; [|done].
    apply strstr_Some in E as (a & b & -> & -> & _). by destruct (Hn a b).
Qed.

(** ** Integers in network byte order *)

Lemma buff2int_value b0 b1 b2 b3 r :
  Forall is_byte [b0; b1; b2; b3] →
  buff2int (b0 :: b1 :: b2 :: b3 :: r) = Some (s32 (be_value [b0; b1; b2; b3])).
Proof.
  rewrite !Forall_cons. intros (H0 & H1 & H2 & H3 & _).
  unfold buff2int. f_equal. rewrite !Z.shiftl_mul_pow2 by lia. unfold is_byte in *.
  destruct (s32_cong (b0 * 2 ^ 24)) as [q Hq].
  rewrite (lor_low 24 (s32 _)), (lor_low 16 (_ + _)), (lor_low 8 (_ + _)) by dlia.
  unfold s32, be_value in *. cbn [fold_left].
  dlia.
Qed.

Lemma int2buff_value n : be_value (int2buff n) = u32 n.
Proof.
  unfold int2buff, be_value, u32. rewrite !land_255, !Z.shiftr_div_pow2 by lia. cbn [fold_left].
  dlia.
Qed.

Lemma buff2long_value b0 b1 b2 b3 b4 b5 b6 b7 r :
  Forall is_byte [b0; b1; b2; b3; b4; b5; b6; b7] →
  buff2long (b0 :: b1 :: b2 :: b3 :: b4 :: b5 :: b6 :: b7 :: r)
  = Some (s64 (be_value [b0; b1; b2; b3; b4; b5; b6; b7])).
Proof.
  rewrite !Forall_cons. intros (H0 & H1 & H2 & H3 & H4 & H5 & H6 & H7 & _).
  unfold buff2long. f_equal. rewrite !Z.shiftl_mul_pow2 by lia. unfold is_byte in *.
  destruct (s64_cong (b0 * 2 ^ 56)) as [q Hq].
  rewrite (lor_low 56 (s64 _)), (lor_low 48 (_ + _)), (lor_low 40 (_ + _)),
    (lor_low 32 (_ + _)), (lor_low 24 (_ + _)), (lor_low 16 (_ + _)), (lor_low 8 (_ + _)) by dlia.
  unfold s64, be_value in *. cbn [fold_left].
  dlia.
Qed.

Lemma long2buff_value n : be_value (long2buff n) = n mod 2 ^ 64.
Proof.
  unfold long2buff, be_value. rewrite !land_255, !Z.shiftr_div_pow2 by lia. cbn [fold_left].
  dlia.
Qed.
Lemma int2buff_bytes n : Forall is_byte (int2buff n).
Proof. unfold int2buff, is_byte. rewrite !land_255. repeat constructor; apply Z.mod_pos_bound; lia. Qed.
Lemma long2buff_bytes n : Forall is_byte (long2buff n).
Proof. unfold long2buff, is_byte. rewrite !land_255. repeat constructor; apply Z.mod_pos_bound; lia. Qed.

(** The network byte order conversions are inverse bijections between
    the 32-bit (64-bit) integers and the buffers of four (eight) bytes:
    [buff2int] reads back what [int2buff] wrote, whatever follows it, and
    [int2buff] rewrites the bytes [buff2int] read; negative integers
    included.  Likewise for [long2buff] and [buff2long]. *)
Theorem int2buff_roundtrip :
  (∀ n r, is_int32 n → buff2int (int2buff n ++ r) = Some n) ∧
  (∀ b n, length b = 4%nat → Forall is_byte b → buff2int b = Some n →
     is_int32 n ∧ int2buff n = b) ∧
  (∀ n r, is_int64 n → buff2long (long2buff n ++ r) = Some n) ∧
  (∀ b n, length b = 8%nat → Forall is_byte b → buff2long b = Some n →
     is_int64 n ∧ long2buff n = b).
Proof.
  split_and!.
  - intros n r Hn. rewrite <- (s32_id n) at 2 by done. rewrite <- s32_u32, <- int2buff_value.
    apply (buff2int_value _ _ _ _ r), int2buff_bytes.
  - intros b n Hl Hb. destruct b as [|b0 [|b1 [|b2 [|b3 [|]]]]]; try done.
    rewrite buff2int_value by done. intros [= <-]. split; [apply s32_range|].
    apply be_value_inj; [done|apply int2buff_bytes|done|].
    rewrite int2buff_value. pose proof (be_value_bound _ Hb) as B. cbn [length] in B.
    unfold u32, s32. revert B. generalize (be_value [b0; b1; b2; b3]). intros. dlia.
  - intros n r Hn. rewrite <- (s64_id n) at 2 by done. rewrite <- s64_mod64, <- long2buff_value.
    apply (buff2long_value _ _ _ _ _ _ _ _ r), long2buff_bytes.
  - intros b n Hl Hb. destruct b as [|b0 [|b1 [|b2 [|b3 [|b4 [|b5 [|b6 [|b7 [|]]]]]]]]]; try done.
    rewrite buff2long_value by done. intros [= <-]. split; [apply s64_range|].
    apply be_value_inj; [done|apply long2buff_bytes|done|].
    rewrite long2buff_value, s64_mod. pose proof (be_value_bound _ Hb) as B.
    cbn [length] in B. apply Z.mod_small. exact B.
Qed.

Lemma int2buff_roundtrip_witness :
  buff2int (int2buff (-2) ++ []) = Some (-2) ∧ int2buff (-2) = [255; 255; 255; 254] ∧
  buff2long (long2buff (2 ^ 40) ++ [7]) = Some (2 ^ 40).
Proof.
  destruct int2buff_roundtrip as (H1 & H2 & H3 & _). split_and!.
  - apply H1. done.
  - apply (H2 [255; 255; 255; 254] (-2)); [done|repeat constructor; done|reflexivity].
  - apply H3. done.
Defined.

(** ** Hexadecimal and URL encoding *)

(** [hex2bin] restores the bytes [bin2hex] wrote, which are two
    lower-case digits each. *)
Theorem hex2bin_bin2hex s :
  Forall is_byte s → hex2bin (bin2hex s) = s ∧ length (bin2hex s) = (2 * length s)%nat.
Proof.
  assert (Hc : ∀ c, 0 ≤ c < 256 → match sprintf_02x c with
     [c0; c1] => u8 (strtol 16 [c0; c1]).1 = c | _ => False end).
  { intros c Hc. all_below 256 c. }
  induction 1 as [|c s Hb _ [IH1 IH2]]; [done|]. specialize (Hc c Hb). cbn [bin2hex].
  destruct (sprintf_02x c) as [|c0 [|c1 [|]]]; try done.
  cbn [app hex2bin length]. rewrite Hc, IH1, IH2. split; [done|lia].
Qed.

Lemma hex2bin_bin2hex_witness :
  Forall is_byte [0; 171; 255] ∧ hex2bin (bin2hex [0; 171; 255]) = [0; 171; 255].
Proof.
  assert (Forall is_byte [0; 171; 255]) as H by (repeat constructor; done).
  split; [exact H|]. apply (hex2bin_bin2hex [0; 171; 255] H).
Defined.

Lemma urldecode_step c s r : 0 ≤ c < 256 →
  urldecode s = r → urldecode (urlencode [c] ++ s) = c :: r.
Proof.
  intros Hc <-. cbn [urlencode].
  destruct (url_plain c) eqn:Hp.
  - cbn [app urldecode].
    assert (c ≠ 37 ∧ c ≠ CH_PLUS) as [H1 H2] by (split; intros ->; done).
    rewrite (proj2 (Z.eqb_neq c 37) H1), (proj2 (Z.eqb_neq c CH_PLUS) H2).
    by destruct s as [|x [|y s]].
  - destruct (Z.eqb_spec c CH_SPACE) as [->|Hs].
    + cbn [app urldecode]. change (CH_PLUS =? 37) with false.
      change (CH_PLUS =? CH_PLUS) with true. by destruct s as [|x [|y s]].
    + cbn [app urldecode]. change (37 =? 37) with true. cbv iota.
      assert (IS_HEX_CHAR (hex_chars (Z.shiftr c 4)) && IS_HEX_CHAR (hex_chars (Z.land c 15)) = true)
        as -> by (clear -Hc; all_below 256 c).
      f_equal. clear -Hc. all_below 256 c.
Qed.

(** [urldecode] restores every byte string that [urlencode] wrote, and
    the encoded string consists of unreserved characters, '+' and
    percent escapes only. *)
Theorem urldecode_urlencode src :
  Forall is_byte src →
  urldecode (urlencode src) = src ∧
  Forall (λ c, url_plain c = true ∨ c = CH_PLUS ∨ c = 37) (urlencode src).
Proof.
  intros H. split.
  - induction H as [|c src Hc _ IH]; [done|].
    replace (urlencode (c :: src)) with (urlencode [c] ++ urlencode src).
    + by apply urldecode_step.
    + cbn [urlencode]. destruct (url_plain c); [done|]. by destruct (c =? CH_SPACE).
  - induction H as [|c src Hc _ IH]; [constructor|]. cbn [urlencode].
    destruct (url_plain c) eqn:E; [constructor; [by left|done]|].
    destruct (c =? CH_SPACE); [constructor; [by right; left|done]|].
    constructor; [by right; right|].
    constructor; [left; clear -Hc; unfold is_byte in Hc; all_below 256 c|].
    constructor; [left; clear -Hc; unfold is_byte in Hc; all_below 256 c|done].
Qed.

Lemma urldecode_urlencode_witness :
  Forall is_byte (bytes "a b%c") ∧ urldecode (urlencode (bytes "a b%c")) = bytes "a b%c".
Proof.
  assert (Forall is_byte (bytes "a b%c")) as H by (repeat constructor; done).
  split; [exact H|]. apply (urldecode_urlencode (bytes "a b%c") H).
Defined.

(** ** Columns *)

(** The columns [cols] joined by the separator. *)
Fixpoint intercalate (sep : Z) (cols : list (list Z)) : list Z :=
  match cols with
  | [] => []
  | [c] => c
  | c :: cols => c ++ sep :: intercalate sep cols
  end.

(** The number of occurrences of [sep]. *)
Definition occurrences (sep : Z) (s : list Z) : Z := Z.of_nat (count_occ Z.eq_dec s sep).

Lemma occurrences_nonneg sep s : 0 ≤ occurrences sep s.
Proof. unfold occurrences. lia. Qed.

Lemma occurrences_None sep s : strchr s sep = None → occurrences sep s = 0.
Proof.
  rewrite strchr_None. unfold occurrences. rewrite list_elem_of_In.
  intros H. apply (count_occ_not_In Z.eq_dec) in H. lia.
Qed.

Lemma occurrences_Some sep a b :
  sep ∉ a → occurrences sep (a ++ sep :: b) = 1 + occurrences sep b.
Proof.
  intros Ha. unfold occurrences. rewrite count_occ_app.
  rewrite list_elem_of_In in Ha. apply (count_occ_not_In Z.eq_dec) in Ha.
  rewrite Ha, count_occ_cons_eq by done. lia.
Qed.

Lemma getOccurCount_loop_spec sep fuel p count :
  (length p ≤ fuel)%nat →
  getOccurCount_loop fuel (strchr p sep) sep count = count + occurrences sep p.
Proof.
  revert p count. induction fuel as [|fuel IH]; intros p count Hf.
  - destruct p; [cbn; unfold occurrences; cbn; lia|cbn in Hf; lia].
  - destruct (strchr p sep) as [r|] eqn:E.
    + apply strchr_Some in E as (a & b & -> & Ha & ->). cbn [getOccurCount_loop].
      rewrite length_app in Hf. cbn in Hf.
      rewrite IH, occurrences_Some by (done || lia). lia.
    + rewrite (occurrences_None _ _ E). cbn. lia.
Qed.

Lemma getOccurCount_spec src sep : getOccurCount src sep = occurrences sep src.
Proof. unfold getOccurCount. rewrite getOccurCount_loop_spec by done. lia. Qed.

Lemma splitEx_loop_spec n p sep :
  (0 < n)%nat →
  let cols := splitEx_loop n p sep in
  intercalate sep cols = p ∧
  Z.of_nat (length cols) = Z.min (Z.of_nat n) (1 + occurrences sep p) ∧
  ∃ init last, cols = init ++ [last] ∧ Forall (λ c, sep ∉ c) init ∧
    ((length cols < n)%nat → sep ∉ last).
Proof.
  revert p. induction n as [|n IH]; intros p Hn; [lia|]. cbn [splitEx_loop]. cbv zeta.
  pose proof (occurrences_nonneg sep p) as Hp.
  destruct (Nat.eqb_spec n 0) as [->|Hn0].
  { cbn. split_and!; [done|lia|]. exists [], p. split_and!; [done|constructor|cbn; lia]. }
  destruct (strchr p sep) as [r|] eqn:E.
  - apply strchr_Some in E as (a & b & -> & Ha & ->). cbn [tail].
    destruct (IH b) as (IH1 & IH2 & init & last & IH3 & IH4 & IH5); [lia|].
    rewrite before_app, occurrences_Some by done. split_and!.
    + rewrite <- IH1 at 2. rewrite IH3. by destruct init.
    + cbn [length]. pose proof (occurrences_nonneg sep b). lia.
    + exists (a :: init), last. rewrite IH3. split_and!; [done|by constructor|].
      rewrite IH3 in IH5. cbn. intros. apply IH5. lia.
  - rewrite (occurrences_None _ _ E). cbn. split_and!; [done|lia|].
    exists [], p. split_and!; [done|constructor|]. intros _. by apply strchr_None.
Qed.

(** [splitEx] cuts its argument at separators: joining the columns with
    the separator gives it back; there are as many columns as separators
    plus one, but at most [nMaxCols]; only the last column can hold a
    separator, and only when the limit was reached. *)
Theorem splitEx_columns src sep nMaxCols :
  0 < nMaxCols →
  let cols := splitEx src sep nMaxCols in
  intercalate sep cols = src ∧
  Z.of_nat (length cols) = Z.min nMaxCols (1 + occurrences sep src) ∧
  ∃ init last, cols = init ++ [last] ∧ Forall (λ c, sep ∉ c) init ∧
    (Z.of_nat (length cols) < nMaxCols → sep ∉ last).
Proof.
  intros Hn. unfold splitEx. replace (nMaxCols <=? 0) with false by lia. cbv zeta.
  destruct (splitEx_loop_spec (Z.to_nat nMaxCols) src sep) as (H1 & H2 & init & last & H3 & H4 & H5);
    [lia|].
  split_and!; [done|lia|]. exists init, last. split_and!; [done..|]. intros. apply H5. lia.
Qed.

Lemma splitEx_columns_witness :
  splitEx (bytes "a b c") 32 2 = [bytes "a"; bytes "b c"] ∧
  intercalate 32 (splitEx (bytes "a b c") 32 2) = bytes "a b c".
Proof.
  split; [reflexivity|]. apply (splitEx_columns (bytes "a b c") 32 2). lia.
Defined.

Lemma split_loop_splitEx n p sep :
  (0 < n)%nat → Z.of_nat n ≤ 1 + occurrences sep p →
  split_loop n p sep = Some (splitEx_loop n p sep).
Proof.
  revert p. induction n as [|n IH]; intros p Hn Ho; [lia|]. cbn [split_loop splitEx_loop].
  destruct (Nat.eqb_spec n 0) as [->|Hn0]; [done|].
  destruct (strchr p sep) as [r|] eqn:E.
  - apply strchr_Some in E as (a & b & -> & Ha & ->). cbn [tail].
    rewrite occurrences_Some in Ho by done. by rewrite (IH b) by lia.
  - rewrite (occurrences_None _ _ E) in Ho. lia.
Qed.

(** Room for more columns than there are changes nothing. *)
Lemma splitEx_loop_more k m src sep :
  Z.of_nat k = 1 + occurrences sep src → (k ≤ m)%nat →
  splitEx_loop k src sep = splitEx_loop m src sep.
Proof.
  revert src k. induction m as [|m IH]; intros src [|k] Hk Hkl;
    pose proof (occurrences_nonneg sep src) as Ho; try lia.
  cbn [splitEx_loop]. destruct (strchr src sep) as [r|] eqn:E.
  - apply strchr_Some in E as (a & b & -> & Ha & ->). cbn [tail].
    rewrite occurrences_Some in Hk by done. pose proof (occurrences_nonneg sep b).
    rewrite (proj2 (Nat.eqb_neq k 0)), (proj2 (Nat.eqb_neq m 0)) by lia.
    f_equal. apply IH; lia.
  - by destruct (k =? 0)%nat, (m =? 0)%nat.
Qed.

(** [split] never follows a NULL pointer, and its columns are those of
    [splitEx] with the same limit, or with room for every column when
    [nMaxCols] is not positive; [*nColCount] is their number. *)
Theorem split_splitEx src sep nMaxCols :
  let limit := if 0 <? nMaxCols then nMaxCols else 1 + occurrences sep src in
  let cols := splitEx src sep limit in
  split (Some src) sep nMaxCols true = Some (Some cols, Z.of_nat (length cols)).
Proof.
  cbv zeta. unfold split. cbn [negb]. rewrite getOccurCount_spec.
  pose proof (occurrences_nonneg sep src) as Ho.
  set (limit := if 0 <? nMaxCols then nMaxCols else 1 + occurrences sep src).
  set (n := if (0 <? nMaxCols) && (nMaxCols <? 1 + occurrences sep src) then nMaxCols
            else 1 + occurrences sep src).
  assert (n = Z.min limit (1 + occurrences sep src) ∧ 0 < limit) as [Hn Hl].
  { unfold n, limit. destruct (Z.ltb_spec 0 nMaxCols); cbn [andb];
      [destruct (Z.ltb_spec nMaxCols (1 + occurrences sep src))|]; lia. }
  rewrite split_loop_splitEx by lia.
  unfold splitEx. replace (limit <=? 0) with false by lia.
  assert (splitEx_loop (Z.to_nat n) src sep = splitEx_loop (Z.to_nat limit) src sep) as ->.
  { destruct (Z.le_gt_cases limit (1 + occurrences sep src)) as [Hle|Hgt];
      [by replace n with limit by lia|].
    apply splitEx_loop_more; lia. }
  destruct (splitEx_loop_spec (Z.to_nat limit) src sep) as (_ & -> & _); [lia|].
  do 2 f_equal. lia.
Qed.

(** ** Words *)

(** The leading characters that are not delimiters, and the rest. *)
Fixpoint word_run (delim p : list Z) : list Z :=
  match p with
  | [] => []
  | c :: p' => if in_delim delim c then [] else c :: word_run delim p'
  end.

Fixpoint after_run (delim p : list Z) : list Z :=
  match p with
  | [] => []
  | c :: p' => if in_delim delim c then p else after_run delim p'
  end.

(** The maximal runs of characters that are not delimiters; [in_word]
    says that the previous character belongs to a word. *)
Fixpoint words_aux (delim : list Z) (in_word : bool) (p : list Z) : list (list Z) :=
  match p with
  | [] => []
  | c :: p' =>
      if in_delim delim c then words_aux delim false p'
      else if in_word then words_aux delim true p'
      else word_run delim p :: words_aux delim true p'
  end.

Definition words (delim p : list Z) : list (list Z) := words_aux delim false p.

Lemma in_delim_spec delim c : in_delim delim c = true ↔ c ∈ delim.
Proof.
  unfold in_delim. destruct (strchr delim c) eqn:E.
  - apply strchr_Some in E as (a & b & -> & _). split; [|done]. intros _.
    apply elem_of_app. right. constructor.
  - apply strchr_None in E. done.
Qed.

Lemma my_strtok_loop_spec delim M p i count bWordEnd :
  no_nul p → count < M →
  let ws := words_aux delim (negb bWordEnd) p in
  ∃ cols b, my_strtok_loop delim M p i count bWordEnd = (cols, b) ∧
    Z.of_nat (length cols) = Z.min (M - count) (Z.of_nat (length ws)) ∧
    Forall (λ o, i ≤ o)%nat cols ∧
    (count + Z.of_nat (length ws) < M →
       (λ o, c_string (drop (o - i) b)) <$> cols = ws ∧
       (bWordEnd = false → c_string b = word_run delim p)).
Proof.
  cbv zeta. revert i count bWordEnd.
  induction p as [|c p IH]; intros i count bWordEnd Hn Hc.
  { cbn. exists [], []. split_and!; [done|cbn; lia|constructor|done]. }
  apply not_elem_of_cons in Hn as [Hc0 Hn]. cbn [my_strtok_loop words_aux word_run].
  assert (Hsh : ∀ x cols b, Forall (λ o, S i ≤ o)%nat cols →
    (λ o, c_string (drop (o - i) (x :: b))) <$> cols
    = (λ o, c_string (drop (o - S i) b)) <$> cols).
  { intros x cols b Hf. apply list_fmap_ext. intros k o Ho.
    rewrite Forall_lookup in Hf. specialize (Hf _ _ Ho). cbn in Hf.
    by replace (o - i)%nat with (S (o - S i)) by lia. }
  assert (Hle : ∀ cols, Forall (λ o, S i ≤ o)%nat cols → Forall (λ o, i ≤ o)%nat cols).
  { intros cols Hf. eapply Forall_impl; [exact Hf|]. cbn. lia. }
  destruct (in_delim delim c) eqn:Ed.
  - destruct (IH (S i) count true Hn Hc) as (cols & b & -> & Hl & Hf & Hw).
    exists cols, (0 :: b). split_and!; [done|exact Hl|by apply Hle|].
    intros Hm. rewrite Hsh by done. split; [by apply Hw|done].
  - destruct bWordEnd; cbn [negb].
    + destruct (Z.geb_spec (count + 1) M) as [Hge|Hlt].
      * exists [i], (c :: p). split_and!; [done|cbn; lia|repeat constructor|cbn; lia].
      * destruct (IH (S i) (count + 1) false Hn) as (cols & b & -> & Hl & Hf & Hw); [lia|].
        exists (i :: cols), (c :: b).
        split_and!; [done|cbn [length negb] in *; lia|constructor; [lia|by apply Hle]|].
        intros Hm. cbn [length] in Hm. destruct Hw as [Hw1 Hw2]; [cbn [negb]; lia|].
        split; [|done]. cbn [fmap list_fmap]. rewrite Nat.sub_diag. cbn [drop c_string].
        rewrite (proj2 (Z.eqb_neq c 0)) by congruence. rewrite Hw2 by done. f_equal.
        change (list_fmap _ _ ?f ?l) with (f <$> l). rewrite Hsh by done. exact Hw1.
    + destruct (IH (S i) count false Hn Hc) as (cols & b & -> & Hl & Hf & Hw).
      exists cols, (c :: b). split_and!; [done|exact Hl|by apply Hle|].
      intros Hm. destruct Hw as [Hw1 Hw2]; [exact Hm|]. split; [by rewrite Hsh|].
      intros _. cbn [c_string]. rewrite (proj2 (Z.eqb_neq c 0)) by congruence. by rewrite Hw2.
Qed.

Lemma skip_delim_spec delim src :
  ∃ h, src = h ++ skip_delim delim src ∧ words delim src = words delim (skip_delim delim src) ∧
    match skip_delim delim src with [] => True | c :: _ => in_delim delim c = false end.
Proof.
  induction src as [|c src (h & IH1 & IH2 & IH3)]; cbn [skip_delim]; [by exists []|].
  destruct (in_delim delim c) eqn:E.
  - exists (c :: h). split_and!; [cbn; by f_equal| |done].
    rewrite <- IH2. unfold words. cbn [words_aux]. by rewrite E.
  - exists []. by split_and!; [| |rewrite E].
Qed.

(** [my_strtok] stores a pointer to the start of each word of its
    argument, at most [nMaxCols], in order; when there are fewer words than
    that, the strings the pointers designate in the rewritten buffer are
    exactly the words (the maximal runs of non-delimiters). *)
Theorem my_strtok_words src delim nMaxCols :
  no_nul src → 0 < nMaxCols →
  let '(count, cols, b) := my_strtok (Some src) delim nMaxCols in
  count = Z.min nMaxCols (Z.of_nat (length (words delim src))) ∧
  length cols = Z.to_nat count ∧
  (Z.of_nat (length (words delim src)) < nMaxCols →
     c_string_at b <$> cols = words delim src).
Proof.
  intros Hn HM. unfold my_strtok. replace (nMaxCols <=? 0) with false by lia.
  destruct (skip_delim_spec delim src) as (h & E & Ew & Hd). rewrite Ew.
  revert E Hd. generalize (skip_delim delim src) as p. intros p E Hd. subst src.
  rewrite before_app. apply not_elem_of_app in Hn as [_ Hn].
  destruct p as [|c p]; [cbn; split_and!; (done || lia)|].
  assert (words delim (c :: p) = word_run delim (c :: p) :: words_aux delim true (c :: p)) as ->.
  { unfold words. cbn [words_aux]. by rewrite Hd. }
  destruct (Z.geb_spec 1 nMaxCols) as [Hge|Hlt].
  { cbn [length]. split_and!; lia. }
  destruct (my_strtok_loop_spec delim nMaxCols (c :: p) (length h) 1 false Hn)
    as (cols & b & -> & Hl & Hf & Hw); [lia|]. cbn [negb length] in *.
  split_and!; [lia..|]. intros Hm. destruct Hw as [Hw1 Hw2]; [lia|].
  cbn [fmap list_fmap]. change (list_fmap _ _ ?f ?l) with (f <$> l). unfold c_string_at at 1.
  rewrite drop_app_length, Hw2 by done. f_equal. rewrite <- Hw1.
  apply list_fmap_ext. intros k o Ho. rewrite Forall_lookup in Hf. specialize (Hf _ _ Ho).
  unfold c_string_at. by rewrite drop_app_ge by exact Hf.
Qed.

Lemma my_strtok_words_witness :
  my_strtok (Some (bytes " ab,c ")) (bytes " ,") 9 = (2, [1%nat; 4%nat], [32; 97; 98; 0; 99; 0]) ∧
  c_string_at [32; 97; 98; 0; 99; 0] <$> [1%nat; 4%nat] = words (bytes " ,") (bytes " ab,c ").
Proof.
  split; [reflexivity|]. apply (my_strtok_words (bytes " ab,c ") (bytes " ,") 9).
  - intros H%list_elem_of_In. vm_compute in H. intuition discriminate.
  - lia.
  - vm_compute. reflexivity.
Defined.

(** ** Replacing *)

(** [replaced_with old new s t]: scanning [s] from the left, [t] is [s]
    with every occurrence of [old] that is met replaced by [new]. *)
Inductive replaced_with (old new : list Z) : list Z → list Z → Prop :=
  | replaced_nil : replaced_with old new [] []
  | replaced_here s t : replaced_with old new s t → replaced_with old new (old ++ s) (new ++ t)
  | replaced_skip c s t :
      is_prefix old (c :: s) = false → replaced_with old new s t →
      replaced_with old new (c :: s) (c :: t).

Lemma replaced_skips old new pre q t :
  (∀ a b, pre ++ q = a ++ old ++ b → (length pre ≤ length a)%nat) →
  replaced_with old new q t → replaced_with old new (pre ++ q) (pre ++ t).
Proof.
  intros Hm Hq. induction pre as [|c pre IH]; [done|]. cbn. apply replaced_skip.
  - destruct (is_prefix old (c :: pre ++ q)) eqn:E; [|done].
    apply is_prefix_spec in E as [b E]. specialize (Hm [] b E). cbn in Hm. lia.
  - apply IH. intros a b E. specialize (Hm (c :: a) b). cbn in Hm.
    enough (S (length pre) ≤ S (length a))%nat by lia. apply Hm. by rewrite E.
Qed.

Lemma replaced_none old new s : strstr s old = None → replaced_with old new s s.
Proof.
  induction s as [|c s IH]; [constructor|]. cbn [strstr].
  destruct (is_prefix old (c :: s)) eqn:E; [done|]. intros H. constructor; [done|by apply IH].
Qed.

Lemma copy_to_spec src n :
  0 ≤ n → let '(w, room) := copy_to src n in
  if room then w = src ∧ Z.of_nat (length src) < n
  else w = take (Z.to_nat n) src ∧ n ≤ Z.of_nat (length src).
Proof. intros. unfold copy_to. destruct (Z.ltb_spec (Z.of_nat (length src)) n); split; done || lia. Qed.

Lemma str_replace_loop_spec old new fuel s remain :
  old ≠ [] → (length s < fuel)%nat → 0 ≤ remain →
  ∃ t, replaced_with old new s t ∧
    str_replace_loop fuel s (Z.of_nat (length s)) old new remain = take (Z.to_nat remain) t.
Proof.
  intros Ho. revert s remain. induction fuel as [|fuel IH]; intros s remain Hf Hr; [lia|].
  cbn [str_replace_loop]. destruct (strstr s old) as [p|] eqn:E.
  - apply strstr_Some in E as (pre & b & -> & -> & Hmin). rewrite before_app.
    rewrite !length_app in Hf. rewrite drop_app_length.
    assert (0 < length old)%nat by (destruct old; cbn; [done|lia]).
    replace (Z.of_nat (length (pre ++ old ++ b)) - Z.of_nat (length pre) - Z.of_nat (length old))
      with (Z.of_nat (length b)) by (rewrite !length_app; lia).
    set (c1 := if 0 <? Z.of_nat (length pre) then copy_to pre remain else ([], true)).
    assert (Hc1 : (c1.2 = true ∧ c1.1 = pre ∧ Z.of_nat (length pre) ≤ remain) ∨
                  (c1.2 = false ∧ c1.1 = take (Z.to_nat remain) pre ∧ remain ≤ Z.of_nat (length pre))).
    { unfold c1. destruct (Z.ltb_spec 0 (Z.of_nat (length pre))).
      - pose proof (copy_to_spec pre remain Hr) as Hs. destruct (copy_to pre remain) as [w [|]];
          cbn; naive_solver lia.
      - destruct pre; [left; cbn; split_and!; [done..|lia]|cbn in *; lia]. }
    destruct c1 as [w1 room1]. cbn [fst snd] in Hc1.
    destruct Hc1 as [(-> & -> & Hlt)|(-> & -> & Hge)]; cbn [negb].
    + pose proof (copy_to_spec new (remain - Z.of_nat (length pre)) ltac:(lia)) as Hs.
      destruct (copy_to new _) as [w2 [|]]; cbn [negb]; destruct Hs as [-> Hs].
      * destruct (IH b (remain - Z.of_nat (length pre) - Z.of_nat (length new)))
          as (t & Ht & ->); [lia..|].
        exists (pre ++ new ++ t). split; [apply replaced_skips; [done|by constructor]|].
        rewrite !take_app, (take_ge pre), (take_ge new) by lia.
        do 3 f_equal. lia.
      * destruct (IH b 0) as (t & Ht & _); [lia..|].
        exists (pre ++ new ++ t). split; [apply replaced_skips; [done|by constructor]|].
        rewrite !take_app, (take_ge pre) by lia. f_equal.
        replace (Z.to_nat remain - length pre - length new)%nat with O by lia.
        rewrite take_0, app_nil_r. f_equal. lia.
    + destruct (IH b 0) as (t & Ht & _); [lia..|].
      exists (pre ++ new ++ t). split; [apply replaced_skips; [done|by constructor]|].
      rewrite take_app. replace (Z.to_nat remain - length pre)%nat with O by lia.
      by rewrite take_0, app_nil_r.
  - exists s. split; [by apply replaced_none|].
    destruct (Z.ltb_spec 0 (Z.of_nat (length s))); [|destruct s; [by rewrite take_nil|cbn in *; lia]].
    destruct (Z.le_gt_cases (Z.of_nat (length s)) remain).
    + rewrite !take_ge by lia. done.
    + f_equal. lia.
Qed.

(** [str_replace] writes the replacement of every occurrence, scanning
    from the left, cut at the size of the destination (one byte is kept
    for the NUL): never more, and never less. *)
Theorem str_replace_spec s replaced new_str dest_size :
  replaced ≠ [] → 0 < dest_size →
  ∃ t, replaced_with replaced new_str s t ∧
    str_replace s (Z.of_nat (length s)) replaced new_str dest_size
    = take (Z.to_nat (dest_size - 1)) t.
Proof.
  intros Ho Hd. unfold str_replace. replace (dest_size <=? 0) with false by lia.
  destruct replaced as [|c replaced]; [done|].
  apply str_replace_loop_spec; [done|lia..].
Qed.

Lemma str_replace_spec_witness :
  ∃ t, replaced_with (bytes "ab") (bytes "xyz") (bytes "1ab2ab") t ∧
    bytes "1xyz2" = take 5 t.
Proof. exact (str_replace_spec (bytes "1ab2ab") (bytes "ab") (bytes "xyz") 6 ltac:(done) eq_refl). Defined.

(** ** Secure file names *)

Lemma memcmp_take3_eq filename p :
  length p = 3%nat → (3 ≤ length filename)%nat →
  memcmp (take 3 filename) p = 0 ↔ ∃ r, filename = p ++ r.
Proof.
  destruct p as [|p0 [|p1 [|p2 [|]]]]; try done.
  destruct filename as [|f0 [|f1 [|f2 r]]]; cbn [length]; try lia. intros _ _. cbn [take memcmp].
  split.
  - destruct (Z.ltb_spec f0 p0), (Z.ltb_spec p0 f0), (Z.ltb_spec f1 p1), (Z.ltb_spec p1 f1),
      (Z.ltb_spec f2 p2), (Z.ltb_spec p2 f2); try done. intros _. exists r.
    cbn [app]. repeat f_equal; lia.
  - intros [r' [= -> -> -> ->]]. by rewrite !Z.ltb_irrefl.
Qed.

(** [is_filename_secure] rejects exactly the names with a component
    ".." that is followed by a slash, at the start of the name or after a
    slash.  (A name that ends in ".." is accepted.) *)
Theorem is_filename_secure_spec filename :
  is_filename_secure filename (Z.of_nat (length filename)) = false ↔
  ∃ a b, filename = a ++ bytes "../" ++ b ∧ (a = [] ∨ ∃ a', a = a' ++ bytes "/").
Proof.
  unfold is_filename_secure. change (bytes "/../") with (bytes "/" ++ bytes "../").
  destruct (Z.ltb_spec (Z.of_nat (length filename)) 3) as [Hl|Hl].
  - split; [done|]. intros (a & b & -> & _). rewrite !length_app in Hl.
    change (length (bytes "../")) with 3%nat in Hl. rewrite !Nat2Z.inj_add in Hl. lia.
  - destruct (memcmp_take3_eq filename (bytes "../")) as [H1 H2]; [done|lia|].
    destruct (Z.eqb_spec (memcmp (take 3 filename) (bytes "../")) 0) as [E|E].
    + split; [|done]. intros _. destruct (H1 E) as [r ->]. exists [], r. by split; [|left].
    + destruct (strstr filename _) as [r|] eqn:Es; (split; [try done|]); intros H.
      * apply strstr_Some in Es as (a & b & -> & -> & _). exists (a ++ bytes "/"), b.
        split; [by rewrite <- !app_assoc|]. right. by exists a.
      * done.
      * rewrite strstr_None in Es. destruct H as (a & b & -> & [->|(a' & ->)]).
        -- destruct E. apply H2. by exists b.
        -- destruct (Es a' b). by rewrite <- !app_assoc.
Qed.

(** ** Reading a line *)

(** A read that makes progress until the end of the file. *)
Definition reads (read_bytes : list Z → Z → Z) : Prop :=
  (∀ n, 0 < n → read_bytes [] n = 0) ∧
  (∀ f n, f ≠ [] → 0 < n → 0 < read_bytes f n ≤ Z.min n (Z.of_nat (length f))).

(** [s] up to and including its first line feed. *)
Definition first_line (s : list Z) : list Z :=
  match strchr s CH_LF with
  | Some r => before s r ++ [CH_LF]
  | None => s
  end.

Lemma first_line_app a b :
  first_line (a ++ b) = match strchr a CH_LF with Some _ => first_line a | None => a ++ first_line b end.
Proof.
  unfold first_line. destruct (strchr a CH_LF) as [r|] eqn:Ea.
  - apply strchr_Some in Ea as (x & y & -> & Hx & ->).
    assert (strchr ((x ++ CH_LF :: y) ++ b) CH_LF = Some (CH_LF :: y ++ b)) as ->.
    { apply strchr_Some. exists x, (y ++ b). by rewrite <- app_assoc. }
    rewrite <- app_assoc, <- app_comm_cons. by rewrite !before_app.
  - rewrite strchr_None in Ea. destruct (strchr b CH_LF) as [r|] eqn:Eb.
    + apply strchr_Some in Eb as (x & y & -> & Hx & ->).
      assert (strchr (a ++ x ++ CH_LF :: y) CH_LF = Some (CH_LF :: y)) as ->.
      { apply strchr_Some. exists (a ++ x), y. rewrite <- app_assoc, not_elem_of_app. done. }
      rewrite app_assoc, !before_app, app_assoc. done.
    + assert (strchr (a ++ b) CH_LF = None) as ->; [|done].
      rewrite strchr_None in *. by rewrite not_elem_of_app.
Qed.

Lemma first_line_prefix s : ∃ t, s = first_line s ++ t.
Proof.
  unfold first_line. destruct (strchr s CH_LF) as [r|] eqn:E; [|exists []; by rewrite app_nil_r].
  apply strchr_Some in E as (x & y & -> & _ & ->). rewrite before_app. exists y.
  by rewrite <- app_assoc.
Qed.

Lemma fd_gets_loop_spec read_bytes fuel file pDest remain once :
  reads read_bytes → 0 ≤ remain < Z.of_nat fuel → 0 < once →
  let line := first_line (take (Z.to_nat remain) file) in
  fd_gets_loop read_bytes true fuel file pDest remain once
  = Some (Z.of_nat (length (pDest ++ line)), pDest ++ line, drop (length line) file).
Proof.
  intros [Heof Hrd]. revert file pDest remain once.
  induction fuel as [|fuel IH]; intros file pDest remain once Hr Ho; [lia|].
  cbn [fd_gets_loop]. destruct (Z.leb_spec remain 0) as [Hz|Hz].
  { replace remain with 0 by lia. cbn. by rewrite app_nil_r. }
  set (once' := if remain <? once then remain else once).
  assert (0 < once' ≤ remain) as Ho' by (unfold once'; destruct (Z.ltb_spec remain once); lia).
  destruct file as [|c file'].
  { rewrite Heof by lia. cbn. rewrite take_nil. cbn. by rewrite app_nil_r. }
  set (file := c :: file') in *. pose proof (Hrd file once' ltac:(done) ltac:(lia)) as Hn.
  set (n := read_bytes file once') in *.
  replace (n <? 0) with false by lia. replace (n =? 0) with false by lia.
  set (got := take (Z.to_nat n) file).
  assert (length got = Z.to_nat n) as Hgl by (unfold got; rewrite length_take; lia).
  assert (take (Z.to_nat remain) file = got ++ take (Z.to_nat (remain - n)) (drop (Z.to_nat n) file)) as ->.
  { unfold got. rewrite <- (take_drop (Z.to_nat n) file) at 1. fold got. rewrite take_app, Hgl.
    unfold got. rewrite take_ge by (rewrite length_take; lia). do 2 f_equal. lia. }
  rewrite first_line_app. cbv zeta. destruct (strchr got CH_LF) as [r|] eqn:E.
  - unfold first_line. by rewrite E.
  - rewrite IH by lia. rewrite app_assoc, drop_drop. do 3 f_equal. rewrite length_app. lia.
Qed.

(** [fd_gets] stores the next line of the file with its line feed, cut
    at [size - 1] bytes, returns its length and leaves the file position
    just after it, however many bytes each [read] returns. *)
Theorem fd_gets_line read_bytes file size once_bytes :
  reads read_bytes → 0 < size →
  let line := first_line (take (Z.to_nat (size - 1)) file) in
  fd_gets read_bytes true file size once_bytes
  = Some (Z.of_nat (length line), line, drop (length line) file).
Proof.
  intros Hrd Hs. unfold fd_gets.
  rewrite fd_gets_loop_spec; [done|done|lia|].
  destruct (Z.leb_spec once_bytes 0); lia.
Qed.

Lemma fd_gets_line_witness :
  fd_gets (λ f n, Z.min (Z.min n 2) (Z.of_nat (length f))) true (bytes "abc" ++ 10 :: bytes "de") 256 64
  = Some (4, bytes "abc" ++ [10], bytes "de").
Proof.
  apply (fd_gets_line (λ f n, Z.min (Z.min n 2) (Z.of_nat (length f)))
    (bytes "abc" ++ 10 :: bytes "de") 256 64).
  - split; [intros n; cbn; lia|]. intros f n Hf Hn. destruct f; cbn [length]; [done|lia].
  - lia.
Defined.

(** ** Sizes in configuration files *)

Definition unit_of (default_unit_bytes : Z) (suffix : list Z) : Z :=
  match suffix with
  | [] => default_unit_bytes
  | c :: _ =>
      if (c =? 71) || (c =? 103) then 2 ^ 30
      else if (c =? 77) || (c =? 109) then 2 ^ 20
      else if (c =? 75) || (c =? 107) then 2 ^ 10
      else 1
  end.

(** [parse_bytes] reads a decimal number and its unit: the number times
    1024, 1024^2 or 1024^3 for the suffixes k, m, g (of either case), times
    the default unit without suffix, and unscaled for any other suffix;
    negative numbers are refused, and the product wraps at 64 bits. *)
Theorem parse_bytes_spec n suffix default_unit_bytes :
  LONG_MIN ≤ n ≤ LONG_MAX → starts_with_digit 10 suffix = false →
  parse_bytes (sprintf_d n ++ suffix) default_unit_bytes
  = if n <? 0 then (EINVAL, n) else (0, s64 (n * unit_of default_unit_bytes suffix)).
Proof.
  intros Hn Hs. unfold parse_bytes. rewrite strtol_sprintf_d by done.
  destruct (Z.ltb_spec n 0); [done|]. destruct suffix as [|c r]; [done|]. cbn [first_is unit_of].
  destruct (_ || _); [done|]. destruct (_ || _); [done|]. destruct (_ || _); [done|].
  rewrite Z.mul_1_r, s64_id; [done|]. unfold LONG_MIN, LONG_MAX, is_int64 in *. lia.
Qed.

Lemma parse_bytes_spec_witness : parse_bytes (bytes "64MB") 1 = (0, 67108864).
Proof. apply (parse_bytes_spec 64 (bytes "MB") 1); [split; done|reflexivity]. Defined.
