(* ===== verification/Base64.v ===== *)
(** * common/base64.c: the base64 encoder and its two decoders

    [base64_context] is the structure of base64.h: the separator is a
    16-byte array, the alphabet a 64-byte array, the reverse table an array
    of 256 [int]s.  Encoding is in two passes as in the source: the whole
    groups of three bytes, then the padded last group.  The result [None]
    is a store or a read outside an array. *)

From S2P Require Import Prelude CLib.
From stdpp Require Import strings.
#[local] Open Scope Z_scope.

Record base64_context := {
  line_separator : list Z;
  line_sep_len : Z;
  line_length : Z;
  valueToChar : list Z;
  charToValue : list Z;
  pad_ch : Z;
}.

Definition BASE64_IGNORE : Z := -1.
Definition BASE64_PAD : Z := -2.

Definition set_line_length_field (context : base64_context) (length : Z) : base64_context :=
  {| line_separator := line_separator context; line_sep_len := line_sep_len context;
     line_length := length; valueToChar := valueToChar context;
     charToValue := charToValue context; pad_ch := pad_ch context |}.

Definition base64_set_line_length (context : base64_context) (length : Z) : base64_context :=
  set_line_length_field context (Z.quot length 4 * 4).

(** [snprintf] truncates what it stores and returns the full length. *)
Definition base64_set_line_separator (context : base64_context) (pLineSeparator : list Z)
    : base64_context :=
  let stored := take 15 pLineSeparator ++ [0] in
  {| line_separator := stored ++ drop (length stored) (line_separator context);
     line_sep_len := Z.of_nat (length pLineSeparator);
     line_length := line_length context; valueToChar := valueToChar context;
     charToValue := charToValue context; pad_ch := pad_ch context |}.

(** The three loops that fill [valueToChar]: [n] characters from [first],
    at index [from]. *)
Definition fill_chars (n : nat) (first : Z) (from : nat) (table : list Z) : list Z :=
  foldl (λ t i, <[(i + from)%nat := first + Z.of_nat i]> t) table (seq 0 n).

Definition build_valueToChar (chPlus chSplash : Z) : list Z :=
  <[63%nat := chSplash]> (<[62%nat := chPlus]>
    (fill_chars 10 CH_0 52 (fill_chars 26 CH_a 26 (fill_chars 26 CH_A 0 (replicate 64 0))))).

Definition build_charToValue (chars : list Z) (chPad : Z) : list Z :=
  <[Z.to_nat chPad := BASE64_PAD]>
    (foldl (λ t i, <[Z.to_nat (nth i chars 0) := Z.of_nat i]> t)
       (replicate 256 BASE64_IGNORE) (seq 0 64)).

Definition base64_init_ex (nLineLength chPlus chSplash chPad : Z) : base64_context :=
  let chars := build_valueToChar chPlus chSplash in
  {| line_separator := CH_LF :: replicate 15 0; line_sep_len := 1;
     line_length := nLineLength;
     valueToChar := chars; charToValue := build_charToValue chars chPad; pad_ch := chPad |}.

(** [base64_init] of base64.h. *)
Definition base64_init (nLineLength : Z) : base64_context :=
  base64_init_ex nLineLength CH_PLUS CH_SLASH 61.

Definition base64_get_encode_length (context : base64_context) (nSrcLen : Z) : Z :=
  let outputLength := s32 (Z.quot (nSrcLen + 2) 3 * 4) in
  if c_true (line_length context) then
    let lines := Z.quot (outputLength + line_length context - 1) (line_length context) - 1 in
    if 0 <? lines then s32 (outputLength + lines * line_sep_len context) else outputLength
  else outputLength.

(** ** Encoding *)

Definition value_char (context : base64_context) (v : Z) : Z := nth (Z.to_nat v) (valueToChar context) 0.

(** The four characters of a group of three bytes. *)
Definition encode_group (context : base64_context) (b0 b1 b2 : Z) : list Z :=
  let combined := Z.lor (Z.lor (Z.shiftl b0 16) (Z.shiftl b1 8)) b2 in
  let c3 := Z.land combined 63 in
  let combined := Z.shiftr combined 6 in
  let c2 := Z.land combined 63 in
  let combined := Z.shiftr combined 6 in
  let c1 := Z.land combined 63 in
  let combined := Z.shiftr combined 6 in
  let c0 := Z.land combined 63 in
  value_char context <$> [c0; c1; c2; c3].

(** [memcpy(pDest, context->line_separator, context->line_sep_len)] *)
Definition copy_separator (context : base64_context) : option (list Z) :=
  if Z.of_nat (length (line_separator context)) <? line_sep_len context then None
  else Some (take (Z.to_nat (line_sep_len context)) (line_separator context)).

(** The new [linePos] and the separator to emit before the next group. *)
Definition next_line_pos (context : base64_context) (linePos : Z) : option (Z * list Z) :=
  let linePos := linePos + 4 in
  if line_length context <? linePos then
    if c_true (line_length context) then
      match copy_separator context with
      | Some sep => Some (4, sep)
      | None => None
      end
    else Some (4, [])
  else Some (linePos, []).

(** One pass of the outer loop: the characters for [raw] and [linePos]. *)
Fixpoint encode_loop (context : base64_context) (raw : list Z) (linePos : Z)
    : option (list Z * Z) :=
  match raw with
  | b0 :: b1 :: b2 :: raw =>
      match next_line_pos context linePos with
      | None => None
      | Some (linePos, sep) =>
          match encode_loop context raw linePos with
          | None => None
          | Some (out, linePos) => Some (sep ++ encode_group context b0 b1 b2 ++ out, linePos)
          end
      end
  | _ => Some ([], linePos)
  end.

(** The bytes after the last whole group, padded with NULs to three. *)
Definition leftover_group (rest : list Z) : list Z :=
  match rest with
  | [b0] => [b0; 0; 0]
  | [b0; b1] => [b0; b1; 0]
  | _ => []
  end.

(** The last characters of [out] replaced by [n] pads, or removed. *)
Definition finish_pad (context : base64_context) (bPad : bool) (out : list Z) (n : nat) : list Z :=
  take (length out - n) out ++ (if bPad then replicate n (pad_ch context) else []).

Definition base64_encode_ex (context : base64_context) (src : list Z) (bPad : bool)
    : option (list Z) :=
  match src with
  | [] => Some []
  | _ =>
      let whole := (length src / 3 * 3)%nat in
      let rest := drop whole src in
      match encode_loop context (take whole src) 0 with
      | None => None
      | Some (out0, linePos) =>
          match encode_loop context (leftover_group rest) linePos with
          | None => None
          | Some (out1, _) =>
              let out := out0 ++ out1 in
              Some
                match length rest with
                | 1%nat => finish_pad context bPad out 2
                | 2%nat => finish_pad context bPad out 1
                | _ => out
                end
          end
      end
  end.

(** ** Decoding *)

Record decode_state := {
  cycle : Z;
  combined : Z;
  dummies : Z;
  decoded : list Z;
}.

(** The inner [switch (cycle)] for a value of six bits. *)
Definition decode_value (st : decode_state) (value : Z) : decode_state :=
  if cycle st =? 0 then
    {| cycle := 1; combined := value; dummies := dummies st; decoded := decoded st |}
  else
    let c := Z.lor (Z.shiftl (combined st) 6) value in
    if cycle st =? 3 then
      {| cycle := 0; combined := c; dummies := dummies st;
         decoded := decoded st ++
           [u8 (Z.shiftr c 16); u8 (Z.shiftr (Z.land c 0xFF00) 8); u8 (Z.land c 0xFF)] |}
    else
      {| cycle := cycle st + 1; combined := c; dummies := dummies st; decoded := decoded st |}.

Definition char_value (context : base64_context) (ch : Z) : Z :=
  nth (Z.to_nat ch) (charToValue context) 0.

Definition decode_char (context : base64_context) (st : decode_state) (ch : Z) : decode_state :=
  let value := char_value context ch in
  if value =? BASE64_IGNORE then st
  else if value =? BASE64_PAD then
    decode_value {| cycle := cycle st; combined := combined st; dummies := dummies st + 1;
                    decoded := decoded st |} 0
  else decode_value st value.

Definition decode_init : decode_state :=
  {| cycle := 0; combined := 0; dummies := 0; decoded := [] |}.

(** What [base64_decode] writes at [dest], and [*dest_len]; [None] is the
    NUL stored before the start of [dest]. *)
Definition base64_decode_to (context : base64_context) (src : list Z) : option (list Z * Z) :=
  let st := foldl (decode_char context) decode_init src in
  if c_true (cycle st) then Some (0 :: tail (decoded st), 0)
  else
    let dest_len := Z.of_nat (length (decoded st)) - dummies st in
    if dest_len <? 0 then None
    else
      let written := if dest_len =? Z.of_nat (length (decoded st)) then decoded st ++ [0]
                     else <[Z.to_nat dest_len := 0]> (decoded st) in
      Some (written, dest_len).

(** The decoded bytes: [dest] up to [*dest_len]. *)
Definition decoded_bytes (r : option (list Z * Z)) : option (list Z) :=
  match r with
  | Some (dest, dest_len) => Some (take (Z.to_nat dest_len) dest)
  | None => None
  end.

Definition base64_decode (context : base64_context) (src : list Z) : option (list Z) :=
  decoded_bytes (base64_decode_to context src).

Definition base64_decode_auto_to (malloc_ok : bool) (context : base64_context) (src : list Z)
    : option (list Z * Z) :=
  let nSrcLen := Z.of_nat (length src) in
  let nRemain := Z.rem nSrcLen 4 in
  if nRemain =? 0 then base64_decode_to context src
  else
    let nPadLen := 4 - nRemain in
    let nNewLen := nSrcLen + nPadLen in
    if negb (nNewLen <=? 256) && negb malloc_ok then Some ([0], 0)
    else base64_decode_to context (src ++ replicate (Z.to_nat nPadLen) (pad_ch context)).

Definition base64_decode_auto (malloc_ok : bool) (context : base64_context) (src : list Z)
    : option (list Z) := decoded_bytes (base64_decode_auto_to malloc_ok context src).

(** * Lemmas *)

(** ** Valid contexts *)

(** The reverse table inverts the alphabet; the pad character and the
    separator are outside it. *)
Record context_ok (context : base64_context) : Prop := {
  ok_values : ∀ v, 0 ≤ v < 64 → char_value context (value_char context v) = v;
  ok_pad : char_value context (pad_ch context) = BASE64_PAD;
  ok_sep_len : line_sep_len context ≤ Z.of_nat (length (line_separator context));
  ok_sep : Forall (λ c, char_value context c = BASE64_IGNORE)
             (take (Z.to_nat (line_sep_len context)) (line_separator context));
}.

(** Characters that may stand for '+', '/' and '='. *)
Definition special (c : Z) : Prop := is_byte c ∧ is_alnum c = false ∧ c ≠ CH_LF.

Lemma build_valueToChar_eq chPlus chSplash :
  build_valueToChar chPlus chSplash
  = bytes "ABCDEFGHIJKLMNOPQRSTUVWXYZabcdefghijklmnopqrstuvwxyz0123456789" ++ [chPlus; chSplash].
Proof. reflexivity. Qed.

Lemma foldl_insert_lookup (idx : nat → nat) (val : nat → Z) l (t : list Z) :
  NoDup (idx <$> l) → (∀ i, i ∈ l → (idx i < length t)%nat) →
  let t' := foldl (λ t i, <[idx i := val i]> t) t l in
  length t' = length t ∧ (∀ i, i ∈ l → t' !! idx i = Some (val i)) ∧
  (∀ j, (∀ i, i ∈ l → idx i ≠ j) → t' !! j = t !! j).
Proof.
  revert t. induction l as [|x l IH]; intros t Hnd Hb; cbn [foldl].
  { split_and!; [done|by intros i ?%not_elem_of_nil|done]. }
  cbn in Hnd. apply NoDup_cons in Hnd as [Hx Hnd].
  destruct (IH (<[idx x := val x]> t) Hnd) as (H1 & H2 & H3).
  { intros i Hi. rewrite length_insert. apply Hb. by right. }
  rewrite length_insert in H1. split_and!; [done| |].
  - intros i [->|Hi]%elem_of_cons; [|by apply H2]. rewrite H3.
    + apply list_lookup_insert_eq. apply Hb. by left.
    + intros i' Hi' E. apply Hx. rewrite <- E. by apply list_elem_of_fmap_2.
  - intros j Hj. rewrite H3 by (intros; apply Hj; by right).
    apply list_lookup_insert_ne. apply Hj. by left.
Qed.

Lemma NoDup_fmap_nat (f : nat → Z) l :
  NoDup (f <$> l) → (∀ i, i ∈ l → 0 ≤ f i) → NoDup ((λ i, Z.to_nat (f i)) <$> l).
Proof.
  intros Hnd Hp. induction l as [|x l IH]; cbn in *; [constructor|].
  apply NoDup_cons in Hnd as [Hx Hnd]. constructor; [|apply IH; [done|intros; apply Hp; by right]].
  intros Hin. apply list_elem_of_fmap in Hin as (y & E & Hy). apply Hx.
  apply list_elem_of_fmap. exists y. split; [|done].
  pose proof (Hp x ltac:(by left)). pose proof (Hp y ltac:(by right)). lia.
Qed.

Lemma nth_of_lookup (t : list Z) i x : t !! i = Some x → nth i t 0 = x.
Proof. apply nth_lookup_Some. Qed.

Section init.
Variables chPlus chSplash chPad nLineLength : Z.
Hypothesis (Hplus : special chPlus) (Hsplash : special chSplash) (Hpad : special chPad).
Hypothesis (H1 : chPlus ≠ chSplash) (H2 : chPlus ≠ chPad) (H3 : chSplash ≠ chPad).

Let ctx := base64_init_ex nLineLength chPlus chSplash chPad.
Let chars := build_valueToChar chPlus chSplash.

Lemma chars_elem c : c ∈ chars → is_alnum c = true ∨ c = chPlus ∨ c = chSplash.
Proof using Type.
  clear. unfold chars. rewrite build_valueToChar_eq. intros [H|H]%elem_of_app.
  - left. revert c H. apply Forall_forall.
    apply (bool_decide_unpack _). vm_compute. exact I.
  - right. apply elem_of_cons in H as [->|H]; [by left|].
    apply list_elem_of_singleton in H as ->. by right.
Qed.

Lemma chars_nodup : NoDup chars.
Proof.
  unfold chars. rewrite build_valueToChar_eq. apply NoDup_app. split_and!.
  - apply (bool_decide_unpack _). vm_compute. exact I.
  - intros c Hc Hc'. assert (is_alnum c = true) as Hal.
    { revert c Hc Hc'. intros c Hc _. revert c Hc. apply Forall_forall.
      apply (bool_decide_unpack _). vm_compute. exact I. }
    apply elem_of_cons in Hc' as [->|Hc'%list_elem_of_singleton];
      [destruct Hplus as (_ & ? & _)|subst; destruct Hsplash as (_ & ? & _)]; congruence.
  - repeat constructor; [by rewrite list_elem_of_singleton|apply not_elem_of_nil].
Qed.

Lemma chars_nth i : (i < 64)%nat → chars !! i = Some (nth i chars 0).
Proof using Type.
  intros Hi. destruct (lookup_lt_is_Some_2 chars i) as [x Hx].
  { unfold chars. rewrite build_valueToChar_eq. exact Hi. }
  by rewrite Hx, (nth_of_lookup _ _ _ Hx).
Qed.

Lemma chars_byte i : (i < 64)%nat → is_byte (nth i chars 0) ∧ nth i chars 0 ≠ chPad ∧ nth i chars 0 ≠ CH_LF.
Proof.
  intros Hi. pose proof (list_elem_of_lookup_2 _ _ _ (chars_nth i Hi)) as Hin.
  destruct Hpad as (Hpb & Hpa & _).
  destruct (chars_elem _ Hin) as [Hal|[->| ->]].
  - split_and!; [|intros E; rewrite E in Hal; congruence|intros E; rewrite E in Hal; done].
    unfold is_alnum, is_digit, is_upper, is_lower, char_in, is_byte in *. lia.
  - destruct Hplus as (? & _ & ?). done.
  - destruct Hsplash as (? & _ & ?). done.
Qed.

Lemma charToValue_lookup :
  let t := build_charToValue chars chPad in
  (∀ i, (i < 64)%nat → t !! Z.to_nat (nth i chars 0) = Some (Z.of_nat i)) ∧
  t !! Z.to_nat chPad = Some BASE64_PAD ∧
  (∀ c, is_byte c → is_alnum c = false → c ∉ [chPlus; chSplash; chPad] →
     t !! Z.to_nat c = Some BASE64_IGNORE).
Proof.
  unfold build_charToValue. cbv zeta.
  destruct (foldl_insert_lookup (λ i, Z.to_nat (nth i chars 0)) (λ i, Z.of_nat i) (seq 0 64)
    (replicate 256 BASE64_IGNORE)) as (Hl & Ht & Ho).
  - apply NoDup_fmap_nat.
    + assert ((λ i, nth i chars 0) <$> seq 0 64 = chars) as ->; [|apply chars_nodup].
      reflexivity.
    + intros i Hi%elem_of_seq. apply chars_byte. lia.
  - intros i Hi%elem_of_seq. rewrite length_replicate.
    destruct (chars_byte i) as [Hb _]; [lia|]. unfold is_byte in Hb. lia.
  - rewrite length_replicate in Hl. destruct Hpad as (Hpb & _ & Hplf). unfold is_byte in Hpb.
    split_and!.
    + intros i Hi. destruct (chars_byte i Hi) as (Hb & Hne & _). unfold is_byte in Hb.
      rewrite list_lookup_insert_ne by lia. apply Ht. apply elem_of_seq. lia.
    + apply list_lookup_insert_eq. rewrite Hl. lia.
    + intros c Hc Hal Hout. unfold is_byte in Hc.
      rewrite !not_elem_of_cons in Hout. destruct Hout as (Ho1 & Ho2 & Ho3 & _).
      rewrite list_lookup_insert_ne by lia. rewrite Ho.
      * apply lookup_replicate. split; [done|lia].
      * intros i Hi%elem_of_seq E.
        pose proof (list_elem_of_lookup_2 _ _ _ (chars_nth i ltac:(lia))) as Hin.
        destruct (chars_byte i) as (Hb & _ & _); [lia|]. unfold is_byte in Hb.
        assert (nth i chars 0 = c) as Ec by lia. rewrite Ec in Hin.
        destruct (chars_elem _ Hin) as [?|[?|?]]; congruence.
Qed.

Lemma init_ignored c :
  is_byte c → is_alnum c = false → c ∉ [chPlus; chSplash; chPad] →
  char_value ctx c = BASE64_IGNORE.
Proof. intros. apply nth_of_lookup. by apply charToValue_lookup. Qed.

Lemma base64_init_ex_ok : context_ok ctx.
Proof.
  destruct charToValue_lookup as (Hv & Hp & Hlf). split.
  - intros v Hv'.
    change (nth (Z.to_nat (nth (Z.to_nat v) chars 0)) (build_charToValue chars chPad) 0 = v).
    rewrite (nth_of_lookup _ _ _ (Hv (Z.to_nat v) ltac:(lia))). lia.
  - apply nth_of_lookup, Hp.
  - cbn. lia.
  - change (Forall (λ c, char_value ctx c = BASE64_IGNORE) [CH_LF]).
    constructor; [|constructor]. apply init_ignored; [unfold is_byte, CH_LF; lia|reflexivity|].
    destruct Hplus as (_ & _ & ?), Hsplash as (_ & _ & ?), Hpad as (_ & _ & ?).
    rewrite !not_elem_of_cons. split_and!; [congruence..|apply not_elem_of_nil].
Qed.
End init.

Lemma set_line_length_ok context n : context_ok context → context_ok (base64_set_line_length context n).
Proof. by intros []. Qed.

Lemma set_line_separator_ok context sep :
  context_ok context → length (line_separator context) = 16%nat → (length sep ≤ 15)%nat →
  Forall (λ c, char_value context c = BASE64_IGNORE) sep →
  context_ok (base64_set_line_separator context sep).
Proof.
  intros [] Hl16 Hl Hs. split; cbn; [done..| |].
  - rewrite length_app, length_drop, length_app, (take_ge sep) by lia. lia.
  - rewrite Nat2Z.id, (take_ge sep) by lia. rewrite <- app_assoc, take_app_length. done.
Qed.

(** ** A group of three bytes *)

Lemma land_63 x : Z.land x 63 = x mod 64.
Proof. exact (Z.land_ones x 6 ltac:(lia)). Qed.

Lemma encode_group_eq context b0 b1 b2 :
  is_byte b0 → is_byte b1 → is_byte b2 →
  encode_group context b0 b1 b2 = value_char context <$>
    [b0 / 4; (b0 mod 4) * 16 + b1 / 16; (b1 mod 16) * 4 + b2 / 64; b2 mod 64].
Proof.
  unfold is_byte, encode_group. intros. rewrite !Z.shiftl_mul_pow2 by lia.
  rewrite (lor_low 16 (_ * _)), (lor_low 8 (_ + _)) by dlia.
  rewrite !land_63, !Z.shiftr_div_pow2 by lia. cbn [fmap list_fmap].
  change (2 ^ 6) with 64. cons_eq ltac:(apply (f_equal (value_char context)); dlia).
Qed.

Lemma land_ff00 x : Z.shiftr (Z.land x 0xFF00) 8 = (x / 2 ^ 8) mod 256.
Proof.
  rewrite Z.shiftr_land. change (Z.shiftr 0xFF00 8) with 255.
  by rewrite land_255, Z.shiftr_div_pow2.
Qed.

(** The bytes that four 6-bit values stand for. *)
Definition group_bytes (v0 v1 v2 v3 : Z) : list Z :=
  [v0 * 4 + v1 / 16; (v1 mod 16) * 16 + v2 / 4; (v2 mod 4) * 64 + v3].

Definition mk_state (dummies : Z) (decoded : list Z) (combined : Z) : decode_state :=
  {| cycle := 0; combined := combined; dummies := dummies; decoded := decoded |}.

Lemma decode_combined v0 v1 v2 v3 :
  0 ≤ v0 < 64 → 0 ≤ v1 < 64 → 0 ≤ v2 < 64 → 0 ≤ v3 < 64 →
  Z.lor (Z.shiftl (Z.lor (Z.shiftl (Z.lor (Z.shiftl v0 6) v1) 6) v2) 6) v3
  = ((v0 * 64 + v1) * 64 + v2) * 64 + v3.
Proof.
  intros. rewrite (Z.shiftl_mul_pow2 v0), (lor_low 6 (v0 * _)) by dlia.
  rewrite (Z.shiftl_mul_pow2 (_ + _)), (lor_low 6 (_ * _) v2) by dlia.
  rewrite (Z.shiftl_mul_pow2 (_ + _)), (lor_low 6 (_ * _) v3) by dlia. lia.
Qed.

(** Reading four characters of values [v0 .. v3], pads counting as 0. *)
Definition reads_as (context : base64_context) (ch v : Z) (pad : Z) : Prop :=
  0 ≤ v < 64 ∧ ∀ st, decode_char context st ch
    = decode_value {| cycle := cycle st; combined := combined st;
                      dummies := dummies st + pad; decoded := decoded st |} v.

Lemma decode_group context ch0 ch1 ch2 ch3 v0 v1 v2 v3 p0 p1 p2 p3 d out c :
  reads_as context ch0 v0 p0 → reads_as context ch1 v1 p1 →
  reads_as context ch2 v2 p2 → reads_as context ch3 v3 p3 →
  ∃ c', foldl (decode_char context) (mk_state d out c) [ch0; ch1; ch2; ch3]
        = mk_state (d + p0 + p1 + p2 + p3) (out ++ group_bytes v0 v1 v2 v3) c'.
Proof.
  intros [B0 E0] [B1 E1] [B2 E2] [B3 E3].
  exists (((v0 * 64 + v1) * 64 + v2) * 64 + v3).
  cbn [foldl]. rewrite E0, E1, E2, E3.
  transitivity (decode_value {| cycle := 3;
    combined := Z.lor (Z.shiftl (Z.lor (Z.shiftl v0 6) v1) 6) v2;
    dummies := d + p0 + p1 + p2 + p3; decoded := out |} v3); [reflexivity|].
  unfold decode_value, mk_state. cbn [cycle combined dummies decoded Z.eqb].
  rewrite decode_combined by done. f_equal. unfold group_bytes. f_equal.
  rewrite land_ff00, Z.shiftr_div_pow2, land_255 by lia. unfold u8.
  clear -B0 B1 B2 B3. change (2 ^ 16) with 65536. change (2 ^ 8) with 256.
  cons_eq dlia.
Qed.

Lemma match_nonempty {A} (l : list Z) (x y : A) : l ≠ [] → match l with [] => x | _ => y end = y.
Proof. by destruct l. Qed.

(** The number of groups of [n] bytes. *)
Definition groups (n : Z) : Z := (n + 2) / 3.

Section valid.
Context (context : base64_context) (Hok : context_ok context).

Lemma reads_value v : 0 ≤ v < 64 → reads_as context (value_char context v) v 0.
Proof.
  intros Hv. split; [done|]. intros st. unfold decode_char. rewrite (ok_values _ Hok) by done.
  rewrite (proj2 (Z.eqb_neq v _)) by (unfold BASE64_IGNORE; lia).
  rewrite (proj2 (Z.eqb_neq v _)) by (unfold BASE64_PAD; lia).
  rewrite Z.add_0_r. by destruct st.
Qed.

Lemma reads_pad : reads_as context (pad_ch context) 0 1.
Proof.
  split; [lia|]. intros st. unfold decode_char. by rewrite (ok_pad _ Hok).
Qed.

Lemma decode_ignored st s :
  Forall (λ c, char_value context c = BASE64_IGNORE) s → foldl (decode_char context) st s = st.
Proof.
  induction 1 as [|c s Hc _ IH]; [done|]. cbn [foldl]. unfold decode_char at 2.
  by rewrite Hc.
Qed.

Lemma next_line_pos_ok linePos :
  ∃ lp sep, next_line_pos context linePos = Some (lp, sep) ∧
    Forall (λ c, char_value context c = BASE64_IGNORE) sep.
Proof.
  unfold next_line_pos, copy_separator. pose proof (ok_sep_len _ Hok).
  destruct (_ <? _); [|by eexists _, []; split].
  destruct (c_true _); [|by eexists _, []; split].
  replace (_ <? _) with false by lia. eexists _, _. split; [done|]. apply Hok.
Qed.

Lemma decode_encode_group d out c b0 b1 b2 :
  is_byte b0 → is_byte b1 → is_byte b2 →
  ∃ c', foldl (decode_char context) (mk_state d out c) (encode_group context b0 b1 b2)
        = mk_state d (out ++ [b0; b1; b2]) c'.
Proof.
  unfold is_byte. intros. rewrite encode_group_eq by done. cbn [fmap list_fmap].
  destruct (decode_group context _ _ _ _ _ _ _ _ _ _ _ _ d out c
    (reads_value (b0 / 4) ltac:(dlia)) (reads_value ((b0 mod 4) * 16 + b1 / 16) ltac:(dlia))
    (reads_value ((b1 mod 16) * 4 + b2 / 64) ltac:(dlia)) (reads_value (b2 mod 64) ltac:(dlia)))
    as [c' Hc'].
  exists c'. rewrite Hc'. unfold mk_state, group_bytes. f_equal; [lia|].
  f_equal. cons_eq dlia.
Qed.

(** Decoding the characters of whole groups, separators included. *)
Lemma decode_encode_loop n raw linePos d out c :
  length raw = (3 * n)%nat → Forall is_byte raw →
  ∃ o lp c', encode_loop context raw linePos = Some (o, lp) ∧
    foldl (decode_char context) (mk_state d out c) o = mk_state d (out ++ raw) c'.
Proof.
  revert raw linePos out c. induction n as [|n IH]; intros raw linePos out c Hl Hb.
  - destruct raw; [|done]. exists [], linePos, c. by rewrite app_nil_r.
  - destruct raw as [|b0 [|b1 [|b2 raw]]]; cbn [length] in Hl; try lia.
    rewrite !Forall_cons in Hb. destruct Hb as (Hb0 & Hb1 & Hb2 & Hb).
    cbn [encode_loop]. destruct (next_line_pos_ok linePos) as (lp & sep & -> & Hs).
    destruct (decode_encode_group d out c b0 b1 b2) as [c1 H1]; [done..|].
    destruct (IH raw lp (out ++ [b0; b1; b2]) c1) as (o & lp' & c' & -> & H2); [lia|done|].
    eexists _, _, c'. split; [done|].
    rewrite !foldl_app, (decode_ignored _ sep), H1, H2 by done. by rewrite <- app_assoc.
Qed.

(** The last group, its last [n] characters replaced by pads. *)
Lemma decode_last_group rest linePos out c :
  (length rest = 1 ∨ length rest = 2)%nat → Forall is_byte rest →
  let n := (3 - length rest)%nat in
  ∃ sep g lp c' x, encode_loop context (leftover_group rest) linePos = Some (sep ++ g, lp) ∧
    length g = 4%nat ∧ length x = n ∧
    foldl (decode_char context) (mk_state 0 out c)
      (sep ++ take (4 - n) g ++ replicate n (pad_ch context))
    = mk_state (Z.of_nat n) (out ++ rest ++ x) c'.
Proof.
  intros Hl Hb. cbv zeta. destruct (next_line_pos_ok linePos) as (lp & sep & Hn & Hs).
  destruct rest as [|b0 [|b1 [|]]]; cbn [length] in Hl; try lia;
    rewrite !Forall_cons in Hb; unfold is_byte in Hb; cbn [leftover_group encode_loop];
    rewrite Hn; rewrite app_nil_r, encode_group_eq by (unfold is_byte; lia);
    cbn [length Nat.sub replicate fmap list_fmap take app].
  - destruct (decode_group context _ _ _ _ _ _ _ _ _ _ _ _ 0 out c
      (reads_value (b0 / 4) ltac:(dlia)) (reads_value ((b0 mod 4) * 16 + 0 / 16) ltac:(dlia))
      reads_pad reads_pad) as [c' Hc'].
    eexists sep, _, lp, c', [_; _]. split_and!; [done..|].
    rewrite foldl_app, (decode_ignored _ sep Hs). cbn [take app]. rewrite Hc'. unfold mk_state, group_bytes. f_equal.
    f_equal. cons_eq dlia.
  - destruct (decode_group context _ _ _ _ _ _ _ _ _ _ _ _ 0 out c
      (reads_value (b0 / 4) ltac:(dlia)) (reads_value ((b0 mod 4) * 16 + b1 / 16) ltac:(dlia))
      (reads_value ((b1 mod 16) * 4 + 0 / 64) ltac:(dlia)) reads_pad) as [c' Hc'].
    eexists sep, _, lp, c', [_]. split_and!; [done..|].
    rewrite foldl_app, (decode_ignored _ sep Hs). cbn [take app]. rewrite Hc'. unfold mk_state, group_bytes. f_equal.
    f_equal. cons_eq dlia.
Qed.

(** What the encoder writes before it deals with the leftover bytes. *)
Lemma encode_decode_padded src :
  Forall is_byte src →
  ∃ out n c x, base64_encode_ex context src true = Some (out ++ replicate n (pad_ch context)) ∧
    base64_encode_ex context src false = Some out ∧ (n ≤ 2)%nat ∧
    foldl (decode_char context) decode_init (out ++ replicate n (pad_ch context))
    = mk_state (Z.of_nat n) (src ++ x) c ∧ length x = n ∧
    Z.of_nat (length src) + Z.of_nat n = 3 * groups (Z.of_nat (length src)).
Proof.
  intros Hb. destruct src as [|b src'] eqn:Esrc.
  { exists [], O, 0, []. split_and!; try done. lia. }
  rewrite <- Esrc in *. assert (src ≠ []) as Hne by by subst. clear Esrc.
  unfold base64_encode_ex. rewrite !(match_nonempty src) by done.
  set (whole := (length src / 3 * 3)%nat).
  pose proof (Nat.div_mod_eq (length src) 3) as Hdm.
  pose proof (Nat.mod_upper_bound (length src) 3 ltac:(lia)) as Hmod.
  destruct (decode_encode_loop (length src / 3) (take whole src) 0 0 [] 0)
    as (o & lp & c & -> & Hd); [rewrite length_take; lia|by apply Forall_take|].
  cbn [app] in Hd. change (mk_state 0 [] 0) with decode_init in Hd.
  assert (length (drop whole src) = length src mod 3)%nat as Hrl by (rewrite length_drop; lia).
  assert (length (drop whole src) = 0 ∨ length (drop whole src) = 1 ∨ length (drop whole src) = 2)%nat
    as Hcase by lia.
  assert (Hgr : ∀ n, (n = 0 ∧ length (drop whole src) = 0 ∨ length (drop whole src) + n = 3)%nat →
    (n < 3)%nat → Z.of_nat (length src) + Z.of_nat n = 3 * groups (Z.of_nat (length src))).
  { intros n Hn Hn3. unfold groups. dlia. }
  clear Hrl.
  pose proof (take_drop whole src) as Hsplit.
  assert (Forall is_byte (drop whole src)) as Hbr by by apply Forall_drop.
  revert Hgr Hbr Hcase Hsplit. generalize (drop whole src) as rest.
  intros rest Hgr Hbr [Hz|Hcase] Hsplit.
  { destruct rest; [|done]. rewrite app_nil_r in Hsplit. rewrite Hsplit in Hd. exists o, O, c, []. cbn. rewrite !app_nil_r.
    split_and!; [done..|lia|done|done|apply (Hgr O); cbn; lia]. }
  destruct (decode_last_group rest lp (take whole src) c Hcase Hbr)
    as (sep & g & lp' & c' & x & -> & Hg & Hx & Hd').
  exists (o ++ sep ++ take (4 - (3 - length rest)) g), (3 - length rest)%nat, c', x.
  rewrite <- !app_assoc, foldl_app, Hd, Hd', (app_assoc (take whole src)), Hsplit.
  assert (∀ b n, n = (3 - length rest)%nat → finish_pad context b (o ++ sep ++ g) n
    = o ++ sep ++ take (4 - n) g ++ if b then replicate n (pad_ch context) else []) as Hf.
  { intros bp n ->. unfold finish_pad. rewrite !length_app.
    rewrite !take_app, !(take_ge o), !(take_ge sep) by lia. rewrite <- !app_assoc.
    do 2 f_equal. f_equal. f_equal. lia. }
  destruct Hcase as [E|E]; rewrite E in *; rewrite !Hf by done; rewrite ?app_nil_r;
    (split_and!; [done..|lia|done|done|apply Hgr; lia]).
Qed.
End valid.

Lemma base64_decode_finish context dest n src x c :
  foldl (decode_char context) decode_init dest = mk_state (Z.of_nat n) (src ++ x) c →
  length x = n → base64_decode context dest = Some src.
Proof.
  intros E Hx. unfold base64_decode, base64_decode_to. rewrite E.
  cbn [mk_state cycle dummies decoded c_true Z.eqb negb].
  rewrite length_app, Hx.
  replace (Z.of_nat (length src + n) - Z.of_nat n) with (Z.of_nat (length src)) by lia.
  rewrite (proj2 (Z.ltb_ge _ 0)) by lia. unfold decoded_bytes. rewrite Nat2Z.id. f_equal.
  destruct (_ =? _).
  - rewrite <- app_assoc. by rewrite take_app_length.
  - rewrite take_insert_ge by lia. by rewrite take_app_length.
Qed.

Lemma decode_dummies context s st : dummies st ≤ dummies (foldl (decode_char context) st s).
Proof.
  revert st. induction s as [|c s IH]; intros st; cbn [foldl]; [lia|].
  etransitivity; [|apply IH]. unfold decode_char. destruct (_ =? BASE64_IGNORE); [lia|].
  unfold decode_value. destruct (_ =? BASE64_PAD); cbn; repeat (destruct (_ =? _); cbn); lia.
Qed.

Lemma base64_decode_to_bound context s w n :
  base64_decode_to context s = Some (w, n) → 0 ≤ n < Z.of_nat (length w).
Proof.
  unfold base64_decode_to. pose proof (decode_dummies context s decode_init) as Hd.
  set (st := foldl _ _ _) in *. cbn in Hd. destruct (c_true (cycle st)).
  - intros [= <- <-]. cbn [length]. lia.
  - destruct (Z.ltb_spec (Z.of_nat (length (decoded st)) - dummies st) 0); [done|].
    intros [= <- <-]. destruct (Z.eqb_spec (Z.of_nat (length (decoded st)) - dummies st)
      (Z.of_nat (length (decoded st)))) as [E|E].
    + rewrite length_app. cbn [length]. lia.
    + rewrite length_insert. lia.
Qed.

(** What a successful decoding leaves at the destination. *)
Lemma decoded_bytes_auto malloc_ok context s src :
  base64_decode_auto malloc_ok context s = Some src →
  ∃ x, base64_decode_auto_to malloc_ok context s = Some (src ++ x, Z.of_nat (length src)).
Proof.
  unfold base64_decode_auto, decoded_bytes.
  destruct (base64_decode_auto_to malloc_ok context s) as [[w n]|] eqn:E; [|done].
  assert (0 ≤ n < Z.of_nat (length w)) as Hn.
  { unfold base64_decode_auto_to in E. destruct (_ =? 0); [by eapply base64_decode_to_bound|].
    destruct (_ && _); [injection E as <- <-; cbn; lia|by eapply base64_decode_to_bound]. }
  intros [= <-]. exists (drop (Z.to_nat n) w). rewrite take_drop, length_take. do 2 f_equal. lia.
Qed.

(** ** The length of the encoding *)

Lemma encode_loop_app context a b linePos n :
  length a = (3 * n)%nat →
  encode_loop context (a ++ b) linePos =
  match encode_loop context a linePos with
  | Some (oa, lp) =>
      match encode_loop context b lp with
      | Some (ob, lp) => Some (oa ++ ob, lp)
      | None => None
      end
  | None => None
  end.
Proof.
  revert a linePos. induction n as [|n IH]; intros a linePos Hl.
  - destruct a; [|done]. cbn. by destruct (encode_loop context b linePos) as [[]|].
  - destruct a as [|b0 [|b1 [|b2 a]]]; cbn [length] in Hl; try lia. cbn [app encode_loop].
    destruct (next_line_pos context linePos) as [[lp sep]|]; [|done].
    rewrite IH by lia. destruct (encode_loop context a lp) as [[oa lp1]|]; [|done].
    destruct (encode_loop context b lp1) as [[ob lp2]|]; [|done].
    by rewrite <- !app_assoc.
Qed.

(** The separators before [n] groups, [q] groups into a line of [m]. *)
Definition separators (m q n : Z) : Z := if n =? 0 then 0 else if m =? 0 then 0 else (q + n - 1) / m.

Lemma encode_loop_length context raw n q m out lp :
  length raw = (3 * n)%nat → line_length context = 4 * m → 0 ≤ q ∧ (q ≤ m ∨ m = 0) → 0 ≤ m →
  0 ≤ line_sep_len context →
  encode_loop context raw (4 * q) = Some (out, lp) →
  Z.of_nat (length out) = 4 * Z.of_nat n + separators m q (Z.of_nat n) * line_sep_len context.
Proof.
  intros Hl HL Hq Hm Hsl. revert raw q out lp Hl Hq.
  induction n as [|n IH]; intros raw q out lp Hl Hq.
  { destruct raw; [|done]. intros [= <- <-]. done. }
  destruct raw as [|b0 [|b1 [|b2 raw]]]; cbn [length] in Hl; try lia. cbn [encode_loop].
  destruct (next_line_pos context (4 * q)) as [[lp1 sep]|] eqn:En; [|done].
  destruct (encode_loop context raw lp1) as [[o lp2]|] eqn:Eo; [|done]. intros [= <- <-].
  rewrite !length_app. change (length (encode_group _ _ _ _)) with 4%nat.
  unfold next_line_pos in En. rewrite HL in En.
  assert (∃ q', lp1 = 4 * q' ∧ (0 ≤ q' ∧ (q' ≤ m ∨ m = 0)) ∧
    Z.of_nat (length sep) + separators m q' (Z.of_nat n) * line_sep_len context
    = separators m q (Z.of_nat (S n)) * line_sep_len context) as (q' & -> & Hq' & Hs).
  { unfold separators. rewrite (proj2 (Z.eqb_neq (Z.of_nat (S n)) 0)) by lia.
    destruct (Z.ltb_spec (4 * m) (4 * q + 4)) as [Hlt|Hge].
    - assert (c_true (4 * m) = negb (m =? 0)) as Hc by (unfold c_true; lia). rewrite Hc in En.
      destruct (Z.eqb_spec m 0) as [->|Hm0]; cbn [negb] in En.
      + injection En as <- <-. exists 1. split; [done|]. split; [lia|]. cbn. by destruct (_ =? 0).
      + assert (q = m) as -> by lia.
        unfold copy_separator in En. destruct (Z.ltb_spec (Z.of_nat (length (line_separator context)))
          (line_sep_len context)); [done|]. injection En as <- <-.
        exists 1. split; [done|]. split; [lia|]. rewrite length_take.
        replace (m + Z.of_nat (S n) - 1) with (Z.of_nat n + 1 * m) by lia. rewrite Z.div_add by lia.
        destruct (Z.eqb_spec (Z.of_nat n) 0) as [Hn0|]; [rewrite Hn0, Z.div_0_l by lia; lia|].
        replace (1 + Z.of_nat n - 1) with (Z.of_nat n) by lia. lia.
    - injection En as <- <-. exists (q + 1). split; [lia|]. split; [lia|]. cbn [length].
      rewrite (proj2 (Z.eqb_neq m 0)) by lia.
      destruct (Z.eqb_spec (Z.of_nat n) 0) as [Hn0|]; [rewrite Z.div_small by lia; lia|].
      replace (q + 1 + Z.of_nat n - 1) with (q + Z.of_nat (S n) - 1) by lia.
      done. }
  pose proof (IH raw q' o lp2 ltac:(lia) Hq' Eo). cbn [length]. lia.
Qed.

Lemma separators_nonneg m n : 0 ≤ m → 0 ≤ n → 0 ≤ separators m 0 n.
Proof.
  intros. unfold separators. destruct (Z.eqb_spec n 0); [done|]. destruct (Z.eqb_spec m 0); [done|].
  apply Z.div_pos; lia.
Qed.

Lemma finish_pad_length context out n :
  (n ≤ length out)%nat → length (finish_pad context true out n) = length out.
Proof. intros. unfold finish_pad. rewrite length_app, length_take, length_replicate. lia. Qed.

Lemma encode_length_exact context m src out :
  line_length context = 4 * m → 0 ≤ m → 0 ≤ line_sep_len context →
  base64_encode_ex context src true = Some out →
  Z.of_nat (length out) = 4 * groups (Z.of_nat (length src))
    + separators m 0 (groups (Z.of_nat (length src))) * line_sep_len context.
Proof.
  intros HL Hm Hs. destruct (decide (src = [])) as [->|Hne]; [intros [= <-]; done|].
  unfold base64_encode_ex. rewrite (match_nonempty src) by done.
  assert (0 < length src)%nat as Hpos by (destruct src; [done|cbn; lia]).
  set (whole := (length src / 3 * 3)%nat).
  pose proof (Nat.div_mod_eq (length src) 3) as Hdm.
  pose proof (Nat.mod_upper_bound (length src) 3 ltac:(lia)) as Hmod.
  assert (length (drop whole src) = length src mod 3)%nat as Hrl by (rewrite length_drop; lia).
  set (g := groups (Z.of_nat (length src))).
  assert (0 < g) as Hg by (unfold g, groups; dlia).
  assert (length (take whole src ++ leftover_group (drop whole src)) = 3 * Z.to_nat g)%nat as Hgl.
  { rewrite length_app, length_take. unfold g, groups.
    destruct (drop whole src) as [|r0 [|r1 [|]]]; cbn [leftover_group length] in *; dlia. }
  pose proof (encode_loop_app context (take whole src) (leftover_group (drop whole src)) 0
    (length src / 3) ltac:(rewrite length_take; lia)) as Happ.
  destruct (encode_loop context (take whole src) 0) as [[o0 lp]|]; [|done].
  destruct (encode_loop context (leftover_group (drop whole src)) lp) as [[o1 lp1]|]; [|done].
  pose proof (encode_loop_length context _ _ 0 m _ _ Hgl HL ltac:(lia) Hm Hs Happ) as Hlen.
  rewrite Z2Nat.id in Hlen by lia.
  pose proof (separators_nonneg m g Hm ltac:(lia)) as Hsn.
  assert (4 ≤ Z.of_nat (length (o0 ++ o1))) as H4 by nia.
  intros [= <-]. rewrite Hrl.
  destruct (length src mod 3)%nat as [|[|[|]]]; rewrite ?finish_pad_length by lia; exact Hlen.
Qed.

(** ** The decoders invert the encoder *)

(** C36 Take a context that [base64_init_ex] builds from three distinct
    characters that are neither letters, digits nor the line feed, with any
    line length and any separator of at most 15 characters outside the
    alphabet.  Then [base64_decode] restores every byte string that
    [base64_encode] encoded with padding, separators included. *)
Theorem base64_decode_encode nLineLength chPlus chSplash chPad sep length src :
  special chPlus → special chSplash → special chPad →
  chPlus ≠ chSplash → chPlus ≠ chPad → chSplash ≠ chPad →
  (List.length sep ≤ 15)%nat →
  Forall (λ c, is_byte c ∧ is_alnum c = false ∧ c ∉ [chPlus; chSplash; chPad]) sep →
  Forall is_byte src →
  let context := base64_set_line_length (base64_set_line_separator
    (base64_init_ex nLineLength chPlus chSplash chPad) sep) length in
  ∃ dest, base64_encode_ex context src true = Some dest ∧ base64_decode context dest = Some src.
Proof.
  intros Hp Hs Hd H1 H2 H3 Hsl Hsep Hb. cbv zeta.
  pose proof (base64_init_ex_ok chPlus chSplash chPad nLineLength Hp Hs Hd H1 H2 H3) as Hok.
  assert (Hok' : context_ok (base64_set_line_length (base64_set_line_separator
    (base64_init_ex nLineLength chPlus chSplash chPad) sep) length)).
  { apply set_line_length_ok, set_line_separator_ok; [done|done|done|].
    eapply Forall_impl; [exact Hsep|]. intros c (Hc1 & Hc2 & Hc3).
    by apply (init_ignored chPlus chSplash chPad nLineLength Hp Hs Hd H1). }
  destruct (encode_decode_padded _ Hok' src Hb) as (out & n & c & x & E1 & _ & Hn & E & Hx & _).
  eexists. split; [exact E1|]. by eapply base64_decode_finish.
Qed.

Lemma base64_decode_encode_witness :
  let context := base64_set_line_length (base64_set_line_separator
    (base64_init_ex 0 43 47 61) [13; 10]) 4 in
  ∃ dest, base64_encode_ex context (bytes "hello") true = Some dest ∧
    base64_decode context dest = Some (bytes "hello").
Proof.
  assert (∀ c, c ∈ [43; 47; 61] → special c) as Hsp.
  { intros c Hc. rewrite !elem_of_cons in Hc.
    destruct Hc as [->|[->|[->|Hc]]]; [..|by apply not_elem_of_nil in Hc]; by split_and!. }
  apply (base64_decode_encode 0 43 47 61 [13; 10] 4 (bytes "hello"));
    [apply Hsp; repeat constructor..|done|done|done|cbn; lia| |repeat constructor; done].
  repeat constructor; try done;
    rewrite !not_elem_of_cons; split_and!; first [done|apply not_elem_of_nil].
Defined.

(** Without line separators the automatic decoder inverts the encoder with
    and without padding. *)
Lemma encode_auto_ok context (Hok : context_ok context) :
  line_length context = 0 → 0 ≤ line_sep_len context → ∀ bPad src, Forall is_byte src →
  ∃ dest, base64_encode_ex context src bPad = Some dest ∧
    base64_decode_auto true context dest = Some src ∧
    (bPad = false → Z.of_nat (length dest) = (4 * Z.of_nat (length src) + 2) / 3).
Proof.
  intros HL Hsl bPad src Hb.
  destruct (encode_decode_padded _ Hok src Hb) as (out & n & c & x & E1 & E2 & Hn & E & Hx & Hg).
  pose proof (encode_length_exact context 0 src _ HL ltac:(lia) Hsl E1) as Hl.
  assert (separators 0 0 (groups (Z.of_nat (length src))) = 0) as Hz
    by (unfold separators; by destruct (_ =? 0)).
  rewrite Hz, length_app, length_replicate in Hl. unfold base64_decode_auto, base64_decode_auto_to.
  destruct bPad.
  - eexists. split; [exact E1|]. rewrite length_app, length_replicate.
    rewrite (proj2 (Z.eqb_eq _ 0)) by dlia. split; [|done].
    by eapply (base64_decode_finish _ _ n).
  - eexists. split; [exact E2|]. split; [|intros _; unfold groups in *; dlia].
    destruct (Z.eqb_spec (Z.rem (Z.of_nat (length out)) 4) 0) as [Hr|Hr].
    + assert (n = O) as -> by dlia. rewrite app_nil_r in E. by eapply base64_decode_finish.
    + rewrite andb_false_r.
      assert (Z.to_nat (4 - Z.rem (Z.of_nat (length out)) 4) = n) as -> by dlia.
      by eapply base64_decode_finish.
Qed.

(** Without line separators, [base64_decode_auto] restores the bytes
    that were encoded without padding, and also those encoded with it. *)
Theorem base64_decode_auto_encode chPlus chSplash chPad bPad src :
  special chPlus → special chSplash → special chPad →
  chPlus ≠ chSplash → chPlus ≠ chPad → chSplash ≠ chPad → Forall is_byte src →
  let context := base64_init_ex 0 chPlus chSplash chPad in
  ∃ dest, base64_encode_ex context src bPad = Some dest ∧
    base64_decode_auto true context dest = Some src.
Proof.
  intros Hp Hs Hd H1 H2 H3 Hb. cbv zeta.
  pose proof (base64_init_ex_ok chPlus chSplash chPad 0 Hp Hs Hd H1 H2 H3) as Hok.
  destruct (encode_auto_ok _ Hok eq_refl ltac:(cbn; lia) bPad src Hb) as (dest & ? & ? & _).
  by exists dest.
Qed.

Lemma base64_decode_auto_encode_witness :
  ∃ dest, base64_encode_ex (base64_init_ex 0 45 95 46) (bytes "hello") false = Some dest ∧
    base64_decode_auto true (base64_init_ex 0 45 95 46) dest = Some (bytes "hello").
Proof.
  apply (base64_decode_auto_encode 45 95 46 false (bytes "hello"));
    try done; try (by split_and!); repeat constructor; done.
Defined.

(** [base64_get_encode_length] is the exact length of the padded
    encoding, line separators included (sources of up to 2^28 bytes). *)
Theorem base64_get_encode_length_exact context m src dest :
  line_length context = 4 * m → 0 ≤ m < 2 ^ 28 → 0 ≤ line_sep_len context ≤ 16 →
  Z.of_nat (length src) ≤ 2 ^ 28 →
  base64_encode_ex context src true = Some dest →
  base64_get_encode_length context (Z.of_nat (length src)) = Z.of_nat (length dest).
Proof.
  intros HL Hm Hs Hn E. rewrite (encode_length_exact context m src dest HL ltac:(lia) ltac:(lia) E).
  set (n := Z.of_nat (length src)) in *. assert (0 ≤ n) as Hn0 by lia.
  unfold base64_get_encode_length. rewrite (Z.quot_div_nonneg (n + 2) 3) by lia. fold (groups n).
  set (g := groups n). assert (0 ≤ g ≤ 89478486) as Hg by (unfold g, groups; dlia).
  rewrite (s32_id (g * 4)) by (unfold is_int32; lia).
  rewrite HL. unfold separators.
  destruct (Z.eqb_spec m 0) as [->|Hm0].
  { change (c_true (4 * 0)) with false. cbv iota. change (0 =? 0) with true. cbv iota. destruct (g =? 0); lia. }
  assert (c_true (4 * m) = true) as -> by (unfold c_true; by rewrite (proj2 (Z.eqb_neq (4 * m) 0)) by lia).
  destruct (Z.eqb_spec g 0) as [->|Hg0].
  - assert (Z.quot (0 * 4 + 4 * m - 1) (4 * m) = 0) as -> by (apply Z.quot_small; lia). done.
  - rewrite Z.quot_div_nonneg by lia.
    assert ((g * 4 + 4 * m - 1) / (4 * m) = (0 + g - 1) / m + 1) as ->.
    { symmetry. apply Z.div_unique with (r := 4 * ((g - 1) mod m) + 3); [left|];
        pose proof (Z.mod_pos_bound (g - 1) m ltac:(lia)); [lia|].
      pose proof (Z.div_mod (g - 1) m ltac:(lia)). replace (0 + g - 1) with (g - 1) by lia. nia. }
    pose proof (Z.div_le_upper_bound (0 + g - 1) m g ltac:(lia) ltac:(nia)) as Hub.
    pose proof (Z.div_pos (0 + g - 1) m ltac:(lia) ltac:(lia)) as Hlb.
    replace ((0 + g - 1) / m + 1 - 1) with ((0 + g - 1) / m) by lia.
    revert Hub Hlb. generalize ((0 + g - 1) / m). intros q Hub Hlb.
    destruct (Z.ltb_spec 0 q); [rewrite s32_id by (unfold is_int32; nia); lia|].
    assert (q = 0) as -> by lia. lia.
Qed.

Lemma base64_get_encode_length_exact_witness :
  base64_get_encode_length (base64_init 4) 5 = 9.
Proof.
  apply (base64_get_encode_length_exact (base64_init 4) 1 (bytes "hello") (bytes "aGVs" ++ 10 :: bytes "bG8="));
    [done|lia|cbn; lia|cbn; lia|reflexivity].
Defined.

(** Two limits of the decoders: four pad characters alone make
    [base64_decode] store its terminating NUL before the destination, and
    [base64_decode_auto], which pads after the total length, rejects a
    correctly padded text of more than one line (9 characters here). *)
Theorem base64_decode_limits :
  base64_decode (base64_init 0) (bytes "====") = None ∧
  base64_encode_ex (base64_init 4) (bytes "hello") true = Some (bytes "aGVs" ++ 10 :: bytes "bG8=") ∧
  base64_decode (base64_init 4) (bytes "aGVs" ++ 10 :: bytes "bG8=") = Some (bytes "hello") ∧
  base64_decode_auto true (base64_init 4) (bytes "aGVs" ++ 10 :: bytes "bG8=") = Some [].
Proof. vm_compute. done. Qed.
