(* ===== verification/TrunkShared.v ===== *)
(** * storage/trunk_mgr/trunk_shared.c: trunk file names, headers and lookup

    A trunk file packs many small files; each small file is a slot of the
    trunk: a 24-byte header followed by the content.  The name of a small
    file carries, in base64, the trunk file id, the offset and the size of
    its slot.  This file models the encoding of names and headers, the
    splitting of logical names, and the lookup of a file by its name, over
    a file system given as a parameter and an explicit table of open file
    descriptors. *)

From S2P Require Import Prelude CLib SharedFunc Base64.
From stdpp Require Import strings.
#[local] Open Scope Z_scope.

(** ** Constants (fdfs_global.h, tracker_types.h, trunk_shared.h) *)

Definition FDFS_FILE_EXT_NAME_MAX_LEN : Z := 6.
Definition FDFS_LOGIC_FILE_PATH_LEN : Z := 10.
Definition FDFS_TRUE_FILE_PATH_LEN : Z := 6.
Definition FDFS_FILENAME_BASE64_LENGTH : Z := 27.
Definition FDFS_TRUNK_FILE_INFO_LEN : Z := 16.
Definition FDFS_TRUNK_FILENAME_LENGTH : Z :=
  FDFS_TRUE_FILE_PATH_LEN + FDFS_FILENAME_BASE64_LENGTH + FDFS_TRUNK_FILE_INFO_LEN
  + 1 + FDFS_FILE_EXT_NAME_MAX_LEN.
Definition FDFS_TRUNK_LOGIC_FILENAME_LENGTH : Z :=
  FDFS_TRUNK_FILENAME_LENGTH + (FDFS_LOGIC_FILE_PATH_LEN - FDFS_TRUE_FILE_PATH_LEN).
Definition FDFS_STORAGE_STORE_PATH_PREFIX_CHAR : Z := 77.
Definition FDFS_TRUNK_FILE_HEADER_SIZE : Z := 17 + FDFS_FILE_EXT_NAME_MAX_LEN + 1.
Definition INFINITE_FILE_SIZE : Z := 256 * 1024 ^ 5.
Definition FDFS_APPENDER_FILE_SIZE : Z := INFINITE_FILE_SIZE.
Definition FDFS_TRUNK_FILE_MARK_SIZE : Z := 512 * 1024 ^ 5.
Definition MAX_PATH_SIZE : Z := 256.

Definition IS_TRUNK_FILE (file_size : Z) : bool := c_true (Z.land file_size FDFS_TRUNK_FILE_MARK_SIZE).
Definition FDFS_TRUNK_FILE_TRUE_SIZE (file_size : Z) : Z := Z.land file_size 0xFFFFFFFF.

Definition FDFS_TRUNK_STATUS_FREE : Z := 0.
Definition FDFS_TRUNK_STATUS_HOLD : Z := 1.
Definition FDFS_TRUNK_FILE_TYPE_NONE : Z := 0.
Definition FDFS_TRUNK_FILE_TYPE_REGULAR : Z := 70.
Definition FDFS_TRUNK_FILE_TYPE_LINK : Z := 76.

(** ** Data *)

Record FDFSTrunkHeader := {
  file_type : Z;
  formatted_ext_name : list Z; (* FDFS_FILE_EXT_NAME_MAX_LEN + 2 bytes *)
  h_alloc_size : Z;
  h_file_size : Z;
  h_crc32 : Z;
  h_mtime : Z;
}.

Record FDFSTrunkPathInfo := { store_path_index : Z; sub_path_high : Z; sub_path_low : Z }.
Record FDFSTrunkFileInfo := { tf_id : Z; tf_offset : Z; tf_size : Z }.
Record FDFSTrunkFullInfo := { status : Z; path : FDFSTrunkPathInfo; file : FDFSTrunkFileInfo }.

#[export] Instance FDFSTrunkPathInfo_eq_dec : EqDecision FDFSTrunkPathInfo.
Proof. solve_decision. Defined.
#[export] Instance FDFSTrunkFileInfo_eq_dec : EqDecision FDFSTrunkFileInfo.
Proof. solve_decision. Defined.
#[export] Instance FDFSTrunkFullInfo_eq_dec : EqDecision FDFSTrunkFullInfo.
Proof. solve_decision. Defined.

Record FDFSStorePaths := { path_count : Z; paths : list (list Z) }.

(** [trunk_shared_init] *)
Definition g_fdfs_base64_context : base64_context := base64_init_ex 0 CH_MINUS 95 CH_DOT.

(** [dest] after [written] was stored at its start. *)
Definition store_at (dest written : list Z) : list Z := written ++ drop (length written) dest.

(** ** Names of trunk files *)

Definition TRUNK_GET_FILENAME (file_id : Z) : list Z := sprintf_0d 6 file_id.

(** [snprintf] into a buffer of [buff_size] bytes. *)
Definition snprintf (buff_size : Z) (s : list Z) : list Z := take (Z.to_nat (buff_size - 1)) s.

Definition trunk_get_full_filename_ex (pStorePaths : FDFSStorePaths) (pTrunkInfo : FDFSTrunkFullInfo)
    (buff_size : Z) : option (list Z) :=
  pStorePath ← paths pStorePaths !! Z.to_nat (store_path_index (path pTrunkInfo));
  Some (snprintf buff_size
    (pStorePath ++ bytes "/data/" ++ sprintf_02X (sub_path_high (path pTrunkInfo)) ++ bytes "/"
     ++ sprintf_02X (sub_path_low (path pTrunkInfo)) ++ bytes "/"
     ++ TRUNK_GET_FILENAME (tf_id (file pTrunkInfo)))).

(** ** The header of a slot *)

Definition trunk_pack_header (pTrunkHeader : FDFSTrunkHeader) : list Z :=
  [file_type pTrunkHeader] ++ int2buff (h_alloc_size pTrunkHeader)
  ++ int2buff (h_file_size pTrunkHeader) ++ int2buff (h_crc32 pTrunkHeader)
  ++ int2buff (h_mtime pTrunkHeader)
  ++ take (Z.to_nat (FDFS_FILE_EXT_NAME_MAX_LEN + 1)) (formatted_ext_name pTrunkHeader).

Definition trunk_unpack_header (buff : list Z) : option FDFSTrunkHeader :=
  file_type ← head buff;
  alloc_size ← buff2int (drop 1 buff);
  file_size ← buff2int (drop 5 buff);
  crc32 ← buff2int (drop 9 buff);
  mtime ← buff2int (drop 13 buff);
  ext ← read_at buff 17 (FDFS_FILE_EXT_NAME_MAX_LEN + 1);
  Some {| file_type := file_type; formatted_ext_name := ext ++ [0]; h_alloc_size := alloc_size;
          h_file_size := file_size; h_crc32 := crc32; h_mtime := mtime |}.

(** ** The slot in a file name *)

Definition trunk_file_info_encode (pTrunkFile : FDFSTrunkFileInfo) : option (list Z) :=
  base64_encode_ex g_fdfs_base64_context
    (int2buff (tf_id pTrunkFile) ++ int2buff (tf_offset pTrunkFile) ++ int2buff (tf_size pTrunkFile)) false.

(** [stale] is the uninitialised content of the local buffer. *)
Definition trunk_file_info_decode (stale str : list Z) : option FDFSTrunkFileInfo :=
  str ← read_at str 0 FDFS_TRUNK_FILE_INFO_LEN;
  '(written, _) ← base64_decode_auto_to true g_fdfs_base64_context str;
  let buff := store_at stale written in
  i ← buff2int buff;
  o ← buff2int (drop 4 buff);
  s ← buff2int (drop 8 buff);
  Some {| tf_id := i; tf_offset := o; tf_size := s |}.

(** ** Splitting a logical file name *)

(** [SPLIT_FILENAME_BODY]: [logic_filename] is the memory from the first
    character; the result is the error code or the new length, the true
    file name with the byte after it, and the store path index. *)
Definition SPLIT_FILENAME_BODY (npaths : Z) (logic_filename : list Z) (filename_len : Z)
    (check_path_index : bool) : option (Z + Z * list Z * Z) :=
  if filename_len <=? FDFS_LOGIC_FILE_PATH_LEN then Some (inl EINVAL)
  else
    match logic_filename with
    | c0 :: c1 :: c2 :: c3 :: rest =>
        if negb (c0 =? FDFS_STORAGE_STORE_PATH_PREFIX_CHAR) then
          true_filename ← read_at logic_filename 0 (filename_len + 1);
          Some (inr (filename_len, true_filename, 0))
        else if negb (c3 =? CH_SLASH) then Some (inl EINVAL)
        else
          let '(store_path_index, pEnd) := strtol 16 (c_string [c1; c2]) in
          if negb (bool_decide (pEnd = [])) then Some (inl EINVAL)
          else if check_path_index &&
            ((store_path_index <? 0) || (npaths <=? store_path_index)) then Some (inl EINVAL)
          else
            true_filename ← read_at rest 0 (filename_len - 4 + 1);
            Some (inr (filename_len - 4, true_filename, store_path_index))
    | _ => None
    end.

(** The store path itself instead of its index. *)
Definition storage_split_filename (g_fdfs_store_paths : FDFSStorePaths) (logic_filename : list Z)
    (filename_len : Z) : option (Z + Z * list Z * list Z) :=
  r ← SPLIT_FILENAME_BODY (path_count g_fdfs_store_paths) logic_filename filename_len true;
  match r with
  | inl e => Some (inl e)
  | inr (len, name, index) =>
      p ← paths g_fdfs_store_paths !! Z.to_nat index;
      Some (inr (len, name, p))
  end.

Definition storage_split_filename_ex (g_fdfs_store_paths : FDFSStorePaths) (logic_filename : list Z)
    (filename_len : Z) : option (Z + Z * list Z * Z) :=
  SPLIT_FILENAME_BODY (path_count g_fdfs_store_paths) logic_filename filename_len true.

Definition storage_split_filename_no_check (logic_filename : list Z) (filename_len : Z)
    : option (Z + Z * list Z * Z) :=
  SPLIT_FILENAME_BODY 0 logic_filename filename_len false.

(** ** Recognising trunk files *)

Definition fdfs_is_trunk_file (remote_filename : list Z) (filename_len : Z) : option bool :=
  if negb (filename_len =? FDFS_TRUNK_LOGIC_FILENAME_LENGTH) then Some false
  else
    str ← read_at remote_filename FDFS_LOGIC_FILE_PATH_LEN FDFS_FILENAME_BASE64_LENGTH;
    '(written, _) ← base64_decode_auto_to true g_fdfs_base64_context str;
    file_size ← buff2long (drop 8 (store_at (replicate 64 0) written));
    Some (IS_TRUNK_FILE file_size).

(** The sub path fields from the start of a true file name. *)
Definition decode_path (store_path_index : Z) (true_filename : list Z) : FDFSTrunkPathInfo :=
  {| store_path_index := u8 store_path_index;
     sub_path_high := u8 (strtol 16 true_filename).1;
     sub_path_low := u8 (strtol 16 (drop 3 true_filename)).1 |}.

Definition fdfs_decode_trunk_info (stale : list Z) (store_path_index : Z) (true_filename : list Z)
    (filename_len : Z) (pTrunkInfo : FDFSTrunkFullInfo) : option (Z * FDFSTrunkFullInfo) :=
  if negb (filename_len =? FDFS_TRUNK_FILENAME_LENGTH) then Some (EINVAL, pTrunkInfo)
  else
    f ← trunk_file_info_decode stale
          (drop (Z.to_nat (FDFS_TRUE_FILE_PATH_LEN + FDFS_FILENAME_BASE64_LENGTH)) true_filename);
    Some (0, {| status := status pTrunkInfo; path := decode_path store_path_index true_filename;
                file := f |}).

(** ** Looking a file up by its name *)

Record stat := { st_mode : Z; st_size : Z; st_mtime : Z }.

Definition S_IFREG : Z := 0x8000.
Definition S_IFLNK : Z := 0xA000.
Definition S_ISLNK (m : Z) : bool := Z.land m 0xF000 =? 0xA000.
Definition FDFS_STAT_FUNC_STAT : Z := 0.
Definition FDFS_STAT_FUNC_LSTAT : Z := 1.

(** The file system: what [stat] and [lstat] say of a path (an errno or a
    [struct stat]), the content of a path that [open] can read (or its
    errno), and the bytes a [read] at a position returns.  [fs_errno] is
    the value of [errno] after a successful system call. *)
Class FileSystem := {
  fs_stat : Z → list Z → Z + stat;
  fs_open : list Z → Z + list Z;
  fs_read : list Z → Z → Z → option (list Z);
  fs_errno : Z;
}.

(** The open file descriptors, each with the content of its file and its
    position, and the next descriptor [open] returns. *)
Record fd_table := { fds : gmap Z (list Z * Z); next_fd : Z }.

Definition errno_or (errno dflt : Z) : Z := if c_true errno then errno else dflt.

Section lookup.
Context `{FileSystem}.

Definition fd_open (filename : list Z) : prog fd_table (Z + Z) :=
  λ t, match fs_open filename with
       | inl e => Some (inl e, t)
       | inr content =>
           Some (inr (next_fd t),
                 {| fds := <[next_fd t := (content, 0)]> (fds t); next_fd := next_fd t + 1 |})
       end.

Definition fd_close (fd : Z) : prog fd_table unit :=
  modify (λ t, {| fds := delete fd (fds t); next_fd := next_fd t |}).

(** A negative offset is [EINVAL]. *)
Definition fd_lseek (fd offset : Z) : prog fd_table Z :=
  t ← get;
  '(content, _) ← deref (fds t !! fd);
  if offset <? 0 then mret EINVAL
  else
    modify (λ t, {| fds := <[fd := (content, offset)]> (fds t); next_fd := next_fd t |});;
    mret 0.

Definition fd_read (fd n : Z) : prog fd_table (option (list Z)) :=
  t ← get;
  '(content, pos) ← deref (fds t !! fd);
  match fs_read content pos n with
  | None => mret None
  | Some bytes =>
      modify (λ t, {| fds := <[fd := (content, pos + Z.of_nat (length bytes))]> (fds t);
                      next_fd := next_fd t |});;
      mret (Some bytes)
  end.

(** [pfd]: [None] is NULL, [Some fd] a descriptor. *)
Definition trunk_file_get_content_ex (pStorePaths : FDFSStorePaths)
    (pTrunkInfo : FDFSTrunkFullInfo) (file_size : Z) (pfd : option Z) (buff_size : Z)
    : prog fd_table (Z * list Z) :=
  if buff_size <? file_size then mret (ENOSPC, [])
  else
    opened ←
      match pfd with
      | Some fd => mret (inr fd)
      | None =>
          full_filename ← deref (trunk_get_full_filename_ex pStorePaths pTrunkInfo MAX_PATH_SIZE);
          r ← fd_open full_filename;
          match r with
          | inl e => mret (inl (errno_or e EIO))
          | inr fd =>
              e ← fd_lseek fd (tf_offset (file pTrunkInfo) + FDFS_TRUNK_FILE_HEADER_SIZE);
              if c_true e then fd_close fd;; mret (inl (errno_or e EIO)) else mret (inr fd)
          end
      end;
    match opened with
    | inl e => mret (e, [])
    | inr fd =>
        r ← fd_read fd file_size;
        let result :=
          match r with
          | Some bytes =>
              if Z.of_nat (length bytes) =? file_size then (0, bytes)
              else (errno_or fs_errno EINVAL, [])
          | None => (errno_or fs_errno EINVAL, [])
          end in
        match pfd with
        | None => fd_close fd;; mret result
        | Some _ => mret result
        end
    end.

(** [stat] or [lstat] of a file that is not in a trunk. *)
Definition stat_plain (pStorePaths : FDFSStorePaths) (store_path_index : Z)
    (true_filename : list Z) (stat_func : Z) : prog fd_table (Z + stat) :=
  store_path ← deref (paths pStorePaths !! Z.to_nat store_path_index);
  let full_filename := snprintf MAX_PATH_SIZE (store_path ++ bytes "/data/" ++ c_string true_filename) in
  match fs_stat stat_func full_filename with
  | inr st => mret (inr st)
  | inl e => mret (inl (errno_or e ENOENT))
  end.

(** What a lookup fills in. *)
Record lookup_out := {
  out_stat : stat;
  out_info : FDFSTrunkFullInfo;
  out_header : FDFSTrunkHeader;
  out_fd : Z; (* [*pfd] *)
}.

Definition set_info (o : lookup_out) (i : FDFSTrunkFullInfo) : lookup_out :=
  {| out_stat := out_stat o; out_info := i; out_header := out_header o; out_fd := out_fd o |}.
Definition set_stat (o : lookup_out) (s : stat) : lookup_out :=
  {| out_stat := s; out_info := out_info o; out_header := out_header o; out_fd := out_fd o |}.
Definition set_header (o : lookup_out) (h : FDFSTrunkHeader) : lookup_out :=
  {| out_stat := out_stat o; out_info := out_info o; out_header := h; out_fd := out_fd o |}.
Definition set_fd (o : lookup_out) (fd : Z) : lookup_out :=
  {| out_stat := out_stat o; out_info := out_info o; out_header := out_header o; out_fd := fd |}.
Definition set_id (i : FDFSTrunkFullInfo) (n : Z) : FDFSTrunkFullInfo :=
  {| status := status i; path := path i;
     file := {| tf_id := n; tf_offset := tf_offset (file i); tf_size := tf_size (file i) |} |}.
Definition set_file_type (h : FDFSTrunkHeader) (c : Z) : FDFSTrunkHeader :=
  {| file_type := c; formatted_ext_name := formatted_ext_name h; h_alloc_size := h_alloc_size h;
     h_file_size := h_file_size h; h_crc32 := h_crc32 h; h_mtime := h_mtime h |}.

(** The mode of a header's file type; [None] is no file. *)
Definition file_type_mode (c : Z) : option Z :=
  if c =? FDFS_TRUNK_FILE_TYPE_REGULAR then Some S_IFREG
  else if c =? FDFS_TRUNK_FILE_TYPE_LINK then Some S_IFLNK
  else None.

(** The header fields that the name itself gives. *)
Definition header_of_name (true_filename : list Z) (filename_len : Z) (buff : list Z)
    (f : FDFSTrunkFileInfo) (h : FDFSTrunkHeader) : option FDFSTrunkHeader :=
  file_size ← buff2long (drop 8 buff);
  mtime ← buff2int (drop 4 buff);
  crc32 ← buff2int (drop 16 buff);
  ext ← read_at true_filename (filename_len - (FDFS_FILE_EXT_NAME_MAX_LEN + 1))
          (FDFS_FILE_EXT_NAME_MAX_LEN + 2);
  Some {| file_type := file_type h; formatted_ext_name := ext; h_alloc_size := tf_size f;
          h_file_size := s32 (FDFS_TRUNK_FILE_TRUE_SIZE file_size); h_crc32 := crc32; h_mtime := mtime |}.

(** The part of [trunk_file_do_lstat_func_ex] from the [open] on: reads
    the header of the slot and compares it with the one the name gives. *)
Definition read_slot_header (pStorePaths : FDFSStorePaths) (pfd : bool) (o : lookup_out)
    : prog fd_table (Z * lookup_out) :=
  full_filename ← deref (trunk_get_full_filename_ex pStorePaths (out_info o) MAX_PATH_SIZE);
  r ← fd_open full_filename;
  match r with
  | inl e => mret (errno_or e EIO, o)
  | inr fd =>
      e ← fd_lseek fd (tf_offset (file (out_info o)));
      if c_true e then fd_close fd;; mret (errno_or e EIO, o)
      else
        r ← fd_read fd FDFS_TRUNK_FILE_HEADER_SIZE;
        match r with
        | None => fd_close fd;; mret (errno_or fs_errno EINVAL, o)
        | Some buff =>
            if negb (Z.of_nat (length buff) =? FDFS_TRUNK_FILE_HEADER_SIZE) then
              fd_close fd;; mret (errno_or fs_errno EINVAL, o)
            else
              ft ← deref (head buff);
              let h := set_file_type (out_header o) ft in
              let o := set_header (set_stat o {| st_mode := 0; st_size := 0; st_mtime := 0 |}) h in
              match file_type_mode ft with
              | None => fd_close fd;; mret (ENOENT, o)
              | Some mode =>
                  if c_true (memcmp (trunk_pack_header h) buff) then
                    fd_close fd;;
                    mret (ENOENT, set_stat o {| st_mode := mode; st_size := 0; st_mtime := 0 |})
                  else
                    let o := set_stat o {| st_mode := mode; st_size := h_file_size h; st_mtime := h_mtime h |} in
                    if pfd then mret (0, set_fd o fd)
                    else fd_close fd;; mret (0, o)
              end
        end
  end.

(** [pfd] says whether the pointer to the descriptor is given; [stale] is
    the uninitialised buffer of [trunk_file_info_decode]. *)
Definition trunk_file_do_lstat_func_ex (stale : list Z) (pStorePaths : FDFSStorePaths)
    (store_path_index : Z) (true_filename : list Z) (filename_len stat_func : Z) (pfd : bool)
    (o : lookup_out) : prog fd_table (Z * lookup_out) :=
  let o := set_info o (set_id (out_info o) 0) in
  let plain :=
    r ← stat_plain pStorePaths store_path_index true_filename stat_func;
    match r with
    | inr st => mret (0, set_stat o st)
    | inl e => mret (e, o)
    end in
  if negb (filename_len =? FDFS_TRUNK_FILENAME_LENGTH) then plain
  else
    str ← deref (read_at true_filename FDFS_TRUE_FILE_PATH_LEN FDFS_FILENAME_BASE64_LENGTH);
    '(written, _) ← deref (base64_decode_auto_to true g_fdfs_base64_context str);
    let buff := store_at (replicate 128 0) written in
    file_size ← deref (buff2long (drop 8 buff));
    if negb (IS_TRUNK_FILE file_size) then plain
    else
      f ← deref (trunk_file_info_decode stale
            (drop (Z.to_nat (FDFS_TRUE_FILE_PATH_LEN + FDFS_FILENAME_BASE64_LENGTH)) true_filename));
      h ← deref (header_of_name true_filename filename_len buff f (out_header o));
      read_slot_header pStorePaths pfd
        (set_header (set_info o {| status := status (out_info o);
           path := decode_path store_path_index true_filename; file := f |}) h).

Definition fd_arg (pfd : bool) (o : lookup_out) : option Z := if pfd then Some (out_fd o) else None.

(** [stat] follows a link stored in a trunk once. *)
Definition trunk_file_stat_func_ex (stale : list Z) (pStorePaths : FDFSStorePaths)
    (store_path_index : Z) (true_filename : list Z) (filename_len stat_func : Z) (pfd : bool)
    (o : lookup_out) : prog fd_table (Z * lookup_out) :=
  '(result, o) ← trunk_file_do_lstat_func_ex stale pStorePaths store_path_index true_filename
                   filename_len stat_func pfd o;
  if c_true result then mret (result, o)
  else if negb ((stat_func =? FDFS_STAT_FUNC_STAT) && (0 <? tf_id (file (out_info o)))
                && S_ISLNK (st_mode (out_stat o))) then mret (0, o)
  else
    '(result, o) ←
      ('(result, content) ← trunk_file_get_content_ex pStorePaths (out_info o)
                              (st_size (out_stat o)) (fd_arg pfd o) 127;
       if c_true result then mret (result, o)
       else
         r ← deref (storage_split_filename_no_check (content ++ [0]) (st_size (out_stat o)));
         match r with
         | inl e => mret (e, o)
         | inr (src_filename_len, src_true_filename, src_store_path_index) =>
             if (src_store_path_index <? 0) || (path_count pStorePaths <=? src_store_path_index) then
               mret (EINVAL, o)
             else
               o ← (if pfd then fd_close (out_fd o);; mret (set_fd o (-1)) else mret o);
               trunk_file_do_lstat_func_ex stale pStorePaths src_store_path_index
                 src_true_filename src_filename_len stat_func pfd o
         end);
    if c_true result && pfd && (0 <=? out_fd o) then
      fd_close (out_fd o);; mret (result, set_fd o (-1))
    else mret (result, o).
End lookup.

(** * Lemmas *)

(** ** Headers *)

Definition header_ok (h : FDFSTrunkHeader) : Prop :=
  is_int32 (h_alloc_size h) ∧ is_int32 (h_file_size h) ∧ is_int32 (h_crc32 h) ∧ is_int32 (h_mtime h) ∧
  ∃ ext, length ext = 7%nat ∧ formatted_ext_name h = ext ++ [0].

Lemma trunk_pack_header_length h :
  header_ok h → Z.of_nat (length (trunk_pack_header h)) = FDFS_TRUNK_FILE_HEADER_SIZE.
Proof.
  intros (_ & _ & _ & _ & ext & Hl & E). unfold trunk_pack_header. rewrite E.
  change (Z.to_nat (FDFS_FILE_EXT_NAME_MAX_LEN + 1)) with 7%nat.
  rewrite take_app_length' by done. rewrite !length_app, Hl. done.
Qed.

Lemma buff2int_int2buff n r : is_int32 n → buff2int (int2buff n ++ r) = Some n.
Proof.
  intros Hn. rewrite <- (s32_id n) at 2 by done. rewrite <- s32_u32, <- int2buff_value.
  apply (buff2int_value _ _ _ _ r), int2buff_bytes.
Qed.

Lemma buff2long_long2buff n r : is_int64 n → buff2long (long2buff n ++ r) = Some n.
Proof.
  intros Hn. rewrite <- (s64_id n) at 2 by done. rewrite <- s64_mod64, <- long2buff_value.
  apply (buff2long_value _ _ _ _ _ _ _ _ r), long2buff_bytes.
Qed.

Lemma read_at_app a b c n m :
  n = Z.of_nat (length a) → m = Z.of_nat (length b) → read_at (a ++ b ++ c) n m = Some b.
Proof.
  intros -> ->. unfold read_at. rewrite !length_app.
  rewrite (proj2 (Z.ltb_ge _ 0)), (proj2 (Z.ltb_ge _ 0)), (proj2 (Z.ltb_ge _ _)) by lia. cbn [orb].
  by rewrite !Nat2Z.id, drop_app_length, take_app_length.
Qed.

(** [trunk_unpack_header] restores the header [trunk_pack_header]
    packed, in exactly FDFS_TRUNK_FILE_HEADER_SIZE bytes, whatever follows
    it: negative fields and every extension of seven bytes included. *)
Theorem trunk_header_roundtrip h r :
  header_ok h →
  trunk_unpack_header (trunk_pack_header h ++ r) = Some h ∧
  Z.of_nat (length (trunk_pack_header h)) = FDFS_TRUNK_FILE_HEADER_SIZE.
Proof.
  intros Hok. split; [|by apply trunk_pack_header_length].
  destruct Hok as (Ha & Hf & Hc & Hm & ext & Hl & E).
  unfold trunk_pack_header. rewrite E. change (Z.to_nat (FDFS_FILE_EXT_NAME_MAX_LEN + 1)) with 7%nat.
  rewrite take_app_length' by done. rewrite <- !app_assoc. unfold trunk_unpack_header.
  change (head (?x :: _)) with (Some x). cbn [mbind option_bind app head].
  change (drop 1 (?x :: ?l)) with (drop 0 l). rewrite drop_0.
  rewrite buff2int_int2buff by done. cbn [mbind option_bind].
  change (drop 5 (?x :: int2buff ?a ++ ?l)) with (drop 0 l). rewrite drop_0.
  rewrite buff2int_int2buff by done. cbn [mbind option_bind].
  change (drop 9 (?x :: int2buff ?a ++ int2buff ?b ++ ?l)) with (drop 0 l). rewrite drop_0.
  rewrite buff2int_int2buff by done. cbn [mbind option_bind].
  change (drop 13 (?x :: int2buff ?a ++ int2buff ?b ++ int2buff ?c ++ ?l)) with (drop 0 l).
  rewrite drop_0, buff2int_int2buff by done. cbn [mbind option_bind].
  rewrite (app_comm_cons _ _ (file_type h)), !app_assoc, <- (app_assoc _ ext).
  rewrite (read_at_app _ ext) by (rewrite ?Hl; done). cbn [mbind option_bind].
  rewrite <- E. by destruct h.
Qed.

Lemma trunk_header_roundtrip_witness :
  let h := {| file_type := 70; formatted_ext_name := bytes "12.jpeg" ++ [0]; h_alloc_size := 1024;
              h_file_size := 1000; h_crc32 := -5; h_mtime := 1400000000 |} in
  trunk_unpack_header (trunk_pack_header h ++ [1; 2]) = Some h.
Proof.
  apply trunk_header_roundtrip. split_and!; try (unfold is_int32; cbn; lia).
  exists (bytes "12.jpeg"). done.
Defined.

(** ** The slot in a name *)

Lemma c_string_no_nul s : 0 ∉ s → c_string s = s.
Proof.
  induction s as [|c s IH]; [done|]. rewrite not_elem_of_cons. intros [Hc Hs]. cbn.
  rewrite (proj2 (Z.eqb_neq c 0)) by done. by rewrite IH.
Qed.

Lemma g_context_ok : context_ok g_fdfs_base64_context.
Proof.
  apply base64_init_ex_ok; try (by split_and!); done.
Qed.

(** The characters of a name that encode [src]. *)
Lemma name_base64 src :
  Forall is_byte src →
  ∃ str, base64_encode_ex g_fdfs_base64_context src false = Some str ∧
    Z.of_nat (length str) = (4 * Z.of_nat (length src) + 2) / 3 ∧
    ∃ x, base64_decode_auto_to true g_fdfs_base64_context str
         = Some (src ++ x, Z.of_nat (length src)).
Proof.
  intros Hb.
  destruct (encode_auto_ok _ g_context_ok eq_refl ltac:(cbn; lia) false src Hb) as (str & E & Hd & Hl).
  exists str. split_and!; [done|by apply Hl|]. by apply decoded_bytes_auto.
Qed.

Definition file_ok (f : FDFSTrunkFileInfo) : Prop :=
  is_int32 (tf_id f) ∧ is_int32 (tf_offset f) ∧ is_int32 (tf_size f).

Lemma trunk_file_info_roundtrip f :
  file_ok f →
  ∃ str, trunk_file_info_encode f = Some str ∧ Z.of_nat (length str) = FDFS_TRUNK_FILE_INFO_LEN ∧
    ∀ stale r, trunk_file_info_decode stale (str ++ r) = Some f.
Proof.
  intros (Hi & Ho & Hs).
  destruct (name_base64 (int2buff (tf_id f) ++ int2buff (tf_offset f) ++ int2buff (tf_size f)))
    as (str & E & Hl & x & Hd).
  { rewrite !Forall_app. split_and!; apply int2buff_bytes. }
  exists str. split_and!; [exact E|exact Hl|]. intros stale r. unfold trunk_file_info_decode.
  change (str ++ r) with ([] ++ str ++ r). rewrite (read_at_app [] str) by (rewrite ?Hl; done).
  cbn [mbind option_bind]. rewrite Hd. cbn [mbind option_bind]. unfold store_at.
  rewrite <- !app_assoc. rewrite buff2int_int2buff by done. cbn [mbind option_bind].
  change (drop 4 (int2buff ?a ++ ?l)) with (drop 0 l). rewrite drop_0.
  rewrite buff2int_int2buff by done. cbn [mbind option_bind].
  change (drop 8 (int2buff ?a ++ int2buff ?b ++ ?l)) with (drop 0 l). rewrite drop_0.
  rewrite buff2int_int2buff by done. cbn [mbind option_bind]. by destruct f.
Qed.

(** ** Logical names *)

(** Two hexadecimal digits followed by a slash read back. *)
Lemma sprintf_02X_length n : 0 ≤ n < 256 → length (sprintf_02X n) = 2%nat.
Proof. intros. all_below 256 n. Qed.

Lemma strtol_sprintf_02X n r :
  0 ≤ n < 256 → strtol 16 (sprintf_02X n ++ CH_SLASH :: r) = (n, CH_SLASH :: r).
Proof. intros. all_below 256 n. Qed.

Lemma strtol_sprintf_02X_nil n :
  0 ≤ n < 256 → strtol 16 (c_string (sprintf_02X n)) = (n, []).
Proof. intros. all_below 256 n. Qed.

(** The logical name of the file [name] of store path [index]. *)
Definition logic_name (index : Z) (name : list Z) : list Z :=
  FDFS_STORAGE_STORE_PATH_PREFIX_CHAR :: sprintf_02X index ++ CH_SLASH :: name.

Lemma logic_name_cons index name :
  0 ≤ index < 256 → ∃ c1 c2, sprintf_02X index = [c1; c2] ∧
    logic_name index name = FDFS_STORAGE_STORE_PATH_PREFIX_CHAR :: c1 :: c2 :: CH_SLASH :: name.
Proof.
  intros Hi. pose proof (sprintf_02X_length index Hi) as Hl. unfold logic_name.
  destruct (sprintf_02X index) as [|c1 [|c2 [|]]]; try done. by exists c1, c2.
Qed.

Lemma split_logic_name npaths index name check :
  0 ≤ index < 256 → (7 ≤ length name)%nat →
  SPLIT_FILENAME_BODY npaths (logic_name index name ++ [0])
    (Z.of_nat (length (logic_name index name))) check
  = Some (if check && (npaths <=? index) then inl EINVAL
          else inr (Z.of_nat (length name), name ++ [0], index)).
Proof.
  intros Hi Hl. destruct (logic_name_cons index name Hi) as (c1 & c2 & E & ->).
  unfold SPLIT_FILENAME_BODY. rewrite (proj2 (Z.leb_gt _ _)) by (cbn [length]; unfold FDFS_LOGIC_FILE_PATH_LEN; lia).
  cbn [app]. rewrite Z.eqb_refl. cbn [negb]. rewrite Z.eqb_refl. cbn [negb].
  rewrite <- E, strtol_sprintf_02X_nil by done. rewrite bool_decide_eq_true_2 by done. cbn [negb].
  rewrite (proj2 (Z.ltb_ge _ _)) by lia. cbn [orb].
  destruct (check && _); [done|].
  change (name ++ [0]) with ([] ++ name ++ [0]). rewrite <- (app_nil_r (name ++ [0])).
  rewrite (read_at_app [] (name ++ [0])); [|done|rewrite length_app; cbn [length]; lia].
  cbn [mbind option_bind length]. rewrite ?app_nil_r. do 4 f_equal; lia.
Qed.

(** A logical name "Mxx/name" splits into the store path index xx and
    the true name; an index that is not below the number of store paths is
    refused by the checking variants ([storage_split_filename],
    [storage_split_filename_ex]) and passed through by
    [storage_split_filename_no_check]. *)
Theorem storage_split_filename_spec store_paths index name :
  0 ≤ index < 256 → (7 ≤ length name)%nat → length (paths store_paths) = Z.to_nat (path_count store_paths) →
  let mem := logic_name index name ++ [0] in
  let len := Z.of_nat (length (logic_name index name)) in
  storage_split_filename_no_check mem len = Some (inr (Z.of_nat (length name), name ++ [0], index)) ∧
  (index < path_count store_paths →
     storage_split_filename_ex store_paths mem len
     = Some (inr (Z.of_nat (length name), name ++ [0], index)) ∧
     ∃ p, paths store_paths !! Z.to_nat index = Some p ∧
       storage_split_filename store_paths mem len
       = Some (inr (Z.of_nat (length name), name ++ [0], p))) ∧
  (path_count store_paths ≤ index →
     storage_split_filename_ex store_paths mem len = Some (inl EINVAL) ∧
     storage_split_filename store_paths mem len = Some (inl EINVAL)).
Proof.
  intros Hi Hl Hp. cbv zeta.
  unfold storage_split_filename_no_check, storage_split_filename_ex, storage_split_filename.
  rewrite !split_logic_name by done. cbn [andb mbind option_bind]. split_and!; [done| |].
  - intros Hlt. rewrite (proj2 (Z.leb_gt _ _)) by lia. split; [done|].
    destruct (lookup_lt_is_Some_2 (paths store_paths) (Z.to_nat index)) as [p Ep]; [lia|].
    exists p. by rewrite Ep.
  - intros Hge. by rewrite (proj2 (Z.leb_le _ _)) by lia.
Qed.

Lemma storage_split_filename_spec_witness :
  let sp := {| path_count := 1; paths := [bytes "/data1"] |} in
  storage_split_filename sp (logic_name 0 (bytes "00/1A/xyz") ++ [0]) 13
  = Some (inr (9, bytes "00/1A/xyz" ++ [0], bytes "/data1")) ∧
  storage_split_filename sp (logic_name 1 (bytes "00/1A/xyz") ++ [0]) 13 = Some (inl EINVAL).
Proof.
  split.
  - destruct (storage_split_filename_spec {| path_count := 1; paths := [bytes "/data1"] |} 0
      (bytes "00/1A/xyz") ltac:(lia) ltac:(cbn; lia) eq_refl) as (_ & H & _).
    destruct (H ltac:(cbn; lia)) as (_ & p & [= <-] & E). exact E.
  - apply (storage_split_filename_spec {| path_count := 1; paths := [bytes "/data1"] |} 1
      (bytes "00/1A/xyz")); [lia|cbn; lia|reflexivity|cbn; lia].
Defined.

(** ** Descriptors *)

Definition table_ok (t : fd_table) : Prop := ∀ fd, next_fd t ≤ fd → fds t !! fd = None.

(** [t'] has the descriptors of [t], or those and one more. *)
Definition same_fds (t t' : fd_table) : Prop := fds t' = fds t ∧ next_fd t ≤ next_fd t'.
Definition one_more (fd : Z) (t t' : fd_table) : Prop :=
  fds t !! fd = None ∧ (∃ e, fds t' = <[fd := e]> (fds t)) ∧ next_fd t ≤ fd < next_fd t'.

Lemma same_fds_ok t t' : same_fds t t' → table_ok t → table_ok t'.
Proof. intros [E Hn] Ht fd Hfd. rewrite E. apply Ht. lia. Qed.

Lemma one_more_ok fd t t' : one_more fd t t' → table_ok t → table_ok t'.
Proof.
  intros (_ & [e E] & Hn) Ht fd' Hfd'. rewrite E, lookup_insert_ne by lia. apply Ht. lia.
Qed.

Lemma same_fds_refl t : same_fds t t.
Proof. by split. Qed.

Lemma same_fds_trans t1 t2 t3 : same_fds t1 t2 → same_fds t2 t3 → same_fds t1 t3.
Proof. intros [E1 H1] [E2 H2]. split; [congruence|lia]. Qed.

Lemma one_more_same fd t1 t2 t3 : same_fds t1 t2 → one_more fd t2 t3 → one_more fd t1 t3.
Proof.
  intros [E1 H1] (Hn & [e E2] & H2). rewrite E1 in *. split_and!; [done|by exists e|lia|lia].
Qed.

Section descriptors.
Context `{FileSystem}.

(** What each call on a descriptor that is in the table leaves. *)
Lemma fd_open_inv fn t r t' :
  fd_open fn t = Some (r, t') → table_ok t →
  match r with inl _ => t' = t | inr fd => fd = next_fd t ∧ one_more fd t t' end.
Proof.
  unfold fd_open. intros E Ht. destruct (fs_open fn) as [e|c]; injection E as <- <-; [done|].
  split; [done|]. split_and!; [apply Ht; lia|by eexists|cbn; lia|cbn; lia].
Qed.

Lemma fd_lseek_inv fd off t0 t e t' :
  one_more fd t0 t → fd_lseek fd off t = Some (e, t') → one_more fd t0 t'.
Proof.
  intros (Hn & [x E] & Hb). unfold fd_lseek, mbind, prog_bind, get, deref. cbn.
  rewrite E, lookup_insert_eq. destruct x as [c pos]. destruct (off <? 0); intros [= <- <-].
  - split_and!; [done|by eexists|lia|lia].
  - split_and!; [done| |cbn; lia|cbn; lia]. eexists. cbn. by rewrite E, insert_insert_eq.
Qed.

Lemma fd_read_inv fd n t0 t r t' :
  one_more fd t0 t → fd_read fd n t = Some (r, t') → one_more fd t0 t'.
Proof.
  intros (Hn & [x E] & Hb). unfold fd_read, mbind, prog_bind, get, deref. cbn.
  rewrite E, lookup_insert_eq. destruct x as [c pos]. destruct (fs_read c pos n); intros [= <- <-].
  - split_and!; [done| |cbn; lia|cbn; lia]. eexists. cbn. by rewrite E, insert_insert_eq.
  - split_and!; [done|by eexists|lia|lia].
Qed.

Lemma fd_close_inv fd t0 t x t' :
  one_more fd t0 t → fd_close fd t = Some (x, t') → same_fds t0 t'.
Proof.
  intros (Hn & [y E] & Hb) [= <- <-]. split; [|cbn; lia]. cbn. rewrite E.
  by rewrite delete_insert_id.
Qed.
End descriptors.

(** Steps through the calls of a descriptor program in [H]. *)
Ltac fd_step :=
  match goal with
  | H : @mret (prog _) _ _ _ _ = Some _ |- _ => injection H; clear H; intros; subst
  | H : deref _ _ = Some _ |- _ => apply deref_Some in H as [? ->]
  | H : fd_lseek _ _ _ = Some _, H1 : one_more _ _ _ |- _ => apply (fd_lseek_inv _ _ _ _ _ _ H1) in H; clear H1
  | H : fd_read _ _ _ = Some _, H1 : one_more _ _ _ |- _ => apply (fd_read_inv _ _ _ _ _ _ H1) in H; clear H1
  | H : fd_close _ _ = Some _, H1 : one_more _ _ _ |- _ => apply (fd_close_inv _ _ _ _ _ H1) in H; clear H1
  | H : @mbind (prog _) _ _ _ _ _ _ = Some _ |- _ => apply prog_bind_Some in H as (? & ? & ? & H)
  end.

Lemma errno_or_nonzero e d : d ≠ 0 → errno_or e d ≠ 0.
Proof. unfold errno_or, c_true. destruct (Z.eqb_spec e 0); done. Qed.

Section lookup_lemmas.
Context `{FileSystem}.

(** Where a call stands with descriptors: as before the call, or with the
    one that [*pfd] designates. *)
Definition fd_outcome (pfd : bool) (t t' : fd_table) (r : Z) (fd0 fd : Z) : Prop :=
  (same_fds t t' ∧ fd = fd0 ∧ (r = 0 → pfd = false)) ∨ (pfd = true ∧ r = 0 ∧ one_more fd t t').

Lemma fd_outcome_same pfd t t' r fd :
  same_fds t t' → r ≠ 0 ∨ pfd = false → fd_outcome pfd t t' r fd fd.
Proof. intros Hs [Hr|Hp]; left; naive_solver. Qed.

Lemma read_slot_header_fds sp pfd o t r o' t' :
  table_ok t → read_slot_header sp pfd o t = Some ((r, o'), t') →
  fd_outcome pfd t t' r (out_fd o) (out_fd o').
Proof.
  intros Ht E. unfold read_slot_header in E. fd_step. fd_step.
  apply prog_bind_Some in E as (ro & t1 & Eo & E). apply (fd_open_inv _ _ _ _ Eo) in Ht.
  destruct ro as [e|fd].
  { subst t1. fd_step. apply fd_outcome_same; [apply same_fds_refl|].
    left. by apply errno_or_nonzero. }
  destruct Ht as [_ Ho].
  apply prog_bind_Some in E as (e & t2 & El & E). fd_step.
  destruct (c_true e).
  { repeat fd_step. apply fd_outcome_same; [done|left; by apply errno_or_nonzero]. }
  apply prog_bind_Some in E as (rr & t3 & Er & E). fd_step.
  destruct rr as [buff|].
  2: { repeat fd_step. apply fd_outcome_same; [done|left; by apply errno_or_nonzero]. }
  destruct (negb _).
  { repeat fd_step. apply fd_outcome_same; [done|left; by apply errno_or_nonzero]. }
  fd_step. fd_step. destruct (file_type_mode _) as [mode|].
  2: { repeat fd_step. apply (fd_outcome_same _ _ _ ENOENT); [done|by left]. }
  destruct (c_true _).
  { repeat fd_step. apply (fd_outcome_same _ _ _ ENOENT); [done|by left]. }
  destruct pfd.
  - fd_step. right. done.
  - repeat fd_step. by apply fd_outcome_same; [|right].
Qed.
End lookup_lemmas.

Section lookup_lemmas2.
Context `{FileSystem}.

Lemma stat_plain_fds sp i name f t r t' :
  stat_plain sp i name f t = Some (r, t') → t' = t ∧ ∀ e, r = inl e → e ≠ 0.
Proof.
  unfold stat_plain. intros E. repeat fd_step. destruct (fs_stat _ _).
  - fd_step. split; [done|]. intros e [= <-]. by apply errno_or_nonzero.
  - fd_step. done.
Qed.

(** After a successful lookup, [*pfd] was set exactly for a trunk file. *)
Lemma do_lstat_fds stale sp i name len f pfd o t r o' t' :
  table_ok t → trunk_file_do_lstat_func_ex stale sp i name len f pfd o t = Some ((r, o'), t') →
  (same_fds t t' ∧ out_fd o' = out_fd o ∧ (r = 0 → pfd = false ∨ tf_id (file (out_info o')) = 0)) ∨
  (pfd = true ∧ r = 0 ∧ one_more (out_fd o') t t').
Proof.
  intros Ht E. unfold trunk_file_do_lstat_func_ex in E. cbv zeta in E.
  match type of E with context [if _ then ?p else _] => set (plain := p) in E end.
  assert (Hplain : plain t = Some ((r, o'), t') → same_fds t t' ∧ out_fd o' = out_fd o ∧
    (r = 0 → pfd = false ∨ tf_id (file (out_info o')) = 0)).
  { subst plain. clear E. intros E. fd_step. apply stat_plain_fds in H0 as [-> Hne].
    destruct x as [e|st]; fd_step; (split; [apply same_fds_refl|split; [done|]]).
    - intros Hr. by destruct (Hne _ eq_refl).
    - intros _. by right. }
  destruct (negb _); [left; by apply Hplain|]. clearbody plain.
  repeat fd_step. destruct x0 as [written n]. repeat fd_step.
  destruct (negb _); [left; by apply Hplain|]. repeat fd_step.
  apply read_slot_header_fds in E; [|done]. cbn in E.
  destruct E as [(? & ? & Hp)|?]; [left|by right]. split_and!; [done|done|]. intros ?. left. auto.
Qed.
End lookup_lemmas2.

Section lookup_lemmas3.
Context `{FileSystem}.

Lemma get_content_fds sp info n pfd sz t0 t r t' :
  table_ok t → match pfd with Some fd => one_more fd t0 t | None => same_fds t0 t end →
  trunk_file_get_content_ex sp info n pfd sz t = Some (r, t') →
  match pfd with Some fd => one_more fd t0 t' | None => same_fds t0 t' end.
Proof.
  intros Ht Hp E. unfold trunk_file_get_content_ex in E. destruct (sz <? n); [by fd_step|].
  apply prog_bind_Some in E as (op & t1 & Eo & E). destruct pfd as [fd|].
  - cbv iota in Hp. fd_step. cbv iota in E. repeat fd_step. done.
  - assert (match op with inl _ => same_fds t t1 | inr fd => one_more fd t t1 end) as Hop.
    { clear E. fd_step. fd_step. apply prog_bind_Some in Eo as (ro & t2 & Eop & Eo).
      apply (fd_open_inv _ _ _ _ Eop) in Ht. destruct ro as [e|fd].
      - subst t2. fd_step. apply same_fds_refl.
      - destruct Ht as [_ Ho]. fd_step. fd_step. destruct (c_true _); repeat fd_step; done. }
    clear Eo. destruct op as [e|fd]; [fd_step; by eapply same_fds_trans|].
    repeat fd_step. by eapply same_fds_trans.
Qed.

Lemma split_error_nonzero n mem len check e :
  SPLIT_FILENAME_BODY n mem len check = Some (inl e) → e = EINVAL.
Proof.
  unfold SPLIT_FILENAME_BODY. intros E. repeat (case_match; try by simplify_eq/=).
  all: try (apply stdpp.option.bind_Some in E as (? & _ & E); by simplify_eq).
Qed.

(** C35 [trunk_file_stat_func_ex] leaks no descriptor: when it returns, on
    every path (missing files, short reads, headers that do not match,
    links followed into another slot or to a plain file), the open
    descriptors are those of the call, or, when the caller passed [pfd]
    and the lookup succeeded, those and [*pfd]. *)
Theorem trunk_file_stat_no_leak stale sp i name len f pfd o t r o' t' :
  table_ok t → 0 ≤ next_fd t →
  trunk_file_stat_func_ex stale sp i name len f pfd o t = Some ((r, o'), t') →
  fds t' = fds t ∨
  (pfd = true ∧ r = 0 ∧ fds t !! out_fd o' = None ∧
   ∃ e, fds t' = <[out_fd o' := e]> (fds t)).
Proof.
  intros Ht H0 E. unfold trunk_file_stat_func_ex in E.
  enough (same_fds t t' ∨ (pfd = true ∧ r = 0 ∧ one_more (out_fd o') t t')) as Hg.
  { destruct Hg as [[? _]|(? & ? & ? & ? & _)]; [by left|by right]. }
  apply prog_bind_Some in E as ([r1 o1] & t1 & E1 & E).
  pose proof (do_lstat_fds _ _ _ _ _ _ _ _ _ _ _ _ Ht E1) as H1.
  destruct (c_true r1) eqn:Er1.
  { fd_step. destruct H1 as [(? & _)|(_ & -> & _)]; [by left|done]. }
  destruct (negb _) eqn:El.
  { fd_step. assert (r1 = 0) as -> by (unfold c_true in Er1; lia).
    destruct H1 as [(? & _)|(? & _ & ?)]; [by left|by right]. }
  assert (r1 = 0) as -> by (unfold c_true in Er1; lia). clear Er1 E1.
  apply negb_false_iff, andb_prop in El as [El _]. apply andb_prop in El as [_ Hid].
  assert (Hpf : match fd_arg pfd o1 with Some fd => one_more fd t t1 | None => same_fds t t1 end).
  { destruct H1 as [(? & ? & Hz)|(-> & _ & ?)]; [|done]. destruct Hz as [->|?]; [done|done|lia]. }
  assert (table_ok t1) as Ht1.
  { destruct (fd_arg pfd o1); [by eapply one_more_ok|by eapply same_fds_ok]. }
  clear H1 Hid. apply prog_bind_Some in E as ([r2 o2] & t2 & E2 & E).
  apply prog_bind_Some in E2 as ([r3 content] & t3 & E3 & E2).
  pose proof (get_content_fds _ _ _ _ _ _ _ _ _ Ht1 Hpf E3) as Hp3. clear E3 Hpf Ht1.
  (* what the inner block leaves *)
  assert (Hin : (r2 ≠ 0 ∧ o2 = o1 ∧ t2 = t3) ∨
    (same_fds t t2 ∧ (r2 = 0 ∨ pfd = false ∨ out_fd o2 = -1)) ∨
    (pfd = true ∧ r2 = 0 ∧ one_more (out_fd o2) t t2)).
  { destruct (c_true r3) eqn:Er3; [fd_step; left; split_and!; [|done|done]; by intros ->|].
    fd_step. fd_step. destruct x as [e|[[slen sname] sidx]].
    { fd_step. apply split_error_nonzero in H1 as ->. by left. }
    destruct (_ || _); [fd_step; by left|].
    assert (∃ o3 t4, trunk_file_do_lstat_func_ex stale sp sidx sname slen f pfd o3 t4
      = Some ((r2, o2), t2) ∧ same_fds t t4 ∧ (pfd = true → out_fd o3 = -1)) as (o3 & t4 & Ed & Hs & Ho3).
    { apply prog_bind_Some in E2 as (o3 & t4 & E3 & E2). exists o3, t4. split; [done|].
      destruct pfd; cbn [fd_arg] in Hp3; repeat fd_step; done. }
    apply do_lstat_fds in Ed; [|by eapply same_fds_ok].
    right. destruct Ed as [(Hs' & Ho & Hr)|(-> & -> & Ho)].
    - left. split; [by eapply same_fds_trans|]. destruct pfd; [right; right; rewrite Ho; auto|auto].
    - right. split_and!; [done|done|]. by eapply one_more_same. }
  clear E2. destruct Hin as [(Hr & -> & ->)|[(Hs & Hr)|(-> & -> & Ho)]].
  - assert (c_true r2 = true) as Hc by (unfold c_true; by rewrite (proj2 (Z.eqb_neq r2 0))).
    rewrite Hc in E. destruct pfd; cbn [fd_arg andb] in *.
    + destruct Hp3 as (Hn & He & Hb). rewrite (proj2 (Z.leb_le _ _)) in E by lia.
      assert (one_more (out_fd o1) t t3) as Hp3 by done. repeat fd_step. by left.
    + fd_step. by left.
  - left. destruct Hr as [->|[->|Hr]].
    + cbn [c_true Z.eqb negb andb] in E. by fd_step.
    + rewrite andb_false_r in E. cbn [andb] in E. by fd_step.
    + rewrite Hr in E. rewrite andb_false_r in E. by fd_step.
  - cbn [c_true Z.eqb negb andb] in E. fd_step. by right.
Qed.
End lookup_lemmas3.

(** A file system whose every file holds one slot at offset 2. *)
Definition sample_header : FDFSTrunkHeader :=
  {| file_type := FDFS_TRUNK_FILE_TYPE_REGULAR; formatted_ext_name := bytes "12.jpeg" ++ [0];
     h_alloc_size := 64; h_file_size := 10; h_crc32 := 7; h_mtime := 5 |}.
#[local] Instance sample_fs : FileSystem :=
  {| fs_stat := λ _ _, inl ENOENT; fs_open := λ _, inr ([0; 0] ++ trunk_pack_header sample_header);
     fs_read := λ c pos n, Some (take (Z.to_nat n) (drop (Z.to_nat pos) c)); fs_errno := 0 |}.
Definition sample_name : list Z :=
  bytes "00/01/AAAAAQAAAAWIAAAAAAAACgAAAAcAAAAAQAAAAIAAABA12.jpeg" ++ [0].
Definition sample_paths : FDFSStorePaths := {| path_count := 1; paths := [bytes "/data1"] |}.
Definition sample_out : lookup_out :=
  {| out_stat := {| st_mode := 0; st_size := 0; st_mtime := 0 |};
     out_info := {| status := 0; path := {| store_path_index := 0; sub_path_high := 0; sub_path_low := 0 |};
                    file := {| tf_id := 0; tf_offset := 0; tf_size := 0 |} |};
     out_header := sample_header; out_fd := -1 |}.

Lemma trunk_file_stat_no_leak_witness :
  let t := {| fds := ∅; next_fd := 3 |} in
  ∃ o' t', trunk_file_stat_func_ex (replicate 16 0) sample_paths 0 sample_name 56
             FDFS_STAT_FUNC_STAT true sample_out t = Some ((0, o'), t') ∧
    (fds t' = ∅ ∨ (true = true ∧ 0 = 0 ∧ fds t !! out_fd o' = None ∧
       ∃ e, fds t' = <[out_fd o' := e]> ∅)).
Proof.
  cbv zeta. eexists _, _. split; [vm_compute; reflexivity|].
  apply (trunk_file_stat_no_leak (replicate 16 0) sample_paths 0 sample_name 56
    FDFS_STAT_FUNC_STAT true sample_out {| fds := ∅; next_fd := 3 |} 0); [done|done|].
  vm_compute. reflexivity.
Defined.

(** ** What a successful lookup says *)

Lemma read_at_length mem o n r : read_at mem o n = Some r → Z.of_nat (length r) = n.
Proof.
  unfold read_at. destruct (Z.ltb_spec o 0); [done|]. destruct (Z.ltb_spec n 0); [done|].
  destruct (Z.ltb_spec (Z.of_nat (length mem)) (o + n)); [done|]. intros [= <-].
  rewrite length_take, length_drop. lia.
Qed.

Section lookup_lemmas4.
Context `{FileSystem}.

(** The slot of [info] holds the header [h]. *)
Definition slot_holds (sp : FDFSStorePaths) (info : FDFSTrunkFullInfo) (h : FDFSTrunkHeader) : Prop :=
  ∃ filename content, trunk_get_full_filename_ex sp info MAX_PATH_SIZE = Some filename ∧
    fs_open filename = inr content ∧ 0 ≤ tf_offset (file info) ∧
    fs_read content (tf_offset (file info)) FDFS_TRUNK_FILE_HEADER_SIZE = Some (trunk_pack_header h).

Lemma read_slot_header_sound sp pfd o t o' t' :
  length (formatted_ext_name (out_header o)) = 8%nat →
  read_slot_header sp pfd o t = Some ((0, o'), t') →
  out_info o' = out_info o ∧ slot_holds sp (out_info o) (out_header o') ∧
  out_header o' = set_file_type (out_header o) (file_type (out_header o')) ∧
  file_type_mode (file_type (out_header o')) = Some (st_mode (out_stat o')) ∧
  st_size (out_stat o') = h_file_size (out_header o) ∧
  st_mtime (out_stat o') = h_mtime (out_header o).
Proof.
  intros Hext E. unfold read_slot_header in E. do 2 fd_step.
  apply prog_bind_Some in E as (ro & t1 & Eo & E). unfold fd_open in Eo.
  destruct (fs_open x) as [e|content] eqn:Ec; injection Eo as <- <-.
  { fd_step. by destruct (errno_or_nonzero e EIO). }
  apply prog_bind_Some in E as (e & t2 & El & E).
  unfold fd_lseek, mbind, prog_bind, get, deref, modify, mret, prog_ret in El. cbn in El.
  rewrite lookup_insert_eq in El.
  destruct (Z.ltb_spec (tf_offset (file (out_info o))) 0) as [|Hoff]; injection El as <- <-.
  { cbn in E. repeat fd_step. done. }
  cbn [c_true Z.eqb negb] in E. apply prog_bind_Some in E as (rr & t3 & Er & E).
  unfold fd_read, mbind, prog_bind, get, deref, modify, mret, prog_ret in Er. cbn in Er.
  rewrite lookup_insert_eq in Er.
  destruct (fs_read content (tf_offset (file (out_info o))) _) as [buff|] eqn:Erd;
    injection Er as <- <-.
  2: { repeat fd_step. by destruct (errno_or_nonzero fs_errno EINVAL). }
  destruct (Z.eqb_spec (Z.of_nat (length buff)) FDFS_TRUNK_FILE_HEADER_SIZE) as [Hlen|]; cbn [negb] in E.
  2: { repeat fd_step. by destruct (errno_or_nonzero fs_errno EINVAL). }
  do 2 fd_step. destruct (file_type_mode x0) as [mode|] eqn:Em; [|by repeat fd_step].
  destruct (c_true _) eqn:Ecmp; [by repeat fd_step|].
  assert (trunk_pack_header (set_file_type (out_header o) x0) = buff) as Hb.
  { apply memcmp_eq; [|unfold c_true in Ecmp; lia].
    unfold trunk_pack_header. cbn [formatted_ext_name set_file_type].
    rewrite !length_app, length_take, Hext.
    change (Z.to_nat (FDFS_FILE_EXT_NAME_MAX_LEN + 1)) with 7%nat. change FDFS_TRUNK_FILE_HEADER_SIZE with 24 in Hlen.
    unfold int2buff. cbn [length Nat.min]. lia. }
  assert (out_info o' = out_info o ∧ out_header o' = set_file_type (out_header o) x0 ∧
    out_stat o' = {| st_mode := mode; st_size := h_file_size (out_header o);
                     st_mtime := h_mtime (out_header o) |}) as (-> & -> & ->).
  { destruct pfd; [by fd_step|by repeat fd_step]. }
  split_and!; try done. exists x, content. split_and!; [done..|]. by rewrite Hb.
Qed.

(** The mark of a trunk file is bit 59 of the size. *)
Lemma IS_TRUNK_FILE_testbit fs : IS_TRUNK_FILE fs = true → Z.testbit fs 59 = true.
Proof.
  unfold IS_TRUNK_FILE, c_true. destruct (Z.testbit fs 59) eqn:Eb; [done|].
  replace (Z.land fs FDFS_TRUNK_FILE_MARK_SIZE) with 0; [done|]. symmetry.
  apply Z.bits_inj'. intros k Hk. rewrite Z.land_spec, Z.bits_0.
  change FDFS_TRUNK_FILE_MARK_SIZE with (2 ^ 59). rewrite Z.pow2_bits_eqb by lia.
  destruct (Z.eqb_spec 59 k) as [<-|]; [by rewrite Eb|by rewrite andb_false_r].
Qed.

(** C34 A successful lookup of a trunk file is faithful to the disk: the
    slot (path, trunk file, offset and size) is the one written in the
    name; its first 24 bytes are exactly the header the name gives, with
    a type that is a regular file or a link, so that a slot that was
    freed or reused is reported as missing; and the size, time and type
    reported are those of that header.  The header is the one encoded in
    the name: the 27 characters after the directories decode to bytes
    whose second 32-bit word is the time, whose next 64 bits carry the
    mark of a trunk file and, in their low 32, the file size, and whose
    fifth word is the crc32. *)
Theorem trunk_file_lstat_sound stale sp i name f pfd o t o' t' :
  trunk_file_do_lstat_func_ex stale sp i name FDFS_TRUNK_FILENAME_LENGTH f pfd o t
  = Some ((0, o'), t') →
  tf_id (file (out_info o')) ≠ 0 →
  trunk_file_info_decode stale (drop 33 name) = Some (file (out_info o')) ∧
  path (out_info o') = decode_path i name ∧
  slot_holds sp (out_info o') (out_header o') ∧
  h_alloc_size (out_header o') = tf_size (file (out_info o')) ∧
  read_at name 49 8 = Some (formatted_ext_name (out_header o')) ∧
  file_type_mode (file_type (out_header o')) = Some (st_mode (out_stat o')) ∧
  st_size (out_stat o') = h_file_size (out_header o') ∧
  st_mtime (out_stat o') = h_mtime (out_header o') ∧
  ∃ str written n fs,
    read_at name 6 27 = Some str ∧
    base64_decode_auto_to true g_fdfs_base64_context str = Some (written, n) ∧
    let buff := store_at (replicate 128 0) written in
    buff2int (drop 4 buff) = Some (h_mtime (out_header o')) ∧
    buff2long (drop 8 buff) = Some fs ∧ Z.testbit fs 59 = true ∧
    h_file_size (out_header o') = s32 (fs mod 2 ^ 32) ∧
    buff2int (drop 16 buff) = Some (h_crc32 (out_header o')).
Proof.
  intros E Hid. unfold trunk_file_do_lstat_func_ex in E. cbv zeta in E.
  match type of E with context [if _ then ?p else _] => set (plain := p) in E end.
  assert (Hplain : plain t = Some ((0, o'), t') → False).
  { subst plain. clear E. intros E. fd_step. destruct x as [e|st]; fd_step.
    - apply stat_plain_fds in H0 as [_ Hne]. by apply (Hne 0).
    - done. }
  rewrite Z.eqb_refl in E. cbn [negb] in E. clearbody plain.
  repeat fd_step. destruct x0 as [written n]. repeat fd_step.
  destruct (IS_TRUNK_FILE _) eqn:Emark; [cbn [negb] in E|done]. do 4 fd_step.
  apply stdpp.option.bind_Some in H4 as (fsz & Efsz & H4).
  apply stdpp.option.bind_Some in H4 as (mt & Emt & H4).
  apply stdpp.option.bind_Some in H4 as (crc & Ecrc & H4).
  apply stdpp.option.bind_Some in H4 as (ext & Eext & [= <-]).
  pose proof (read_at_length _ _ _ _ Eext) as Hext.
  apply read_slot_header_sound in E as (Ei & Hs & Eh & Em & Es & Et); cbn [out_info out_header set_header set_info] in *;
    [|cbn [formatted_ext_name]; unfold FDFS_FILE_EXT_NAME_MAX_LEN in Hext; lia].
  rewrite Ei in *. cbn [file path] in *.
  rewrite Eh. cbn [set_file_type file_type h_alloc_size formatted_ext_name h_file_size h_mtime h_crc32] in *.
  rewrite <- Eh. split_and!; try done. eexists _, written, n, fsz. split_and!; try done.
  - apply IS_TRUNK_FILE_testbit. congruence.
  - unfold FDFS_TRUNK_FILE_TRUE_SIZE. change 0xFFFFFFFF with (Z.ones 32). by rewrite Z.land_ones.
Qed.
End lookup_lemmas4.

Lemma trunk_file_lstat_sound_witness :
  ∃ o' t', trunk_file_do_lstat_func_ex (replicate 16 0) sample_paths 0 sample_name 56
             FDFS_STAT_FUNC_LSTAT false sample_out {| fds := ∅; next_fd := 3 |} = Some ((0, o'), t') ∧
    st_size (out_stat o') = 10 ∧ slot_holds sample_paths (out_info o') (out_header o').
Proof.
  eexists _, _. split; [vm_compute; reflexivity|]. split; [reflexivity|].
  eapply (trunk_file_lstat_sound (replicate 16 0) sample_paths 0 sample_name
    FDFS_STAT_FUNC_LSTAT false sample_out {| fds := ∅; next_fd := 3 |}); [vm_compute; reflexivity|done].
Defined.
