(* ===== verification/FastMblock.v ===== *)
(** * common/fast_mblock.c: pools of fixed-size blocks

    A pool hands out blocks of one size.  The free blocks are chained by
    their [next] pointer; when there is none, one [malloc] brings
    [alloc_elements_once] new blocks.  A block is a [positive], the number
    of its position in the memory the pool got from [malloc]; [brk] is the
    first position that was never given.  [None] is a wild pointer or a
    store outside the memory of the pool.  The lock of a pool is taken to
    succeed: the branches that return because [pthread_mutex_lock] failed
    are not modelled. *)

From stdpp Require Import fin_sets.
From S2P Require Import Prelude LinkedList CLib TrunkShared.

Definition MEM_ALIGN (x : Z) : Z := Z.land (x + 7) (Z.lnot 7).

(** [sizeof] of the two one-pointer structs. *)
Definition sizeof_mblock_node : Z := 8.
Definition sizeof_mblock_malloc : Z := 8.

Record fast_mblock_man := {
  free_chain_head : option positive;
  malloc_chain : list positive;  (* the first block of each [malloc] *)
  element_size : Z;
  alloc_elements_once : Z;
  node_next : gmap positive (option positive);
  brk : positive;
}.

(** [lock_result] is the result of [init_pthread_lock]. *)
Definition fast_mblock_init (element_size alloc_elements_once lock_result : Z) : Z * option fast_mblock_man :=
  if element_size <=? 0 then (EINVAL, None)
  else
    let once :=
      if 0 <? alloc_elements_once then alloc_elements_once
      else Z.quot (1024 * 1024) (MEM_ALIGN (sizeof_mblock_node + element_size)) in
    if negb (lock_result =? 0) then (lock_result, None)
    else
      (0, Some {| free_chain_head := None; malloc_chain := []; element_size := element_size;
                  alloc_elements_once := once; node_next := ∅; brk := 1 |}).

(** The loop that chains [n] blocks from [p]; the position after them. *)
Fixpoint link_blocks (n : nat) (p : positive) (next : gmap positive (option positive))
    : positive * gmap positive (option positive) :=
  match n with
  | O => (p, next)
  | S n => link_blocks n (Pos.succ p) (<[p := Some (Pos.succ p)]> next)
  end.

Definition fast_mblock_prealloc (malloc_ok : bool) (errno : Z) (m : fast_mblock_man)
    : option (Z * fast_mblock_man) :=
  let block_size := MEM_ALIGN (sizeof_mblock_node + element_size m) in
  let alloc_size := sizeof_mblock_malloc + block_size * alloc_elements_once m in
  if negb malloc_ok then Some (errno_or errno ENOMEM, m)
  else if (alloc_elements_once m <=? 0) || negb (s32 alloc_size =? alloc_size) then None
  else
    let '(pLast, next) := link_blocks (Z.to_nat (alloc_elements_once m - 1)) (brk m) (node_next m) in
    Some (0, {| free_chain_head := Some (brk m); malloc_chain := brk m :: malloc_chain m;
                element_size := element_size m; alloc_elements_once := alloc_elements_once m;
                node_next := <[pLast := None]> next; brk := Pos.succ pLast |}).

Definition set_free_chain (head : option positive) (m : fast_mblock_man) : fast_mblock_man :=
  {| free_chain_head := head; malloc_chain := malloc_chain m; element_size := element_size m;
     alloc_elements_once := alloc_elements_once m; node_next := node_next m; brk := brk m |}.

(** All the memory goes back to [free]. *)
Definition fast_mblock_destroy (m : fast_mblock_man) : fast_mblock_man :=
  match malloc_chain m with
  | [] => m
  | _ :: _ =>
      {| free_chain_head := None; malloc_chain := []; element_size := element_size m;
         alloc_elements_once := alloc_elements_once m; node_next := ∅; brk := brk m |}
  end.

(** Take the first block of the chain. *)
Definition pop_block (m : fast_mblock_man) : option (positive * fast_mblock_man) :=
  pNode ← free_chain_head m;
  next ← node_next m !! pNode;
  Some (pNode, set_free_chain next m).

(** [None] in the result is the NULL pointer. *)
Definition fast_mblock_alloc (malloc_ok : bool) (errno : Z) (m : fast_mblock_man)
    : option (option positive * fast_mblock_man) :=
  match free_chain_head m with
  | Some _ => '(pNode, m) ← pop_block m; Some (Some pNode, m)
  | None =>
      '(result, m) ← fast_mblock_prealloc malloc_ok errno m;
      if result =? 0 then '(pNode, m) ← pop_block m; Some (Some pNode, m)
      else Some (None, m)
  end.

Definition fast_mblock_free (m : fast_mblock_man) (pNode : positive) : fast_mblock_man :=
  {| free_chain_head := Some pNode; malloc_chain := malloc_chain m; element_size := element_size m;
     alloc_elements_once := alloc_elements_once m;
     node_next := <[pNode := free_chain_head m]> (node_next m); brk := brk m |}.

(** The loop of [fast_mblock_count]; the chain has at most [brk] nodes. *)
Fixpoint count_blocks (fuel : nat) (next : gmap positive (option positive)) (pNode : option positive)
    (count : Z) : option Z :=
  match pNode, fuel with
  | None, _ => Some count
  | Some a, S fuel => n ← next !! a; count_blocks fuel next n (count + 1)
  | Some _, O => None
  end.

Definition fast_mblock_count (m : fast_mblock_man) : option Z :=
  count_blocks (Pos.to_nat (brk m)) (node_next m) (free_chain_head m) 0.

(** * Lemmas *)

Definition next_of (m : fast_mblock_man) : positive → option (option positive) := λ a, node_next m !! a.

(** [n] consecutive positions. *)
Fixpoint pos_seq (p : positive) (n : nat) : list positive :=
  match n with O => [] | S n => p :: pos_seq (Pos.succ p) n end.

Lemma elem_of_pos_seq a p n : a ∈ pos_seq p n ↔ (p ≤ a)%positive ∧ Z.pos a < Z.pos p + Z.of_nat n.
Proof.
  revert p. induction n as [|n IH]; intros p; cbn.
  - split; [by intros ?%not_elem_of_nil|lia].
  - rewrite elem_of_cons, IH. split; [lia|]. intros. destruct (decide (a = p)); [by left|right; lia].
Qed.

Lemma NoDup_pos_seq p n : NoDup (pos_seq p n).
Proof.
  revert p. induction n as [|n IH]; intros p; cbn; constructor; [|done].
  rewrite elem_of_pos_seq. lia.
Qed.

Lemma length_pos_seq p n : length (pos_seq p n) = n.
Proof. revert p. induction n; intros; cbn; auto. Qed.

(** The chain that a [malloc] makes. *)
Lemma link_blocks_spec n p next :
  let '(pLast, next') := link_blocks n p next in
  Z.pos pLast = Z.pos p + Z.of_nat n ∧
  lseg (λ a, next' !! a) (Some p) (pos_seq p n) (Some pLast) ∧
  ∀ a, a ∉ pos_seq p n → next' !! a = next !! a.
Proof.
  revert p next. induction n as [|n IH]; intros p next; cbn [link_blocks pos_seq].
  - split; [lia|]. by split.
  - specialize (IH (Pos.succ p) (<[p := Some (Pos.succ p)]> next)).
    destruct (link_blocks _ _ _) as [pLast next']. destruct IH as (H1 & H2 & H3).
    split; [lia|]. split.
    + cbn. split; [done|]. exists (Some (Pos.succ p)). split; [|done].
      rewrite H3 by (rewrite elem_of_pos_seq; lia). by rewrite lookup_insert_eq.
    + intros a [Hne Ha]%not_elem_of_cons. rewrite H3, lookup_insert_ne by done. done.
Qed.

(** The pool [m], whose free blocks are [l], while [used] are in use. *)
Record mblock_rep (m : fast_mblock_man) (l : list positive) (used : gset positive) : Prop := {
  mr_chain : llist (next_of m) (free_chain_head m) l;
  mr_nodup : NoDup l;
  mr_free : ∀ a, a ∈ l → a ∉ used;
  mr_brk_free : ∀ a, a ∈ l → (a < brk m)%positive;
  mr_brk_used : ∀ a, a ∈ used → (a < brk m)%positive;
}.

(** A pool that can grow: its [alloc_elements_once] blocks fit a [malloc]. *)
Definition can_grow (m : fast_mblock_man) : Prop :=
  0 < alloc_elements_once m ∧
  is_int32 (sizeof_mblock_malloc + MEM_ALIGN (sizeof_mblock_node + element_size m) * alloc_elements_once m).

(** [m'] is a pool of the same blocks as [m]. *)
Definition same_pool (m m' : fast_mblock_man) : Prop :=
  element_size m' = element_size m ∧ alloc_elements_once m' = alloc_elements_once m.

Lemma same_pool_can_grow m m' : same_pool m m' → can_grow m → can_grow m'.
Proof. unfold can_grow. by intros [-> ->]. Qed.

Lemma same_pool_trans m1 m2 m3 : same_pool m1 m2 → same_pool m2 m3 → same_pool m1 m3.
Proof. intros [E1 E2] [E3 E4]. split; congruence. Qed.

Lemma mblock_rep_weaken m l used used' : used' ⊆ used → mblock_rep m l used → mblock_rep m l used'.
Proof. intros Hs [H1 H2 H3 H4 H5]. split; [done|done|set_solver|done|set_solver]. Qed.

(** Taking the first block of a chain. *)
Lemma pop_block_spec m a l used :
  mblock_rep m (a :: l) used →
  ∃ m', pop_block m = Some (a, m') ∧ mblock_rep m' l ({[a]} ∪ used) ∧ a ∉ used ∧ same_pool m m' ∧
    malloc_chain m' = malloc_chain m.
Proof.
  intros [(Hh & n & Hn & Hl) Hd Hf Hbf Hbu]. unfold pop_block. rewrite Hh. cbn [mbind option_bind].
  unfold next_of in Hn. rewrite Hn. cbn [mbind option_bind]. eexists. split; [done|].
  apply NoDup_cons in Hd as [Ha Hd].
  split; [|split; [apply Hf; by left|done]]. split; [done|done| | |].
  - intros b Hb. rewrite not_elem_of_union, not_elem_of_singleton. split; [by intros ->|apply Hf; by right].
  - intros b Hb. apply Hbf. by right.
  - intros b [->%elem_of_singleton|Hb]%elem_of_union; [apply Hbf; by left|by apply Hbu].
Qed.

Lemma fast_mblock_prealloc_spec e m used :
  mblock_rep m [] used → can_grow m →
  ∃ m', fast_mblock_prealloc true e m = Some (0, m') ∧
    mblock_rep m' (pos_seq (brk m) (Z.to_nat (alloc_elements_once m))) used ∧ same_pool m m' ∧
    length (malloc_chain m') = S (length (malloc_chain m)).
Proof.
  intros [_ _ _ _ Hbu] [Hpos Hsz]. unfold fast_mblock_prealloc. cbn [negb].
  rewrite (proj2 (Z.leb_gt _ _)) by done. rewrite s32_id, Z.eqb_refl by done. cbn [orb negb].
  pose proof (link_blocks_spec (Z.to_nat (alloc_elements_once m - 1)) (brk m) (node_next m)) as H.
  destruct (link_blocks _ _ _) as [pLast next]. destruct H as (Hp & Hl & _).
  assert (pos_seq (brk m) (Z.to_nat (alloc_elements_once m))
    = pos_seq (brk m) (Z.to_nat (alloc_elements_once m - 1)) ++ [pLast]) as E.
  { replace (Z.to_nat (alloc_elements_once m)) with (S (Z.to_nat (alloc_elements_once m - 1))) by lia.
    revert Hp. generalize (Z.to_nat (alloc_elements_once m - 1)), (brk m). clear.
    induction n as [|n IH]; intros p Hp.
    - cbn. f_equal. lia.
    - change (pos_seq p (S (S n))) with (p :: pos_seq (Pos.succ p) (S n)). rewrite IH by lia. done. }
  eexists. split; [done|]. split; [|done]. split; cbn [free_chain_head brk].
  - rewrite E, lseg_snoc. unfold next_of. cbn [node_next]. split; [|by rewrite lookup_insert_eq].
    eapply lseg_frame; [|exact Hl]. intros a Ha%elem_of_pos_seq. cbn. rewrite lookup_insert_ne; [done|lia].
  - apply NoDup_pos_seq.
  - intros a [Ha _]%elem_of_pos_seq Hu%Hbu. lia.
  - intros a [_ Ha]%elem_of_pos_seq. lia.
  - intros a Ha%Hbu. lia.
Qed.

(** An allocation when [malloc] works: a block that was not in use. *)
Lemma fast_mblock_alloc_spec e m l used :
  mblock_rep m l used → can_grow m →
  ∃ a m' l', fast_mblock_alloc true e m = Some (Some a, m') ∧ a ∉ used ∧
    mblock_rep m' l' ({[a]} ∪ used) ∧ same_pool m m' ∧
    Z.of_nat (length l') + 1 - Z.of_nat (length l)
    = alloc_elements_once m * (Z.of_nat (length (malloc_chain m')) - Z.of_nat (length (malloc_chain m))).
Proof.
  intros Hr Hg. unfold fast_mblock_alloc.
  pose proof (llist_head _ _ _ (mr_chain _ _ _ Hr)) as Hh. rewrite Hh. destruct l as [|a l]; cbn [head].
  - destruct (fast_mblock_prealloc_spec e m used Hr Hg) as (m1 & -> & Hr1 & Hs1 & Hm1).
    cbn [mbind option_bind Z.eqb].
    destruct (Z.to_nat (alloc_elements_once m)) as [|n] eqn:En; [destruct Hg; lia|].
    cbn [pos_seq] in Hr1. destruct (pop_block_spec _ _ _ _ Hr1) as (m2 & -> & Hr2 & Ha & Hs2 & Hm2).
    cbn [mbind option_bind]. exists (brk m), m2, (pos_seq (Pos.succ (brk m)) n).
    split; [done|]. split; [done|]. split; [done|]. split; [by eapply same_pool_trans|].
    rewrite length_pos_seq, Hm2, Hm1. cbn [length]. lia.
  - destruct (pop_block_spec _ _ _ _ Hr) as (m2 & -> & Hr2 & Ha & Hs2 & Hm2).
    cbn [mbind option_bind]. exists a, m2, l. split; [done|]. split; [done|]. split; [done|]. split; [done|].
    rewrite Hm2. cbn [length]. lia.
Qed.

(** Otherwise the result may be NULL. *)
Lemma fast_mblock_alloc_fail e m used :
  mblock_rep m [] used → fast_mblock_alloc false e m = Some (None, m).
Proof.
  intros Hr. unfold fast_mblock_alloc. rewrite (llist_head _ _ _ (mr_chain _ _ _ Hr)). cbn [head].
  unfold fast_mblock_prealloc. cbn [negb mbind option_bind]. unfold errno_or.
  destruct (c_true e) eqn:E; [|done]. unfold c_true in E. by destruct (e =? 0).
Qed.

Lemma fast_mblock_free_spec m l used a :
  mblock_rep m l used → a ∈ used → mblock_rep (fast_mblock_free m a) (a :: l) (used ∖ {[a]}).
Proof.
  intros [Hl Hd Hf Hbf Hbu] Ha.
  assert (a ∉ l) as Hal by (intros Hin; by apply (Hf a Hin)).
  split; cbn [fast_mblock_free free_chain_head brk].
  - split; [done|]. exists (free_chain_head m). unfold next_of. cbn.
    split; [by rewrite lookup_insert_eq|]. eapply lseg_frame; [|exact Hl].
    intros b Hb. unfold next_of. rewrite lookup_insert_ne; [done|]. by intros ->.
  - by constructor.
  - intros b [->|Hb]%elem_of_cons; [set_solver|]. pose proof (Hf b Hb). set_solver.
  - intros b [->|Hin]%elem_of_cons; [by apply Hbu|by apply Hbf].
  - intros b Hin. apply Hbu. set_solver.
Qed.

Lemma count_blocks_spec fuel m p l n :
  llist (next_of m) p l → (length l ≤ fuel)%nat →
  count_blocks fuel (node_next m) p n = Some (n + Z.of_nat (length l)).
Proof.
  revert p l n. induction fuel as [|fuel IH]; intros p l n Hl Hf.
  - destruct l; [|cbn in Hf; lia]. cbn in Hl. subst. cbn. f_equal. lia.
  - destruct l as [|a l]; [cbn in Hl; subst; cbn; f_equal; lia|].
    destruct Hl as (-> & q & Hq & Hl). cbn [count_blocks]. unfold next_of in Hq. rewrite Hq.
    cbn [mbind option_bind]. rewrite (IH q l) by (done || (cbn in Hf; lia)). cbn [length]. f_equal. lia.
Qed.

(** A pool has no more blocks than positions given. *)
Lemma bounded_length (l : list positive) b :
  NoDup l → (∀ a, a ∈ l → (a < b)%positive) → (length l ≤ Pos.to_nat b)%nat.
Proof.
  intros Hd Hb.
  assert (l ⊆+ pos_seq 1 (Pos.to_nat b)) as Hs%submseteq_length.
  { apply NoDup_submseteq; [done|]. intros a Ha%Hb. apply elem_of_pos_seq. lia. }
  by rewrite length_pos_seq in Hs.
Qed.

Lemma fast_mblock_count_spec m l used :
  mblock_rep m l used → fast_mblock_count m = Some (Z.of_nat (length l)).
Proof.
  intros [Hl Hd _ Hb _]. unfold fast_mblock_count. rewrite (count_blocks_spec _ _ _ l); [done|done|].
  by apply bounded_length.
Qed.

(** ** A client of a pool

    The blocks it holds; [MFree i] gives back the [i]-th of them. *)

Inductive mb_op := MAlloc (malloc_ok : bool) (errno : Z) | MFree (i : nat).

Definition mb_exec (op : mb_op) (s : fast_mblock_man * list positive) : option (fast_mblock_man * list positive) :=
  let '(m, held) := s in
  match op with
  | MAlloc ok e =>
      '(r, m) ← fast_mblock_alloc ok e m;
      Some (m, match r with Some a => a :: held | None => held end)
  | MFree i =>
      Some (match held !! i with
            | Some a => (fast_mblock_free m a, list_delete i held)
            | None => (m, held)
            end)
  end.

Fixpoint mb_run (ops : list mb_op) (s : fast_mblock_man * list positive)
    : option (fast_mblock_man * list positive) :=
  match ops with
  | [] => Some s
  | op :: ops => s ← mb_exec op s; mb_run ops s
  end.

(** What holds between two calls of the client: the blocks it holds are
    distinct and in use, and free and held blocks together are all the
    blocks that [malloc] gave. *)
Record client_ok (m : fast_mblock_man) (held : list positive) : Prop := {
  co_held : NoDup held;
  co_grow : can_grow m;
  co_rep : ∃ l, mblock_rep m l (list_to_set held) ∧
    Z.of_nat (length l) + Z.of_nat (length held) = alloc_elements_once m * Z.of_nat (length (malloc_chain m));
}.

Lemma mb_alloc_ok ok e m held :
  client_ok m held → ∃ m' held', mb_exec (MAlloc ok e) (m, held) = Some (m', held') ∧ client_ok m' held'.
Proof.
  intros [Hd Hg (l & Hr & Hc)]. cbn [mb_exec].
  assert ((ok = false ∧ l = []) ∨ fast_mblock_alloc ok e m = fast_mblock_alloc true e m) as [[-> ->]| -> ].
  { destruct ok; [by right|]. destruct l as [|a l]; [by left|]. right.
    unfold fast_mblock_alloc. by rewrite (llist_head _ _ _ (mr_chain _ _ _ Hr)). }
  - rewrite (fast_mblock_alloc_fail e m _ Hr). exists m, held. split; [done|]. by split; [done..|exists []].
  - destruct (fast_mblock_alloc_spec e m l _ Hr Hg) as (a & m' & l' & -> & Ha & Hr' & Hs & Hn).
    rewrite not_elem_of_list_to_set in Ha. exists m', (a :: held). split; [done|]. split.
    + by constructor.
    + by eapply same_pool_can_grow.
    + exists l'. split; [done|]. destruct Hs as [_ ->]. cbn [length]. lia.
Qed.

Lemma mb_free_ok i m held :
  client_ok m held → ∃ m' held', mb_exec (MFree i) (m, held) = Some (m', held') ∧ client_ok m' held'.
Proof.
  intros [Hd Hg (l & Hr & Hc)]. cbn [mb_exec]. destruct (held !! i) as [a|] eqn:E.
  2: { exists m, held. split; [done|]. split; [done..|by exists l]. }
  exists (fast_mblock_free m a), (list_delete i held). split; [done|].
  pose proof (delete_Permutation _ _ _ E) as Hp. change (delete i held) with (list_delete i held) in Hp.
  rewrite Hp in Hd. apply NoDup_cons in Hd as [Ha Hd']. split; [done|done|]. exists (a :: l). split.
  - eapply mblock_rep_weaken; [|apply (fast_mblock_free_spec m l (list_to_set held))]; [|done|].
    + rewrite (list_to_set_perm_L _ _ Hp). set_solver.
    + rewrite elem_of_list_to_set. by eapply list_elem_of_lookup_2.
  - rewrite Hp in Hc. cbn [fast_mblock_free alloc_elements_once malloc_chain length] in *. lia.
Qed.

Lemma mb_run_ok ops m held :
  client_ok m held → ∃ m' held', mb_run ops (m, held) = Some (m', held') ∧ client_ok m' held'.
Proof.
  revert m held. induction ops as [|op ops IH]; intros m held H; cbn [mb_run].
  - by exists m, held.
  - assert (∃ m1 h1, mb_exec op (m, held) = Some (m1, h1) ∧ client_ok m1 h1) as (m1 & h1 & -> & H1)
      by (destruct op; [by apply mb_alloc_ok|by apply mb_free_ok]).
    by apply IH.
Qed.

(** C20 A pool never hands out a block that is in use, and loses none: after
    any sequence of allocations (whatever [malloc] answers) and releases of
    held blocks on a new pool, no wild pointer was followed, the held blocks
    are pairwise distinct, and the blocks [fast_mblock_count] counts
    together with the held ones are all that the mallocs brought. *)
Theorem fast_mblock_pool size once ops m :
  fast_mblock_init size once 0 = (0, Some m) → can_grow m →
  ∃ m' held n, mb_run ops (m, []) = Some (m', held) ∧ NoDup held ∧ fast_mblock_count m' = Some n ∧
    n + Z.of_nat (length held) = alloc_elements_once m' * Z.of_nat (length (malloc_chain m')).
Proof.
  unfold fast_mblock_init. destruct (size <=? 0); [done|]. cbn [negb Z.eqb]. intros [= <-] Hg.
  edestruct (mb_run_ok ops) as (m' & held & -> & [Hd _ (l & Hr & Hn)]).
  - split; [constructor|exact Hg|]. exists []. split; [|cbn; lia].
    split; [done|constructor|by intros ? ?%not_elem_of_nil..|]. intros a Ha. set_solver.
  - exists m', held, (Z.of_nat (length l)). split; [done|]. split; [done|].
    split; [by eapply fast_mblock_count_spec|done].
Qed.

Lemma fast_mblock_pool_witness :
  ∃ m m' held n, fast_mblock_init 32 4 0 = (0, Some m) ∧
    mb_run [MAlloc true 0; MAlloc true 0; MFree 1; MAlloc false 0; MAlloc true 0] (m, []) = Some (m', held) ∧
    held = [3; 1; 2]%positive ∧ fast_mblock_count m' = Some n ∧
    n + 3 = alloc_elements_once m' * Z.of_nat (length (malloc_chain m')).
Proof.
  destruct (fast_mblock_init 32 4 0) as [c [m|]] eqn:E; [|by vm_compute in E].
  assert (c = 0) as -> by (vm_compute in E; by injection E).
  destruct (fast_mblock_pool 32 4 [MAlloc true 0; MAlloc true 0; MFree 1; MAlloc false 0; MAlloc true 0] m E)
    as (m' & held & n & Hr & _ & Hn & Hc).
  { vm_compute in E. injection E as <-. by vm_compute. }
  exists m, m', held, n. split; [done|]. split; [exact Hr|].
  assert (held = [3; 1; 2]%positive) as ->.
  { vm_compute in E. injection E as <-. vm_compute in Hr. by injection Hr. }
  split; [done|]. split; [exact Hn|exact Hc].
Defined.
