(* ===== verification/TrunkFile.v ===== *)
(** * storage/trunk_mgr/trunk_mem.c: creating and clearing trunk files

    A trunk file is created by the thread that opens it with [O_EXCL];
    every other thread polls it with [stat] until it has its full size.
    The disk maps a file name to the bytes of the file.  What the kernel
    answers is a record [kernel]: the errno of a system call that fails
    ([None] when it succeeds), what the successive [stat]s say (another
    thread may be growing the file) and what time it is at each of them. *)

From S2P Require Import Prelude CLib TrunkShared.
From stdpp Require Import strings.
#[local] Open Scope Z_scope.

Definition ETIMEDOUT : Z := 110.

Abbreviation disk := (gmap (list Z) (list Z)).

Record kernel := {
  k_open : option Z;         (* open for writing *)
  k_lseek : option Z;
  k_ftruncate : option Z;
  k_stat : nat → Z + stat;   (* the k-th stat *)
  k_now : nat → Z;           (* g_current_time after it *)
  k_write : nat → Z;         (* how much the k-th write accepts; negative: it fails *)
  k_errno : Z;
}.

(** [access(filename, 0) == 0] *)
Definition fileExists (filename : list Z) (d : disk) : bool :=
  match d !! filename with Some _ => true | None => false end.

(** ** Waiting for a file *)

Definition WAIT_LIMIT : Z := 10.

(** The loop; [k] polls were made, [st] is the last answer. *)
Fixpoint wait_loop (fuel : nat) (kn : kernel) (k : nat) (file_size file_mtime : Z) (st : stat) : option Z :=
  if file_size <=? st_size st then Some 0
  else if WAIT_LIMIT <? Z.abs (s32 (k_now kn k - file_mtime)) then Some ETIMEDOUT
  else
    match fuel with
    | O => None
    | S fuel =>
        match k_stat kn (S k) with
        | inl e => Some (errno_or e ENOENT)
        | inr st => wait_loop fuel kn (S k) file_size file_mtime st
        end
    end.

Definition trunk_wait_file_ready (fuel : nat) (kn : kernel) (file_size : Z) : option Z :=
  match k_stat kn 0 with
  | inl e => Some (errno_or e ENOENT)
  | inr st => wait_loop fuel kn 0 file_size (st_mtime st) st
  end.

(** ** Creating a file *)

(** [ftruncate]: cut, or extend with zeros. *)
Definition resize (n : Z) (content : list Z) : list Z :=
  take (Z.to_nat n) content ++ replicate (Z.to_nat n - length content) 0.

(** [ftruncate] of the open file, the end of both functions that follow. *)
Definition truncate_to (kn : kernel) (filename : list Z) (file_size : Z) : prog disk Z :=
  match k_ftruncate kn with
  | Some e => mret (errno_or e EIO)
  | None =>
      d ← get;
      content ← deref (d !! filename);
      modify (insert filename (resize file_size content));;
      mret 0
  end.

Definition trunk_init_file_ex (fuel : nat) (kn : kernel) (filename : list Z) (file_size : Z) : prog disk Z :=
  d ← get;
  let failed := if fileExists filename d then Some EEXIST
                else match k_open kn with Some e => Some (errno_or e EEXIST) | None => None end in
  match failed with
  | Some result =>
      if result =? EEXIST then deref (trunk_wait_file_ready fuel kn file_size)
      else mret result
  | None =>
      modify (insert filename []);;
      truncate_to kn filename file_size
  end.

(** [kn] answers while the file is awaited, [kn2] afterwards. *)
Definition trunk_check_and_init_file_ex (fuel : nat) (kn kn2 : kernel) (filename : list Z) (file_size : Z)
    : prog disk Z :=
  result ← deref (trunk_wait_file_ready fuel kn file_size);
  if result =? 0 then mret 0
  else if result =? ENOENT then trunk_init_file_ex fuel kn2 filename file_size
  else if negb (result =? ETIMEDOUT) then mret result
  else
    match k_stat kn2 0 with
    | inl e => mret (errno_or e ENOENT)
    | inr _ =>
        match k_open kn2 with
        | Some e => mret (errno_or e EIO)
        | None =>
            d ← get;
            if fileExists filename d then truncate_to kn2 filename file_size else mret ENOENT
        end
    end.

(** ** Clearing a slot *)

(** [write] of [bytes] at position [pos] of [content]. *)
Definition write_at (content : list Z) (pos : Z) (bytes : list Z) : list Z :=
  resize pos (take (Z.to_nat pos) content) ++ bytes
  ++ drop (Z.to_nat pos + length bytes) content.

(** The [k]-th write, at [pos]: the number of bytes stored, or -1. *)
Definition write_bytes (kn : kernel) (k : nat) (filename : list Z) (pos : Z) (bytes : list Z) : prog disk Z :=
  if k_write kn k <? 0 then mret (-1)
  else
    let n := Z.min (k_write kn k) (Z.of_nat (length bytes)) in
    d ← get;
    content ← deref (d !! filename);
    modify (insert filename (write_at content pos (take (Z.to_nat n) bytes)));;
    mret n.

Definition CLEAR_BUFFER : Z := 64 * 1024.

(** The loop that writes zeros from [pos]. *)
Fixpoint clear_loop (fuel : nat) (kn : kernel) (k : nat) (filename : list Z) (pos remain_bytes : Z) : prog disk Z :=
  if 0 <? remain_bytes then
    match fuel with
    | O => undefined
    | S fuel =>
        let n := if CLEAR_BUFFER <? remain_bytes then CLEAR_BUFFER else remain_bytes in
        w ← write_bytes kn k filename pos (replicate (Z.to_nat n) 0);
        if negb (w =? n) then mret (errno_or (k_errno kn) EIO)
        else clear_loop fuel kn (S k) filename (pos + n) (remain_bytes - n)
    end
  else mret 0.

Definition cleared_header (size : Z) : FDFSTrunkHeader :=
  {| file_type := FDFS_TRUNK_FILE_TYPE_NONE; formatted_ext_name := replicate 8 0; h_alloc_size := size;
     h_file_size := 0; h_crc32 := 0; h_mtime := 0 |}.

Definition trunk_file_delete (kn : kernel) (trunk_filename : list Z) (pTrunkInfo : FDFSTrunkFullInfo)
    : prog disk Z :=
  d ← get;
  match (if fileExists trunk_filename d then k_open kn else Some ENOENT) with
  | Some e => mret (errno_or e EIO)
  | None =>
      let offset := tf_offset (file pTrunkInfo) in
      match (if offset <? 0 then Some EINVAL else k_lseek kn) with
      | Some e => mret (errno_or e EIO)
      | None =>
          let pack_buff := trunk_pack_header (cleared_header (tf_size (file pTrunkInfo))) in
          w ← write_bytes kn 0 trunk_filename offset pack_buff;
          if negb (w =? FDFS_TRUNK_FILE_HEADER_SIZE) then mret (errno_or (k_errno kn) EIO)
          else
            let remain_bytes := s32 (tf_size (file pTrunkInfo) - FDFS_TRUNK_FILE_HEADER_SIZE) in
            clear_loop (Z.to_nat remain_bytes) kn 1 trunk_filename
              (offset + FDFS_TRUNK_FILE_HEADER_SIZE) remain_bytes
      end
  end.

Definition trunk_check_size (g_slot_max_size file_size : Z) : bool := file_size <=? g_slot_max_size.

(** * Lemmas *)

(** ** Waiting *)

(** The clock passes the limit at poll [n]. *)
Definition clock_passes (kn : kernel) (n : nat) (mtime : Z) : Prop :=
  WAIT_LIMIT < Z.abs (s32 (k_now kn n - mtime)).

Lemma wait_loop_terminates kn n fuel k fs mt st :
  clock_passes kn n mt → (k ≤ n)%nat → (n ≤ k + fuel)%nat →
  is_Some (wait_loop fuel kn k fs mt st).
Proof.
  intros Hc. revert k st. induction fuel as [|fuel IH]; intros k st Hk Hn; cbn [wait_loop].
  - assert (k = n) as -> by lia. rewrite (proj2 (Z.ltb_lt _ _) Hc). by destruct (_ <=? _).
  - destruct (_ <=? _); [done|]. destruct (Z.ltb_spec WAIT_LIMIT (Z.abs (s32 (k_now kn k - mt)))); [done|].
    destruct (k_stat kn (S k)) as [e|st']; [done|]. apply IH; [|lia].
    destruct (decide (k = n)) as [->|]; [unfold clock_passes in Hc; lia|lia].
Qed.

Lemma wait_loop_result fuel kn k fs mt st r :
  k_stat kn k = inr st → wait_loop fuel kn k fs mt st = Some r →
  ∃ j, (k ≤ j)%nat ∧
    ((r = 0 ∧ ∃ st', k_stat kn j = inr st' ∧ fs ≤ st_size st') ∨
     (r = ETIMEDOUT ∧ clock_passes kn j mt ∧ ∃ st', k_stat kn j = inr st' ∧ st_size st' < fs) ∨
     (∃ e, k_stat kn j = inl e ∧ r = errno_or e ENOENT)).
Proof.
  revert k st. induction fuel as [|fuel IH]; intros k st Hst; cbn [wait_loop].
  - destruct (Z.leb_spec fs (st_size st)).
    { intros [= <-]. exists k. split; [done|]. left. split; [done|]. by exists st. }
    destruct (Z.ltb_spec WAIT_LIMIT (Z.abs (s32 (k_now kn k - mt)))); [|done].
    intros [= <-]. exists k. split; [done|]. right. left. split; [done|]. split; [done|]. by exists st.
  - destruct (Z.leb_spec fs (st_size st)).
    { intros [= <-]. exists k. split; [done|]. left. split; [done|]. by exists st. }
    destruct (Z.ltb_spec WAIT_LIMIT (Z.abs (s32 (k_now kn k - mt)))).
    { intros [= <-]. exists k. split; [done|]. right. left. split; [done|]. split; [done|]. by exists st. }
    destruct (k_stat kn (S k)) as [e|st'] eqn:E.
    + intros [= <-]. exists (S k). split; [lia|]. right. right. by exists e.
    + intros (j & Hj & H')%IH; [|done]. exists j. split; [lia|done].
Qed.

(** C18 [trunk_wait_file_ready] returns: as soon as the clock is more than ten
    seconds away from the modification time seen first, whatever the
    [stat]s say, it has returned.  It returns 0 only when the last [stat]
    saw a file of the full size, ETIMEDOUT only when the last one saw a
    shorter file, and otherwise the error of the last [stat]. *)
Theorem trunk_wait_file_ready_returns kn fuel n fs :
  (∀ st, k_stat kn 0 = inr st → clock_passes kn n (st_mtime st)) → (n ≤ fuel)%nat →
  ∃ r j, trunk_wait_file_ready fuel kn fs = Some r ∧
    ((r = 0 ∧ ∃ st, k_stat kn j = inr st ∧ fs ≤ st_size st) ∨
     (r = ETIMEDOUT ∧ ∃ st, k_stat kn j = inr st ∧ st_size st < fs) ∨
     (∃ e, k_stat kn j = inl e ∧ r = errno_or e ENOENT)).
Proof.
  intros Hc Hn. unfold trunk_wait_file_ready. destruct (k_stat kn 0) as [e|st] eqn:E.
  - exists (errno_or e ENOENT), O. split; [done|]. right. right. by exists e.
  - destruct (wait_loop_terminates kn n fuel 0 fs (st_mtime st) st) as [r Hr];
      [by apply Hc|lia|lia|].
    destruct (wait_loop_result _ _ _ _ _ _ _ E Hr) as (j & _ & H). exists r, j. split; [done|].
    destruct H as [H|[(-> & _ & H)|H]]; auto.
Qed.

Definition sample_stat (size mtime : Z) : stat := {| st_mode := 0; st_size := size; st_mtime := mtime |}.
Definition sample_kernel : kernel :=
  {| k_open := None; k_lseek := None; k_ftruncate := None;
     k_stat := λ k, inr (sample_stat (Z.of_nat k * 10) 1000);
     k_now := λ k, 1000 + Z.of_nat k; k_write := λ _, 65536; k_errno := 0 |}.

Lemma trunk_wait_file_ready_returns_witness :
  ∃ r j, trunk_wait_file_ready 11 sample_kernel 64 = Some r ∧ r = 0 ∧
    ∃ st, k_stat sample_kernel j = inr st ∧ 64 ≤ st_size st.
Proof.
  destruct (trunk_wait_file_ready_returns sample_kernel 11 11 64) as (r & j & Hr & H).
  - intros st [= <-]. vm_compute. done.
  - done.
  - exists r, j. split; [exact Hr|]. assert (r = 0) as -> by (vm_compute in Hr; by injection Hr).
    split; [done|]. destruct H as [[_ H]|[[H _]|(e & H & _)]]; [exact H|done|done].
Defined.

(** ** Clearing *)

(** Every system call succeeds and every write is complete. *)
Record kernel_ok (kn : kernel) : Prop := {
  ko_open : k_open kn = None;
  ko_lseek : k_lseek kn = None;
  ko_ftruncate : k_ftruncate kn = None;
  ko_write : ∀ k, CLEAR_BUFFER ≤ k_write kn k;
}.

(** [content] with [bytes] in place of what is at [pos]. *)
Definition overwritten (content : list Z) (pos : Z) (bytes : list Z) : list Z :=
  take (Z.to_nat pos) content ++ bytes ++ drop (Z.to_nat pos + length bytes) content.

Lemma write_at_inside content pos bytes :
  0 ≤ pos → (Z.to_nat pos ≤ length content)%nat → write_at content pos bytes = overwritten content pos bytes.
Proof.
  intros Hp Hl. unfold write_at, resize, overwritten. f_equal.
  rewrite length_take, Nat.min_l, Nat.sub_diag by done. cbn [replicate].
  by rewrite app_nil_r, take_take, Nat.min_id.
Qed.

Lemma length_overwritten content pos bytes :
  (Z.to_nat pos + length bytes ≤ length content)%nat →
  length (overwritten content pos bytes) = length content.
Proof. intros. unfold overwritten. rewrite !length_app, length_take, length_drop. lia. Qed.

Lemma overwritten_app content pos b1 b2 :
  0 ≤ pos → (Z.to_nat pos + length b1 + length b2 ≤ length content)%nat →
  overwritten (overwritten content pos b1) (pos + Z.of_nat (length b1)) b2 = overwritten content pos (b1 ++ b2).
Proof.
  intros Hp Hl. unfold overwritten.
  assert (length (take (Z.to_nat pos) content ++ b1) = Z.to_nat (pos + Z.of_nat (length b1))) as E
    by (rewrite length_app, length_take; lia).
  rewrite (app_assoc (take (Z.to_nat pos) content) b1), <- E, take_app_length, <- !app_assoc.
  do 3 f_equal. rewrite app_assoc, drop_app_ge by lia. rewrite drop_drop, E, length_app. f_equal. lia.
Qed.

Lemma overwritten_nil content pos : overwritten content pos [] = content.
Proof. unfold overwritten. cbn [length app]. by rewrite Nat.add_0_r, take_drop. Qed.

Lemma write_bytes_ok (kn : kernel) (k : nat) (fn : list Z) (pos : Z) (bytes content : list Z) (d : gmap (list Z) (list Z)) :
  kernel_ok kn → d !! fn = Some content → 0 ≤ pos → Z.of_nat (length bytes) ≤ CLEAR_BUFFER →
  (Z.to_nat pos + length bytes ≤ length content)%nat →
  write_bytes kn k fn pos bytes d
  = Some (Z.of_nat (length bytes), <[fn := overwritten content pos bytes]> d).
Proof.
  intros Hk Hd Hp Hb Hl. pose proof (ko_write kn Hk k) as Hw. unfold write_bytes.
  assert (0 ≤ CLEAR_BUFFER) as HB by done.
  rewrite (proj2 (Z.ltb_ge _ _)) by lia. rewrite Z.min_r by lia.
  rewrite Nat2Z.id, firstn_all. rewrite <- write_at_inside by lia.
  rewrite (bind_run get _ d d d eq_refl). unfold deref. rewrite Hd. done.
Qed.

Lemma clear_loop_ok (kn : kernel) (fuel k : nat) (fn : list Z) (pos n : Z) (content : list Z) (d : gmap (list Z) (list Z)) :
  kernel_ok kn → d !! fn = Some content → 0 ≤ pos → 0 ≤ n ≤ Z.of_nat fuel →
  pos + n ≤ Z.of_nat (length content) →
  clear_loop fuel kn k fn pos n d
  = Some (0, <[fn := overwritten content pos (replicate (Z.to_nat n) 0)]> d).
Proof.
  intros Hk. revert k pos n content d.
  induction fuel as [|fuel IH]; intros k pos n content d Hd Hp Hn Hl; cbn [clear_loop].
  - assert (n = 0) as -> by lia. change (Z.to_nat 0) with O. cbn [replicate].
    by rewrite overwritten_nil, insert_id.
  - destruct (Z.ltb_spec 0 n) as [H0|H0].
    2: { assert (n = 0) as -> by lia. change (Z.to_nat 0) with O. cbn [replicate].
         by rewrite overwritten_nil, insert_id. }
    set (m := if CLEAR_BUFFER <? n then CLEAR_BUFFER else n).
    assert (0 < m ≤ n ∧ m ≤ CLEAR_BUFFER) as [Hm Hm'].
    { assert (0 < CLEAR_BUFFER) by done. unfold m. destruct (Z.ltb_spec CLEAR_BUFFER n); lia. }
    assert (Z.of_nat (length (replicate (Z.to_nat m) 0)) = m) as Hlen by (rewrite length_replicate; lia).
    rewrite (bind_run _ _ d m (<[fn := overwritten content pos (replicate (Z.to_nat m) 0)]> d)).
    2: { rewrite <- Hlen at 2. apply write_bytes_ok; [done|done|done|lia|lia]. }
    rewrite Z.eqb_refl. cbn [negb].
    rewrite (IH _ _ _ (overwritten content pos (replicate (Z.to_nat m) 0)));
      [|by rewrite lookup_insert_eq|lia|lia|rewrite length_overwritten by lia; lia].
    rewrite insert_insert_eq. do 3 f_equal. rewrite <- Hlen at 2.
    rewrite overwritten_app by (rewrite ?length_replicate in *; lia).
    rewrite <- replicate_add. do 2 f_equal. lia.
Qed.

Lemma cleared_header_length size : length (trunk_pack_header (cleared_header size)) = 24%nat.
Proof. done. Qed.

(** When every call succeeds, [trunk_file_delete] overwrites exactly the
    slot: its first 24 bytes become a header of type NONE with the size of
    the slot, the rest of it zeros; the bytes before and after the slot and
    the other files keep their content. *)
Theorem trunk_file_delete_clears (kn : kernel) (fn : list Z) (info : FDFSTrunkFullInfo) (content : list Z) (d : gmap (list Z) (list Z)) :
  kernel_ok kn → d !! fn = Some content →
  0 ≤ tf_offset (file info) → FDFS_TRUNK_FILE_HEADER_SIZE ≤ tf_size (file info) ≤ INT_MAX →
  tf_offset (file info) + tf_size (file info) ≤ Z.of_nat (length content) →
  trunk_file_delete kn fn info d
  = Some (0, <[fn := overwritten content (tf_offset (file info))
                       (trunk_pack_header (cleared_header (tf_size (file info)))
                        ++ replicate (Z.to_nat (tf_size (file info) - FDFS_TRUNK_FILE_HEADER_SIZE)) 0)]> d).
Proof.
  intros Hk Hd Ho Hs Hl. unfold trunk_file_delete. rewrite (bind_run get _ d d d eq_refl).
  unfold fileExists. rewrite Hd, (ko_open _ Hk). rewrite (proj2 (Z.ltb_ge _ _)), (ko_lseek _ Hk) by done.
  pose proof (cleared_header_length (tf_size (file info))) as Hh.
  set (o := tf_offset (file info)) in *. set (sz := tf_size (file info)) in *.
  set (pk := trunk_pack_header (cleared_header sz)) in *.
  change FDFS_TRUNK_FILE_HEADER_SIZE with 24 in *. unfold INT_MAX in *.
  rewrite (bind_run _ _ d 24 (<[fn := overwritten content o pk]> d)).
  2: { change 24 with (Z.of_nat 24). rewrite <- Hh. apply write_bytes_ok; [done|done|done|by rewrite Hh|lia]. }
  change (24 =? 24) with true. cbn [negb].
  rewrite s32_id by (unfold is_int32; lia).
  rewrite (clear_loop_ok _ _ _ _ _ _ (overwritten content o pk));
    [|done|by rewrite lookup_insert_eq|lia|lia|rewrite length_overwritten by lia; lia].
  rewrite insert_insert_eq. do 3 f_equal. change 24 with (Z.of_nat 24) at 1. rewrite <- Hh.
  apply overwritten_app; [done|]. rewrite length_replicate. lia.
Qed.

Definition sample_slot : FDFSTrunkFullInfo :=
  {| status := 0; path := {| store_path_index := 0; sub_path_high := 0; sub_path_low := 0 |};
     file := {| tf_id := 1; tf_offset := 4; tf_size := 30 |} |}.

Lemma trunk_file_delete_clears_witness :
  trunk_file_delete sample_kernel (bytes "f") sample_slot {[ bytes "f" := seqZ 1 40 ]}
  = Some (0, {[ bytes "f" := [1; 2; 3; 4; 0; 0; 0; 0; 30] ++ replicate 25 0 ++ [35; 36; 37; 38; 39; 40] ]}).
Proof.
  rewrite (trunk_file_delete_clears sample_kernel (bytes "f") sample_slot (seqZ 1 40)).
  - vm_compute. reflexivity.
  - by split.
  - reflexivity.
  - done.
  - done.
  - done.
Defined.
