(* ===== verification/StorePath.v ===== *)
(** * storage/storage_service.c: where a file is stored and how it is named

    The choice of the store path and of the two levels of sub directories,
    the name of an uploaded file, and the name of a file stored in a trunk.
    [dist_state] holds the global counters of the distribution,
    [store_config] what the configuration and the tracker set.  The path
    locks and the mutex of the counters are not modelled (the calls are
    atomic here). *)

From S2P Require Import Prelude CFloat CLib FdfsShared HashFunc SharedFunc Base64 TrunkShared.
From stdpp Require Import strings.
#[local] Open Scope Z_scope.

(** ** Constants and data *)

Definition FDFS_FILE_DIST_PATH_ROUND_ROBIN : Z := 0.
Definition FDFS_FILE_DIST_PATH_RANDOM : Z := 1.

Record FDFSPathSpace := { total_mb : Z; free_mb : Z }.

Record store_config := {
  g_store_path_mode : Z;
  g_fdfs_store_paths : FDFSStorePaths;
  g_path_space_list : list FDFSPathSpace;
  g_avg_storage_reserved_mb : Z;
  g_storage_reserved_space : FDFSStorageReservedSpace;
  g_file_distribute_path_mode : Z;
  g_file_distribute_rotate_count : Z;
  g_subdir_count_per_path : Z;
  g_server_id_in_filename : Z;
}.

Record dist_state := {
  g_store_path_index : Z;
  g_dist_path_index_high : Z;
  g_dist_path_index_low : Z;
  g_dist_write_file_count : Z;
  g_stat_change_count : Z;
}.

(** ** Store path *)

Definition path_has_space (cfg : store_config) (s : FDFSPathSpace) : bool :=
  fdfs_check_reserved_space_path (total_mb s) (free_mb s) (g_avg_storage_reserved_mb cfg) (g_storage_reserved_space cfg).

(** The loop over the store paths, from [i]; [remaining] iterations are
    left.  [None]: an index outside the array. *)
Fixpoint find_path (cfg : store_config) (remaining : nat) (i : Z) : option (option Z) :=
  match remaining with
  | O => Some None
  | S remaining =>
      s ← g_path_space_list cfg !! Z.to_nat i;
      if path_has_space cfg s then Some (Some i) else find_path cfg remaining (i + 1)
  end.

Definition set_store_path_index (i : Z) (d : dist_state) : dist_state :=
  {| g_store_path_index := i; g_dist_path_index_high := g_dist_path_index_high d;
     g_dist_path_index_low := g_dist_path_index_low d;
     g_dist_write_file_count := g_dist_write_file_count d;
     g_stat_change_count := g_stat_change_count d |}.

(** The end of the round-robin branch. *)
Definition next_store_path (cfg : store_config) (d : dist_state) : dist_state :=
  let i := g_store_path_index d + 1 in
  set_store_path_index (if path_count (g_fdfs_store_paths cfg) <=? i then 0 else i) d.

(** The result code and [*store_path_index]. *)
Definition storage_get_storage_path_index (cfg : store_config) : prog dist_state (Z * Z) :=
  d ← get;
  let count := path_count (g_fdfs_store_paths cfg) in
  let store_path_index := g_store_path_index d in
  if g_store_path_mode cfg =? FDFS_STORE_PATH_LOAD_BALANCE then
    if (store_path_index <? 0) || (count <=? store_path_index) then mret (ENOSPC, store_path_index)
    else mret (0, store_path_index)
  else
    let store_path_index := if count <=? store_path_index then 0 else store_path_index in
    if store_path_index <? 0 then undefined
    else
      s ← deref (g_path_space_list cfg !! Z.to_nat store_path_index);
      if path_has_space cfg s then modify (next_store_path cfg);; mret (0, store_path_index)
      else
        found ← deref (find_path cfg (Z.to_nat count) 0);
        match found with
        | Some i =>
            modify (λ d, next_store_path cfg (set_store_path_index i d));; mret (0, i)
        | None => mret (ENOSPC, store_path_index)
        end.

(** ** Sub directories *)

(** The counters after one more file. *)
Definition rotate_dirs (cfg : store_config) (d : dist_state) : dist_state :=
  if g_file_distribute_rotate_count cfg <=? g_dist_write_file_count d + 1 then
    let low := g_dist_path_index_low d + 1 in
    let rotate := g_subdir_count_per_path cfg <=? low in
    let high := g_dist_path_index_high d + 1 in
    {| g_store_path_index := g_store_path_index d;
       g_dist_path_index_high :=
         if rotate then (if g_subdir_count_per_path cfg <=? high then 0 else high)
         else g_dist_path_index_high d;
       g_dist_path_index_low := if rotate then 0 else low;
       g_dist_write_file_count := 0;
       g_stat_change_count := s32 (g_stat_change_count d + 1) |}
  else
    {| g_store_path_index := g_store_path_index d;
       g_dist_path_index_high := g_dist_path_index_high d;
       g_dist_path_index_low := g_dist_path_index_low d;
       g_dist_write_file_count := g_dist_write_file_count d + 1;
       g_stat_change_count := g_stat_change_count d |}.

(** [*sub_path_high] and [*sub_path_low]. *)
Definition storage_get_store_path (cfg : store_config) (filename : list Z) : prog dist_state (Z * Z) :=
  d ← get;
  if g_file_distribute_path_mode cfg =? FDFS_FILE_DIST_PATH_ROUND_ROBIN then
    modify (rotate_dirs cfg);;
    mret (g_dist_path_index_high d, g_dist_path_index_low d)
  else
    let n := Z.rem (PJWHash filename) (2 ^ 16) in
    mret (Z.rem (Z.land (Z.shiftr n 8) 0xFF) (g_subdir_count_per_path cfg),
          Z.rem (Z.land n 0xFF) (g_subdir_count_per_path cfg)).

(** ** Names *)

Definition COMBINE_RAND_FILE_SIZE (rand file_size : Z) : Z :=
  let r := s32 (Z.lor (Z.land rand 0x007FFFFF) 0x80000000) in
  Z.lor (s64 (Z.shiftl r 32)) file_size.

(** The bytes of an [int] in the other order. *)
Definition htonl (n : Z) : Z := s32 (be_value (int_bytes_le n)).

(** What is encoded in the name of a file. *)
Definition name_bytes (cfg : store_config) (timestamp masked_file_size crc32 : Z) : list Z :=
  int2buff (htonl (g_server_id_in_filename cfg)) ++ int2buff timestamp
  ++ long2buff masked_file_size ++ int2buff crc32.

(** [sub_path] is [Some (high, low)] when [if_sub_path_alloced]; the result
    is the name and the sub path.  The fields are [unsigned char]. *)
Definition storage_gen_filename (cfg : store_config) (rand file_size crc32 : Z)
    (szFormattedExt : list Z) (ext_name_len timestamp : Z) (sub_path : option (Z * Z))
    : prog dist_state (list Z * (Z * Z)) :=
  let masked_file_size :=
    if c_true (Z.shiftr file_size 32) then file_size else COMBINE_RAND_FILE_SIZE rand file_size in
  encoded ← deref (base64_encode_ex g_fdfs_base64_context
                     (name_bytes cfg timestamp masked_file_size crc32) false);
  '(high, low) ← match sub_path with
                 | Some p => mret p
                 | None => '(h, l) ← storage_get_store_path cfg encoded; mret (u8 h, u8 l)
                 end;
  ext ← deref (read_at szFormattedExt 0 ext_name_len);
  mret (sprintf_02X high ++ [CH_SLASH] ++ sprintf_02X low ++ [CH_SLASH] ++ encoded ++ ext, (high, low)).

(** The size that is put in the name of a file stored in a trunk. *)
Definition trunk_size_in_name (rand file_size : Z) : Z :=
  Z.lor (COMBINE_RAND_FILE_SIZE rand file_size) FDFS_TRUNK_FILE_MARK_SIZE.

(** [new_fname2log] of a file stored in a trunk: the slot is written in the
    middle of the logical name. *)
Definition trunk_fname2log (store_path_index : Z) (new_filename : list Z) (trunk_file : FDFSTrunkFileInfo)
    : option (list Z) :=
  let logical := FDFS_STORAGE_STORE_PATH_PREFIX_CHAR :: sprintf_02X store_path_index
                 ++ [CH_SLASH] ++ c_string new_filename in
  trunk_buff ← trunk_file_info_encode trunk_file;
  prefix ← read_at logical 0 (FDFS_LOGIC_FILE_PATH_LEN + FDFS_FILENAME_BASE64_LENGTH);
  Some (prefix ++ trunk_buff
        ++ c_string (drop (Z.to_nat (FDFS_TRUE_FILE_PATH_LEN + FDFS_FILENAME_BASE64_LENGTH)) new_filename)).

(** * Lemmas *)

(** ** Round robin over the sub directories *)

Record dist_ok (cfg : store_config) (d : dist_state) : Prop := {
  do_high : 0 ≤ g_dist_path_index_high d < g_subdir_count_per_path cfg;
  do_low : 0 ≤ g_dist_path_index_low d < g_subdir_count_per_path cfg;
  do_count : 0 ≤ g_dist_write_file_count d < g_file_distribute_rotate_count cfg;
}.

(** The counters as one number, and the period after which they repeat. *)
Definition position (cfg : store_config) (d : dist_state) : Z :=
  (g_dist_path_index_high d * g_subdir_count_per_path cfg + g_dist_path_index_low d)
  * g_file_distribute_rotate_count cfg + g_dist_write_file_count d.
Definition period (cfg : store_config) : Z :=
  g_subdir_count_per_path cfg * g_subdir_count_per_path cfg * g_file_distribute_rotate_count cfg.

(** The sub directory of the [p]-th file. *)
Definition dir_at (cfg : store_config) (p : Z) : Z * Z :=
  let dir := p / g_file_distribute_rotate_count cfg in
  (dir / g_subdir_count_per_path cfg, dir mod g_subdir_count_per_path cfg).

Lemma dir_at_position cfg d :
  dist_ok cfg d → dir_at cfg (position cfg d) = (g_dist_path_index_high d, g_dist_path_index_low d).
Proof.
  intros [Hh Hl Hc]. unfold dir_at, position. cbv zeta.
  rewrite Z.div_add_l, (Z.div_small (g_dist_write_file_count d)), Z.add_0_r by lia.
  rewrite Z.div_add_l, (Z.div_small (g_dist_path_index_low d)), Z.add_0_r by lia.
  by rewrite (Z.add_comm (_ * _)), Z_mod_plus_full, Z.mod_small by lia.
Qed.

Lemma position_range cfg d : dist_ok cfg d → 0 ≤ position cfg d < period cfg.
Proof.
  intros [Hh Hl Hc]. unfold position, period.
  set (N := g_subdir_count_per_path cfg) in *. set (R := g_file_distribute_rotate_count cfg) in *.
  assert (0 ≤ g_dist_path_index_high d * N + g_dist_path_index_low d ≤ N * N - 1) by nia. nia.
Qed.

Lemma rotate_dirs_ok cfg d : dist_ok cfg d → dist_ok cfg (rotate_dirs cfg d).
Proof.
  intros [Hh Hl Hc]. unfold rotate_dirs.
  destruct (Z.leb_spec (g_file_distribute_rotate_count cfg) (g_dist_write_file_count d + 1));
    [|split; cbn; lia].
  destruct (Z.leb_spec (g_subdir_count_per_path cfg) (g_dist_path_index_low d + 1)); [|split; cbn; lia].
  destruct (Z.leb_spec (g_subdir_count_per_path cfg) (g_dist_path_index_high d + 1)); split; cbn; lia.
Qed.

Lemma rotate_dirs_position cfg d :
  dist_ok cfg d → position cfg (rotate_dirs cfg d) = (position cfg d + 1) mod period cfg.
Proof.
  intros H. pose proof (position_range cfg d H) as Hp. destruct H as [Hh Hl Hc].
  unfold rotate_dirs, position, period in *.
  set (N := g_subdir_count_per_path cfg) in *. set (R := g_file_distribute_rotate_count cfg) in *.
  assert (0 ≤ g_dist_path_index_high d * N + g_dist_path_index_low d ≤ N * N - 1) by nia.
  destruct (Z.leb_spec R (g_dist_write_file_count d + 1));
    [|cbn; fold N R; rewrite Z.mod_small by nia; lia].
  destruct (Z.leb_spec N (g_dist_path_index_low d + 1)); [|cbn; rewrite Z.mod_small by nia; nia].
  destruct (Z.leb_spec N (g_dist_path_index_high d + 1)); cbn.
  - assert (g_dist_path_index_high d = N - 1) as -> by lia.
    assert (g_dist_path_index_low d = N - 1) as -> by lia.
    assert (g_dist_write_file_count d = R - 1) as -> by lia.
    replace (((N - 1) * N + (N - 1)) * R + (R - 1) + 1) with (N * N * R) by lia.
    rewrite Z.mod_same by nia. lia.
  - rewrite Z.mod_small by nia. nia.
Qed.

(** [n] calls of [storage_get_store_path], with the names in [fs]. *)
Fixpoint store_paths (cfg : store_config) (fs : list (list Z)) : prog dist_state (list (Z * Z)) :=
  match fs with
  | [] => mret []
  | f :: fs => p ← storage_get_store_path cfg f; ps ← store_paths cfg fs; mret (p :: ps)
  end.

(** C23 Round robin fills each sub directory with
    [g_file_distribute_rotate_count] files before it goes on to the next,
    visits all [N * N] of them and starts again: the i-th of any number of
    consecutive calls is given directory number (p + i) / R modulo N * N,
    written in base N. *)
Theorem storage_get_store_path_round_robin cfg d fs :
  g_file_distribute_path_mode cfg = FDFS_FILE_DIST_PATH_ROUND_ROBIN → dist_ok cfg d →
  ∃ d', store_paths cfg fs d
        = Some ((λ i, dir_at cfg ((position cfg d + i) mod period cfg)) <$> seqZ 0 (Z.of_nat (length fs)), d') ∧
    dist_ok cfg d' ∧ position cfg d' = (position cfg d + Z.of_nat (length fs)) mod period cfg.
Proof.
  intros Hm. revert d. induction fs as [|f fs IH]; intros d Hd.
  { exists d. pose proof (position_range cfg d Hd). cbn. rewrite Z.add_0_r, Z.mod_small by done. done. }
  pose proof (position_range cfg d Hd) as Hp.
  destruct (IH _ (rotate_dirs_ok cfg d Hd)) as (d' & E & Hd' & Hpos). exists d'.
  rewrite (rotate_dirs_position cfg d Hd) in *. cbn [store_paths length].
  assert (storage_get_store_path cfg f d
    = Some ((g_dist_path_index_high d, g_dist_path_index_low d), rotate_dirs cfg d)) as E1.
  { unfold storage_get_store_path. cbn [mbind prog_bind get]. by rewrite Hm. }
  rewrite (bind_run _ _ _ _ _ E1), (bind_run _ _ _ _ _ E).
  split; [|split; [done|]].
  - unfold mret, prog_ret. do 2 f_equal. rewrite (seqZ_cons 0 (Z.of_nat (S (length fs)))) by lia.
    cbn [fmap list_fmap].
    rewrite Z.add_0_r, (Z.mod_small (position cfg d)), dir_at_position by done. f_equal.
    rewrite Nat2Z.inj_succ, Z.pred_succ.
    change (Z.succ 0) with (1 + 0). rewrite <- (fmap_add_seqZ 1 0), <- list_fmap_compose.
    apply list_fmap_ext. intros i x _. cbn. f_equal.
    rewrite Zplus_mod_idemp_l. f_equal. lia.
  - rewrite Hpos, Zplus_mod_idemp_l. f_equal. lia.
Qed.

Definition sample_config : store_config :=
  {| g_store_path_mode := FDFS_STORE_PATH_ROUND_ROBIN;
     g_fdfs_store_paths := {| path_count := 2; paths := [bytes "/data0"; bytes "/data1"] |};
     g_path_space_list := [{| total_mb := 1000; free_mb := 10 |}; {| total_mb := 1000; free_mb := 500 |}];
     g_avg_storage_reserved_mb := 100; g_storage_reserved_space := ReservedMb 200;
     g_file_distribute_path_mode := FDFS_FILE_DIST_PATH_ROUND_ROBIN; g_file_distribute_rotate_count := 2;
     g_subdir_count_per_path := 256; g_server_id_in_filename := 16777343 |}.
Definition sample_dist : dist_state :=
  {| g_store_path_index := 0; g_dist_path_index_high := 3; g_dist_path_index_low := 255;
     g_dist_write_file_count := 1; g_stat_change_count := 0 |}.

Lemma storage_get_store_path_round_robin_witness :
  ∃ d', store_paths sample_config [[]; []; []] sample_dist = Some ([(3, 255); (4, 0); (4, 0)], d') ∧
    position sample_config d' = (position sample_config sample_dist + 3) mod period sample_config.
Proof.
  destruct (storage_get_store_path_round_robin sample_config sample_dist [[]; []; []]) as (d' & E & _ & Hp).
  - reflexivity.
  - split; vm_compute; done.
  - exists d'. split; [exact E|exact Hp].
Defined.

(** ** The choice of the store path *)

Definition has_space (cfg : store_config) (i : Z) : Prop :=
  ∃ s, g_path_space_list cfg !! Z.to_nat i = Some s ∧ path_has_space cfg s = true.

Record config_ok (cfg : store_config) : Prop := {
  co_count : 0 < path_count (g_fdfs_store_paths cfg);
  co_spaces : Z.of_nat (length (g_path_space_list cfg)) = path_count (g_fdfs_store_paths cfg);
}.

Lemma find_path_spec cfg n i :
  0 ≤ i → i + Z.of_nat n ≤ Z.of_nat (length (g_path_space_list cfg)) →
  (∃ j, find_path cfg n i = Some (Some j) ∧ i ≤ j < i + Z.of_nat n ∧ has_space cfg j) ∨
  (find_path cfg n i = Some None ∧ ∀ j, i ≤ j < i + Z.of_nat n → ¬ has_space cfg j).
Proof.
  revert i. induction n as [|n IH]; intros i Hi Hn; cbn [find_path].
  { right. split; [done|]. lia. }
  destruct (lookup_lt_is_Some_2 (g_path_space_list cfg) (Z.to_nat i)) as [s Hs]; [lia|].
  rewrite Hs. cbn [mbind option_bind]. destruct (path_has_space cfg s) eqn:E.
  - left. exists i. split; [done|]. split; [lia|]. by exists s.
  - destruct (IH (i + 1)) as [(j & -> & Hj & Hsp)|(-> & Hno)]; [lia|lia| |].
    + left. exists j. split; [done|]. split; [lia|done].
    + right. split; [done|]. intros j Hj (s' & Hs' & Hsp).
      destruct (decide (j = i)) as [->|]; [congruence|]. apply (Hno j); [lia|]. by exists s'.
Qed.

Lemma next_store_path_range cfg d :
  config_ok cfg → 0 ≤ g_store_path_index d →
  0 ≤ g_store_path_index (next_store_path cfg d) < path_count (g_fdfs_store_paths cfg).
Proof.
  intros [Hc _] Hd. unfold next_store_path. cbn.
  destruct (Z.leb_spec (path_count (g_fdfs_store_paths cfg)) (g_store_path_index d + 1)); lia.
Qed.

(** C22 In round-robin mode [storage_get_storage_path_index] never reads
    outside the list of paths; it returns ENOSPC exactly when no store path
    has enough free space, and otherwise the index of one that has: the one
    whose turn it is if that has enough.  The turn stays in range. *)
Theorem storage_get_storage_path_index_spec cfg d :
  config_ok cfg → g_store_path_mode cfg = FDFS_STORE_PATH_ROUND_ROBIN → 0 ≤ g_store_path_index d →
  let turn := if path_count (g_fdfs_store_paths cfg) <=? g_store_path_index d then 0
              else g_store_path_index d in
  ∃ r i d', storage_get_storage_path_index cfg d = Some ((r, i), d') ∧
    ((r = 0 ∧ 0 ≤ i < path_count (g_fdfs_store_paths cfg) ∧ has_space cfg i ∧
        (has_space cfg turn → i = turn) ∧
        0 ≤ g_store_path_index d' < path_count (g_fdfs_store_paths cfg)) ∨
     (r = ENOSPC ∧ d' = d ∧ ∀ j, 0 ≤ j < path_count (g_fdfs_store_paths cfg) → ¬ has_space cfg j)).
Proof.
  intros Hok Hm Hd turn. pose proof Hok as [Hc Hs]. set (count := path_count (g_fdfs_store_paths cfg)) in *.
  assert (0 ≤ turn < count) as Hturn by (unfold turn; destruct (Z.leb_spec count (g_store_path_index d)); lia).
  unfold storage_get_storage_path_index. rewrite Hm.
  change (FDFS_STORE_PATH_ROUND_ROBIN =? FDFS_STORE_PATH_LOAD_BALANCE) with false. cbv iota.
  rewrite (bind_run get _ d d d eq_refl).
  cbv zeta. fold count. fold turn. rewrite (proj2 (Z.ltb_ge turn 0)) by lia.
  destruct (lookup_lt_is_Some_2 (g_path_space_list cfg) (Z.to_nat turn)) as [s Hsp]; [lia|].
  rewrite Hsp, (bind_run (deref (Some s)) _ d s d eq_refl). cbv beta. destruct (path_has_space cfg s) eqn:E.
  - eexists _, _, _. split; [done|]. left. split; [done|]. split; [done|]. split; [by exists s|].
    split; [done|]. by apply next_store_path_range.
  - destruct (find_path_spec cfg (Z.to_nat count) 0) as [(j & -> & Hj & Hsj)|(-> & Hno)]; [lia|lia| |].
    + eexists _, _, _. split; [done|]. left. split; [done|]. split; [lia|]. split; [done|]. split.
      * intros (s' & Hs' & Hsp'). congruence.
      * apply next_store_path_range; [done|]. cbn. lia.
    + eexists _, _, _. split; [done|]. right. split; [done|]. split; [done|]. intros k Hk. apply Hno. lia.
Qed.

Lemma storage_get_storage_path_index_spec_witness :
  ∃ d', storage_get_storage_path_index sample_config sample_dist = Some ((0, 1), d') ∧
    0 ≤ g_store_path_index d' < 2.
Proof.
  destruct (storage_get_storage_path_index_spec sample_config sample_dist)
    as (r & i & d' & E & [(-> & _ & _ & _ & Hd')|(-> & _)]).
  - by split.
  - reflexivity.
  - vm_compute. done.
  - assert (i = 1) as -> by (vm_compute in E; by injection E). exists d'. split; [exact E|exact Hd'].
  - vm_compute in E. discriminate E.
Defined.

(** ** Names of files in trunks *)

Lemma is_int64_shiftr z : is_int64 z ↔ Z.shiftr z 63 = 0 ∨ Z.shiftr z 63 = -1.
Proof. unfold is_int64. rewrite Z.shiftr_div_pow2 by lia. dlia. Qed.

Lemma is_int64_lor a b : is_int64 a → is_int64 b → is_int64 (Z.lor a b).
Proof. rewrite !is_int64_shiftr, Z.shiftr_lor. intros [->| ->] [->| ->]; cbn; auto. Qed.

(** The size in the name: its low half is the size, it is marked as a trunk
    file, and it is not taken for a plain size. *)
Lemma trunk_size_in_name_spec rand fs :
  0 ≤ fs < 2 ^ 32 →
  is_int64 (trunk_size_in_name rand fs) ∧ IS_TRUNK_FILE (trunk_size_in_name rand fs) = true ∧
  FDFS_TRUNK_FILE_TRUE_SIZE (trunk_size_in_name rand fs) = fs ∧
  c_true (Z.shiftr (trunk_size_in_name rand fs) 32) = true.
Proof.
  intros Hfs. unfold trunk_size_in_name, COMBINE_RAND_FILE_SIZE. cbv zeta.
  set (r := s32 (Z.lor (Z.land rand 8388607) 2147483648)).
  assert (is_int32 r) as Hr by apply s32_range.
  assert (s64 (Z.shiftl r 32) = Z.shiftl r 32) as ->.
  { apply s64_id. unfold is_int64, is_int32 in *. rewrite Z.shiftl_mul_pow2 by lia. lia. }
  set (x := Z.lor (Z.lor (Z.shiftl r 32) fs) FDFS_TRUNK_FILE_MARK_SIZE).
  assert (FDFS_TRUNK_FILE_MARK_SIZE = 2 ^ 59) as Hmark by reflexivity.
  assert (Z.testbit x 59 = true) as Hbit.
  { unfold x. rewrite Z.lor_spec, Hmark, Z.pow2_bits_true by lia. apply orb_true_r. }
  split_and!.
  - repeat apply is_int64_lor.
    + unfold is_int64, is_int32 in *. rewrite Z.shiftl_mul_pow2 by lia. lia.
    + unfold is_int64. lia.
    + rewrite Hmark. unfold is_int64. lia.
  - unfold IS_TRUNK_FILE, c_true. apply negb_true_iff, Z.eqb_neq. intros E.
    apply (f_equal (λ z, Z.testbit z 59)) in E.
    rewrite Z.land_spec, Hbit, Hmark, Z.pow2_bits_true, Z.bits_0 in E by lia. done.
  - unfold FDFS_TRUNK_FILE_TRUE_SIZE, x. rewrite !Z.land_lor_distr_l.
    change 4294967295 with (Z.ones 32). rewrite !Z.land_ones by lia.
    rewrite Z.shiftl_mul_pow2, Z.mod_mul, (Z.mod_small fs) by lia. rewrite Hmark.
    change (2 ^ 59 mod 2 ^ 32) with 0. by rewrite Z.lor_0_l, Z.lor_0_r.
  - unfold c_true. apply negb_true_iff, Z.eqb_neq. intros E.
    apply (f_equal (λ z, Z.testbit z 27)) in E.
    rewrite Z.shiftr_spec in E by lia. change (27 + 32) with 59 in E. rewrite Hbit, Z.bits_0 in E. done.
Qed.

(** The characters of a name are not NUL. *)
Definition name_char (c : Z) : Prop := c ≠ 0.

Lemma g_value_char v : name_char (value_char g_fdfs_base64_context (Z.land v 63)).
Proof.
  assert (0 ≤ Z.land v 63 < 64) as H.
  { change 63 with (Z.ones 6). rewrite Z.land_ones by lia. apply Z.mod_pos_bound. lia. }
  revert H. generalize (Z.land v 63). intros w Hw. unfold name_char. all_below 64 w.
Qed.

Lemma g_encode_loop raw lp out lp' :
  encode_loop g_fdfs_base64_context raw lp = Some (out, lp') → Forall name_char out.
Proof.
  assert (∀ n raw lp out lp', (length raw ≤ n)%nat →
    encode_loop g_fdfs_base64_context raw lp = Some (out, lp') → Forall name_char out) as H.
  { clear. induction n as [|n IH]; intros raw lp out lp' Hl E.
    { destruct raw; [|cbn in Hl; lia]. injection E as <- _. constructor. }
    destruct raw as [|b0 [|b1 [|b2 raw]]]; try (injection E as <- _; constructor).
    cbn [encode_loop] in E. unfold next_line_pos in E.
    change (c_true (line_length g_fdfs_base64_context)) with false in E. cbv iota in E.
    destruct (line_length g_fdfs_base64_context <? lp + 4);
      (destruct (encode_loop g_fdfs_base64_context raw _) as [[o p]|] eqn:Er; [|done]);
      injection E as <- _; cbn [app]; apply IH in Er; try (cbn in Hl; lia);
      unfold encode_group; cbv zeta; cbn [fmap list_fmap app];
      do 4 (constructor; [apply g_value_char|]); done. }
  by eapply H.
Qed.

Lemma Forall_take' {A} (P : A → Prop) n l : Forall P l → Forall P (take n l).
Proof. intros H. rewrite <- (take_drop n l) in H. by apply Forall_app in H as [? _]. Qed.

Lemma g_encode_chars src dest :
  base64_encode_ex g_fdfs_base64_context src false = Some dest → 0 ∉ dest.
Proof.
  intros E. enough (Forall name_char dest) as H.
  { intros Hin. rewrite Forall_forall in H. by apply (H 0). }
  unfold base64_encode_ex in E. destruct src as [|b src]; [injection E as <-; constructor|].
  destruct (encode_loop _ (take _ _) 0) as [[o0 lp]|] eqn:E0; [|done].
  destruct (encode_loop _ (leftover_group _) lp) as [[o1 lp1]|] eqn:E1; [|done].
  apply g_encode_loop in E0, E1. assert (Forall name_char (o0 ++ o1)) as H by (by apply Forall_app).
  injection E as <-. unfold finish_pad.
  destruct (length _) as [|[|[|?]]]; rewrite ?app_nil_r; try done; by apply Forall_take'.
Qed.

Lemma sprintf_02X_no_nul n : 0 ≤ n < 256 → 0 ∉ sprintf_02X n.
Proof.
  intros Hn Hin. assert (bool_decide (0 ∈ sprintf_02X n) = true) as H by (by apply bool_decide_eq_true_2).
  revert H. enough (bool_decide (0 ∈ sprintf_02X n) = false) as -> by done. clear Hin. all_below 256 n.
Qed.

(** The four parts of the true name of a file in a trunk. *)
Definition true_name (high low : Z) (encoded trunk_buff ext : list Z) : list Z :=
  (sprintf_02X high ++ [CH_SLASH] ++ sprintf_02X low ++ [CH_SLASH]) ++ encoded ++ trunk_buff ++ ext.

Record name_parts (high low : Z) (encoded trunk_buff ext : list Z) : Prop := {
  np_high : 0 ≤ high < 256;
  np_low : 0 ≤ low < 256;
  np_encoded : length encoded = 27%nat ∧ 0 ∉ encoded;
  np_trunk : length trunk_buff = 16%nat;
  np_ext : length ext = 7%nat ∧ 0 ∉ ext;
}.

Lemma sub_dirs_length high low :
  0 ≤ high < 256 → 0 ≤ low < 256 →
  length (sprintf_02X high ++ [CH_SLASH] ++ sprintf_02X low ++ [CH_SLASH]) = 6%nat.
Proof. intros Hh Hl. rewrite !length_app, !sprintf_02X_length by done. done. Qed.

Lemma true_name_length high low encoded trunk_buff ext :
  name_parts high low encoded trunk_buff ext →
  Z.of_nat (length (true_name high low encoded trunk_buff ext)) = FDFS_TRUNK_FILENAME_LENGTH.
Proof.
  intros [Hh Hl [He _] Ht [Hx _]]. unfold true_name.
  rewrite length_app, sub_dirs_length, !length_app, He, Ht, Hx by done. done.
Qed.

(** The logical name is the true name with the store path in front, the
    slot inserted behind the encoded fields. *)
Lemma trunk_fname2log_parts index high low encoded trunk_buff ext f :
  name_parts high low encoded trunk_buff ext → 0 ≤ index < 256 →
  trunk_file_info_encode f = Some trunk_buff →
  trunk_fname2log index (sprintf_02X high ++ [CH_SLASH] ++ sprintf_02X low ++ [CH_SLASH] ++ encoded ++ ext) f
  = Some (logic_name index (true_name high low encoded trunk_buff ext)).
Proof.
  intros [Hh Hl [He He0] Ht [Hx Hx0]] Hi Ef. unfold trunk_fname2log. rewrite Ef.
  set (dirs := sprintf_02X high ++ [CH_SLASH] ++ sprintf_02X low ++ [CH_SLASH]).
  assert (length dirs = 6%nat) as Hd by (by apply sub_dirs_length).
  assert (sprintf_02X high ++ [CH_SLASH] ++ sprintf_02X low ++ [CH_SLASH] ++ encoded ++ ext
          = dirs ++ encoded ++ ext) as -> by (unfold dirs; rewrite <- !app_assoc; done).
  assert (0 ∉ dirs) as Hd0.
  { unfold dirs. rewrite !not_elem_of_app, !not_elem_of_cons.
    split_and!; try done; try apply not_elem_of_nil; by apply sprintf_02X_no_nul. }
  assert (c_string (dirs ++ encoded ++ ext) = dirs ++ encoded ++ ext) as ->.
  { apply c_string_no_nul. rewrite !not_elem_of_app. done. }
  assert (length (sprintf_02X index) = 2%nat) as Hi2 by (by apply sprintf_02X_length).
  cbv zeta. cbn [mbind option_bind].
  replace (FDFS_STORAGE_STORE_PATH_PREFIX_CHAR :: sprintf_02X index ++ [CH_SLASH] ++ dirs ++ encoded ++ ext)
    with ([] ++ (FDFS_STORAGE_STORE_PATH_PREFIX_CHAR :: sprintf_02X index ++ [CH_SLASH] ++ dirs ++ encoded) ++ ext)
    by (cbn [app]; rewrite <- app_assoc; cbn [app]; rewrite <- app_assoc; done).
  rewrite (read_at_app []); [|done|cbn [length]; rewrite !length_app, Hi2, Hd, He; done].
  cbn [mbind option_bind].
  replace (drop (Z.to_nat (FDFS_TRUE_FILE_PATH_LEN + FDFS_FILENAME_BASE64_LENGTH)) (dirs ++ encoded ++ ext)) with ext.
  2:{ rewrite app_assoc. symmetry. apply drop_app_length'. rewrite length_app, Hd, He. done. }
  rewrite c_string_no_nul by done. unfold logic_name, true_name. fold dirs. f_equal.
  cbn [app]. rewrite <- app_assoc. cbn [app]. by rewrite <- !app_assoc.
Qed.

Lemma decode_path_true_name index high low encoded trunk_buff ext :
  name_parts high low encoded trunk_buff ext → 0 ≤ index < 256 →
  decode_path index (true_name high low encoded trunk_buff ext)
  = {| store_path_index := index; sub_path_high := high; sub_path_low := low |}.
Proof.
  intros [Hh Hl _ _ _] Hi. unfold decode_path, true_name. rewrite <- !app_assoc. cbn [app].
  rewrite strtol_sprintf_02X by done. cbn [fst].
  replace (drop 3 (sprintf_02X high ++ CH_SLASH :: sprintf_02X low ++ CH_SLASH :: encoded ++ trunk_buff ++ ext))
    with (sprintf_02X low ++ CH_SLASH :: encoded ++ trunk_buff ++ ext).
  2:{ symmetry. replace (sprintf_02X high ++ CH_SLASH :: sprintf_02X low ++ CH_SLASH :: encoded ++ trunk_buff ++ ext)
        with ((sprintf_02X high ++ [CH_SLASH]) ++ sprintf_02X low ++ CH_SLASH :: encoded ++ trunk_buff ++ ext)
        by (rewrite <- app_assoc; done).
      apply drop_app_length'. rewrite length_app, sprintf_02X_length by done. done. }
  rewrite strtol_sprintf_02X by done. cbn [fst]. unfold u8.
  rewrite !Z.mod_small by (change (2 ^ 8) with 256; lia). done.
Qed.

Lemma name_bytes_ok cfg t size crc : Forall is_byte (name_bytes cfg t size crc).
Proof. unfold name_bytes. rewrite !Forall_app. split_and!; apply int2buff_bytes || apply long2buff_bytes. Qed.

(** What the fields of a name decode to. *)
Lemma name_bytes_fields cfg t size crc x :
  is_int32 t → is_int64 size → is_int32 crc →
  buff2long (drop 8 (name_bytes cfg t size crc ++ x)) = Some size ∧
  buff2int (drop 4 (name_bytes cfg t size crc ++ x)) = Some t ∧
  buff2int (drop 16 (name_bytes cfg t size crc ++ x)) = Some crc.
Proof.
  intros Ht Hs Hc. unfold name_bytes. split_and!.
  - change (drop 8 _) with (long2buff size ++ int2buff crc ++ x). by apply buff2long_long2buff.
  - change (drop 4 _) with (int2buff t ++ long2buff size ++ int2buff crc ++ x). by apply buff2int_int2buff.
  - change (drop 16 _) with (int2buff crc ++ x). by apply buff2int_int2buff.
Qed.

Section trunk_name.
Context (high low index : Z) (encoded trunk_buff ext : list Z).
Context (Hp : name_parts high low encoded trunk_buff ext) (Hi : 0 ≤ index < 256).
#[local] Abbreviation tn := (true_name high low encoded trunk_buff ext).
#[local] Abbreviation dirs := (sprintf_02X high ++ [CH_SLASH] ++ sprintf_02X low ++ [CH_SLASH]).

Lemma dirs_length : length dirs = 6%nat.
Proof using Hp. apply sub_dirs_length; apply Hp. Qed.

Lemma encoded_length : length encoded = 27%nat.
Proof using Hp. apply Hp. Qed.

Lemma logic_name_length : Z.of_nat (length (logic_name index tn)) = FDFS_TRUNK_LOGIC_FILENAME_LENGTH.
Proof.
  pose proof (true_name_length _ _ _ _ _ Hp) as Htn. unfold logic_name. cbn [length].
  rewrite length_app, sprintf_02X_length by done. cbn [length].
  change FDFS_TRUNK_LOGIC_FILENAME_LENGTH with (FDFS_TRUNK_FILENAME_LENGTH + 4). lia.
Qed.

Lemma read_encoded : read_at tn FDFS_TRUE_FILE_PATH_LEN FDFS_FILENAME_BASE64_LENGTH = Some encoded.
Proof using Hp. apply read_at_app; [by rewrite dirs_length|by rewrite encoded_length]. Qed.

Lemma read_logic_encoded :
  read_at (logic_name index tn) FDFS_LOGIC_FILE_PATH_LEN FDFS_FILENAME_BASE64_LENGTH = Some encoded.
Proof.
  unfold logic_name, true_name.
  change (?c :: ?a ++ ?s :: dirs ++ ?r) with (c :: a ++ [s] ++ dirs ++ r).
  rewrite (app_assoc _ dirs), (app_assoc (sprintf_02X index)), app_comm_cons.
  apply read_at_app; [|by rewrite encoded_length].
  cbn [length]. rewrite length_app, (length_app _ dirs), sprintf_02X_length, dirs_length by done. done.
Qed.

Lemma drop_trunk_buff :
  drop (Z.to_nat (FDFS_TRUE_FILE_PATH_LEN + FDFS_FILENAME_BASE64_LENGTH)) tn = trunk_buff ++ ext.
Proof using Hp.
  unfold true_name. rewrite app_assoc. apply drop_app_length'.
  rewrite length_app, dirs_length, encoded_length. done.
Qed.

Lemma read_ext :
  read_at (tn ++ [0]) (FDFS_TRUNK_FILENAME_LENGTH - (FDFS_FILE_EXT_NAME_MAX_LEN + 1))
    (FDFS_FILE_EXT_NAME_MAX_LEN + 2) = Some (ext ++ [0]).
Proof using Hp.
  replace (tn ++ [0]) with ((dirs ++ encoded ++ trunk_buff) ++ (ext ++ [0]) ++ [])
    by (unfold true_name; rewrite app_nil_r, <- !app_assoc; done).
  pose proof (np_trunk _ _ _ _ _ Hp) as Htb. destruct (np_ext _ _ _ _ _ Hp) as [Hx _].
  apply read_at_app; [|by rewrite length_app, Hx].
  rewrite (length_app dirs), dirs_length, length_app, encoded_length, Htb. done.
Qed.

Context (cfg : store_config) (t size crc : Z) (x : list Z) (n : Z).
Context (Ht : is_int32 t) (Hs : is_int64 size) (Hc : is_int32 crc).
Context (Hd : base64_decode_auto_to true g_fdfs_base64_context encoded = Some (name_bytes cfg t size crc ++ x, n)).

Lemma is_trunk_name :
  fdfs_is_trunk_file (logic_name index tn) (Z.of_nat (length (logic_name index tn)))
  = Some (IS_TRUNK_FILE size).
Proof.
  unfold fdfs_is_trunk_file. rewrite logic_name_length, Z.eqb_refl. cbn [negb].
  rewrite read_logic_encoded. cbn [mbind option_bind]. rewrite Hd. cbn [mbind option_bind].
  unfold store_at. rewrite <- app_assoc.
  match goal with |- context [name_bytes cfg t size crc ++ ?y] =>
    destruct (name_bytes_fields cfg t size crc y Ht Hs Hc) as (-> & _) end. done.
Qed.

Lemma header_of_trunk_name buff f h0 :
  header_of_name (tn ++ [0]) FDFS_TRUNK_FILENAME_LENGTH (store_at buff (name_bytes cfg t size crc ++ x)) f h0
  = Some {| file_type := file_type h0; formatted_ext_name := ext ++ [0]; h_alloc_size := tf_size f;
            h_file_size := s32 (FDFS_TRUNK_FILE_TRUE_SIZE size); h_crc32 := crc; h_mtime := t |}.
Proof using Hp Ht Hs Hc.
  unfold header_of_name, store_at. rewrite <- app_assoc.
  match goal with |- context [name_bytes cfg t size crc ++ ?y] =>
    destruct (name_bytes_fields cfg t size crc y Ht Hs Hc) as (-> & -> & ->) end.
  cbn [mbind option_bind]. by rewrite read_ext.
Qed.
End trunk_name.

Lemma storage_gen_filename_alloced cfg d rand size crc ext t high low encoded :
  c_true (Z.shiftr size 32) = true → length ext = 7%nat →
  base64_encode_ex g_fdfs_base64_context (name_bytes cfg t size crc) false = Some encoded →
  storage_gen_filename cfg rand size crc ext (FDFS_FILE_EXT_NAME_MAX_LEN + 1) t (Some (high, low)) d
  = Some ((sprintf_02X high ++ [CH_SLASH] ++ sprintf_02X low ++ [CH_SLASH] ++ encoded ++ ext, (high, low)), d).
Proof.
  intros Hs Hx E. unfold storage_gen_filename. rewrite Hs. cbv zeta. rewrite E.
  rewrite (bind_run (deref (Some encoded)) _ d encoded d eq_refl).
  rewrite (bind_run (mret (high, low)) _ d (high, low) d eq_refl).
  assert (read_at ext 0 (FDFS_FILE_EXT_NAME_MAX_LEN + 1) = Some ext) as ->.
  { rewrite <- (app_nil_r ext) at 1. apply (read_at_app [] ext []); [done|by rewrite Hx]. }
  by rewrite (bind_run (deref (Some ext)) _ d ext d eq_refl).
Qed.

(** C21 The name given to a file stored in a trunk says everything about it:
    [storage_gen_filename] and the name building of the upload handler
    produce a logical name that is recognised as that of a trunk file,
    splits into the store path and the true name, and decodes back to the
    slot (path, trunk file, offset, size) and to the header (size, CRC,
    time, extension), whatever the random bits mixed into the size. *)
Theorem trunk_name_decodes cfg d rand fs crc ext t high low index f stale buff h0 info :
  0 ≤ fs < 2 ^ 31 → is_int32 crc → is_int32 t → file_ok f →
  0 ≤ high < 256 → 0 ≤ low < 256 → 0 ≤ index < 256 → length ext = 7%nat → 0 ∉ ext →
  ∃ filename fname true_filename written n,
    storage_gen_filename cfg rand (trunk_size_in_name rand fs) crc ext (FDFS_FILE_EXT_NAME_MAX_LEN + 1) t
      (Some (high, low)) d = Some ((filename, (high, low)), d) ∧
    trunk_fname2log index filename f = Some fname ∧
    Z.of_nat (length fname) = FDFS_TRUNK_LOGIC_FILENAME_LENGTH ∧
    fdfs_is_trunk_file fname (Z.of_nat (length fname)) = Some true ∧
    storage_split_filename_no_check (fname ++ [0]) (Z.of_nat (length fname))
    = Some (inr (FDFS_TRUNK_FILENAME_LENGTH, true_filename ++ [0], index)) ∧
    fdfs_decode_trunk_info stale index true_filename FDFS_TRUNK_FILENAME_LENGTH info
    = Some (0, {| status := status info;
                  path := {| store_path_index := index; sub_path_high := high; sub_path_low := low |};
                  file := f |}) ∧
    (str ← read_at true_filename FDFS_TRUE_FILE_PATH_LEN FDFS_FILENAME_BASE64_LENGTH;
     base64_decode_auto_to true g_fdfs_base64_context str) = Some (written, n) ∧
    header_of_name (true_filename ++ [0]) FDFS_TRUNK_FILENAME_LENGTH (store_at buff written) f h0
    = Some {| file_type := file_type h0; formatted_ext_name := ext ++ [0]; h_alloc_size := tf_size f;
              h_file_size := fs; h_crc32 := crc; h_mtime := t |}.
Proof.
  intros Hfs Hcrc Ht Hf Hh Hl Hi Hx Hx0.
  destruct (trunk_size_in_name_spec rand fs ltac:(lia)) as (Hs64 & Htrunk & Hlow & Hhigh).
  revert Hs64 Htrunk Hlow Hhigh. generalize (trunk_size_in_name rand fs). intros size Hs64 Htrunk Hlow Hhigh.
  destruct (name_base64 (name_bytes cfg t size crc) (name_bytes_ok _ _ _ _)) as (encoded & Ee & Hel & x & Hd).
  pose proof (g_encode_chars _ _ Ee) as He0.
  destruct (trunk_file_info_roundtrip f Hf) as (trunk_buff & Et & Htl & Hdec).
  change (length (name_bytes cfg t size crc)) with 20%nat in Hel, Hd.
  change ((4 * Z.of_nat 20 + 2) / 3) with 27 in Hel.
  assert (name_parts high low encoded trunk_buff ext) as Hp.
  { split; try done; [split; [|done]; lia|unfold FDFS_TRUNK_FILE_INFO_LEN in Htl; lia]. }
  pose proof (true_name_length _ _ _ _ _ Hp) as Htn.
  eexists _, (logic_name index (true_name high low encoded trunk_buff ext)), _, _, _. split_and!.
  - by apply storage_gen_filename_alloced.
  - by apply trunk_fname2log_parts.
  - by apply logic_name_length.
  - rewrite <- Htrunk. exact (is_trunk_name _ _ _ _ _ _ Hp Hi cfg t size crc x _ Ht Hs64 Hcrc Hd).
  - unfold storage_split_filename_no_check.
    rewrite split_logic_name by (done || (change FDFS_TRUNK_FILENAME_LENGTH with 56 in Htn; lia)).
    cbn [andb]. by rewrite Htn.
  - unfold fdfs_decode_trunk_info. rewrite Z.eqb_refl. cbn [negb].
    rewrite (drop_trunk_buff _ _ _ _ _ Hp), Hdec. cbn [mbind option_bind].
    by rewrite (decode_path_true_name _ _ _ _ _ _ Hp Hi).
  - rewrite (read_encoded _ _ _ _ _ Hp). cbn [mbind option_bind]. exact Hd.
  - rewrite (header_of_trunk_name _ _ _ _ _ Hp) by done. by rewrite Hlow, s32_id by (unfold is_int32; lia).
Qed.

Lemma trunk_name_decodes_witness :
  let f := {| tf_id := 7; tf_offset := 4096; tf_size := 1024 |} in
  ∃ filename fname, storage_gen_filename sample_config 12345 (trunk_size_in_name 12345 1000) (-5) (bytes "012.jpg") 7
      1400000000 (Some (1, 255)) sample_dist = Some ((filename, (1, 255)), sample_dist) ∧
    trunk_fname2log 3 filename f = Some fname ∧ fdfs_is_trunk_file fname (Z.of_nat (length fname)) = Some true.
Proof.
  cbv zeta. destruct (trunk_name_decodes sample_config sample_dist 12345 1000 (-5) (bytes "012.jpg") 1400000000 1 255 3
    {| tf_id := 7; tf_offset := 4096; tf_size := 1024 |} [] []
    {| file_type := 0; formatted_ext_name := []; h_alloc_size := 0; h_file_size := 0; h_crc32 := 0; h_mtime := 0 |}
    {| status := 0; path := {| store_path_index := 0; sub_path_high := 0; sub_path_low := 0 |};
       file := {| tf_id := 0; tf_offset := 0; tf_size := 0 |} |})
    as (filename & fname & tn & w & n & H1 & H2 & _ & H3 & _).
  - lia.
  - vm_compute. done.
  - vm_compute. done.
  - vm_compute. done.
  - lia.
  - lia.
  - lia.
  - reflexivity.
  - apply (bool_decide_unpack _). vm_compute. exact I.
  - exists filename, fname. split; [exact H1|]. split; [exact H2|exact H3].
Defined.
