(* ===== verification/FreeBlockChecker.v ===== *)
(** * storage/trunk_mgr/trunk_free_block_checker.c: the index of free blocks

    [tree_info_by_id] maps a trunk file (path and id) to the array of the
    free blocks of that file, sorted by offset; it exists to refuse a block
    that overlaps another.  The arrays hold pointers to the trunk nodes of
    trunk_mem.c: a pointer is a [positive] and the nodes are in a heap
    [gmap positive FDFSTrunkFullInfo] that this file only reads.  [None] is
    a wild pointer, an index outside an array, or a loop out of fuel. *)

From stdpp Require Import strings.
From Stdlib Require Import Sorting.Sorted.
From S2P Require Import Prelude RankList AvlTree CLib TrunkShared.
#[local] Open Scope Z_scope.

Definition heap : Type := gmap positive FDFSTrunkFullInfo.

(** ** Data *)

Record FDFSTrunkFileIdentifier := { fi_path : FDFSTrunkPathInfo; fi_id : Z }.

(** [blocks] is the first [count] entries of the array. *)
Record FDFSBlockArray := { alloc : Z; blocks : list positive }.
Definition array_count (pArray : FDFSBlockArray) : Z := Z.of_nat (length (blocks pArray)).

Record FDFSTrunksById := {
  trunk_file_id : FDFSTrunkFileIdentifier;
  block_array : FDFSBlockArray;
}.

Definition id_tree : Type := AVLTreeInfo FDFSTrunksById unit.

Definition TRUNK_FREE_BLOCK_ARRAY_INIT_SIZE : Z := 32.

(** What the allocator answers during a call, and [errno] when it fails. *)
Record alloc_outcome := {
  malloc_ok : bool;     (* malloc of an FDFSTrunksById *)
  avl_malloc_ok : bool; (* createTreeNode *)
  realloc_ok : bool;
  alloc_errno : Z;
}.

(** The bytes of an identifier: three path bytes, one byte of padding that
    [memset] cleared, the id. *)
Definition identifier_bytes (i : FDFSTrunkFileIdentifier) : list Z :=
  [store_path_index (fi_path i); sub_path_high (fi_path i); sub_path_low (fi_path i); 0]
  ++ int_bytes_le (fi_id i).

Definition storage_trunk_node_compare_entry (p1 p2 : FDFSTrunksById) : Z :=
  memcmp (identifier_bytes (trunk_file_id p1)) (identifier_bytes (trunk_file_id p2)).

Definition trunk_free_block_checker_init : id_tree :=
  avl_tree_init (Some (λ _ w, w)) storage_trunk_node_compare_entry.

Definition trunk_free_block_checker_destroy (tree : id_tree) : id_tree :=
  (avl_tree_destroy tree tt).1.

Definition trunk_free_block_tree_node_count (tree : id_tree) : Z := avl_tree_count tree.

Definition block_tree_count_walk_callback (data : FDFSTrunksById) (pcount : Z) : Z * Z :=
  (0, pcount + array_count (block_array data)).

(** [avl_tree_walk] over the data of a tree whose [free_data_func] acts on
    another state. *)
Definition walk_ids {W} (tree : id_tree) (op : FDFSTrunksById → W → Z * W) (w : W) : Z * W :=
  avl_tree_walk (mkAVLTreeInfo (root tree) None (compare_func tree)) op w.

Definition trunk_free_block_total_count (tree : id_tree) : Z :=
  (walk_ids tree block_tree_count_walk_callback 0).2.

Definition FILL_FILE_IDENTIFIER (pTrunkInfo : FDFSTrunkFullInfo) : FDFSTrunkFileIdentifier :=
  {| fi_path := path pTrunkInfo; fi_id := tf_id (file pTrunkInfo) |}.

(** The search key [target]: only its identifier is read. *)
Definition target_of (i : FDFSTrunkFileIdentifier) : FDFSTrunksById :=
  {| trunk_file_id := i; block_array := {| alloc := 0; blocks := [] |} |}.

Section checker.
Context (h : heap).

(** [blocks[i]->file] *)
Definition block_file (b : list positive) (i : Z) : option FDFSTrunkFileInfo :=
  a ← b !! Z.to_nat i;
  info ← h !! a;
  Some (file info).

Fixpoint check_duplicate_loop (fuel : nat) (b : list positive) (left right offset size end_offset : Z)
    : option Z :=
  if left <=? right then
    match fuel with
    | O => None
    | S fuel =>
        let mid := Z.quot (left + right) 2 in
        f ← block_file b mid;
        if offset <? tf_offset f then
          if tf_offset f <? end_offset then Some EEXIST
          else check_duplicate_loop fuel b left (mid - 1) offset size end_offset
        else if offset =? tf_offset f then
          if size =? tf_size f then Some EEXIST else Some EEXIST
        else if offset <? s32 (tf_offset f + tf_size f) then Some EEXIST
        else check_duplicate_loop fuel b (mid + 1) right offset size end_offset
    end
  else Some 0.

Definition trunk_free_block_check_duplicate (tree : id_tree) (pTrunkInfo : FDFSTrunkFullInfo)
    : option Z :=
  match avl_tree_find tree (target_of (FILL_FILE_IDENTIFIER pTrunkInfo)) with
  | None => Some 0
  | Some pFound =>
      let b := blocks (block_array pFound) in
      let count := array_count (block_array pFound) in
      if count =? 0 then Some 0
      else
        let offset := tf_offset (file pTrunkInfo) in
        let size := tf_size (file pTrunkInfo) in
        let end_offset := s32 (offset + size) in
        first ← block_file b 0;
        if end_offset <=? tf_offset first then Some 0
        else
          let right := count - 1 in
          last ← block_file b right;
          if s32 (tf_offset last + tf_size last) <=? offset then Some 0
          else check_duplicate_loop (length b) b 0 right offset size end_offset
  end.

Definition trunk_free_block_realloc (m : alloc_outcome) (pArray : FDFSBlockArray) (new_alloc : Z)
    : Z * FDFSBlockArray :=
  if realloc_ok m then (0, {| alloc := new_alloc; blocks := blocks pArray |})
  else (errno_or (alloc_errno m) ENOMEM, pArray).

(** The entries from [pos] on move up and [pos] takes the new pointer;
    [None] stores outside the array. *)
Definition array_insert (pArray : FDFSBlockArray) (pos : Z) (a : positive) : option FDFSBlockArray :=
  if alloc pArray <=? array_count pArray then None
  else
    Some {| alloc := alloc pArray;
            blocks := take (Z.to_nat pos) (blocks pArray) ++ a :: drop (Z.to_nat pos) (blocks pArray) |}.

(** Binary search of an offset: whether it was found, and the last [mid]. *)
Fixpoint search_offset (fuel : nat) (b : list positive) (left right mid offset : Z)
    : option (bool * Z) :=
  if left <=? right then
    match fuel with
    | O => None
    | S fuel =>
        let mid := Z.quot (left + right) 2 in
        f ← block_file b mid;
        if offset <? tf_offset f then search_offset fuel b left (mid - 1) mid offset
        else if tf_offset f =? offset then Some (true, mid)
        else search_offset fuel b (mid + 1) right mid offset
    end
  else Some (false, mid).

(** The placement of the pointer [a] to the node [pTrunkInfo]. *)
Definition place_block (pArray : FDFSBlockArray) (a : positive) (pTrunkInfo : FDFSTrunkFullInfo)
    : option (Z * FDFSBlockArray) :=
  let b := blocks pArray in
  let offset := tf_offset (file pTrunkInfo) in
  if array_count pArray =? 0 then r ← array_insert pArray 0 a; Some (0, r)
  else
    first ← block_file b 0;
    if offset <? tf_offset first then r ← array_insert pArray 0 a; Some (0, r)
    else
      let right := array_count pArray - 1 in
      last ← block_file b right;
      if tf_offset last <? offset then r ← array_insert pArray (array_count pArray) a; Some (0, r)
      else
        '(found, mid) ← search_offset (length b) b 0 right 0 offset;
        if (found : bool) then Some (EEXIST, pArray)
        else
          f ← block_file b mid;
          let pos := if offset <? tf_offset f then mid else mid + 1 in
          r ← array_insert pArray pos a;
          Some (0, r).

Definition trunk_free_block_do_insert (m : alloc_outcome) (a : positive)
    (pTrunkInfo : FDFSTrunkFullInfo) (pArray : FDFSBlockArray) : option (Z * FDFSBlockArray) :=
  let '(result, pArray) :=
    if alloc pArray <=? array_count pArray then
      trunk_free_block_realloc m pArray
        (if alloc pArray =? 0 then TRUNK_FREE_BLOCK_ARRAY_INIT_SIZE else 2 * alloc pArray)
    else (0, pArray) in
  if c_true result then Some (result, pArray)
  else place_block pArray a pTrunkInfo.

(** Write the array of an entry of the tree back. *)
Definition store_array (tree : id_tree) (e : FDFSTrunksById) (arr : FDFSBlockArray) : id_tree :=
  avl_tree_store tree e {| trunk_file_id := trunk_file_id e; block_array := arr |}.

(** [a] is the address of the node. *)
Definition trunk_free_block_insert (m : alloc_outcome) (tree : id_tree) (a : positive)
    : option (Z * id_tree) :=
  pTrunkInfo ← h !! a;
  let target := target_of (FILL_FILE_IDENTIFIER pTrunkInfo) in
  match avl_tree_find tree target with
  | Some pTrunksById =>
      '(result, arr) ← trunk_free_block_do_insert m a pTrunkInfo (block_array pTrunksById);
      Some (result, store_array tree pTrunksById arr)
  | None =>
      if negb (malloc_ok m) then Some (errno_or (alloc_errno m) ENOMEM, tree)
      else
        '(tree, code) ← avl_tree_insert (avl_malloc_ok m) tree target;
        if negb (code =? 1) then Some (errno_or (alloc_errno m) ENOMEM, tree)
        else
          '(result, arr) ← trunk_free_block_do_insert m a pTrunkInfo (block_array target);
          Some (result, store_array tree target arr)
  end.

Definition trunk_free_block_delete (m : alloc_outcome) (tree : id_tree)
    (pTrunkInfo : FDFSTrunkFullInfo) : option (Z * id_tree) :=
  match avl_tree_find tree (target_of (FILL_FILE_IDENTIFIER pTrunkInfo)) with
  | None => Some (ENOENT, tree)
  | Some pTrunksById =>
      let arr := block_array pTrunksById in
      '(found, mid) ← search_offset (length (blocks arr)) (blocks arr) 0 (array_count arr - 1) 0
                        (tf_offset (file pTrunkInfo));
      if negb found then Some (ENOENT, tree)
      else
        let arr := {| alloc := alloc arr;
                      blocks := take (Z.to_nat mid) (blocks arr)
                                ++ drop (S (Z.to_nat mid)) (blocks arr) |} in
        if array_count arr =? 0 then
          '(tree', code, _) ← avl_tree_delete tree pTrunksById tt;
          if negb (code =? 1) then
            Some (ENOENT, store_array tree' pTrunksById {| alloc := 0; blocks := [] |})
          else Some (0, tree')
        else if (array_count arr <? Z.quot (alloc arr) 2) &&
          (Z.quot TRUNK_FREE_BLOCK_ARRAY_INIT_SIZE 2 <? array_count arr) then
          let '(result, arr) := trunk_free_block_realloc m arr (Z.quot (alloc arr) 2) in
          Some (result, store_array tree pTrunksById arr)
        else Some (0, store_array tree pTrunksById arr)
  end.

(** [fprintf(fp, "%d %d %d %d %d %d\n", ...)] *)
Definition trunk_line (i : FDFSTrunkFullInfo) : list Z :=
  sprintf_d (store_path_index (path i)) ++ CH_SPACE :: sprintf_d (sub_path_high (path i)) ++ CH_SPACE ::
  sprintf_d (sub_path_low (path i)) ++ CH_SPACE :: sprintf_d (tf_id (file i)) ++ CH_SPACE ::
  sprintf_d (tf_offset (file i)) ++ CH_SPACE :: sprintf_d (tf_size (file i)) ++ [CH_LF].

(** The text printed so far; [None] after a wild pointer. *)
Definition block_tree_print_walk_callback (data : FDFSTrunksById) (fp : option (list Z))
    : Z * option (list Z) :=
  (0, foldl (λ fp a, out ← fp; i ← h !! a; Some (out ++ trunk_line i)) fp (blocks (block_array data))).

(** The return code and the text of the file. *)
Definition trunk_free_block_tree_print (fopen_ok : bool) (errno : Z) (tree : id_tree)
    : Z * option (list Z) :=
  if negb fopen_ok then (errno_or errno EIO, Some [])
  else (0, (walk_ids tree block_tree_print_walk_callback (Some [])).2).
End checker.

(** * Lemmas *)

(** ** Blocks *)

Definition path_ok (p : FDFSTrunkPathInfo) : Prop :=
  is_byte (store_path_index p) ∧ is_byte (sub_path_high p) ∧ is_byte (sub_path_low p).

Definition end_of (i : FDFSTrunkFullInfo) : Z := tf_offset (file i) + tf_size (file i).

(** A block inside a file of at most 2^31 - 1 bytes. *)
Definition info_ok (i : FDFSTrunkFullInfo) : Prop :=
  path_ok (path i) ∧ is_int32 (tf_id (file i)) ∧
  0 ≤ tf_offset (file i) ∧ 0 < tf_size (file i) ∧ end_of i ≤ INT_MAX.

(** Two blocks of the same trunk file with a byte in common. *)
Definition overlap (x y : FDFSTrunkFullInfo) : Prop :=
  FILL_FILE_IDENTIFIER x = FILL_FILE_IDENTIFIER y ∧
  tf_offset (file x) < end_of y ∧ tf_offset (file y) < end_of x.

#[export] Instance FDFSTrunkFileIdentifier_eq_dec : EqDecision FDFSTrunkFileIdentifier.
Proof. solve_decision. Defined.

(** ** The order of the identifiers *)

Definition id_ok (i : FDFSTrunkFileIdentifier) : Prop := path_ok (fi_path i) ∧ is_int32 (fi_id i).
Definition valid_id (e : FDFSTrunksById) : Prop := id_ok (trunk_file_id e).
Definition id_rank (i : FDFSTrunkFileIdentifier) : Z := be_value (identifier_bytes i).
Definition rank_id (e : FDFSTrunksById) : Z := id_rank (trunk_file_id e).

Lemma identifier_bytes_ok i : id_ok i → Forall is_byte (identifier_bytes i).
Proof.
  intros [(H1 & H2 & H3) _]. apply Forall_app. split; [|apply int_bytes_le_byte].
  rewrite !Forall_cons. by split_and!.
Qed.

#[export] Instance ids_rank_compare : RankCompare valid_id rank_id storage_trunk_node_compare_entry.
Proof.
  intros x y Hx Hy. unfold storage_trunk_node_compare_entry, rank_id, id_rank.
  rewrite memcmp_be_value by (done || by apply identifier_bytes_ok). by rewrite Z.sgn_sgn.
Qed.

Lemma int_bytes_le_inj m n : is_int32 m → is_int32 n → int_bytes_le m = int_bytes_le n → m = n.
Proof.
  unfold is_int32, int_bytes_le. intros Hm Hn [= E1 E2 E3 E4].
  rewrite <- (s32_id m), <- (s32_id n), <- s32_u32, <- (s32_u32 n) by done. f_equal.
  unfold u32. dlia.
Qed.

Lemma id_rank_inj i j : id_ok i → id_ok j → id_rank i = id_rank j → i = j.
Proof.
  intros Hi Hj E. apply be_value_inj in E; [|done|by apply identifier_bytes_ok..].
  destruct i as [[a b c] n], j as [[a' b' c'] n'], Hi as [_ Hn], Hj as [_ Hn'].
  unfold identifier_bytes in E. cbn [fi_path fi_id store_path_index sub_path_high sub_path_low] in *.
  injection E as -> -> -> E1 E2 E3 E4. f_equal. apply int_bytes_le_inj; [done|done|].
  unfold int_bytes_le. congruence.
Qed.

(** ** Arrays *)

Definition precedes (x y : FDFSTrunkFullInfo) : Prop := end_of x ≤ tf_offset (file y).

(** The array [b] points to the blocks [l], which are sorted and disjoint. *)
Record arr_rep (h : heap) (b : list positive) (l : list FDFSTrunkFullInfo) : Prop := {
  rep_nodes : Forall2 (λ a i, h !! a = Some i) b l;
  rep_valid : Forall info_ok l;
  rep_sorted : StronglySorted precedes l;
}.

Lemma arr_rep_length h b l : arr_rep h b l → length b = length l.
Proof. intros [H _ _]. by eapply Forall2_length. Qed.

Lemma arr_rep_block h b l k i : arr_rep h b l → 0 ≤ k → l !! Z.to_nat k = Some i → block_file h b k = Some (file i).
Proof.
  intros [H _ _] Hk Hl. destruct (Forall2_lookup_r _ _ _ _ _ H Hl) as (a & Ha & Hi).
  unfold block_file. rewrite Ha. cbn. by rewrite Hi.
Qed.

Lemma sorted_lookup {A} (R : A → A → Prop) l i j x y :
  StronglySorted R l → l !! i = Some x → l !! j = Some y → (i < j)%nat → R x y.
Proof.
  intros Hs. revert i j. induction Hs as [|z l Hs IH Hz]; intros i j Hi Hj Hij; [done|].
  destruct j as [|j]; [lia|]. destruct i as [|i]; cbn in *.
  - injection Hi as ->. rewrite Forall_lookup in Hz. by eapply Hz.
  - eapply IH; [done|done|lia].
Qed.

Lemma arr_rep_order h b l j k x y :
  arr_rep h b l → l !! j = Some x → l !! k = Some y → (j < k)%nat → end_of x ≤ tf_offset (file y).
Proof. intros [_ _ Hs] Hj Hk Hlt. exact (sorted_lookup _ _ _ _ _ _ Hs Hj Hk Hlt). Qed.

Lemma arr_rep_ok h b l k i : arr_rep h b l → l !! k = Some i → info_ok i.
Proof. intros [_ Hv _] Hk. rewrite Forall_lookup in Hv. by eapply Hv. Qed.

(** The entry at an index in range. *)
Lemma arr_rep_at h b l k :
  arr_rep h b l → 0 ≤ k < Z.of_nat (length b) →
  ∃ i, l !! Z.to_nat k = Some i ∧ block_file h b k = Some (file i) ∧ info_ok i.
Proof.
  intros Hr Hk. pose proof (arr_rep_length _ _ _ Hr) as Hl.
  destruct (lookup_lt_is_Some_2 l (Z.to_nat k)) as [i Hi]; [lia|].
  exists i. split; [done|]. split; [eapply arr_rep_block; [done|lia|done]|by eapply arr_rep_ok].
Qed.

Lemma mid_bounds left right : 0 ≤ left → left ≤ right → left ≤ Z.quot (left + right) 2 ≤ right.
Proof. intros. rewrite Z.quot_div_nonneg by lia. dlia. Qed.

(** ** Searching an offset *)

(** Everything before [left] is below the offset, everything after [right]
    is above it. *)
Definition narrowed (l : list FDFSTrunkFullInfo) (left right o : Z) : Prop :=
  ∀ k i, l !! k = Some i →
    (Z.of_nat k < left → tf_offset (file i) < o) ∧ (right < Z.of_nat k → o < tf_offset (file i)).

Lemma search_offset_spec h b l fuel left right mid o :
  arr_rep h b l → narrowed l left right o →
  0 ≤ left → left ≤ right + 1 → right < Z.of_nat (length b) →
  right - left + 1 ≤ Z.of_nat fuel →
  (right < left → b ≠ [] → (mid = left ∨ mid = left - 1) ∧ 0 ≤ mid < Z.of_nat (length b)) →
  (∃ k i, search_offset h fuel b left right mid o = Some (true, k) ∧ 0 ≤ k < Z.of_nat (length b) ∧
     l !! Z.to_nat k = Some i ∧ tf_offset (file i) = o) ∨
  (∃ k p, search_offset h fuel b left right mid o = Some (false, k) ∧
     0 ≤ p ≤ Z.of_nat (length b) ∧ narrowed l p (p - 1) o ∧
     (b ≠ [] → (k = p ∨ k = p - 1) ∧ 0 ≤ k < Z.of_nat (length b))).
Proof.
  intros Hr. revert left right mid.
  induction fuel as [|fuel IH]; intros left right mid Hn H0 H1 H2 Hf Hm; cbn [search_offset].
  - rewrite (proj2 (Z.leb_gt _ _)) by lia. right. exists mid, left.
    assert (right = left - 1) as -> by lia. split; [done|]. split; [lia|]. split; [done|]. apply Hm. lia.
  - destruct (Z.leb_spec left right) as [Hle|Hgt].
    2: { right. exists mid, left. assert (right = left - 1) as -> by lia.
         split; [done|]. split; [lia|]. split; [done|]. apply Hm. lia. }
    pose proof (mid_bounds left right H0 Hle) as Hmid.
    set (m := Z.quot (left + right) 2) in *.
    destruct (arr_rep_at h b l m Hr ltac:(lia)) as (i & Hi & Hbf & _). rewrite Hbf. cbn [mbind option_bind].
    destruct (Z.ltb_spec o (tf_offset (file i))) as [Hlt|Hge].
    + apply IH; [|lia|lia|lia|lia|intros; lia].
      intros k j Hj. split; [apply (Hn k j Hj)|]. intros Hk.
      destruct (Nat.eq_dec k (Z.to_nat m)) as [->|Hne]; [by simplify_eq|].
      pose proof (arr_rep_order h b l (Z.to_nat m) k i j Hr Hi Hj ltac:(lia)) as Hord.
      pose proof (arr_rep_ok h b l _ i Hr Hi) as (_ & _ & _ & Hsz & _). unfold end_of in Hord. lia.
    + destruct (Z.eqb_spec (tf_offset (file i)) o) as [Heq|Hne].
      { left. exists m, i. split; [done|]. split; [lia|done]. }
      apply IH; [|lia|lia|lia|lia|intros; lia].
      intros k j Hj. split; [|apply (Hn k j Hj)]. intros Hk.
      destruct (Nat.eq_dec k (Z.to_nat m)) as [->|Hnk]; [simplify_eq; lia|].
      pose proof (arr_rep_order h b l k (Z.to_nat m) j i Hr Hj Hi ltac:(lia)) as Hord.
      pose proof (arr_rep_ok h b l _ j Hr Hj) as (_ & _ & _ & Hsz & _). unfold end_of in Hord. lia.
Qed.

(** ** Overlap *)

Definition clear_of (l : list FDFSTrunkFullInfo) (left right o e : Z) : Prop :=
  ∀ k i, l !! k = Some i →
    (Z.of_nat k < left → end_of i ≤ o) ∧ (right < Z.of_nat k → e ≤ tf_offset (file i)).

(** The verdict on the interval [o, e) against the blocks [l]. *)
Definition verdict (l : list FDFSTrunkFullInfo) (o e r : Z) : Prop :=
  (r = EEXIST ∧ ∃ i, i ∈ l ∧ o < end_of i ∧ tf_offset (file i) < e) ∨
  (r = 0 ∧ ∀ i, i ∈ l → end_of i ≤ o ∨ e ≤ tf_offset (file i)).

Lemma verdict_hit l o e k i :
  l !! k = Some i → o < end_of i → tf_offset (file i) < e → verdict l o e EEXIST.
Proof. intros Hk. left. split; [done|]. exists i. split; [by eapply list_elem_of_lookup_2|done]. Qed.

Lemma end_of_s32 i : info_ok i → s32 (tf_offset (file i) + tf_size (file i)) = end_of i.
Proof.
  intros (_ & _ & H1 & H2 & H3). apply s32_id. unfold is_int32, end_of, INT_MAX in *. lia.
Qed.

Lemma check_duplicate_loop_spec h b l fuel left right o sz e :
  arr_rep h b l → e = o + sz → 0 < sz → clear_of l left right o e →
  0 ≤ left → left ≤ right + 1 → right < Z.of_nat (length b) →
  right - left + 1 ≤ Z.of_nat fuel →
  ∃ r, check_duplicate_loop h fuel b left right o sz e = Some r ∧ verdict l o e r.
Proof.
  intros Hr He Hsz. revert left right.
  assert (Hdone : ∀ left, clear_of l left (left - 1) o e → verdict l o e 0).
  { intros left Hc. right. split; [done|]. intros i Hi. apply list_elem_of_lookup_1 in Hi as [k Hk].
    destruct (Hc k i Hk) as [Hc1 Hc2]. destruct (Z.lt_ge_cases (Z.of_nat k) left); [auto|].
    right. apply Hc2. lia. }
  induction fuel as [|fuel IH]; intros left right Hc H0 H1 H2 Hf; cbn [check_duplicate_loop].
  - rewrite (proj2 (Z.leb_gt _ _)) by lia. exists 0. split; [done|].
    assert (right = left - 1) as -> by lia. by eapply Hdone.
  - destruct (Z.leb_spec left right) as [Hle|Hgt].
    2: { exists 0. split; [done|]. assert (right = left - 1) as -> by lia. by eapply Hdone. }
    pose proof (mid_bounds left right H0 Hle) as Hmid.
    set (m := Z.quot (left + right) 2) in *.
    destruct (arr_rep_at h b l m Hr ltac:(lia)) as (i & Hi & Hbf & Hok). rewrite Hbf.
    cbn [mbind option_bind]. rewrite end_of_s32 by done. pose proof Hok as (_ & _ & _ & Hisz & _).
    assert (end_of i = tf_offset (file i) + tf_size (file i)) as Hei by done.
    destruct (Z.ltb_spec o (tf_offset (file i))) as [Hlt|Hge].
    { destruct (Z.ltb_spec (tf_offset (file i)) e) as [Hlt2|Hge2].
      { exists EEXIST. split; [done|]. eapply verdict_hit; [done|lia|done]. }
      apply IH; [|lia..]. intros k j Hj. split; [apply (Hc k j Hj)|]. intros Hk.
      destruct (Nat.eq_dec k (Z.to_nat m)) as [->|Hne]; [by simplify_eq|].
      pose proof (arr_rep_order h b l (Z.to_nat m) k i j Hr Hi Hj ltac:(lia)) as Hord.
      lia. }
    destruct (Z.eqb_spec o (tf_offset (file i))) as [Heq|Hne].
    { exists EEXIST. split; [by destruct (_ =? _)|]. eapply verdict_hit; [done|lia|lia]. }
    destruct (Z.ltb_spec o (end_of i)) as [Hlt2|Hge2].
    { exists EEXIST. split; [done|]. eapply verdict_hit; [done|done|lia]. }
    apply IH; [|lia..]. intros k j Hj. split; [|apply (Hc k j Hj)]. intros Hk.
    destruct (Nat.eq_dec k (Z.to_nat m)) as [->|Hnk]; [by simplify_eq|].
    pose proof (arr_rep_order h b l k (Z.to_nat m) j i Hr Hj Hi ltac:(lia)) as Hord. lia.
Qed.

(** ** The invariant of the index *)

(** An entry: a sorted array of blocks of its trunk file, inside its
    allocation. *)
Definition entry_ok (h : heap) (e : FDFSTrunksById) : Prop :=
  (∃ l, arr_rep h (blocks (block_array e)) l ∧
     Forall (λ i, FILL_FILE_IDENTIFIER i = trunk_file_id e) l) ∧
  array_count (block_array e) ≤ alloc (block_array e).

Record ids_ok (h : heap) (tree : id_tree) : Prop := {
  ids_tree : tree_ok valid_id rank_id storage_trunk_node_compare_entry tree;
  ids_entries : Forall (entry_ok h) (elements (root tree));
}.

(** The pointers that the index holds. *)
Definition indexed (tree : id_tree) : list positive :=
  elements (root tree) ≫= λ e, blocks (block_array e).

Lemma elem_of_indexed a tree :
  a ∈ indexed tree ↔ ∃ e, e ∈ elements (root tree) ∧ a ∈ blocks (block_array e).
Proof.
  unfold indexed. rewrite list_elem_of_bind. naive_solver.
Qed.

(** The blocks that the index holds. *)
Definition indexed_info (h : heap) (tree : id_tree) (i : FDFSTrunkFullInfo) : Prop :=
  ∃ a, a ∈ indexed tree ∧ h !! a = Some i.

Lemma fill_ok i : info_ok i → id_ok (FILL_FILE_IDENTIFIER i).
Proof. intros (Hp & Hi & _). by split. Qed.

Lemma target_valid i : info_ok i → valid_id (target_of (FILL_FILE_IDENTIFIER i)).
Proof. apply fill_ok. Qed.

(** The search by identifier. *)
Lemma ids_find h tree i :
  ids_ok h tree → info_ok i →
  match avl_tree_find tree (target_of (FILL_FILE_IDENTIFIER i)) with
  | Some e => e ∈ elements (root tree) ∧ trunk_file_id e = FILL_FILE_IDENTIFIER i ∧ entry_ok h e ∧
      rfind rank_id (rank_id e) (elements (root tree)) = Some e
  | None => rfind rank_id (id_rank (FILL_FILE_IDENTIFIER i)) (elements (root tree)) = None ∧
      ∀ e, e ∈ elements (root tree) → trunk_file_id e ≠ FILL_FILE_IDENTIFIER i
  end.
Proof.
  intros [Ht He] Hi. rewrite (avl_tree_find_ok valid_id rank_id storage_trunk_node_compare_entry tree)
    by (done || by apply target_valid).
  change (rank_id (target_of ?x)) with (id_rank x).
  destruct (rfind _ _ _) as [e|] eqn:E.
  - apply rfind_Some in E as E'. destruct E' as [Hin Hrk].
    assert (valid_id e) as Hv.
    { destruct Ht as [_ [_ Hv _]]. rewrite Forall_forall in Hv. by apply Hv. }
    split_and!; [done| |rewrite Forall_forall in He; by apply He|by rewrite Hrk].
    apply id_rank_inj; [done|by apply fill_ok|done].
  - split; [done|]. intros e Hin Heq. rewrite rfind_None, Forall_forall in E.
    apply (E e Hin). unfold rank_id. by rewrite Heq.
Qed.

Lemma entry_unique h tree e e' :
  ids_ok h tree → e ∈ elements (root tree) → e' ∈ elements (root tree) →
  trunk_file_id e = trunk_file_id e' → e = e'.
Proof.
  intros [[_ [_ _ Hs]] _] H1 H2 E. apply (rsorted_inj rank_id (elements (root tree))); [done..|].
  unfold rank_id. by rewrite E.
Qed.

(** Indexed blocks are in the heap, valid, in the entry of their file. *)
Lemma indexed_lookup h tree a :
  ids_ok h tree → a ∈ indexed tree →
  ∃ i e l, h !! a = Some i ∧ info_ok i ∧ e ∈ elements (root tree) ∧ a ∈ blocks (block_array e) ∧
    trunk_file_id e = FILL_FILE_IDENTIFIER i ∧ arr_rep h (blocks (block_array e)) l ∧ i ∈ l.
Proof.
  intros Hok (e & He & Ha)%elem_of_indexed. pose proof (ids_entries _ _ Hok) as Hes.
  rewrite Forall_forall in Hes. destruct (Hes e He) as [(l & Hr & Hid) _].
  apply list_elem_of_lookup_1 in Ha as [k Hk]. pose proof (rep_nodes _ _ _ Hr) as Hn.
  destruct (Forall2_lookup_l _ _ _ _ _ Hn Hk) as (i & Hi & Hh).
  exists i, e, l. rewrite Forall_lookup in Hid. split_and!; [done|by eapply arr_rep_ok|done| |by symmetry; eapply Hid|done|].
  - by eapply list_elem_of_lookup_2.
  - by eapply list_elem_of_lookup_2.
Qed.

(** The blocks of an entry, seen from the index. *)
Lemma entry_info h tree e l i :
  ids_ok h tree → e ∈ elements (root tree) → arr_rep h (blocks (block_array e)) l → i ∈ l →
  indexed_info h tree i.
Proof.
  intros Hok He Hr Hi. apply list_elem_of_lookup_1 in Hi as [k Hk].
  destruct (Forall2_lookup_r _ _ _ _ _ (rep_nodes _ _ _ Hr) Hk) as (a & Ha & Hh).
  exists a. split; [|done]. apply elem_of_indexed. exists e. split; [done|].
  by eapply list_elem_of_lookup_2.
Qed.

Lemma info_entry h tree e l i :
  ids_ok h tree → e ∈ elements (root tree) → arr_rep h (blocks (block_array e)) l →
  indexed_info h tree i → FILL_FILE_IDENTIFIER i = trunk_file_id e → i ∈ l.
Proof.
  intros Hok He Hr (a & Ha & Hh) Hid.
  destruct (indexed_lookup h tree a Hok Ha) as (i' & e' & l' & Hh' & _ & He' & Ha' & Hid' & Hr' & _).
  simplify_eq. assert (e' = e) as -> by (eapply entry_unique; [done..|congruence]).
  apply list_elem_of_lookup_1 in Ha' as [k Hk].
  destruct (Forall2_lookup_l _ _ _ _ _ (rep_nodes _ _ _ Hr) Hk) as (i2 & Hi2 & Hh2).
  simplify_eq. by eapply list_elem_of_lookup_2.
Qed.

Lemma trunk_free_block_check_duplicate_spec h tree t :
  ids_ok h tree → info_ok t →
  ∃ r, trunk_free_block_check_duplicate h tree t = Some r ∧
    ((r = EEXIST ∧ ∃ i, indexed_info h tree i ∧ overlap t i) ∨
     (r = 0 ∧ ∀ i, indexed_info h tree i → ¬ overlap t i)).
Proof.
  intros Hok Ht. unfold trunk_free_block_check_duplicate.
  pose proof (ids_find h tree t Hok Ht) as Hf. destruct (avl_tree_find _ _) as [e|].
  2: { destruct Hf as [_ Hne]. exists 0. split; [done|]. right. split; [done|].
       intros i (a & Ha & Hi) (Hid & _). 
       destruct (indexed_lookup h tree a Hok Ha) as (i' & e & l & Hi' & _ & He & _ & Hid' & _).
       rewrite Hi in Hi'. injection Hi' as <-. apply (Hne e He). by rewrite Hid', Hid. }
  destruct Hf as (He & Hid & [(l & Hr & Hl) Hal] & _).
  set (b := blocks (block_array e)) in *. pose proof (arr_rep_length _ _ _ Hr) as Hlen.
  unfold array_count in *. fold b in Hal |- *.
  (* the verdict on the array is the verdict on the index *)
  assert (Hv : ∀ r, verdict l (tf_offset (file t)) (end_of t) r →
    ((r = EEXIST ∧ ∃ i, indexed_info h tree i ∧ overlap t i) ∨
     (r = 0 ∧ ∀ i, indexed_info h tree i → ¬ overlap t i))).
  { intros r [(-> & i & Hi & H1 & H2)|(-> & Hno)]; [left|right]; (split; [done|]).
    - exists i. split; [by eapply entry_info|]. rewrite Forall_forall in Hl.
      split; [|done]. rewrite (Hl i Hi). by symmetry.
    - intros i Hii (Hf & H1 & H2). destruct (Hno i); [|lia..].
      apply (info_entry h tree e l i Hok He Hr Hii). by rewrite Hid. }
  destruct (Z.eqb_spec (Z.of_nat (length b)) 0) as [Hz|Hz].
  { exists 0. split; [done|]. apply Hv. right. split; [done|]. intros i Hi.
    destruct l; [by apply not_elem_of_nil in Hi|cbn in *; lia]. }
  rewrite end_of_s32 by done.
  destruct (arr_rep_at h b l 0 Hr ltac:(lia)) as (i0 & Hi0 & Hb0 & _). rewrite Hb0.
  change (Z.to_nat 0) with O in Hi0. cbn [mbind option_bind].
  assert (Hmem : ∀ i, i ∈ l → ∃ k, l !! k = Some i ∧ (k < length b)%nat).
  { intros i Hi. apply list_elem_of_lookup_1 in Hi as [k Hk]. exists k. split; [done|].
    rewrite Hlen. by eapply lookup_lt_Some. }
  destruct (Z.leb_spec (end_of t) (tf_offset (file i0))) as [Hle|Hgt].
  { exists 0. split; [done|]. apply Hv. right. split; [done|]. intros i Hi. right.
    destruct (Hmem i Hi) as ([|k] & Hk & _); [by simplify_eq|].
    pose proof (arr_rep_order h b l _ _ _ _ Hr Hi0 Hk ltac:(lia)).
    pose proof (arr_rep_ok h b l _ i0 Hr Hi0) as (_ & _ & _ & ? & _). unfold end_of in *. lia. }
  destruct (arr_rep_at h b l (Z.of_nat (length b) - 1) Hr ltac:(lia)) as (i1 & Hi1 & Hb1 & Hok1). rewrite Hb1.
  cbn [mbind option_bind]. rewrite end_of_s32 by done.
  destruct (Z.leb_spec (end_of i1) (tf_offset (file t))) as [Hle1|Hgt1].
  { exists 0. split; [done|]. apply Hv. right. split; [done|]. intros i Hi. left.
    destruct (Hmem i Hi) as (k & Hk & Hkl).
    destruct (Nat.eq_dec k (Z.to_nat (Z.of_nat (length b) - 1))) as [->|Hne]; [by simplify_eq|].
    pose proof (arr_rep_order h b l _ _ _ _ Hr Hk Hi1 ltac:(lia)).
    destruct Hok1 as (_ & _ & _ & ? & _). unfold end_of in *. lia. }
  pose proof Ht as (_ & _ & _ & Hts & _).
  destruct (check_duplicate_loop_spec h b l (length b) 0 (Z.of_nat (length b) - 1)
    (tf_offset (file t)) (tf_size (file t)) (end_of t) Hr) as (r & -> & Hr'); [done|done| |lia..|].
  - intros k i Hk. apply lookup_lt_Some in Hk. split; lia.
  - exists r. split; [done|]. by apply Hv.
Qed.

(** ** Insertion *)

Lemma ss_app {A} (R : A → A → Prop) l1 l2 :
  StronglySorted R l1 → StronglySorted R l2 → (∀ x y, x ∈ l1 → y ∈ l2 → R x y) →
  StronglySorted R (l1 ++ l2).
Proof.
  intros H1 H2 Hx. induction H1 as [|x l1 H1 IH Hf]; [done|]. cbn. constructor.
  - apply IH. intros y z Hy Hz. apply Hx; [by right|done].
  - apply Forall_app. split; [done|]. apply Forall_forall. intros y Hy. apply Hx; [by left|done].
Qed.

Lemma ss_sub {A} (R : A → A → Prop) l1 l2 :
  StronglySorted R (l1 ++ l2) →
  StronglySorted R l1 ∧ StronglySorted R l2 ∧ (∀ x y, x ∈ l1 → y ∈ l2 → R x y).
Proof.
  induction l1 as [|x l1 IH]; cbn.
  - intros H. split_and!; [constructor|done|by intros x y ?%not_elem_of_nil].
  - inversion 1 as [|? ? Hs Hf]; subst. destruct (IH Hs) as (H1 & H2 & H3).
    apply Forall_app in Hf as [Hf1 Hf2]. rewrite Forall_forall in Hf2.
    split_and!; [by constructor|done|]. intros y z [->|Hy]%elem_of_cons Hz; [by apply Hf2|by apply H3].
Qed.

Lemma arr_rep_insert h b l p a t :
  arr_rep h b l → h !! a = Some t → info_ok t →
  (∀ i, i ∈ take p l → end_of i ≤ tf_offset (file t)) →
  (∀ i, i ∈ drop p l → end_of t ≤ tf_offset (file i)) →
  arr_rep h (take p b ++ a :: drop p b) (take p l ++ t :: drop p l).
Proof.
  intros [Hn Hv Hs] Ha Ht Hb Hd. split.
  - apply Forall2_app; [by apply Forall2_take|]. constructor; [done|by apply Forall2_drop].
  - apply Forall_app. split; [by apply Forall_take|]. constructor; [done|by apply Forall_drop].
  - rewrite <- (take_drop p l) in Hs. apply ss_sub in Hs as (H1 & H2 & H3).
    apply ss_app; [done| |].
    + constructor; [done|]. apply Forall_forall. intros i Hi. by apply Hd.
    + intros x y Hx [->|Hy]%elem_of_cons; [by apply Hb|by apply H3].
Qed.

(** No byte in common with the blocks [l]. *)
Definition disjoint_from (l : list FDFSTrunkFullInfo) (t : FDFSTrunkFullInfo) : Prop :=
  ∀ i, i ∈ l → end_of i ≤ tf_offset (file t) ∨ end_of t ≤ tf_offset (file i).

Lemma elem_of_take_lookup {A} (l : list A) p x : x ∈ take p l → ∃ k, l !! k = Some x ∧ (k < p)%nat.
Proof.
  intros [k Hk]%list_elem_of_lookup_1. apply lookup_take_Some in Hk as [Hk Hp]. by exists k.
Qed.

Lemma elem_of_drop_lookup {A} (l : list A) p x : x ∈ drop p l → ∃ k, l !! k = Some x ∧ (p ≤ k)%nat.
Proof.
  intros [k Hk]%list_elem_of_lookup_1. rewrite lookup_drop in Hk. exists (p + k)%nat. split; [done|lia].
Qed.

(** What a placement leaves. *)
Definition placed (h : heap) (arr arr' : FDFSBlockArray) (l : list FDFSTrunkFullInfo) (a : positive)
    (t : FDFSTrunkFullInfo) : Prop :=
  alloc arr' = alloc arr ∧ blocks arr' ≡ₚ a :: blocks arr ∧ ∃ l', arr_rep h (blocks arr') l' ∧ l' ≡ₚ t :: l.

Lemma array_insert_placed h arr l p a t :
  arr_rep h (blocks arr) l → h !! a = Some t → info_ok t → array_count arr < alloc arr → 0 ≤ p →
  (∀ k i, l !! k = Some i → (Z.of_nat k < p → end_of i ≤ tf_offset (file t)) ∧
     (p ≤ Z.of_nat k → end_of t ≤ tf_offset (file i))) →
  ∃ arr', array_insert arr p a = Some arr' ∧ placed h arr arr' l a t.
Proof.
  intros Hr Ha Ht Hc Hp Hpos. unfold array_insert. rewrite (proj2 (Z.leb_gt _ _)) by done.
  eexists. split; [done|]. split_and!; [done| |].
  - cbn. rewrite <- Permutation_middle, take_drop. done.
  - exists (take (Z.to_nat p) l ++ t :: drop (Z.to_nat p) l). split.
    + cbn. apply arr_rep_insert; [done..| |].
      * intros i (k & Hk & Hlt)%elem_of_take_lookup. apply (Hpos k i Hk). lia.
      * intros i (k & Hk & Hge)%elem_of_drop_lookup. apply (Hpos k i Hk). lia.
    + rewrite <- Permutation_middle, take_drop. done.
Qed.

Lemma place_block_spec h arr l a t :
  arr_rep h (blocks arr) l → h !! a = Some t → info_ok t → array_count arr < alloc arr →
  disjoint_from l t →
  ∃ arr', place_block h arr a t = Some (0, arr') ∧ placed h arr arr' l a t.
Proof.
  intros Hr Ha Ht Hc Hd. unfold place_block. unfold array_count in *.
  set (b := blocks arr) in *. set (o := tf_offset (file t)) in *.
  pose proof (arr_rep_length _ _ _ Hr) as Hlen.
  assert (Hfin : ∀ p, 0 ≤ p → (∀ k i, l !! k = Some i → (Z.of_nat k < p → tf_offset (file i) < o) ∧
    (p ≤ Z.of_nat k → o < tf_offset (file i))) →
    ∃ arr', (r ← array_insert arr p a; Some (0, r)) = Some (0, arr') ∧ placed h arr arr' l a t).
  { intros p Hp Hpos. destruct (array_insert_placed h arr l p a t) as (arr' & -> & Hpl); [done..| |by exists arr'].
    intros k i Hk. destruct (Hpos k i Hk) as [H1 H2].
    pose proof (Hd i ltac:(by eapply list_elem_of_lookup_2)) as Hdi.
    pose proof (arr_rep_ok h b l k i Hr Hk) as (_ & _ & _ & Hs & _).
    pose proof Ht as (_ & _ & _ & Hst & _). unfold end_of in *. unfold o in *. split; intros; lia. }
  destruct (Z.eqb_spec (Z.of_nat (length b)) 0) as [Hz|Hz].
  { apply Hfin; [lia|]. intros k i Hk%lookup_lt_Some. lia. }
  destruct (arr_rep_at h b l 0 Hr ltac:(lia)) as (i0 & Hi0 & Hb0 & Hok0). rewrite Hb0.
  change (Z.to_nat 0) with O in Hi0. cbn [mbind option_bind].
  destruct (Z.ltb_spec o (tf_offset (file i0))) as [Hlt|Hge].
  { apply Hfin; [lia|]. intros k i Hk. split; [lia|]. intros _. destruct k as [|k]; [by simplify_eq|].
    pose proof (arr_rep_order h b l _ _ _ _ Hr Hi0 Hk ltac:(lia)).
    destruct Hok0 as (_ & _ & _ & ? & _). unfold end_of in *. lia. }
  destruct (arr_rep_at h b l (Z.of_nat (length b) - 1) Hr ltac:(lia)) as (i1 & Hi1 & Hb1 & Hok1). rewrite Hb1.
  cbn [mbind option_bind].
  destruct (Z.ltb_spec (tf_offset (file i1)) o) as [Hlt1|Hge1].
  { apply Hfin; [lia|]. intros k i Hk. pose proof (lookup_lt_Some _ _ _ Hk). split; [|lia]. intros _.
    destruct (Nat.eq_dec k (Z.to_nat (Z.of_nat (length b) - 1))) as [->|Hne]; [by simplify_eq|].
    pose proof (arr_rep_order h b l _ _ _ _ Hr Hk Hi1 ltac:(lia)).
    pose proof (arr_rep_ok h b l k i Hr Hk) as (_ & _ & _ & ? & _). unfold end_of in *. lia. }
  destruct (search_offset_spec h b l (length b) 0 (Z.of_nat (length b) - 1) 0 o Hr)
    as [(k & i & -> & Hk & Hi & Ho)|(k & p & -> & Hp & Hn & Hkp)]; [|lia..| |].
  - intros k i Hk%lookup_lt_Some. split; lia.
  - exfalso. pose proof (Hd i ltac:(by eapply list_elem_of_lookup_2)) as Hdi.
    pose proof (arr_rep_ok h b l _ i Hr Hi) as (_ & _ & _ & Hs & _).
    pose proof Ht as (_ & _ & _ & Hst & _). unfold end_of in *. unfold o in *. lia.
  - destruct Hkp as [Hkp Hkr]; [intros Hb; rewrite Hb in Hz; done|].
    destruct (arr_rep_at h b l k Hr Hkr) as (i & Hi & Hb & _). cbn [mbind option_bind]. rewrite Hb.
    cbn [mbind option_bind]. destruct (Hn _ i Hi) as [Hn1 Hn2].
    assert ((if o <? tf_offset (file i) then k else k + 1) = p) as ->.
    { destruct (Z.ltb_spec o (tf_offset (file i))); lia. }
    apply Hfin; [lia|]. intros j x Hj. destruct (Hn j x Hj) as [Hj1 Hj2].
    split; intros; [by apply Hj1|apply Hj2; lia].
Qed.

Lemma do_insert_spec h m arr l a t :
  arr_rep h (blocks arr) l → array_count arr ≤ alloc arr → realloc_ok m = true →
  h !! a = Some t → info_ok t → disjoint_from l t →
  ∃ arr' l', trunk_free_block_do_insert h m a t arr = Some (0, arr') ∧
    blocks arr' ≡ₚ a :: blocks arr ∧ arr_rep h (blocks arr') l' ∧ l' ≡ₚ t :: l ∧
    array_count arr' ≤ alloc arr'.
Proof.
  intros Hr Hal Hm Ha Ht Hd. unfold trunk_free_block_do_insert, trunk_free_block_realloc. rewrite Hm.
  set (arr1 := if alloc arr <=? array_count arr then _ else _).
  assert (∃ n, arr1 = (0, {| alloc := n; blocks := blocks arr |}) ∧ array_count arr < n) as (n & -> & Hn).
  { unfold arr1. destruct (Z.leb_spec (alloc arr) (array_count arr)) as [Hle|Hgt].
    - eexists. split; [done|]. unfold array_count in *.
      destruct (Z.eqb_spec (alloc arr) 0); unfold TRUNK_FREE_BLOCK_ARRAY_INIT_SIZE; lia.
    - exists (alloc arr). split; [by destruct arr|done]. }
  cbn [c_true Z.eqb negb].
  destruct (place_block_spec h {| alloc := n; blocks := blocks arr |} l a t)
    as (arr' & -> & Hal' & Hp & l' & Hr' & Hl'); [done..|].
  exists arr', l'. split_and!; [done..|]. rewrite Hal'. unfold array_count in *. cbn [alloc blocks] in *.
  rewrite Hp. cbn [length]. lia.
Qed.

(** An entry whose array is replaced. *)
Lemma store_array_ok h tree e arr :
  tree_ok valid_id rank_id storage_trunk_node_compare_entry tree →
  rfind rank_id (rank_id e) (elements (root tree)) = Some e →
  Forall (entry_ok h) (rdelete rank_id (rank_id e) (elements (root tree))) →
  entry_ok h {| trunk_file_id := trunk_file_id e; block_array := arr |} →
  ids_ok h (store_array tree e arr) ∧
  indexed (store_array tree e arr)
  ≡ₚ blocks arr ++ (rdelete rank_id (rank_id e) (elements (root tree)) ≫= λ e, blocks (block_array e)).
Proof.
  intros Ht Hf Hes He. set (e' := {| trunk_file_id := trunk_file_id e; block_array := arr |}) in *.
  assert (valid_id e) as Hv.
  { apply rfind_Some in Hf as [Hin _]. destruct Ht as [_ [_ Hv _]]. rewrite Forall_forall in Hv. by apply Hv. }
  destruct (avl_tree_store_ok valid_id rank_id storage_trunk_node_compare_entry tree e e' e) as (Ht' & E & _);
    [done|done|done|done|by rewrite (avl_tree_find_ok valid_id rank_id storage_trunk_node_compare_entry)|].
  change (store_array tree e arr) with (avl_tree_store tree e e').
  assert (elements (root (avl_tree_store tree e e'))
    ≡ₚ e' :: rdelete rank_id (rank_id e) (elements (root tree))) as Hp.
  { rewrite E. change (rank_id e) with (rank_id e'). apply (rreplace_perm rank_id). }
  split.
  - split; [exact Ht'|]. rewrite Hp. by constructor.
  - unfold indexed. rewrite Hp. by rewrite bind_cons.
Qed.

Lemma indexed_split tree e :
  tree_ok valid_id rank_id storage_trunk_node_compare_entry tree →
  rfind rank_id (rank_id e) (elements (root tree)) = Some e →
  indexed tree ≡ₚ blocks (block_array e)
    ++ (rdelete rank_id (rank_id e) (elements (root tree)) ≫= λ e, blocks (block_array e)).
Proof.
  intros [_ [_ _ Hs]] Hf. unfold indexed.
  rewrite (rdelete_perm rank_id _ _ _ Hs Hf) at 1. by rewrite bind_cons.
Qed.

Lemma disjoint_of_no_overlap h tree e l t :
  ids_ok h tree → e ∈ elements (root tree) → trunk_file_id e = FILL_FILE_IDENTIFIER t →
  arr_rep h (blocks (block_array e)) l → Forall (λ i, FILL_FILE_IDENTIFIER i = trunk_file_id e) l →
  (∀ i, indexed_info h tree i → ¬ overlap t i) → disjoint_from l t.
Proof.
  intros Hok He Hid Hr Hl Hno i Hi.
  destruct (Z.le_gt_cases (end_of i) (tf_offset (file t))); [by left|].
  destruct (Z.le_gt_cases (end_of t) (tf_offset (file i))); [by right|].
  exfalso. apply (Hno i); [by eapply entry_info|]. rewrite Forall_forall in Hl.
  split; [|lia]. by rewrite (Hl i Hi), Hid.
Qed.

Lemma Forall_rdelete_id (P : FDFSTrunksById → Prop) r l : Forall P l → Forall P (rdelete rank_id r l).
Proof. apply Forall_rdelete. Qed.

(** Every allocation of the call succeeds. *)
Definition no_failure (m : alloc_outcome) : Prop :=
  malloc_ok m = true ∧ avl_malloc_ok m = true ∧ realloc_ok m = true.

Lemma trunk_free_block_insert_spec h m tree a t :
  ids_ok h tree → h !! a = Some t → info_ok t → no_failure m →
  (∀ i, indexed_info h tree i → ¬ overlap t i) →
  ∃ tree', trunk_free_block_insert h m tree a = Some (0, tree') ∧
    ids_ok h tree' ∧ indexed tree' ≡ₚ a :: indexed tree.
Proof.
  intros Hok Ha Ht (Hm1 & Hm2 & Hm3) Hno. unfold trunk_free_block_insert. rewrite Ha. cbn [mbind option_bind].
  pose proof (ids_find h tree t Hok Ht) as Hf. destruct (avl_tree_find _ _) as [e|].
  - destruct Hf as (He & Hid & [(l & Hr & Hl) Hal] & Hrf).
    pose proof (disjoint_of_no_overlap h tree e l t Hok He Hid Hr Hl Hno) as Hd.
    destruct (do_insert_spec h m (block_array e) l a t) as (arr' & l' & -> & Hp & Hr' & Hl' & Hal'); [done..|].
    cbn [mbind option_bind]. eexists. split; [done|].
    destruct (store_array_ok h tree e arr') as [H1 H2]; [apply Hok|done| | |].
    + apply Forall_rdelete_id, Hok.
    + split; [|done]. exists l'. split; [done|]. rewrite Hl'. constructor; [by symmetry|done].
    + split; [done|]. rewrite H2, Hp. cbn [app]. f_equiv. by rewrite <- indexed_split by (done || apply Hok).
  - destruct Hf as [Hrf Hne]. rewrite Hm1, Hm2. cbn [negb].
    set (target := target_of (FILL_FILE_IDENTIFIER t)).
    destruct (avl_tree_insert_ok valid_id rank_id storage_trunk_node_compare_entry true tree target)
      as (tree1 & -> & Ht1 & E1 & _); [apply Hok|by apply target_valid|].
    unfold insert_code. change (rank_id target) with (id_rank (FILL_FILE_IDENTIFIER t)). rewrite Hrf.
    cbn [mbind option_bind]. change (1 =? 1) with true. cbn [negb].
    pose proof (ids_tree _ _ Hok) as [_ [_ _ Hs]].
    assert (elements (root tree1) ≡ₚ target :: elements (root tree)) as Hp1.
    { rewrite E1. by apply (rinsert_perm rank_id). }
    assert (arr_rep h [] []) as Hr0 by (split; constructor).
    destruct (do_insert_spec h m (block_array target) [] a t) as (arr' & l' & -> & Hp & Hr' & Hl' & Hal');
      [done|done|done|done|done|by intros i ?%not_elem_of_nil|].
    cbn [mbind option_bind]. eexists. split; [done|].
    assert (rfind rank_id (rank_id target) (elements (root tree1)) = Some target) as Hrf1.
    { destruct Ht1 as [_ [_ _ Hs1]]. apply (rfind_elem rank_id); [done|]. rewrite Hp1. by left. }
    assert (rdelete rank_id (rank_id target) (elements (root tree1)) ≡ₚ elements (root tree)) as Hdel.
    { destruct Ht1 as [_ [_ _ Hs1]]. pose proof (rdelete_perm rank_id _ _ _ Hs1 Hrf1) as Hp2.
      apply (inj (cons target)). etransitivity; [symmetry; exact Hp2|exact Hp1]. }
    destruct (store_array_ok h tree1 target arr') as [H1 H2]; [done|done| | |].
    + rewrite Hdel. apply Hok.
    + split; [|done]. exists l'. split; [done|]. rewrite Hl'. constructor; [done|constructor].
    + split; [done|]. rewrite H2, Hp, Hdel. done.
Qed.

(** ** Deletion *)

Lemma arr_rep_remove h b l k :
  arr_rep h b l → arr_rep h (take k b ++ drop (S k) b) (take k l ++ drop (S k) l).
Proof.
  intros [Hn Hv Hs]. split.
  - apply Forall2_app; [by apply Forall2_take|by apply Forall2_drop].
  - apply Forall_app. split; [by apply Forall_take|by apply Forall_drop].
  - destruct (decide (k < length l)%nat) as [Hk|Hk].
    + destruct (lookup_lt_is_Some_2 l k Hk) as [x Hx].
      rewrite <- (take_drop_middle l k x Hx) in Hs. apply ss_sub in Hs as (H1 & H2 & H3).
      inversion H2; subst. apply ss_app; [done|done|]. intros y z Hy Hz. apply H3; [done|by right].
    + rewrite drop_ge, app_nil_r, take_ge by lia. done.
Qed.

Lemma search_in_entry h b l o :
  arr_rep h b l →
  (∃ k i, search_offset h (length b) b 0 (Z.of_nat (length b) - 1) 0 o = Some (true, k) ∧
     0 ≤ k < Z.of_nat (length b) ∧ l !! Z.to_nat k = Some i ∧ tf_offset (file i) = o) ∨
  (∃ k, search_offset h (length b) b 0 (Z.of_nat (length b) - 1) 0 o = Some (false, k) ∧
     ∀ i, i ∈ l → tf_offset (file i) ≠ o).
Proof.
  intros Hr. pose proof (arr_rep_length _ _ _ Hr) as Hlen.
  destruct (search_offset_spec h b l (length b) 0 (Z.of_nat (length b) - 1) 0 o Hr)
    as [H|(k & p & E & Hp & Hn & _)]; [|lia..| | |].
  - intros k i Hk%lookup_lt_Some. split; lia.
  - intros Hlt Hb. destruct b; [done|cbn in Hlt; lia].
  - by left.
  - right. exists k. split; [done|]. intros i Hi. apply list_elem_of_lookup_1 in Hi as [j Hj].
    destruct (Hn j i Hj) as [H1 H2]. destruct (Z.lt_ge_cases (Z.of_nat j) p); lia.
Qed.

Lemma same_offset_same_index h b l j k x y :
  arr_rep h b l → l !! j = Some x → l !! k = Some y → tf_offset (file x) = tf_offset (file y) → j = k.
Proof.
  intros Hr Hj Hk E. pose proof (arr_rep_ok _ _ _ _ _ Hr Hj) as (_ & _ & _ & Hx & _).
  pose proof (arr_rep_ok _ _ _ _ _ Hr Hk) as (_ & _ & _ & Hy & _).
  destruct (Nat.lt_trichotomy j k) as [H|[H|H]]; [|done|].
  - pose proof (arr_rep_order _ _ _ _ _ _ _ Hr Hj Hk H). unfold end_of in *. lia.
  - pose proof (arr_rep_order _ _ _ _ _ _ _ Hr Hk Hj H). unfold end_of in *. lia.
Qed.

Lemma trunk_free_block_delete_spec h m tree a t :
  ids_ok h tree → a ∈ indexed tree → h !! a = Some t →
  ∃ r tree', trunk_free_block_delete h m tree t = Some (r, tree') ∧
    (realloc_ok m = true → r = 0) ∧
    ids_ok h tree' ∧ indexed tree ≡ₚ a :: indexed tree'.
Proof.
  intros Hok Hin Ha.
  destruct (indexed_lookup h tree a Hok Hin) as (t' & e & l & Ha' & Ht & He & Hae & Hid & Hr & _).
  rewrite Ha in Ha'. injection Ha' as <-.
  unfold trunk_free_block_delete. pose proof (ids_find h tree t Hok Ht) as Hf.
  destruct (avl_tree_find _ _) as [e1|]; [|by destruct Hf as [_ Hne]; destruct (Hne e He)].
  destruct Hf as (He1 & Hid1 & _ & Hrf).
  assert (e1 = e) as -> by (eapply entry_unique; [done..|by rewrite Hid1, Hid]). clear He1 Hid1.
  pose proof (ids_entries _ _ Hok) as Hes. rewrite Forall_forall in Hes.
  destruct (Hes e He) as [(l2 & Hr2 & Hl2) Hal]. clear l Hr. rename l2 into l, Hr2 into Hr, Hl2 into Hl.
  set (b := blocks (block_array e)) in *. unfold array_count in Hal |- *. fold b in Hal |- *.
  apply list_elem_of_lookup_1 in Hae as [j Hj].
  destruct (Forall2_lookup_l _ _ _ _ _ (rep_nodes _ _ _ Hr) Hj) as (t' & Htj & Hat). 
  rewrite Ha in Hat. injection Hat as <-.
  destruct (search_in_entry h b l (tf_offset (file t)) Hr) as [(k & i & -> & Hk & Hi & Ho)|(k & _ & Hno)].
  2: { by destruct (Hno t); [eapply list_elem_of_lookup_2|]. }
  pose proof (same_offset_same_index h b l _ _ _ _ Hr Hi Htj Ho) as Ek. cbn [mbind option_bind negb blocks].
  rewrite Ek in *. clear i Hi Ho Ek Hk k.
  set (b' := take j b ++ drop (S j) b).
  assert (b ≡ₚ a :: b') as Hb.
  { rewrite <- (take_drop_middle b j a Hj) at 1. unfold b'. by rewrite Permutation_middle. }
  assert (Hrest : indexed tree ≡ₚ a :: b' ++ (rdelete rank_id (rank_id e) (elements (root tree))
    ≫= λ e, blocks (block_array e))).
  { rewrite (indexed_split tree e) by (done || apply Hok). fold b. by rewrite Hb. }
  pose proof (arr_rep_remove h b l j Hr) as Hr'. fold b' in Hr'.
  assert (length b = S (length b')) as Hlb by by rewrite Hb.
  (* the cases that store the shortened array *)
  assert (Hstore : ∀ n, Z.of_nat (length b') ≤ n →
    ids_ok h (store_array tree e {| alloc := n; blocks := b' |}) ∧
    indexed tree ≡ₚ a :: indexed (store_array tree e {| alloc := n; blocks := b' |})).
  { intros n Hn. destruct (store_array_ok h tree e {| alloc := n; blocks := b' |}) as [H1 H2];
      [apply Hok|done|apply Forall_rdelete_id, Hok| |].
    - split; [|exact Hn]. eexists. split; [exact Hr'|]. cbn. apply Forall_app.
      split; [by apply Forall_take|by apply Forall_drop].
    - split; [done|]. by rewrite H2. }
  unfold trunk_free_block_realloc. cbn [alloc blocks].
  destruct (Z.eqb_spec (Z.of_nat (length b')) 0) as [Hz|Hz].
  - destruct (avl_tree_delete_ok valid_id rank_id storage_trunk_node_compare_entry tree e tt)
      as (tree' & -> & Ht' & E' & _); [apply Hok| |].
    { pose proof (ids_tree _ _ Hok) as [_ [_ Hv _]]. rewrite Forall_forall in Hv. by apply Hv. }
    unfold delete_code. rewrite Hrf. cbn [mbind option_bind]. change (1 =? 1) with true. cbn [negb].
    exists 0, tree'. split_and!; [done|done| |].
    + split; [done|]. rewrite E'. apply Forall_rdelete_id, Hok.
    + rewrite Hrest. destruct b'; [|cbn in Hz; lia]. unfold indexed. by rewrite E'.
  - destruct (_ && _) eqn:Eb.
    + apply andb_prop in Eb as [Eb _]. apply Z.ltb_lt in Eb.
      destruct (realloc_ok m) eqn:Em; (eexists _, _; split; [done|]).
      * split; [done|]. apply Hstore. lia.
      * split; [done|]. apply Hstore. lia.
    + eexists _, _. split; [done|]. split; [done|]. apply Hstore. lia.
Qed.

(** ** Changes of the heap *)

(** The same block, whatever its status. *)
Definition same_place (i i' : FDFSTrunkFullInfo) : Prop := path i' = path i ∧ file i' = file i.

Lemma same_place_ok i i' : same_place i i' → info_ok i → info_ok i'.
Proof. unfold info_ok, end_of. intros [-> ->]. done. Qed.

Lemma same_place_fill i i' : same_place i i' → FILL_FILE_IDENTIFIER i' = FILL_FILE_IDENTIFIER i.
Proof. unfold FILL_FILE_IDENTIFIER. by intros [-> ->]. Qed.

Lemma same_place_precedes l l' :
  Forall2 same_place l l' → StronglySorted precedes l → StronglySorted precedes l'.
Proof.
  induction 1 as [|x x' l l' [Hx1 Hx2] Hl IH]; [done|]. inversion 1 as [|? ? Hs Hf]; subst.
  constructor; [by apply IH|]. clear -Hx2 Hl Hf. induction Hl as [|y y' l l' [Hy1 Hy2] Hl IH]; [done|].
  inversion Hf; subst. constructor; [|by apply IH].
  unfold precedes, end_of in *. by rewrite Hx2, Hy2.
Qed.

Lemma arr_rep_heap h h' b l :
  arr_rep h b l →
  (∀ a i, a ∈ b → h !! a = Some i → ∃ i', h' !! a = Some i' ∧ same_place i i') →
  ∃ l', arr_rep h' b l' ∧ Forall2 same_place l l'.
Proof.
  intros [Hn Hv Hs] Hh.
  assert (∃ l', Forall2 (λ a i, h' !! a = Some i) b l' ∧ Forall2 same_place l l') as (l' & Hn' & Hp).
  { clear Hv Hs. induction Hn as [|a i b l Ha Hn IH]; [exists []; by split|].
    destruct (Hh a i ltac:(by left) Ha) as (i' & Ha' & Hi').
    destruct IH as (l' & Hn' & Hp); [intros; apply Hh; [by right|done]|].
    exists (i' :: l'). split; by constructor. }
  exists l'. split; [|done]. split; [done| |by eapply same_place_precedes].
  clear -Hv Hp. induction Hp as [|x x' l l' Hx Hp IH]; [done|]. inversion Hv; subst.
  constructor; [by eapply same_place_ok|by apply IH].
Qed.

Lemma ids_ok_heap h h' tree :
  ids_ok h tree →
  (∀ a i, a ∈ indexed tree → h !! a = Some i → ∃ i', h' !! a = Some i' ∧ same_place i i') →
  ids_ok h' tree.
Proof.
  intros [Ht Hes] Hh. split; [done|]. rewrite Forall_forall in *. intros e He.
  destruct (Hes e He) as [(l & Hr & Hl) Hal]. split; [|done].
  destruct (arr_rep_heap h h' _ l Hr) as (l' & Hr' & Hp).
  - intros a i Ha. apply Hh. apply elem_of_indexed. by exists e.
  - exists l'. split; [done|]. clear -Hl Hp. induction Hp as [|x x' l l' Hx Hp IH]; [done|].
    inversion Hl; subst. constructor; [|by apply IH]. rewrite <- (same_place_fill _ _ Hx) in *. congruence.
Qed.

(** ** The index as a set of blocks *)

Lemma trunk_free_block_checker_init_ok h :
  ids_ok h trunk_free_block_checker_init ∧ indexed trunk_free_block_checker_init = [].
Proof.
  destruct (avl_tree_init_ok (W := unit) valid_id rank_id storage_trunk_node_compare_entry (Some (λ _ w, w))) as [H1 H2].
  split; [|done]. split; [exact H1|]. by constructor.
Qed.

(** C16 [trunk_free_block_check_duplicate] is exact: on an index of valid
    disjoint blocks, it returns EEXIST when some block of the same trunk
    file shares a byte with the one given, and 0 when none does; it never
    reads outside an array nor through a wild pointer, and its binary
    search terminates. *)
Theorem trunk_free_block_check_duplicate_exact h tree t :
  ids_ok h tree → info_ok t →
  (trunk_free_block_check_duplicate h tree t = Some EEXIST ∧ ∃ i, indexed_info h tree i ∧ overlap t i) ∨
  (trunk_free_block_check_duplicate h tree t = Some 0 ∧ ∀ i, indexed_info h tree i → ¬ overlap t i).
Proof.
  intros Hok Ht. destruct (trunk_free_block_check_duplicate_spec h tree t Hok Ht)
    as (r & -> & [(-> & H)|(-> & H)]); [by left|by right].
Qed.

(** C15 The index is a set of disjoint blocks: inserting a block that
    overlaps none returns 0 and adds exactly that block; deleting an
    indexed block removes exactly that block, and returns 0 unless the
    array could not be shrunk; both preserve the invariant (sorted disjoint
    arrays, one per trunk file, in a balanced tree). *)
Theorem trunk_free_block_index_set h m tree a t :
  ids_ok h tree → h !! a = Some t →
  (info_ok t → no_failure m → (∀ i, indexed_info h tree i → ¬ overlap t i) →
   ∃ tree', trunk_free_block_insert h m tree a = Some (0, tree') ∧
     ids_ok h tree' ∧ indexed tree' ≡ₚ a :: indexed tree) ∧
  (a ∈ indexed tree →
   ∃ r tree', trunk_free_block_delete h m tree t = Some (r, tree') ∧ (realloc_ok m = true → r = 0) ∧
     ids_ok h tree' ∧ indexed tree ≡ₚ a :: indexed tree').
Proof.
  intros Hok Ha. split.
  - intros. by apply trunk_free_block_insert_spec with (t := t).
  - intros. by apply trunk_free_block_delete_spec.
Qed.

(** [trunk_free_block_total_count] is the number of blocks in the index
    and [trunk_free_block_tree_node_count] the number of trunk files. *)
Theorem trunk_free_block_counts tree :
  trunk_free_block_total_count tree = Z.of_nat (length (indexed tree)) ∧
  trunk_free_block_tree_node_count tree = Z.of_nat (length (elements (root tree))).
Proof.
  split; [|apply avl_tree_count_ok].
  unfold trunk_free_block_total_count, walk_ids. rewrite avl_tree_walk_ok. cbn [root].
  unfold indexed. generalize (elements (root tree)) as l. intros l.
  enough (∀ n, (walk_list block_tree_count_walk_callback l n).2
    = n + Z.of_nat (length (l ≫= λ e, blocks (block_array e)))) as -> by lia.
  induction l as [|e l IH]; intros n; cbn [walk_list block_tree_count_walk_callback]; [cbn; lia|].
  cbn [c_true Z.eqb negb]. rewrite IH, bind_cons, length_app. unfold array_count. lia.
Qed.

(** Two blocks of one file, the second 40 bytes after the first. *)
Definition sample_info (o s : Z) : FDFSTrunkFullInfo :=
  {| status := 0; path := {| store_path_index := 0; sub_path_high := 1; sub_path_low := 2 |};
     file := {| tf_id := 7; tf_offset := o; tf_size := s |} |}.
Definition sample_heap : heap := {[1%positive := sample_info 0 100; 2%positive := sample_info 140 60]}.
Definition sample_alloc : alloc_outcome :=
  {| malloc_ok := true; avl_malloc_ok := true; realloc_ok := true; alloc_errno := 0 |}.
Definition sample_index : id_tree :=
  match trunk_free_block_insert sample_heap sample_alloc trunk_free_block_checker_init 2 with
  | Some (_, tree) => tree
  | None => trunk_free_block_checker_init
  end.

Lemma sample_info_ok o s : 0 ≤ o → 0 < s → o + s ≤ INT_MAX → info_ok (sample_info o s).
Proof.
  intros. unfold info_ok, path_ok, end_of, sample_info.
  cbn [path file store_path_index sub_path_high sub_path_low tf_id tf_offset tf_size].
  unfold is_byte, is_int32. lia.
Qed.

Lemma sample_index_ok : ids_ok sample_heap sample_index.
Proof.
  destruct (trunk_free_block_insert_spec sample_heap sample_alloc trunk_free_block_checker_init
    2 (sample_info 140 60)) as (tree' & E & Hok & _).
  - apply trunk_free_block_checker_init_ok.
  - reflexivity.
  - by apply sample_info_ok.
  - done.
  - intros i (a & Ha & _). by apply not_elem_of_nil in Ha.
  - unfold sample_index. by rewrite E.
Qed.

Lemma trunk_free_block_check_duplicate_exact_witness :
  ids_ok sample_heap sample_index ∧ info_ok (sample_info 100 41) ∧
  trunk_free_block_check_duplicate sample_heap sample_index (sample_info 100 41) = Some EEXIST ∧
  ∃ i, indexed_info sample_heap sample_index i ∧ overlap (sample_info 100 41) i.
Proof.
  assert (info_ok (sample_info 100 41)) as Hi by by apply sample_info_ok.
  split; [apply sample_index_ok|]. split; [exact Hi|].
  destruct (trunk_free_block_check_duplicate_exact sample_heap sample_index (sample_info 100 41)
    sample_index_ok Hi) as [H|[H _]]; [exact H|vm_compute in H; discriminate].
Defined.

Lemma trunk_free_block_index_set_witness :
  ∃ tree', trunk_free_block_insert sample_heap sample_alloc sample_index 1 = Some (0, tree') ∧
    ids_ok sample_heap tree' ∧ indexed tree' ≡ₚ [1; 2]%positive.
Proof.
  destruct (trunk_free_block_index_set sample_heap sample_alloc sample_index 1 (sample_info 0 100)
    sample_index_ok eq_refl) as [H _].
  destruct H as (tree' & E & Hok & Hp); [by apply sample_info_ok|done| |by exists tree'].
  intros i (a & Ha & Hi) (_ & _ & H2).
  assert (indexed sample_index = [2%positive]) as Hidx by (vm_compute; reflexivity).
  rewrite Hidx in Ha. apply list_elem_of_singleton in Ha as ->. vm_compute in Hi. injection Hi as <-.
  vm_compute in H2. discriminate.
Defined.
