(* ===== verification/TrunkBinlog.v ===== *)
(** * storage/trunk_mgr/trunk_sync.c: the trunk binlog

    Every change of the free space of the trunk files is a line of the
    trunk binlog.  The trunk server appends lines to a cache of 8 KB that
    is written to the file when it is nearly full and by a timer; a reader
    thread per storage server follows the file and sends it to the other
    servers of the group, which append what they receive to their own
    binlog; at start-up the binlog is read back line by line.

    [trunk_binlog] is the state of the writer (cache, version counter,
    content of the file, which is open for appending), [TrunkBinLogReader]
    the state of a reader (its buffer of 8 KB and the position of its file
    descriptor).  The kernel's answers are arguments: [io_outcome] for
    [write] and [fsync], the errno of a failing [read], the results of the
    three network calls. *)

From S2P Require Import Prelude CLib SharedFunc TrunkShared.
From stdpp Require Import strings.
#[local] Open Scope Z_scope.

(** ** Constants (trunk_sync.h) *)

Definition TRUNK_OP_TYPE_ADD_SPACE : Z := 65.
Definition TRUNK_OP_TYPE_DEL_SPACE : Z := 68.
Definition TRUNK_BINLOG_BUFFER_SIZE : Z := 8 * 1024.
Definition TRUNK_BINLOG_LINE_SIZE : Z := 128.

(** ** Data *)

Record BinLogBuffer := {
  bb_buffer : list Z;  (* the TRUNK_BINLOG_BUFFER_SIZE bytes of the buffer *)
  bb_current : Z;      (* [current - buffer] *)
  bb_length : Z;
  bb_version : Z;
}.

Record TrunkBinLogReader := {
  binlog_buff : BinLogBuffer;
  fd_pos : Z;          (* the position of [binlog_fd] *)
  binlog_offset : Z;
}.

Record TrunkBinLogRecord := { timestamp : Z; op_type : Z; trunk : FDFSTrunkFullInfo }.

Record trunk_binlog := {
  write_cache : list Z;  (* the first [trunk_binlog_write_cache_len] bytes of the cache *)
  write_version : Z;
  binlog_file : list Z;
}.

Definition trunk_binlog_write_cache_len (s : trunk_binlog) : Z := Z.of_nat (length (write_cache s)).

(** ** Writing *)

Record io_outcome := { io_written : Z; io_errno : Z; io_fsync : Z; io_fsync_errno : Z }.

(** [write] to a file open for appending. *)
Definition fd_write (o : io_outcome) (file buff : list Z) : Z * list Z :=
  if io_written o <? 0 then (-1, file)
  else
    let n := Z.min (io_written o) (Z.of_nat (length buff)) in
    (n, file ++ take (Z.to_nat n) buff).

Definition fsync_write (o : io_outcome) (buff : list Z) (len : Z) (file : list Z) : Z * list Z :=
  if len =? 0 then (0, file)
  else
    let '(n, file) := fd_write o file (take (Z.to_nat len) buff) in
    if negb (n =? len) then (errno_or (io_errno o) EIO, file)
    else if negb (io_fsync o =? 0) then (errno_or (io_fsync_errno o) EIO, file)
    else (0, file).

(** The end of [trunk_binlog_fsync_ex]: the result, the new value of
    [*length] and the new state. *)
Definition fsync_commit (write_ret len : Z) (s : trunk_binlog) : Z * Z * trunk_binlog :=
  if write_ret =? 0 then
    (write_ret, 0, {| write_cache := write_cache s; write_version := s32 (write_version s + 1);
                      binlog_file := binlog_file s |})
  else (write_ret, len, s).

Definition set_file (file : list Z) (s : trunk_binlog) : trunk_binlog :=
  {| write_cache := write_cache s; write_version := write_version s; binlog_file := file |}.

Definition trunk_binlog_fsync_ex (o : io_outcome) (buff : list Z) (len : Z) (s : trunk_binlog)
    : Z * Z * trunk_binlog :=
  let '(write_ret, file) := fsync_write o buff len (binlog_file s) in
  fsync_commit write_ret len (set_file file s).

Definition set_cache (cache : list Z) (s : trunk_binlog) : trunk_binlog :=
  {| write_cache := cache; write_version := write_version s; binlog_file := binlog_file s |}.

(** The macro: [length] is the length of the cache. *)
Definition trunk_binlog_fsync (o : io_outcome) (s : trunk_binlog) : Z * trunk_binlog :=
  let '(write_ret, len, s) :=
    trunk_binlog_fsync_ex o (write_cache s) (trunk_binlog_write_cache_len s) s in
  (write_ret, set_cache (take (Z.to_nat len) (write_cache s)) s).

Definition binlog_line (timestamp op_type : Z) (pTrunk : FDFSTrunkFullInfo) : list Z :=
  sprintf_d timestamp ++ [CH_SPACE; op_type; CH_SPACE]
  ++ sprintf_d (store_path_index (path pTrunk)) ++ [CH_SPACE]
  ++ sprintf_d (sub_path_high (path pTrunk)) ++ [CH_SPACE]
  ++ sprintf_d (sub_path_low (path pTrunk)) ++ [CH_SPACE]
  ++ sprintf_d (tf_id (file pTrunk)) ++ [CH_SPACE]
  ++ sprintf_d (tf_offset (file pTrunk)) ++ [CH_SPACE]
  ++ sprintf_d (tf_size (file pTrunk)) ++ [CH_LF].

(** [sprintf] at the end of the cache, and whether the cache is full then;
    [None] when it writes past the end. *)
Definition cache_line (timestamp op_type : Z) (pTrunk : FDFSTrunkFullInfo) (s : trunk_binlog)
    : option (bool * trunk_binlog) :=
  let line := binlog_line timestamp op_type pTrunk in
  if TRUNK_BINLOG_BUFFER_SIZE <? trunk_binlog_write_cache_len s + Z.of_nat (length line) + 1 then None
  else
    let s := set_cache (write_cache s ++ line) s in
    Some (TRUNK_BINLOG_BUFFER_SIZE - trunk_binlog_write_cache_len s <? 128, s).

Definition trunk_binlog_write (o : io_outcome) (timestamp op_type : Z) (pTrunk : FDFSTrunkFullInfo)
    (s : trunk_binlog) : option (Z * trunk_binlog) :=
  '(full, s) ← cache_line timestamp op_type pTrunk s;
  Some (if full : bool then trunk_binlog_fsync o s else (0, s)).

(** [buff] holds the bytes received; [len] is [length].  The outcomes of
    the up to three flushes are [o1], [o2], [o3]. *)
Definition trunk_binlog_write_buffer (o1 o2 o3 : io_outcome) (buff : list Z) (len : Z)
    (s : trunk_binlog) : option (Z * trunk_binlog) :=
  let '(write_ret, s) :=
    if TRUNK_BINLOG_BUFFER_SIZE - (trunk_binlog_write_cache_len s + len) <? 128
    then trunk_binlog_fsync o1 s else (0, s) in
  if write_ret =? 0 then
    if TRUNK_BINLOG_BUFFER_SIZE <=? len then
      let '(write_ret, s) :=
        if 0 <? trunk_binlog_write_cache_len s then trunk_binlog_fsync o2 s else (0, s) in
      if write_ret =? 0 then
        let '(write_ret, _, s) := trunk_binlog_fsync_ex o3 buff len s in Some (write_ret, s)
      else Some (write_ret, s)
    else
      copied ← read_at buff 0 len;
      if TRUNK_BINLOG_BUFFER_SIZE <? trunk_binlog_write_cache_len s + len then None
      else Some (0, set_cache (write_cache s ++ copied) s)
  else Some (write_ret, s).

(** The timer. *)
Definition trunk_binlog_sync_func (o : io_outcome) (s : trunk_binlog) : Z * trunk_binlog :=
  if 0 <? trunk_binlog_write_cache_len s then trunk_binlog_fsync o s else (0, s).

(** [trunc_errno = None] when [ftruncate] succeeds. *)
Definition trunk_binlog_truncate (o : io_outcome) (trunc_errno : option Z) (s : trunk_binlog)
    : Z * trunk_binlog :=
  let '(result, s) :=
    if 0 <? trunk_binlog_write_cache_len s then trunk_binlog_fsync o s else (0, s) in
  if negb (result =? 0) then (result, s)
  else
    match trunc_errno with
    | Some e => (errno_or e EIO, s)
    | None => (0, {| write_cache := write_cache s; write_version := write_version s;
                     binlog_file := [] |})
    end.

(** The handler of a replica for the lines its trunk server sends. *)
Definition storage_server_trunk_sync_binlog (g_if_use_trunk_file g_if_trunker_self : bool)
    (o1 o2 o3 : io_outcome) (binlog_buff : list Z) (s : trunk_binlog) : option (Z * trunk_binlog) :=
  let nInPackLen := Z.of_nat (length binlog_buff) in
  if nInPackLen =? 0 then Some (EINVAL, s)
  else if negb g_if_use_trunk_file then Some (EINVAL, s)
  else if g_if_trunker_self then Some (EINVAL, s)
  else trunk_binlog_write_buffer o1 o2 o3 binlog_buff (s32 nInPackLen) s.

(** ** Reading *)

(** [memcpy] of [n] bytes inside one object, from offset [src] to offset
    [dst]; [None] when a range leaves the object or the ranges overlap. *)
Definition memcpy_within (mem : list Z) (dst src n : Z) : option (list Z) :=
  copied ← read_at mem src n;
  if (dst <? 0) || (Z.of_nat (length mem) <? dst + n) || ((dst <? src + n) && (src <? dst + n))
  then None
  else Some (take (Z.to_nat dst) mem ++ copied ++ drop (Z.to_nat (dst + n)) mem).

(** The first half of [trunk_binlog_preread]: the result when it returns
    early, otherwise the version seen and the buffer with its content
    moved to the front. *)
Definition preread_check (trunk_binlog_write_version : Z) (b : BinLogBuffer)
    : option (Z + Z * BinLogBuffer) :=
  if (bb_version b =? trunk_binlog_write_version) && (bb_length b =? 0) then Some (inl ENOENT)
  else if bb_length b =? TRUNK_BINLOG_BUFFER_SIZE then Some (inl 0)
  else
    let saved_trunk_binlog_write_version := trunk_binlog_write_version in
    if negb (bb_current b =? 0) then
      buffer ← (if 0 <? bb_length b then memcpy_within (bb_buffer b) 0 (bb_current b) (bb_length b)
                else Some (bb_buffer b));
      Some (inr (saved_trunk_binlog_write_version,
                 {| bb_buffer := buffer; bb_current := 0; bb_length := bb_length b;
                    bb_version := bb_version b |}))
    else Some (inr (saved_trunk_binlog_write_version, b)).

(** The bytes [read] returns from a regular file: as many as were asked
    for and the file still has. *)
Definition fd_read (file : list Z) (pos n : Z) : list Z :=
  take (Z.to_nat n) (drop (Z.to_nat pos) file).

(** The second half, from [read]; [read_errno = None] when it succeeds. *)
Definition preread_fill (read_errno : option Z) (file : list Z)
    (saved_trunk_binlog_write_version : Z) (r : TrunkBinLogReader) : option (Z * TrunkBinLogReader) :=
  let b := binlog_buff r in
  let asked := TRUNK_BINLOG_BUFFER_SIZE - bb_length b in
  match read_errno with
  | Some e => Some (errno_or e EIO, r)
  | None =>
      let data := fd_read file (fd_pos r) asked in
      let bytes_read := Z.of_nat (length data) in
      if bytes_read =? 0 then
        Some (ENOENT,
              {| binlog_buff := {| bb_buffer := bb_buffer b; bb_current := bb_current b;
                                   bb_length := bb_length b;
                                   bb_version := saved_trunk_binlog_write_version |};
                 fd_pos := fd_pos r; binlog_offset := binlog_offset r |})
      else if (bb_length b <? 0) || (Z.of_nat (length (bb_buffer b)) <? bb_length b + bytes_read) then None
      else
        Some (0,
              {| binlog_buff := {| bb_buffer := take (Z.to_nat (bb_length b)) (bb_buffer b) ++ data
                                     ++ drop (Z.to_nat (bb_length b + bytes_read)) (bb_buffer b);
                                   bb_current := bb_current b;
                                   bb_length := bb_length b + bytes_read;
                                   bb_version := bb_version b |};
                 fd_pos := fd_pos r + bytes_read; binlog_offset := binlog_offset r |})
  end.

Definition set_buff (b : BinLogBuffer) (r : TrunkBinLogReader) : TrunkBinLogReader :=
  {| binlog_buff := b; fd_pos := fd_pos r; binlog_offset := binlog_offset r |}.

Definition trunk_binlog_preread (read_errno : option Z) (s : trunk_binlog) (r : TrunkBinLogReader)
    : option (Z * TrunkBinLogReader) :=
  c ← preread_check (write_version s) (binlog_buff r);
  match c with
  | inl result => Some (result, r)
  | inr (saved, b) => preread_fill read_errno (binlog_file s) saved (set_buff b r)
  end.

(** The result, the line, [*line_length] and the reader. *)
Definition trunk_binlog_do_line_read (line_size : Z) (r : TrunkBinLogReader)
    : option (Z * list Z * Z * TrunkBinLogReader) :=
  let b := binlog_buff r in
  if bb_length b =? 0 then Some (ENOENT, [], 0, r)
  else
    content ← read_at (bb_buffer b) (bb_current b) (bb_length b);
    match strchr content CH_LF with
    | None => Some (ENOENT, [], 0, r)
    | Some pLineEnd =>
        let line_length := Z.of_nat (length content - length pLineEnd) + 1 in
        if line_size <=? line_length then Some (ENOSPC, [], line_length, r)
        else
          Some (0, take (Z.to_nat line_length) content, line_length,
                set_buff {| bb_buffer := bb_buffer b; bb_current := bb_current b + line_length;
                            bb_length := bb_length b - line_length; bb_version := bb_version b |} r)
    end.

Definition trunk_binlog_read_line (read_errno : option Z) (s : trunk_binlog) (line_size : Z)
    (r : TrunkBinLogReader) : option (Z * list Z * Z * TrunkBinLogReader) :=
  '(result, line, line_length, r) ← trunk_binlog_do_line_read line_size r;
  if negb (result =? ENOENT) then Some (result, line, line_length, r)
  else
    '(result, r) ← trunk_binlog_preread read_errno s r;
    if negb (result =? 0) then Some (result, [], line_length, r)
    else trunk_binlog_do_line_read line_size r.

Definition COL_COUNT : Z := 8.

(** The conversion of the columns of a line; [None] when there are too few. *)
Definition parse_record (line : list Z) : option TrunkBinLogRecord :=
  match splitEx (c_string line) CH_SPACE COL_COUNT with
  | [c0; c1; c2; c3; c4; c5; c6; c7] =>
      Some {| timestamp := atoi c0; op_type := default 0 (head c1);
              trunk := {| status := FDFS_TRUNK_STATUS_FREE;
                          path := {| store_path_index := u8 (atoi c2); sub_path_high := u8 (atoi c3);
                                     sub_path_low := u8 (atoi c4) |};
                          file := {| tf_id := atoi c5; tf_offset := atoi c6; tf_size := atoi c7 |} |} |}
  | _ => None
  end.

(** [*pRecord] is only assigned when the result is 0 (its [status] is left
    to the caller; it is shown as FREE here). *)
Definition trunk_binlog_read (read_errno : option Z) (s : trunk_binlog) (r : TrunkBinLogReader)
    : option (Z * option TrunkBinLogRecord * Z * TrunkBinLogReader) :=
  '(result, line, record_length, r) ← trunk_binlog_read_line read_errno s TRUNK_BINLOG_LINE_SIZE r;
  if negb (result =? 0) then Some (result, None, record_length, r)
  else
    match parse_record line with
    | None => Some (ENOENT, None, record_length, r)
    | Some rec => Some (0, Some rec, record_length, r)
    end.

(** ** Sending *)

(** The number of bytes up to and including the last newline of [l]; the
    scan stops at the first byte, whatever it is. *)
Definition last_line_end (l : list Z) : nat :=
  match strchr (reverse l) CH_LF with
  | Some p => length p - 1
  | None => 0
  end.

(** [send_header], [send_body] and [response] are the results of the
    network calls; the bytes sent are returned when both sends succeed. *)
Definition trunk_sync_data (send_header send_body response : Z) (r : TrunkBinLogReader)
    : option (Z * option (list Z) * TrunkBinLogReader) :=
  let b := binlog_buff r in
  if bb_length b <=? 0 then None
  else
    content ← read_at (bb_buffer b) 0 (bb_length b);
    let length := Z.of_nat (last_line_end content) in
    if length =? 0 then Some (ENOENT, None, r)
    else
      let length := length + 1 in
      if negb (send_header =? 0) then Some (send_header, None, r)
      else if negb (send_body =? 0) then Some (send_body, None, r)
      else
        let sent := take (Z.to_nat length) content in
        if negb (response =? 0) then Some (response, Some sent, r)
        else
          Some (0, Some sent,
            {| binlog_buff :=
                 {| bb_buffer := bb_buffer b;
                    bb_current := if 0 <? bb_length b - length then length else bb_current b;
                    bb_length := bb_length b - length; bb_version := bb_version b |};
               fd_pos := fd_pos r; binlog_offset := binlog_offset r + length |}).

(** * Lemmas *)

(** ** Lines *)

(** The bytes [%d] writes. *)
Definition num_char (c : Z) : Prop := 48 ≤ c ≤ 57 ∨ c = 45.

Lemma digits_fuel_chars fuel n acc :
  0 ≤ n → Forall num_char acc → Forall num_char (digits_fuel fuel dec_digit 10 n acc).
Proof.
  revert n acc. induction fuel as [|fuel IH]; intros n acc Hn Ha; cbn [digits_fuel]; [done|].
  pose proof (Z.mod_pos_bound n 10 ltac:(lia)).
  assert (Forall num_char (dec_digit (n mod 10) :: acc)) as Ha'.
  { constructor; [|done]. left. unfold dec_digit. lia. }
  destruct (n <? 10); [done|]. apply IH; [|done]. apply Z.div_pos; lia.
Qed.

Lemma sprintf_d_chars n : Forall num_char (sprintf_d n).
Proof.
  unfold sprintf_d, digits. destruct (Z.ltb_spec n 0).
  - constructor; [by right|]. apply digits_fuel_chars; [lia|constructor].
  - apply digits_fuel_chars; [lia|constructor].
Qed.

Lemma sprintf_0d_chars width n : Forall num_char (sprintf_0d width n).
Proof.
  unfold sprintf_0d, pad0, digits.
  destruct (Z.ltb_spec n 0); [constructor; [by right|]|];
    (apply Forall_app; split; [apply Forall_replicate; left; lia|apply digits_fuel_chars; [lia|constructor]]).
Qed.

Lemma num_chars_not_in c l : ¬ num_char c → Forall num_char l → c ∉ l.
Proof. rewrite Forall_forall. naive_solver. Qed.

Lemma sprintf_d_no_space n : CH_SPACE ∉ sprintf_d n.
Proof. apply num_chars_not_in; [unfold num_char, CH_SPACE, CH_LF; lia|apply sprintf_d_chars]. Qed.
Lemma sprintf_d_no_lf n : CH_LF ∉ sprintf_d n.
Proof. apply num_chars_not_in; [unfold num_char, CH_SPACE, CH_LF; lia|apply sprintf_d_chars]. Qed.
Lemma sprintf_d_no_nul n : 0 ∉ sprintf_d n.
Proof. apply num_chars_not_in; [unfold num_char, CH_SPACE, CH_LF; lia|apply sprintf_d_chars]. Qed.

(** A record as the binlog can hold it. *)
Definition record_ok (r : TrunkBinLogRecord) : Prop :=
  is_int32 (timestamp r) ∧
  (op_type r = TRUNK_OP_TYPE_ADD_SPACE ∨ op_type r = TRUNK_OP_TYPE_DEL_SPACE) ∧
  is_byte (store_path_index (path (trunk r))) ∧ is_byte (sub_path_high (path (trunk r))) ∧
  is_byte (sub_path_low (path (trunk r))) ∧
  is_int32 (tf_id (file (trunk r))) ∧ is_int32 (tf_offset (file (trunk r))) ∧
  is_int32 (tf_size (file (trunk r))).

#[export] Instance record_ok_dec r : Decision (record_ok r).
Proof. unfold record_ok. apply _. Defined.

Definition record_line (r : TrunkBinLogRecord) : list Z :=
  binlog_line (timestamp r) (op_type r) (trunk r).

(** What a line says of its record: everything but the status. *)
Definition logged (r : TrunkBinLogRecord) : TrunkBinLogRecord :=
  {| timestamp := timestamp r; op_type := op_type r;
     trunk := {| status := FDFS_TRUNK_STATUS_FREE; path := path (trunk r); file := file (trunk r) |} |}.

(** The text of a line before its newline. *)
Definition line_text (r : TrunkBinLogRecord) : list Z :=
  sprintf_d (timestamp r) ++ CH_SPACE :: [op_type r] ++ CH_SPACE
  :: sprintf_d (store_path_index (path (trunk r))) ++ CH_SPACE
  :: sprintf_d (sub_path_high (path (trunk r))) ++ CH_SPACE
  :: sprintf_d (sub_path_low (path (trunk r))) ++ CH_SPACE
  :: sprintf_d (tf_id (file (trunk r))) ++ CH_SPACE
  :: sprintf_d (tf_offset (file (trunk r))) ++ CH_SPACE
  :: sprintf_d (tf_size (file (trunk r))).

Lemma record_line_text r : record_line r = line_text r ++ [CH_LF].
Proof.
  unfold record_line, binlog_line, line_text.
  repeat (rewrite <- ?app_assoc, <- ?app_comm_cons; cbn [app]). done.
Qed.

Lemma record_line_cols r :
  record_line r =
  sprintf_d (timestamp r) ++ CH_SPACE :: [op_type r] ++ CH_SPACE
  :: sprintf_d (store_path_index (path (trunk r))) ++ CH_SPACE
  :: sprintf_d (sub_path_high (path (trunk r))) ++ CH_SPACE
  :: sprintf_d (sub_path_low (path (trunk r))) ++ CH_SPACE
  :: sprintf_d (tf_id (file (trunk r))) ++ CH_SPACE
  :: sprintf_d (tf_offset (file (trunk r))) ++ CH_SPACE
  :: sprintf_d (tf_size (file (trunk r))) ++ [CH_LF].
Proof. reflexivity. Qed.

Lemma record_op_chars r : record_ok r → op_type r ≠ CH_SPACE ∧ op_type r ≠ CH_LF ∧ op_type r ≠ 0.
Proof. intros (_ & [-> | ->] & _); done. Qed.

Lemma line_text_no_lf r : record_ok r → CH_LF ∉ line_text r.
Proof.
  intros Hr. destruct (record_op_chars r Hr) as (? & ? & ?). unfold line_text.
  repeat (rewrite not_elem_of_app || rewrite not_elem_of_cons).
  split_and!; try apply sprintf_d_no_lf; try done. apply not_elem_of_nil.
Qed.

Lemma line_text_no_nul r : record_ok r → 0 ∉ line_text r.
Proof.
  intros Hr. destruct (record_op_chars r Hr) as (? & ? & ?). unfold line_text.
  repeat (rewrite not_elem_of_app || rewrite not_elem_of_cons).
  split_and!; try apply sprintf_d_no_nul; try done. apply not_elem_of_nil.
Qed.

Lemma is_byte_int32 z : is_byte z → is_int32 z.
Proof. unfold is_byte, is_int32. lia. Qed.

Lemma record_line_length r :
  record_ok r → (0 < length (record_line r) ≤ 86)%nat.
Proof.
  intros (H1 & _ & H2%is_byte_int32 & H3%is_byte_int32 & H4%is_byte_int32 & H5 & H6 & H7).
  rewrite record_line_text. unfold line_text.
  repeat (rewrite length_app; cbn [length app]).
  pose proof (sprintf_d_length _ H1). pose proof (sprintf_d_length _ H2).
  pose proof (sprintf_d_length _ H3). pose proof (sprintf_d_length _ H4).
  pose proof (sprintf_d_length _ H5). pose proof (sprintf_d_length _ H6).
  pose proof (sprintf_d_length _ H7). lia.
Qed.

Lemma splitEx_loop_cons n a b sep :
  sep ∉ a → splitEx_loop (S (S n)) (a ++ sep :: b) sep = a :: splitEx_loop (S n) b sep.
Proof.
  intros Ha. cbn [splitEx_loop Nat.eqb].
  rewrite (proj2 (strchr_Some (a ++ sep :: b) sep (sep :: b))) by (by exists a, b).
  by rewrite before_app.
Qed.

Lemma atoi_sprintf_d n rest :
  is_int32 n → starts_with_digit 10 rest = false → atoi (sprintf_d n ++ rest) = n.
Proof.
  intros Hn Hr. unfold atoi. rewrite strtol_sprintf_d; [by apply s32_id| |done].
  unfold is_int32, LONG_MIN, LONG_MAX in *. lia.
Qed.

Lemma parse_record_line r : record_ok r → parse_record (record_line r) = Some (logged r).
Proof.
  intros Hr. destruct (record_op_chars r Hr) as (Hop & _ & _).
  unfold parse_record. rewrite c_string_no_nul.
  2:{ rewrite record_line_text, not_elem_of_app, not_elem_of_cons.
      split_and!; [by apply line_text_no_nul|done|apply not_elem_of_nil]. }
  rewrite record_line_cols. unfold splitEx. change (Z.to_nat COL_COUNT) with 8%nat.
  change (COL_COUNT <=? 0) with false. cbv iota.
  assert (CH_SPACE ∉ [op_type r]) by (rewrite list_elem_of_singleton; by apply not_eq_sym).
  do 7 (rewrite splitEx_loop_cons by first [apply sprintf_d_no_space|done]).
  cbn [splitEx_loop Nat.eqb]. destruct Hr as (H1 & _ & H2 & H3 & H4 & H5 & H6 & H7).
  cbn [head default].
  pose proof (is_byte_int32 _ H2). pose proof (is_byte_int32 _ H3). pose proof (is_byte_int32 _ H4).
  rewrite <- (app_nil_r (sprintf_d (timestamp r))).
  rewrite <- (app_nil_r (sprintf_d (store_path_index (path (trunk r))))).
  rewrite <- (app_nil_r (sprintf_d (sub_path_high (path (trunk r))))).
  rewrite <- (app_nil_r (sprintf_d (sub_path_low (path (trunk r))))).
  rewrite <- (app_nil_r (sprintf_d (tf_id (file (trunk r))))).
  rewrite <- (app_nil_r (sprintf_d (tf_offset (file (trunk r))))).
  rewrite !atoi_sprintf_d by done.
  unfold logged, u8. unfold is_byte in *. rewrite !Z.mod_small by (change (2 ^ 8) with 256; lia).
  by destruct r as [? ? [? [] []]].
Qed.

(** ** The writer *)

(** The kernel accepts everything. *)
Definition io_ok (o : io_outcome) : Prop := TRUNK_BINLOG_BUFFER_SIZE ≤ io_written o ∧ io_fsync o = 0.

(** Nothing can be written. *)
Definition io_failed (o : io_outcome) : Prop := io_written o < 0.

(** What has been logged: the file and what still is in the cache. *)
Definition whole_log (s : trunk_binlog) : list Z := binlog_file s ++ write_cache s.

Lemma fsync_write_ok o buff file :
  io_ok o → Z.of_nat (length buff) ≤ TRUNK_BINLOG_BUFFER_SIZE →
  fsync_write o buff (Z.of_nat (length buff)) file = (0, file ++ buff).
Proof.
  intros [Hw Hf] Hl. unfold fsync_write, fd_write, TRUNK_BINLOG_BUFFER_SIZE in *.
  destruct (Z.eqb_spec (Z.of_nat (length buff)) 0) as [E|E].
  { destruct buff; [by rewrite app_nil_r|cbn in E; lia]. }
  rewrite (proj2 (Z.ltb_ge _ _)) by lia.
  rewrite Nat2Z.id, firstn_all. rewrite Z.min_r, Z.eqb_refl by lia. cbn [negb].
  rewrite Hf. cbn [Z.eqb negb]. by rewrite Nat2Z.id, firstn_all.
Qed.

Lemma trunk_binlog_fsync_ok o s :
  io_ok o → trunk_binlog_write_cache_len s ≤ TRUNK_BINLOG_BUFFER_SIZE →
  trunk_binlog_fsync o s =
  (0, {| write_cache := []; write_version := s32 (write_version s + 1);
         binlog_file := whole_log s |}).
Proof.
  intros Ho Hl. unfold trunk_binlog_fsync, trunk_binlog_fsync_ex, trunk_binlog_write_cache_len in *.
  rewrite fsync_write_ok by done. done.
Qed.

Lemma trunk_binlog_fsync_failed o s :
  io_failed o → 0 < trunk_binlog_write_cache_len s →
  ∃ e, trunk_binlog_fsync o s = (e, s) ∧ e ≠ 0.
Proof.
  intros Ho Hl. unfold trunk_binlog_fsync, trunk_binlog_fsync_ex, fsync_commit, fsync_write, fd_write.
  rewrite (proj2 (Z.eqb_neq _ 0)) by lia. rewrite (proj2 (Z.ltb_lt _ _)) by done.
  rewrite (proj2 (Z.eqb_neq _ _)) by lia. cbn [negb].
  exists (errno_or (io_errno o) EIO).
  assert (errno_or (io_errno o) EIO ≠ 0) as He.
  { unfold errno_or. destruct (c_true (io_errno o)) eqn:E; [|done].
    unfold c_true in E. destruct (Z.eqb_spec (io_errno o) 0); done. }
  rewrite (proj2 (Z.eqb_neq _ 0)) by done. split; [|done]. f_equal.
  unfold trunk_binlog_write_cache_len, set_cache. cbn. rewrite Nat2Z.id, firstn_all. by destruct s.
Qed.

(** There is room for one more line in the cache. *)
Definition cache_has_room (s : trunk_binlog) : Prop :=
  128 ≤ TRUNK_BINLOG_BUFFER_SIZE - trunk_binlog_write_cache_len s.

Definition log_record (o : io_outcome) (r : TrunkBinLogRecord) (s : trunk_binlog) :=
  trunk_binlog_write o (timestamp r) (op_type r) (trunk r) s.

Lemma cache_line_room r s :
  record_ok r → cache_has_room s →
  let s' := set_cache (write_cache s ++ record_line r) s in
  cache_line (timestamp r) (op_type r) (trunk r) s
  = Some (TRUNK_BINLOG_BUFFER_SIZE - trunk_binlog_write_cache_len s' <? 128, s') ∧
  trunk_binlog_write_cache_len s' ≤ TRUNK_BINLOG_BUFFER_SIZE ∧
  whole_log s' = whole_log s ++ record_line r.
Proof.
  intros Hr Hs. pose proof (record_line_length r Hr) as Hl. cbv zeta.
  unfold cache_line. fold (record_line r).
  unfold cache_has_room, TRUNK_BINLOG_BUFFER_SIZE in *. rewrite (proj2 (Z.ltb_ge _ _)) by lia.
  split; [done|]. split.
  - unfold trunk_binlog_write_cache_len in *. cbn. rewrite length_app. lia.
  - unfold whole_log. cbn. by rewrite <- app_assoc.
Qed.

(** What a call leaves when the disk works. *)
Lemma trunk_binlog_write_ok o r s :
  io_ok o → record_ok r → cache_has_room s →
  ∃ s', log_record o r s = Some (0, s') ∧ cache_has_room s' ∧
    whole_log s' = whole_log s ++ record_line r.
Proof.
  intros Ho Hr Hs. destruct (cache_line_room r s Hr Hs) as (E & Hl & Hw).
  unfold log_record, trunk_binlog_write. rewrite E. cbn [mbind option_bind].
  destruct (Z.ltb_spec (TRUNK_BINLOG_BUFFER_SIZE - trunk_binlog_write_cache_len
    (set_cache (write_cache s ++ record_line r) s)) 128) as [Hf|Hf].
  - rewrite trunk_binlog_fsync_ok by done.
    eexists. split; [done|]. split; [done|]. rewrite <- Hw. unfold whole_log. cbn. by rewrite app_nil_r.
  - eexists. split; [done|]. split; [done|done].
Qed.

(** What the trunk server does with its binlog. *)
Inductive binlog_call := LogRecord (o : io_outcome) (r : TrunkBinLogRecord) | SyncTimer (o : io_outcome).

Definition binlog_exec (c : binlog_call) (s : trunk_binlog) : option (Z * trunk_binlog) :=
  match c with
  | LogRecord o r => log_record o r s
  | SyncTimer o => Some (trunk_binlog_sync_func o s)
  end.

(** The results of the calls, and the state after them. *)
Fixpoint binlog_run (cs : list binlog_call) (s : trunk_binlog) : option (list Z * trunk_binlog) :=
  match cs with
  | [] => Some ([], s)
  | c :: cs =>
      '(result, s) ← binlog_exec c s;
      '(results, s) ← binlog_run cs s;
      Some (result :: results, s)
  end.

Definition call_ok (c : binlog_call) : Prop :=
  match c with LogRecord o r => io_ok o ∧ record_ok r | SyncTimer o => io_ok o end.

Fixpoint records_of (cs : list binlog_call) : list TrunkBinLogRecord :=
  match cs with
  | [] => []
  | LogRecord _ r :: cs => r :: records_of cs
  | SyncTimer _ :: cs => records_of cs
  end.

Definition lines (rs : list TrunkBinLogRecord) : list Z := concat (record_line <$> rs).

Lemma binlog_exec_ok c s :
  call_ok c → cache_has_room s →
  ∃ s', binlog_exec c s = Some (0, s') ∧ cache_has_room s' ∧
    whole_log s' = whole_log s ++ lines (records_of [c]).
Proof.
  intros Hc Hs. destruct c as [o r|o]; cbn [binlog_exec].
  - destruct Hc as [Ho Hr]. destruct (trunk_binlog_write_ok o r s Ho Hr Hs) as (s' & -> & ? & ?).
    exists s'. unfold lines. cbn. by rewrite app_nil_r.
  - unfold trunk_binlog_sync_func, lines. cbn. rewrite app_nil_r.
    destruct (0 <? trunk_binlog_write_cache_len s); [|by exists s].
    rewrite trunk_binlog_fsync_ok; [|done|unfold cache_has_room in Hs; lia].
    eexists. split; [done|]. split; [done|]. unfold whole_log. cbn. by rewrite app_nil_r.
Qed.

Lemma binlog_run_ok cs s :
  Forall call_ok cs → cache_has_room s →
  ∃ s', binlog_run cs s = Some (replicate (length cs) 0, s') ∧ cache_has_room s' ∧
    whole_log s' = whole_log s ++ lines (records_of cs).
Proof.
  intros Hcs. revert s. induction Hcs as [|c cs Hc Hcs IH]; intros s Hs.
  - exists s. unfold lines. cbn. by rewrite app_nil_r.
  - destruct (binlog_exec_ok c s Hc Hs) as (s1 & E1 & Hs1 & Hw1).
    destruct (IH s1 Hs1) as (s2 & E2 & Hs2 & Hw2).
    exists s2. cbn [binlog_run]. rewrite E1. cbn. rewrite E2. split; [done|]. split; [done|].
    rewrite Hw2, Hw1, <- app_assoc. unfold lines. destruct c; cbn; by rewrite ?app_nil_r.
Qed.

Lemma trunk_binlog_sync_func_ok o s :
  io_ok o → cache_has_room s →
  (trunk_binlog_sync_func o s).1 = 0 ∧ binlog_file (trunk_binlog_sync_func o s).2 = whole_log s ∧
  write_cache (trunk_binlog_sync_func o s).2 = [].
Proof.
  intros Ho Hs. unfold trunk_binlog_sync_func.
  destruct (Z.ltb_spec 0 (trunk_binlog_write_cache_len s)) as [Hl|Hl].
  - rewrite trunk_binlog_fsync_ok; [done|done|unfold cache_has_room in Hs; lia].
  - cbn. unfold whole_log, trunk_binlog_write_cache_len in *.
    destruct (write_cache s); [by rewrite app_nil_r|cbn in Hl; lia].
Qed.

(** C39 While the disk works, any sequence of [trunk_binlog_write] and timer
    calls succeeds and never writes past the cache: the file followed by
    the cache is what it was followed by the lines of the records, in
    order, none lost or repeated, and flushing moves all of it to the
    file. *)
Theorem trunk_binlog_write_log cs s o :
  Forall call_ok cs → cache_has_room s → io_ok o →
  ∃ s', binlog_run cs s = Some (replicate (length cs) 0, s') ∧ cache_has_room s' ∧
    whole_log s' = whole_log s ++ lines (records_of cs) ∧
    binlog_file (trunk_binlog_sync_func o s').2 = whole_log s ++ lines (records_of cs).
Proof.
  intros Hcs Hs Ho. destruct (binlog_run_ok cs s Hcs Hs) as (s' & H1 & H2 & H3).
  exists s'. split_and!; [done..|]. rewrite <- H3. by apply trunk_binlog_sync_func_ok.
Qed.

Definition sample_io : io_outcome :=
  {| io_written := 8192; io_errno := 0; io_fsync := 0; io_fsync_errno := 0 |}.
Definition sample_record (offset : Z) : TrunkBinLogRecord :=
  {| timestamp := 1400000000; op_type := TRUNK_OP_TYPE_ADD_SPACE;
     trunk := {| status := 0; path := {| store_path_index := 0; sub_path_high := 1; sub_path_low := 255 |};
                 file := {| tf_id := 3; tf_offset := offset; tf_size := 4096 |} |} |}.
Definition empty_binlog : trunk_binlog := {| write_cache := []; write_version := 1; binlog_file := [] |}.

Lemma trunk_binlog_write_log_witness :
  ∃ s', binlog_run (LogRecord sample_io <$> (sample_record <$> [0; 4096])) empty_binlog = Some ([0; 0], s')
    ∧ whole_log s' = bytes "1400000000 A 0 1 255 3 0 4096
1400000000 A 0 1 255 3 4096 4096
".
Proof.
  destruct (trunk_binlog_write_log (LogRecord sample_io <$> (sample_record <$> [0; 4096])) empty_binlog
              sample_io) as (s' & H1 & _ & H2 & _).
  - repeat constructor; try done; try (by left).
  - unfold cache_has_room. vm_compute. done.
  - done.
  - exists s'. split; [exact H1|]. rewrite H2. vm_compute. reflexivity.
Defined.

Lemma record_line_min r : record_ok r → (16 ≤ length (record_line r))%nat.
Proof.
  intros _. rewrite record_line_cols.
  assert (∀ n, (1 ≤ length (sprintf_d n))%nat) as H.
  { intros n. unfold sprintf_d, digits. destruct (Z.ltb_spec n 0); [cbn; lia|].
    destruct (digits_fuel_head dec_digit 10 (num_fuel n) n [] dec_digit_writer) as (v & l & -> & _);
      [done|unfold num_fuel; lia|cbn; lia]. }
  repeat (rewrite length_app; cbn [length app]).
  pose proof (H (timestamp r)). pose proof (H (store_path_index (path (trunk r)))).
  pose proof (H (sub_path_high (path (trunk r)))). pose proof (H (sub_path_low (path (trunk r)))).
  pose proof (H (tf_id (file (trunk r)))). pose proof (H (tf_offset (file (trunk r)))).
  pose proof (H (tf_size (file (trunk r)))). lia.
Qed.

(** C40 A flush that fails keeps the cache but [trunk_binlog_write] does not
    look at the room left before it formats the next line: when nothing can
    be written any more, at most 512 calls run past the end of the cache. *)
Theorem trunk_binlog_write_overflow cs s :
  Forall (λ c, match c with LogRecord o r => io_failed o ∧ record_ok r | SyncTimer _ => False end) cs →
  (512 ≤ length cs)%nat → binlog_run cs s = None.
Proof.
  intros Hcs Hl.
  assert (TRUNK_BINLOG_BUFFER_SIZE ≤ trunk_binlog_write_cache_len s + 16 * Z.of_nat (length cs)) as Hf.
  { unfold trunk_binlog_write_cache_len, TRUNK_BINLOG_BUFFER_SIZE. lia. }
  assert (0 < length cs)%nat as Hne by lia. clear Hl. revert s Hf Hne.
  induction Hcs as [|c cs Hc Hcs IH]; intros s Hf Hne; [cbn in Hne; lia|].
  destruct c as [o r|]; [|done]. destruct Hc as [Ho Hr].
  pose proof (record_line_min r Hr) as Hm. cbn [binlog_run binlog_exec].
  unfold log_record, trunk_binlog_write, cache_line. fold (record_line r).
  destruct (Z.ltb_spec TRUNK_BINLOG_BUFFER_SIZE
    (trunk_binlog_write_cache_len s + Z.of_nat (length (record_line r)) + 1)) as [|Hlt]; [done|].
  set (s1 := set_cache (write_cache s ++ record_line r) s).
  assert (trunk_binlog_write_cache_len s1 = trunk_binlog_write_cache_len s
          + Z.of_nat (length (record_line r))) as Hl1.
  { unfold trunk_binlog_write_cache_len, s1. cbn. rewrite length_app. lia. }
  assert (binlog_run cs s1 = None) as E.
  { cbn [length] in Hf. rewrite Nat2Z.inj_succ in Hf.
    destruct (length cs) as [|n] eqn:En; [cbn in Hf; exfalso; lia|]. apply IH; lia. }
  cbn [mbind option_bind]. destruct (_ <? 128).
  - destruct (trunk_binlog_fsync_failed o s1 Ho) as (e & -> & _);
      [unfold trunk_binlog_write_cache_len in *; lia|]. cbn. by rewrite E.
  - cbn. by rewrite E.
Qed.

Lemma trunk_binlog_write_overflow_witness :
  let o := {| io_written := -1; io_errno := ENOSPC; io_fsync := 0; io_fsync_errno := 0 |} in
  binlog_run (replicate 512 (LogRecord o (sample_record 0))) empty_binlog = None.
Proof.
  cbv zeta. apply trunk_binlog_write_overflow; [|by rewrite length_replicate].
  apply Forall_replicate. split; [done|]. vm_compute. repeat split; try done; by left.
Defined.
