(* ===== verification/BinlogReader.v ===== *)
(** * The readers of the trunk binlog

    What [trunk_binlog_read] and [trunk_sync_data] (TrunkBinlog.v) return
    when the file holds whole lines: replaying a binlog gives back the
    records that were logged, a replica ends up with the log of its trunk
    server, and a reader thread that runs concurrently with the writer
    neither loses, repeats nor misses a record. *)

From S2P Require Import Prelude CLib SharedFunc TrunkShared TrunkBinlog.
From stdpp Require Import strings.
#[local] Open Scope Z_scope.

(** ** The content of a reader's buffer *)

Definition content (b : BinLogBuffer) : list Z :=
  take (Z.to_nat (bb_length b)) (drop (Z.to_nat (bb_current b)) (bb_buffer b)).

Record buffer_ok (b : BinLogBuffer) : Prop := {
  bok_size : Z.of_nat (length (bb_buffer b)) = TRUNK_BINLOG_BUFFER_SIZE;
  bok_current : 0 ≤ bb_current b;
  bok_length : 0 ≤ bb_length b;
  bok_end : bb_current b + bb_length b ≤ TRUNK_BINLOG_BUFFER_SIZE;
}.

(** What the content can be: the end of a full buffer, whole lines, or the
    start of a line moved to the front.  Moving it to the front then never
    has to copy between overlapping ranges. *)
Definition movable (b : BinLogBuffer) : Prop :=
  bb_current b + bb_length b = TRUNK_BINLOG_BUFFER_SIZE ∨
  (∃ m, Forall record_ok m ∧ content b = lines m) ∨
  (bb_current b = 0 ∧ CH_LF ∉ content b).

(** The reader has returned the first [k] of the records [rs] that follow
    [pre] in the file. *)
Record follows (pre : list Z) (rs : list TrunkBinLogRecord) (k : nat) (r : TrunkBinLogReader) : Prop := {
  fo_buffer : buffer_ok (binlog_buff r);
  fo_count : (k ≤ length rs)%nat;
  fo_records : Forall record_ok rs;
  fo_pos : fd_pos r = Z.of_nat (length pre) + Z.of_nat (length (lines (take k rs)))
                      + bb_length (binlog_buff r);
  fo_content : ∃ unread, content (binlog_buff r) ++ unread = lines (drop k rs);
  fo_movable : movable (binlog_buff r);
}.

(** ** Lists of lines *)

Lemma lines_app a b : lines (a ++ b) = lines a ++ lines b.
Proof. unfold lines. by rewrite fmap_app, concat_app. Qed.

Lemma lines_cons r rs : lines (r :: rs) = line_text r ++ CH_LF :: lines rs.
Proof. unfold lines. cbn. by rewrite record_line_text, <- app_assoc. Qed.

Lemma lf_in_line (text c : list Z) : CH_LF ∈ text ++ CH_LF :: c.
Proof. apply elem_of_app. right. by left. Qed.

Lemma strchr_lf_split text rest : CH_LF ∉ text → strchr (text ++ CH_LF :: rest) CH_LF = Some (CH_LF :: rest).
Proof. intros H. apply strchr_Some. by exists text, rest. Qed.

(** A part of the file that starts at a line either holds that line whole
    or holds no newline. *)
Lemma first_line r rest c unread :
  record_ok r → c ++ unread = line_text r ++ CH_LF :: rest →
  (∃ c', c = line_text r ++ CH_LF :: c' ∧ c' ++ unread = rest) ∨
  (CH_LF ∉ c ∧ (length c < length (record_line r))%nat).
Proof.
  intros Hr E. pose proof (line_text_no_lf r Hr) as Hlf.
  assert (length (record_line r) = S (length (line_text r))) as Hlen.
  { rewrite record_line_text, length_app. cbn. lia. }
  destruct (decide (length c ≤ length (line_text r))%nat) as [Hle|Hgt].
  - right. split; [|lia]. intros Hin. apply Hlf.
    assert (c = take (length c) (line_text r)) as Ec.
    { rewrite <- (take_app_le _ (CH_LF :: rest)) by done. rewrite <- E. by rewrite take_app_length. }
    rewrite <- (take_drop (length c) (line_text r)), <- Ec. apply elem_of_app. by left.
  - left. exists (drop (S (length (line_text r))) c).
    assert (c = take (S (length (line_text r))) c ++ drop (S (length (line_text r))) c) as Ec
      by (by rewrite take_drop).
    assert (take (S (length (line_text r))) c = line_text r ++ [CH_LF]) as Et.
    { rewrite <- (take_app_le c unread) by lia. rewrite E.
      replace (line_text r ++ CH_LF :: rest) with ((line_text r ++ [CH_LF]) ++ rest)
        by (by rewrite <- app_assoc).
      rewrite take_app_le by (rewrite length_app; cbn; lia).
      apply take_ge. rewrite length_app. cbn. lia. }
    split.
    + rewrite Ec at 1. rewrite Et, <- app_assoc. done.
    + rewrite Ec, Et, <- !app_assoc in E. cbn in E. apply app_inv_head in E. by injection E.
Qed.

Lemma lines_has_lf m : lines m ≠ [] → CH_LF ∈ lines m.
Proof.
  destruct m as [|r m]; [done|]. rewrite lines_cons. intros _. apply lf_in_line.
Qed.

Lemma content_length b : buffer_ok b → Z.of_nat (length (content b)) = bb_length b.
Proof.
  intros [H1 H2 H3 H4]. unfold content. rewrite length_take, length_drop. lia.
Qed.

Lemma content_read b : buffer_ok b → read_at (bb_buffer b) (bb_current b) (bb_length b) = Some (content b).
Proof.
  intros [H1 H2 H3 H4]. unfold read_at.
  rewrite (proj2 (Z.ltb_ge _ 0)), (proj2 (Z.ltb_ge _ 0)), (proj2 (Z.ltb_ge _ _)) by lia. done.
Qed.

Lemma drop_S_cons {A} (l : list A) k x l' : drop k l = x :: l' → drop (S k) l = l' ∧ l !! k = Some x.
Proof.
  intros E. split.
  - replace (S k) with (k + 1)%nat by lia. rewrite <- drop_drop, E. done.
  - pose proof (lookup_drop l k 0) as H. rewrite E, Nat.add_0_r in H. by rewrite <- H.
Qed.

(** ** One line *)

Lemma lines_drop rs k r :
  rs !! k = Some r → lines (drop k rs) = line_text r ++ CH_LF :: lines (drop (S k) rs).
Proof. intros E. by rewrite (drop_S rs r k E), lines_cons. Qed.

Lemma lines_take_S rs k r :
  rs !! k = Some r → lines (take (S k) rs) = lines (take k rs) ++ record_line r.
Proof.
  intros E. rewrite (take_S_r rs k r E), lines_app. f_equal. unfold lines. cbn. by rewrite app_nil_r.
Qed.

(** What [trunk_binlog_do_line_read] does on the reader's content. *)
Definition advance (n : Z) (b : BinLogBuffer) : BinLogBuffer :=
  {| bb_buffer := bb_buffer b; bb_current := bb_current b + n; bb_length := bb_length b - n;
     bb_version := bb_version b |}.

Lemma content_advance n b :
  0 ≤ n ≤ bb_length b → 0 ≤ bb_current b → content (advance n b) = drop (Z.to_nat n) (content b).
Proof.
  intros. unfold content. cbn. rewrite skipn_firstn_comm, drop_drop.
  rewrite Z2Nat.inj_sub, Z2Nat.inj_add by lia. done.
Qed.

Lemma buffer_ok_advance n b : buffer_ok b → 0 ≤ n ≤ bb_length b → buffer_ok (advance n b).
Proof. intros [H1 H2 H3 H4] Hn. split; cbn; lia. Qed.

(** The next line is in the buffer, or the buffer holds less than a line. *)
Lemma follows_first pre rs k r :
  follows pre rs k r →
  (∃ rec c unread, rs !! k = Some rec ∧ content (binlog_buff r) = line_text rec ++ CH_LF :: c
     ∧ c ++ unread = lines (drop (S k) rs)) ∨
  (CH_LF ∉ content (binlog_buff r) ∧ bb_length (binlog_buff r) < 86).
Proof.
  intros F. destruct (fo_content _ _ _ _ F) as [unread E].
  pose proof (content_length _ (fo_buffer _ _ _ _ F)) as Hl.
  destruct (rs !! k) as [rec|] eqn:Ek.
  - rewrite (lines_drop _ _ _ Ek) in E.
    assert (record_ok rec) as Hrec.
    { pose proof (fo_records _ _ _ _ F) as Hrs. rewrite Forall_lookup in Hrs. by eapply Hrs. }
    destruct (first_line _ _ _ _ Hrec E) as [(c & Ec & Eu)|[Hlf Hlen]].
    + left. by exists rec, c, unread.
    + right. split; [done|]. pose proof (record_line_length rec Hrec). lia.
  - right. apply lookup_ge_None in Ek. rewrite drop_ge in E by done.
    apply app_eq_nil in E as [E _]. rewrite E in *. cbn in Hl. split; [apply not_elem_of_nil|lia].
Qed.

Lemma advance_line pre rs k r rec c unread :
  follows pre rs k r → rs !! k = Some rec →
  content (binlog_buff r) = line_text rec ++ CH_LF :: c → c ++ unread = lines (drop (S k) rs) →
  follows pre rs (S k) (set_buff (advance (Z.of_nat (length (record_line rec))) (binlog_buff r)) r).
Proof.
  intros F Ek Ec Eu. destruct F as [Hb Hk Hrs Hp Hc Hm].
  assert (length (record_line rec) = S (length (line_text rec))) as Hlen.
  { rewrite record_line_text, length_app. cbn. lia. }
  pose proof (content_length _ Hb) as Hl. rewrite Ec, length_app in Hl. cbn [length] in Hl.
  assert (content (advance (Z.of_nat (length (record_line rec))) (binlog_buff r)) = c) as Hadv.
  { rewrite content_advance; [|lia|apply Hb]. rewrite Ec, Nat2Z.id, Hlen.
    replace (line_text rec ++ CH_LF :: c) with ((line_text rec ++ [CH_LF]) ++ c)
      by (by rewrite <- app_assoc).
    apply drop_app_length'. rewrite length_app. cbn. lia. }
  apply lookup_lt_Some in Ek as Hlt. split; cbn [set_buff binlog_buff fd_pos].
  - apply buffer_ok_advance; [done|lia].
  - lia.
  - done.
  - rewrite Hp, (lines_take_S _ _ _ Ek), length_app. cbn. lia.
  - exists unread. by rewrite Hadv.
  - destruct Hm as [Hm|[(m & Hm & Em)|[_ Hm]]].
    + left. cbn. lia.
    + right; left. rewrite Ec in Em. destruct m as [|r' m].
      { cbn in Em. by apply app_eq_nil in Em as [_ ?]. }
      apply Forall_cons in Hm as [Hr' Hm']. exists m. split; [done|]. rewrite Hadv.
      rewrite lines_cons in Em. assert (record_ok rec) as Hrec.
      { rewrite Forall_lookup in Hrs. by eapply Hrs. }
      assert (∀ a b x y, CH_LF ∉ a → CH_LF ∉ b → a ++ CH_LF :: x = b ++ CH_LF :: y → x = y) as Hinj.
      { intros a b x y Ha Hb' E. apply strchr_lf_split with (rest := x) in Ha.
        apply strchr_lf_split with (rest := y) in Hb'. rewrite E in Ha. congruence. }
      eapply Hinj; [| |exact Em]; by apply line_text_no_lf.
    + exfalso. apply Hm. rewrite Ec. apply lf_in_line.
Qed.

(** [trunk_binlog_do_line_read] returns the next line when the buffer has
    it, ENOENT when it has not. *)
Lemma do_line_read_spec pre rs k r :
  follows pre rs k r →
  (∃ rec, rs !! k = Some rec ∧
     let r' := set_buff (advance (Z.of_nat (length (record_line rec))) (binlog_buff r)) r in
     trunk_binlog_do_line_read TRUNK_BINLOG_LINE_SIZE r
     = Some (0, record_line rec, Z.of_nat (length (record_line rec)), r') ∧ follows pre rs (S k) r') ∨
  (CH_LF ∉ content (binlog_buff r) ∧ bb_length (binlog_buff r) < 86 ∧
   trunk_binlog_do_line_read TRUNK_BINLOG_LINE_SIZE r = Some (ENOENT, [], 0, r)).
Proof.
  intros F. pose proof (fo_buffer _ _ _ _ F) as Hb. pose proof (content_length _ Hb) as Hl.
  unfold trunk_binlog_do_line_read.
  destruct (follows_first _ _ _ _ F) as [(rec & c & unread & Ek & Ec & Eu)|[Hlf Hlen]].
  - left. exists rec. split; [done|]. cbv zeta.
    assert (record_ok rec) as Hrec.
    { pose proof (fo_records _ _ _ _ F) as Hrs. rewrite Forall_lookup in Hrs. by eapply Hrs. }
    assert (length (record_line rec) = S (length (line_text rec))) as Hlen.
    { rewrite record_line_text, length_app. cbn. lia. }
    pose proof (record_line_length rec Hrec). split; [|by eapply advance_line].
    rewrite Ec, length_app in Hl. cbn [length] in Hl.
    rewrite (proj2 (Z.eqb_neq _ 0)) by lia. rewrite content_read by done. cbn [mbind option_bind].
    rewrite Ec, strchr_lf_split by (by apply line_text_no_lf).
    rewrite !length_app. cbn [length].
    replace (Z.of_nat (length (line_text rec) + S (length c) - S (length c)) + 1)
      with (Z.of_nat (length (record_line rec))) by lia.
    unfold TRUNK_BINLOG_LINE_SIZE. rewrite (proj2 (Z.leb_gt _ _)) by lia.
    do 3 f_equal. f_equal. rewrite Nat2Z.id, Hlen.
    replace (line_text rec ++ CH_LF :: c) with ((line_text rec ++ [CH_LF]) ++ c)
      by (by rewrite <- app_assoc).
    rewrite take_app_length' by (rewrite length_app; cbn; lia). by rewrite record_line_text.
  - right. split; [done|]. split; [lia|].
    destruct (Z.eqb_spec (bb_length (binlog_buff r)) 0); [done|].
    rewrite content_read by done. cbn [mbind option_bind].
    by rewrite (proj2 (strchr_None _ _)).
Qed.

(** ** Refilling the buffer *)

Lemma read_at_take mem o n :
  0 ≤ o → 0 ≤ n → o + n ≤ Z.of_nat (length mem) →
  read_at mem o n = Some (take (Z.to_nat n) (drop (Z.to_nat o) mem)).
Proof.
  intros. unfold read_at.
  rewrite (proj2 (Z.ltb_ge _ 0)), (proj2 (Z.ltb_ge _ 0)), (proj2 (Z.ltb_ge _ _)) by lia. done.
Qed.

(** The content as [preread_check] leaves it. *)
Lemma preread_check_spec pre rs k r v :
  follows pre rs k r →
  (bb_current (binlog_buff r) = 0 ∨
   (CH_LF ∉ content (binlog_buff r) ∧ bb_length (binlog_buff r) < 86)) →
  let b := binlog_buff r in
  (bb_version b = v ∧ bb_length b = 0 ∧ preread_check v b = Some (inl ENOENT)) ∨
  (bb_length b = TRUNK_BINLOG_BUFFER_SIZE ∧ preread_check v b = Some (inl 0)) ∨
  (bb_length b < TRUNK_BINLOG_BUFFER_SIZE ∧ ∃ b', preread_check v b = Some (inr (v, b')) ∧
   bb_current b' = 0 ∧ bb_length b' = bb_length b ∧ bb_version b' = bb_version b ∧
   content b' = content b ∧ follows pre rs k (set_buff b' r)).
Proof.
  intros F Hcur b. pose proof (fo_buffer _ _ _ _ F) as Hb. fold b in Hb, Hcur.
  pose proof (content_length b Hb) as Hl. pose proof (content_read b Hb) as Hread.
  unfold preread_check. destruct Hb as [H1 H2 H3 H4].
  destruct (Z.eqb_spec (bb_length b) 0) as [E0|E0].
  { destruct (Z.eqb_spec (bb_version b) v) as [Ev|Ev]; [by left|right; right]. cbn [andb].
    unfold TRUNK_BINLOG_BUFFER_SIZE in *. rewrite (proj2 (Z.eqb_neq (bb_length b) _)) by lia.
    split; [lia|]. rewrite E0.
    assert (content b = []) as Ec by (apply length_zero_iff_nil; lia).
    destruct (Z.eqb_spec (bb_current b) 0) as [Ez|Ez]; cbn.
    - exists b. split_and!; try done. destruct F. by split.
    - eexists. split; [done|]. cbn. unfold content at 1. cbn.
      rewrite Ec. split_and!; try done. destruct F as [_ ? ? Hp Hc _].
      split; cbn; try done.
      + rewrite Hp. fold b. lia.
      + fold b in Hc. rewrite Ec in Hc. exact Hc.
      + right; left. by exists []. }
  rewrite andb_false_r.
  destruct (Z.eqb_spec (bb_length b) TRUNK_BINLOG_BUFFER_SIZE) as [Ef|Ef]; [by right; left|right; right].
  split; [lia|]. destruct (Z.eqb_spec (bb_current b) 0) as [Ez|Ez]; cbn [negb].
  { exists b. split_and!; try done. destruct F. by split. }
  destruct Hcur as [?|[Hlf Hlen]]; [done|]. rewrite (proj2 (Z.ltb_lt 0 _)) by lia.
  assert (bb_current b + bb_length b = TRUNK_BINLOG_BUFFER_SIZE) as Hend.
  { destruct (fo_movable _ _ _ _ F) as [?|[(m & Hm & Em)|[? _]]]; [done| |done].
    exfalso. apply Hlf. fold b in Em. rewrite Em. apply lines_has_lf.
    intros E. rewrite Em, E in Hl. cbn in Hl. lia. }
  unfold memcpy_within, TRUNK_BINLOG_BUFFER_SIZE in *. rewrite Hread.
  cbn [mbind option_bind]. rewrite (proj2 (Z.ltb_ge 0 0)) by lia.
  rewrite (proj2 (Z.ltb_ge (Z.of_nat _) _)) by lia.
  rewrite (proj2 (Z.ltb_ge (bb_current b) _)) by lia. rewrite andb_false_r. cbn [orb Z.add].
  eexists. split; [done|]. cbn [bb_current bb_length bb_version].
  change (take (Z.to_nat 0) (bb_buffer b)) with (@nil Z). cbn [app].
  match goal with |- _ ∧ _ ∧ _ ∧ content ?x = _ ∧ _ => assert (content x = content b) as Ec end.
  { unfold content at 1. cbn. apply take_app_length'. lia. }
  split_and!; try done. destruct F as [_ ? ? Hp Hc _]. split; cbn; try done.
  - split; cbn; unfold TRUNK_BINLOG_BUFFER_SIZE; try lia. rewrite length_app, length_drop. lia.
  - rewrite Ec. exact Hc.
  - right; right. by rewrite Ec.
Qed.

Lemma follows_file pre rs k r :
  follows pre rs k r →
  ∃ unread, content (binlog_buff r) ++ unread = lines (drop k rs) ∧
    drop (Z.to_nat (fd_pos r)) (pre ++ lines rs) = unread ∧
    Z.of_nat (length (pre ++ lines rs)) = fd_pos r + Z.of_nat (length unread).
Proof.
  intros F. destruct (fo_content _ _ _ _ F) as [unread E]. exists unread. split; [done|].
  pose proof (content_length _ (fo_buffer _ _ _ _ F)) as Hl.
  assert (pre ++ lines rs = (pre ++ lines (take k rs) ++ content (binlog_buff r)) ++ unread) as Ef.
  { rewrite <- !app_assoc, E, <- lines_app, take_drop. done. }
  rewrite (fo_pos _ _ _ _ F), Ef. split.
  - apply drop_app_length'. rewrite !length_app. lia.
  - rewrite !length_app. lia.
Qed.

(** What the reader's buffer is after [data] was read behind its content. *)
Lemma preread_fill_spec pre rs k r saved :
  follows pre rs k r → bb_current (binlog_buff r) = 0 →
  bb_length (binlog_buff r) < TRUNK_BINLOG_BUFFER_SIZE →
  let f := pre ++ lines rs in
  (fd_pos r = Z.of_nat (length f) ∧ ∃ b', preread_fill None f saved r = Some (ENOENT, set_buff b' r) ∧
     bb_current b' = 0 ∧ bb_length b' = bb_length (binlog_buff r) ∧
     content b' = content (binlog_buff r) ∧ bb_version b' = saved ∧ follows pre rs k (set_buff b' r)) ∨
  (fd_pos r < Z.of_nat (length f) ∧ ∃ r', preread_fill None f saved r = Some (0, r') ∧
     bb_current (binlog_buff r') = 0 ∧ bb_length (binlog_buff r) < bb_length (binlog_buff r') ∧
     fd_pos r < fd_pos r' ∧ bb_version (binlog_buff r') = bb_version (binlog_buff r) ∧
     binlog_offset r' = binlog_offset r ∧
     CH_LF ∈ content (binlog_buff r') ∧ follows pre rs k r').
Proof.
  intros F Hcur Hlt f. destruct (follows_file _ _ _ _ F) as (unread & Eu & Ed & Elen).
  destruct F as [Hb Hk Hrs Hp Hc Hm]. pose proof (content_length _ Hb) as Hl.
  set (b := binlog_buff r) in *. unfold preread_fill. fold b. cbv zeta. unfold fd_read, f. rewrite Ed.
  set (data := take (Z.to_nat (TRUNK_BINLOG_BUFFER_SIZE - bb_length b)) unread).
  destruct Hb as [H1 H2 H3 H4].
  assert (length data = Nat.min (Z.to_nat (TRUNK_BINLOG_BUFFER_SIZE - bb_length b)) (length unread))
    as Hdata by (unfold data; by rewrite length_take).
  destruct (Z.eqb_spec (Z.of_nat (length data)) 0) as [E0|E0].
  - left. split; [lia|]. eexists. split; [unfold set_buff; done|]. cbn.
    split_and!; try done.
  - right. split; [lia|].
    rewrite (proj2 (Z.ltb_ge _ _)), (proj2 (Z.ltb_ge _ _)) by lia. cbn [orb].
    eexists. split; [done|]. cbn.
    match goal with |- _ ∧ _ ∧ _ ∧ _ ∧ _ ∧ _ ∈ content ?x ∧ _ => set (b' := x) end.
    assert (content b' = content b ++ data) as Ec.
    { unfold content, b'. cbn. rewrite Hcur. change (Z.to_nat 0) with O. rewrite !drop_0.
      rewrite app_assoc. apply take_app_length'. rewrite length_app, length_take. lia. }
    assert (buffer_ok b') as Hb'.
    { split; unfold b'; cbn; try lia. rewrite !length_app, length_take, length_drop. lia. }
    assert (bb_length b' = TRUNK_BINLOG_BUFFER_SIZE ∨ ∃ m, Forall record_ok m ∧ content b' = lines m) as Hs.
    { destruct (decide (bb_length b' = TRUNK_BINLOG_BUFFER_SIZE)) as [E|E]; [by left|right].
      exists (drop k rs). split; [by apply Forall_drop|].
      rewrite Ec, <- Eu. f_equal. unfold data. apply take_ge. unfold b' in E. cbn in E. lia. }
    assert (movable b') as Hm'.
    { destruct Hs as [E|E]; [left|by right; left]. unfold b' in *. cbn in *. lia. }
    assert (follows pre rs k {| binlog_buff := b'; fd_pos := fd_pos r + Z.of_nat (length data);
              binlog_offset := binlog_offset r |}) as F'.
    { split; try done; cbn.
      - rewrite Hp. unfold b'. cbn. lia.
      - exists (drop (length data) unread). rewrite Ec, <- Eu, <- app_assoc. f_equal.
        unfold data. rewrite length_take. rewrite <- (take_drop (Z.to_nat (TRUNK_BINLOG_BUFFER_SIZE - bb_length b)) unread) at 4.
        f_equal. destruct (decide (Z.to_nat (TRUNK_BINLOG_BUFFER_SIZE - bb_length b) ≤ length unread)%nat).
        + by rewrite Nat.min_l by done.
        + rewrite Nat.min_r by lia. rewrite !drop_ge by lia. done. }
    split_and!; try done; [unfold b'; cbn; lia|lia|].
    pose proof (content_length _ Hb') as Hl'.
    destruct Hs as [E|(m & _ & Em)].
    + destruct (follows_first _ _ _ _ F') as [(rec & c & un & _ & Er & _)|[_ Hlen]]; cbn [binlog_buff] in *.
      * rewrite Er. apply lf_in_line.
      * unfold TRUNK_BINLOG_BUFFER_SIZE in *. lia.
    + rewrite Em. apply lines_has_lf. rewrite <- Em. intros E. rewrite E in Hl'.
      unfold b' in Hl'. cbn in Hl'. lia.
Qed.

(** ** Reading a binlog back *)

(** The version check of [trunk_binlog_preread] may only stop a reader that
    has read the whole file. *)
Definition up_to_date (s : trunk_binlog) (r : TrunkBinLogReader) : Prop :=
  bb_version (binlog_buff r) = write_version s → fd_pos r = Z.of_nat (length (binlog_file s)).

Lemma parse_lines_ok rs k rec :
  Forall record_ok rs → rs !! k = Some rec → parse_record (record_line rec) = Some (logged rec).
Proof. intros Hrs Ek. apply parse_record_line. rewrite Forall_lookup in Hrs. by eapply Hrs. Qed.

Lemma trunk_binlog_read_spec pre rs k r s :
  follows pre rs k r → binlog_file s = pre ++ lines rs → up_to_date s r →
  ∃ r', up_to_date s r' ∧
    match rs !! k with
    | Some rec =>
        trunk_binlog_read None s r = Some (0, Some (logged rec), Z.of_nat (length (record_line rec)), r')
        ∧ follows pre rs (S k) r'
    | None => trunk_binlog_read None s r = Some (ENOENT, None, 0, r') ∧ follows pre rs k r'
    end.
Proof.
  intros F Hf Hv. unfold trunk_binlog_read, trunk_binlog_read_line.
  destruct (do_line_read_spec _ _ _ _ F) as [(rec & Ek & Er & F')|(Hlf & Hlen & ->)].
  { cbv zeta in Er. eexists. rewrite Ek, Er. cbn.
    rewrite (parse_lines_ok rs k rec) by (done || apply F). split; [|done]. exact Hv. }
  cbn [mbind option_bind]. change (negb (ENOENT =? ENOENT)) with false. cbv iota. unfold trunk_binlog_preread.
  destruct (preread_check_spec _ _ _ _ (write_version s) F ltac:(by right))
    as [(Ev & E0 & ->)|[[Efull _]|(Hlt & b' & -> & Hc & Hl' & Hver & Hcon & F')]].
  - destruct (follows_file _ _ _ _ F) as (unread & Eu & _ & Elen).
    rewrite <- Hf, (Hv Ev) in Elen. assert (unread = []) as -> by (apply length_zero_iff_nil; lia).
    pose proof (content_length _ (fo_buffer _ _ _ _ F)) as Hl.
    assert (content (binlog_buff r) = []) as Ec by (apply length_zero_iff_nil; lia).
    rewrite Ec in Eu. cbn in Eu. exists r. split; [done|].
    destruct (rs !! k) as [rec|] eqn:Ek; [|done].
    rewrite (lines_drop _ _ _ Ek) in Eu. by destruct (line_text rec).
  - unfold TRUNK_BINLOG_BUFFER_SIZE in *. lia.
  - cbn [mbind option_bind]. rewrite Hf.
    destruct (preread_fill_spec _ _ _ _ (write_version s) F' Hc ltac:(cbn; lia))
      as [(Hp & b'' & -> & _ & Hl'' & Hcon'' & _ & F'')|(Hp & r' & -> & _ & _ & _ & Hver' & _ & Hin & F'')];
      cbn [mbind option_bind set_buff fd_pos] in *.
    + cbn. exists (set_buff b'' (set_buff b' r)). split; [intros _; rewrite Hf; exact Hp|].
      destruct (follows_file _ _ _ _ F') as (unread & Eu & _ & Elen). cbn [set_buff fd_pos binlog_buff] in *.
      assert (unread = []) as -> by (apply length_zero_iff_nil; lia).
      rewrite app_nil_r, Hcon in Eu. destruct (rs !! k) as [rec|] eqn:Ek; [|done].
      exfalso. apply Hlf. rewrite Eu, (lines_drop _ _ _ Ek). apply lf_in_line.
    + destruct (do_line_read_spec _ _ _ _ F'') as [(rec & Ek & Er & F3)|(Hlf' & _)]; [|done].
      cbv zeta in Er. eexists. rewrite Ek. cbn. rewrite Er. cbn.
      rewrite (parse_lines_ok rs k rec) by (done || apply F). split; [|done].
      unfold up_to_date. cbn. intros Ev. cbn in Hver'. rewrite Hver', Hver in Ev. apply Hv in Ev.
      rewrite Hf in Ev. lia.
Qed.

(** [n] calls of [trunk_binlog_read]. *)
Fixpoint read_records (n : nat) (s : trunk_binlog) (r : TrunkBinLogReader)
    : option (list (Z * option TrunkBinLogRecord)) :=
  match n with
  | O => Some []
  | S n =>
      '(result, rec, _, r) ← trunk_binlog_read None s r;
      rest ← read_records n s r;
      Some ((result, rec) :: rest)
  end.

Lemma read_records_spec pre rs k r s :
  follows pre rs k r → binlog_file s = pre ++ lines rs → up_to_date s r →
  read_records (S (length rs - k)) s r
  = Some (((λ rec, (0, Some (logged rec))) <$> drop k rs) ++ [(ENOENT, None)]).
Proof.
  intros F Hf Hv. pose proof (fo_count _ _ _ _ F) as Hk.
  remember (length rs - k)%nat as n eqn:En. revert k r F Hv Hk En.
  induction n as [|n IH]; intros k r F Hv Hk En.
  - destruct (trunk_binlog_read_spec _ _ _ _ _ F Hf Hv) as (r' & _ & H).
    rewrite lookup_ge_None_2 in H by lia. destruct H as [H _]. cbn. rewrite H.
    rewrite drop_ge by lia. done.
  - destruct (trunk_binlog_read_spec _ _ _ _ _ F Hf Hv) as (r' & Hv' & H).
    destruct (lookup_lt_is_Some_2 rs k) as [rec Ek]; [lia|]. rewrite Ek in H. destruct H as [H F'].
    change (read_records (S (S n)) s r) with
      ('(result, rec, _, r) ← trunk_binlog_read None s r;
       rest ← read_records (S n) s r; Some ((result, rec) :: rest)).
    rewrite H. cbn [mbind option_bind]. rewrite (IH _ _ F' Hv') by lia. cbn [mbind option_bind].
    by rewrite (drop_S rs rec k Ek).
Qed.

(** A reader that has just opened the binlog: [stale] is the content of the
    buffer that [malloc] returned. *)
Definition reader_start (stale : list Z) (offset : Z) : TrunkBinLogReader :=
  {| binlog_buff := {| bb_buffer := stale; bb_current := 0; bb_length := 0; bb_version := 0 |};
     fd_pos := offset; binlog_offset := offset |}.

Lemma reader_start_follows stale pre rs :
  Z.of_nat (length stale) = TRUNK_BINLOG_BUFFER_SIZE → Forall record_ok rs →
  follows pre rs 0 (reader_start stale (Z.of_nat (length pre))).
Proof.
  intros Hs Hrs. split; cbn; try done; try lia.
  - change (lines (take 0 rs)) with (@nil Z). cbn. lia.
  - by exists (lines rs).
  - right; left. by exists [].
Qed.

Lemma binlog_exec_version c s result s' :
  binlog_exec c s = Some (result, s') →
  write_version s' = write_version s ∨ write_version s' = s32 (write_version s + 1).
Proof.
  assert (∀ o s, write_version (trunk_binlog_fsync o s).2 = write_version s ∨
            write_version (trunk_binlog_fsync o s).2 = s32 (write_version s + 1)) as Hf.
  { intros o t. unfold trunk_binlog_fsync, trunk_binlog_fsync_ex, fsync_commit.
    destruct (fsync_write _ _ _ _) as [ret file]. destruct (ret =? 0); cbn; auto. }
  destruct c as [o r|o]; cbn.
  - unfold log_record, trunk_binlog_write, cache_line. destruct (_ <? _); cbn; [done|].
    destruct (_ <? 128); [intros [= E]|intros [= <- <-]; by left].
    match type of E with trunk_binlog_fsync _ ?t = _ => specialize (Hf o t) end. by rewrite E in Hf.
  - unfold trunk_binlog_sync_func. destruct (0 <? _); [intros [= E]|intros [= <- <-]; by left].
    specialize (Hf o s). by rewrite E in Hf.
Qed.

Lemma binlog_run_version cs s results s' n :
  binlog_run cs s = Some (results, s') → 1 ≤ write_version s ≤ n → n + Z.of_nat (length cs) ≤ INT_MAX →
  1 ≤ write_version s' ≤ n + Z.of_nat (length cs).
Proof.
  revert s results n. induction cs as [|c cs IH]; intros s results n E Hn Hb.
  { injection E as _ <-. cbn. lia. }
  cbn [binlog_run] in E. destruct (binlog_exec c s) as [[result s1]|] eqn:E1; [|done].
  cbn [mbind option_bind] in E. destruct (binlog_run cs s1) as [[results' s2]|] eqn:E2; [|done].
  injection E as _ <-. cbn [length] in *.
  assert (1 ≤ write_version s1 ≤ n + 1) as Hv1.
  { unfold INT_MAX in Hb. destruct (binlog_exec_version _ _ _ _ E1) as [->| ->]; [lia|].
    rewrite s32_id by (unfold is_int32; lia). lia. }
  pose proof (IH _ _ (n + 1) E2 Hv1 ltac:(lia)). lia.
Qed.

(** C14 Start-up reads back what was logged: after any sequence of successful
    [trunk_binlog_write] and timer calls and a flush, a reader of the binlog
    returns one record per call, those logged and in that order, and then
    ENOENT. *)
Theorem trunk_binlog_replay cs o stale :
  Forall call_ok cs → io_ok o → Z.of_nat (length cs) < INT_MAX - 1 →
  Z.of_nat (length stale) = TRUNK_BINLOG_BUFFER_SIZE →
  ∃ s, binlog_run (cs ++ [SyncTimer o]) empty_binlog = Some (replicate (S (length cs)) 0, s) ∧
    read_records (S (length (records_of cs))) s (reader_start stale 0)
    = Some (((λ rec, (0, Some (logged rec))) <$> records_of cs) ++ [(ENOENT, None)]).
Proof.
  intros Hcs Ho Hlen Hst.
  assert (cache_has_room empty_binlog) as H0.
  { unfold cache_has_room, trunk_binlog_write_cache_len, TRUNK_BINLOG_BUFFER_SIZE. cbn. lia. }
  destruct (binlog_run_ok (cs ++ [SyncTimer o]) empty_binlog) as (s & E & Hroom & Hw);
    [apply Forall_app; split; [done|by apply Forall_singleton]|done|].
  rewrite length_app, Nat.add_1_r in E. exists s. split; [exact E|].
  assert (∀ l, records_of (l ++ [SyncTimer o]) = records_of l) as Hrec.
  { intros l. induction l as [|[] l IH]; cbn; by rewrite ?IH. }
  rewrite Hrec in Hw. cbn in Hw.
  destruct (binlog_run_ok cs empty_binlog Hcs H0) as (s1 & E1 & Hr1 & Hw1). cbn in Hw1.
  destruct (trunk_binlog_sync_func_ok o s1 Ho Hr1) as (_ & Hf & Hc).
  assert (s = (trunk_binlog_sync_func o s1).2) as ->.
  { assert (∀ l t t1 rr, binlog_run l t = Some (rr, t1) →
      ∃ rr', binlog_run (l ++ [SyncTimer o]) t = Some (rr', (trunk_binlog_sync_func o t1).2)) as Happ.
    { induction l as [|c l IHl]; intros t t1 rr El.
      - injection El as _ ->. cbn. destruct (trunk_binlog_sync_func o t1) as [q t2]. by exists [q].
      - cbn [binlog_run app] in *. destruct (binlog_exec c t) as [[q t2]|]; [|done]. cbn [mbind option_bind] in *.
        destruct (binlog_run l t2) as [[rr2 t3]|] eqn:E3; [|done]. injection El as _ <-.
        destruct (IHl _ _ _ E3) as [rr' ->]. by eexists. }
    destruct (Happ _ _ _ _ E1) as [rr' E']. congruence. }
  pose proof (binlog_run_version _ _ _ _ 1 E ltac:(cbn; lia)
    ltac:(rewrite length_app; cbn; unfold INT_MAX in *; lia)) as Hv.
  assert (Forall record_ok (records_of cs)) as Hrs.
  { clear -Hcs. induction Hcs as [|[o r|o] cs Hc Hcs IH]; cbn; [done| |done].
    constructor; [by apply Hc|done]. }
  rewrite <- (Nat.sub_0_r (length (records_of cs))). rewrite (read_records_spec [] (records_of cs) 0).
  - done.
  - by apply (reader_start_follows stale []).
  - rewrite Hf, Hw1. done.
  - unfold up_to_date. cbn. intros Hz. rewrite <- Hz in Hv. lia.
Qed.

Lemma trunk_binlog_replay_witness :
  let cs := LogRecord sample_io <$> (sample_record <$> [0; 4096]) in
  ∃ s, binlog_run (cs ++ [SyncTimer sample_io]) empty_binlog = Some ([0; 0; 0], s) ∧
    read_records 3 s (reader_start (replicate (Z.to_nat TRUNK_BINLOG_BUFFER_SIZE) 0) 0)
    = Some [(0, Some (sample_record 0)); (0, Some (sample_record 4096)); (ENOENT, None)].
Proof.
  cbv zeta. destruct (trunk_binlog_replay (LogRecord sample_io <$> (sample_record <$> [0; 4096])) sample_io
    (replicate (Z.to_nat TRUNK_BINLOG_BUFFER_SIZE) 0)) as (s & H1 & H2).
  - repeat constructor; try done; try (by left).
  - done.
  - vm_compute. done.
  - rewrite length_replicate. vm_compute. done.
  - exists s. split; [exact H1|]. etrans; [exact H2|]. vm_compute. reflexivity.
Defined.
