(* ===== verification/TrunkMem.v ===== *)
(** * storage/trunk_mgr/trunk_mem.c: the allocator of trunk space

    The trunk server keeps the free and the held blocks of all trunk files:
    per store path an AVL tree of slots, one per block size, each with the
    chain of the blocks of that size; the index of blocks by trunk file
    (FreeBlockChecker.v), which refuses overlaps; the total of the sizes;
    and the binlog every change is written to.

    Nodes live in a heap [nodes] of addresses handed out by the pool
    [free_blocks_man] (FastMblock.v); a node that was given back keeps its
    content, as in the C program.  A slot is the data of its tree node,
    changed in place by [avl_tree_store].  [None] is undefined behaviour.

    Everything the program does not decide (allocation failures, the kernel,
    the clock, the result of writing the storage's ini file) is the [n]-th
    answer [env n] of the environment, asked for in the order of the code. *)

From stdpp Require Import strings.
From S2P Require Import Prelude LinkedList RankList AvlTree CLib SharedFunc Base64 TrunkShared FastMblock.
From S2P Require Import TrunkFile FdfsShared StorePath FreeBlockChecker TrunkBinlog.
#[local] Open Scope Z_scope.

(** ** Data *)

Record FDFSTrunkNode := {
  n_trunk : FDFSTrunkFullInfo;
  n_pMblockNode : positive;
  n_next : option positive;
}.

Record FDFSTrunkSlot := {
  slot_size : Z;
  slot_head : option positive;
  slot_pMblockNode : positive;
}.

(** [sizeof] of the two structs. *)
Definition sizeof_FDFSTrunkNode : Z := 32.
Definition sizeof_FDFSTrunkSlot : Z := 24.

Definition STORAGE_TRUNK_INIT_FLAG_NONE : Z := 0.
Definition STORAGE_TRUNK_INIT_FLAG_DESTROYING : Z := 1.
Definition STORAGE_TRUNK_INIT_FLAG_DONE : Z := 2.

Record trunk_config := {
  g_slot_min_size : Z;
  g_slot_max_size : Z;
  g_trunk_file_size : Z;
  g_if_trunker_self : bool;
  g_trunk_create_file_advance : bool;
  g_trunk_create_file_space_threshold : Z;
  g_store : store_config;
}.

(** One answer of the environment. *)
Record outcome := {
  o_malloc_ok : bool;       (* malloc in [fast_mblock_prealloc] *)
  o_errno : Z;              (* errno when it fails *)
  o_index : alloc_outcome;  (* malloc and realloc in the two indexes *)
  o_io : io_outcome;        (* the binlog *)
  o_now : Z;                (* g_current_time *)
  o_ini : Z;                (* storage_write_to_sync_ini_file *)
  o_kernel : kernel;        (* trunk_init_file *)
}.

Record trunk_state := {
  nodes : gmap positive FDFSTrunkNode;
  free_blocks_man : fast_mblock_man;
  tree_nodes_man : fast_mblock_man;
  tree_info_by_sizes : list (AVLTreeInfo FDFSTrunkSlot unit);
  tree_info_by_id : id_tree;
  g_trunk_total_free_space : Z;
  g_current_trunk_file_id : Z;
  trunk_init_flag : Z;
  binlog : trunk_binlog;
  dist : dist_state;
  trunk_files : gmap (list Z) (list Z);
  ticks : nat;
}.

Definition set_nodes (x : gmap positive FDFSTrunkNode) (s : trunk_state) : trunk_state :=
  {| nodes := x; free_blocks_man := free_blocks_man s; tree_nodes_man := tree_nodes_man s;
     tree_info_by_sizes := tree_info_by_sizes s; tree_info_by_id := tree_info_by_id s;
     g_trunk_total_free_space := g_trunk_total_free_space s;
     g_current_trunk_file_id := g_current_trunk_file_id s; trunk_init_flag := trunk_init_flag s;
     binlog := binlog s; dist := dist s; trunk_files := trunk_files s; ticks := ticks s |}.
Definition set_free_blocks_man (x : fast_mblock_man) (s : trunk_state) : trunk_state :=
  {| nodes := nodes s; free_blocks_man := x; tree_nodes_man := tree_nodes_man s;
     tree_info_by_sizes := tree_info_by_sizes s; tree_info_by_id := tree_info_by_id s;
     g_trunk_total_free_space := g_trunk_total_free_space s;
     g_current_trunk_file_id := g_current_trunk_file_id s; trunk_init_flag := trunk_init_flag s;
     binlog := binlog s; dist := dist s; trunk_files := trunk_files s; ticks := ticks s |}.
Definition set_tree_nodes_man (x : fast_mblock_man) (s : trunk_state) : trunk_state :=
  {| nodes := nodes s; free_blocks_man := free_blocks_man s; tree_nodes_man := x;
     tree_info_by_sizes := tree_info_by_sizes s; tree_info_by_id := tree_info_by_id s;
     g_trunk_total_free_space := g_trunk_total_free_space s;
     g_current_trunk_file_id := g_current_trunk_file_id s; trunk_init_flag := trunk_init_flag s;
     binlog := binlog s; dist := dist s; trunk_files := trunk_files s; ticks := ticks s |}.
Definition set_tree_info_by_sizes (x : list (AVLTreeInfo FDFSTrunkSlot unit)) (s : trunk_state) : trunk_state :=
  {| nodes := nodes s; free_blocks_man := free_blocks_man s; tree_nodes_man := tree_nodes_man s;
     tree_info_by_sizes := x; tree_info_by_id := tree_info_by_id s;
     g_trunk_total_free_space := g_trunk_total_free_space s;
     g_current_trunk_file_id := g_current_trunk_file_id s; trunk_init_flag := trunk_init_flag s;
     binlog := binlog s; dist := dist s; trunk_files := trunk_files s; ticks := ticks s |}.
Definition set_tree_info_by_id (x : id_tree) (s : trunk_state) : trunk_state :=
  {| nodes := nodes s; free_blocks_man := free_blocks_man s; tree_nodes_man := tree_nodes_man s;
     tree_info_by_sizes := tree_info_by_sizes s; tree_info_by_id := x;
     g_trunk_total_free_space := g_trunk_total_free_space s;
     g_current_trunk_file_id := g_current_trunk_file_id s; trunk_init_flag := trunk_init_flag s;
     binlog := binlog s; dist := dist s; trunk_files := trunk_files s; ticks := ticks s |}.
Definition set_g_trunk_total_free_space (x : Z) (s : trunk_state) : trunk_state :=
  {| nodes := nodes s; free_blocks_man := free_blocks_man s; tree_nodes_man := tree_nodes_man s;
     tree_info_by_sizes := tree_info_by_sizes s; tree_info_by_id := tree_info_by_id s;
     g_trunk_total_free_space := x; g_current_trunk_file_id := g_current_trunk_file_id s;
     trunk_init_flag := trunk_init_flag s; binlog := binlog s; dist := dist s;
     trunk_files := trunk_files s; ticks := ticks s |}.
Definition set_g_current_trunk_file_id (x : Z) (s : trunk_state) : trunk_state :=
  {| nodes := nodes s; free_blocks_man := free_blocks_man s; tree_nodes_man := tree_nodes_man s;
     tree_info_by_sizes := tree_info_by_sizes s; tree_info_by_id := tree_info_by_id s;
     g_trunk_total_free_space := g_trunk_total_free_space s; g_current_trunk_file_id := x;
     trunk_init_flag := trunk_init_flag s; binlog := binlog s; dist := dist s;
     trunk_files := trunk_files s; ticks := ticks s |}.
Definition set_trunk_init_flag (x : Z) (s : trunk_state) : trunk_state :=
  {| nodes := nodes s; free_blocks_man := free_blocks_man s; tree_nodes_man := tree_nodes_man s;
     tree_info_by_sizes := tree_info_by_sizes s; tree_info_by_id := tree_info_by_id s;
     g_trunk_total_free_space := g_trunk_total_free_space s;
     g_current_trunk_file_id := g_current_trunk_file_id s; trunk_init_flag := x;
     binlog := binlog s; dist := dist s; trunk_files := trunk_files s; ticks := ticks s |}.
Definition set_binlog (x : trunk_binlog) (s : trunk_state) : trunk_state :=
  {| nodes := nodes s; free_blocks_man := free_blocks_man s; tree_nodes_man := tree_nodes_man s;
     tree_info_by_sizes := tree_info_by_sizes s; tree_info_by_id := tree_info_by_id s;
     g_trunk_total_free_space := g_trunk_total_free_space s;
     g_current_trunk_file_id := g_current_trunk_file_id s; trunk_init_flag := trunk_init_flag s;
     binlog := x; dist := dist s; trunk_files := trunk_files s; ticks := ticks s |}.
Definition set_dist (x : dist_state) (s : trunk_state) : trunk_state :=
  {| nodes := nodes s; free_blocks_man := free_blocks_man s; tree_nodes_man := tree_nodes_man s;
     tree_info_by_sizes := tree_info_by_sizes s; tree_info_by_id := tree_info_by_id s;
     g_trunk_total_free_space := g_trunk_total_free_space s;
     g_current_trunk_file_id := g_current_trunk_file_id s; trunk_init_flag := trunk_init_flag s;
     binlog := binlog s; dist := x; trunk_files := trunk_files s; ticks := ticks s |}.
Definition set_trunk_files (x : gmap (list Z) (list Z)) (s : trunk_state) : trunk_state :=
  {| nodes := nodes s; free_blocks_man := free_blocks_man s; tree_nodes_man := tree_nodes_man s;
     tree_info_by_sizes := tree_info_by_sizes s; tree_info_by_id := tree_info_by_id s;
     g_trunk_total_free_space := g_trunk_total_free_space s;
     g_current_trunk_file_id := g_current_trunk_file_id s; trunk_init_flag := trunk_init_flag s;
     binlog := binlog s; dist := dist s; trunk_files := x; ticks := ticks s |}.
Definition set_ticks (x : nat) (s : trunk_state) : trunk_state :=
  {| nodes := nodes s; free_blocks_man := free_blocks_man s; tree_nodes_man := tree_nodes_man s;
     tree_info_by_sizes := tree_info_by_sizes s; tree_info_by_id := tree_info_by_id s;
     g_trunk_total_free_space := g_trunk_total_free_space s;
     g_current_trunk_file_id := g_current_trunk_file_id s; trunk_init_flag := trunk_init_flag s;
     binlog := binlog s; dist := dist s; trunk_files := trunk_files s; ticks := x |}.

(** The nodes as the blocks checker sees them. *)
Definition heap_of (s : trunk_state) : heap := n_trunk <$> nodes s.
Definition next_field (s : trunk_state) : positive → option (option positive) := λ a, n_next <$> nodes s !! a.

Definition zero_info : FDFSTrunkFullInfo :=
  {| status := 0; path := {| store_path_index := 0; sub_path_high := 0; sub_path_low := 0 |};
     file := {| tf_id := 0; tf_offset := 0; tf_size := 0 |} |}.

(** What the memory of a new node holds: the pool clears it at first. *)
Definition node_memory (s : trunk_state) (a : positive) : FDFSTrunkNode :=
  default {| n_trunk := zero_info; n_pMblockNode := a; n_next := None |} (nodes s !! a).

Definition with_next (p : option positive) (n : FDFSTrunkNode) : FDFSTrunkNode :=
  {| n_trunk := n_trunk n; n_pMblockNode := n_pMblockNode n; n_next := p |}.
Definition with_trunk (i : FDFSTrunkFullInfo) (n : FDFSTrunkNode) : FDFSTrunkNode :=
  {| n_trunk := i; n_pMblockNode := n_pMblockNode n; n_next := n_next n |}.
Definition with_status (st : Z) (i : FDFSTrunkFullInfo) : FDFSTrunkFullInfo :=
  {| status := st; path := path i; file := file i |}.
Definition with_file (f : FDFSTrunkFileInfo) (i : FDFSTrunkFullInfo) : FDFSTrunkFullInfo :=
  {| status := status i; path := path i; file := f |}.
Definition with_size (sz : Z) (i : FDFSTrunkFullInfo) : FDFSTrunkFullInfo :=
  with_file {| tf_id := tf_id (file i); tf_offset := tf_offset (file i); tf_size := sz |} i.
Definition with_head (p : option positive) (e : FDFSTrunkSlot) : FDFSTrunkSlot :=
  {| slot_size := slot_size e; slot_head := p; slot_pMblockNode := slot_pMblockNode e |}.

Definition storage_trunk_node_compare_size (p1 p2 : FDFSTrunkSlot) : Z :=
  s32 (slot_size p1 - slot_size p2).

(** Only the size of a search target is read. *)
Definition target_slot (size : Z) : FDFSTrunkSlot :=
  {| slot_size := size; slot_head := None; slot_pMblockNode := 1 |}.

(** The 16 bytes of an [FDFSTrunkFullInfo], which has no padding. *)
Definition info_bytes (i : FDFSTrunkFullInfo) : list Z :=
  [u8 (status i); store_path_index (path i); sub_path_high (path i); sub_path_low (path i)]
  ++ int_bytes_le (tf_id (file i)) ++ int_bytes_le (tf_offset (file i)) ++ int_bytes_le (tf_size (file i)).

Definition same_info (x y : FDFSTrunkFullInfo) : bool := memcmp (info_bytes x) (info_bytes y) =? 0.

(** The polls of [trunk_wait_file_ready] are 5 ms apart: its 10 seconds are
    over after 2,000 of them. *)
Definition WAIT_POLLS : nat := 3000.

Section allocator.
Context (cfg : trunk_config) (env : nat → outcome).

(** ** Primitives *)

Definition tick : prog trunk_state outcome :=
  s ← get;
  modify (set_ticks (S (ticks s)));;
  mret (env (ticks s)).

Definition node_at (a : positive) : prog trunk_state FDFSTrunkNode :=
  s ← get; deref (nodes s !! a).

Definition store_node (a : positive) (n : FDFSTrunkNode) : prog trunk_state unit :=
  modify (λ s, set_nodes (<[a := n]> (nodes s)) s).

Definition update_node (a : positive) (f : FDFSTrunkNode → FDFSTrunkNode) : prog trunk_state unit :=
  n ← node_at a; store_node a (f n).

Definition size_tree (i : Z) : prog trunk_state (AVLTreeInfo FDFSTrunkSlot unit) :=
  s ← get; deref (tree_info_by_sizes s !! Z.to_nat i).

Definition store_size_tree (i : Z) (t : AVLTreeInfo FDFSTrunkSlot unit) : prog trunk_state unit :=
  modify (λ s, set_tree_info_by_sizes (<[Z.to_nat i := t]> (tree_info_by_sizes s)) s).

Definition add_total (delta : Z) : prog trunk_state unit :=
  modify (λ s, set_g_trunk_total_free_space (s64 (g_trunk_total_free_space s + delta)) s).

(** Another component's state. *)
Definition on_dist {A} (p : prog dist_state A) : prog trunk_state A :=
  λ s, match p (dist s) with Some (x, d) => Some (x, set_dist d s) | None => None end.
Definition on_files {A} (p : prog (gmap (list Z) (list Z)) A) : prog trunk_state A :=
  λ s, match p (trunk_files s) with Some (x, d) => Some (x, set_trunk_files d s) | None => None end.

(** [fast_mblock_alloc(&free_blocks_man)]: the errno or the node. *)
Definition alloc_node : prog trunk_state (Z + positive) :=
  o ← tick;
  s ← get;
  '(r, m) ← deref (fast_mblock_alloc (o_malloc_ok o) (o_errno o) (free_blocks_man s));
  modify (set_free_blocks_man m);;
  mret (match r with Some a => inr a | None => inl (errno_or (o_errno o) EIO) end).

Definition free_block (pMblockNode : positive) : prog trunk_state unit :=
  modify (λ s, set_free_blocks_man (fast_mblock_free (free_blocks_man s) pMblockNode) s).

Definition free_node (a : positive) : prog trunk_state unit :=
  n ← node_at a; free_block (n_pMblockNode n).

Definition alloc_slot : prog trunk_state (Z + positive) :=
  o ← tick;
  s ← get;
  '(r, m) ← deref (fast_mblock_alloc (o_malloc_ok o) (o_errno o) (tree_nodes_man s));
  modify (set_tree_nodes_man m);;
  mret (match r with Some a => inr a | None => inl (errno_or (o_errno o) EIO) end).

Definition free_slot (pMblockNode : positive) : prog trunk_state unit :=
  modify (λ s, set_tree_nodes_man (fast_mblock_free (tree_nodes_man s) pMblockNode) s).

Definition index_insert (pNode : positive) : prog trunk_state Z :=
  o ← tick;
  s ← get;
  '(result, tree) ← deref (trunk_free_block_insert (heap_of s) (o_index o) (tree_info_by_id s) pNode);
  modify (set_tree_info_by_id tree);;
  mret result.

Definition index_delete (pNode : positive) : prog trunk_state Z :=
  o ← tick;
  s ← get;
  n ← node_at pNode;
  '(result, tree) ← deref (trunk_free_block_delete (heap_of s) (o_index o) (tree_info_by_id s) (n_trunk n));
  modify (set_tree_info_by_id tree);;
  mret result.

(** ** The binlog *)

Definition trunk_mem_binlog_write (timestamp op_type : Z) (pTrunk : FDFSTrunkFullInfo) : prog trunk_state Z :=
  (if op_type =? TRUNK_OP_TYPE_ADD_SPACE then add_total (tf_size (file pTrunk))
   else if op_type =? TRUNK_OP_TYPE_DEL_SPACE then add_total (- tf_size (file pTrunk))
   else mret tt);;
  o ← tick;
  s ← get;
  '(result, log) ← deref (trunk_binlog_write (o_io o) timestamp op_type pTrunk (binlog s));
  modify (set_binlog log);;
  mret result.

(** With [g_current_time]. *)
Definition binlog_now (op_type : Z) (pTrunk : FDFSTrunkFullInfo) : prog trunk_state Z :=
  o ← tick;
  trunk_mem_binlog_write (o_now o) op_type pTrunk.

(** ** Adding a block *)

(** Put the node into the chain of its size. *)
Definition link_node (pNode : positive) : prog trunk_state Z :=
  n ← node_at pNode;
  let i := store_path_index (path (n_trunk n)) in
  let size := tf_size (file (n_trunk n)) in
  tree ← size_tree i;
  match avl_tree_find tree (target_slot size) with
  | None =>
      r ← alloc_slot;
      match r with
      | inl result => mret result
      | inr pMblockNode =>
          store_node pNode (with_next None n);;
          o ← tick;
          '(tree, code) ← deref (avl_tree_insert (avl_malloc_ok (o_index o)) tree
              {| slot_size := size; slot_head := Some pNode; slot_pMblockNode := pMblockNode |});
          store_size_tree i tree;;
          mret (if code =? 1 then 0 else errno_or (o_errno o) ENOMEM)
      end
  | Some chain =>
      store_node pNode (with_next (slot_head chain) n);;
      store_size_tree i (avl_tree_store tree chain (with_head (Some pNode) chain));;
      mret 0
  end.

Definition trunk_add_free_block (pNode : positive) (bWriteBinLog : bool) : prog trunk_state Z :=
  n ← node_at pNode;
  s ← get;
  result ← deref (trunk_free_block_check_duplicate (heap_of s) (tree_info_by_id s) (n_trunk n));
  if c_true result then mret result
  else
    result ← link_node pNode;
    if c_true result then mret result
    else
      result ← (if bWriteBinLog then binlog_now TRUNK_OP_TYPE_ADD_SPACE (n_trunk n)
                else add_total (tf_size (file (n_trunk n)));; mret 0);
      if result =? 0 then index_insert pNode
      else index_insert pNode;; mret result.

Definition trunk_free_space (pTrunkInfo : FDFSTrunkFullInfo) (bWriteBinLog : bool) : prog trunk_state Z :=
  s ← get;
  if negb (g_if_trunker_self cfg) then mret EINVAL
  else if negb (trunk_init_flag s =? STORAGE_TRUNK_INIT_FLAG_DONE) && bWriteBinLog then mret EINVAL
  else if tf_size (file pTrunkInfo) <? g_slot_min_size cfg then mret 0
  else
    r ← alloc_node;
    match r with
    | inl result => mret result
    | inr a =>
        store_node a {| n_trunk := with_status FDFS_TRUNK_STATUS_FREE pTrunkInfo;
                        n_pMblockNode := a; n_next := None |};;
        trunk_add_free_block a bWriteBinLog
    end.

(** ** Removing a block *)

Definition trunk_delete_size_tree_entry (store_path_index : Z) (pSlot : FDFSTrunkSlot) : prog trunk_state unit :=
  tree ← size_tree store_path_index;
  '(tree, code, _) ← deref (avl_tree_delete tree pSlot tt);
  store_size_tree store_path_index tree;;
  if code =? 1 then free_slot (slot_pMblockNode pSlot) else mret tt.

(** Take the node out of the chain of [pSlot], and the slot out of the tree
    when it is empty. *)
Definition unlink_node (store_path_index : Z) (pSlot : FDFSTrunkSlot) (pPrevious : option positive)
    (pCurrent : positive) : prog trunk_state unit :=
  n ← node_at pCurrent;
  match pPrevious with
  | None =>
      let slot := with_head (n_next n) pSlot in
      tree ← size_tree store_path_index;
      store_size_tree store_path_index (avl_tree_store tree pSlot slot);;
      match n_next n with
      | None => trunk_delete_size_tree_entry store_path_index slot
      | Some _ => mret tt
      end
  | Some p => update_node p (with_next (n_next n))
  end.

(** The loops that walk a chain. *)
Definition search_chain (stop : FDFSTrunkFullInfo → bool) (s : trunk_state) (pSlot : FDFSTrunkSlot)
    : option (option positive * option positive) :=
  find_node (next_field s) (λ a, n ← nodes s !! a; Some (stop (n_trunk n))) (size (nodes s)) None
    (slot_head pSlot).

Definition trunk_delete_space (pTrunkInfo : FDFSTrunkFullInfo) (bWriteBinLog : bool) : prog trunk_state Z :=
  let i := store_path_index (path pTrunkInfo) in
  tree ← size_tree i;
  match avl_tree_find tree (target_slot (tf_size (file pTrunkInfo))) with
  | None => mret ENOENT
  | Some pSlot =>
      s ← get;
      '(pPrevious, pCurrent) ← deref (search_chain (λ t, same_info t pTrunkInfo) s pSlot);
      match pCurrent with
      | None => mret ENOENT
      | Some a =>
          unlink_node i pSlot pPrevious a;;
          index_delete a;;
          n ← node_at a;
          result ← (if bWriteBinLog then binlog_now TRUNK_OP_TYPE_DEL_SPACE (n_trunk n)
                    else add_total (- tf_size (file (n_trunk n)));; mret 0);
          free_node a;;
          mret result
      end
  end.

Definition trunk_restore_node (pTrunkInfo : FDFSTrunkFullInfo) : prog trunk_state Z :=
  tree ← size_tree (store_path_index (path pTrunkInfo));
  match avl_tree_find tree (target_slot (tf_size (file pTrunkInfo))) with
  | None => mret ENOENT
  | Some pSlot =>
      s ← get;
      '(_, pCurrent) ← deref (search_chain (λ t, same_info t pTrunkInfo) s pSlot);
      match pCurrent with
      | None => mret ENOENT
      | Some a =>
          update_node a (λ n, with_trunk (with_status FDFS_TRUNK_STATUS_FREE (n_trunk n)) n);;
          mret 0
      end
  end.

(** ** Allocation *)

Definition trunk_split (pNode : positive) (size : Z) : prog trunk_state Z :=
  n ← node_at pNode;
  let f := file (n_trunk n) in
  if s32 (tf_size f - size) <? g_slot_min_size cfg then binlog_now TRUNK_OP_TYPE_DEL_SPACE (n_trunk n)
  else
    r ← alloc_node;
    match r with
    | inl result => mret result
    | inr a =>
        result ← binlog_now TRUNK_OP_TYPE_DEL_SPACE (n_trunk n);
        if c_true result then free_block a;; mret result
        else
          store_node a
            {| n_trunk := {| status := FDFS_TRUNK_STATUS_FREE; path := path (n_trunk n);
                             file := {| tf_id := tf_id f; tf_offset := s32 (tf_offset f + size);
                                        tf_size := s32 (tf_size f - size) |} |};
               n_pMblockNode := a; n_next := None |};;
          result ← trunk_add_free_block a true;
          if c_true result then mret result
          else
            update_node pNode (λ n, with_trunk (with_size size (n_trunk n)) n);;
            mret 0
    end.

(** The loop that looks for a name that is free; [fuel] names may be taken. *)
Fixpoint next_file_loop (fuel : nat) (a : positive) : prog trunk_state (Z + list Z) :=
  s ← get;
  let id := s32 (g_current_trunk_file_id s + 1) in
  modify (set_g_current_trunk_file_id id);;
  update_node a (λ n, with_trunk (set_id (n_trunk n) id) n);;
  o ← tick;
  if c_true (o_ini o) then mret (inl (o_ini o))
  else
    short_filename ← deref (base64_encode_ex g_fdfs_base64_context (int2buff id) false);
    '(sub_path_high, sub_path_low) ← on_dist (storage_get_store_path (g_store cfg) short_filename);
    update_node a (λ n, with_trunk
      {| status := status (n_trunk n);
         path := {| store_path_index := store_path_index (path (n_trunk n));
                    sub_path_high := u8 sub_path_high; sub_path_low := u8 sub_path_low |};
         file := file (n_trunk n) |} n);;
    n ← node_at a;
    full_filename ← deref (trunk_get_full_filename_ex (g_fdfs_store_paths (g_store cfg)) (n_trunk n) MAX_PATH_SIZE);
    s ← get;
    if negb (fileExists full_filename (trunk_files s)) then mret (inr full_filename)
    else match fuel with O => undefined | S fuel => next_file_loop fuel a end.

Definition trunk_create_next_file (a : positive) : prog trunk_state Z :=
  s ← get;
  r ← next_file_loop (size (trunk_files s)) a;
  match r with
  | inl result => mret result
  | inr full_filename =>
      o ← tick;
      on_files (trunk_init_file_ex WAIT_POLLS (o_kernel o) full_filename (g_trunk_file_size cfg))
  end.

(** The value of [*err_no] ([None]: not assigned) and the node. *)
Definition trunk_create_trunk_file (store_path_index : Z) : prog trunk_state (option Z * option positive) :=
  r ← alloc_node;
  match r with
  | inl err_no => mret (Some err_no, None)
  | inr a =>
      index ← (if 0 <=? store_path_index then mret (Some store_path_index)
               else '(result, new_index) ← on_dist (storage_get_storage_path_index (g_store cfg));
                    mret (if c_true result then None else Some new_index));
      match index with
      | None => mret (None, None)
      | Some index =>
          s ← get;
          let old := n_trunk (node_memory s a) in
          store_node a
            {| n_trunk := {| status := FDFS_TRUNK_STATUS_FREE;
                             path := {| store_path_index := u8 index;
                                        sub_path_high := sub_path_high (path old);
                                        sub_path_low := sub_path_low (path old) |};
                             file := {| tf_id := tf_id (file old); tf_offset := 0;
                                        tf_size := g_trunk_file_size cfg |} |};
               n_pMblockNode := a; n_next := None |};;
          err_no ← trunk_create_next_file a;
          if c_true err_no then free_block a;; mret (Some err_no, None)
          else
            n ← node_at a;
            err_no ← binlog_now TRUNK_OP_TYPE_ADD_SPACE (n_trunk n);
            mret (Some err_no, Some a)
      end
  end.

(** The loop over the slots, from the smallest one that is big enough:
    the first block that is not held, with its slot and its predecessor. *)
Fixpoint search_slot (fuel : nat) (s : trunk_state) (tree : AVLTreeInfo FDFSTrunkSlot unit) (target_size : Z)
    : option (option (FDFSTrunkSlot * option positive * positive)) :=
  match avl_tree_find_ge tree (target_slot target_size) with
  | None => Some None
  | Some pSlot =>
      '(pPrevious, pCurrent) ←
        search_chain (λ t, negb (status t =? FDFS_TRUNK_STATUS_HOLD)) s pSlot;
      match pCurrent with
      | Some a => Some (Some (pSlot, pPrevious, a))
      | None =>
          match fuel with
          | O => None
          | S fuel => search_slot fuel s tree (s32 (slot_size pSlot + 1))
          end
      end
  end.

(** Take a free block of at least [target_size] out of both indexes, or
    create a trunk file; the error or the node.  [*err_no] not being
    assigned leaves the error undefined. *)
Definition take_block (path_index target_size : Z) : prog trunk_state (Z + positive) :=
  tree ← size_tree path_index;
  s ← get;
  found ← deref (search_slot (Z.to_nat (avl_tree_count tree)) s tree target_size);
  match found with
  | Some (pSlot, pPrevious, a) =>
      unlink_node path_index pSlot pPrevious a;;
      index_delete a;;
      mret (inr a)
  | None =>
      '(err_no, node) ← trunk_create_trunk_file path_index;
      match node with
      | Some a => mret (inr a)
      | None => result ← deref err_no; mret (inl result)
      end
  end.

(** [STORAGE_TRUNK_CHECK_STATUS] *)
Definition STORAGE_TRUNK_CHECK_STATUS (s : trunk_state) : bool :=
  g_if_trunker_self cfg && (trunk_init_flag s =? STORAGE_TRUNK_INIT_FLAG_DONE).

(** [path_index] is [pResult->path.store_path_index]; the second component
    is [*pResult] when it is assigned. *)
Definition trunk_alloc_space (path_index size : Z) : prog trunk_state (Z * option FDFSTrunkFullInfo) :=
  s ← get;
  if negb (STORAGE_TRUNK_CHECK_STATUS s) then mret (EINVAL, None)
  else
    r ← take_block path_index (if g_slot_min_size cfg <? size then size else g_slot_min_size cfg);
    match r with
    | inl result => mret (result, None)
    | inr a =>
        result ← trunk_split a size;
        if c_true result then mret (result, None)
        else
          update_node a (λ n, with_trunk (with_status FDFS_TRUNK_STATUS_HOLD (n_trunk n)) n);;
          result ← trunk_add_free_block a true;
          if result =? 0 then n ← node_at a; mret (0, Some (n_trunk n))
          else mret (result, None)
    end.

Definition trunk_alloc_confirm (pTrunkInfo : FDFSTrunkFullInfo) (status : Z) : prog trunk_state Z :=
  s ← get;
  if negb (STORAGE_TRUNK_CHECK_STATUS s) then mret EINVAL
  else
    let target_trunk_info := with_status FDFS_TRUNK_STATUS_HOLD pTrunkInfo in
    if status =? 0 then trunk_delete_space target_trunk_info true
    else if status =? EEXIST then trunk_delete_space target_trunk_info true
    else trunk_restore_node target_trunk_info.

(** ** Creating files in advance *)

(** The body of the loop; [result] is the variable of the caller. *)
Fixpoint create_files (count : nat) (result : Z) : prog trunk_state Z :=
  match count with
  | O => mret result
  | S count =>
      '(err_no, node) ← trunk_create_trunk_file (-1);
      let result := default result err_no in
      match node with
      | None => create_files count result
      | Some a =>
          result ← trunk_add_free_block a false;
          if c_true result then mret result else create_files count result
      end
  end.

Definition total_mb_sum : Z := foldr (λ p n, s64 (total_mb p + n)) 0 (g_path_space_list (g_store cfg)).
Definition free_mb_sum : Z := foldr (λ p n, s64 (free_mb p + n)) 0 (g_path_space_list (g_store cfg)).

(** [reserved_mb] is [g_storage_reserved_space.rs.mb]. *)
Definition trunk_create_trunk_file_advance (reserved_mb : Z) : prog trunk_state Z :=
  s ← get;
  if negb (g_trunk_create_file_advance cfg) then mret EINVAL
  else if negb (g_if_trunker_self cfg) then mret ENOENT
  else
    let alloc_space := s64 (g_trunk_create_file_space_threshold cfg - g_trunk_total_free_space s) in
    if alloc_space <=? 0 then mret 0
    else if negb (fdfs_check_reserved_space_path total_mb_sum
                    (s64 (free_mb_sum - Z.quot alloc_space (1024 * 1024))) reserved_mb
                    (g_storage_reserved_space (g_store cfg))) then mret ENOSPC
    else create_files (Z.to_nat (s32 (Z.quot alloc_space (g_trunk_file_size cfg)))) 0.
End allocator.
