(* ===== verification/TrunkMemInv.v ===== *)
(** * storage/trunk_mgr/trunk_mem.c: the invariant of the allocator

    The state of the allocator stands for a finite map from node addresses
    to blocks.  This file says how (chains, slots, index, total, pools),
    and what each primitive of TrunkMem.v does to the map. *)

From stdpp Require Import strings.
From S2P Require Import Prelude LinkedList RankList AvlTree CLib SharedFunc Base64 TrunkShared FastMblock.
From S2P Require Import TrunkFile StorePath FreeBlockChecker TrunkBinlog TrunkMem.
#[local] Open Scope Z_scope.

(** ** The trees of slots *)

Definition slot_valid (e : FDFSTrunkSlot) : Prop := 0 ≤ slot_size e ≤ INT_MAX.

#[export] Instance slot_rank_compare : RankCompare slot_valid slot_size storage_trunk_node_compare_size.
Proof.
  intros x y Hx Hy. unfold slot_valid, storage_trunk_node_compare_size, INT_MAX in *.
  by rewrite s32_id by (unfold is_int32; lia).
Qed.

Abbreviation size_trees := (list (AVLTreeInfo FDFSTrunkSlot unit)).
Definition size_tree_ok (t : AVLTreeInfo FDFSTrunkSlot unit) : Prop :=
  tree_ok slot_valid slot_size storage_trunk_node_compare_size t.

(** The slot of a size on a store path. *)
Definition slot_at (trees : size_trees) (i : nat) (sz : Z) : option FDFSTrunkSlot :=
  t ← trees !! i; rfind slot_size sz (elements (root t)).

Section trees.
Context (trees : size_trees) (i : nat) (t : AVLTreeInfo FDFSTrunkSlot unit).
Hypothesis Htrees : Forall size_tree_ok trees.
Hypothesis Ht : trees !! i = Some t.

Lemma tree_at_ok : size_tree_ok t.
Proof using Htrees Ht. rewrite Forall_lookup in Htrees. by eapply Htrees. Qed.

Lemma find_slot sz :
  0 ≤ sz ≤ INT_MAX → avl_tree_find t (target_slot sz) = slot_at trees i sz.
Proof using Htrees Ht.
  intros Hsz. unfold slot_at. rewrite Ht. cbn [mbind option_bind].
  by rewrite (avl_tree_find_ok slot_valid slot_size storage_trunk_node_compare_size) by (done || apply tree_at_ok).
Qed.

Lemma slot_at_size sz e : slot_at trees i sz = Some e → slot_size e = sz ∧ slot_valid e ∧ e ∈ elements (root t).
Proof using Htrees Ht.
  unfold slot_at. rewrite Ht. cbn [mbind option_bind]. intros [Hin Hr]%rfind_Some.
  split; [done|]. split; [|done]. destruct tree_at_ok as [_ [_ Hv _]]. rewrite Forall_forall in Hv. by apply Hv.
Qed.

Lemma slot_at_update t' j sz :
  slot_at (<[i := t']> trees) j sz
  = if decide (j = i) then rfind slot_size sz (elements (root t')) else slot_at trees j sz.
Proof using Ht.
  unfold slot_at. destruct (decide (j = i)) as [->|Hne].
  - rewrite list_lookup_insert_eq; [done|]. by eapply lookup_lt_Some.
  - by rewrite list_lookup_insert_ne.
Qed.

Lemma trees_update t' : size_tree_ok t' → Forall size_tree_ok (<[i := t']> trees).
Proof using Htrees. intros. by apply Forall_insert. Qed.

(** A slot changed in place. *)
Lemma store_slot sz e e' :
  slot_at trees i sz = Some e → slot_size e' = sz →
  Forall size_tree_ok (<[i := avl_tree_store t e e']> trees) ∧
  ∀ j z, slot_at (<[i := avl_tree_store t e e']> trees) j z
         = if decide (j = i ∧ z = sz) then Some e' else slot_at trees j z.
Proof using Htrees Ht.
  intros He Hs. destruct (slot_at_size _ _ He) as (Hse & Hv & Hin).
  destruct (avl_tree_store_ok slot_valid slot_size storage_trunk_node_compare_size t e e' e)
    as (Hok & E & _); [apply tree_at_ok|done|unfold slot_valid in *; congruence|congruence| |].
  { rewrite (avl_tree_find_ok slot_valid slot_size storage_trunk_node_compare_size) by (done || apply tree_at_ok).
    unfold slot_at in He. rewrite Ht in He. cbn [mbind option_bind] in He. by rewrite Hse. }
  split; [by apply trees_update|]. intros j z. rewrite slot_at_update, E.
  destruct (decide (j = i)) as [->|]; [|by rewrite decide_False by tauto].
  rewrite rfind_rreplace, Hs. unfold slot_at. rewrite Ht. cbn [mbind option_bind].
  destruct (decide (sz = z)) as [->|]; [by rewrite decide_True|by rewrite decide_False by naive_solver].
Qed.

(** A new slot. *)
Lemma insert_slot e :
  slot_at trees i (slot_size e) = None → slot_valid e →
  ∃ t', avl_tree_insert true t e = Some (t', 1) ∧ Forall size_tree_ok (<[i := t']> trees) ∧
    ∀ j z, slot_at (<[i := t']> trees) j z
           = if decide (j = i ∧ z = slot_size e) then Some e else slot_at trees j z.
Proof using Htrees Ht.
  intros He Hv. unfold slot_at in He. rewrite Ht in He. cbn [mbind option_bind] in He.
  destruct (avl_tree_insert_ok slot_valid slot_size storage_trunk_node_compare_size true t e tree_at_ok Hv)
    as (t' & E & Hok & El & _).
  unfold insert_code in E. rewrite He in E. exists t'. split; [done|]. split; [by apply trees_update|].
  intros j z. rewrite slot_at_update, El. unfold inserted. rewrite rreplace_rinsert by done.
  destruct (decide (j = i)) as [->|]; [|by rewrite decide_False by tauto].
  rewrite rfind_rreplace. unfold slot_at. rewrite Ht. cbn [mbind option_bind].
  destruct (decide (slot_size e = z)) as [<-|]; [by rewrite decide_True|by rewrite decide_False by naive_solver].
Qed.

(** A slot taken out. *)
Lemma delete_slot sz e e' :
  slot_at trees i sz = Some e → slot_size e' = sz →
  ∃ t', avl_tree_delete t e' tt = Some (t', 1, tt) ∧ Forall size_tree_ok (<[i := t']> trees) ∧
    ∀ j z, slot_at (<[i := t']> trees) j z
           = if decide (j = i ∧ z = sz) then None else slot_at trees j z.
Proof using Htrees Ht.
  intros He Hs. destruct (slot_at_size _ _ He) as (Hse & Hv & Hin).
  destruct (avl_tree_delete_ok slot_valid slot_size storage_trunk_node_compare_size t e' tt)
    as (t' & E & Hok & El & _); [apply tree_at_ok|unfold slot_valid in *; congruence|].
  unfold slot_at in He. rewrite Ht in He. cbn [mbind option_bind] in He.
  unfold delete_code, delete_effect in E. rewrite Hs, He in E. exists t'.
  split; [rewrite E; by destruct (call_free _ _ _)|]. split; [by apply trees_update|].
  intros j z. rewrite slot_at_update, El, Hs.
  destruct (decide (j = i)) as [->|]; [|by rewrite decide_False by tauto].
  rewrite rfind_rdelete. unfold slot_at. rewrite Ht. cbn [mbind option_bind].
  destruct (decide (sz = z)) as [->|]; [by rewrite decide_True|by rewrite decide_False by naive_solver].
Qed.
End trees.

(** ** The blocks the state stands for *)

(** A block the allocator may hold. *)
Record block_ok (info : FDFSTrunkFullInfo) : Prop := {
  bo_info : info_ok info;
  bo_end : end_of info < INT_MAX;
  bo_id : 0 ≤ tf_id (file info);
  bo_status : status info = FDFS_TRUNK_STATUS_FREE ∨ status info = FDFS_TRUNK_STATUS_HOLD;
}.

Abbreviation blocks_map := (gmap positive FDFSTrunkFullInfo).

Definition path_of (info : FDFSTrunkFullInfo) : nat := Z.to_nat (store_path_index (path info)).

(** Block [a] has its place in the chain of slot [sz] of path [i]. *)
Definition in_slot (M : blocks_map) (i : nat) (sz : Z) (a : positive) : Prop :=
  ∃ info, M !! a = Some info ∧ path_of info = i ∧ tf_size (file info) = sz.

Definition next_in (ns : gmap positive FDFSTrunkNode) : positive → option (option positive) :=
  λ a, n_next <$> ns !! a.

(** A slot (or its absence) has exactly the blocks of its path and size. *)
Definition slot_rep (ns : gmap positive FDFSTrunkNode) (M : blocks_map) (i : nat) (sz : Z)
    (o : option FDFSTrunkSlot) : Prop :=
  ∃ c, llist (next_in ns) (o ≫= slot_head) c ∧ NoDup c ∧ (is_Some o → c ≠ []) ∧
    ∀ a, a ∈ c ↔ in_slot M i sz a.

(** The nodes hold the blocks. *)
Definition nodes_rep (ns : gmap positive FDFSTrunkNode) (M : blocks_map) : Prop :=
  ∀ a info, M !! a = Some info → ∃ n, ns !! a = Some n ∧ n_trunk n = info ∧ n_pMblockNode n = a.

Record chains_inv (ns : gmap positive FDFSTrunkNode) (trees : size_trees) (M : blocks_map) : Prop := {
  ci_nodes : nodes_rep ns M;
  ci_blocks : ∀ a info, M !! a = Some info → block_ok info;
  ci_trees : Forall size_tree_ok trees;
  ci_slots : ∀ i sz, slot_rep ns M i sz (slot_at trees i sz);
}.

(** The slots have their own blocks in their pool. *)
Record slots_inv (man : fast_mblock_man) (trees : size_trees) : Prop := {
  sv_grow : can_grow man;
  sv_pool : ∃ l used, mblock_rep man l used ∧
    (∀ i sz e, slot_at trees i sz = Some e → slot_pMblockNode e ∈ used);
  sv_inj : ∀ i sz e i' sz' e', slot_at trees i sz = Some e → slot_at trees i' sz' = Some e' →
    slot_pMblockNode e = slot_pMblockNode e' → i = i' ∧ sz = sz';
}.

(** The index by trunk file. *)
Record index_inv (ns : gmap positive FDFSTrunkNode) (ids : id_tree) (M : blocks_map) : Prop := {
  xi_ids : ids_ok (n_trunk <$> ns) ids;
  xi_indexed : indexed ids ≡ₚ (map_to_list M).*1;
}.

(** The pool of the nodes, of which [U] are in use. *)
Record pool_inv (man : fast_mblock_man) (U : gset positive) : Prop := {
  pi_grow : can_grow man;
  pi_pool : ∃ l, mblock_rep man l U;
}.

(** No two blocks share a byte. *)
Definition no_overlap (M : blocks_map) (info : FDFSTrunkFullInfo) : Prop :=
  ∀ a i, M !! a = Some i → ¬ overlap info i.
Definition disjoint_blocks (M : blocks_map) : Prop :=
  ∀ a b i j, M !! a = Some i → M !! b = Some j → a ≠ b → ¬ overlap i j.

(** The file of every block exists. *)
Definition files_inv (sp : FDFSStorePaths) (files : gmap (list Z) (list Z)) (M : blocks_map) : Prop :=
  ∀ a info, M !! a = Some info →
    ∃ name, trunk_get_full_filename_ex sp info MAX_PATH_SIZE = Some name ∧ is_Some (files !! name).

Definition free_space (M : blocks_map) : Z := map_fold (λ _ info n, tf_size (file info) + n) 0 M.

Lemma free_space_insert M a info :
  M !! a = None → free_space (<[a := info]> M) = tf_size (file info) + free_space M.
Proof. intros Ha. unfold free_space. rewrite map_fold_insert_L; [done|intros; lia|done]. Qed.

Lemma free_space_delete M a info :
  M !! a = Some info → free_space (delete a M) = free_space M - tf_size (file info).
Proof.
  intros Ha. rewrite <- (insert_delete_id M a info Ha) at 2.
  rewrite free_space_insert by apply lookup_delete_eq. lia.
Qed.

Definition total_inv (total : Z) (M : blocks_map) : Prop := total = s64 (free_space M).

(** ** The binlog as a journal

    Replaying the records gives the blocks; the status is not logged. *)

Definition place (info : FDFSTrunkFullInfo) : FDFSTrunkFullInfo := with_status FDFS_TRUNK_STATUS_FREE info.

Definition replay_record (l : list FDFSTrunkFullInfo) (r : TrunkBinLogRecord) : list FDFSTrunkFullInfo :=
  if op_type r =? TRUNK_OP_TYPE_ADD_SPACE then place (trunk r) :: l
  else if op_type r =? TRUNK_OP_TYPE_DEL_SPACE then filter (λ i, i ≠ place (trunk r)) l
  else l.

Definition replay (rs : list TrunkBinLogRecord) : list FDFSTrunkFullInfo := fold_left replay_record rs [].

Definition places (M : blocks_map) : list FDFSTrunkFullInfo := place <$> (map_to_list M).*2.

(** A sound journal, with the blocks it leaves: a block that is added
    overlaps no other, a block that is removed is there. *)
Inductive sound_journal : list TrunkBinLogRecord → list FDFSTrunkFullInfo → Prop :=
  | sj_nil : sound_journal [] []
  | sj_add rs l r :
      sound_journal rs l → op_type r = TRUNK_OP_TYPE_ADD_SPACE → block_ok (trunk r) →
      Forall (λ j, ¬ overlap (trunk r) j) l → sound_journal (rs ++ [r]) (place (trunk r) :: l)
  | sj_del rs l r :
      sound_journal rs l → op_type r = TRUNK_OP_TYPE_DEL_SPACE → place (trunk r) ∈ l →
      sound_journal (rs ++ [r]) (filter (λ i, i ≠ place (trunk r)) l).

Lemma sound_replay rs l : sound_journal rs l → replay rs = l.
Proof.
  induction 1 as [|rs l r _ IH Ho _ _|rs l r _ IH Ho _]; [done|..]; unfold replay in *;
    rewrite fold_left_app; cbn [fold_left]; rewrite IH; unfold replay_record; by rewrite Ho.
Qed.

Definition journal_inv (log : trunk_binlog) (M : blocks_map) : Prop :=
  cache_has_room log ∧
  ∃ rs l, Forall record_ok rs ∧ whole_log log = lines rs ∧ sound_journal rs l ∧ l ≡ₚ places M.

Lemma places_insert M a info : M !! a = None → places (<[a := info]> M) ≡ₚ place info :: places M.
Proof. intros Ha. unfold places. by rewrite map_to_list_insert. Qed.

Lemma elem_of_places M p : p ∈ places M ↔ ∃ a info, M !! a = Some info ∧ p = place info.
Proof.
  unfold places. rewrite <- list_fmap_compose, list_elem_of_fmap. split.
  - intros ([a info] & -> & Hin). rewrite elem_of_map_to_list in Hin. by exists a, info.
  - intros (a & info & Ha & ->). exists (a, info). split; [done|]. by rewrite elem_of_map_to_list.
Qed.

Lemma places_no_overlap M info : no_overlap M info → Forall (λ j, ¬ overlap info j) (places M).
Proof. intros Hn. apply Forall_forall. intros p (a & i & Ha & ->)%elem_of_places. exact (Hn a i Ha). Qed.

Lemma place_overlap i j : block_ok i → place i = place j → overlap i j.
Proof.
  intros Hi [= Hp Hf]. pose proof (bo_info _ Hi) as (_ & _ & _ & Hs & _).
  unfold overlap, FILL_FILE_IDENTIFIER, end_of. rewrite <- Hp, <- Hf. split; [done|lia].
Qed.

(** Removing a block removes its place. *)
Lemma places_delete M a info :
  disjoint_blocks M → (∀ b i, M !! b = Some i → block_ok i) → M !! a = Some info →
  filter (λ i, i ≠ place info) (places M) ≡ₚ places (delete a M).
Proof.
  intros Hd Hb Ha. rewrite <- (insert_delete_id M a info Ha) at 1.
  rewrite places_insert by apply lookup_delete_eq.
  rewrite filter_cons_False by (intros Hne; by apply Hne).
  rewrite filter_all; [done|]. apply Forall_forall. intros p (b & i & [Hba Hbi]%lookup_delete_Some & ->)%elem_of_places E.
  apply (Hd b a i info); [done..|by apply place_overlap; [eapply Hb|]].
Qed.

(** ** Chains *)

Lemma in_slot_insert M a info i sz b :
  in_slot (<[a := info]> M) i sz b ↔
  (b = a ∧ path_of info = i ∧ tf_size (file info) = sz) ∨ (b ≠ a ∧ in_slot M i sz b).
Proof.
  unfold in_slot. destruct (decide (b = a)) as [->|Hne].
  - rewrite lookup_insert_eq. naive_solver.
  - rewrite lookup_insert_ne by done. naive_solver.
Qed.

Lemma in_slot_delete M a i sz b : in_slot (delete a M) i sz b ↔ b ≠ a ∧ in_slot M i sz b.
Proof.
  unfold in_slot. destruct (decide (b = a)) as [->|Hne].
  - rewrite lookup_delete_eq. naive_solver.
  - rewrite lookup_delete_ne by done. naive_solver.
Qed.

Lemma in_slot_fun M i sz i' sz' a : in_slot M i sz a → in_slot M i' sz' a → i = i' ∧ sz = sz'.
Proof. intros (x & Hx & H1 & H2) (y & Hy & H3 & H4). simplify_eq. done. Qed.

Lemma slot_rep_frame ns ns' M M' i sz o :
  (∀ b, in_slot M i sz b → next_in ns' b = next_in ns b) →
  (∀ b, in_slot M' i sz b ↔ in_slot M i sz b) →
  slot_rep ns M i sz o → slot_rep ns' M' i sz o.
Proof.
  intros Hn Hm (c & Hl & Hd & Ho & Hc). exists c. split_and!; [|done|done|].
  - eapply lseg_frame; [|exact Hl]. intros a Ha%Hc. by apply Hn.
  - intros a. by rewrite Hc, Hm.
Qed.

Lemma next_in_insert_ne ns a b n : b ≠ a → next_in (<[a := n]> ns) b = next_in ns b.
Proof. intros. unfold next_in. by rewrite lookup_insert_ne. Qed.
Lemma next_in_insert ns a n : next_in (<[a := n]> ns) a = Some (n_next n).
Proof. unfold next_in. by rewrite lookup_insert_eq. Qed.

Lemma slot_rep_new ns M i sz a n mb :
  slot_rep ns M i sz None → path_of (n_trunk n) = i → tf_size (file (n_trunk n)) = sz →
  slot_rep (<[a := with_next None n]> ns) (<[a := n_trunk n]> M) i sz
    (Some {| slot_size := sz; slot_head := Some a; slot_pMblockNode := mb |}).
Proof.
  intros (c & Hl & _ & _ & Hc) Hi Hs. cbn in Hl. apply llist_null in Hl as ->.
  exists [a]. split_and!; [|apply NoDup_singleton|done|].
  - cbn. split; [done|]. exists None. by rewrite next_in_insert.
  - intros b. rewrite list_elem_of_singleton, in_slot_insert. pose proof (Hc b) as Hb.
    split; [by left|].
    intros [[? _]|[_ H]]; [done|]. apply Hb in H. by apply not_elem_of_nil in H.
Qed.

Lemma slot_rep_push ns M i sz e a n :
  slot_rep ns M i sz (Some e) → M !! a = None →
  path_of (n_trunk n) = i → tf_size (file (n_trunk n)) = sz →
  slot_rep (<[a := with_next (slot_head e) n]> ns) (<[a := n_trunk n]> M) i sz (Some (with_head (Some a) e)).
Proof.
  intros (c & Hl & Hd & _ & Hc) Ha Hi Hs. cbn in Hl.
  assert (a ∉ c) as Hac by (intros (info & Hin & _)%Hc; congruence).
  exists (a :: c). split_and!; [|by constructor|done|].
  - cbn. split; [done|]. exists (slot_head e). rewrite next_in_insert. split; [done|].
    eapply lseg_frame; [|exact Hl]. intros b Hb. apply next_in_insert_ne. by intros ->.
  - intros b. rewrite elem_of_cons, in_slot_insert, Hc. destruct (decide (b = a)) as [->|]; naive_solver.
Qed.

(** [c] is the chain of slot [e]. *)
Record chain_of (ns : gmap positive FDFSTrunkNode) (M : blocks_map) (i : nat) (sz : Z)
    (e : FDFSTrunkSlot) (c : list positive) : Prop := {
  ch_list : llist (next_in ns) (slot_head e) c;
  ch_nodup : NoDup c;
  ch_blocks : ∀ a, a ∈ c ↔ in_slot M i sz a;
}.

Lemma in_slot_node ns M i sz a :
  nodes_rep ns M → in_slot M i sz a → ∃ n, ns !! a = Some n ∧ M !! a = Some (n_trunk n).
Proof. intros Hn (info & Hi & _). destruct (Hn a info Hi) as (n & Hn' & <- & _). by exists n. Qed.

Lemma chain_length ns M i sz e c :
  nodes_rep ns M → chain_of ns M i sz e c → (length c ≤ size ns)%nat.
Proof.
  intros Hn [_ Hd Hc]. rewrite <- size_dom, <- (size_list_to_set (C := gset positive) c) by done.
  apply subseteq_size. intros a Ha%elem_of_list_to_set%Hc.
  destruct (in_slot_node _ _ _ _ _ Hn Ha) as (n & Hn' & _). by eapply elem_of_dom_2.
Qed.

(** The loops over a chain find its first block that passes the test. *)
Lemma search_chain_spec stop s M i sz e :
  nodes_rep (nodes s) M → slot_rep (nodes s) M i sz (Some e) →
  ∃ l1 l2, chain_of (nodes s) M i sz e (l1 ++ l2) ∧
    search_chain stop s e = Some (last_or None l1, head l2) ∧
    (∀ a info, a ∈ l1 → M !! a = Some info → stop info = false) ∧
    (∀ a info, head l2 = Some a → M !! a = Some info → stop info = true).
Proof.
  intros Hn (c & Hl & Hd & _ & Hc). assert (chain_of (nodes s) M i sz e c) as Hch by done.
  set (f := λ a, match M !! a with Some info => stop info | None => false end).
  destruct (find_node_spec (next_in (nodes s)) (λ a, n ← nodes s !! a; Some (stop (n_trunk n))) f
    (size (nodes s)) None (slot_head e) c Hl) as (l1 & l2 & -> & H1 & H2 & H3).
  - intros a Ha%Hc. destruct (in_slot_node _ _ _ _ _ Hn Ha) as (n & Hn' & Hm). unfold f.
    by rewrite Hn', Hm.
  - by eapply chain_length.
  - exists l1, l2. split; [done|]. split; [exact H3|]. rewrite Forall_forall in H1. split.
    + intros a info Ha%H1 Hm. unfold f in Ha. by rewrite Hm in Ha.
    + intros a info Ha%H2 Hm. unfold f in Ha. by rewrite Hm in Ha.
Qed.

Lemma nodup_middle (l1 l2 : list positive) a : NoDup (l1 ++ a :: l2) → NoDup (l1 ++ l2) ∧ a ∉ l1 ++ l2.
Proof. rewrite <- Permutation_middle. intros [? ?]%NoDup_cons. done. Qed.

Lemma chain_remaining ns M i sz e l1 a l2 b :
  chain_of ns M i sz e (l1 ++ a :: l2) → b ∈ l1 ++ l2 ↔ in_slot (delete a M) i sz b.
Proof.
  intros [_ Hd Hc]. rewrite in_slot_delete, <- Hc. apply nodup_middle in Hd as [_ Ha].
  rewrite not_elem_of_app in Ha. rewrite !elem_of_app, elem_of_cons.
  destruct (decide (b = a)) as [->|]; naive_solver.
Qed.

(** The first block leaves its chain. *)
Lemma slot_rep_pop ns M i sz e a l2 n :
  chain_of ns M i sz e (a :: l2) → ns !! a = Some n →
  slot_rep ns (delete a M) i sz
    (match n_next n with None => None | Some _ => Some (with_head (n_next n) e) end).
Proof.
  intros Hch Hn. pose proof (λ b, chain_remaining _ _ _ _ _ [] a l2 b Hch) as Hrem. cbn in Hrem.
  destruct Hch as [(_ & q & Hq & Hl) Hd _]. apply NoDup_cons in Hd as [_ Hd].
  unfold next_in in Hq. rewrite Hn in Hq. injection Hq as <-.
  exists l2. split_and!; [|done| |done].
  - by destruct (n_next n).
  - intros Ho ->. cbn in Hl. rewrite Hl in Ho. by destruct Ho.
Qed.

(** Another block leaves its chain. *)
Lemma slot_rep_unlink ns M i sz e l1 p a l2 np n :
  chain_of ns M i sz e ((l1 ++ [p]) ++ a :: l2) → ns !! p = Some np → ns !! a = Some n →
  slot_rep (<[p := with_next (n_next n) np]> ns) (delete a M) i sz (Some e).
Proof.
  intros Hch Hp Hn. pose proof (λ b, chain_remaining _ _ _ _ _ (l1 ++ [p]) a l2 b Hch) as Hrem.
  destruct Hch as [Hl Hd _]. apply nodup_middle in Hd as [Hd _].
  apply lseg_app in Hl as (m & (Hl1 & Hnp)%lseg_snoc & -> & q & Hq & Hl2).
  unfold next_in in Hq. rewrite Hn in Hq. injection Hq as <-.
  exists ((l1 ++ [p]) ++ l2). split_and!; [|done|by destruct l1|done].
  rewrite <- app_assoc in Hd. cbn in Hd. apply nodup_middle in Hd as [_ Hpn].
  apply not_elem_of_app in Hpn as [Hp1 Hp2].
  cbn. apply lseg_app. exists (n_next n). split.
  - apply lseg_snoc. rewrite next_in_insert. split; [|done].
    eapply lseg_frame; [|exact Hl1]. intros b Hb. apply next_in_insert_ne. by intros ->.
  - eapply lseg_frame; [|exact Hl2]. intros b Hb. apply next_in_insert_ne. by intros ->.
Qed.

(** Changes in one slot only. *)
Lemma chains_update ns trees M ns' trees' M' i sz o :
  chains_inv ns trees M → nodes_rep ns' M' → (∀ a info, M' !! a = Some info → block_ok info) →
  Forall size_tree_ok trees' →
  (∀ j z, slot_at trees' j z = if decide (j = i ∧ z = sz) then o else slot_at trees j z) →
  slot_rep ns' M' i sz o →
  (∀ j z b, ¬ (j = i ∧ z = sz) → in_slot M j z b → next_in ns' b = next_in ns b) →
  (∀ j z b, ¬ (j = i ∧ z = sz) → in_slot M' j z b ↔ in_slot M j z b) →
  chains_inv ns' trees' M'.
Proof.
  intros [_ _ _ Hs] Hn Hb Ht Hat Hr Hnext Hin. split; [done|done|done|].
  intros j z. rewrite Hat. destruct (decide (j = i ∧ z = sz)) as [[-> ->]|Hne]; [done|].
  eapply slot_rep_frame; [|intros b; by apply Hin|apply Hs]. intros b. by apply Hnext.
Qed.

Lemma nodes_rep_insert ns M a n :
  nodes_rep ns M → n_pMblockNode n = a → nodes_rep (<[a := n]> ns) (<[a := n_trunk n]> M).
Proof.
  intros Hn Ha b info. destruct (decide (b = a)) as [->|Hne].
  - rewrite !lookup_insert_eq. intros [= <-]. by exists n.
  - rewrite !lookup_insert_ne by done. apply Hn.
Qed.

(** A node whose [next] changes stands for the same block. *)
Lemma nodes_rep_next ns M a p n :
  nodes_rep ns M → ns !! a = Some n → nodes_rep (<[a := with_next p n]> ns) M.
Proof.
  intros Hn Ha b info Hb. destruct (Hn b info Hb) as (n' & Hn' & H).
  destruct (decide (b = a)) as [->|Hne].
  - rewrite lookup_insert_eq. rewrite Ha in Hn'. injection Hn' as <-. by exists (with_next p n).
  - rewrite lookup_insert_ne by done. by exists n'.
Qed.

Lemma nodes_rep_delete ns M a : nodes_rep ns M → nodes_rep ns (delete a M).
Proof. intros Hn b info [_ Hb]%lookup_delete_Some. by apply Hn. Qed.

Lemma blocks_insert (M : blocks_map) (a : positive) info :
  (∀ b i, M !! b = Some i → block_ok i) → block_ok info → ∀ b i, <[a := info]> M !! b = Some i → block_ok i.
Proof. intros Hb Hi b i [[-> ->]|[_ H]]%lookup_insert_Some; [done|by eapply Hb]. Qed.

Lemma blocks_delete (M : blocks_map) (a : positive) :
  (∀ b i, M !! b = Some i → block_ok i) → ∀ b i, delete a M !! b = Some i → block_ok i.
Proof. intros Hb b i [_ H]%lookup_delete_Some. by eapply Hb. Qed.

(** What the environment answers when nothing fails. *)
Record outcome_ok (o : outcome) : Prop := {
  oo_malloc : o_malloc_ok o = true;
  oo_index : no_failure (o_index o);
  oo_io : io_ok (o_io o);
  oo_now : is_int32 (o_now o);
  oo_ini : o_ini o = 0;
  oo_kernel : kernel_ok (o_kernel o);
}.

Lemma slots_inv_same man trees trees' :
  slots_inv man trees →
  (∀ i sz e', slot_at trees' i sz = Some e' →
     ∃ e, slot_at trees i sz = Some e ∧ slot_pMblockNode e' = slot_pMblockNode e) →
  slots_inv man trees'.
Proof.
  intros [Hg (l & used & Hr & Hu) Hi] Hs. split; [done| |].
  - exists l, used. split; [done|]. intros i sz e' (e & He & ->)%Hs. by eapply Hu.
  - intros i sz e' j z d' (e & He & ->)%Hs (d & Hd & ->)%Hs. by eapply Hi.
Qed.

Lemma slots_inv_new man trees l used e man' trees' l' i :
  slots_inv man trees →
  mblock_rep man l used → (∀ i sz e, slot_at trees i sz = Some e → slot_pMblockNode e ∈ used) →
  slot_pMblockNode e ∉ used → mblock_rep man' l' ({[slot_pMblockNode e]} ∪ used) → same_pool man man' →
  (∀ j z, slot_at trees' j z = if decide (j = i ∧ z = slot_size e) then Some e else slot_at trees j z) →
  slots_inv man' trees'.
Proof.
  intros [Hg _ Hi] Hr Hu Hn Hr' Hp Hs. split; [by eapply same_pool_can_grow| |].
  - exists l', ({[slot_pMblockNode e]} ∪ used). split; [done|]. intros j z d. rewrite Hs.
    case_decide; [intros [= <-]; set_solver|]. intros Hd%Hu. set_solver.
  - intros j z d j' z' d'. rewrite !Hs. repeat case_decide; intros H1 H2 E; simplify_eq.
    + destruct_and!. by subst.
    + apply Hu in H2. rewrite <- E in H2. done.
    + apply Hu in H1. rewrite E in H1. done.
    + by eapply Hi.
Qed.

Section primitives.
Context (cfg : trunk_config) (env : nat → outcome).

(** ** Steps of the primitives *)

Lemma node_at_bind {B} a n (f : _ → prog trunk_state B) s :
  nodes s !! a = Some n → (node_at a ≫= f) s = f n s.
Proof. intros Ha. unfold node_at. run. by rewrite (deref_bind _ _ _ _ Ha). Qed.

Lemma store_node_bind {B} a n (f : _ → prog trunk_state B) s :
  (store_node a n ≫= f) s = f tt (set_nodes (<[a := n]> (nodes s)) s).
Proof. reflexivity. Qed.

Lemma update_node_bind {B} a n g (f : _ → prog trunk_state B) s :
  nodes s !! a = Some n → (update_node a g ≫= f) s = f tt (set_nodes (<[a := g n]> (nodes s)) s).
Proof. intros Ha. unfold update_node. run. by rewrite (node_at_bind _ _ _ _ Ha). Qed.

Lemma size_tree_bind {B} i t (f : _ → prog trunk_state B) s :
  tree_info_by_sizes s !! Z.to_nat i = Some t → (size_tree i ≫= f) s = f t s.
Proof. intros Ht. unfold size_tree. run. by rewrite (deref_bind _ _ _ _ Ht). Qed.

Lemma store_size_tree_bind {B} i t (f : _ → prog trunk_state B) s :
  (store_size_tree i t ≫= f) s
  = f tt (set_tree_info_by_sizes (<[Z.to_nat i := t]> (tree_info_by_sizes s)) s).
Proof. reflexivity. Qed.

Lemma tick_bind {B} (f : _ → prog trunk_state B) s :
  (tick env ≫= f) s = f (env (ticks s)) (set_ticks (S (ticks s)) s).
Proof. reflexivity. Qed.

Lemma add_total_bind {B} d (f : _ → prog trunk_state B) s :
  (add_total d ≫= f) s = f tt (set_g_trunk_total_free_space (s64 (g_trunk_total_free_space s + d)) s).
Proof. reflexivity. Qed.

Hypothesis Henv : ∀ n, outcome_ok (env n).

Lemma alloc_slot_ok l used s :
  mblock_rep (tree_nodes_man s) l used → can_grow (tree_nodes_man s) →
  ∃ a m l', alloc_slot env s = Some (inr a, set_ticks (S (ticks s)) (set_tree_nodes_man m s)) ∧
    a ∉ used ∧ mblock_rep m l' ({[a]} ∪ used) ∧ same_pool (tree_nodes_man s) m.
Proof using Henv.
  intros Hr Hg. unfold alloc_slot. rewrite tick_bind. run. rewrite (oo_malloc _ (Henv _)).
  destruct (fast_mblock_alloc_spec (o_errno (env (ticks s))) _ l used Hr Hg) as (a & m & l' & E & Ha & Hr' & Hp & _).
  exists a, m, l'. split; [|done]. rewrite (deref_bind _ _ _ _ E). reflexivity.
Qed.

Lemma path_of_info info : Z.to_nat (store_path_index (path info)) = path_of info.
Proof. done. Qed.

Lemma block_size_range info : block_ok info → 0 < tf_size (file info) < INT_MAX.
Proof. intros [(_ & _ & Ho & Hs & _) He _]. unfold end_of in He. lia. Qed.

(** [link_node] puts a node into the chain of its size. *)
Lemma link_node_ok s M a n :
  chains_inv (nodes s) (tree_info_by_sizes s) M → slots_inv (tree_nodes_man s) (tree_info_by_sizes s) →
  nodes s !! a = Some n → n_pMblockNode n = a → M !! a = None → block_ok (n_trunk n) →
  (path_of (n_trunk n) < length (tree_info_by_sizes s))%nat →
  ∃ k m ts p,
    link_node env a s = Some (0, set_ticks k (set_tree_info_by_sizes ts (set_tree_nodes_man m
      (set_nodes (<[a := with_next p n]> (nodes s)) s)))) ∧
    chains_inv (<[a := with_next p n]> (nodes s)) ts (<[a := n_trunk n]> M) ∧
    slots_inv m ts ∧ length ts = length (tree_info_by_sizes s).
Proof using Henv.
  intros Hc Hsv Ha Hmb HM Hb Hp. pose proof (block_size_range _ Hb) as Hsz.
  destruct (lookup_lt_is_Some_2 _ _ Hp) as [t Ht].
  unfold link_node. rewrite (node_at_bind _ _ _ _ Ha). cbv zeta.
  rewrite (size_tree_bind _ _ _ _ Ht).
  rewrite (find_slot _ _ _ (ci_trees _ _ _ Hc) Ht) by lia.
  pose proof (ci_slots _ _ _ Hc (path_of (n_trunk n)) (tf_size (file (n_trunk n)))) as Hsl.
  set (i := path_of (n_trunk n)) in *. set (sz := tf_size (file (n_trunk n))) in *.
  assert (∀ j z b, ¬ (j = i ∧ z = sz) → in_slot (<[a := n_trunk n]> M) j z b ↔ in_slot M j z b) as Hother.
  { intros j z b Hne. rewrite in_slot_insert. split; [|].
    - intros [(-> & <- & <-)|[_ H]]; [by destruct Hne|done].
    - intros H. right. split; [|done]. intros ->. destruct H as (? & ? & _). congruence. }
  assert (∀ p j z b, in_slot M j z b → next_in (<[a := with_next p n]> (nodes s)) b = next_in (nodes s) b) as Hnext.
  { intros p j z b (? & ? & _). apply next_in_insert_ne. intros ->. congruence. }
  assert (∀ p, nodes_rep (<[a := with_next p n]> (nodes s)) (<[a := n_trunk n]> M)) as Hnr.
  { intros p. change (n_trunk n) with (n_trunk (with_next p n)). by apply nodes_rep_insert; [apply Hc|]. }
  pose proof (blocks_insert M a _ (ci_blocks _ _ _ Hc) Hb) as Hbl.
  destruct (slot_at (tree_info_by_sizes s) i sz) as [e|] eqn:Ee.
  - destruct (slot_at_size _ _ _ (ci_trees _ _ _ Hc) Ht _ _ Ee) as (Hes & _).
    destruct (store_slot _ _ _ (ci_trees _ _ _ Hc) Ht sz e (with_head (Some a) e) Ee Hes) as [Hts Hat].
    exists (ticks s), (tree_nodes_man s), (<[i := avl_tree_store t e (with_head (Some a) e)]> (tree_info_by_sizes s)),
      (slot_head e). split; [reflexivity|]. split; [|split].
    + eapply chains_update with (i := i) (sz := sz) (o := Some (with_head (Some a) e)); try done.
      * by apply slot_rep_push.
      * intros j z b _. apply Hnext.
    + eapply slots_inv_same; [exact Hsv|]. intros j z e'. rewrite Hat.
      case_decide as Hd; [destruct Hd as [-> ->]; intros [= <-]; by exists e|]. intros H'. by exists e'.
    + by rewrite length_insert.
  - destruct (sv_pool _ _ Hsv) as (l & used & Hr & Hu).
    destruct (alloc_slot_ok l used s Hr (sv_grow _ _ Hsv)) as (mb & m & l' & Ea & Hmbn & Hr' & Hpool).
    rewrite (bind_run _ _ _ _ _ Ea). cbv beta iota. rewrite store_node_bind, tick_bind. cbv zeta beta.
    set (e := {| slot_size := sz; slot_head := Some a; slot_pMblockNode := mb |}).
    destruct (insert_slot _ _ _ (ci_trees _ _ _ Hc) Ht e) as (t' & E & Hts & Hat); [done|unfold slot_valid; cbn; lia|].
    cbn [ticks set_nodes set_ticks set_tree_nodes_man].
    destruct (oo_index _ (Henv (S (ticks s)))) as (_ & Hav & _). rewrite Hav.
    rewrite (deref_bind _ _ _ _ E). rewrite store_size_tree_bind. cbv beta. change (1 =? 1) with true.
    eexists _, m, (<[i := t']> (tree_info_by_sizes s)), None. split; [reflexivity|]. split; [|split].
    + eapply chains_update with (i := i) (sz := sz) (o := Some e); try done.
      * by apply slot_rep_new.
      * intros j z b _. apply Hnext.
    + by eapply (slots_inv_new _ _ l used e _ _ l' i).
    + by rewrite length_insert.
Qed.
(** [trunk_delete_size_tree_entry] on a slot that is in its tree. *)
Lemma delete_size_tree_entry_ok s (j : Z) sz e e' :
  Forall size_tree_ok (tree_info_by_sizes s) → slots_inv (tree_nodes_man s) (tree_info_by_sizes s) →
  slot_at (tree_info_by_sizes s) (Z.to_nat j) sz = Some e → slot_size e' = sz →
  slot_pMblockNode e' = slot_pMblockNode e →
  ∃ m ts, trunk_delete_size_tree_entry j e' s
          = Some (tt, set_tree_info_by_sizes ts (set_tree_nodes_man m s)) ∧
    Forall size_tree_ok ts ∧ slots_inv m ts ∧ length ts = length (tree_info_by_sizes s) ∧
    ∀ i z, slot_at ts i z = if decide (i = Z.to_nat j ∧ z = sz) then None
                            else slot_at (tree_info_by_sizes s) i z.
Proof using Type.
  clear cfg env Henv. intros Hts Hsv He Hs Hmb. unfold trunk_delete_size_tree_entry.
  destruct (tree_info_by_sizes s !! Z.to_nat j) as [t|] eqn:Ht.
  2: { unfold slot_at in He. by rewrite Ht in He. }
  destruct (delete_slot _ _ _ Hts Ht sz e e' He Hs) as (t' & E & Hts' & Hat).
  rewrite (size_tree_bind _ _ _ _ Ht), (deref_bind _ _ _ _ E), store_size_tree_bind. cbv beta iota.
  change (1 =? 1) with true. cbv iota.
  exists (fast_mblock_free (tree_nodes_man s) (slot_pMblockNode e')), (<[Z.to_nat j := t']> (tree_info_by_sizes s)).
  split; [reflexivity|]. split; [done|]. split; [|split; [by rewrite length_insert|done]].
  destruct Hsv as [Hg (l & used & Hr & Hu) Hi]. split; [done| |].
  - eexists _, _. split; [apply fast_mblock_free_spec; [exact Hr|rewrite Hmb; by eapply Hu]|].
    intros i z d. rewrite Hat. case_decide as Hd; [done|]. intros Hd'.
    assert (slot_pMblockNode d ≠ slot_pMblockNode e') as Hne.
    { intros Eq. rewrite Hmb in Eq. by destruct (Hi _ _ _ _ _ _ Hd' He Eq) as [-> ->]; destruct Hd. }
    pose proof (Hu _ _ _ Hd'). set_solver.
  - intros i z d i' z' d'. rewrite !Hat. repeat case_decide; try done. by eapply Hi.
Qed.

(** A node leaves its chain. *)
Lemma unlink_node_ok s M (j : Z) sz e l1 a l2 n :
  chains_inv (nodes s) (tree_info_by_sizes s) M → slots_inv (tree_nodes_man s) (tree_info_by_sizes s) →
  slot_at (tree_info_by_sizes s) (Z.to_nat j) sz = Some e →
  chain_of (nodes s) M (Z.to_nat j) sz e (l1 ++ a :: l2) → nodes s !! a = Some n →
  ∃ m ts ns, unlink_node j e (last_or None l1) a s
             = Some (tt, set_tree_info_by_sizes ts (set_tree_nodes_man m (set_nodes ns s))) ∧
    chains_inv ns ts (delete a M) ∧ slots_inv m ts ∧ length ts = length (tree_info_by_sizes s) ∧
    ns !! a = Some n ∧ n_trunk <$> ns = n_trunk <$> nodes s.
Proof using Type.
  clear cfg env Henv. intros Hc Hsv He Hch Ha.
  destruct (tree_info_by_sizes s !! Z.to_nat j) as [t|] eqn:Ht.
  2: { unfold slot_at in He. by rewrite Ht in He. }
  destruct (slot_at_size _ _ _ (ci_trees _ _ _ Hc) Ht _ _ He) as (Hes & _).
  pose proof (nodes_rep_delete _ _ a (ci_nodes _ _ _ Hc)) as Hnr.
  pose proof (blocks_delete M a (ci_blocks _ _ _ Hc)) as Hbl.
  assert (in_slot M (Z.to_nat j) sz a) as Hia.
  { apply (ch_blocks _ _ _ _ _ _ Hch). apply elem_of_app. right. by left. }
  assert (∀ i z b, ¬ (i = Z.to_nat j ∧ z = sz) → in_slot (delete a M) i z b ↔ in_slot M i z b) as Hother.
  { intros i z b Hne. rewrite in_slot_delete. split; [naive_solver|]. intros Hb. split; [|done].
    intros ->. apply Hne. by eapply in_slot_fun. }
  unfold unlink_node. rewrite (node_at_bind _ _ _ _ Ha).
  destruct (decide (l1 = [])) as [->|Hl1].
  - cbn [last_or last]. cbv zeta. rewrite (size_tree_bind _ _ _ _ Ht), store_size_tree_bind.
    pose proof (slot_rep_pop _ _ _ _ _ _ _ _ Hch Ha) as Hpop.
    destruct (store_slot _ _ _ (ci_trees _ _ _ Hc) Ht sz e (with_head (n_next n) e) He Hes) as [Hts Hat].
    set (ts := <[Z.to_nat j := avl_tree_store t e (with_head (n_next n) e)]> (tree_info_by_sizes s)) in *.
    destruct (n_next n) as [q|] eqn:En.
    + exists (tree_nodes_man s), ts, (nodes s).
      split; [reflexivity|]. split; [|split; [|split; [unfold ts; by rewrite length_insert|done]]].
      * by eapply chains_update with (i := Z.to_nat j) (sz := sz).
      * eapply slots_inv_same; [exact Hsv|]. intros i z e'. rewrite Hat.
        case_decide as Hd; [destruct Hd as [-> ->]; intros [= <-]; by exists e|]. intros H'. by exists e'.
    + destruct (delete_size_tree_entry_ok (set_tree_info_by_sizes ts s) j sz (with_head None e) (with_head None e))
        as (m & ts' & E & Hts' & Hsv' & Hlen & Hat'); cbn [tree_info_by_sizes set_tree_info_by_sizes tree_nodes_man];
        [done| |by rewrite Hat, decide_True|done|done|].
      { eapply slots_inv_same; [exact Hsv|]. intros i z e'. rewrite Hat.
        case_decide as Hd; [destruct Hd as [-> ->]; intros [= <-]; by exists e|]. intros H'. by exists e'. }
      exists m, ts', (nodes s). split; [exact E|]. split; [|split; [done|]].
      * eapply chains_update with (i := Z.to_nat j) (sz := sz) (o := None); try done.
        intros i z. rewrite Hat'. cbn [tree_info_by_sizes set_tree_info_by_sizes].
        case_decide; [done|]. rewrite Hat. by rewrite decide_False.
      * split; [|done]. rewrite Hlen. cbn. unfold ts. by rewrite length_insert.
  - destruct (exists_last Hl1) as (l1' & p & ->).
    assert (last_or None (l1' ++ [p]) = Some p) as -> by (unfold last_or; by rewrite last_snoc).
    assert (in_slot M (Z.to_nat j) sz p) as Hip.
    { apply (ch_blocks _ _ _ _ _ _ Hch). rewrite !elem_of_app. left. right. by left. }
    destruct (in_slot_node _ _ _ _ _ (ci_nodes _ _ _ Hc) Hip) as (np & Hp & _).
    pose proof (slot_rep_unlink _ _ _ _ _ _ _ _ _ _ _ Hch Hp Ha) as Hun.
    assert (p ≠ a) as Hpa.
    { intros ->. pose proof (ch_nodup _ _ _ _ _ _ Hch) as Hd. apply nodup_middle in Hd as [_ Hd].
      apply Hd. rewrite !elem_of_app. left. right. by left. }
    exists (tree_nodes_man s), (tree_info_by_sizes s), (<[p := with_next (n_next n) np]> (nodes s)).
    split; [|split; [|split; [done|split; [done|split]]]].
    + unfold update_node. by rewrite (node_at_bind _ _ _ _ Hp).
    + eapply chains_update with (i := Z.to_nat j) (sz := sz) (o := Some e); try done.
      * by apply nodes_rep_next.
      * apply Hc.
      * intros i z. case_decide as Hd; [destruct Hd as [-> ->]; done|done].
      * intros i z b Hne Hb. apply next_in_insert_ne. intros ->. apply Hne. by eapply in_slot_fun.
    + by rewrite lookup_insert_ne.
    + rewrite fmap_insert. apply insert_id. by rewrite lookup_fmap, Hp.
Qed.
(** ** The index *)

Lemma heap_lookup ns a : (n_trunk <$> ns : heap) !! a = n_trunk <$> (ns !! a).
Proof. exact (lookup_fmap _ _ _). Qed.

Lemma indexed_blocks ns ids M i :
  nodes_rep ns M → index_inv ns ids M → indexed_info (n_trunk <$> ns) ids i ↔ ∃ a, M !! a = Some i.
Proof.
  intros Hn [_ Hp].
  assert (∀ a, a ∈ indexed ids ↔ is_Some (M !! a)) as Hin.
  { intros a. rewrite Hp, list_elem_of_fmap. split.
    - intros ([b x] & -> & Hb). rewrite elem_of_map_to_list in Hb. by exists x.
    - intros [x Hx]. exists (a, x). split; [done|]. by rewrite elem_of_map_to_list. }
  unfold indexed_info. split.
  - intros (a & [x Hx]%Hin & Ha). exists a. destruct (Hn a x Hx) as (n & Hna & <- & _).
    rewrite heap_lookup, Hna in Ha. cbn in Ha. congruence.
  - intros [a Ha]. exists a. split; [by apply Hin|]. destruct (Hn a i Ha) as (n & Hna & <- & _).
    by rewrite heap_lookup, Hna.
Qed.

Lemma index_frame ns ns' ids M :
  index_inv ns ids M → (∀ a, is_Some (M !! a) → n_trunk <$> ns' !! a = n_trunk <$> ns !! a) → index_inv ns' ids M.
Proof.
  intros [Hi Hp] Hf. split; [|done]. eapply ids_ok_heap; [exact Hi|]. intros a i Ha Hai.
  exists i. split; [|done]. rewrite heap_lookup in *. rewrite Hf; [done|].
  rewrite Hp, list_elem_of_fmap in Ha. destruct Ha as ([b x] & -> & Hb).
  rewrite elem_of_map_to_list in Hb. by exists x.
Qed.

Lemma index_insert_ok s M a n :
  index_inv (nodes s) (tree_info_by_id s) M → nodes_rep (nodes s) M → nodes s !! a = Some n →
  M !! a = None → info_ok (n_trunk n) → no_overlap M (n_trunk n) →
  ∃ k ids, index_insert env a s = Some (0, set_ticks k (set_tree_info_by_id ids s)) ∧
    index_inv (nodes s) ids (<[a := n_trunk n]> M).
Proof using Henv.
  intros Hx Hn Ha HM Hi Hno. unfold index_insert. rewrite tick_bind. run.
  destruct (trunk_free_block_insert_spec (heap_of s) (o_index (env (ticks s))) (tree_info_by_id s) a (n_trunk n))
    as (ids & E & Hids & Hp); [apply Hx| |done|apply Henv| |].
  - unfold heap_of. by rewrite heap_lookup, Ha.
  - intros i [b Hb]%(indexed_blocks _ _ M _ Hn Hx). by eapply Hno.
  - rewrite (deref_bind _ _ _ _ E). run. eexists _, ids. split; [reflexivity|]. split; [done|].
    rewrite Hp, map_to_list_insert by done. cbn. f_equiv. apply Hx.
Qed.

Lemma index_delete_ok s M a n :
  index_inv (nodes s) (tree_info_by_id s) M → nodes s !! a = Some n → is_Some (M !! a) →
  ∃ k ids r, index_delete env a s = Some (r, set_ticks k (set_tree_info_by_id ids s)) ∧
    index_inv (nodes s) ids (delete a M).
Proof.
  intros Hx Ha [x HM]. unfold index_delete. rewrite tick_bind. run.
  rewrite (node_at_bind _ n) by done.
  destruct (trunk_free_block_delete_spec (heap_of s) (o_index (env (ticks s))) (tree_info_by_id s) a (n_trunk n))
    as (r & ids & E & _ & Hids & Hp); [apply Hx| | |].
  - rewrite (xi_indexed _ _ _ Hx), list_elem_of_fmap. exists (a, x). split; [done|]. by rewrite elem_of_map_to_list.
  - unfold heap_of. by rewrite heap_lookup, Ha.
  - rewrite (deref_bind _ _ _ _ E). run. eexists _, ids, r. split; [reflexivity|]. split; [done|].
    apply (inj (cons a)). rewrite <- Hp, (xi_indexed _ _ _ Hx).
    rewrite <- (insert_delete_id M a x HM) at 1. rewrite map_to_list_insert by apply lookup_delete_eq. done.
Qed.

(** ** The total and the binlog *)

Lemma block_record_ok o op info :
  is_int32 (o_now o) → op = TRUNK_OP_TYPE_ADD_SPACE ∨ op = TRUNK_OP_TYPE_DEL_SPACE → block_ok info →
  record_ok {| timestamp := o_now o; op_type := op; trunk := info |}.
Proof.
  intros Hn Hop [((Hp1 & Hp2 & Hp3) & Hid & Ho & Hs & He) _ _ _]. unfold end_of, INT_MAX in He.
  unfold record_ok. cbn. unfold is_int32 in *. split_and!; try done; lia.
Qed.

Lemma total_add total M a info :
  total_inv total M → M !! a = None → total_inv (s64 (total + tf_size (file info))) (<[a := info]> M).
Proof.
  unfold total_inv. intros -> Ha. rewrite free_space_insert by done. rewrite s64_add_idemp. f_equal. lia.
Qed.

Lemma total_del total M a info :
  total_inv total M → M !! a = Some info → total_inv (s64 (total + - tf_size (file info))) (delete a M).
Proof.
  unfold total_inv. intros -> Ha. rewrite (free_space_delete M a info) by done.
  by rewrite s64_add_idemp.
Qed.

(** A record is written to the log. *)
Lemma binlog_now_ok s op info :
  cache_has_room (binlog s) →
  op = TRUNK_OP_TYPE_ADD_SPACE ∨ op = TRUNK_OP_TYPE_DEL_SPACE → block_ok info →
  ∃ k log r, binlog_now env op info s = Some (0, set_ticks k (set_binlog log (set_g_trunk_total_free_space
        (s64 (g_trunk_total_free_space s + (if op =? TRUNK_OP_TYPE_ADD_SPACE then 1 else -1) * tf_size (file info))) s))) ∧
    op_type r = op ∧ trunk r = info ∧ record_ok r ∧ cache_has_room log ∧
    whole_log log = whole_log (binlog s) ++ record_line r.
Proof using Henv.
  intros Hroom Hop Hb. unfold binlog_now, trunk_mem_binlog_write. rewrite tick_bind.
  set (r := {| timestamp := o_now (env (ticks s)); op_type := op; trunk := info |}).
  assert (record_ok r) as Hr by (apply block_record_ok; [apply Henv|done|done]).
  destruct (trunk_binlog_write_ok (o_io (env (S (ticks s)))) r (binlog s)) as (log & E & Hroom' & Hw');
    [apply Henv|done|done|]. unfold log_record in E. exists (S (S (ticks s))), log, r.
  split; [|by repeat (split; [done|])].
  destruct Hop as [-> | ->];
    [change (TRUNK_OP_TYPE_ADD_SPACE =? TRUNK_OP_TYPE_ADD_SPACE) with true
    |change (TRUNK_OP_TYPE_DEL_SPACE =? TRUNK_OP_TYPE_ADD_SPACE) with false;
     change (TRUNK_OP_TYPE_DEL_SPACE =? TRUNK_OP_TYPE_DEL_SPACE) with true]; cbv iota;
    rewrite add_total_bind, tick_bind; run; rewrite (deref_bind _ _ _ _ E); run; unfold mret; cbn;
    rewrite ?Z.mul_1_l, ?Z.opp_eq_mul_m1; repeat f_equal; lia.
Qed.

Lemma binlog_add_ok s M a info :
  total_inv (g_trunk_total_free_space s) M → journal_inv (binlog s) M → M !! a = None → block_ok info →
  no_overlap M info →
  ∃ k t log, binlog_now env TRUNK_OP_TYPE_ADD_SPACE info s
             = Some (0, set_ticks k (set_binlog log (set_g_trunk_total_free_space t s))) ∧
    total_inv t (<[a := info]> M) ∧ journal_inv log (<[a := info]> M).
Proof using Henv.
  intros Ht [Hroom (rs & l & Hrs & Hw & Hs & Hp)] Ha Hb Hno.
  destruct (binlog_now_ok s TRUNK_OP_TYPE_ADD_SPACE info) as (k & log & r & E & Ho & Hi & Hr & Hroom' & Hw');
    [done|by left|done|].
  eexists k, _, log. split; [exact E|]. split; [rewrite Z.eqb_refl, Z.mul_1_l; by apply total_add|]. split; [done|].
  exists (rs ++ [r]), (place info :: l). split; [by apply Forall_app_2; [|constructor]|]. split.
  - rewrite Hw', Hw. unfold lines. rewrite fmap_app, concat_app. cbn. by rewrite app_nil_r.
  - split; [|by rewrite places_insert, Hp]. rewrite <- Hi. apply sj_add; [done|done|by rewrite Hi|].
    rewrite Hi, Hp. by apply places_no_overlap.
Qed.

Lemma binlog_del_ok s M a info :
  total_inv (g_trunk_total_free_space s) M → journal_inv (binlog s) M → M !! a = Some info →
  (∀ b i, M !! b = Some i → block_ok i) → disjoint_blocks M →
  ∃ k t log, binlog_now env TRUNK_OP_TYPE_DEL_SPACE info s
             = Some (0, set_ticks k (set_binlog log (set_g_trunk_total_free_space t s))) ∧
    total_inv t (delete a M) ∧ journal_inv log (delete a M).
Proof using Henv.
  intros Ht [Hroom (rs & l & Hrs & Hw & Hs & Hp)] Ha Hb Hd.
  destruct (binlog_now_ok s TRUNK_OP_TYPE_DEL_SPACE info) as (k & log & r & E & Ho & Hi & Hr & Hroom' & Hw');
    [done|by right|by eapply Hb|].
  eexists k, _, log. split; [exact E|]. change (TRUNK_OP_TYPE_DEL_SPACE =? TRUNK_OP_TYPE_ADD_SPACE) with false.
  split; [rewrite <- Z.opp_eq_mul_m1 || replace (-1 * tf_size (file info)) with (- tf_size (file info)) by lia; by apply total_del|]. split; [done|].
  exists (rs ++ [r]), (filter (λ i, i ≠ place info) l). split; [by apply Forall_app_2; [|constructor]|]. split.
  - rewrite Hw', Hw. unfold lines. rewrite fmap_app, concat_app. cbn. by rewrite app_nil_r.
  - split; [|by rewrite <- (places_delete M a info), Hp by done]. rewrite <- Hi. apply sj_del; [done|done|].
    rewrite Hp, Hi. apply elem_of_places. by exists a, info.
Qed.

(** ** The pool of nodes *)

Lemma alloc_node_ok s U :
  pool_inv (free_blocks_man s) U →
  ∃ a m, alloc_node env s = Some (inr a, set_ticks (S (ticks s)) (set_free_blocks_man m s)) ∧
    pool_inv m ({[a]} ∪ U) ∧ a ∉ U.
Proof using Henv.
  intros [Hg (l & Hr)]. unfold alloc_node. rewrite tick_bind. run. rewrite (oo_malloc _ (Henv _)).
  destruct (fast_mblock_alloc_spec (o_errno (env (ticks s))) _ l U Hr Hg) as (a & m & l' & E & Ha & Hr' & Hp & _).
  exists a, m. rewrite (deref_bind _ _ _ _ E). split; [reflexivity|]. split; [|done].
  split; [by eapply same_pool_can_grow|by exists l'].
Qed.

Lemma free_block_pool m U a :
  pool_inv m U → a ∈ U → pool_inv (fast_mblock_free m a) (U ∖ {[a]}).
Proof. intros [Hg (l & Hr)] Ha. split; [done|]. exists (a :: l). by apply fast_mblock_free_spec. Qed.

Lemma pool_weaken m U U' : pool_inv m U → U' ⊆ U → pool_inv m U'.
Proof. intros [Hg (l & Hr)] Hs. split; [done|]. exists l. by eapply mblock_rep_weaken. Qed.
End primitives.
