(* ===== verification/TrunkMemOps.v ===== *)
(** * storage/trunk_mgr/trunk_mem.c: the operations against the map of blocks

    The operations of the allocator, each with what it does to the map of
    blocks the state stands for: adding, removing, splitting, searching,
    creating a trunk file. *)

From stdpp Require Import strings.
From S2P Require Import Prelude LinkedList RankList AvlTree CLib SharedFunc Base64 TrunkShared FastMblock.
From S2P Require Import TrunkFile StorePath FreeBlockChecker TrunkBinlog TrunkMem TrunkMemInv.
#[local] Open Scope Z_scope.

Section operations.
Context (cfg : trunk_config) (env : nat → outcome).

Abbreviation store_paths_of := (g_fdfs_store_paths (g_store cfg)).

(** The state [s] stands for the blocks [M]; the nodes [U] are in use. *)
Record core_ok (s : trunk_state) (M : blocks_map) (U : gset positive) : Prop := {
  co_chains : chains_inv (nodes s) (tree_info_by_sizes s) M;
  co_slots : slots_inv (tree_nodes_man s) (tree_info_by_sizes s);
  co_index : index_inv (nodes s) (tree_info_by_id s) M;
  co_pool : pool_inv (free_blocks_man s) U;
  co_used : dom M ⊆ U;
  co_disjoint : disjoint_blocks M;
  co_files : files_inv store_paths_of (trunk_files s) M;
  co_paths : length (tree_info_by_sizes s) = length (paths store_paths_of);
}.

(** The total and the binlog account for the blocks [M]. *)
Definition ledger_ok (s : trunk_state) (M : blocks_map) : Prop :=
  total_inv (g_trunk_total_free_space s) M ∧ journal_inv (binlog s) M.

(** What the operations on the indexes leave alone. *)
Record same_env (s s' : trunk_state) : Prop := {
  se_flag : trunk_init_flag s' = trunk_init_flag s;
  se_id : g_current_trunk_file_id s' = g_current_trunk_file_id s;
  se_dist : dist s' = dist s;
  se_files : trunk_files s' = trunk_files s;
}.

Lemma same_env_refl s : same_env s s.
Proof. done. Qed.
Lemma same_env_trans s1 s2 s3 : same_env s1 s2 → same_env s2 s3 → same_env s1 s3.
Proof. intros [] []. split; congruence. Qed.

(** A node that is not linked may change. *)
Lemma core_store s M U a n :
  core_ok s M U → M !! a = None → core_ok (set_nodes (<[a := n]> (nodes s)) s) M U.
Proof.
  intros [Hc Hs Hx Hp Hu Hd Hf Hl] Ha. split; cbn; try done.
  - destruct Hc as [Hn Hb Ht Hsl]. split; [|done|done|].
    + intros b info Hbi. rewrite lookup_insert_ne by congruence. by apply Hn.
    + intros i sz. eapply slot_rep_frame; [|done|apply Hsl]. intros b (x & Hx' & _).
      apply next_in_insert_ne. congruence.
  - eapply index_frame; [exact Hx|]. intros b [x Hx']. rewrite lookup_insert_ne; [done|congruence].
Qed.

Lemma core_block s M U a info : core_ok s M U → M !! a = Some info → block_ok info.
Proof. intros Hc. by apply (ci_blocks _ _ _ (co_chains _ _ _ Hc)). Qed.

Lemma core_node s M U a info :
  core_ok s M U → M !! a = Some info → ∃ n, nodes s !! a = Some n ∧ n_trunk n = info ∧ n_pMblockNode n = a.
Proof. intros Hc. by apply (ci_nodes _ _ _ (co_chains _ _ _ Hc)). Qed.

Lemma overlap_sym i j : overlap i j → overlap j i.
Proof. unfold overlap. intros (-> & H1 & H2). done. Qed.

Lemma disjoint_insert M a info : disjoint_blocks M → no_overlap M info → disjoint_blocks (<[a := info]> M).
Proof.
  intros Hd Hn b c i j. rewrite !lookup_insert_Some.
  intros [[<- <-]|[Hb Hi]] [[<- <-]|[Hc Hj]] Hne; [done|by eapply Hn| |by eapply Hd].
  intros Ho%overlap_sym. by apply (Hn b i).
Qed.

Lemma disjoint_delete M a : disjoint_blocks M → disjoint_blocks (delete a M).
Proof. intros Hd b c i j [_ Hi]%lookup_delete_Some [_ Hj]%lookup_delete_Some. by apply Hd. Qed.

(** The file of a block exists. *)
Definition file_exists (s : trunk_state) (info : FDFSTrunkFullInfo) : Prop :=
  ∃ name, trunk_get_full_filename_ex store_paths_of info MAX_PATH_SIZE = Some name ∧ is_Some (trunk_files s !! name).

Lemma files_insert s M a info :
  files_inv store_paths_of (trunk_files s) M → file_exists s info →
  files_inv store_paths_of (trunk_files s) (<[a := info]> M).
Proof. intros Hf Hi b i [[-> ->]|[_ H]]%lookup_insert_Some; [done|by eapply Hf]. Qed.

Lemma file_exists_path s info :
  file_exists s info → (path_of info < length (paths store_paths_of))%nat.
Proof.
  intros (name & E & _). unfold trunk_get_full_filename_ex in E.
  apply stdpp.option.bind_Some in E as (p & Hp & _). by eapply lookup_lt_Some.
Qed.

Hypothesis Henv : ∀ n, outcome_ok (env n).

(** ** Adding a block *)

Lemma check_duplicate_ok s M U info :
  core_ok s M U → info_ok info →
  ∃ r, trunk_free_block_check_duplicate (heap_of s) (tree_info_by_id s) info = Some r ∧
    ((r = EEXIST ∧ ¬ no_overlap M info) ∨ (r = 0 ∧ no_overlap M info)).
Proof.
  intros Hc Hi. pose proof (co_index _ _ _ Hc) as Hx.
  destruct (trunk_free_block_check_duplicate_spec (heap_of s) (tree_info_by_id s) info (xi_ids _ _ _ Hx) Hi)
    as (r & E & H). exists r. split; [exact E|].
  assert (∀ i, indexed_info (heap_of s) (tree_info_by_id s) i ↔ ∃ a, M !! a = Some i) as Hin.
  { intros i. apply indexed_blocks; [apply Hc|done]. }
  destruct H as [(-> & i & [a Ha]%Hin & Ho)|(-> & Hno)]; [left|right]; (split; [done|]).
  - intros Hno. by apply (Hno a i).
  - intros a i Ha. apply Hno, Hin. by exists a.
Qed.

(** The indexes after [trunk_add_free_block]. *)
Lemma core_added s s' M U a n p :
  core_ok s M U → a ∈ U → block_ok (n_trunk n) → no_overlap M (n_trunk n) → file_exists s (n_trunk n) →
  nodes s' = <[a := with_next p n]> (nodes s) →
  chains_inv (nodes s') (tree_info_by_sizes s') (<[a := n_trunk n]> M) →
  slots_inv (tree_nodes_man s') (tree_info_by_sizes s') →
  length (tree_info_by_sizes s') = length (tree_info_by_sizes s) →
  index_inv (nodes s') (tree_info_by_id s') (<[a := n_trunk n]> M) →
  free_blocks_man s' = free_blocks_man s → trunk_files s' = trunk_files s →
  core_ok s' (<[a := n_trunk n]> M) U.
Proof.
  intros Hc Ha Hb Hno Hf Hn Hch Hsl Hlen Hx Hfm Hfi. split; try done.
  - rewrite Hfm. apply Hc.
  - rewrite dom_insert. pose proof (co_used _ _ _ Hc). set_solver.
  - apply disjoint_insert; [apply Hc|done].
  - rewrite Hfi. apply files_insert; [apply Hc|done].
  - rewrite Hlen. apply Hc.
Qed.

(** What [trunk_add_free_block] does to the total and the binlog. *)
Definition log_added (bWriteBinLog : bool) (info : FDFSTrunkFullInfo) : prog trunk_state Z :=
  if bWriteBinLog then binlog_now env TRUNK_OP_TYPE_ADD_SPACE info
  else add_total (tf_size (file info));; mret 0.

(** [trunk_add_free_block], given what it does to the total and the binlog. *)
Lemma trunk_add_free_block_gen w (Q : Z → trunk_binlog → Prop) s M U a n :
  core_ok s M U → nodes s !! a = Some n → n_pMblockNode n = a → a ∈ U → M !! a = None →
  block_ok (n_trunk n) → file_exists s (n_trunk n) →
  (∀ s1, no_overlap M (n_trunk n) →
     g_trunk_total_free_space s1 = g_trunk_total_free_space s → binlog s1 = binlog s →
     ∃ k t log, log_added w (n_trunk n) s1
                = Some (0, set_ticks k (set_binlog log (set_g_trunk_total_free_space t s1))) ∧ Q t log) →
  (¬ no_overlap M (n_trunk n) ∧ trunk_add_free_block env a w s = Some (EEXIST, s)) ∨
  (no_overlap M (n_trunk n) ∧ ∃ s' p, trunk_add_free_block env a w s = Some (0, s') ∧
     core_ok s' (<[a := n_trunk n]> M) U ∧ Q (g_trunk_total_free_space s') (binlog s') ∧ same_env s s' ∧
     nodes s' = <[a := with_next p n]> (nodes s)).
Proof using Henv.
  intros Hc Ha Hmb HaU HM Hb Hf Hlog. unfold trunk_add_free_block.
  rewrite (node_at_bind _ _ _ _ Ha). run.
  destruct (check_duplicate_ok s M U (n_trunk n) Hc (bo_info _ Hb)) as (r & E & [[-> Ho]|[-> Hno]]).
  { left. split; [done|]. by rewrite (deref_bind _ _ _ _ E). }
  right. split; [done|]. rewrite (deref_bind _ _ _ _ E). change (c_true 0) with false. cbv iota.
  pose proof (file_exists_path _ _ Hf) as Hp.
  destruct (link_node_ok env Henv s M a n) as (k & m & ts & p & El & Hch & Hsl & Hlen);
    [apply Hc|apply Hc|done..|by rewrite (co_paths _ _ _ Hc)|].
  rewrite (bind_run _ _ _ _ _ El). change (c_true 0) with false. cbv iota.
  destruct (Hlog (set_ticks k (set_tree_info_by_sizes ts (set_tree_nodes_man m
    (set_nodes (<[a := with_next p n]> (nodes s)) s)))) Hno eq_refl eq_refl) as (k2 & t & log & Eb & HQ).
  rewrite (bind_run _ _ _ _ _ Eb). change (0 =? 0) with true. cbv iota.
  match type of Eb with _ = Some (_, ?x) => set (s1 := x) in * end.
  destruct (index_insert_ok env Henv s1 M a (with_next p n)) as (k3 & ids & Ei & Hx).
  - eapply index_frame; [apply Hc|]. intros b [x Hx]. cbn. rewrite lookup_insert_ne; [done|congruence].
  - intros b info Hbi. cbn. rewrite lookup_insert_ne by congruence. by apply (co_chains _ _ _ Hc).
  - apply lookup_insert_eq.
  - done.
  - apply Hb.
  - done.
  - eexists _, p. split; [exact Ei|]. split; [|split; [done|by split]].
    by eapply (core_added s _ M U a n p).
Qed.

(** With the binlog. *)
Lemma trunk_add_free_block_ok s M U a n :
  core_ok s M U → ledger_ok s M → nodes s !! a = Some n → n_pMblockNode n = a → a ∈ U → M !! a = None →
  block_ok (n_trunk n) → file_exists s (n_trunk n) →
  (¬ no_overlap M (n_trunk n) ∧ trunk_add_free_block env a true s = Some (EEXIST, s)) ∨
  (no_overlap M (n_trunk n) ∧ ∃ s' p, trunk_add_free_block env a true s = Some (0, s') ∧
     core_ok s' (<[a := n_trunk n]> M) U ∧ ledger_ok s' (<[a := n_trunk n]> M) ∧ same_env s s' ∧
     nodes s' = <[a := with_next p n]> (nodes s)).
Proof using Henv.
  intros Hc [Ht Hj] Ha Hmb HaU HM Hb Hf.
  apply (trunk_add_free_block_gen true (λ t log, total_inv t (<[a := n_trunk n]> M) ∧
    journal_inv log (<[a := n_trunk n]> M))); try done.
  intros s1 Hno Et Eb. apply (binlog_add_ok env Henv); [by rewrite Et|by rewrite Eb|done|done|done].
Qed.

(** Without: when the blocks are loaded. *)
Lemma trunk_add_free_block_load s M U a n :
  core_ok s M U → total_inv (g_trunk_total_free_space s) M → nodes s !! a = Some n → n_pMblockNode n = a →
  a ∈ U → M !! a = None → block_ok (n_trunk n) → file_exists s (n_trunk n) →
  (¬ no_overlap M (n_trunk n) ∧ trunk_add_free_block env a false s = Some (EEXIST, s)) ∨
  (no_overlap M (n_trunk n) ∧ ∃ s' p, trunk_add_free_block env a false s = Some (0, s') ∧
     core_ok s' (<[a := n_trunk n]> M) U ∧
     (total_inv (g_trunk_total_free_space s') (<[a := n_trunk n]> M) ∧ binlog s' = binlog s) ∧ same_env s s' ∧
     nodes s' = <[a := with_next p n]> (nodes s)).
Proof using Henv.
  intros Hc Ht Ha Hmb HaU HM Hb Hf.
  apply (trunk_add_free_block_gen false (λ t log, total_inv t (<[a := n_trunk n]> M) ∧ log = binlog s)); try done.
  intros s1 _ Et Eb. unfold log_added. rewrite add_total_bind, Et. exists (ticks s1), (s64
    (g_trunk_total_free_space s + tf_size (file (n_trunk n)))), (binlog s1).
  split; [reflexivity|]. split; [by apply total_add|done].
Qed.
(** ** Giving space back *)

Definition free_info (info : FDFSTrunkFullInfo) : FDFSTrunkFullInfo := with_status FDFS_TRUNK_STATUS_FREE info.

Lemma block_ok_status info st :
  st = FDFS_TRUNK_STATUS_FREE ∨ st = FDFS_TRUNK_STATUS_HOLD → info_ok info → end_of info < INT_MAX →
  0 ≤ tf_id (file info) → block_ok (with_status st info).
Proof. intros. by split. Qed.

Lemma no_overlap_place M i i' : path i' = path i → file i' = file i → no_overlap M i → no_overlap M i'.
Proof.
  intros Hp Hf Hn a j Ha Ho. apply (Hn a j Ha). unfold overlap, FILL_FILE_IDENTIFIER, end_of in *.
  by rewrite <- Hp, <- Hf.
Qed.

Lemma file_exists_place s i i' : path i' = path i → file i' = file i → file_exists s i → file_exists s i'.
Proof.
  intros Hp Hf (name & E & H). exists name. split; [|done]. unfold trunk_get_full_filename_ex in *.
  by rewrite Hp, Hf.
Qed.

Lemma file_exists_env s s' i : trunk_files s' = trunk_files s → file_exists s i → file_exists s' i.
Proof. unfold file_exists. by intros ->. Qed.

Lemma core_env s s' M U :
  nodes s' = nodes s → free_blocks_man s' = free_blocks_man s → tree_nodes_man s' = tree_nodes_man s →
  tree_info_by_sizes s' = tree_info_by_sizes s → tree_info_by_id s' = tree_info_by_id s →
  trunk_files s' = trunk_files s → core_ok s M U → core_ok s' M U.
Proof. intros E1 E2 E3 E4 E5 E6 []. split; rewrite ?E1, ?E2, ?E3, ?E4, ?E5, ?E6; done. Qed.

(** A node from the pool, with its content stored. *)
Lemma core_alloc s M U :
  core_ok s M U →
  ∃ a m, alloc_node env s = Some (inr a, set_ticks (S (ticks s)) (set_free_blocks_man m s)) ∧
    a ∉ U ∧ M !! a = None ∧
    core_ok (set_ticks (S (ticks s)) (set_free_blocks_man m s)) M ({[a]} ∪ U) ∧
    ∀ n, core_ok (set_nodes (<[a := n]> (nodes s)) (set_ticks (S (ticks s)) (set_free_blocks_man m s))) M ({[a]} ∪ U).
Proof using Henv.
  intros Hc. destruct (alloc_node_ok env Henv s U (co_pool _ _ _ Hc)) as (a & m & E & Hp & Ha).
  pose proof (co_used _ _ _ Hc) as Hu.
  assert (M !! a = None) as HM by (apply not_elem_of_dom; set_solver).
  assert (core_ok (set_ticks (S (ticks s)) (set_free_blocks_man m s)) M ({[a]} ∪ U)) as Hc'.
  { destruct Hc. split; try done. set_solver. }
  exists a, m. split; [done|]. split; [done|]. split; [done|]. split; [done|]. intros n.
  by apply (core_store (set_ticks (S (ticks s)) (set_free_blocks_man m s))).
Qed.

(** [trunk_free_space]: a small block is ignored, an overlapping one
    refused (its node is lost), another one added. *)
Lemma trunk_free_space_gen w (Q : positive → Z → trunk_binlog → Prop) s M U info :
  core_ok s M U → g_if_trunker_self cfg = true → (trunk_init_flag s = STORAGE_TRUNK_INIT_FLAG_DONE ∨ w = false) →
  info_ok info → end_of info < INT_MAX → 0 ≤ tf_id (file info) → file_exists s info →
  (∀ a s1, M !! a = None → no_overlap M (free_info info) →
     g_trunk_total_free_space s1 = g_trunk_total_free_space s → binlog s1 = binlog s →
     ∃ k t log, log_added w (free_info info) s1
                = Some (0, set_ticks k (set_binlog log (set_g_trunk_total_free_space t s1))) ∧ Q a t log) →
  (tf_size (file info) < g_slot_min_size cfg ∧ trunk_free_space cfg env info w s = Some (0, s)) ∨
  (g_slot_min_size cfg ≤ tf_size (file info) ∧ ¬ no_overlap M info ∧
   ∃ s' U', trunk_free_space cfg env info w s = Some (EEXIST, s') ∧ core_ok s' M U' ∧ same_env s s' ∧
     g_trunk_total_free_space s' = g_trunk_total_free_space s ∧ binlog s' = binlog s) ∨
  (g_slot_min_size cfg ≤ tf_size (file info) ∧ no_overlap M info ∧
   ∃ s' U' a, trunk_free_space cfg env info w s = Some (0, s') ∧ M !! a = None ∧
     core_ok s' (<[a := free_info info]> M) U' ∧ same_env s s' ∧
     Q a (g_trunk_total_free_space s') (binlog s')).
Proof using Henv.
  intros Hc Hself Hflag Hi He Hid Hf Hlog. unfold trunk_free_space. run. rewrite Hself. cbn [negb].
  assert (negb (trunk_init_flag s =? STORAGE_TRUNK_INIT_FLAG_DONE) && w = false) as ->.
  { destruct Hflag as [-> | ->]; [done|apply andb_false_r]. }
  destruct (Z.ltb_spec (tf_size (file info)) (g_slot_min_size cfg)) as [Hlt|Hge]; [by left|right].
  destruct (core_alloc s M U Hc) as (a & m & E & HaU & HM & _ & Hst).
  rewrite (bind_run _ _ _ _ _ E), store_node_bind.
  set (n := {| n_trunk := with_status FDFS_TRUNK_STATUS_FREE info; n_pMblockNode := a; n_next := None |}).
  specialize (Hst n). set (s1 := set_nodes _ _) in *.
  change (set_nodes (<[a := n]> (nodes (set_ticks (S (ticks s)) (set_free_blocks_man m s))))
    (set_ticks (S (ticks s)) (set_free_blocks_man m s))) with s1.
  assert (block_ok (n_trunk n)) as Hb by (apply block_ok_status; [by left|done|done|done]).
  assert (file_exists s1 (n_trunk n)) as Hf' by done.
  assert (n_trunk n = free_info info) as En by done.
  destruct (trunk_add_free_block_gen w (Q a) s1 M ({[a]} ∪ U) a n) as [[Ho E1]|(Hno & s' & p & E1 & Hc' & HQ & Hs & _)];
    [exact Hst|apply lookup_insert_eq|done|set_solver|done|done|done| | |].
  - intros s2 Hno Et Eb. apply Hlog; [done|done|by rewrite Et|by rewrite Eb].
  - left. split; [done|]. split.
    { intros Hno. apply Ho. by apply (no_overlap_place M info). }
    exists s1, ({[a]} ∪ U). by rewrite E1.
  - right. split; [done|]. split; [by apply (no_overlap_place M (n_trunk n) info)|].
    exists s', ({[a]} ∪ U), a. rewrite E1. split; [done|]. split; [done|]. split; [exact Hc'|]. split; [|exact HQ].
    eapply same_env_trans; [|exact Hs]. done.
Qed.

(** With the ledger, on a trunk server that is ready. *)
Lemma trunk_free_space_ok s M U info :
  core_ok s M U → ledger_ok s M → g_if_trunker_self cfg = true →
  trunk_init_flag s = STORAGE_TRUNK_INIT_FLAG_DONE →
  info_ok info → end_of info < INT_MAX → 0 ≤ tf_id (file info) → file_exists s info →
  (tf_size (file info) < g_slot_min_size cfg ∧ trunk_free_space cfg env info true s = Some (0, s)) ∨
  (g_slot_min_size cfg ≤ tf_size (file info) ∧ ¬ no_overlap M info ∧
   ∃ s' U', trunk_free_space cfg env info true s = Some (EEXIST, s') ∧ core_ok s' M U' ∧ ledger_ok s' M ∧
     same_env s s') ∨
  (g_slot_min_size cfg ≤ tf_size (file info) ∧ no_overlap M info ∧
   ∃ s' U' a, trunk_free_space cfg env info true s = Some (0, s') ∧ M !! a = None ∧
     core_ok s' (<[a := free_info info]> M) U' ∧ ledger_ok s' (<[a := free_info info]> M) ∧ same_env s s').
Proof using Henv.
  intros Hc [Ht Hj] Hself Hflag Hi He Hid Hf.
  destruct (trunk_free_space_gen true (λ a t log, total_inv t (<[a := free_info info]> M) ∧
      journal_inv log (<[a := free_info info]> M)) s M U info)
    as [H|[(Hs & Ho & s' & U' & E & Hc' & He' & Et & Eb)|(Hs & Ho & s' & U' & a & E & Ha & Hc' & He' & Hl')]];
    [done|done|by left|done|done|done|done| |by left|right; left|right; right].
  - intros a s1 Ha Hno Et Eb. apply binlog_add_ok; [done|by rewrite Et|by rewrite Eb|done| |done].
    apply block_ok_status; [by left|done|done|done].
  - split; [done|]. split; [done|]. exists s', U'. split; [done|]. split; [done|]. split; [|done].
    unfold ledger_ok. by rewrite Et, Eb.
  - split; [done|]. split; [done|]. exists s', U', a. done.
Qed.

(** ** Taking a block out *)

Lemma remove_block_ok s M U (j : Z) sz e l1 a l2 n :
  core_ok s M U → slot_at (tree_info_by_sizes s) (Z.to_nat j) sz = Some e →
  chain_of (nodes s) M (Z.to_nat j) sz e (l1 ++ a :: l2) → nodes s !! a = Some n →
  ∃ s1 s' r, unlink_node j e (last_or None l1) a s = Some (tt, s1) ∧ index_delete env a s1 = Some (r, s') ∧
    core_ok s' (delete a M) U ∧ nodes s' !! a = Some n ∧ same_env s s' ∧
    g_trunk_total_free_space s' = g_trunk_total_free_space s ∧ binlog s' = binlog s.
Proof.
  intros Hc He Hch Ha.
  destruct (unlink_node_ok s M j sz e l1 a l2 n) as (m & ts & ns & E & Hc' & Hsl & Hlen & Hna & Hns);
    [apply Hc|apply Hc|done..|].
  set (s1 := set_tree_info_by_sizes ts (set_tree_nodes_man m (set_nodes ns s))) in *.
  assert (is_Some (M !! a)) as HM.
  { assert (in_slot M (Z.to_nat j) sz a) as (x & Hx & _); [|by exists x].
    apply (ch_blocks _ _ _ _ _ _ Hch), elem_of_app. right. by left. }
  destruct (index_delete_ok env s1 M a n) as (k & ids & r & E2 & Hx); [|done|done|].
  { eapply index_frame; [apply Hc|]. intros b _. cbn.
    assert ((n_trunk <$> ns) !! b = (n_trunk <$> nodes s) !! b) as Eb by by rewrite Hns.
    by rewrite !lookup_fmap in Eb. }
  exists s1. eexists _, r. split; [done|]. split; [exact E2|]. split; [|done].
  split; cbn; try done.
  - apply Hc.
  - pose proof (co_used _ _ _ Hc). rewrite dom_delete. set_solver.
  - apply disjoint_delete, Hc.
  - intros b i [_ Hb]%lookup_delete_Some. by eapply (co_files _ _ _ Hc).
  - rewrite Hlen. apply Hc.
Qed.
(** ** Confirming an allocation *)

Lemma same_info_spec x y : block_ok x → block_ok y → same_info x y = true ↔ x = y.
Proof.
  intros [(_ & Hx1 & Hx2 & Hx3 & Hx4) _ _ Hxs] [(_ & Hy1 & Hy2 & Hy3 & Hy4) _ _ Hys].
  unfold same_info, end_of, INT_MAX in *. rewrite Z.eqb_eq. split.
  2: { intros ->. destruct y as [st [pi ph pl] [fi fo fs]]. unfold info_bytes. cbn.
       rewrite !Z.ltb_irrefl. done. }
  intros E. apply memcmp_eq in E; [|done]. destruct x as [st [pi ph pl] [fi fo fs]], y as [st' [pi' ph' pl'] [fi' fo' fs']].
  unfold info_bytes in E. cbn [status path file store_path_index sub_path_high sub_path_low tf_id tf_offset tf_size] in *.
  injection E as E1 -> -> -> E2. intros.
  assert (st = st') as -> by (destruct Hxs as [-> | ->], Hys as [-> | ->]; done).
  assert (fi = fi' ∧ fo = fo' ∧ fs = fs') as (-> & -> & ->); [|done].
  split; [|split]; (apply int_bytes_le_inj; [unfold is_int32 in *; lia..|unfold int_bytes_le; congruence]).
Qed.

Lemma slot_exists s M U a info :
  core_ok s M U → M !! a = Some info →
  ∃ e, slot_at (tree_info_by_sizes s) (path_of info) (tf_size (file info)) = Some e.
Proof.
  intros Hc Ha. destruct (ci_slots _ _ _ (co_chains _ _ _ Hc) (path_of info) (tf_size (file info)))
    as (c & Hl & _ & _ & Hin). destruct (slot_at _ _ _) as [e|]; [by exists e|].
  apply llist_null in Hl as ->. assert (a ∈ @nil positive) as []%not_elem_of_nil.
  apply Hin. by exists info.
Qed.

Lemma block_unique s M U a b info : core_ok s M U → M !! a = Some info → M !! b = Some info → a = b.
Proof.
  intros Hc Ha Hb. destruct (decide (a = b)) as [|Hne]; [done|].
  destruct (co_disjoint _ _ _ Hc a b info info Ha Hb Hne).
  apply place_overlap; [by eapply core_block|done].
Qed.

(** The search for a block that is equal to the one given. *)
Lemma find_block s M U info :
  core_ok s M U → block_ok info → (path_of info < length (paths store_paths_of))%nat →
  ∃ t, tree_info_by_sizes s !! path_of info = Some t ∧
    ((∃ a e l1 l2, M !! a = Some info ∧ avl_tree_find t (target_slot (tf_size (file info))) = Some e ∧
        slot_at (tree_info_by_sizes s) (path_of info) (tf_size (file info)) = Some e ∧
        chain_of (nodes s) M (path_of info) (tf_size (file info)) e (l1 ++ a :: l2) ∧
        search_chain (λ i, same_info i info) s e = Some (last_or None l1, Some a)) ∨
     ((∀ a, M !! a ≠ Some info) ∧
      (avl_tree_find t (target_slot (tf_size (file info))) = None ∨
       ∃ e p, avl_tree_find t (target_slot (tf_size (file info))) = Some e ∧
         search_chain (λ i, same_info i info) s e = Some (p, None)))).
Proof.
  intros Hc Hb Hp. rewrite <- (co_paths _ _ _ Hc) in Hp.
  destruct (lookup_lt_is_Some_2 _ _ Hp) as [t Ht]. exists t. split; [done|].
  pose proof (co_chains _ _ _ Hc) as Hch. pose proof (block_size_range _ Hb) as Hsz.
  rewrite (find_slot _ _ _ (ci_trees _ _ _ Hch) Ht) by lia.
  destruct (slot_at _ _ _) as [e|] eqn:Ee.
  2: { right. split; [|by left]. intros a Ha. destruct (slot_exists _ _ _ _ _ Hc Ha). congruence. }
  pose proof (ci_slots _ _ _ Hch (path_of info) (tf_size (file info))) as Hsl. rewrite Ee in Hsl.
  destruct (search_chain_spec (λ i, same_info i info) s M _ _ e (ci_nodes _ _ _ Hch) Hsl)
    as (l1 & l2 & Hchain & E & H1 & H2).
  assert (∀ b i, M !! b = Some i → same_info i info = true → i = info) as Hsame.
  { intros b i Hbi Hs. apply same_info_spec; [by eapply core_block|done|done]. }
  destruct l2 as [|b l2]; cbn [head] in *.
  - right. rewrite app_nil_r in Hchain. split; [|right; by exists e, (last_or None l1)].
    intros a Ha. assert (a ∈ l1) as Hin by (apply (ch_blocks _ _ _ _ _ _ Hchain); by exists info).
    assert (same_info info info = true) as Ht' by by apply same_info_spec.
    by rewrite (H1 a info Hin Ha) in Ht'.
  - left. assert (in_slot M (path_of info) (tf_size (file info)) b) as (i & Hbi & _).
    { apply (ch_blocks _ _ _ _ _ _ Hchain), elem_of_app. right. by left. }
    pose proof (Hsame b i Hbi (H2 b i eq_refl Hbi)) as ->. by exists b, e, l1, l2.
Qed.

(** [trunk_delete_space] removes the block it is given. *)
Lemma trunk_delete_space_ok s M U a info :
  core_ok s M U → ledger_ok s M → M !! a = Some info →
  ∃ s', trunk_delete_space env info true s = Some (0, s') ∧ core_ok s' (delete a M) (U ∖ {[a]}) ∧
    ledger_ok s' (delete a M) ∧ same_env s s'.
Proof using Henv.
  intros Hc [Ht Hj] Ha. pose proof (core_block _ _ _ _ _ Hc Ha) as Hb.
  destruct (find_block s M U info Hc Hb) as (t & Htr & [(b & e & l1 & l2 & Hbi & Ef & Ee & Hchain & Es)|[Hno _]]).
  { apply (file_exists_path s), (co_files _ _ _ Hc a), Ha. }
  2: { by destruct (Hno a). }
  assert (b = a) as -> by by eapply block_unique. clear Hbi.
  destruct (core_node _ _ _ _ _ Hc Ha) as (n & Hn & Hni & Hnb).
  unfold trunk_delete_space. cbv zeta. rewrite (size_tree_bind _ _ _ _ Htr), Ef. run.
  rewrite (deref_bind _ _ _ _ Es). cbv beta iota.
  destruct (remove_block_ok s M U (store_path_index (path info)) (tf_size (file info)) e l1 a l2 n)
    as (s1 & s2 & r & E1 & E2 & Hc2 & Hn2 & Henv2 & Ht2 & Hj2); [done..|].
  rewrite (bind_run _ _ _ _ _ E1). run. rewrite (bind_run _ _ _ _ _ E2), (node_at_bind _ _ _ _ Hn2), Hni.
  destruct (binlog_del_ok env Henv s2 M a info) as (k & tot & log & E3 & Ht3 & Hj3);
    [by rewrite Ht2|by rewrite Hj2|done|by intros b i; eapply core_block|apply Hc|].
  rewrite (bind_run _ _ _ _ _ E3).
  match type of E3 with _ = Some (_, ?x) => set (s3 := x) in * end.
  unfold free_node. run. rewrite (node_at_bind _ n) by done. rewrite Hnb.
  eexists. split; [reflexivity|]. split; [|split; [by split|]].
  - pose proof (co_used _ _ _ Hc) as Hu. assert (a ∈ U) as HaU by (apply Hu, elem_of_dom; by exists info).
    destruct Hc2. split; try done.
    + by apply free_block_pool.
    + rewrite dom_delete. set_solver.
  - eapply same_env_trans; [exact Henv2|]. done.
Qed.

(** [trunk_delete_space] and [trunk_restore_node] of an unknown block. *)
Lemma trunk_delete_space_absent s M U info w :
  core_ok s M U → block_ok info → (path_of info < length (paths store_paths_of))%nat →
  (∀ a, M !! a ≠ Some info) →
  trunk_delete_space env info w s = Some (ENOENT, s) ∧ trunk_restore_node info s = Some (ENOENT, s).
Proof.
  intros Hc Hb Hp Hno.
  destruct (find_block s M U info Hc Hb Hp) as (t & Htr & [(a & ? & ? & ? & Ha & _)|[_ [E|(e & p & E & Es)]]]).
  { by destruct (Hno a). }
  - unfold trunk_delete_space, trunk_restore_node. cbv zeta. by rewrite !(size_tree_bind _ _ _ _ Htr), E.
  - unfold trunk_delete_space, trunk_restore_node. cbv zeta. rewrite !(size_tree_bind _ _ _ _ Htr), E. run.
    by rewrite !(deref_bind _ _ _ _ Es).
Qed.

Lemma map_to_list_here (M : blocks_map) (a : positive) i :
  M !! a = Some i → map_to_list M ≡ₚ (a, i) :: map_to_list (delete a M).
Proof. intros Ha. rewrite <- (insert_delete_id M a i Ha) at 1. apply map_to_list_insert, lookup_delete_eq. Qed.

Lemma map_to_list_update (M : blocks_map) (a : positive) i i' :
  M !! a = Some i → map_to_list (<[a := i']> M) ≡ₚ (a, i') :: map_to_list (delete a M).
Proof. intros _. rewrite <- insert_delete_eq. apply map_to_list_insert, lookup_delete_eq. Qed.

(** The status of a linked block changes. *)
Lemma core_status s M U a n st :
  core_ok s M U → M !! a = Some (n_trunk n) → nodes s !! a = Some n →
  st = FDFS_TRUNK_STATUS_FREE ∨ st = FDFS_TRUNK_STATUS_HOLD →
  core_ok (set_nodes (<[a := with_trunk (with_status st (n_trunk n)) n]> (nodes s)) s)
    (<[a := with_status st (n_trunk n)]> M) U.
Proof.
  intros Hc Ha Hn Hst. pose proof (core_block _ _ _ _ _ Hc Ha) as Hb.
  assert (block_ok (with_status st (n_trunk n))) as Hb' by (apply block_ok_status; [done|apply Hb..]).
  assert (no_overlap (delete a M) (n_trunk n)) as Hno.
  { intros b i [Hne Hi]%lookup_delete_Some. by apply (co_disjoint _ _ _ Hc a b). }
  pose proof Hc as [Hch Hs Hx Hp Hu Hd Hf Hl]. split; cbn; try done.
  - destruct Hch as [Hnr Hbl Htr Hsl]. split; [| |done|].
    + destruct (Hnr a _ Ha) as (n' & Hn' & _ & Hmb). rewrite Hn in Hn'. injection Hn' as <-.
      exact (nodes_rep_insert _ _ a (with_trunk (with_status st (n_trunk n)) n) Hnr Hmb).
    + by apply blocks_insert.
    + intros i sz. eapply slot_rep_frame; [| |apply Hsl].
      * intros b _. unfold next_in. destruct (decide (b = a)) as [->|];
          [by rewrite lookup_insert_eq, Hn|by rewrite lookup_insert_ne].
      * intros b. rewrite in_slot_insert. destruct (decide (b = a)) as [->|]; [|naive_solver].
        unfold in_slot. rewrite Ha. naive_solver.
  - destruct Hx as [Hids Hp']. split.
    + eapply ids_ok_heap; [exact Hids|]. intros b i _. rewrite !heap_lookup.
      destruct (decide (b = a)) as [->|].
      * rewrite lookup_insert_eq, Hn. cbn. intros [= <-]. eexists. split; [done|]. done.
      * rewrite lookup_insert_ne by done. intros Hi. by exists i.
    + rewrite Hp'. by rewrite (map_to_list_update _ _ _ _ Ha), (map_to_list_here _ _ _ Ha).
  - rewrite dom_insert. assert (a ∈ dom M) by (apply elem_of_dom; by exists (n_trunk n)). set_solver.
  - rewrite <- insert_delete_eq. apply disjoint_insert; [by apply disjoint_delete|].
    by apply (no_overlap_place _ (n_trunk n)).
  - apply files_insert; [done|]. apply (file_exists_place _ (n_trunk n)); [done..|]. by apply (Hf a).
Qed.

(** The ledger does not see the status. *)
Lemma ledger_status s M a info st :
  ledger_ok s M → M !! a = Some info → ledger_ok s (<[a := with_status st info]> M).
Proof.
  intros [Ht [Hr (rs & l & H1 & H2 & H3 & H4)]] Ha. split.
  - unfold total_inv in *. rewrite Ht. f_equal. rewrite <- insert_delete_eq, free_space_insert
      by apply lookup_delete_eq. rewrite (free_space_delete M a info) by done. cbn. lia.
  - split; [done|]. exists rs, l. split; [done|]. split; [done|]. split; [done|]. rewrite H4.
    unfold places. by rewrite (map_to_list_update _ _ _ _ Ha), (map_to_list_here _ _ _ Ha).
Qed.

Lemma trunk_restore_node_ok s M U a info :
  core_ok s M U → ledger_ok s M → M !! a = Some info →
  ∃ s', trunk_restore_node info s = Some (0, s') ∧ core_ok s' (<[a := free_info info]> M) U ∧
    ledger_ok s' (<[a := free_info info]> M) ∧ same_env s s'.
Proof.
  intros Hc Hl Ha. pose proof (core_block _ _ _ _ _ Hc Ha) as Hb.
  destruct (find_block s M U info Hc Hb) as (t & Htr & [(b & e & l1 & l2 & Hbi & Ef & Ee & Hchain & Es)|[Hno _]]).
  { apply (file_exists_path s), (co_files _ _ _ Hc a), Ha. }
  2: { by destruct (Hno a). }
  assert (b = a) as -> by by eapply block_unique. clear Hbi.
  destruct (core_node _ _ _ _ _ Hc Ha) as (n & Hn & Hni & Hnb).
  unfold trunk_restore_node. rewrite (size_tree_bind _ _ _ _ Htr), Ef. run.
  rewrite (deref_bind _ _ _ _ Es). cbv beta iota. rewrite (update_node_bind _ _ _ _ _ Hn).
  eexists. split; [reflexivity|]. rewrite <- Hni in *. split; [|split; [|done]].
  - apply core_status; [done|done|done|by left].
  - by apply (ledger_status _ M).
Qed.
End operations.
