(* ===== verification/TrunkMemCreate.v ===== *)
(** * storage/trunk_mgr/trunk_mem.c: creating a trunk file

    The id of a new trunk file is the next one whose file does not exist
    yet: the loop ends because the ids it tries are all different and only
    finitely many files exist.  The new block is the whole file. *)

From stdpp Require Import strings.
From S2P Require Import Prelude LinkedList RankList AvlTree CLib SharedFunc Base64 TrunkShared FastMblock.
From S2P Require Import TrunkFile StorePath FreeBlockChecker TrunkBinlog TrunkMem TrunkMemInv TrunkMemOps.
#[local] Open Scope Z_scope.

(** ** The number in a file name *)

Fixpoint until (c : Z) (l : list Z) : list Z :=
  match l with
  | [] => []
  | x :: l => if x =? c then [] else x :: until c l
  end.

(** What follows the last slash, and the number written there. *)
Definition base_name (name : list Z) : list Z := reverse (until CH_SLASH (reverse name)).
Definition id_of_name (name : list Z) : Z := (strtol_digits 10 (base_name name) 0).1.

Lemma until_app c a b : c ∉ a → until c (a ++ c :: b) = a.
Proof.
  induction a as [|x a IH]; cbn; [by rewrite Z.eqb_refl|]. rewrite not_elem_of_cons. intros [Hx Ha].
  rewrite (proj2 (Z.eqb_neq _ _)) by done. by rewrite IH.
Qed.

Lemma base_name_app p s : CH_SLASH ∉ s → base_name (p ++ CH_SLASH :: s) = s.
Proof.
  intros Hs. unfold base_name. rewrite reverse_app, reverse_cons, <- app_assoc. cbn [app].
  rewrite until_app by (by rewrite elem_of_reverse). apply reverse_involutive.
Qed.

Lemma strtol_digits_zeros k s : strtol_digits 10 (replicate k 48 ++ s) 0 = strtol_digits 10 s 0.
Proof. induction k as [|k IH]; [done|]. cbn [replicate app strtol_digits]. exact IH. Qed.

Lemma sprintf_0d_value width n : 0 ≤ n → strtol_digits 10 (sprintf_0d width n) 0 = (n, []).
Proof.
  intros Hn. unfold sprintf_0d, pad0. rewrite (proj2 (Z.ltb_ge n 0)) by done.
  rewrite strtol_digits_zeros. rewrite <- (app_nil_r (digits _ _ _)).
  by apply strtol_digits_app; [apply dec_digit_writer| |].
Qed.

Lemma sprintf_0d_length n : 0 ≤ n < 2 ^ 31 → (length (sprintf_0d 6 n) ≤ 10)%nat.
Proof.
  intros Hn. unfold sprintf_0d, pad0, digits. rewrite (proj2 (Z.ltb_ge n 0)) by lia.
  pose proof (digits_fuel_length (num_fuel n) n [] 10 ltac:(lia) ltac:(lia)) as Hl.
  rewrite length_app, length_replicate. cbn [length] in Hl. lia.
Qed.

(** The full name of a trunk file, on a store path that leaves room for it. *)
Lemma full_filename_spec sp info p :
  paths sp !! path_of info = Some p → (length p ≤ 200)%nat → path_ok (path info) → 0 ≤ tf_id (file info) < 2 ^ 31 →
  ∃ name, trunk_get_full_filename_ex sp info MAX_PATH_SIZE = Some name ∧ id_of_name name = tf_id (file info).
Proof.
  intros Hp Hl (_ & Hh & Hlo) Hid. unfold trunk_get_full_filename_ex. fold (path_of info). rewrite Hp.
  cbn [mbind option_bind]. eexists. split; [done|]. unfold snprintf.
  pose proof (sprintf_0d_length _ Hid) as Hl2.
  pose proof (sprintf_02X_length _ Hh) as Hl3. pose proof (sprintf_02X_length _ Hlo) as Hl4.
  unfold TRUNK_GET_FILENAME. rewrite take_ge.
  2: { rewrite !length_app. cbn [length]. rewrite Hl3, Hl4. change (length (bytes "/data/")) with 6%nat.
       change (length (bytes "/")) with 1%nat. change (Z.to_nat (MAX_PATH_SIZE - 1)) with 255%nat. lia. }
  unfold id_of_name. change (bytes "/") with [CH_SLASH].
  rewrite !app_assoc. rewrite <- (app_assoc _ [CH_SLASH] (sprintf_0d _ _)). cbn [app].
  rewrite base_name_app; [by rewrite sprintf_0d_value by lia|].
  apply num_chars_not_in; [unfold num_char, CH_SLASH; lia|apply sprintf_0d_chars].
Qed.

(** ** The search for an unused name *)

(** The files whose number is above [id]. *)
Definition names_above (id : Z) (files : gmap (list Z) (list Z)) : gset (list Z) :=
  filter (λ name, id < id_of_name name) (dom files).

Lemma names_above_next id files name :
  is_Some (files !! name) → id_of_name name = id + 1 →
  (size (names_above (id + 1) files) < size (names_above id files))%nat.
Proof.
  intros Hf Hid. apply subset_size. split.
  - intros x. unfold names_above. rewrite !elem_of_filter. intros [? ?]. split; [lia|done].
  - intros Hsub. assert (name ∈ names_above (id + 1) files) as Hin.
    { apply Hsub. unfold names_above. rewrite elem_of_filter, elem_of_dom. split; [lia|done]. }
    unfold names_above in Hin. rewrite elem_of_filter in Hin. lia.
Qed.

Lemma names_above_size id files : (size (names_above id files) ≤ size files)%nat.
Proof.
  rewrite <- size_dom. apply subseteq_size. intros x. unfold names_above. rewrite elem_of_filter. naive_solver.
Qed.

Lemma storage_get_store_path_total cfg f d :
  ∃ h l d', storage_get_store_path cfg f d = Some ((h, l), d').
Proof.
  unfold storage_get_store_path. rewrite get_bind. destruct (_ =? _).
  - rewrite modify_bind. by eexists _, _, _.
  - by eexists _, _, _.
Qed.

Lemma u8_byte z : is_byte (u8 z).
Proof. unfold u8, is_byte. apply Z.mod_pos_bound. lia. Qed.

Section create.
Context (cfg : trunk_config) (env : nat → outcome).
Hypothesis Henv : ∀ n, outcome_ok (env n).

Abbreviation store_paths_of := (g_fdfs_store_paths (g_store cfg)).

(** The block of a new file: its place in the tree of directories and its
    id are chosen, the rest is given. *)
Definition renamed (info info' : FDFSTrunkFullInfo) : Prop :=
  status info' = status info ∧ path_of info' = path_of info ∧
  store_path_index (path info') = store_path_index (path info) ∧
  tf_offset (file info') = tf_offset (file info) ∧ tf_size (file info') = tf_size (file info) ∧
  is_byte (sub_path_high (path info')) ∧ is_byte (sub_path_low (path info')).

Lemma on_dist_bind {A B} (p : prog dist_state A) (f : A → prog trunk_state B) s x d :
  p (dist s) = Some (x, d) → (on_dist p ≫= f) s = f x (set_dist d s).
Proof. intros E. apply bind_run. unfold on_dist. by rewrite E. Qed.

Lemma next_file_loop_ok fuel s a n p :
  nodes s !! a = Some n → paths store_paths_of !! path_of (n_trunk n) = Some p → (length p ≤ 200)%nat →
  is_byte (store_path_index (path (n_trunk n))) →
  0 ≤ g_current_trunk_file_id s → g_current_trunk_file_id s + Z.of_nat fuel + 1 < 2 ^ 31 →
  (size (names_above (g_current_trunk_file_id s) (trunk_files s)) ≤ fuel)%nat →
  ∃ k d id n' name,
    next_file_loop cfg env fuel a s = Some (inr name, set_ticks k (set_dist d (set_g_current_trunk_file_id id
      (set_nodes (<[a := n']> (nodes s)) s)))) ∧
    renamed (n_trunk n) (n_trunk n') ∧ n_pMblockNode n' = n_pMblockNode n ∧ tf_id (file (n_trunk n')) = id ∧
    g_current_trunk_file_id s < id ≤ g_current_trunk_file_id s + Z.of_nat fuel + 1 ∧
    trunk_get_full_filename_ex store_paths_of (n_trunk n') MAX_PATH_SIZE = Some name ∧
    trunk_files s !! name = None ∧ id_of_name name = id.
Proof using Henv.
  revert s n. induction fuel as [|fuel IH]; intros s n Ha Hp Hl Hi H0 Hmax Hsz; cbn [next_file_loop].
  all: rewrite get_bind; cbv zeta; rewrite modify_bind; cbv beta.
  all: rewrite (update_node_bind a n) by done; rewrite tick_bind, (oo_ini _ (Henv _)); change (c_true 0) with false.
  all: cbv iota.
  all: rewrite (s32_id (g_current_trunk_file_id s + 1)) by (unfold is_int32; lia).
  all: set (id := g_current_trunk_file_id s + 1) in *.
  all: destruct (name_base64 (int2buff id)) as (short & Es & _); [apply int2buff_bytes|].
  all: rewrite (deref_bind _ _ _ _ Es).
  all: match goal with |- context [on_dist (storage_get_store_path ?c ?f) ≫= _] =>
    destruct (storage_get_store_path_total c f (dist s)) as (h & l & d & Ed) end.
  all: erewrite on_dist_bind by exact Ed; cbv beta iota.
  all: set (n1 := with_trunk (set_id (n_trunk n) id) n).
  all: set (n2 := with_trunk {| status := status (n_trunk n1);
                                path := {| store_path_index := store_path_index (path (n_trunk n1));
                                           sub_path_high := u8 h; sub_path_low := u8 l |};
                                file := file (n_trunk n1) |} n1).
  all: rewrite (update_node_bind a n1) by (cbn; apply lookup_insert_eq); fold n2.
  all: rewrite (node_at_bind a n2) by (cbn; apply lookup_insert_eq).
  all: assert (renamed (n_trunk n) (n_trunk n2)) as Hren by
    (unfold renamed, path_of; cbn; split_and!; try done; apply u8_byte).
  all: assert (path_of (n_trunk n2) = path_of (n_trunk n)) as Hpn by done.
  all: destruct (full_filename_spec store_paths_of (n_trunk n2) p) as (name & En & Hid);
    [by rewrite Hpn|done|split_and!; [done|apply u8_byte..]|cbn; unfold id in *; lia|].
  all: rewrite (deref_bind _ _ _ _ En), get_bind; cbn [trunk_files set_nodes set_dist set_ticks set_g_current_trunk_file_id].
  all: assert (tf_id (file (n_trunk n2)) = id) as Htf by done; rewrite Htf in Hid.
  all: unfold fileExists; destruct (trunk_files s !! name) as [c|] eqn:Ec; cbn [negb].
  all: cbn [nodes set_nodes set_dist set_ticks set_g_current_trunk_file_id]; rewrite ?insert_insert_eq.
  - exfalso. pose proof (names_above_next (g_current_trunk_file_id s) (trunk_files s) name ltac:(by exists c) Hid). lia.
  - eexists _, d, id, n2, name. split; [reflexivity|]. unfold id. split_and!; (done || lia).
  - match goal with |- context [next_file_loop _ _ _ _ ?x] => set (s2 := x) end.
    destruct (IH s2 n2) as (k & d' & id' & n' & name' & E & Hr & Hm & Ht & Hrange & Ef & Hfree & Hidn);
      [apply lookup_insert_eq|done|done|done|unfold id in *; cbn; lia|unfold id in *; cbn; lia| |].
    { pose proof (names_above_next (g_current_trunk_file_id s) (trunk_files s) name ltac:(by exists c) Hid).
      cbn. fold id. unfold id in *. lia. }
    exists k, d', id', n', name'. rewrite E. cbn [nodes s2 set_nodes set_dist set_ticks set_g_current_trunk_file_id].
    rewrite insert_insert_eq. split; [reflexivity|].
    cbn [s2 g_current_trunk_file_id set_nodes set_dist set_ticks set_g_current_trunk_file_id] in Hrange.
    destruct Hr as (R1 & R2 & R3 & R4 & R5 & R6 & R7), Hren as (Q1 & Q2 & Q3 & Q4 & Q5 & _).
    unfold id in *. split_and!; try done; lia.
  - eexists _, d, id, n2, name. split; [reflexivity|]. unfold id. split_and!; (done || lia).
Qed.
(** ** The new file *)

Record create_ok (s : trunk_state) : Prop := {
  cr_paths : Forall (λ p, length p ≤ 200)%nat (paths store_paths_of);
  cr_size : 0 < g_trunk_file_size cfg < INT_MAX;
  cr_id : 0 ≤ g_current_trunk_file_id s;
  cr_ids : g_current_trunk_file_id s + Z.of_nat (size (trunk_files s)) + 1 < 2 ^ 31;
}.

(** The whole of a trunk file of path [i], as one free block. *)
Definition whole_file (i : Z) (info : FDFSTrunkFullInfo) : Prop :=
  status info = FDFS_TRUNK_STATUS_FREE ∧ store_path_index (path info) = i ∧
  tf_offset (file info) = 0 ∧ tf_size (file info) = g_trunk_file_size cfg.

Lemma trunk_init_file_new (fuel : nat) (kn : kernel) (name : list Z) (sz : Z) (files : gmap (list Z) (list Z)) :
  kernel_ok kn → files !! name = None →
  trunk_init_file_ex fuel kn name sz files = Some (0, <[name := replicate (Z.to_nat sz) 0]> files).
Proof.
  intros Hk Hn. unfold trunk_init_file_ex. rewrite get_bind. unfold fileExists. rewrite Hn, (ko_open _ Hk).
  cbv zeta iota. rewrite modify_bind. unfold truncate_to. rewrite (ko_ftruncate _ Hk), get_bind.
  rewrite (deref_bind _ _ []) by apply lookup_insert_eq. rewrite modify_bind, insert_insert_eq.
  unfold resize. rewrite take_nil. cbn [length app]. by rewrite Nat.sub_0_r.
Qed.

Lemma files_mono (files : gmap (list Z) (list Z)) (name content : list Z) M :
  files_inv store_paths_of files M → files_inv store_paths_of (<[name := content]> files) M.
Proof.
  intros Hf a info Ha. destruct (Hf a info Ha) as (nm & E & Hs). exists nm. split; [done|].
  destruct (decide (nm = name)) as [->|]; [by rewrite lookup_insert_eq|by rewrite lookup_insert_ne].
Qed.

(** A block of a file that does not exist overlaps none. *)
Lemma new_file_no_overlap (files : gmap (list Z) (list Z)) M info (name : list Z) :
  files_inv store_paths_of files M → trunk_get_full_filename_ex store_paths_of info MAX_PATH_SIZE = Some name →
  files !! name = None → no_overlap M info.
Proof.
  intros Hf E Hn b i Hb ([= Hp Hi] & _). destruct (Hf b i Hb) as (nm & E' & [c Hc]).
  unfold trunk_get_full_filename_ex in E, E'. rewrite <- Hp, <- Hi in E'. congruence.
Qed.

(** [trunk_create_next_file] on the node of the new block. *)
Lemma trunk_create_next_file_ok s a n :
  create_ok s → nodes s !! a = Some n → is_byte (store_path_index (path (n_trunk n))) →
  (path_of (n_trunk n) < length (paths store_paths_of))%nat →
  ∃ k d id n' name,
    trunk_create_next_file cfg env a s = Some (0, set_trunk_files
      (<[name := replicate (Z.to_nat (g_trunk_file_size cfg)) 0]> (trunk_files s))
      (set_ticks k (set_dist d (set_g_current_trunk_file_id id (set_nodes (<[a := n']> (nodes s)) s))))) ∧
    renamed (n_trunk n) (n_trunk n') ∧ n_pMblockNode n' = n_pMblockNode n ∧ tf_id (file (n_trunk n')) = id ∧
    g_current_trunk_file_id s < id ≤ g_current_trunk_file_id s + Z.of_nat (size (trunk_files s)) + 1 ∧
    trunk_get_full_filename_ex store_paths_of (n_trunk n') MAX_PATH_SIZE = Some name ∧
    trunk_files s !! name = None ∧ id_of_name name = id.
Proof using Henv.
  intros [Hps Hsz Hid Hids] Ha Hi Hp. destruct (lookup_lt_is_Some_2 _ _ Hp) as [p Hpp].
  rewrite Forall_lookup in Hps. unfold trunk_create_next_file. rewrite get_bind.
  destruct (next_file_loop_ok (size (trunk_files s)) s a n p) as (k & d & id & n' & name & E & H);
    [done|done|by eapply Hps|done|done|done|apply names_above_size|].
  rewrite (bind_run _ _ _ _ _ E). cbv beta iota. rewrite tick_bind.
  destruct H as (H1 & H2 & H3 & H4 & H5 & H6 & H7).
  exists (S k), d, id, n', name. split; [|by repeat (split; [done|])].
  unfold on_files. cbn [trunk_files set_ticks set_dist set_g_current_trunk_file_id set_nodes].
  rewrite trunk_init_file_new; [reflexivity|apply (oo_kernel _ (Henv _))|done].
Qed.

(** [trunk_create_trunk_file] on a given store path. *)
Lemma trunk_create_trunk_file_ok s M U i :
  core_ok cfg s M U → ledger_ok s M → create_ok s → is_byte i → (Z.to_nat i < length (paths store_paths_of))%nat →
  ∃ s' a n name,
    trunk_create_trunk_file cfg env i s = Some ((Some 0, Some a), s') ∧ a ∉ U ∧ M !! a = None ∧
    core_ok cfg s' M ({[a]} ∪ U) ∧ ledger_ok s' (<[a := n_trunk n]> M) ∧
    nodes s' !! a = Some n ∧ n_pMblockNode n = a ∧
    whole_file i (n_trunk n) ∧ block_ok (n_trunk n) ∧ no_overlap M (n_trunk n) ∧
    trunk_get_full_filename_ex store_paths_of (n_trunk n) MAX_PATH_SIZE = Some name ∧
    trunk_files s !! name = None ∧
    trunk_files s' = <[name := replicate (Z.to_nat (g_trunk_file_size cfg)) 0]> (trunk_files s) ∧
    trunk_init_flag s' = trunk_init_flag s ∧
    id_of_name name = g_current_trunk_file_id s' ∧
    g_current_trunk_file_id s < g_current_trunk_file_id s'
      ≤ g_current_trunk_file_id s + Z.of_nat (size (trunk_files s)) + 1.
Proof using Henv.
  intros Hc [Ht Hj] Hcr Hi Hp. unfold trunk_create_trunk_file.
  destruct (core_alloc cfg env Henv s M U Hc) as (a & m & E & HaU & HM & _ & Hst).
  rewrite (bind_run _ _ _ _ _ E). cbv beta iota.
  assert (0 <=? i = true) as Hle by (unfold is_byte in Hi; lia). rewrite Hle, ret_bind. cbv beta iota.
  rewrite get_bind. cbv zeta. rewrite store_node_bind.
  assert (u8 i = i) as Hu8 by (unfold u8, is_byte in *; rewrite Z.mod_small by lia; done).
  match goal with |- context [set_nodes (<[a := ?x]> _) _] => set (n0 := x) in * end.
  specialize (Hst n0).
  match type of Hst with core_ok _ ?x _ _ => set (s1 := x) in * end.
  change (set_nodes _ _) with s1.
  destruct (trunk_create_next_file_ok s1 a n0) as (k & d & id & n & name & E2 & Hren & Hmb & Hid & Hids & Ef & Hfree & Hidn);
    [by destruct Hcr; split|apply lookup_insert_eq|cbn; by rewrite Hu8|unfold path_of; cbn; by rewrite Hu8|].
  rewrite (bind_run _ _ _ _ _ E2). change (c_true 0) with false. cbv iota.
  match type of E2 with _ = Some (_, ?x) => set (s2 := x) in * end.
  rewrite (node_at_bind a n) by apply lookup_insert_eq.
  destruct Hren as (R1 & R2 & R3 & R4 & R5 & R6 & R7). cbn in R1, R3, R4, R5.
  assert (whole_file i (n_trunk n)) as Hw by (split_and!; [done|by rewrite R3, Hu8|done|done]).
  assert (block_ok (n_trunk n)) as Hb.
  { destruct Hcr as [_ Hsz Hid0 Hidm]. cbn in Hids. split; [|unfold end_of; rewrite R4, R5; lia|rewrite Hid; lia|by left].
    split; [split_and!; [by rewrite R3, Hu8|done|done]|]. rewrite R4, R5. unfold end_of, is_int32. rewrite R4, R5, Hid.
    lia. }
  assert (no_overlap M (n_trunk n)) as Hno by (by apply (new_file_no_overlap (trunk_files s1) M _ name); [apply Hc| |]).
  assert (core_ok cfg s2 M ({[a]} ∪ U)) as Hc2.
  { pose proof (core_store cfg s1 M ({[a]} ∪ U) a n Hst HM) as Hc2. destruct Hc2. split; try done.
    by apply files_mono. }
  destruct (binlog_add_ok env Henv s2 M a (n_trunk n) Ht Hj HM Hb Hno) as (k3 & t & log & E3 & Ht3 & Hj3).
  rewrite (bind_run _ _ _ _ _ E3).
  match type of E3 with _ = Some (_, ?x) => set (s3 := x) in * end.
  exists s3, a, n, name. split; [reflexivity|]. split; [done|]. split; [done|].
  split; [by eapply core_env; [..|exact Hc2]|]. split; [by split|]. split; [apply lookup_insert_eq|].
  split; [done|]. split; [done|]. split; [done|]. split; [done|]. split; [done|].
  split; [done|]. split; [done|]. split; [done|]. split; [by rewrite Hidn|exact Hids].
Qed.
End create.
