(* ===== verification/TrunkMemAlloc.v ===== *)
(** * storage/trunk_mgr/trunk_mem.c: allocation

    Splitting a block, the search for the best block, the creation of a
    trunk file, and [trunk_alloc_space] that puts them together. *)

From stdpp Require Import strings.
From S2P Require Import Prelude LinkedList RankList AvlTree CLib SharedFunc Base64 TrunkShared FastMblock.
From S2P Require Import TrunkFile StorePath FreeBlockChecker TrunkBinlog TrunkMem TrunkMemInv TrunkMemOps.
From S2P Require Import TrunkMemCreate.
#[local] Open Scope Z_scope.

Section alloc.
Context (cfg : trunk_config) (env : nat → outcome).
Hypothesis Henv : ∀ n, outcome_ok (env n).
Hypothesis Hmin : 0 < g_slot_min_size cfg.

Abbreviation core_ok := (core_ok cfg).
Abbreviation file_exists := (file_exists cfg).

(** ** Splitting *)

(** What is left of a block after its first [size] bytes. *)
Definition rest_of (info : FDFSTrunkFullInfo) (size : Z) : FDFSTrunkFullInfo :=
  {| status := FDFS_TRUNK_STATUS_FREE; path := path info;
     file := {| tf_id := tf_id (file info); tf_offset := tf_offset (file info) + size;
                tf_size := tf_size (file info) - size |} |}.

(** A part of a block. *)
Definition part_of (part info : FDFSTrunkFullInfo) : Prop :=
  path part = path info ∧ tf_id (file part) = tf_id (file info) ∧
  tf_offset (file info) ≤ tf_offset (file part) ∧ end_of part ≤ end_of info ∧ 0 < tf_size (file part).

Lemma part_no_overlap M part info : part_of part info → no_overlap M info → no_overlap M part.
Proof.
  intros (Hp & Hi & Ho & He & _) Hn a i Ha (Hid & H1 & H2). apply (Hn a i Ha).
  unfold overlap, FILL_FILE_IDENTIFIER in *. rewrite Hp, Hi in Hid. split; [done|lia].
Qed.

Lemma part_block_ok part info :
  part_of part info → block_ok info → status part = FDFS_TRUNK_STATUS_FREE ∨ status part = FDFS_TRUNK_STATUS_HOLD →
  block_ok part.
Proof.
  intros (Hp & Hi & Ho & He & Hs) [(Hpo & Hid & H1 & H2 & H3) H4 H5 _] Hst. split; [|lia|by rewrite Hi|done].
  unfold info_ok. rewrite Hp, Hi. split; [done|]. split; [done|]. lia.
Qed.

Lemma part_file_exists s part info : part_of part info → file_exists s info → file_exists s part.
Proof.
  intros (Hp & Hi & _) (name & E & H). exists name. split; [|done].
  unfold trunk_get_full_filename_ex in *. by rewrite Hp, Hi.
Qed.

Lemma with_size_part info size :
  0 < size ≤ tf_size (file info) → part_of (with_size size info) info.
Proof. intros. unfold part_of, end_of. cbn. split_and!; (done || lia). Qed.

Lemma rest_part info size : 0 < size < tf_size (file info) → part_of (rest_of info size) info.
Proof. intros. unfold part_of, end_of. cbn. split_and!; (done || lia). Qed.

Lemma part_refl info st : 0 < tf_size (file info) → part_of (with_status st info) info.
Proof. intros. unfold part_of, end_of. cbn. split_and!; (done || lia). Qed.

(** The two parts of a block do not overlap. *)
Lemma parts_disjoint info size st : ¬ overlap (with_status st (with_size size info)) (rest_of info size).
Proof. unfold overlap, end_of. cbn. lia. Qed.

Lemma no_overlap_insert M a info i : no_overlap M i → ¬ overlap i info → no_overlap (<[a := info]> M) i.
Proof. intros Hn Ho b j [[-> ->]|[_ H]]%lookup_insert_Some; [done|by eapply Hn]. Qed.

(** [trunk_split] takes the block out of the ledger; when enough is left it
    keeps the first [size] bytes and adds the rest as a free block. *)
Lemma trunk_split_ok s M U a n size :
  core_ok s M U → ledger_ok s (<[a := n_trunk n]> M) → nodes s !! a = Some n → n_pMblockNode n = a →
  a ∈ U → M !! a = None → block_ok (n_trunk n) → no_overlap M (n_trunk n) → file_exists s (n_trunk n) →
  0 < size ≤ tf_size (file (n_trunk n)) →
  (tf_size (file (n_trunk n)) - size < g_slot_min_size cfg ∧
   ∃ s', trunk_split cfg env a size s = Some (0, s') ∧ core_ok s' M U ∧ ledger_ok s' M ∧ same_env s s' ∧
     nodes s' !! a = Some n) ∨
  (g_slot_min_size cfg ≤ tf_size (file (n_trunk n)) - size ∧
   ∃ s' U' b n', trunk_split cfg env a size s = Some (0, s') ∧ b ≠ a ∧ M !! b = None ∧ U ⊆ U' ∧
     core_ok s' (<[b := rest_of (n_trunk n) size]> M) U' ∧ ledger_ok s' (<[b := rest_of (n_trunk n) size]> M) ∧
     same_env s s' ∧ nodes s' !! a = Some n' ∧ n_pMblockNode n' = a ∧ n_trunk n' = with_size size (n_trunk n)).
Proof using Henv Hmin.
  intros Hc [Ht Hj] Ha Hmb HaU HM Hb Hno Hf Hsz. unfold trunk_split. rewrite (node_at_bind _ _ _ _ Ha). cbv zeta.
  pose proof (block_size_range _ Hb) as Hrange. pose proof (bo_end _ Hb) as Hend.
  pose proof (bo_info _ Hb) as (_ & _ & Hoff & _). unfold end_of, INT_MAX in *.
  assert (∀ b i, <[a := n_trunk n]> M !! b = Some i → block_ok i) as Hblk.
  { apply blocks_insert; [intros b i; by eapply core_block|done]. }
  pose proof (disjoint_insert _ a _ (co_disjoint _ _ _ _ Hc) Hno) as Hdis.
  rewrite (s32_id (tf_size (file (n_trunk n)) - size)) by (unfold is_int32; lia).
  destruct (Z.ltb_spec (tf_size (file (n_trunk n)) - size) (g_slot_min_size cfg)) as [Hlt|Hge]; [left|right];
    (split; [done|]).
  - destruct (binlog_del_ok env Henv s (<[a := n_trunk n]> M) a (n_trunk n)) as (k & t & log & E & Ht' & Hj');
      [done|done|apply lookup_insert_eq|done|done|].
    rewrite delete_insert_id in Ht', Hj' by done.
    eexists. split; [exact E|]. split; [|done]. by eapply core_env; [..|exact Hc].
  - destruct (core_alloc cfg env Henv s M U Hc) as (b & m & E & HbU & HbM & Hc1 & _).
    rewrite (bind_run _ _ _ _ _ E). cbv beta iota.
    set (s1 := set_ticks (S (ticks s)) (set_free_blocks_man m s)) in *.
    assert (b ≠ a) as Hba by (intros ->; done).
    destruct (binlog_del_ok env Henv s1 (<[a := n_trunk n]> M) a (n_trunk n)) as (k & t & log & E2 & Ht' & Hj');
      [done|done|apply lookup_insert_eq|done|done|].
    rewrite delete_insert_id in Ht', Hj' by done.
    rewrite (bind_run _ _ _ _ _ E2). change (c_true 0) with false. cbv iota. rewrite store_node_bind.
    match type of E2 with _ = Some (_, ?x) => set (s2 := x) in * end.
    rewrite (s32_id (tf_offset (file (n_trunk n)) + size)) by (unfold is_int32; lia).
    set (nb := {| n_trunk := rest_of (n_trunk n) size; n_pMblockNode := b; n_next := None |}).
    assert (core_ok s2 M ({[b]} ∪ U)) as Hc2 by (by eapply core_env; [..|exact Hc1]).
    pose proof (core_store cfg s2 M ({[b]} ∪ U) b nb Hc2 HbM) as Hc3.
    assert (part_of (rest_of (n_trunk n) size) (n_trunk n)) as Hpart by (apply rest_part; lia).
    destruct (trunk_add_free_block_ok cfg env Henv (set_nodes (<[b := nb]> (nodes s2)) s2) M ({[b]} ∪ U) b nb)
      as [[Ho _]|(_ & s4 & p & E4 & Hc4 & Hl4 & He4 & Hn4)];
      [done|by split|apply lookup_insert_eq|done|set_solver|done|
       by apply (part_block_ok _ _ Hpart Hb); left|by apply (part_file_exists _ _ _ Hpart)| |].
    { destruct Ho. by eapply part_no_overlap. }
    rewrite (bind_run _ _ _ _ _ E4). change (c_true 0) with false. cbv iota.
    assert (nodes s4 !! a = Some n) as Ha4 by (rewrite Hn4; cbn; by rewrite !lookup_insert_ne by done).
    rewrite (update_node_bind _ _ _ _ _ Ha4).
    eexists _, ({[b]} ∪ U), b, (with_trunk (with_size size (n_trunk n)) n).
    split; [reflexivity|]. split; [done|]. split; [done|]. split; [set_solver|].
    split; [apply core_store; [exact Hc4|by rewrite lookup_insert_ne]|]. split; [exact Hl4|].
    split; [destruct He4; by split|]. split; [apply lookup_insert_eq|done].
Qed.
(** ** The search for a free block *)

(** The blocks of path [i] with a size in this range are held. *)
Definition held_between (M : blocks_map) (i : nat) (lo hi : Z) : Prop :=
  ∀ a info, M !! a = Some info → path_of info = i → lo ≤ tf_size (file info) < hi →
    status info = FDFS_TRUNK_STATUS_HOLD.

(** What the search returns: the first free block of the smallest size
    that has one, or nothing when all are held. *)
Definition search_result (s : trunk_state) (M : blocks_map) (i : nat) (target : Z)
    (r : option (FDFSTrunkSlot * option positive * positive)) : Prop :=
  match r with
  | None => held_between M i target INT_MAX
  | Some (e, prev, a) => ∃ l1 l2 info,
      slot_at (tree_info_by_sizes s) i (slot_size e) = Some e ∧
      chain_of (nodes s) M i (slot_size e) e (l1 ++ a :: l2) ∧ prev = last_or None l1 ∧
      M !! a = Some info ∧ status info = FDFS_TRUNK_STATUS_FREE ∧ target ≤ slot_size e ∧
      held_between M i target (slot_size e)
  end.

Lemma search_slot_ok s M U i t target0 target fuel :
  core_ok s M U → tree_info_by_sizes s !! i = Some t → 0 ≤ target0 → target0 ≤ target ≤ INT_MAX →
  (length (filter (λ e, (target ≤ slot_size e)%Z) (elements (root t))) ≤ fuel)%nat →
  held_between M i target0 target →
  ∃ r, search_slot fuel s t target = Some r ∧ search_result s M i target0 r.
Proof.
  intros Hc Ht H0. pose proof (co_chains _ _ _ _ Hc) as Hch.
  pose proof (tree_at_ok _ _ _ (ci_trees _ _ _ Hch) Ht) as Hok. pose proof Hok as [_ [_ _ Hsort]].
  assert (∀ a info, M !! a = Some info → path_of info = i →
    ∃ e, e ∈ elements (root t) ∧ slot_size e = tf_size (file info)) as Hslot.
  { intros a info Ha <-. destruct (slot_exists _ _ _ _ _ _ Hc Ha) as [e He].
    destruct (slot_at_size _ _ _ (ci_trees _ _ _ Hch) Ht _ _ He) as (Hs & _ & Hin). by exists e. }
  revert target. induction fuel as [|fuel IH]; intros target Htg Hlen Hheld; cbn [search_slot];
    rewrite (avl_tree_find_ge_ok slot_valid slot_size storage_trunk_node_compare_size) by (done || (unfold slot_valid; cbn; lia));
    cbn [slot_size target_slot];
    (destruct (rfind_ge slot_size target (elements (root t))) as [e|] eqn:E;
     [apply rfind_ge_Some in E as (Hin & Hge & Hleast); [|done]|apply rfind_ge_None in E]).
  - exfalso. assert (e ∈ filter (λ e, (target ≤ slot_size e)%Z) (elements (root t))) as Hf by (by apply list_elem_of_filter).
    destruct (filter _ _); [by apply not_elem_of_nil in Hf|cbn in Hlen; lia].
  - exists None. split; [done|]. intros a info Ha Hp Hs. destruct (Hslot a info Ha Hp) as (e & He & Hes).
    rewrite Forall_forall in E. pose proof (E e He). apply (Hheld a info Ha Hp). lia.
  - assert (slot_at (tree_info_by_sizes s) i (slot_size e) = Some e) as He.
    { unfold slot_at. rewrite Ht. cbn [mbind option_bind]. by apply (rfind_elem slot_size). }
    pose proof (ci_slots _ _ _ Hch i (slot_size e)) as Hsl. rewrite He in Hsl.
    destruct (search_chain_spec (λ i, negb (status i =? FDFS_TRUNK_STATUS_HOLD)) s M i (slot_size e) e
      (ci_nodes _ _ _ Hch) Hsl) as (l1 & l2 & Hchain & Es & H1 & H2).
    rewrite Es. cbn [mbind option_bind].
    assert (held_between M i target0 (slot_size e)) as Hbelow.
    { intros a info Ha Hp Hs. destruct (Z.lt_ge_cases (tf_size (file info)) target); [apply (Hheld a info Ha Hp); lia|].
      destruct (Hslot a info Ha Hp) as (e' & He' & Hes). pose proof (Hleast e' He'). lia. }
    destruct l2 as [|a l2]; cbn [head] in *.
    + rewrite app_nil_r in Hchain.
      assert (∀ a info, M !! a = Some info → path_of info = i → tf_size (file info) = slot_size e →
        status info = FDFS_TRUNK_STATUS_HOLD) as Hall.
      { intros a info Ha Hp Hs. assert (a ∈ l1) as Hal by (apply (ch_blocks _ _ _ _ _ _ Hchain); by exists info).
        pose proof (H1 a info Hal Ha) as Hn. apply negb_false_iff, Z.eqb_eq in Hn. done. }
      assert (slot_size e < INT_MAX) as Hmax.
      { destruct Hsl as (c & Hl & _ & Hne & Hcin). destruct c as [|b c]; [by destruct Hne; [by eexists|]|].
        destruct (Hcin b) as [(info & Hb & _ & <-) _]; [by left|]. apply block_size_range. by eapply core_block. }
      rewrite s32_id by (unfold is_int32, INT_MAX in *; lia). apply IH; [lia| |].
      * pose proof (filter_length_lt (λ x, (target ≤ slot_size x)%Z) (λ x, (slot_size e + 1 ≤ slot_size x)%Z)
          (elements (root t)) e ltac:(cbn; lia) Hin Hge ltac:(cbn; lia)). lia.
      * intros a info Ha Hp Hs. destruct (decide (tf_size (file info) = slot_size e)) as [Heq|];
          [by apply (Hall a)|apply (Hbelow a info Ha Hp); lia].
    + assert (in_slot M i (slot_size e) a) as (info & Ha & _).
      { apply (ch_blocks _ _ _ _ _ _ Hchain), elem_of_app. right. by left. }
      exists (Some (e, last_or None l1, a)). split; [done|]. exists l1, l2, info.
      split; [done|]. split; [done|]. split; [done|]. split; [done|].
      split; [|split; [lia|exact Hbelow]].
      pose proof (H2 a info eq_refl Ha) as Hn. apply negb_true_iff, Z.eqb_neq in Hn.
      by destruct (bo_status _ (core_block _ _ _ _ _ _ Hc Ha)).
  - exists None. split; [done|]. intros a info Ha Hp Hs. destruct (Hslot a info Ha Hp) as (e & He & Hes).
    rewrite Forall_forall in E. pose proof (E e He). apply (Hheld a info Ha Hp). lia.
Qed.
(** ** Taking a block *)

Abbreviation store_paths_of := (g_fdfs_store_paths (g_store cfg)).

(** The smallest free block of path [i] that is big enough. *)
Definition best_fit (M : blocks_map) (i : nat) (target : Z) (info : FDFSTrunkFullInfo) : Prop :=
  status info = FDFS_TRUNK_STATUS_FREE ∧ path_of info = i ∧ target ≤ tf_size (file info) ∧
  held_between M i target (tf_size (file info)).

(** Where the block to split comes from: the map, or a new file. *)
Definition block_source (s s' : trunk_state) (M : blocks_map) (i target : Z) (a : positive)
    (info : FDFSTrunkFullInfo) : Prop :=
  (M !! a = Some info ∧ best_fit M (Z.to_nat i) target info ∧ trunk_files s' = trunk_files s ∧
   g_current_trunk_file_id s' = g_current_trunk_file_id s) ∨
  (M !! a = None ∧ held_between M (Z.to_nat i) target INT_MAX ∧ whole_file cfg i info ∧
   ∃ name, trunk_get_full_filename_ex store_paths_of info MAX_PATH_SIZE = Some name ∧
     trunk_files s !! name = None ∧
     trunk_files s' = <[name := replicate (Z.to_nat (g_trunk_file_size cfg)) 0]> (trunk_files s) ∧
     id_of_name name = g_current_trunk_file_id s' ∧
     g_current_trunk_file_id s < g_current_trunk_file_id s'
       ≤ g_current_trunk_file_id s + Z.of_nat (size (trunk_files s)) + 1).

Lemma take_block_ok s M U i target :
  core_ok s M U → ledger_ok s M → create_ok cfg s → is_byte i →
  (Z.to_nat i < length (paths store_paths_of))%nat → 0 ≤ target ≤ INT_MAX →
  ∃ s' U' a n, take_block cfg env i target s = Some (inr a, s') ∧ U ⊆ U' ∧ a ∈ U' ∧
    core_ok s' (delete a M) U' ∧ ledger_ok s' (<[a := n_trunk n]> (delete a M)) ∧
    nodes s' !! a = Some n ∧ n_pMblockNode n = a ∧ block_ok (n_trunk n) ∧
    no_overlap (delete a M) (n_trunk n) ∧ file_exists s' (n_trunk n) ∧
    trunk_init_flag s' = trunk_init_flag s ∧ block_source s s' M i target a (n_trunk n).
Proof using Henv Hmin.
  intros Hc Hl Hcr Hi Hp Htg. pose proof Hp as Hp'. rewrite <- (co_paths _ _ _ _ Hc) in Hp'.
  destruct (lookup_lt_is_Some_2 _ _ Hp') as [t Ht].
  unfold take_block. rewrite (size_tree_bind _ _ _ _ Ht), get_bind.
  assert (Z.to_nat (avl_tree_count t) = length (elements (root t))) as Hcount
    by (rewrite avl_tree_count_ok; lia).
  destruct (search_slot_ok s M U (Z.to_nat i) t target target (Z.to_nat (avl_tree_count t))) as (r & Er & Hr);
    [done|done|lia|lia| | |].
  { rewrite Hcount. apply length_filter. }
  { intros a info _ _ Hs. lia. }
  rewrite (deref_bind _ _ _ _ Er). destruct r as [[[e prev] a]|].
  - destruct Hr as (l1 & l2 & info & He & Hch & -> & Ha & Hst & Hge & Hheld).
    destruct (core_node _ _ _ _ _ _ Hc Ha) as (n & Hn & Hni & Hnb).
    destruct (remove_block_ok cfg env Henv s M U i (slot_size e) e l1 a l2 n)
      as (s1 & s' & r & E1 & E2 & Hc2 & Hn2 & Henv2 & Ht2 & Hj2); [done..|].
    rewrite (bind_run _ _ _ _ _ E1), (bind_run _ _ _ _ _ E2).
    assert (in_slot M (Z.to_nat i) (slot_size e) a) as (info' & Ha' & Hpa & Hsa).
    { apply (ch_blocks _ _ _ _ _ _ Hch), elem_of_app. right. by left. }
    assert (info' = info) as -> by congruence.
    exists s', U, a, n. rewrite Hni. split; [reflexivity|]. split; [done|].
    split; [apply (co_used _ _ _ _ Hc), elem_of_dom; by exists info|]. split; [done|].
    split; [rewrite insert_delete_id by done; destruct Hl; split; [by rewrite Ht2|by rewrite Hj2]|].
    split; [done|]. split; [done|]. split; [exact (core_block _ _ _ _ _ _ Hc Ha)|].
    split; [intros b j [Hne Hb]%lookup_delete_Some; by apply (co_disjoint _ _ _ _ Hc a b)|].
    split; [apply (file_exists_env cfg s); [apply Henv2|by apply (co_files _ _ _ _ Hc a)]|].
    split; [apply Henv2|]. left. split; [done|]. split; [|split; apply Henv2].
    split; [done|]. split; [done|]. by rewrite Hsa.
  - destruct (trunk_create_trunk_file_ok cfg env Henv s M U i)
      as (s' & a & n & name & E & HaU & HM & Hc' & Hl' & Hn & Hnb & Hw & Hb & Hno & Ef & Hfree & Hfiles & Hflag & Hid & Hids);
      [done..|].
    rewrite (bind_run _ _ _ _ _ E).
    exists s', ({[a]} ∪ U), a, n. split; [reflexivity|]. rewrite delete_id by done.
    split; [set_solver|]. split; [set_solver|]. split; [done|]. split; [done|]. split; [done|]. split; [done|].
    split; [done|]. split; [done|]. split; [exists name; split; [done|]; rewrite Hfiles, lookup_insert_eq; by eexists|].
    split; [done|]. right. split; [done|]. split; [done|]. split; [done|]. by exists name.
Qed.

(** ** Allocation *)

(** The block given to the caller: the first [size] bytes of the block that
    was taken, or all of it when the rest would be too small. *)
Definition splits (info : FDFSTrunkFullInfo) (size : Z) : bool :=
  g_slot_min_size cfg <=? tf_size (file info) - size.
Definition granted (info : FDFSTrunkFullInfo) (size : Z) : FDFSTrunkFullInfo :=
  with_status FDFS_TRUNK_STATUS_HOLD (if splits info size then with_size size info else info).

(** The blocks after an allocation that took [info] at [a]; [c] is the node
    of the rest. *)
Definition allocated (M : blocks_map) (a c : positive) (info : FDFSTrunkFullInfo) (size : Z) : blocks_map :=
  <[a := granted info size]> (if splits info size then <[c := rest_of info size]> (delete a M) else delete a M).

(** The block taken is split and its first part becomes held. *)
Lemma split_and_hold s M U a n size :
  core_ok s M U → ledger_ok s (<[a := n_trunk n]> M) → nodes s !! a = Some n → n_pMblockNode n = a →
  a ∈ U → M !! a = None → block_ok (n_trunk n) → no_overlap M (n_trunk n) → file_exists s (n_trunk n) →
  0 < size ≤ tf_size (file (n_trunk n)) →
  ∃ s1 s2 s' U' c n', trunk_split cfg env a size s = Some (0, s1) ∧ nodes s1 !! a = Some n' ∧
    s2 = set_nodes (<[a := with_trunk (granted (n_trunk n) size) n']> (nodes s1)) s1 ∧
    with_status FDFS_TRUNK_STATUS_HOLD (n_trunk n') = granted (n_trunk n) size ∧
    trunk_add_free_block env a true s2 = Some (0, s') ∧ M !! c = None ∧ c ≠ a ∧
    core_ok s' (allocated M a c (n_trunk n) size) U' ∧ ledger_ok s' (allocated M a c (n_trunk n) size) ∧
    same_env s s' ∧ (∃ m, nodes s' !! a = Some m ∧ n_trunk m = granted (n_trunk n) size).
Proof using Henv Hmin.
  intros Hc Hl Ha Hmb HaU HM Hb Hno Hf Hsz.
  assert (part_of (granted (n_trunk n) size) (n_trunk n)) as Hpart.
  { unfold granted. destruct (splits _ _); [by apply with_size_part|apply part_refl; lia]. }
  assert (block_ok (granted (n_trunk n) size)) as Hbg by (apply (part_block_ok _ _ Hpart Hb); by right).
  pose proof (part_no_overlap _ _ _ Hpart Hno) as Hnog.
  pose proof (part_file_exists _ _ _ Hpart Hf) as Hfg.
  unfold allocated. rewrite !delete_id by done.
  destruct (trunk_split_ok s M U a n size Hc Hl Ha Hmb HaU HM Hb Hno Hf Hsz)
    as [(Hlt & s1 & E1 & Hc1 & Hl1 & He1 & Hn1)|(Hge & s1 & U' & c & n' & E1 & Hca & HcM & HU & Hc1 & Hl1 & He1 & Hn1 & Hmb1 & Hnt)].
  - assert (splits (n_trunk n) size = false) as Hs by (unfold splits; lia). rewrite Hs.
    destruct (core_alloc cfg env Henv s M U Hc) as (c & _ & _ & HcU & HcM & _).
    pose proof (core_store cfg s1 M U a (with_trunk (granted (n_trunk n) size) n) Hc1 HM) as Hc2.
    destruct (trunk_add_free_block_ok cfg env Henv _ M U a (with_trunk (granted (n_trunk n) size) n) Hc2)
      as [[Ho _]|(_ & s' & p & E2 & Hc' & Hl' & He' & Hn')];
      [done|apply lookup_insert_eq|done|done|done|done|by apply (file_exists_env cfg s); [apply He1|]|by destruct Ho|].
    exists s1. eexists. exists s', U, c, n. split; [done|]. split; [done|]. split; [reflexivity|].
    split; [unfold granted; by rewrite Hs|]. split; [exact E2|]. split; [done|]. split; [by intros ->|].
    split; [exact Hc'|]. split; [exact Hl'|]. split; [destruct He1, He'; split; cbn in *; congruence|].
    eexists. split; [rewrite Hn'; apply lookup_insert_eq|done].
  - assert (splits (n_trunk n) size = true) as Hs by (unfold splits; lia). rewrite Hs.
    pose proof (core_store cfg s1 _ U' a (with_trunk (granted (n_trunk n) size) n') Hc1
      ltac:(by rewrite lookup_insert_ne)) as Hc2.
    destruct (trunk_add_free_block_ok cfg env Henv _ _ U' a (with_trunk (granted (n_trunk n) size) n') Hc2)
      as [[Ho _]|(_ & s' & p & E2 & Hc' & Hl' & He' & Hn')];
      [done|apply lookup_insert_eq|done|set_solver|by rewrite lookup_insert_ne|done|
       by apply (file_exists_env cfg s); [apply He1|]| |].
    { destruct Ho. apply no_overlap_insert; [done|]. cbn. unfold granted. rewrite Hs. apply parts_disjoint. }
    exists s1. eexists. exists s', U', c, n'. split; [done|]. split; [done|]. split; [reflexivity|].
    split; [unfold granted; by rewrite Hs, Hnt|]. split; [exact E2|]. split; [done|]. split; [done|].
    split; [exact Hc'|]. split; [exact Hl'|]. split; [destruct He1, He'; split; cbn in *; congruence|].
    eexists. split; [rewrite Hn'; apply lookup_insert_eq|done].
Qed.

(** The size that is looked for. *)
Definition target_of_size (size : Z) : Z := if g_slot_min_size cfg <? size then size else g_slot_min_size cfg.

Lemma trunk_alloc_space_ok s M U i size :
  core_ok s M U → ledger_ok s M → create_ok cfg s → g_if_trunker_self cfg = true →
  trunk_init_flag s = STORAGE_TRUNK_INIT_FLAG_DONE → is_byte i →
  (Z.to_nat i < length (paths store_paths_of))%nat → g_slot_min_size cfg ≤ INT_MAX →
  0 < size ≤ g_trunk_file_size cfg →
  ∃ s' U' a c info, trunk_alloc_space cfg env i size s = Some ((0, Some (granted info size)), s') ∧
    block_source s s' M i (target_of_size size) a info ∧ c ≠ a ∧ M !! c = None ∧
    size ≤ tf_size (file info) ∧ no_overlap (delete a M) info ∧
    core_ok s' (allocated M a c info size) U' ∧ ledger_ok s' (allocated M a c info size) ∧
    trunk_init_flag s' = trunk_init_flag s.
Proof using Henv Hmin.
  intros Hc Hl Hcr Hself Hflag Hi Hp Hmm Hsz. unfold trunk_alloc_space. rewrite get_bind.
  unfold STORAGE_TRUNK_CHECK_STATUS. rewrite Hself, Hflag. cbn [andb negb]. change (2 =? 2) with true.
  change (STORAGE_TRUNK_INIT_FLAG_DONE =? STORAGE_TRUNK_INIT_FLAG_DONE) with true. cbn [andb negb].
  pose proof (cr_size _ _ Hcr) as Hfs.
  assert (0 ≤ target_of_size size ≤ INT_MAX ∧ size ≤ target_of_size size) as [Htg Htg'].
  { unfold target_of_size. destruct (Z.ltb_spec (g_slot_min_size cfg) size); lia. }
  destruct (take_block_ok s M U i (target_of_size size) Hc Hl Hcr Hi Hp Htg)
    as (s1 & U1 & a & n & E1 & HU1 & HaU & Hc1 & Hl1 & Hn1 & Hmb & Hb & Hno & Hf & Hfl & Hsrc).
  unfold target_of_size in E1. rewrite (bind_run _ _ _ _ _ E1). cbv beta iota.
  assert (size ≤ tf_size (file (n_trunk n))) as Hfit.
  { destruct Hsrc as [(_ & (_ & _ & H & _) & _)|(_ & _ & (_ & _ & _ & ->) & _)]; lia. }
  destruct (split_and_hold s1 (delete a M) U1 a n size) as (s2 & s3 & s' & U' & c & n' & E2 & Hn2 & -> & Hg & E3 & HcM & Hca & Hc' & Hl' & He' & (m & Hm & Hmg));
    [done|done|done|done|done|apply lookup_delete_eq|done|done|done|lia|].
  rewrite (bind_run _ _ _ _ _ E2). change (c_true 0) with false. cbv iota.
  rewrite (update_node_bind _ _ _ _ _ Hn2), Hg, (bind_run _ _ _ _ _ E3).
  change (0 =? 0) with true. cbv iota. rewrite (node_at_bind _ _ _ _ Hm), Hmg.
  unfold allocated in Hc', Hl'. rewrite delete_delete_eq in Hc', Hl'.
  exists s', U', a, c, (n_trunk n). split; [reflexivity|].
  split; [|split; [done|split; [by rewrite lookup_delete_ne in HcM|split; [done|split; [done|split; [exact Hc'|split; [exact Hl'|]]]]]]].
  - destruct He' as [_ Heid _ Hefi]. unfold block_source in *. by rewrite Hefi, Heid.
  - rewrite (se_flag _ _ He'), Hfl. exact Hflag.
Qed.
End alloc.
