(* ===== verification/TrunkMemSpec.v ===== *)
(** * storage/trunk_mgr/trunk_mem.c: the contract of the trunk server

    What the trunk server promises to the storage servers, without trees,
    chains, pools and addresses: a collection of blocks, and for every
    request the responses it may give.  The operations of TrunkMem.v
    implement it. *)

From stdpp Require Import strings.
From S2P Require Import Prelude LinkedList RankList AvlTree CLib SharedFunc Base64 TrunkShared FastMblock.
From S2P Require Import TrunkFile StorePath FreeBlockChecker TrunkBinlog TrunkMem TrunkMemInv TrunkMemOps.
From S2P Require Import TrunkMemCreate TrunkMemAlloc.
#[local] Open Scope Z_scope.

Inductive request :=
  | AllocSpace (path_index size : Z)
  | AllocConfirm (info : FDFSTrunkFullInfo) (status : Z)
  | FreeSpace (info : FDFSTrunkFullInfo).

(** The status and the block of the response. *)
Abbreviation response := (Z * option FDFSTrunkFullInfo)%type.

Section contract.
Context (cfg : trunk_config).

(** ** The specification *)

Definition hold_info (info : FDFSTrunkFullInfo) : FDFSTrunkFullInfo := with_status FDFS_TRUNK_STATUS_HOLD info.

(** What stays free of a block that is granted. *)
Definition remainder (info : FDFSTrunkFullInfo) (size : Z) : list FDFSTrunkFullInfo :=
  if splits cfg info size then [rest_of info size] else [].

(** A free block of path [i] that can serve [target] bytes. *)
Definition usable (i : nat) (target : Z) (info : FDFSTrunkFullInfo) : Prop :=
  status info = FDFS_TRUNK_STATUS_FREE ∧ path_of info = i ∧ target ≤ tf_size (file info).

Inductive spec_step (B : list FDFSTrunkFullInfo) : request → response → list FDFSTrunkFullInfo → Prop :=
  (** the smallest usable block is split *)
  | spec_alloc_fit i size info B' :
      B ≡ₚ info :: B' → usable (Z.to_nat i) (target_of_size cfg size) info →
      (∀ j, j ∈ B → usable (Z.to_nat i) (target_of_size cfg size) j → tf_size (file info) ≤ tf_size (file j)) →
      spec_step B (AllocSpace i size) (0, Some (granted cfg info size))
        (granted cfg info size :: remainder info size ++ B')
  (** no block is usable: a new file is split *)
  | spec_alloc_new i size info :
      (∀ j, j ∈ B → ¬ usable (Z.to_nat i) (target_of_size cfg size) j) →
      whole_file cfg i info → (∀ j, j ∈ B → ¬ overlap info j) →
      spec_step B (AllocSpace i size) (0, Some (granted cfg info size))
        (granted cfg info size :: remainder info size ++ B)
  (** the file was stored: the block leaves the collection *)
  | spec_confirm_stored info st B' :
      st = 0 ∨ st = EEXIST → B ≡ₚ hold_info info :: B' →
      spec_step B (AllocConfirm info st) (0, None) B'
  (** storing failed: the block is free again *)
  | spec_confirm_failed info st B' :
      st ≠ 0 → st ≠ EEXIST → B ≡ₚ hold_info info :: B' →
      spec_step B (AllocConfirm info st) (0, None) (free_info info :: B')
  | spec_confirm_unknown info st :
      hold_info info ∉ B → spec_step B (AllocConfirm info st) (ENOENT, None) B
  | spec_free_small info :
      tf_size (file info) < g_slot_min_size cfg → spec_step B (FreeSpace info) (0, None) B
  | spec_free_overlap info j :
      g_slot_min_size cfg ≤ tf_size (file info) → j ∈ B → overlap info j →
      spec_step B (FreeSpace info) (EEXIST, None) B
  | spec_free info :
      g_slot_min_size cfg ≤ tf_size (file info) → (∀ j, j ∈ B → ¬ overlap info j) →
      spec_step B (FreeSpace info) (0, None) (free_info info :: B).

Fixpoint spec_run (B : list FDFSTrunkFullInfo) (reqs : list request) (resps : list response)
    (B' : list FDFSTrunkFullInfo) : Prop :=
  match reqs, resps with
  | [], [] => B' = B
  | q :: reqs, p :: resps => ∃ B1, spec_step B q p B1 ∧ spec_run B1 reqs resps B'
  | _, _ => False
  end.

(** ** The implementation *)

Section server.
Context (env : nat → outcome).

Definition serve (q : request) : prog trunk_state response :=
  match q with
  | AllocSpace i size => trunk_alloc_space cfg env i size
  | AllocConfirm info st => r ← trunk_alloc_confirm cfg env info st; mret (r, None)
  | FreeSpace info => r ← trunk_free_space cfg env info true; mret (r, None)
  end.

Fixpoint serve_all (reqs : list request) : prog trunk_state (list response) :=
  match reqs with
  | [] => mret []
  | q :: reqs => p ← serve q; ps ← serve_all reqs; mret (p :: ps)
  end.

(** The requests the storage servers send. *)
Definition admissible (s : trunk_state) (q : request) : Prop :=
  match q with
  | AllocSpace i size =>
      create_ok cfg s ∧ is_byte i ∧ (Z.to_nat i < length (paths (g_fdfs_store_paths (g_store cfg))))%nat ∧
      0 < size ≤ g_trunk_file_size cfg
  | AllocConfirm info _ =>
      info_ok info ∧ end_of info < INT_MAX ∧ 0 ≤ tf_id (file info) ∧
      (path_of info < length (paths (g_fdfs_store_paths (g_store cfg))))%nat
  | FreeSpace info => info_ok info ∧ end_of info < INT_MAX ∧ 0 ≤ tf_id (file info) ∧ file_exists cfg s info
  end.

(** Each request is admissible in the state it finds. *)
Fixpoint admissible_all (reqs : list request) (s : trunk_state) : Prop :=
  match reqs with
  | [] => True
  | q :: reqs => admissible s q ∧ ∀ p s', serve q s = Some (p, s') → admissible_all reqs s'
  end.
End server.

(** The blocks of a state that is at rest. *)
Definition contents (M : blocks_map) : list FDFSTrunkFullInfo := (map_to_list M).*2.

Definition represents (s : trunk_state) (B : list FDFSTrunkFullInfo) : Prop :=
  trunk_init_flag s = STORAGE_TRUNK_INIT_FLAG_DONE ∧
  ∃ M U, core_ok cfg s M U ∧ ledger_ok s M ∧ B ≡ₚ contents M.

(** ** The map and the collection *)

#[local] Instance overlap_decision x y : Decision (overlap x y).
Proof. unfold overlap. apply _. Defined.

Lemma contents_insert M a info : M !! a = None → contents (<[a := info]> M) ≡ₚ info :: contents M.
Proof. intros Ha. unfold contents. by rewrite map_to_list_insert. Qed.

Lemma contents_here (M : blocks_map) (a : positive) info :
  M !! a = Some info → contents M ≡ₚ info :: contents (delete a M).
Proof. intros Ha. unfold contents. by rewrite (map_to_list_here _ _ _ Ha). Qed.

Lemma contents_update (M : blocks_map) (a : positive) info info' :
  M !! a = Some info → contents (<[a := info']> M) ≡ₚ info' :: contents (delete a M).
Proof. intros Ha. unfold contents. by rewrite (map_to_list_update _ _ _ _ Ha). Qed.

Lemma elem_of_contents M info : info ∈ contents M ↔ ∃ a, M !! a = Some info.
Proof.
  unfold contents. rewrite list_elem_of_fmap. split.
  - intros ([a i] & -> & Hin%elem_of_map_to_list). by exists a.
  - intros [a Ha]. exists (a, info). split; [done|by apply elem_of_map_to_list].
Qed.

Lemma no_overlap_contents M info : no_overlap M info ↔ ∀ j, j ∈ contents M → ¬ overlap info j.
Proof.
  split; [intros H j [a Ha]%elem_of_contents; by apply (H a)|].
  intros H a i Ha. apply H, elem_of_contents. by exists a.
Qed.

Lemma no_overlap_witness M info : ¬ no_overlap M info → ∃ j, j ∈ contents M ∧ overlap info j.
Proof.
  intros Hn. destruct (decide (Exists (overlap info) (contents M))) as [Ho|Ho].
  - by apply Exists_exists in Ho.
  - exfalso. apply Hn, no_overlap_contents. intros j Hj Hov. apply Ho, Exists_exists. by exists j.
Qed.

Lemma held_usable M i target hi :
  (∀ a info, M !! a = Some info → block_ok info) → held_between M i target hi →
  ∀ j, j ∈ contents M → usable i target j → hi ≤ tf_size (file j).
Proof.
  intros Hb Hh j [a Ha]%elem_of_contents (Hf & Hp & Ht).
  destruct (Z.lt_ge_cases (tf_size (file j)) hi); [|done].
  pose proof (Hh a j Ha Hp ltac:(lia)). rewrite Hf in *. done.
Qed.

(** ** The empty allocator *)

Lemma fresh_pool element_size man :
  fast_mblock_init element_size 0 0 = (0, Some man) → can_grow man → mblock_rep man [] ∅ ∧ brk man = 1%positive.
Proof.
  unfold fast_mblock_init. destruct (_ <=? _); [done|]. intros [= <-] _.
  split; [|done]. split; cbn; try done; try set_solver. constructor.
Qed.

(** The state [storage_trunk_load] finds. *)
Lemma fresh_core m man1 man2 :
  fast_mblock_init sizeof_FDFSTrunkNode 0 0 = (0, Some man1) → fast_mblock_init sizeof_FDFSTrunkSlot 0 0 = (0, Some man2) →
  core_ok cfg (set_tree_info_by_id trunk_free_block_checker_init
    (set_tree_info_by_sizes
       (replicate (length (paths (g_fdfs_store_paths (g_store cfg))))
          (avl_tree_init None storage_trunk_node_compare_size)) (set_tree_nodes_man man2 (set_free_blocks_man man1 m)))) ∅ ∅.
Proof.
  intros E1 E2.
  assert (can_grow man1) as G1 by (injection E1 as <-; split; vm_compute; done).
  assert (can_grow man2) as G2 by (injection E2 as <-; split; vm_compute; done).
  destruct (fresh_pool _ _ E1 G1) as [R1 _], (fresh_pool _ _ E2 G2) as [R2 _].
  destruct (avl_tree_init_ok (W := unit) slot_valid slot_size storage_trunk_node_compare_size None) as [Hok He].
  assert (∀ i sz, slot_at (replicate (length (paths (g_fdfs_store_paths (g_store cfg))))
            (avl_tree_init None storage_trunk_node_compare_size)) i sz = None) as Hslot.
  { intros i sz. unfold slot_at. destruct (_ !! i) as [t|] eqn:Et; [|done].
    apply lookup_replicate in Et as [-> _]. done. }
  split; cbn; try done.
  - split; cbn; try done.
    + by apply Forall_replicate.
    + intros i sz. rewrite Hslot. exists []. split; [done|]. split; [constructor|].
      split; [by intros [? ?]|]. intros a. split; [by intros ?%not_elem_of_nil|by intros (? & ? & _)].
  - split; [done| |].
    + exists [], ∅. split; [done|]. intros i sz e. by rewrite Hslot.
    + intros i sz e i' sz' e'. by rewrite Hslot.
  - destruct (trunk_free_block_checker_init_ok (n_trunk <$> nodes m)) as [H1 H2]. split; [done|].
    rewrite H2. by rewrite map_to_list_empty.
  - split; [done|]. by exists [].
  - by rewrite length_replicate.
Qed.

(** ** One request *)

Section refinement.
Context (env : nat → outcome).
Hypothesis Henv : ∀ n, outcome_ok (env n).
Hypothesis Hmin : 0 < g_slot_min_size cfg ≤ INT_MAX.
Hypothesis Hself : g_if_trunker_self cfg = true.

Lemma status_checked s : trunk_init_flag s = STORAGE_TRUNK_INIT_FLAG_DONE → STORAGE_TRUNK_CHECK_STATUS cfg s = true.
Proof using Hself. intros E. unfold STORAGE_TRUNK_CHECK_STATUS. by rewrite Hself, E. Qed.

Lemma allocated_contents M a c info size B' :
  c ≠ a → M !! c = None → contents (delete a M) ≡ₚ B' →
  contents (allocated cfg M a c info size) ≡ₚ granted cfg info size :: remainder info size ++ B'.
Proof.
  intros Hca Hc HB. unfold allocated, remainder. destruct (splits _ _ _); cbn [app].
  - rewrite contents_insert, contents_insert, HB; [done| |].
    + by rewrite lookup_delete_ne.
    + rewrite lookup_insert_ne by done. apply lookup_delete_eq.
  - rewrite contents_insert by apply lookup_delete_eq. by rewrite HB.
Qed.

Lemma serve_alloc s B i size :
  represents s B → admissible s (AllocSpace i size) →
  ∃ p s' B', trunk_alloc_space cfg env i size s = Some (p, s') ∧ spec_step B (AllocSpace i size) p B' ∧
    represents s' B'.
Proof using Henv Hmin Hself.
  intros (Hflag & M & U & Hc & Hl & HB) (Hcr & Hi & Hp & Hsz).
  destruct (trunk_alloc_space_ok cfg env Henv ltac:(lia) s M U i size)
    as (s' & U' & a & c & info & E & Hsrc & Hca & HcM & Hfit & Hno & Hc' & Hl' & Hfl); [done..|lia|done|].
  assert (∀ j, j ∈ B → j ∈ contents M) as HBM by (intros j; by rewrite HB).
  pose proof (held_usable M (Z.to_nat i) (target_of_size cfg size)) as Hheld.
  assert (∀ a info, M !! a = Some info → block_ok info) as Hblk by (intros b j Hb; exact (core_block _ _ _ _ _ _ Hc Hb)).
  destruct Hsrc as [(Ha & (Hst & Hpa & Htg & Hbest) & _)|(Ha & Hnone & Hw & name & Hname & _)].
  - eexists _, s', _. split; [exact E|]. split.
    { apply (spec_alloc_fit B i size info (contents (delete a M))); [by rewrite HB, (contents_here M a info)|done|].
      intros j Hj. eapply Hheld; [done|exact Hbest|by apply HBM]. }
    split; [by rewrite Hfl|]. exists (allocated cfg M a c info size), U'. split; [done|]. split; [done|].
    symmetry. by apply allocated_contents.
  - eexists _, s', _. split; [exact E|]. split.
    { apply (spec_alloc_new B i size info); [|done|].
      - intros j Hj Hu. pose proof (Hheld INT_MAX Hblk Hnone j (HBM j Hj) Hu).
        destruct (proj1 (elem_of_contents M j) (HBM j Hj)) as [b Hb].
        pose proof (block_size_range j (Hblk b j Hb)). lia.
      - intros j Hj%HBM. by apply (no_overlap_contents M); [rewrite delete_id in Hno|]. }
    split; [by rewrite Hfl|]. exists (allocated cfg M a c info size), U'. split; [done|]. split; [done|].
    symmetry. apply allocated_contents; [done|done|]. by rewrite delete_id, HB by done.
Qed.

Lemma serve_confirm s B info st :
  represents s B → admissible s (AllocConfirm info st) →
  ∃ p s' B', serve env (AllocConfirm info st) s = Some (p, s') ∧ spec_step B (AllocConfirm info st) p B' ∧
    represents s' B'.
Proof using Henv Hmin Hself.
  intros (Hflag & M & U & Hc & Hl & HB) (Hi & He & Hid & Hp). cbn [serve]. unfold trunk_alloc_confirm.
  rewrite bind_assoc, get_bind, (status_checked s Hflag). cbn [negb]. cbv zeta.
  assert (block_ok (hold_info info)) as Hb by (split; [exact Hi|exact He|exact Hid|by right]).
  destruct (decide (hold_info info ∈ B)) as [Hin|Hout].
  - rewrite HB in Hin. apply elem_of_contents in Hin as [a Ha].
    destruct (decide (st = 0 ∨ st = EEXIST)) as [Hst|Hst].
    + destruct (trunk_delete_space_ok cfg env Henv s M U a _ Hc Hl Ha) as (s' & E & Hc' & Hl' & He').
      assert (∀ (A : Type) (x y : A), (if st =? 0 then x else if st =? EEXIST then x else y) = x) as Hif
        by (intros; destruct Hst as [-> | ->]; done).
      rewrite Hif, (bind_run _ _ _ _ _ E).
      eexists _, s', (contents (delete a M)). split; [reflexivity|]. split.
      * apply spec_confirm_stored; [done|]. by rewrite HB, (contents_here _ _ _ Ha).
      * split; [by rewrite (se_flag _ _ He')|]. by exists (delete a M), (U ∖ {[a]}).
    + destruct (trunk_restore_node_ok cfg env Henv s M U a _ Hc Hl Ha) as (s' & E & Hc' & Hl' & He').
      rewrite (proj2 (Z.eqb_neq st 0)), (proj2 (Z.eqb_neq st EEXIST)), (bind_run _ _ _ _ _ E) by tauto.
      eexists _, s', _. split; [reflexivity|]. split.
      * apply (spec_confirm_failed B info st (contents (delete a M))); [tauto..|]. by rewrite HB, (contents_here _ _ _ Ha).
      * split; [by rewrite (se_flag _ _ He')|]. eexists _, U. split; [exact Hc'|]. split; [exact Hl'|].
        by rewrite (contents_update _ _ _ _ Ha).
  - destruct (trunk_delete_space_absent cfg env s M U (hold_info info) true) as [E1 E2]; [done..| |].
    { intros a Ha. apply Hout. rewrite HB. apply elem_of_contents. by exists a. }
    exists (ENOENT, None), s, B. split; [|split; [by apply spec_confirm_unknown|by split; [|exists M, U]]].
    unfold hold_info in E1, E2. destruct (st =? 0), (st =? EEXIST);
      by rewrite ?(bind_run _ _ _ _ _ E1), ?(bind_run _ _ _ _ _ E2).
Qed.

Lemma serve_free s B info :
  represents s B → admissible s (FreeSpace info) →
  ∃ p s' B', serve env (FreeSpace info) s = Some (p, s') ∧ spec_step B (FreeSpace info) p B' ∧ represents s' B'.
Proof using Henv Hmin Hself.
  intros (Hflag & M & U & Hc & Hl & HB) (Hi & He & Hid & Hf). cbn [serve].
  assert (∀ j, j ∈ B ↔ j ∈ contents M) as HBM by (intros j; by rewrite HB).
  destruct (trunk_free_space_ok cfg env Henv s M U info Hc Hl Hself Hflag Hi He Hid Hf)
    as [[Hs E]|[(Hs & Ho & s' & U' & E & Hc' & Hl' & He')|(Hs & Ho & s' & U' & a & E & Ha & Hc' & Hl' & He')]];
    rewrite (bind_run _ _ _ _ _ E).
  - exists (0, None), s, B. split; [reflexivity|]. split; [by apply spec_free_small|].
    split; [done|]. by exists M, U.
  - apply no_overlap_witness in Ho as (j & Hj & Hov).
    exists (EEXIST, None), s', B. split; [reflexivity|]. split; [by eapply spec_free_overlap; [..|apply HBM|]|].
    split; [by rewrite (se_flag _ _ He')|]. by exists M, U'.
  - eexists (0, None), s', _. split; [reflexivity|]. split.
    { apply spec_free; [done|]. intros j Hj%HBM. by apply (no_overlap_contents M). }
    split; [by rewrite (se_flag _ _ He')|]. eexists _, U'. split; [exact Hc'|]. split; [exact Hl'|].
    by rewrite contents_insert, HB.
Qed.

Lemma serve_refines s B q :
  represents s B → admissible s q →
  ∃ p s' B', serve env q s = Some (p, s') ∧ spec_step B q p B' ∧ represents s' B'.
Proof using Henv Hmin Hself. destruct q; [apply serve_alloc|apply serve_confirm|apply serve_free]. Qed.

Lemma serve_all_refines reqs s B :
  represents s B → admissible_all env reqs s →
  ∃ resps s' B', serve_all env reqs s = Some (resps, s') ∧ spec_run B reqs resps B' ∧ represents s' B'.
Proof using Henv Hmin Hself.
  revert s B. induction reqs as [|q reqs IH]; intros s B Hr Ha.
  { by exists [], s, B. }
  destruct Ha as [Ha Hrest]. destruct (serve_refines s B q Hr Ha) as (p & s1 & B1 & E & Hstep & Hr1).
  destruct (IH s1 B1 Hr1 (Hrest p s1 E)) as (ps & s' & B' & E' & Hrun & Hr').
  exists (p :: ps), s', B'. cbn [serve_all]. rewrite (bind_run _ _ _ _ _ E), (bind_run _ _ _ _ _ E').
  split; [done|]. split; [by exists B1|done].
Qed.
End refinement.
End contract.

(** * Properties *)

(** C1 The trunk server implements its contract.  From any state that stands
    for a collection of blocks, any sequence of admissible requests is
    served without undefined behaviour, each response is one the contract
    allows (allocation takes the smallest usable block, or a new trunk
    file, and splits it; confirmation removes the block, or frees it when
    storing failed, or answers ENOENT; freeing adds the block, ignores it
    when it is too small, or answers EEXIST when it overlaps another one),
    and the state stands for the collection the contract gives. *)
Theorem trunk_server_refines cfg env reqs s B :
  (∀ n, outcome_ok (env n)) → 0 < g_slot_min_size cfg ≤ INT_MAX → g_if_trunker_self cfg = true →
  represents cfg s B → admissible_all cfg env reqs s →
  ∃ resps s' B', serve_all cfg env reqs s = Some (resps, s') ∧ spec_run cfg B reqs resps B' ∧ represents cfg s' B'.
Proof. intros He Hm Hs Hr Ha. by apply serve_all_refines. Qed.

Definition sample_cfg : trunk_config :=
  {| g_slot_min_size := 64; g_slot_max_size := 512; g_trunk_file_size := 1024; g_if_trunker_self := true;
     g_trunk_create_file_advance := true; g_trunk_create_file_space_threshold := 4096; g_store := sample_config |}.
Definition sample_env (n : nat) : outcome :=
  {| o_malloc_ok := true; o_errno := 0; o_index := sample_alloc; o_io := sample_io;
     o_now := 1400000000; o_ini := 0; o_kernel := sample_kernel |}.
Definition empty_pool : fast_mblock_man :=
  {| free_chain_head := None; malloc_chain := []; element_size := 0; alloc_elements_once := 0;
     node_next := ∅; brk := 1 |}.

(** A trunk server before [storage_trunk_init], and after it without any
    block. *)
Definition sample_stopped : trunk_state :=
  {| nodes := ∅; free_blocks_man := empty_pool; tree_nodes_man := empty_pool; tree_info_by_sizes := [];
     tree_info_by_id := trunk_free_block_checker_init; g_trunk_total_free_space := 0;
     g_current_trunk_file_id := 0; trunk_init_flag := STORAGE_TRUNK_INIT_FLAG_NONE; binlog := empty_binlog;
     dist := sample_dist; trunk_files := ∅; ticks := 0 |}.
Definition pool_of (size : Z) : fast_mblock_man := default empty_pool (fast_mblock_init size 0 0).2.
Definition sample_state : trunk_state :=
  set_trunk_init_flag STORAGE_TRUNK_INIT_FLAG_DONE
    (set_tree_info_by_id trunk_free_block_checker_init
      (set_tree_info_by_sizes (replicate 2 (avl_tree_init None storage_trunk_node_compare_size))
        (set_tree_nodes_man (pool_of sizeof_FDFSTrunkSlot)
          (set_free_blocks_man (pool_of sizeof_FDFSTrunkNode) sample_stopped)))).

Lemma sample_env_ok n : outcome_ok (sample_env n).
Proof. by split. Qed.

Lemma sample_represents : represents sample_cfg sample_state [].
Proof.
  split; [done|]. exists ∅, ∅.
  pose proof (fresh_core sample_cfg sample_stopped (pool_of sizeof_FDFSTrunkNode) (pool_of sizeof_FDFSTrunkSlot)
    eq_refl eq_refl) as Hc.
  split; [by destruct Hc; split|]. split; [|by unfold contents; rewrite map_to_list_empty].
  split; [done|]. split; [vm_compute; done|]. exists [], []. split; [constructor|]. split; [done|].
  split; [constructor|]. unfold places. by rewrite map_to_list_empty.
Qed.

(** The block [trunk_alloc_space] gives for 100 bytes. *)
Definition sample_block : FDFSTrunkFullInfo :=
  {| status := FDFS_TRUNK_STATUS_HOLD; path := {| store_path_index := 0; sub_path_high := 3; sub_path_low := 255 |};
     file := {| tf_id := 1; tf_offset := 0; tf_size := 100 |} |}.
Definition sample_requests : list request := [AllocSpace 0 100; AllocConfirm sample_block EIO; AllocSpace 0 70].

Lemma sample_create_ok s :
  0 ≤ g_current_trunk_file_id s → g_current_trunk_file_id s + Z.of_nat (size (trunk_files s)) + 1 < 2 ^ 31 →
  create_ok sample_cfg s.
Proof. intros H1 H2. split; [repeat constructor; cbn; lia|done|done|done]. Qed.

Lemma serve_result {A} (p : prog trunk_state A) s x s' (f : trunk_state → Z) :
  p s = Some (x, s') → f s' = default 0 (f <$> (snd <$> p s)).
Proof. by intros ->. Qed.

Lemma sample_admissible : admissible_all sample_cfg sample_env sample_requests sample_state.
Proof.
  cbn [admissible_all sample_requests]. split.
  { split; [by apply sample_create_ok|]. split; [done|]. split; [cbn; lia|done]. }
  intros p s1 E1. split.
  { clear E1. unfold admissible, info_ok, path_ok, end_of, is_byte, is_int32, INT_MAX, path_of. cbn. lia. }
  intros p2 s2 E2. split; [|clear; done]. split; [|clear; split; [done|split; [cbn; lia|done]]].
  assert (((serve sample_cfg sample_env (AllocSpace 0 100) ≫= λ _,
            serve sample_cfg sample_env (AllocConfirm sample_block EIO)) : prog trunk_state response) sample_state
          = Some (p2, s2)) as E by (rewrite (bind_run _ _ _ _ _ E1); exact E2).
  clear E1 E2. apply sample_create_ok.
  - rewrite (serve_result _ _ _ _ g_current_trunk_file_id E). clear. by vm_compute.
  - rewrite (serve_result _ _ _ _ (λ s, g_current_trunk_file_id s + Z.of_nat (size (trunk_files s)) + 1) E).
    clear. by vm_compute.
Qed.

Lemma trunk_server_refines_witness :
  ∃ resps s' B', serve_all sample_cfg sample_env sample_requests sample_state = Some (resps, s') ∧
    spec_run sample_cfg [] sample_requests resps B' ∧ represents sample_cfg s' B'.
Proof.
  apply (trunk_server_refines sample_cfg sample_env sample_requests sample_state []).
  - exact sample_env_ok.
  - split; vm_compute; done.
  - reflexivity.
  - exact sample_represents.
  - exact sample_admissible.
Defined.

(** From [s] to [s'] one file was created, whole and cleared, under a name
    no file had: that of the node [a], whose number is the current one. *)
Definition file_created (cfg : trunk_config) (a : positive) (s s' : trunk_state) : Prop :=
  ∃ n name, nodes s' !! a = Some n ∧
    trunk_get_full_filename_ex (g_fdfs_store_paths (g_store cfg)) (n_trunk n) MAX_PATH_SIZE = Some name ∧
    trunk_files s !! name = None ∧
    trunk_files s' = <[name := replicate (Z.to_nat (g_trunk_file_size cfg)) 0]> (trunk_files s) ∧
    tf_id (file (n_trunk n)) = g_current_trunk_file_id s'.

(** C17 The search for a free file name ends.  Whatever files exist,
    [trunk_create_next_file] finds a number that no file has after at most
    one more try than there are files, and creates the file, whole and
    cleared, under the name of the node. *)
Theorem trunk_create_next_file_terminates cfg env s a n :
  (∀ n, outcome_ok (env n)) → create_ok cfg s → nodes s !! a = Some n →
  is_byte (store_path_index (path (n_trunk n))) →
  (path_of (n_trunk n) < length (paths (g_fdfs_store_paths (g_store cfg))))%nat →
  ∃ s', trunk_create_next_file cfg env a s = Some (0, s') ∧ file_created cfg a s s' ∧
    g_current_trunk_file_id s < g_current_trunk_file_id s'
      ≤ g_current_trunk_file_id s + Z.of_nat (size (trunk_files s)) + 1.
Proof.
  intros Henv Hcr Ha Hi Hp.
  destruct (trunk_create_next_file_ok cfg env Henv s a n Hcr Ha Hi Hp)
    as (k & d & id & n' & name & E & _ & _ & Hid & Hids & Ef & Hfree & _).
  eexists. split; [exact E|]. split; [|done].
  exists n', name. split; [apply lookup_insert_eq|]. by repeat (split; [done|]).
Qed.

(** Two files exist, whose numbers come next: the third one is free. *)
Definition sample_node : FDFSTrunkNode := {| n_trunk := sample_block; n_pMblockNode := 1; n_next := None |}.
Definition sample_crowded : trunk_state :=
  set_trunk_files {[ bytes "/data0/data/03/FF/000001" := [7]; bytes "/data0/data/03/FF/000002" := [8] ]}
    (set_nodes {[ 1%positive := sample_node ]} sample_state).

Lemma trunk_create_next_file_terminates_witness :
  ∃ s', trunk_create_next_file sample_cfg sample_env 1 sample_crowded = Some (0, s') ∧
    file_created sample_cfg 1 sample_crowded s' ∧
    g_current_trunk_file_id sample_crowded < g_current_trunk_file_id s'
      ≤ g_current_trunk_file_id sample_crowded + Z.of_nat (size (trunk_files sample_crowded)) + 1.
Proof.
  apply (trunk_create_next_file_terminates sample_cfg sample_env sample_crowded 1 sample_node).
  - exact sample_env_ok.
  - apply sample_create_ok; by vm_compute.
  - reflexivity.
  - split; vm_compute; done.
  - apply Nat.lt_0_2.
Defined.

(** C19 A trunk server that is not ready, or out of memory, changes
    nothing: allocation, confirmation and freeing answer EINVAL when this
    server is not the trunk server or is not initialised; when no node can
    be had, freeing answers the errno, and neither the blocks nor the total
    nor the binlog change. *)
Theorem trunk_server_errors cfg env s info :
  (g_if_trunker_self cfg = false ∨ trunk_init_flag s ≠ STORAGE_TRUNK_INIT_FLAG_DONE →
   ∀ q, serve cfg env q s = Some ((EINVAL, None), s)) ∧
  (g_if_trunker_self cfg = true → trunk_init_flag s = STORAGE_TRUNK_INIT_FLAG_DONE →
   g_slot_min_size cfg ≤ tf_size (file info) → free_chain_head (free_blocks_man s) = None →
   o_malloc_ok (env (ticks s)) = false → 0 < o_errno (env (ticks s)) →
   ∃ k, serve cfg env (FreeSpace info) s = Some ((o_errno (env (ticks s)), None), set_ticks k s)).
Proof.
  split.
  - intros Hn q. assert (STORAGE_TRUNK_CHECK_STATUS cfg s = false) as E.
    { unfold STORAGE_TRUNK_CHECK_STATUS. destruct Hn as [-> | Hn%Z.eqb_neq]; [done|rewrite Hn; apply andb_false_r]. }
    destruct q; cbn [serve]; unfold trunk_alloc_space, trunk_alloc_confirm, trunk_free_space; run; rewrite ?E; try done.
    destruct Hn as [-> | Hn%Z.eqb_neq]; [done|]. rewrite Hn. by destruct (g_if_trunker_self cfg).
  - intros Hself Hflag Hs Hfree Hm He. exists (S (ticks s)). cbn [serve]. unfold trunk_free_space. run. rewrite Hself, Hflag.
    rewrite Z.eqb_refl. cbn [negb andb]. rewrite (proj2 (Z.ltb_ge _ _)) by lia.
    unfold alloc_node. rewrite !bind_assoc, tick_bind. run. unfold fast_mblock_alloc. cbn [free_blocks_man set_ticks].
    rewrite Hfree, Hm. cbn [fast_mblock_prealloc negb]. unfold fast_mblock_prealloc. cbn [negb].
    assert ((o_errno (env (ticks s)) =? 0) = false) as E0 by lia.
    unfold errno_or. unfold c_true. rewrite !E0. cbn [mbind option_bind]. cbn [negb mbind option_bind]. rewrite !E0. cbn [deref]. run. unfold mret, prog_ret.
    by destruct s.
Qed.

Definition sample_no_memory (n : nat) : outcome :=
  {| o_malloc_ok := false; o_errno := ENOMEM; o_index := sample_alloc; o_io := sample_io;
     o_now := 1400000000; o_ini := 0; o_kernel := sample_kernel |}.

Lemma trunk_server_errors_witness :
  serve sample_cfg sample_env (AllocSpace 0 100) sample_stopped = Some ((EINVAL, None), sample_stopped) ∧
  ∃ k, serve sample_cfg sample_no_memory (FreeSpace sample_block) sample_state
       = Some ((ENOMEM, None), set_ticks k sample_state).
Proof.
  split.
  - apply (proj1 (trunk_server_errors sample_cfg sample_env sample_stopped sample_block)). by right.
  - by apply (proj2 (trunk_server_errors sample_cfg sample_no_memory sample_state sample_block)).
Defined.
