(* ===== verification/TrunkMemSave.v ===== *)
(** * storage/trunk_mgr/trunk_mem.c: saving and loading

    The trunk server writes its blocks to a data file when it stops, with
    the size of the binlog at that time; it reads the data file when it
    starts, and what the binlog has got since.  Without a data file, or when
    it is told to, it rebuilds the blocks from the whole binlog, in a tree
    ordered by position.

    [sys n] is the answer of the operating system to the [n]-th call; the
    answers the other components ask for are in [env] (TrunkMem.v). *)

From stdpp Require Import strings.
From S2P Require Import Prelude LinkedList RankList AvlTree CLib SharedFunc Base64 TrunkShared FastMblock.
From S2P Require Import TrunkFile StorePath FreeBlockChecker TrunkBinlog TrunkMem.
#[local] Open Scope Z_scope.

(** ** Data *)

Record sys_outcome := {
  so_ret : Z;          (* stat, open, lseek, read, fsync, rename, unlink: negative on error *)
  so_errno : Z;
  so_io : io_outcome;  (* write *)
  so_stale : list Z;   (* what malloc returns *)
}.

Record trunk_server := {
  mem : trunk_state;
  trunk_dat : option (list Z);  (* storage_trunk.dat *)
  temp_dat : option (list Z);   (* .storage_trunk.dat.tmp *)
  calls : nat;
}.

Definition set_mem (m : trunk_state) (s : trunk_server) : trunk_server :=
  {| mem := m; trunk_dat := trunk_dat s; temp_dat := temp_dat s; calls := calls s |}.
Definition set_trunk_dat (f : option (list Z)) (s : trunk_server) : trunk_server :=
  {| mem := mem s; trunk_dat := f; temp_dat := temp_dat s; calls := calls s |}.
Definition set_temp_dat (f : option (list Z)) (s : trunk_server) : trunk_server :=
  {| mem := mem s; trunk_dat := trunk_dat s; temp_dat := f; calls := calls s |}.
Definition set_calls (n : nat) (s : trunk_server) : trunk_server :=
  {| mem := mem s; trunk_dat := trunk_dat s; temp_dat := temp_dat s; calls := n |}.

Record load_config := {
  g_trunk_init_check_occupying : bool;
  g_trunk_init_reload_from_binlog : bool;
}.

(** [sizeof(callback_args.buff)] *)
Definition WALK_BUFFER_SIZE : Z := 16 * 1024.

Record walk_callback_args := {
  wa_buff : list Z;  (* the bytes up to [pCurrent] *)
  wa_file : list Z;  (* what was written *)
  wa_calls : nat;
}.

Definition TRUNK_DATA_FIELD_COUNT : Z := 6.
Definition TRUNK_LINE_MAX_LENGHT : Z := 64.

(** [sizeof(buff) - 1] in [storage_trunk_load] *)
Definition LOAD_BUFFER_SIZE : Z := 4 * 1024.

(** By trunk file, then by offset. *)
Definition path_bytes (p : FDFSTrunkPathInfo) : list Z :=
  [store_path_index p; sub_path_high p; sub_path_low p].

Definition storage_trunk_node_compare_offset (p1 p2 : FDFSTrunkNode) : Z :=
  let pTrunkInfo1 := n_trunk p1 in
  let pTrunkInfo2 := n_trunk p2 in
  let result := memcmp (path_bytes (path pTrunkInfo1)) (path_bytes (path pTrunkInfo2)) in
  if c_true result then result
  else
    let result := s32 (tf_id (file pTrunkInfo1) - tf_id (file pTrunkInfo2)) in
    if c_true result then result
    else s32 (tf_offset (file pTrunkInfo1) - tf_offset (file pTrunkInfo2)).

(** The data of the tree are the nodes, at the address of their block. *)
Abbreviation offset_tree := (AVLTreeInfo FDFSTrunkNode fast_mblock_man).

Definition storage_trunk_free_node (ptr : FDFSTrunkNode) (free_blocks_man : fast_mblock_man) : fast_mblock_man :=
  fast_mblock_free free_blocks_man (n_pMblockNode ptr).

(** A tree without [free_data_func] seen with another state of its caller. *)
Definition retype {D W W'} (t : AVLTreeInfo D W) : AVLTreeInfo D W' :=
  mkAVLTreeInfo (root t) None (compare_func t).

Section saving.
Context (cfg : trunk_config) (lcfg : load_config) (env : nat → outcome) (sys : nat → sys_outcome).

Definition sys_call : prog trunk_server sys_outcome :=
  s ← get;
  modify (set_calls (S (calls s)));;
  mret (sys (calls s)).

Definition on_mem {A} (p : prog trunk_state A) : prog trunk_server A :=
  λ s, match p (mem s) with Some (x, m) => Some (x, set_mem m s) | None => None end.

(** The size and [errno]. *)
Definition storage_trunk_get_binlog_size : prog trunk_server (Z * Z) :=
  o ← sys_call;
  s ← get;
  mret (if so_ret o =? 0 then Z.of_nat (length (binlog_file (binlog (mem s))))
        else if so_errno o =? ENOENT then 0 else -1, so_errno o).

(** ** Saving *)

Definition trunk_data_line (pTrunkInfo : FDFSTrunkFullInfo) : list Z :=
  sprintf_d (store_path_index (path pTrunkInfo)) ++ [CH_SPACE]
  ++ sprintf_d (sub_path_high (path pTrunkInfo)) ++ [CH_SPACE]
  ++ sprintf_d (sub_path_low (path pTrunkInfo)) ++ [CH_SPACE]
  ++ sprintf_d (tf_id (file pTrunkInfo)) ++ [CH_SPACE]
  ++ sprintf_d (tf_offset (file pTrunkInfo)) ++ [CH_SPACE]
  ++ sprintf_d (tf_size (file pTrunkInfo)) ++ [CH_LF].

(** [write] of the whole buffer: the result and the arguments. *)
Definition write_args (a : walk_callback_args) : Z * walk_callback_args :=
  let o := sys (wa_calls a) in
  let len := Z.of_nat (length (wa_buff a)) in
  let '(n, file) := fd_write (so_io o) (wa_file a) (wa_buff a) in
  if negb (n =? len)
  then (errno_or (io_errno (so_io o)) EIO,
        {| wa_buff := wa_buff a; wa_file := file; wa_calls := S (wa_calls a) |})
  else (0, {| wa_buff := []; wa_file := file; wa_calls := S (wa_calls a) |}).

(** [None]: the line does not fit into the buffer. *)
Fixpoint save_chain (fuel : nat) (ns : gmap positive FDFSTrunkNode) (pCurrent : option positive)
    (a : walk_callback_args) : option (Z * walk_callback_args) :=
  match pCurrent, fuel with
  | None, _ => Some (0, a)
  | Some _, O => None
  | Some p, S fuel =>
      n ← ns !! p;
      let buff := wa_buff a ++ trunk_data_line (n_trunk n) in
      let a := {| wa_buff := buff; wa_file := wa_file a; wa_calls := wa_calls a |} in
      if WALK_BUFFER_SIZE <? Z.of_nat (length buff) + 1 then None
      else
        let '(result, a) :=
          if WALK_BUFFER_SIZE - 128 <? Z.of_nat (length buff) then write_args a else (0, a) in
        if c_true result then Some (result, a) else save_chain fuel ns (n_next n) a
  end.

Definition tree_walk_callback (ns : gmap positive FDFSTrunkNode) (data : FDFSTrunkSlot)
    (a : walk_callback_args) : option (Z * walk_callback_args) :=
  save_chain (size ns) ns (slot_head data) a.

(** [avl_tree_walk] with a callback that may fail. *)
Definition walk_opt {D W} (t : AVLTreeInfo D unit) (op : D → W → option (Z * W)) (w : W) : option (Z * W) :=
  let '(result, w) := avl_tree_walk (retype t)
    (λ d o, match o with
            | Some w => match op d w with Some (r, w) => (r, Some w) | None => (1, None) end
            | None => (1, None)
            end) (Some w) in
  w ← w; Some (result, w).

(** The loop over the store paths. *)
Fixpoint save_trees (ns : gmap positive FDFSTrunkNode) (trees : list (AVLTreeInfo FDFSTrunkSlot unit))
    (a : walk_callback_args) : option (Z * walk_callback_args) :=
  match trees with
  | [] => Some (0, a)
  | t :: trees =>
      '(result, a) ← walk_opt t (tree_walk_callback ns) a;
      if c_true result then Some (result, a) else save_trees ns trees a
  end.

Definition storage_trunk_save : prog trunk_server Z :=
  '(trunk_binlog_size, err) ← storage_trunk_get_binlog_size;
  if trunk_binlog_size <? 0 then mret (errno_or err EPERM)
  else
    o ← sys_call;
    if so_ret o <? 0 then mret (errno_or (so_errno o) EIO)
    else
      s ← get;
      '(result, a) ← deref (save_trees (nodes (mem s)) (tree_info_by_sizes (mem s))
        {| wa_buff := sprintf_d trunk_binlog_size ++ [CH_LF]; wa_file := []; wa_calls := calls s |});
      let '(result, a) := if negb (result =? 0) || (length (wa_buff a) =? 0)%nat then (result, a)
                          else write_args a in
      modify (λ s, set_temp_dat (Some (wa_file a)) (set_calls (wa_calls a) s));;
      result ← (if result =? 0 then
                  o ← sys_call;
                  mret (if so_ret o =? 0 then 0 else errno_or (so_errno o) EIO)
                else mret result);
      if negb (result =? 0) then mret result
      else
        o ← sys_call;
        if negb (so_ret o =? 0) then mret (errno_or (so_errno o) EIO)
        else modify (λ s, set_trunk_dat (temp_dat s) (set_temp_dat None s));; mret 0.

(** ** Adding the blocks that were loaded *)

(** storage_dio.c: is there a file at the offset? [header] is what [read]
    returned. *)
Definition dio_check_trunk_file_ex (read_errno : Z) (header : list Z) : option Z :=
  let expect_header := replicate (Z.to_nat FDFS_TRUNK_FILE_HEADER_SIZE) 0 in
  if negb (Z.of_nat (length header) =? FDFS_TRUNK_FILE_HEADER_SIZE) then Some (errno_or read_errno EIO)
  else if memcmp header expect_header =? 0 then Some 0
  else
    srcOldTrunkHeader ← trunk_unpack_header header;
    let old_header := trunk_pack_header
      {| file_type := 0; formatted_ext_name := formatted_ext_name srcOldTrunkHeader; h_alloc_size := 0;
         h_file_size := 0; h_crc32 := h_crc32 srcOldTrunkHeader; h_mtime := h_mtime srcOldTrunkHeader |} in
    Some (if memcmp old_header expect_header =? 0 then 0 else EEXIST).

Definition storage_trunk_is_space_occupied (pTrunkInfo : FDFSTrunkFullInfo) : prog trunk_server bool :=
  full_filename ← deref (trunk_get_full_filename_ex (g_fdfs_store_paths (g_store cfg)) pTrunkInfo (MAX_PATH_SIZE + 64));
  s ← get;
  o ← sys_call;
  match trunk_files (mem s) !! full_filename with
  | None => mret false
  | Some content =>
      if so_ret o <? 0 then mret false
      else
        failed ← (if 0 <? tf_offset (file pTrunkInfo) then o ← sys_call; mret (so_ret o <? 0) else mret false);
        if failed : bool then mret false
        else
          o ← sys_call;
          let header := if so_ret o <? 0 then []
                        else fd_read content (tf_offset (file pTrunkInfo)) FDFS_TRUNK_FILE_HEADER_SIZE in
          result ← deref (dio_check_trunk_file_ex (so_errno o) header);
          mret (result =? EEXIST)
  end.

Definition trunk_add_space_by_trunk (pTrunkInfo : FDFSTrunkFullInfo) : prog trunk_state Z :=
  result ← trunk_free_space cfg env pTrunkInfo false;
  mret (if (result =? 0) || (result =? EEXIST) then 0 else result).

Definition trunk_add_space_by_node (pTrunkNode : positive) : prog trunk_state Z :=
  n ← node_at pTrunkNode;
  if tf_size (file (n_trunk n)) <? g_slot_min_size cfg then free_block (n_pMblockNode n);; mret 0
  else
    result ← trunk_add_free_block env pTrunkNode false;
    if result =? 0 then mret 0
    else free_block (n_pMblockNode n);; mret (if result =? EEXIST then 0 else result).

Definition storage_trunk_do_add_space (pTrunkInfo : FDFSTrunkFullInfo) : prog trunk_server Z :=
  occupied ← (if g_trunk_init_check_occupying lcfg then storage_trunk_is_space_occupied pTrunkInfo
              else mret false);
  if occupied : bool then mret 0 else on_mem (trunk_add_space_by_trunk pTrunkInfo).

Definition storage_trunk_add_free_blocks_callback (data : FDFSTrunkNode) (s : trunk_state) :
    option (Z * trunk_state) :=
  trunk_add_space_by_node (n_pMblockNode data) s.

(** ** Replaying the binlog *)

(** [trunk_reader_init(NULL, &reader)]; the mark file does not exist. *)
Definition trunk_reader_init (offset : Z) : prog trunk_server (Z * TrunkBinLogReader) :=
  o ← sys_call;
  let reader := {| binlog_buff := {| bb_buffer := so_stale o; bb_current := 0; bb_length := 0; bb_version := 0 |};
                   fd_pos := offset; binlog_offset := offset |} in
  if so_ret o <? 0 then mret (errno_or (so_errno o) ENOMEM, reader)
  else
    o ← sys_call;  (* open the mark file *)
    if so_ret o <? 0 then mret (errno_or (so_errno o) ENOENT, reader)
    else
      o ← sys_call;  (* open the binlog *)
      if so_ret o <? 0 then mret (errno_or (so_errno o) ENOENT, reader)
      else
        o ← (if 0 <? offset then sys_call else mret o);  (* lseek *)
        if so_ret o <? 0 then mret (errno_or (so_errno o) ESPIPE, reader)
        else
          o ← sys_call;  (* read *)
          s ← get;
          '(result, reader) ← deref (trunk_binlog_preread (if so_ret o <? 0 then Some (so_errno o) else None)
                                       (binlog (mem s)) reader);
          mret (if negb (result =? 0) && negb (result =? ENOENT) then result else 0, reader).

Definition skip_record (record_length : Z) (reader : TrunkBinLogReader) : TrunkBinLogReader :=
  {| binlog_buff := binlog_buff reader; fd_pos := fd_pos reader;
     binlog_offset := binlog_offset reader + record_length |}.

(** One record of a reload: an error that ends the function, or the tree. *)
Definition reload_record (record : TrunkBinLogRecord) (tree : offset_tree) : prog trunk_state (Z + offset_tree) :=
  let info := with_status FDFS_TRUNK_STATUS_FREE (trunk record) in
  if op_type record =? TRUNK_OP_TYPE_ADD_SPACE then
    r ← alloc_node env;
    match r with
    | inl result => mret (inl result)
    | inr a =>
        let node := {| n_trunk := info; n_pMblockNode := a; n_next := None |} in
        store_node a node;;
        o ← tick env;
        '(tree, result) ← deref (avl_tree_insert (avl_malloc_ok (o_index o)) tree node);
        mret (if result <? 0 then inl (- result) else inr tree)
    end
  else if op_type record =? TRUNK_OP_TYPE_DEL_SPACE then
    s ← get;
    '(tree, _, man) ← deref (avl_tree_delete tree {| n_trunk := info; n_pMblockNode := 1; n_next := None |}
                              (free_blocks_man s));
    modify (set_free_blocks_man man);;
    mret (inr tree)
  else mret (inr tree).

(** One record when the data file was loaded. *)
Definition restore_record (record : TrunkBinLogRecord) : prog trunk_state Z :=
  let info := with_status FDFS_TRUNK_STATUS_FREE (trunk record) in
  if op_type record =? TRUNK_OP_TYPE_ADD_SPACE then trunk_add_space_by_trunk info
  else if op_type record =? TRUNK_OP_TYPE_DEL_SPACE then
    result ← trunk_delete_space env info false;
    mret (if result =? ENOENT then 0 else result)
  else mret 0.

(** The loop; [inl]: the function returns at once, [inr]: the loop ends with
    a result.  [tree] is only there for a reload. *)
Fixpoint restore_loop (fuel : nat) (trunk_binlog_size : Z) (reader : TrunkBinLogReader)
    (tree : option offset_tree) : prog trunk_server (Z + Z * option offset_tree) :=
  match fuel with
  | O => undefined
  | S fuel =>
      o ← sys_call;
      s ← get;
      '(result, record, record_length, reader) ←
        deref (trunk_binlog_read (if so_ret o <? 0 then Some (so_errno o) else None) (binlog (mem s)) reader);
      if negb (result =? 0) then
        if result =? ENOENT then
          if 0 <? record_length then restore_loop fuel trunk_binlog_size (skip_record record_length reader) tree
          else mret (inr (if trunk_binlog_size <=? binlog_offset reader then 0 else EINVAL, tree))
        else mret (inr (result, tree))
      else
        record ← deref record;
        match tree with
        | Some t =>
            r ← on_mem (reload_record record t);
            match r with
            | inl result => mret (inl result)
            | inr t => restore_loop fuel trunk_binlog_size (skip_record record_length reader) (Some t)
            end
        | None =>
            result ← on_mem (restore_record record);
            if c_true result then mret (inr (result, None))
            else restore_loop fuel trunk_binlog_size (skip_record record_length reader) None
        end
  end.

(** [avl_tree_destroy] gives the nodes back when the loop failed; when it
    did not, they are added to the allocator. *)
Definition reload_end (result : Z) (tree : offset_tree) : prog trunk_state Z :=
  if negb (result =? 0) then
    modify (λ s, set_free_blocks_man (avl_tree_destroy tree (free_blocks_man s)).2 s);; mret result
  else
    s ← get;
    '(result, s) ← deref (walk_opt (retype tree) storage_trunk_add_free_blocks_callback s);
    modify (λ _, s);;
    mret result.

Definition storage_trunk_restore (restore_offset : Z) : prog trunk_server Z :=
  '(trunk_binlog_size, err) ← storage_trunk_get_binlog_size;
  if trunk_binlog_size <? 0 then mret (errno_or err EPERM)
  else if restore_offset =? trunk_binlog_size then mret 0
  else if trunk_binlog_size <? restore_offset then storage_trunk_save
  else
    '(result, reader) ← trunk_reader_init restore_offset;
    if c_true result then mret result
    else
      r ← restore_loop (S (Z.to_nat trunk_binlog_size)) trunk_binlog_size reader
            (if restore_offset =? 0
             then Some (avl_tree_init (Some storage_trunk_free_node) storage_trunk_node_compare_offset)
             else None);
      match r with
      | inl result => mret result
      | inr (result, tree) =>
          sys_call;;  (* unlink the mark file *)
          result ← (match tree with Some t => on_mem (reload_end result t) | None => mret result end);
          if result =? 0 then storage_trunk_save else mret result
      end.

Definition storage_delete_trunk_data_file : prog trunk_server Z :=
  o ← sys_call;
  if so_ret o =? 0 then modify (set_trunk_dat None);; mret 0
  else mret (errno_or (so_errno o) ENOENT).

(** ** Loading *)

(** The columns of a line; the status is not in the file. *)
Definition parse_data_line (pLineStart : list Z) : option FDFSTrunkFullInfo :=
  match splitEx pLineStart CH_SPACE TRUNK_DATA_FIELD_COUNT with
  | [c0; c1; c2; c3; c4; c5] =>
      Some {| status := 0;
              path := {| store_path_index := u8 (atoi c0); sub_path_high := u8 (atoi c1);
                         sub_path_low := u8 (atoi c2) |};
              file := {| tf_id := atoi c3; tf_offset := atoi c4; tf_size := atoi c5 |} |}
  | _ => None
  end.

(** The loop over the lines: [bytes] bytes are in the buffer, [rest] are
    those from [pLineStart] on, [pos] is the position in the file.  [None]
    also when [memcpy] would copy onto itself. *)
Fixpoint load_lines (fuel : nat) (content : list Z) (pos bytes : Z) (rest : list Z)
    : prog trunk_server (Z + list Z) :=
  match fuel with
  | O => undefined
  | S fuel =>
      let line := c_string rest in
      match strchr line CH_LF with
      | None =>
          let len := Z.of_nat (length line) in
          if bytes <? LOAD_BUFFER_SIZE then mret (inr rest)
          else if TRUNK_LINE_MAX_LENGHT <? len then mret (inl EINVAL)
          else if bytes - Z.of_nat (length rest) <? len then undefined
          else
            o ← sys_call;
            if so_ret o <? 0 then mret (inl (errno_or (so_errno o) EIO))
            else
              let data := fd_read content pos (LOAD_BUFFER_SIZE - len) in
              let n := Z.of_nat (length data) in
              if n =? 0 then mret (inl ENOENT)
              else load_lines fuel content (pos + n) (n + len) (line ++ data)
      | Some pLineEnd =>
          let len := (length line - length pLineEnd)%nat in
          match parse_data_line (take len line) with
          | None => mret (inl EINVAL)
          | Some trunkInfo =>
              result ← storage_trunk_do_add_space trunkInfo;
              if c_true result then mret (inl result)
              else load_lines fuel content pos bytes (drop (S len) rest)
          end
      end
  end.

Definition storage_trunk_load : prog trunk_server Z :=
  if g_trunk_init_reload_from_binlog lcfg then
    o ← sys_call;
    s ← get;
    let result := if so_ret o =? 0 then 0 else errno_or (so_errno o) ENOENT in
    if negb (result =? 0) && negb (result =? ENOENT) then mret result
    else
      (if so_ret o =? 0 then modify (set_trunk_dat None) else mret tt);;
      storage_trunk_restore 0
  else
    s ← get;
    o ← sys_call;
    match trunk_dat s with
    | None => storage_trunk_restore 0
    | Some content =>
        if so_ret o <? 0 then
          let result := errno_or (so_errno o) EIO in
          if result =? ENOENT then storage_trunk_restore 0 else mret result
        else
          o ← sys_call;
          if so_ret o <? 0 then mret (errno_or (so_errno o) EIO)
          else
            let buff := fd_read content 0 LOAD_BUFFER_SIZE in
            let bytes := Z.of_nat (length buff) in
            match strchr (c_string buff) CH_LF with
            | None => mret EINVAL
            | Some pLineEnd =>
                let len := (length (c_string buff) - length pLineEnd)%nat in
                let restore_offset := (strtol 10 (take len buff)).1 in
                r ← load_lines (2 * length content + 2) content bytes bytes (drop (S len) buff);
                match r with
                | inl result => mret result
                | inr rest =>
                    if negb (default 0 (head rest) =? 0) then mret EINVAL
                    else storage_trunk_restore restore_offset
                end
            end
    end.

(** ** Starting and stopping *)

Definition storage_trunk_init : prog trunk_server Z :=
  s ← get;
  if negb (g_if_trunker_self cfg) then mret 0
  else if negb (trunk_init_flag (mem s) =? STORAGE_TRUNK_INIT_FLAG_NONE) then mret 0
  else
    o ← sys_call;  (* init_pthread_lock(&trunk_file_lock) *)
    if negb (so_ret o =? 0) then mret (so_ret o)
    else
      o ← sys_call;  (* init_pthread_lock(&trunk_mem_lock) *)
      if negb (so_ret o =? 0) then mret (so_ret o)
      else
        o ← sys_call;
        let '(result, man) := fast_mblock_init sizeof_FDFSTrunkNode 0 (so_ret o) in
        on_mem (modify (λ m, match man with Some man => set_free_blocks_man man m | None => m end));;
        if negb (result =? 0) then mret result
        else
          o ← sys_call;
          let '(result, man) := fast_mblock_init sizeof_FDFSTrunkSlot 0 (so_ret o) in
          on_mem (modify (λ m, match man with Some man => set_tree_nodes_man man m | None => m end));;
          if negb (result =? 0) then mret result
          else
            o ← sys_call;  (* malloc *)
            if so_ret o <? 0 then mret (errno_or (so_errno o) ENOMEM)
            else
              on_mem (modify (λ m, set_tree_info_by_id trunk_free_block_checker_init
                (set_tree_info_by_sizes
                   (replicate (length (paths (g_fdfs_store_paths (g_store cfg))))
                      (avl_tree_init None storage_trunk_node_compare_size)) m)));;
              result ← storage_trunk_load;
              if negb (result =? 0) then mret result
              else on_mem (modify (set_trunk_init_flag STORAGE_TRUNK_INIT_FLAG_DONE));; mret 0.

(** The memory of the pools is freed; [bNeedSleep] only sleeps. *)
Definition storage_trunk_destroy_ex : prog trunk_server Z :=
  s ← get;
  if negb (trunk_init_flag (mem s) =? STORAGE_TRUNK_INIT_FLAG_DONE) then mret 0
  else
    on_mem (modify (set_trunk_init_flag STORAGE_TRUNK_INIT_FLAG_DESTROYING));;
    result ← storage_trunk_save;
    on_mem (modify (λ m,
      set_trunk_init_flag STORAGE_TRUNK_INIT_FLAG_NONE
        (set_nodes ∅
          (set_tree_nodes_man (fast_mblock_destroy (tree_nodes_man m))
            (set_free_blocks_man (fast_mblock_destroy (free_blocks_man m))
              (set_tree_info_by_id (trunk_free_block_checker_destroy (tree_info_by_id m))
                (set_tree_info_by_sizes [] m)))))));;
    mret result.
End saving.
