(* ===== verification/TrunkDataFile.v ===== *)
(** * storage/trunk_mgr/trunk_mem.c: the data file

    What [storage_trunk_save] (TrunkMemSave.v) writes: the size of the
    binlog, then one line per block, whatever the buffer was flushed in
    between. *)

From stdpp Require Import strings.
From S2P Require Import Prelude LinkedList RankList AvlTree CLib SharedFunc Base64 TrunkShared FastMblock.
From S2P Require Import TrunkFile StorePath FreeBlockChecker TrunkBinlog TrunkMem TrunkMemInv TrunkMemOps.
From S2P Require Import TrunkMemSpec TrunkMemSave.
#[local] Open Scope Z_scope.

(** ** Lines *)

(** The text of a line before its newline. *)
Definition data_text (i : FDFSTrunkFullInfo) : list Z :=
  sprintf_d (store_path_index (path i)) ++ CH_SPACE
  :: sprintf_d (sub_path_high (path i)) ++ CH_SPACE
  :: sprintf_d (sub_path_low (path i)) ++ CH_SPACE
  :: sprintf_d (tf_id (file i)) ++ CH_SPACE
  :: sprintf_d (tf_offset (file i)) ++ CH_SPACE
  :: sprintf_d (tf_size (file i)).

Lemma data_line_text i : trunk_data_line i = data_text i ++ [CH_LF].
Proof.
  unfold trunk_data_line, data_text. repeat (rewrite <- ?app_assoc, <- ?app_comm_cons; cbn [app]). done.
Qed.

Lemma data_text_no_lf i : CH_LF ∉ data_text i.
Proof.
  unfold data_text. repeat (rewrite not_elem_of_app || rewrite not_elem_of_cons).
  split_and!; try apply sprintf_d_no_lf; done.
Qed.

Lemma data_text_no_nul i : 0 ∉ data_text i.
Proof.
  unfold data_text. repeat (rewrite not_elem_of_app || rewrite not_elem_of_cons).
  split_and!; try apply sprintf_d_no_nul; done.
Qed.

Lemma data_line_length i : info_ok i → (0 < length (trunk_data_line i) ≤ 48)%nat.
Proof.
  intros ((H1%byte_length & H2%byte_length & H3%byte_length) & H4 & H5 & H6 & H7). unfold end_of in H7.
  assert (is_int32 (tf_offset (file i))) by (unfold is_int32, INT_MAX in *; lia).
  assert (is_int32 (tf_size (file i))) by (unfold is_int32, INT_MAX in *; lia).
  rewrite data_line_text. unfold data_text. repeat (rewrite length_app; cbn [length app]).
  pose proof (sprintf_d_length (tf_id (file i)) ltac:(unfold is_int32 in *; lia)).
  pose proof (sprintf_d_length (tf_offset (file i)) ltac:(done)).
  pose proof (sprintf_d_length (tf_size (file i)) ltac:(done)). lia.
Qed.

Lemma parse_data_text i : info_ok i → parse_data_line (data_text i) = Some (with_status 0 i).
Proof.
  intros ((H1 & H2 & H3) & H4 & H5 & H6 & H7). unfold end_of in H7.
  assert (is_int32 (tf_id (file i))) by (unfold is_int32 in *; lia).
  assert (is_int32 (tf_offset (file i))) by (unfold is_int32, INT_MAX in *; lia).
  assert (is_int32 (tf_size (file i))) by (unfold is_int32, INT_MAX in *; lia).
  pose proof (is_byte_int32 _ H1). pose proof (is_byte_int32 _ H2). pose proof (is_byte_int32 _ H3).
  unfold parse_data_line, data_text, splitEx. change (Z.to_nat TRUNK_DATA_FIELD_COUNT) with 6%nat.
  change (TRUNK_DATA_FIELD_COUNT <=? 0) with false. cbv iota.
  do 5 (rewrite splitEx_loop_cons by apply sprintf_d_no_space). cbn [splitEx_loop Nat.eqb].
  rewrite <- (app_nil_r (sprintf_d (store_path_index (path i)))).
  rewrite <- (app_nil_r (sprintf_d (sub_path_high (path i)))).
  rewrite <- (app_nil_r (sprintf_d (sub_path_low (path i)))).
  rewrite <- (app_nil_r (sprintf_d (tf_id (file i)))).
  rewrite <- (app_nil_r (sprintf_d (tf_offset (file i)))).
  rewrite <- (app_nil_r (sprintf_d (tf_size (file i)))).
  rewrite !atoi_sprintf_d by done.
  unfold u8. unfold is_byte in *. rewrite !Z.mod_small by (change (2 ^ 8) with 256; lia).
  by destruct i as [? [] []].
Qed.

Lemma size_length n : 0 ≤ n ≤ LONG_MAX → (0 < length (sprintf_d n) ≤ 19)%nat.
Proof.
  unfold LONG_MAX. intros Hn. split.
  - unfold sprintf_d, digits. rewrite (proj2 (Z.ltb_ge n 0)) by lia. unfold num_fuel. cbn [digits_fuel].
    destruct (n <? 10); [cbn; lia|]. rewrite digits_fuel_app, length_app. cbn. lia.
  - unfold sprintf_d, digits. rewrite (proj2 (Z.ltb_ge n 0)) by lia.
    pose proof (digits_fuel_length (num_fuel n) n [] 19 ltac:(lia) ltac:(lia)). cbn in *. lia.
Qed.

Definition data_lines (l : list FDFSTrunkFullInfo) : list Z := concat (trunk_data_line <$> l).

Lemma data_lines_app l1 l2 : data_lines (l1 ++ l2) = data_lines l1 ++ data_lines l2.
Proof. unfold data_lines. by rewrite fmap_app, concat_app. Qed.

(** The whole file. *)
Definition data_file (binlog_size : Z) (l : list FDFSTrunkFullInfo) : list Z :=
  sprintf_d binlog_size ++ CH_LF :: data_lines l.

(** ** Saving *)

(** The operating system does what it is asked to. *)
Record sys_ok (o : sys_outcome) : Prop := {
  sk_ret : so_ret o = 0;
  sk_write : WALK_BUFFER_SIZE ≤ io_written (so_io o);
  sk_stale : Z.of_nat (length (so_stale o)) = TRUNK_BINLOG_BUFFER_SIZE;
}.

Section saving.
Context (cfg : trunk_config) (env : nat → outcome) (sys : nat → sys_outcome).
Hypothesis Hsys : ∀ n, sys_ok (sys n).

Lemma sys_call_bind {B} (f : _ → prog trunk_server B) s :
  (sys_call sys ≫= f) s = f (sys (calls s)) (set_calls (S (calls s)) s).
Proof. reflexivity. Qed.

Lemma on_mem_bind {A B} (p : prog trunk_state A) (f : A → prog trunk_server B) s x m :
  p (mem s) = Some (x, m) → (on_mem p ≫= f) s = f x (set_mem m s).
Proof. intros E. unfold mbind, prog_bind, on_mem. by rewrite E. Qed.

(** The arguments have room for a line, and hold [text] in all. *)
Definition args_hold (a : walk_callback_args) (text : list Z) : Prop :=
  wa_file a ++ wa_buff a = text ∧ Z.of_nat (length (wa_buff a)) ≤ WALK_BUFFER_SIZE - 128.

Lemma write_args_ok a :
  Z.of_nat (length (wa_buff a)) ≤ WALK_BUFFER_SIZE →
  write_args sys a = (0, {| wa_buff := []; wa_file := wa_file a ++ wa_buff a; wa_calls := S (wa_calls a) |}).
Proof using Hsys.
  intros Hl. unfold write_args, fd_write. pose proof (sk_write _ (Hsys (wa_calls a))) as Hw.
  rewrite (proj2 (Z.ltb_ge _ 0)) by (unfold WALK_BUFFER_SIZE in *; lia).
  rewrite Z.min_r by lia. rewrite Z.eqb_refl. cbn [negb]. by rewrite Nat2Z.id, firstn_all.
Qed.

Lemma save_chain_ok M ns fuel cur c a text :
  nodes_rep ns M → (∀ b i, M !! b = Some i → block_ok i) → llist (next_in ns) cur c →
  (∀ b, b ∈ c → is_Some (M !! b)) → (length c ≤ fuel)%nat → args_hold a text →
  ∃ a', save_chain sys fuel ns cur a = Some (0, a') ∧ args_hold a' (text ++ data_lines (omap (M !!.) c)).
Proof using Hsys.
  intros Hn Hb. revert fuel cur a text. induction c as [|b c IH]; intros fuel cur a text Hl Hc Hf [Ht Hroom].
  - cbn in Hl. subst cur. exists a. split; [by destruct fuel|]. cbn. by rewrite app_nil_r.
  - destruct Hl as (-> & p & Hnext & Hl). destruct fuel as [|fuel]; [cbn in Hf; lia|].
    destruct (Hc b) as [info Hi]; [by left|]. destruct (Hn b info Hi) as (n & Hnb & Hni & _).
    cbn [save_chain]. rewrite Hnb. cbn [mbind option_bind]. rewrite Hni.
    pose proof (data_line_length info (bo_info _ (Hb b info Hi))) as Hlen.
    cbn [wa_buff wa_file wa_calls]. rewrite (proj2 (Z.ltb_ge _ _)) by (rewrite length_app; lia).
    unfold next_in in Hnext. rewrite Hnb in Hnext. injection Hnext as Hnext. rewrite Hnext.
    assert (data_lines (omap (M !!.) (b :: c)) = trunk_data_line info ++ data_lines (omap (M !!.) c)) as ->.
    { cbn [omap list_omap]. by rewrite Hi. }
    rewrite (app_assoc text).
    assert (∀ x, x ∈ c → is_Some (M !! x)) as Hc' by (intros x Hx; apply Hc; by right). cbn in Hf.
    set (a1 := {| wa_buff := wa_buff a ++ trunk_data_line info; wa_file := wa_file a; wa_calls := wa_calls a |}).
    destruct (Z.ltb_spec (WALK_BUFFER_SIZE - 128) (Z.of_nat (length (wa_buff a ++ trunk_data_line info)))).
    + rewrite (write_args_ok a1) by (cbn; rewrite length_app; lia). change (c_true 0) with false. cbv iota.
      apply IH; [done|done|lia|]. split; [|cbn; unfold WALK_BUFFER_SIZE; lia].
      cbn. by rewrite app_nil_r, app_assoc, Ht.
    + change (c_true 0) with false. cbv iota. apply IH; [done|done|lia|]. split; [|done].
      cbn. by rewrite app_assoc, Ht.
Qed.

(** [avl_tree_walk] with a callback that may fail, over the list of data. *)
Fixpoint walk_list_opt {D W} (op : D → W → option (Z * W)) (l : list D) (w : W) : option (Z * W) :=
  match l with
  | [] => Some (0, w)
  | d :: l => '(result, w) ← op d w; if c_true result then Some (result, w) else walk_list_opt op l w
  end.

Lemma walk_opt_list {D W} (t : AVLTreeInfo D unit) (op : D → W → option (Z * W)) w :
  walk_opt t op w = walk_list_opt op (elements (root t)) w.
Proof.
  unfold walk_opt. rewrite avl_tree_walk_ok. cbn [retype root]. generalize (elements (root t)) as l. intros l.
  revert w. induction l as [|d l IH]; intros w; [done|]. cbn [walk_list walk_list_opt].
  destruct (op d w) as [[r w']|]; cbn [mbind option_bind]; [|done].
  destruct (c_true r) eqn:Er; [done|]. apply IH.
Qed.

(** One tree: the chains of its slots. *)
Lemma save_slots_ok ns M i l a text :
  nodes_rep ns M → (∀ b j, M !! b = Some j → block_ok j) →
  (∀ e, e ∈ l → slot_rep ns M i (slot_size e) (Some e)) → NoDup (slot_size <$> l) → args_hold a text →
  ∃ a' cs, walk_list_opt (tree_walk_callback sys ns) l a = Some (0, a') ∧
    args_hold a' (text ++ data_lines (omap (M !!.) cs)) ∧ NoDup cs ∧
    ∀ b, b ∈ cs ↔ ∃ e, e ∈ l ∧ in_slot M i (slot_size e) b.
Proof using Hsys.
  intros Hn Hb. revert a text. induction l as [|e l IH]; intros a text Hs Hd Ha.
  - exists a, []. split; [done|]. split; [by rewrite app_nil_r|]. split; [constructor|].
    intros b. split; [by intros ?%not_elem_of_nil|]. by intros (? & ?%not_elem_of_nil & _).
  - cbn [fmap list_fmap] in Hd. apply NoDup_cons in Hd as [Hne Hd].
    destruct (Hs e) as (c & Hl & Hdc & _ & Hc); [by left|]. cbn in Hl.
    destruct (save_chain_ok M ns (size ns) (slot_head e) c a text) as (a1 & E1 & Ha1);
      [done|done|done| | |done|].
    { intros b (info & Hi & _)%Hc. by exists info. }
    { apply (chain_length ns M i (slot_size e) e); [done|by split]. }
    destruct (IH a1 (text ++ data_lines (omap (M !!.) c))) as (a' & cs & E & Ha' & Hdcs & Hcs);
      [intros; apply Hs; by right|done|done|].
    exists a', (c ++ cs). cbn [walk_list_opt].
    change (tree_walk_callback sys ns e a) with (save_chain sys (size ns) ns (slot_head e) a). rewrite E1.
    split; [exact E|]. split; [by rewrite omap_app, data_lines_app, app_assoc|]. split.
    + apply NoDup_app. split; [done|]. split; [|done]. intros b Hb1%Hc (e' & He' & Hb2)%Hcs.
      destruct (in_slot_fun _ _ _ _ _ _ Hb1 Hb2) as [_ E']. apply Hne. rewrite E'. by apply list_elem_of_fmap_2.
    + intros b. rewrite elem_of_app, Hc, Hcs. split.
      * intros [H|(e' & He' & H)]; [exists e; split; [by left|done]|exists e'; split; [by right|done]].
      * intros (e' & [-> |He']%elem_of_cons & H); [by left|right; by exists e'].
Qed.

(** All the trees, from path [i] on. *)
Lemma save_trees_ok ns M trees i a text :
  nodes_rep ns M → (∀ b j, M !! b = Some j → block_ok j) → Forall size_tree_ok trees →
  (∀ k sz, slot_rep ns M (i + k) sz (slot_at trees k sz)) → args_hold a text →
  ∃ a' cs, save_trees sys ns trees a = Some (0, a') ∧
    args_hold a' (text ++ data_lines (omap (M !!.) cs)) ∧ NoDup cs ∧
    ∀ b, b ∈ cs ↔ ∃ info, M !! b = Some info ∧ (i ≤ path_of info < i + length trees)%nat.
Proof using Hsys.
  intros Hn Hb. revert i a text. induction trees as [|t trees IH]; intros i a text Ht Hs Ha.
  - exists a, []. split; [done|]. split; [by rewrite app_nil_r|]. split; [constructor|].
    intros b. split; [by intros ?%not_elem_of_nil|]. intros (? & _ & ?). cbn in *. lia.
  - apply Forall_cons in Ht as [Ht Hts]. pose proof Ht as [_ [_ _ Hsort]].
    assert (∀ sz, slot_rep ns M i sz (rfind slot_size sz (elements (root t)))) as Hs0.
    { intros sz. specialize (Hs 0%nat sz). by rewrite Nat.add_0_r in Hs. }
    destruct (save_slots_ok ns M i (elements (root t)) a text) as (a1 & c1 & E1 & Ha1 & Hd1 & Hc1);
      [done|done| |by apply rsorted_NoDup|done|].
    { intros e He. rewrite <- (rfind_elem slot_size _ e Hsort He). apply Hs0. }
    destruct (IH (S i) a1 (text ++ data_lines (omap (M !!.) c1))) as (a' & c2 & E2 & Ha2 & Hd2 & Hc2);
      [done| |done|].
    { intros k sz. specialize (Hs (S k) sz). by rewrite Nat.add_succ_r in Hs. }
    assert (∀ b, b ∈ c1 ↔ ∃ info, M !! b = Some info ∧ path_of info = i) as Hp.
    { intros b. rewrite Hc1. split; [intros (e & _ & info & Hi & Hpi & _); by exists info|].
      intros (info & Hi & Hpi). destruct (Hs0 (tf_size (file info))) as (c & Hl & _ & _ & Hc).
      assert (b ∈ c) as Hbc by (apply Hc; by exists info).
      destruct (rfind slot_size (tf_size (file info)) (elements (root t))) as [e|] eqn:E.
      - apply rfind_Some in E as [He Hse]. exists e. split; [done|]. exists info. by rewrite Hse.
      - cbn in Hl. apply llist_null in Hl as ->. by apply not_elem_of_nil in Hbc. }
    exists a', (c1 ++ c2). cbn [save_trees]. rewrite walk_opt_list, E1. cbn [mbind option_bind].
    change (c_true 0) with false. cbv iota. split; [exact E2|].
    split; [by rewrite omap_app, data_lines_app, app_assoc|]. split.
    + apply NoDup_app. split; [done|]. split; [|done]. intros b (x & Hx & Hpx)%Hp (y & Hy & Hpy)%Hc2.
      simplify_eq. lia.
    + intros b. rewrite elem_of_app, Hp, Hc2. cbn [length]. split.
      * intros [(x & Hx & Hpx)|(x & Hx & Hpx)]; exists x; (split; [done|lia]).
      * intros (x & Hx & Hpx). destruct (decide (path_of x = i)) as [He|He];
          [left; by exists x|right; exists x; split; [done|lia]].
Qed.

Lemma omap_contents (M : blocks_map) (cs : list positive) :
  NoDup cs → (∀ b, b ∈ cs ↔ is_Some (M !! b)) → omap (M !!.) cs ≡ₚ contents M.
Proof.
  intros Hd Hc. assert (cs ≡ₚ (map_to_list M).*1) as ->.
  { apply NoDup_Permutation; [done|apply NoDup_fst_map_to_list|]. intros b. rewrite Hc, list_elem_of_fmap. split.
    - intros [x Hx]. exists (b, x). split; [done|]. by apply elem_of_map_to_list.
    - intros ([b' x] & -> & Hx%elem_of_map_to_list). by exists x. }
  unfold contents. assert (∀ l, (∀ p, p ∈ l → M !! p.1 = Some p.2) → omap (M !!.) l.*1 = l.*2) as H.
  { induction l as [|[b x] l IH]; intros Hl; [done|]. cbn.
    pose proof (Hl (b, x) ltac:(by left)) as E. cbn in E. rewrite E. f_equal. apply IH.
    intros p Hp. apply Hl. by right. }
  rewrite H; [done|]. intros [b x] Hx. by apply elem_of_map_to_list in Hx.
Qed.

(** [storage_trunk_save]: the data file holds every block once. *)
Lemma storage_trunk_save_ok s M U :
  core_ok cfg (mem s) M U → Z.of_nat (length (binlog_file (binlog (mem s)))) ≤ LONG_MAX →
  ∃ k l, storage_trunk_save sys s
         = Some (0, set_calls k (set_temp_dat None (set_trunk_dat
             (Some (data_file (Z.of_nat (length (binlog_file (binlog (mem s))))) l)) s))) ∧
    l ≡ₚ contents M.
Proof using Hsys.
  intros Hc Hmax. pose proof (co_chains _ _ _ _ Hc) as [Hn Hb Ht Hs].
  unfold storage_trunk_save, storage_trunk_get_binlog_size. rewrite bind_assoc, sys_call_bind. run.
  rewrite (sk_ret _ (Hsys _)). change (0 =? 0) with true. cbv iota.
  rewrite (proj2 (Z.ltb_ge _ 0)) by lia. rewrite sys_call_bind, (sk_ret _ (Hsys _)). change (0 <? 0) with false.
  cbv iota. run. cbn [mem set_calls calls].
  set (sz := Z.of_nat (length (binlog_file (binlog (mem s))))).
  match goal with |- context [save_trees sys _ _ ?x] => set (a0 := x) end.
  destruct (save_trees_ok (nodes (mem s)) M (tree_info_by_sizes (mem s)) 0 a0 (sprintf_d sz ++ [CH_LF]))
    as (a & cs & E & [Ha Hroom] & Hd & Hcs); [done..| |].
  { split; [done|]. cbn. pose proof (size_length sz ltac:(lia)). rewrite length_app. cbn.
    unfold WALK_BUFFER_SIZE. lia. }
  rewrite (deref_bind _ _ _ _ E). cbv beta iota. change (negb (0 =? 0)) with false. cbn [orb].
  assert (∃ k', (if (length (wa_buff a) =? 0)%nat then (0, a) else write_args sys a)
    = (0, {| wa_buff := []; wa_file := wa_file a ++ wa_buff a; wa_calls := k' |})) as [k' ->].
  { destruct (Nat.eqb_spec (length (wa_buff a)) 0) as [E0|].
    - apply length_zero_iff_nil in E0. exists (wa_calls a). destruct a as [b f k']. cbn in *. subst b.
      by rewrite app_nil_r.
    - eexists. apply write_args_ok. unfold WALK_BUFFER_SIZE in *. lia. }
  cbv beta iota. run. change (0 =? 0) with true. cbv iota. rewrite bind_assoc, sys_call_bind, (sk_ret _ (Hsys _)). run.
  change (0 =? 0) with true. cbn [negb]. rewrite Z.eqb_refl. cbn [negb]. rewrite sys_call_bind, (sk_ret _ (Hsys _)).
  rewrite ?Z.eqb_refl. cbn [negb]. run.
  cbn [wa_calls wa_file calls set_calls set_temp_dat temp_dat set_trunk_dat mem trunk_dat].
  eexists _, (omap (M !!.) cs). split.
  - unfold mret, prog_ret, set_calls, set_temp_dat, set_trunk_dat. cbn. repeat f_equal.
    unfold data_file. rewrite Ha. unfold data_lines. by rewrite <- app_assoc.
  - apply omap_contents; [done|]. intros b. rewrite Hcs. split; [intros (x & Hx & _); by exists x|].
    intros [x Hx]. exists x. split; [done|]. cbn. split; [lia|].
    rewrite (co_paths _ _ _ _ Hc). apply (file_exists_path cfg (mem s)). by apply (co_files _ _ _ _ Hc b).
Qed.
End saving.
