(* ===== verification/TrunkMemLoad.v ===== *)
(** * storage/trunk_mgr/trunk_mem.c: starting again

    [storage_trunk_init] after [storage_trunk_destroy] (TrunkMemSave.v):
    what comes back from the data file. *)

From stdpp Require Import strings.
From S2P Require Import Prelude LinkedList RankList AvlTree CLib SharedFunc Base64 TrunkShared FastMblock.
From S2P Require Import TrunkFile StorePath FreeBlockChecker TrunkBinlog BinlogReader TrunkMem TrunkMemInv.
From S2P Require Import TrunkMemOps TrunkMemCreate TrunkMemAlloc TrunkMemSpec TrunkMemSave TrunkDataFile.
#[local] Open Scope Z_scope.

(** ** Lists of blocks that do not overlap *)

Fixpoint apart (l : list FDFSTrunkFullInfo) : Prop :=
  match l with
  | [] => True
  | x :: l => Forall (λ y, ¬ overlap x y) l ∧ apart l
  end.

#[export] Instance apart_perm : Proper ((≡ₚ) ==> iff) apart.
Proof.
  intros l1 l2 H. induction H as [|x l1 l2 H IH|x y l|l1 l2 l3 _ IH1 _ IH2]; cbn; [done| | |by rewrite IH1].
  - rewrite IH. split; intros [Hf ?]; (split; [|done]); [by rewrite <- H|by rewrite H].
  - rewrite !Forall_cons. pose proof (overlap_sym x y). pose proof (overlap_sym y x). tauto.
Qed.

Lemma contents_apart (M : blocks_map) : disjoint_blocks M → apart (contents M).
Proof.
  induction M as [|a i M Ha IH] using map_ind; intros Hd.
  - unfold contents. by rewrite map_to_list_empty.
  - rewrite contents_insert by done. cbn. split.
    + apply Forall_forall. intros j [b Hb]%elem_of_contents. assert (a ≠ b) by congruence.
      apply (Hd a b); [apply lookup_insert_eq|by rewrite lookup_insert_ne|done].
    + apply IH. intros b c x y Hb Hc Hne. assert (a ≠ b ∧ a ≠ c) as [? ?] by (split; congruence).
      apply (Hd b c); [by rewrite lookup_insert_ne..|done].
Qed.

Lemma apart_app l1 l2 : apart (l1 ++ l2) → apart l1 ∧ apart l2 ∧ ∀ x y, x ∈ l1 → y ∈ l2 → ¬ overlap x y.
Proof.
  induction l1 as [|z l1 IH]; cbn; [intros H; split_and!; [done|done|by intros ? ? ?%not_elem_of_nil]|].
  intros [[Hz1 Hz2]%Forall_app (H1 & H2 & H3)%IH]. split_and!; [done|done|done|].
  intros x y [-> |Hx]%elem_of_cons Hy; [by eapply Forall_forall in Hz2|by apply H3].
Qed.

Section loading.
Context (cfg : trunk_config) (env : nat → outcome) (sys : nat → sys_outcome).
Hypothesis Henv : ∀ n, outcome_ok (env n).
Hypothesis Hsys : ∀ n, sys_ok (sys n).
Hypothesis Hself : g_if_trunker_self cfg = true.

(** ** What was loaded *)

(** The sum of the sizes on top of what the counter held. *)
Definition total_from (t0 t : Z) (M : blocks_map) : Prop := t = s64 (t0 + free_space M).

(** From [s0], with an empty allocator and the counter at [t0], the blocks
    [B] were added. *)
Definition loaded (s0 : trunk_state) (t0 : Z) (s : trunk_state) (B : list FDFSTrunkFullInfo) : Prop :=
  same_env s0 s ∧ binlog s = binlog s0 ∧
  ∃ M U, core_ok cfg s M U ∧ total_from t0 (g_trunk_total_free_space s) M ∧ B ≡ₚ contents M.

(** What is kept of a block that was saved: too small ones are dropped. *)
Definition recycled (i : FDFSTrunkFullInfo) : list FDFSTrunkFullInfo :=
  if g_slot_min_size cfg <=? tf_size (file i) then [free_info i] else [].

(** A block that can be added. *)
Definition addable (s : trunk_state) (i : FDFSTrunkFullInfo) : Prop :=
  info_ok i ∧ end_of i < INT_MAX ∧ 0 ≤ tf_id (file i) ∧ file_exists cfg s i.

Lemma total_from_add t0 t M a i :
  total_from t0 t M → M !! a = None → total_from t0 (s64 (t + tf_size (file i))) (<[a := i]> M).
Proof.
  unfold total_from. intros -> Ha. rewrite free_space_insert by done. rewrite s64_add_idemp. f_equal. lia.
Qed.

Lemma log_added_load s1 i :
  log_added env false i s1
  = Some (0, set_ticks (ticks s1) (set_binlog (binlog s1)
      (set_g_trunk_total_free_space (s64 (g_trunk_total_free_space s1 + tf_size (file i))) s1))).
Proof. unfold log_added. by rewrite add_total_bind. Qed.

Lemma add_space_by_trunk_ok s0 t0 s B i :
  loaded s0 t0 s B → addable s i → (∀ j, j ∈ B → ¬ overlap i j) →
  ∃ s', trunk_add_space_by_trunk cfg env i s = Some (0, s') ∧ loaded s0 t0 s' (recycled i ++ B).
Proof using Henv Hself.
  intros (He & Hbl & M & U & Hc & Ht & HB) (Hi & Hend & Hid & Hf) Hno.
  assert (no_overlap M i) as Hno' by (apply no_overlap_contents; intros j; rewrite <- HB; apply Hno).
  unfold trunk_add_space_by_trunk, recycled.
  destruct (trunk_free_space_gen cfg env Henv false
    (λ a t log, total_from t0 t (<[a := free_info i]> M) ∧ log = binlog s) s M U i)
    as [[Hs E]|[(_ & Ho & _)|(Hs & _ & s' & U' & a & E & Ha & Hc' & He' & Ht' & Hl')]];
    [done|done|by right|done|done|done|done| | |done|].
  - intros a s1 Ha _ Et Eb. eexists _, _, _. split; [apply log_added_load|].
    split; [rewrite Et; by apply (total_from_add t0 _ M a (free_info i))|done].
  - rewrite (bind_run _ _ _ _ _ E). exists s. split; [done|].
    rewrite (proj2 (Z.leb_gt _ _)) by lia. split; [done|]. split; [done|]. by exists M, U.
  - rewrite (bind_run _ _ _ _ _ E). exists s'. split; [done|]. rewrite (proj2 (Z.leb_le _ _)) by lia.
    split; [by eapply same_env_trans|]. split; [congruence|]. eexists _, U'. split; [exact Hc'|].
    split; [done|]. cbn. by rewrite contents_insert, HB.
Qed.

Lemma recycled_apart i l : apart (i :: l) → ∀ j x, j ∈ recycled i → x ∈ l → ¬ overlap x j.
Proof.
  cbn. rewrite Forall_forall. intros [H _] j x Hj Hx Ho. apply (H x Hx). apply overlap_sym. revert Hj Ho.
  unfold recycled. destruct (_ <=? _); [|by intros ?%not_elem_of_nil].
  rewrite list_elem_of_singleton. by intros ->.
Qed.
(** ** The lines of the data file *)

(** The room left in the buffer after a line of [k] bytes: a line that does
    not fit starts a new buffer. *)
Definition next_room (room k : Z) : Z := if k <=? room then room - k else LOAD_BUFFER_SIZE - k.
Definition last_room (room : Z) (l : list FDFSTrunkFullInfo) : Z :=
  fold_left (λ r i, next_room r (Z.of_nat (length (trunk_data_line i)))) l room.

Context (lcfg : load_config).
Hypothesis Hocc : g_trunk_init_check_occupying lcfg = false.

Lemma data_lines_cons i l : data_lines (i :: l) = data_text i ++ CH_LF :: data_lines l.
Proof. unfold data_lines. cbn. by rewrite data_line_text, <- app_assoc. Qed.

Lemma data_lines_no_nul l : 0 ∉ data_lines l.
Proof.
  induction l as [|i l IH]; [apply not_elem_of_nil|]. rewrite data_lines_cons, not_elem_of_app, not_elem_of_cons.
  split_and!; [apply data_text_no_nul|done|done].
Qed.

Lemma prefix_no_nul (rest u : list Z) l : rest ++ u = data_lines l → 0 ∉ rest.
Proof. intros E Hin. apply (data_lines_no_nul l). rewrite <- E. apply elem_of_app. by left. Qed.

(** The buffer holds a whole line. *)
Lemma load_line fuel content pos bytes rest i s0 t0 s B :
  loaded s0 t0 (mem s) B → addable s0 i → (∀ j, j ∈ B → ¬ overlap i j) → 0 ∉ data_text i ++ CH_LF :: rest →
  ∃ m, load_lines cfg lcfg env sys (S fuel) content pos bytes (data_text i ++ CH_LF :: rest) s
       = load_lines cfg lcfg env sys fuel content pos bytes rest (set_mem m s) ∧
    loaded s0 t0 m (recycled i ++ B).
Proof using Henv Hself Hocc.
  intros Hl (Hi & He & Hid & Hf) Hno Hnul. cbn [load_lines]. rewrite c_string_no_nul by done.
  rewrite (strchr_lf_split _ _ (data_text_no_lf i)).
  replace (length (data_text i ++ CH_LF :: rest) - length (CH_LF :: rest))%nat with (length (data_text i))
    by (rewrite length_app; lia).
  rewrite take_app_length, parse_data_text by done.
  destruct (add_space_by_trunk_ok s0 t0 (mem s) B (with_status 0 i)) as (m & E & Hl'); [done| |done|].
  { split; [exact Hi|]. split; [exact He|]. split; [exact Hid|]. apply (file_exists_env cfg s0); [apply Hl|].
    by apply (file_exists_place cfg s0 i). }
  exists m. split; [|exact Hl'].
  rewrite (bind_run _ _ s 0 (set_mem m s)).
  - change (c_true 0) with false. cbv iota. f_equal.
    replace (S (length (data_text i))) with (length (data_text i ++ [CH_LF])) by (rewrite length_app; cbn; lia).
    replace (data_text i ++ CH_LF :: rest) with ((data_text i ++ [CH_LF]) ++ rest) by (by rewrite <- app_assoc).
    apply drop_app_length.
  - unfold storage_trunk_do_add_space. rewrite Hocc. run. unfold on_mem. by rewrite E.
Qed.

(** The buffer is full and holds no newline. *)
Lemma load_refill fuel content pos rest s :
  CH_LF ∉ rest → 0 ∉ rest → (length rest ≤ 48)%nat →
  load_lines cfg lcfg env sys (S fuel) content pos LOAD_BUFFER_SIZE rest s
  = let data := fd_read content pos (LOAD_BUFFER_SIZE - Z.of_nat (length rest)) in
    if (length data =? 0)%nat then Some (inl ENOENT, set_calls (S (calls s)) s)
    else load_lines cfg lcfg env sys fuel content (pos + Z.of_nat (length data))
           (Z.of_nat (length data) + Z.of_nat (length rest)) (rest ++ data) (set_calls (S (calls s)) s).
Proof using Hsys.
  intros Hlf Hnul Hlen. cbn [load_lines]. rewrite c_string_no_nul by done.
  rewrite (proj2 (strchr_None rest CH_LF)) by done. rewrite Z.ltb_irrefl.
  unfold LOAD_BUFFER_SIZE, TRUNK_LINE_MAX_LENGHT.
  rewrite (proj2 (Z.ltb_ge 64 _)), (proj2 (Z.ltb_ge (4 * 1024 - _) _)) by lia.
  rewrite sys_call_bind, (sk_ret _ (Hsys _)). change (0 <? 0) with false. cbv iota zeta.
  destruct (Nat.eqb_spec (length (fd_read content pos (4 * 1024 - Z.of_nat (length rest)))) 0) as [E|E].
  - by rewrite E.
  - by rewrite (proj2 (Z.eqb_neq _ 0)) by lia.
Qed.
(** The loop is at the beginning of the lines of [l]: [rest] is in the
    buffer, the rest of them in the file. *)
Record at_lines (content : list Z) (pos bytes : Z) (rest : list Z) (l : list FDFSTrunkFullInfo) : Prop := {
  al_pos : 0 ≤ pos;
  al_bytes : Z.of_nat (length rest) ≤ bytes ≤ LOAD_BUFFER_SIZE;
  al_lines : rest ++ drop (Z.to_nat pos) content = data_lines l;
  al_eof : bytes < LOAD_BUFFER_SIZE → drop (Z.to_nat pos) content = [];
}.

Definition room_of (bytes : Z) (rest : list Z) : Z := LOAD_BUFFER_SIZE - (bytes - Z.of_nat (length rest)).

Definition load_result (room : Z) : Z + list Z := if room =? 0 then inl ENOENT else inr [].

(** A whole line is in the buffer. *)
Lemma at_lines_next content pos bytes rest i l :
  at_lines content pos bytes rest (i :: l) → (length (trunk_data_line i) ≤ length rest)%nat →
  ∃ rest', rest = data_text i ++ CH_LF :: rest' ∧ at_lines content pos bytes rest' l ∧
    room_of bytes rest' = next_room (room_of bytes rest) (Z.of_nat (length (trunk_data_line i))).
Proof.
  intros [Hp Hb Hl He] Hlen. rewrite data_lines_cons in Hl.
  rewrite data_line_text, length_app in Hlen. cbn in Hlen.
  assert (rest = data_text i ++ CH_LF :: drop (S (length (data_text i))) rest) as E.
  { rewrite <- (take_drop (S (length (data_text i))) rest) at 1.
    rewrite <- (take_app_le rest (drop (Z.to_nat pos) content)), Hl by lia.
    replace (data_text i ++ CH_LF :: data_lines l) with ((data_text i ++ [CH_LF]) ++ data_lines l)
      by (by rewrite <- app_assoc).
    rewrite take_app_le by (rewrite length_app; cbn; lia). rewrite take_ge by (rewrite length_app; cbn; lia).
    by rewrite <- app_assoc. }
  exists (drop (S (length (data_text i))) rest). split; [done|].
  pose proof (length_drop rest (S (length (data_text i)))) as Hd. split.
  - split; [done|lia| |done]. rewrite E, <- app_assoc in Hl. cbn in Hl. apply app_inv_head in Hl. by injection Hl.
  - unfold next_room, room_of. rewrite data_line_text, length_app. cbn.
    rewrite (proj2 (Z.leb_le _ _)) by lia. lia.
Qed.

(** Only a part of the line is in the buffer, which is full: the rest of
    the line is read. *)
Lemma at_lines_refill content pos bytes rest i l :
  at_lines content pos bytes rest (i :: l) → (length rest < length (trunk_data_line i))%nat → info_ok i →
  let data := fd_read content pos (LOAD_BUFFER_SIZE - Z.of_nat (length rest)) in
  bytes = LOAD_BUFFER_SIZE ∧ (CH_LF ∉ rest) ∧ (length data ≠ 0)%nat ∧
  at_lines content (pos + Z.of_nat (length data)) (Z.of_nat (length data) + Z.of_nat (length rest)) (rest ++ data) (i :: l) ∧
  (length (trunk_data_line i) ≤ length (rest ++ data))%nat ∧
  next_room (room_of bytes rest) (Z.of_nat (length (trunk_data_line i)))
  = next_room LOAD_BUFFER_SIZE (Z.of_nat (length (trunk_data_line i))).
Proof.
  intros [Hp Hb Hl He] Hlen Hi data. pose proof (data_line_length i Hi) as Hk.
  assert (length (data_lines (i :: l)) = length (trunk_data_line i) + length (data_lines l))%nat as Hll.
  { unfold data_lines. cbn. by rewrite length_app. }
  assert (bytes = LOAD_BUFFER_SIZE) as ->.
  { destruct (Z.eq_dec bytes LOAD_BUFFER_SIZE); [done|]. rewrite He, app_nil_r in Hl by lia.
    rewrite Hl in Hlen. lia. }
  assert (length rest + length (drop (Z.to_nat pos) content) = length (data_lines (i :: l)))%nat as Htot
    by (by rewrite <- Hl, length_app).
  assert (data = take (Z.to_nat (LOAD_BUFFER_SIZE - Z.of_nat (length rest))) (drop (Z.to_nat pos) content)) as Ed by done.
  assert (length data = (Z.to_nat (LOAD_BUFFER_SIZE - Z.of_nat (length rest))) `min` length (drop (Z.to_nat pos) content))%nat
    as Hdl by (by rewrite Ed, length_take).
  unfold LOAD_BUFFER_SIZE in *. split; [done|]. split; [|split; [lia|split; [|split]]].
  - intros Hin. apply (data_text_no_lf i). rewrite data_lines_cons in Hl. rewrite data_line_text, length_app in Hlen.
    cbn in Hlen. assert (rest = take (length rest) (data_text i)) as Er.
    { rewrite <- (take_app_le _ (CH_LF :: data_lines l)) by lia. rewrite <- Hl. by rewrite take_app_length. }
    rewrite <- (take_drop (length rest) (data_text i)), <- Er. apply elem_of_app. by left.
  - assert (drop (Z.to_nat (pos + Z.of_nat (length data))) content = drop (length data) (drop (Z.to_nat pos) content)) as Edr.
    { rewrite drop_drop. f_equal. lia. }
    assert (data ++ drop (length data) (drop (Z.to_nat pos) content) = drop (Z.to_nat pos) content) as Esplit.
    { rewrite Ed at 1. rewrite <- (take_drop (length data) (drop (Z.to_nat pos) content)) at 3. f_equal.
      rewrite Hdl. destruct (Nat.min_spec (Z.to_nat (4 * 1024 - Z.of_nat (length rest))) (length (drop (Z.to_nat pos) content)))
        as [[? ->]|[? ->]]; [done|]. by rewrite !take_ge by lia. }
    split; [lia|rewrite length_app; unfold LOAD_BUFFER_SIZE; lia| |].
    + rewrite Edr, <- app_assoc, Esplit. exact Hl.
    + unfold LOAD_BUFFER_SIZE. intros Hlt. rewrite Edr. apply drop_ge. lia.
  - rewrite length_app. lia.
  - unfold next_room, room_of, LOAD_BUFFER_SIZE. rewrite (proj2 (Z.leb_gt _ _)), (proj2 (Z.leb_le _ _)) by lia. done.
Qed.

Definition same_files (s s' : trunk_server) : Prop :=
  trunk_dat s' = trunk_dat s ∧ temp_dat s' = temp_dat s.

(** The whole loop. *)
Lemma load_lines_ok l : ∀ fuel content pos bytes rest s0 t0 s B,
  loaded s0 t0 (mem s) B → Forall (addable s0) l → apart (l ++ B) →
  at_lines content pos bytes rest l → (2 * length l + 2 ≤ fuel)%nat →
  ∃ s' B', load_lines cfg lcfg env sys fuel content pos bytes rest s
           = Some (load_result (last_room (room_of bytes rest) l), s') ∧
    loaded s0 t0 (mem s') B' ∧ B' ≡ₚ (l ≫= recycled) ++ B ∧ same_files s s'.
Proof using Henv Hsys Hself Hocc.
  induction l as [|i l IH]; intros fuel content pos bytes rest s0 t0 s B Hl Hadd Hap Hat Hfuel.
  { destruct Hat as [Hp Hb Hlines He]. apply app_eq_nil in Hlines as [-> Hd]. cbn [length] in *.
    destruct fuel as [|fuel]; [lia|]. unfold load_result, last_room, room_of. cbn [fold_left length].
    destruct (Z.eq_dec bytes LOAD_BUFFER_SIZE) as [-> |Hne].
    - rewrite load_refill by (apply not_elem_of_nil || (cbn; lia)). unfold fd_read. rewrite Hd, take_nil. cbn [length].
      change (0 =? 0)%nat with true. cbv iota zeta. exists (set_calls (S (calls s)) s), B.
      split; [done|]. split; [done|]. split; [done|]. done.
    - exists s, B. split; [|done]. cbn [load_lines c_string strchr].
      rewrite (proj2 (Z.ltb_lt _ _)), (proj2 (Z.eqb_neq _ 0)) by lia. done. }
  apply Forall_cons in Hadd as [Hi Hadd]. cbn in Hap. destruct Hap as [Hapi Hap].
  assert (∀ fuel pos bytes rest s, loaded s0 t0 (mem s) B → at_lines content pos bytes rest (i :: l) →
    (length (trunk_data_line i) ≤ length rest)%nat → (2 * length l + 3 ≤ fuel)%nat →
    ∃ s' B', load_lines cfg lcfg env sys fuel content pos bytes rest s
             = Some (load_result (last_room (room_of bytes rest) (i :: l)), s') ∧
      loaded s0 t0 (mem s') B' ∧ B' ≡ₚ ((i :: l) ≫= recycled) ++ B ∧ same_files s s') as Hline.
  { clear fuel pos bytes rest s Hl Hat Hfuel. intros fuel pos bytes rest s Hl Hat Hlen Hfuel.
    pose proof (prefix_no_nul _ _ _ (al_lines _ _ _ _ _ Hat)) as Hnul.
    destruct (at_lines_next _ _ _ _ _ _ Hat Hlen) as (rest' & -> & Hat' & Hroom).
    destruct fuel as [|fuel]; [lia|].
    destruct (load_line fuel content pos bytes rest' i s0 t0 s B Hl Hi) as (m & E & Hl'); [|done|].
    { intros j Hj. rewrite Forall_forall in Hapi. apply Hapi, elem_of_app. by right. }
    destruct (IH fuel content pos bytes rest' s0 t0 (set_mem m s) (recycled i ++ B)) as (s' & B' & E' & Hl2 & HB & Hf);
      [done|done| |done|lia|].
    { rewrite (Permutation_app_swap_app l), app_assoc.
      unfold recycled. destruct (_ <=? _); cbn; [|done]. split; [|done].
      eapply Forall_impl; [exact Hapi|]. done. }
    exists s', B'. rewrite E, E', Hroom. split; [done|]. split; [done|].
    split; [rewrite HB; cbn [mbind list_bind]; by rewrite <- app_assoc, (Permutation_app_swap_app _ (recycled i))|done]. }
  destruct (decide (length (trunk_data_line i) ≤ length rest)%nat) as [Hle|Hgt].
  { apply Hline; [done|done|done|cbn in Hfuel; lia]. }
  destruct (at_lines_refill _ _ _ _ _ _ Hat) as (-> & Hlf & Hne & Hat' & Hle & Hroom); [lia|apply Hi|].
  pose proof (data_line_length i (proj1 Hi)) as Hk.
  destruct fuel as [|fuel]; [lia|]. rewrite load_refill; [|done| |lia].
  2: { apply (prefix_no_nul _ _ _ (al_lines _ _ _ _ _ Hat)). }
  cbv zeta. rewrite (proj2 (Nat.eqb_neq _ _)) by done.
  destruct (Hline fuel _ _ _ (set_calls (S (calls s)) s) Hl Hat' Hle ltac:(cbn in Hfuel; lia))
    as (s' & B' & E & H1 & H2 & H3).
  exists s', B'. rewrite E. split; [|done]. do 3 f_equal. unfold last_room. cbn [fold_left]. f_equal.
  rewrite Hroom. f_equal. unfold room_of. rewrite length_app. lia.
Qed.
(** [storage_trunk_load] of a data file that was saved with the present
    size of the binlog: the blocks, unless the last buffer is exactly full. *)
Definition file_room (binlog_size : Z) : Z := LOAD_BUFFER_SIZE - (Z.of_nat (length (sprintf_d binlog_size)) + 1).

(** ** Starting *)

(** [storage_trunk_init] sets an empty allocator up and loads. *)
Lemma storage_trunk_init_run s :
  trunk_init_flag (mem s) = STORAGE_TRUNK_INIT_FLAG_NONE → is_int64 (g_trunk_total_free_space (mem s)) →
  ∃ s1, same_files s s1 ∧ loaded (mem s) (g_trunk_total_free_space (mem s)) (mem s1) [] ∧
    storage_trunk_init cfg lcfg env sys s =
    (result ← storage_trunk_load cfg lcfg env sys;
     if negb (result =? 0) then mret result
     else on_mem (modify (set_trunk_init_flag STORAGE_TRUNK_INIT_FLAG_DONE));; mret 0) s1.
Proof using Hsys Hself.
  clear Henv Hocc. intros Hflag Ht. unfold storage_trunk_init. run. rewrite Hself, Hflag. cbn [negb].
  change (negb (STORAGE_TRUNK_INIT_FLAG_NONE =? STORAGE_TRUNK_INIT_FLAG_NONE)) with false. cbv iota.
  do 3 (rewrite sys_call_bind, (sk_ret _ (Hsys _)); change (negb (0 =? 0)) with false; cbv iota).
  destruct (fast_mblock_init sizeof_FDFSTrunkNode 0 0) as [r1 o1] eqn:E1.
  assert (∃ man1, r1 = 0 ∧ o1 = Some man1) as (man1 & -> & ->) by (injection E1 as <- <-; by eexists).
  rewrite (on_mem_bind _ _ _ _ _ eq_refl). change (negb (0 =? 0)) with false. cbv iota.
  rewrite sys_call_bind, (sk_ret _ (Hsys _)).
  destruct (fast_mblock_init sizeof_FDFSTrunkSlot 0 0) as [r2 o2] eqn:E2.
  assert (∃ man2, r2 = 0 ∧ o2 = Some man2) as (man2 & -> & ->) by (injection E2 as <- <-; by eexists).
  rewrite (on_mem_bind _ _ _ _ _ eq_refl). change (negb (0 =? 0)) with false. cbv iota.
  rewrite sys_call_bind, (sk_ret _ (Hsys _)). change (0 <? 0) with false. cbv iota.
  rewrite (on_mem_bind _ _ _ _ _ eq_refl).
  eexists. split; [|split; [|reflexivity]]; [done|]. split; [done|]. split; [done|].
  exists ∅, ∅. split; [by apply fresh_core|]. split; [|done].
  unfold total_from, free_space. rewrite map_fold_empty, Z.add_0_r. cbn. by rewrite s64_id.
Qed.

Hypothesis Hreload : g_trunk_init_reload_from_binlog lcfg = false.

Lemma storage_trunk_restore_done s :
  storage_trunk_restore cfg env sys (Z.of_nat (length (binlog_file (binlog (mem s))))) s
  = Some (0, set_calls (S (calls s)) s).
Proof using Hsys.
  unfold storage_trunk_restore, storage_trunk_get_binlog_size. rewrite bind_assoc, sys_call_bind.
  rewrite (sk_ret _ (Hsys _)). run. change (0 =? 0) with true. cbv iota. cbn [mem set_calls].
  rewrite (proj2 (Z.ltb_ge _ 0)) by lia. by rewrite Z.eqb_refl.
Qed.

Lemma storage_trunk_load_ok l s0 t0 s :
  loaded s0 t0 (mem s) [] → Forall (addable s0) l → apart l →
  Z.of_nat (length (binlog_file (binlog (mem s)))) ≤ LONG_MAX →
  trunk_dat s = Some (data_file (Z.of_nat (length (binlog_file (binlog (mem s))))) l) →
  ∃ s' B', storage_trunk_load cfg lcfg env sys s
      = Some (if last_room (file_room (Z.of_nat (length (binlog_file (binlog (mem s)))))) l =? 0 then ENOENT else 0, s') ∧
    loaded s0 t0 (mem s') B' ∧ B' ≡ₚ l ≫= recycled ∧ same_files s s'.
Proof using Henv Hsys Hself Hocc Hreload.
  intros Hl Hadd Hap Hmax Hdat. set (sz := Z.of_nat (length (binlog_file (binlog (mem s))))) in *.
  unfold storage_trunk_load. rewrite Hreload. run. rewrite sys_call_bind, Hdat, (sk_ret _ (Hsys _)).
  change (0 <? 0) with false. cbv iota. rewrite sys_call_bind, (sk_ret _ (Hsys _)).
  change (0 <? 0) with false. cbv iota zeta.
  pose proof (size_length sz ltac:(lia)) as Hk.
  set (content := data_file sz l). set (rest := take (Z.to_nat LOAD_BUFFER_SIZE - S (length (sprintf_d sz))) (data_lines l)).
  assert (fd_read content 0 LOAD_BUFFER_SIZE = sprintf_d sz ++ CH_LF :: rest) as Eb.
  { unfold fd_read, content, data_file, rest. change (Z.to_nat 0) with 0%nat. rewrite drop_0. unfold LOAD_BUFFER_SIZE.
    rewrite take_app_ge by lia. f_equal.
    replace (Z.to_nat (4 * 1024) - length (sprintf_d sz))%nat with (S (Z.to_nat (4 * 1024) - S (length (sprintf_d sz)))) by lia.
    done. }
  assert (0 ∉ sprintf_d sz ++ CH_LF :: rest) as Hnul.
  { rewrite not_elem_of_app, not_elem_of_cons. split_and!; [apply sprintf_d_no_nul|done|].
    apply (prefix_no_nul rest (drop (Z.to_nat LOAD_BUFFER_SIZE - S (length (sprintf_d sz))) (data_lines l)) l).
    apply take_drop. }
  rewrite Eb, c_string_no_nul by done. rewrite strchr_lf_split by apply sprintf_d_no_lf.
  replace (length (sprintf_d sz ++ CH_LF :: rest) - length (CH_LF :: rest))%nat with (length (sprintf_d sz))
    by (rewrite length_app; lia).
  rewrite take_app_length.
  assert ((strtol 10 (sprintf_d sz)).1 = sz) as Es.
  { rewrite <- (app_nil_r (sprintf_d sz)), strtol_sprintf_d; [done|unfold LONG_MIN; lia|done]. }
  rewrite Es. replace (drop (S (length (sprintf_d sz))) (sprintf_d sz ++ CH_LF :: rest)) with rest.
  2: { rewrite drop_app_ge by lia. by replace (S (length (sprintf_d sz)) - length (sprintf_d sz))%nat with 1%nat by lia. }
  set (bytes := Z.of_nat (length (sprintf_d sz ++ CH_LF :: rest))).
  assert (length content = length (sprintf_d sz) + S (length (data_lines l)))%nat as Hcl.
  { unfold content, data_file. by rewrite length_app. }
  assert (bytes = Z.of_nat (length (sprintf_d sz)) + 1 + Z.of_nat (length rest)) as Hbytes
    by (unfold bytes; rewrite length_app; cbn [length]; lia).
  assert (length rest = (Z.to_nat LOAD_BUFFER_SIZE - S (length (sprintf_d sz))) `min` length (data_lines l))%nat as Hrest
    by (unfold rest; apply length_take).
  assert (drop (Z.to_nat bytes) content = drop (Z.to_nat LOAD_BUFFER_SIZE - S (length (sprintf_d sz))) (data_lines l)) as Edrop.
  { unfold content, data_file. rewrite drop_app_ge by lia.
    replace (Z.to_nat bytes - length (sprintf_d sz))%nat with (S (length rest)) by lia. cbn [drop]. rewrite Hrest.
    destruct (Nat.min_spec (Z.to_nat LOAD_BUFFER_SIZE - S (length (sprintf_d sz))) (length (data_lines l)))
      as [[? ->]|[? ->]]; [done|]. by rewrite !drop_ge by lia. }
  assert (length l ≤ length (data_lines l))%nat as Hlen.
  { clear. induction l as [|i l IH]; [done|]. rewrite data_lines_cons, length_app. cbn. lia. }
  destruct (load_lines_ok l (2 * length content + 2) content bytes bytes rest s0 t0
    (set_calls (S (calls (set_calls (S (calls s)) s))) (set_calls (S (calls s)) s)) [])
    as (s' & B' & E & Hl' & HB & Hf); [done|done|by rewrite app_nil_r| |lia|].
  { unfold LOAD_BUFFER_SIZE in *. split; [lia|unfold LOAD_BUFFER_SIZE; lia|rewrite Edrop; apply take_drop|].
    unfold LOAD_BUFFER_SIZE. intros Hlt. rewrite Edrop. apply drop_ge. lia. }
  rewrite (bind_run _ _ _ _ _ E). assert (room_of bytes rest = file_room sz) as ->.
  { unfold room_of, file_room. lia. }
  rewrite app_nil_r in HB. unfold load_result. destruct (last_room (file_room sz) l =? 0).
  - exists s', B'. done.
  - cbn [head default]. change (negb (0 =? 0)) with false. cbv iota.
    assert (sz = Z.of_nat (length (binlog_file (binlog (mem s'))))) as ->.
    { unfold sz. destruct Hl as (_ & E1 & _), Hl' as (_ & E2 & _). by rewrite E1, E2. }
    rewrite storage_trunk_restore_done. eexists _, B'. split; [reflexivity|]. done.
Qed.
(** [storage_trunk_destroy_ex] saves and leaves nothing behind. *)
Lemma storage_trunk_destroy_run s B :
  represents cfg (mem s) B → Z.of_nat (length (binlog_file (binlog (mem s)))) ≤ LONG_MAX →
  ∃ s1 l, storage_trunk_destroy_ex sys s = Some (0, s1) ∧ l ≡ₚ B ∧
    trunk_dat s1 = Some (data_file (Z.of_nat (length (binlog_file (binlog (mem s))))) l) ∧
    trunk_init_flag (mem s1) = STORAGE_TRUNK_INIT_FLAG_NONE ∧ binlog (mem s1) = binlog (mem s) ∧
    trunk_files (mem s1) = trunk_files (mem s) ∧
    g_trunk_total_free_space (mem s1) = g_trunk_total_free_space (mem s).
Proof using Hsys.
  intros (Hflag & M & U & Hc & _ & HB) Hmax. unfold storage_trunk_destroy_ex. run. rewrite Hflag.
  change (negb (STORAGE_TRUNK_INIT_FLAG_DONE =? STORAGE_TRUNK_INIT_FLAG_DONE)) with false. cbv iota.
  rewrite (on_mem_bind _ _ _ _ _ eq_refl).
  destruct (storage_trunk_save_ok cfg sys Hsys (set_mem (set_trunk_init_flag STORAGE_TRUNK_INIT_FLAG_DESTROYING (mem s)) s) M U)
    as (k & l & E & Hl); [by destruct Hc; split|done|].
  rewrite (bind_run _ _ _ _ _ E), (on_mem_bind _ _ _ _ _ eq_refl).
  eexists _, l. split; [reflexivity|]. split; [by rewrite Hl, HB|]. done.
Qed.

Lemma represents_addable s m B :
  represents cfg s B → trunk_files m = trunk_files s → ∀ l, l ≡ₚ B → Forall (addable m) l ∧ apart l.
Proof.
  intros (_ & M & U & Hc & _ & HB) Hf l Hl. rewrite HB in Hl. split.
  - apply Forall_forall. intros i Hi. rewrite Hl in Hi. apply elem_of_contents in Hi as [a Ha].
    destruct (core_block _ _ _ _ _ _ Hc Ha) as [H1 H2 H3 _]. split; [done|]. split; [done|]. split; [done|].
    apply (file_exists_env cfg s); [done|]. by apply (co_files _ _ _ _ Hc a).
  - rewrite Hl. apply contents_apart, Hc.
Qed.

(** The sum of the sizes of a list of blocks. *)
Definition sizes (l : list FDFSTrunkFullInfo) : Z := foldr (λ i n, tf_size (file i) + n) 0 l.

#[local] Instance sizes_perm : Proper ((≡ₚ) ==> (=)) sizes.
Proof. intros l1 l2 H. induction H as [|x l1 l2 _ IH|x y l|l1 l2 l3 _ IH1 _ IH2]; cbn; unfold sizes in *; lia. Qed.

Lemma free_space_contents (M : blocks_map) : free_space M = sizes (contents M).
Proof.
  induction M as [|a i M Ha IH] using map_ind.
  - unfold contents. rewrite map_to_list_empty. done.
  - rewrite free_space_insert, contents_insert, IH by done. done.
Qed.

Lemma represents_total s B :
  represents cfg s B → g_trunk_total_free_space s = s64 (sizes B).
Proof. intros (_ & M & U & _ & [Ht _] & HB). by rewrite Ht, free_space_contents, HB. Qed.

(** The allocator holds the blocks [B], no two of which overlap. *)
Definition holds (s : trunk_state) (B : list FDFSTrunkFullInfo) : Prop :=
  apart B ∧ ∃ M U, core_ok cfg s M U ∧ B ≡ₚ contents M.

Lemma loaded_holds s0 t0 s B B' :
  loaded s0 t0 s B → B ≡ₚ B' → holds s B' ∧ g_trunk_total_free_space s = s64 (t0 + sizes B').
Proof.
  intros (_ & _ & M & U & Hc & Ht & HB) HB'. rewrite HB' in HB. split.
  - split; [rewrite HB; apply contents_apart, Hc|]. by exists M, U.
  - by rewrite Ht, free_space_contents, HB.
Qed.

Lemma holds_flag s B x : holds s B → holds (set_trunk_init_flag x s) B.
Proof. intros [Ha (M & U & [] & HB)]. split; [done|]. exists M, U. by split. Qed.

(** A trunk server that stops and starts again. *)
Lemma restart_run s B :
  represents cfg (mem s) B → Z.of_nat (length (binlog_file (binlog (mem s)))) ≤ LONG_MAX →
  ∃ s1 l s2, storage_trunk_destroy_ex sys s = Some (0, s1) ∧ l ≡ₚ B ∧
    trunk_dat s1 = Some (data_file (Z.of_nat (length (binlog_file (binlog (mem s))))) l) ∧
    let full := last_room (file_room (Z.of_nat (length (binlog_file (binlog (mem s)))))) l =? 0 in
    storage_trunk_init cfg lcfg env sys s1 = Some (if full then ENOENT else 0, s2) ∧
    (full = false → trunk_init_flag (mem s2) = STORAGE_TRUNK_INIT_FLAG_DONE ∧ holds (mem s2) (B ≫= recycled) ∧
       g_trunk_total_free_space (mem s2) = s64 (g_trunk_total_free_space (mem s) + sizes (B ≫= recycled))).
Proof using Henv Hsys Hself Hocc Hreload.
  intros Hr Hmax. destruct (storage_trunk_destroy_run s B Hr Hmax) as (s1 & l & E & Hl & Hdat & Hflag & Hb & Hf & Ht).
  destruct (represents_addable _ (mem s1) B Hr Hf l Hl) as [Hadd Hap].
  destruct (storage_trunk_init_run s1 Hflag) as (s2 & [Hd2 _] & Hl2 & E2).
  { rewrite Ht, (represents_total _ _ Hr). apply s64_range. }
  assert (binlog (mem s2) = binlog (mem s)) as Hb2 by (destruct Hl2 as (_ & -> & _); done).
  destruct (storage_trunk_load_ok l (mem s1) (g_trunk_total_free_space (mem s1)) s2) as (s3 & B' & E3 & Hl3 & HB & _);
    [done|done|done|by rewrite Hb2|by rewrite Hd2, Hb2|].
  rewrite Hb2 in E3. cbv zeta.
  destruct (last_room (file_room (Z.of_nat (length (binlog_file (binlog (mem s)))))) l =? 0) eqn:Efull;
    cbv iota in E3; eexists s1, l, _; rewrite E2, (bind_run _ _ _ _ _ E3), Efull;
    (split; [done|]); (split; [done|]); (split; [done|]).
  - split; [reflexivity|done].
  - change (negb (0 =? 0)) with false. cbv iota. rewrite (on_mem_bind _ _ _ _ _ eq_refl). split; [reflexivity|].
    intros _. split; [done|]. destruct (loaded_holds _ _ _ _ (B ≫= recycled) Hl3) as [H1 H2]; [by rewrite HB, Hl|].
    split; [by apply holds_flag|]. rewrite <- Ht. exact H2.
Qed.
End loading.

(** * Properties *)

(** ** The state of a trunk server *)

Lemma indexed_infos (ns : gmap positive FDFSTrunkNode) ids M :
  nodes_rep ns M → index_inv ns ids M → (λ a, n_trunk <$> ns !! a) <$> indexed ids ≡ₚ Some <$> contents M.
Proof.
  intros Hn [_ Hp]. rewrite Hp. unfold contents. rewrite <- !list_fmap_compose.
  rewrite (list_fmap_ext _ (Some ∘ snd) (map_to_list M)); [done|].
  intros i [a info] Hi. cbn. assert (M !! a = Some info) as Ha.
  { apply elem_of_map_to_list, list_elem_of_lookup. by exists i. }
  destruct (Hn a info Ha) as (n & -> & <- & _). done.
Qed.

Lemma slot_chain (ns : gmap positive FDFSTrunkNode) trees M i t e :
  chains_inv ns trees M → trees !! i = Some t → e ∈ elements (root t) →
  slot_at trees i (slot_size e) = Some e ∧
  ∃ c, llist (next_in ns) (slot_head e) c ∧ c ≠ [] ∧ NoDup c ∧ ∀ a, a ∈ c ↔ in_slot M i (slot_size e) a.
Proof.
  intros [_ _ Htr Hsl] Ht He. pose proof (tree_at_ok _ _ _ Htr Ht) as [_ [_ _ Hsort]].
  assert (slot_at trees i (slot_size e) = Some e) as Ee.
  { unfold slot_at. rewrite Ht. cbn [mbind option_bind]. by apply (rfind_elem slot_size). }
  split; [done|]. pose proof (Hsl i (slot_size e)) as (c & Hl & Hd & Hne & Hc). rewrite Ee in *.
  exists c. split; [done|]. split; [apply Hne; by eexists|]. done.
Qed.

(** The blocks [B] are the content of the chains of the size trees. *)
Definition chains_hold (s : trunk_state) (B : list FDFSTrunkFullInfo) : Prop :=
  (∀ i t e, tree_info_by_sizes s !! i = Some t → e ∈ elements (root t) →
     ∃ c, llist (next_in (nodes s)) (slot_head e) c ∧ c ≠ [] ∧ NoDup c ∧
       ∀ a, a ∈ c → ∃ info, n_trunk <$> nodes s !! a = Some info ∧ info ∈ B ∧
         path_of info = i ∧ tf_size (file info) = slot_size e) ∧
  (∀ info, info ∈ B → ∃ t e c a, tree_info_by_sizes s !! path_of info = Some t ∧ e ∈ elements (root t) ∧
     slot_size e = tf_size (file info) ∧ llist (next_in (nodes s)) (slot_head e) c ∧ a ∈ c ∧
     n_trunk <$> nodes s !! a = Some info).

Lemma represents_chains cfg s B : represents cfg s B → chains_hold s B.
Proof.
  intros (_ & M & U & Hc & _ & HB). pose proof (co_chains _ _ _ _ Hc) as Hch.
  assert (∀ a info, M !! a = Some info → n_trunk <$> nodes s !! a = Some info) as Hnode.
  { intros a info Ha. destruct (ci_nodes _ _ _ Hch a info Ha) as (n & -> & <- & _). done. }
  split.
  - intros i t e Ht He. destruct (slot_chain _ _ _ _ _ _ Hch Ht He) as (_ & c & Hl & Hne & Hd & Hc').
    exists c. split; [done|]. split; [done|]. split; [done|]. intros a (info & Ha & Hp & Hs)%Hc'.
    exists info. split; [by apply Hnode|]. split; [|done]. rewrite HB. apply elem_of_contents. by exists a.
  - intros info Hi. rewrite HB in Hi. apply elem_of_contents in Hi as [a Ha].
    destruct (slot_exists _ _ _ _ _ _ Hc Ha) as [e He].
    assert (∃ t, tree_info_by_sizes s !! path_of info = Some t) as [t Ht].
    { unfold slot_at in He. destruct (tree_info_by_sizes s !! path_of info) as [t|]; [by exists t|done]. }
    destruct (slot_at_size _ _ _ (ci_trees _ _ _ Hch) Ht _ _ He) as (Hs & _ & Hin).
    destruct (slot_chain _ _ _ _ _ _ Hch Ht Hin) as (_ & c & Hl & _ & _ & Hc').
    exists t, e, c, a. split; [done|]. split; [done|]. split; [done|]. split; [done|].
    split; [|by apply Hnode]. apply Hc'. exists info. by rewrite Hs.
Qed.

(** C2 Every request keeps the trunk server well-formed.  After any sequence
    of admissible requests no two blocks overlap; the chains of the size
    trees hold exactly the blocks, each in the tree of its path and under
    its size; the index by trunk file holds exactly the same blocks; the
    total of free space is the sum of the sizes at 64 bits; and the binlog,
    file and cache together, is a list of records whose replay gives the
    blocks. *)
Theorem trunk_server_invariant cfg env reqs s B :
  (∀ n, outcome_ok (env n)) → 0 < g_slot_min_size cfg ≤ INT_MAX → g_if_trunker_self cfg = true →
  represents cfg s B → admissible_all cfg env reqs s →
  ∃ resps s' B', serve_all cfg env reqs s = Some (resps, s') ∧ spec_run cfg B reqs resps B' ∧
    apart B' ∧ chains_hold s' B' ∧
    (λ a, n_trunk <$> nodes s' !! a) <$> indexed (tree_info_by_id s') ≡ₚ Some <$> B' ∧
    g_trunk_total_free_space s' = s64 (sizes B') ∧
    ∃ rs, whole_log (binlog s') = lines rs ∧ replay rs ≡ₚ place <$> B'.
Proof.
  intros He Hm Hs Hr Ha. destruct (serve_all_refines cfg env He Hm Hs reqs s B Hr Ha) as (ps & s' & B' & E & Hrun & Hr').
  pose proof Hr' as (_ & M & U & Hc & [_ (_ & rs & l & _ & Hw & Hj & Hl)] & HB).
  exists ps, s', B'. split; [done|]. split; [done|].
  split; [rewrite HB; apply contents_apart, Hc|]. split; [by eapply represents_chains|].
  split; [rewrite HB; by apply indexed_infos; apply Hc|]. split; [by eapply represents_total|].
  exists rs. split; [done|]. rewrite (sound_replay _ _ Hj), Hl. unfold places. by rewrite HB.
Qed.

Lemma trunk_server_invariant_witness :
  ∃ resps s' B', serve_all sample_cfg sample_env sample_requests sample_state = Some (resps, s') ∧
    spec_run sample_cfg [] sample_requests resps B' ∧ apart B' ∧ chains_hold s' B' ∧
    (λ a, n_trunk <$> nodes s' !! a) <$> indexed (tree_info_by_id s') ≡ₚ Some <$> B' ∧
    g_trunk_total_free_space s' = s64 (sizes B') ∧
    ∃ rs, whole_log (binlog s') = lines rs ∧ replay rs ≡ₚ place <$> B'.
Proof.
  apply (trunk_server_invariant sample_cfg sample_env sample_requests sample_state []).
  - exact sample_env_ok.
  - split; vm_compute; done.
  - reflexivity.
  - exact sample_represents.
  - exact sample_admissible.
Defined.

(** ** Stopping and starting *)

(** C4 The data file survives a restart.  [storage_trunk_destroy] saves
    every block once behind the size of the binlog; [storage_trunk_init]
    then reads the file through its 4 KB buffer, whatever its length, and
    holds the same blocks again, free, without those that are too small.
    It fails with ENOENT, having added the blocks, exactly when the lines
    fill the last buffer to its end.  The counter of free space is not
    reset in between: the sizes are added to what it held. *)
Theorem storage_trunk_restart cfg lcfg env sys s B :
  (∀ n, outcome_ok (env n)) → (∀ n, sys_ok (sys n)) → g_if_trunker_self cfg = true →
  g_trunk_init_check_occupying lcfg = false → g_trunk_init_reload_from_binlog lcfg = false →
  represents cfg (mem s) B → Z.of_nat (length (binlog_file (binlog (mem s)))) ≤ LONG_MAX →
  ∃ s1 l s2, storage_trunk_destroy_ex sys s = Some (0, s1) ∧ l ≡ₚ B ∧
    trunk_dat s1 = Some (data_file (Z.of_nat (length (binlog_file (binlog (mem s))))) l) ∧
    let full := last_room (file_room (Z.of_nat (length (binlog_file (binlog (mem s)))))) l =? 0 in
    storage_trunk_init cfg lcfg env sys s1 = Some (if full then ENOENT else 0, s2) ∧
    (full = false → trunk_init_flag (mem s2) = STORAGE_TRUNK_INIT_FLAG_DONE ∧
       holds cfg (mem s2) (B ≫= recycled cfg) ∧
       g_trunk_total_free_space (mem s2)
       = s64 (g_trunk_total_free_space (mem s) + sizes (B ≫= recycled cfg))).
Proof. intros. by apply restart_run. Qed.

Definition sample_load : load_config :=
  {| g_trunk_init_check_occupying := false; g_trunk_init_reload_from_binlog := false |}.
Definition sample_sys (n : nat) : sys_outcome :=
  {| so_ret := 0; so_errno := 0;
     so_io := {| io_written := WALK_BUFFER_SIZE; io_errno := 0; io_fsync := 0; io_fsync_errno := 0 |};
     so_stale := replicate (Z.to_nat TRUNK_BINLOG_BUFFER_SIZE) 0 |}.
Definition sample_server (m : trunk_state) : trunk_server :=
  {| mem := m; trunk_dat := None; temp_dat := None; calls := 0 |}.

Lemma sample_sys_ok n : sys_ok (sample_sys n).
Proof. split; [done|done|]. cbn [sample_sys so_stale]. by rewrite length_replicate. Qed.

(** A restart after some requests. *)
Lemma storage_trunk_restart_witness :
  ∃ m B, serve_all sample_cfg sample_env sample_requests sample_state = Some m ∧
    ∃ s1 l s2, storage_trunk_destroy_ex sample_sys (sample_server m.2) = Some (0, s1) ∧ l ≡ₚ B ∧
      let full := last_room (file_room (Z.of_nat (length (binlog_file (binlog m.2))))) l =? 0 in
      storage_trunk_init sample_cfg sample_load sample_env sample_sys s1 = Some (if full then ENOENT else 0, s2).
Proof.
  destruct (serve_all_refines sample_cfg sample_env sample_env_ok ltac:(split; vm_compute; done) eq_refl
    sample_requests sample_state [] sample_represents sample_admissible) as (ps & m & B & E & _ & Hr).
  exists (ps, m), B. split; [exact E|].
  destruct (storage_trunk_restart sample_cfg sample_load sample_env sample_sys (sample_server m) B)
    as (s1 & l & s2 & E1 & Hl & _ & E2 & _).
  - exact sample_env_ok.
  - exact sample_sys_ok.
  - reflexivity.
  - reflexivity.
  - reflexivity.
  - exact Hr.
  - pose proof (serve_result _ _ _ _ (λ s, Z.of_nat (length (binlog_file (binlog s)))) E) as El. cbv beta in El.
    cbn [mem sample_server]. rewrite El. clear. by vm_compute.
  - exists s1, l, s2. split; [exact E1|]. split; [exact Hl|exact E2].
Defined.

(** ** Creating files in advance *)

Lemma alloc_node_dist env d s r s1 :
  alloc_node env s = Some (r, s1) → alloc_node env (set_dist d s) = Some (r, set_dist d s1).
Proof.
  unfold alloc_node, tick, get, modify, deref, mret, prog_ret, mbind, prog_bind. cbn.
  destruct (fast_mblock_alloc _ _ _) as [[x m]|]; [|done]. by intros [= <- <-].
Qed.

(** The store path [-1] stands for the one [storage_get_storage_path_index]
    chooses. *)
Lemma create_anywhere cfg env s i d a s1 :
  alloc_node env s = Some (inr a, s1) → dist s1 = dist s →
  storage_get_storage_path_index (g_store cfg) (dist s) = Some ((0, i), d) → 0 ≤ i →
  trunk_create_trunk_file cfg env (-1) s = trunk_create_trunk_file cfg env i (set_dist d s).
Proof.
  intros E Hd Ei Hi. unfold trunk_create_trunk_file.
  rewrite (bind_run _ _ _ _ _ E), (bind_run _ _ _ _ _ (alloc_node_dist _ d _ _ _ E)).
  change (0 <=? -1) with false. rewrite (proj2 (Z.leb_le 0 i)) by lia. cbv iota.
  rewrite <- Hd in Ei. rewrite bind_assoc, (on_dist_bind _ _ _ _ _ Ei). cbv beta iota.
  change (c_true 0) with false. cbv iota. rewrite !ret_bind. done.
Qed.

(** C24 [trunk_create_trunk_file_advance] counts a new file twice: one round
    of its loop adds one block, the whole new file, but twice its size to
    the total of free space (in [trunk_create_trunk_file] with the binlog
    record, and in [trunk_add_free_block], which is called without). *)
Theorem trunk_create_file_advance_counts_twice cfg env s B i d :
  (∀ n, outcome_ok (env n)) → 0 < g_slot_min_size cfg → represents cfg s B → create_ok cfg s →
  storage_get_storage_path_index (g_store cfg) (dist s) = Some ((0, i), d) → is_byte i →
  (Z.to_nat i < length (paths (g_fdfs_store_paths (g_store cfg))))%nat →
  ∃ s' info, create_files cfg env 1 0 s = Some (0, s') ∧ whole_file cfg i info ∧ holds cfg s' (info :: B) ∧
    g_trunk_total_free_space s' = s64 (g_trunk_total_free_space s + 2 * g_trunk_file_size cfg).
Proof.
  intros Henv Hmin (Hflag & M & U & Hc & Hl & HB) Hcr Ei Hi Hp. cbn [create_files].
  destruct (core_alloc cfg env Henv s M U Hc) as (a0 & m & E0 & _).
  assert (0 ≤ i) as Hi0 by (unfold is_byte in Hi; lia).
  pose proof (create_anywhere cfg env s i d a0 _ E0 eq_refl Ei Hi0) as Eany.
  destruct (trunk_create_trunk_file_ok cfg env Henv (set_dist d s) M U i)
    as (s1 & a & n & name & E & HaU & HM & Hc1 & [Ht1 _] & Hn & Hmb & Hw & Hb & Hno & Ef & _ & Hfiles & _);
    [by destruct Hc; split|done|by destruct Hcr; split|done|done|].
  rewrite <- Eany in E. rewrite (bind_run _ _ _ _ _ E). cbv beta iota zeta.
  destruct (trunk_add_free_block_gen cfg env Henv false
    (λ t log, t = s64 (g_trunk_total_free_space s1 + tf_size (file (n_trunk n)))) s1 M ({[a]} ∪ U) a n)
    as [[Ho _]|(_ & s2 & p & E2 & Hc2 & Ht2 & _)]; [done|done|done|set_solver|done|done| | |done|].
  - exists name. split; [done|]. rewrite Hfiles, lookup_insert_eq. by eexists.
  - intros s3 _ Et _. eexists _, _, _. split; [apply log_added_load|]. by rewrite Et.
  - rewrite (bind_run _ _ _ _ _ E2). change (c_true 0) with false. cbv iota.
    exists s2, (n_trunk n). split; [done|]. split; [done|].
    assert (n_trunk n :: B ≡ₚ contents (<[a := n_trunk n]> M)) as HB' by (by rewrite contents_insert, HB).
    split; [split; [rewrite HB'; apply contents_apart, Hc2|by eexists _, _]|].
    rewrite Ht2, Ht1. destruct Hl as [Ht _], Hw as (_ & _ & _ & Hsz). rewrite Ht, free_space_insert, Hsz by done.
    rewrite !s64_add_idemp. f_equal. lia.
Qed.

Lemma trunk_create_file_advance_counts_twice_witness :
  ∃ s' info, create_files sample_cfg sample_env 1 0 sample_state = Some (0, s') ∧ whole_file sample_cfg 1 info ∧
    holds sample_cfg s' [info] ∧ g_trunk_total_free_space s' = 2048.
Proof.
  destruct (trunk_create_file_advance_counts_twice sample_cfg sample_env sample_state [] 1
    (match storage_get_storage_path_index sample_config sample_dist with Some (_, d) => d | None => sample_dist end))
    as (s' & info & E & Hw & Hh & Ht).
  - exact sample_env_ok.
  - reflexivity.
  - exact sample_represents.
  - apply sample_create_ok; by vm_compute.
  - by vm_compute.
  - split; vm_compute; done.
  - apply Nat.lt_1_2.
  - exists s', info. split; [exact E|]. split; [exact Hw|]. split; [exact Hh|]. rewrite Ht. reflexivity.
Defined.
