(* ===== verification/TrunkRecover.v ===== *)
(** * storage/trunk_mgr/trunk_mem.c: recovery from the binlog

    [storage_trunk_restore(0)] (TrunkMemSave.v): the whole binlog is
    replayed into a tree ordered by position, whose nodes are then added to
    the allocator.  On the binlog of a trunk server this gives its blocks
    back. *)

From stdpp Require Import strings.
From S2P Require Import Prelude LinkedList RankList AvlTree CLib SharedFunc Base64 TrunkShared FastMblock.
From S2P Require Import TrunkFile StorePath FreeBlockChecker TrunkBinlog BinlogReader TrunkMem TrunkMemInv.
From S2P Require Import TrunkMemOps TrunkMemCreate TrunkMemAlloc TrunkMemSpec TrunkMemSave TrunkDataFile.
From S2P Require Import TrunkMemLoad.
#[local] Open Scope Z_scope.

(** ** The order of the positions *)

Definition position_rank (i : FDFSTrunkFullInfo) : Z :=
  be_value (path_bytes (path i)) * 2 ^ 64 + tf_id (file i) * 2 ^ 32 + tf_offset (file i).
Definition position_valid (i : FDFSTrunkFullInfo) : Prop :=
  Forall is_byte (path_bytes (path i)) ∧ 0 ≤ tf_id (file i) < 2 ^ 31 ∧ 0 ≤ tf_offset (file i) < 2 ^ 31.

Definition node_rank (n : FDFSTrunkNode) : Z := position_rank (n_trunk n).
Definition node_valid (n : FDFSTrunkNode) : Prop := position_valid (n_trunk n).

#[export] Instance offset_rank_compare : RankCompare node_valid node_rank storage_trunk_node_compare_offset.
Proof.
  intros x y (Hbx & Hix & Hox) (Hby & Hiy & Hoy). unfold storage_trunk_node_compare_offset, node_rank, position_rank, c_true.
  rewrite memcmp_be_value by done. rewrite !s32_id by (unfold is_int32; lia).
  set (bx := be_value _). set (byy := be_value (path_bytes (path (n_trunk y)))).
  destruct (Z.eqb_spec (Z.sgn (bx - byy)) 0) as [E|E]; cbn [negb].
  - apply Z.sgn_null_iff in E. assert (bx = byy) as -> by lia.
    destruct (Z.eqb_spec (tf_id (file (n_trunk x)) - tf_id (file (n_trunk y))) 0) as [E1|E1]; cbn [negb]; [f_equal; lia|].
    destruct (Z.lt_ge_cases (tf_id (file (n_trunk x))) (tf_id (file (n_trunk y)))).
    + rewrite !Z.sgn_neg by lia. done.
    + rewrite !Z.sgn_pos by lia. done.
  - rewrite Z.sgn_sgn. destruct (Z.lt_ge_cases bx byy).
    + rewrite !Z.sgn_neg by lia. done.
    + assert (byy < bx) by (destruct (Z.eq_dec bx byy) as [->|]; [|lia]; by rewrite Z.sub_diag in E).
      rewrite !Z.sgn_pos by lia. done.
Qed.

Lemma block_position i : block_ok i → position_valid i.
Proof.
  intros [((H1 & H2 & H3) & H4 & H5 & H6 & H7) _ Hid _]. unfold end_of, INT_MAX, is_int32 in *.
  split; [|lia]. unfold path_bytes. repeat (apply Forall_cons; split; [done|]). constructor.
Qed.

(** Two blocks at the same position overlap. *)
Lemma same_position i j : block_ok i → block_ok j → position_rank i = position_rank j → overlap i j.
Proof.
  intros Hi Hj E. destruct (block_position i Hi) as (Hbi & Hii & Hoi), (block_position j Hj) as (Hbj & Hij & Hoj).
  unfold position_rank in E.
  assert (be_value (path_bytes (path i)) = be_value (path_bytes (path j))) as Eb by nia.
  assert (tf_id (file i) = tf_id (file j)) as Ei by nia.
  assert (tf_offset (file i) = tf_offset (file j)) as Eo by nia.
  apply be_value_inj in Eb as Eb; [|done|done|done]. unfold path_bytes in Eb.
  assert (path i = path j) as Ep by (destruct (path i), (path j); cbn in *; congruence).
  unfold overlap, FILL_FILE_IDENTIFIER, end_of. rewrite Ep, Ei, Eo. split; [done|].
  pose proof (block_size_range i Hi). pose proof (block_size_range j Hj). lia.
Qed.

(** ** Journals, one record at a time *)

Lemma sound_journal_last rs r l' :
  sound_journal (rs ++ [r]) l' →
  ∃ l, sound_journal rs l ∧
    ((op_type r = TRUNK_OP_TYPE_ADD_SPACE ∧ block_ok (trunk r) ∧ Forall (λ j, ¬ overlap (trunk r) j) l ∧
      l' = place (trunk r) :: l) ∨
     (op_type r = TRUNK_OP_TYPE_DEL_SPACE ∧ place (trunk r) ∈ l ∧ l' = filter (λ i, i ≠ place (trunk r)) l)).
Proof.
  intros H. remember (rs ++ [r]) as rs' eqn:E. destruct H as [|rs0 l r0 Hs Ho Hb Hf|rs0 l r0 Hs Ho Hin].
  - by destruct rs.
  - apply app_inj_tail in E as [-> ->]. exists l. split; [done|]. by left.
  - apply app_inj_tail in E as [-> ->]. exists l. split; [done|]. by right.
Qed.

Lemma sound_journal_take rs l k : sound_journal rs l → ∃ l', sound_journal (take k rs) l'.
Proof.
  intros H. revert k. induction H as [|rs l r Hs IH Ho Hb Hf|rs l r Hs IH Ho Hin]; intros k.
  - exists []. rewrite take_nil. constructor.
  - destruct (decide (k ≤ length rs)%nat) as [Hk|Hk]; [rewrite take_app_le by done; apply IH|].
    rewrite take_ge by (rewrite length_app; cbn; lia). eexists. by apply sj_add.
  - destruct (decide (k ≤ length rs)%nat) as [Hk|Hk]; [rewrite take_app_le by done; apply IH|].
    rewrite take_ge by (rewrite length_app; cbn; lia). eexists. by apply sj_del.
Qed.

Lemma sound_journal_fun rs l l' : sound_journal rs l → sound_journal rs l' → l = l'.
Proof. intros H%sound_replay H'%sound_replay. congruence. Qed.

Lemma sound_journal_blocks rs l : sound_journal rs l → Forall block_ok l.
Proof.
  induction 1 as [|rs l r _ IH _ Hb _|rs l r _ IH _ _]; [constructor| |].
  - constructor; [|done]. destruct Hb as [H1 H2 H3 _]. split; [done|done|done|by left].
  - rewrite Forall_forall in *. intros i [_ Hi]%list_elem_of_filter. by apply IH.
Qed.

Section recovery.
Context (cfg : trunk_config) (env : nat → outcome) (sys : nat → sys_outcome).
Hypothesis Henv : ∀ n, outcome_ok (env n).
Hypothesis Hsys : ∀ n, sys_ok (sys n).

(** ** The tree during a reload *)

Abbreviation nodes_of t := (elements (root t)).

(** The tree has the blocks [l]; its nodes are in use and not linked. *)
Record reload_inv (s0 s : trunk_state) (t : offset_tree) (l : list FDFSTrunkFullInfo) : Prop := {
  ri_tree : tree_ok node_valid node_rank storage_trunk_node_compare_offset t;
  ri_free : free_data_func t = Some storage_trunk_free_node;
  ri_infos : n_trunk <$> nodes_of t ≡ₚ l;
  ri_nodes : ∀ n, n ∈ nodes_of t → nodes s !! n_pMblockNode n = Some n;
  ri_distinct : NoDup (n_pMblockNode <$> nodes_of t);
  ri_core : ∃ U, core_ok cfg s ∅ U ∧ ∀ n, n ∈ nodes_of t → n_pMblockNode n ∈ U;
  ri_env : same_env s0 s ∧ binlog s = binlog s0 ∧ g_trunk_total_free_space s = g_trunk_total_free_space s0;
}.

Lemma reload_add s0 s t l r :
  reload_inv s0 s t l → op_type r = TRUNK_OP_TYPE_ADD_SPACE → block_ok (trunk r) → Forall block_ok l →
  Forall (λ j, ¬ overlap (trunk r) j) l →
  ∃ s' t', reload_record env (logged r) t s = Some (inr t', s') ∧ reload_inv s0 s' t' (place (trunk r) :: l).
Proof using Henv Hsys.
  intros [Ht Hfr Hi Hn Hd (U & Hc & HU) (He & Hb & Htot)] Hop Hblk Hl Hno.
  unfold reload_record. cbn [logged op_type trunk]. rewrite Hop.
  change (TRUNK_OP_TYPE_ADD_SPACE =? TRUNK_OP_TYPE_ADD_SPACE) with true. cbv iota.
  destruct (core_alloc cfg env Henv s ∅ U Hc) as (a & m & E & HaU & _ & _ & Hst).
  rewrite (bind_run _ _ _ _ _ E). cbv beta iota zeta. rewrite store_node_bind, tick_bind.
  set (n := {| n_trunk := with_status FDFS_TRUNK_STATUS_FREE
     {| status := FDFS_TRUNK_STATUS_FREE; path := path (trunk r); file := file (trunk r) |};
     n_pMblockNode := a; n_next := None |}).
  assert (node_valid n) as Hv by (apply (block_position (trunk r)), Hblk).
  rewrite (proj1 (proj2 (oo_index _ (Henv _)))).
  destruct (avl_tree_insert_ok node_valid node_rank storage_trunk_node_compare_offset true t n Ht Hv) as (t' & Ei & Ht' & El & Hf').
  assert (rfind node_rank (node_rank n) (nodes_of t) = None) as Hnone.
  { apply rfind_None, Forall_forall. intros x Hx E2.
    assert (n_trunk x ∈ l) as Hxl by (rewrite <- Hi; by apply list_elem_of_fmap_2).
    rewrite Forall_forall in Hno, Hl. apply (Hno _ Hxl). apply same_position; [done|by apply Hl|].
    symmetry. exact E2. }
  unfold insert_code in Ei. rewrite Hnone in Ei.
  rewrite (deref_bind _ _ _ _ Ei). change (1 <? 0) with false. cbv iota.
  unfold inserted in El.
  assert (nodes_of t' ≡ₚ n :: nodes_of t) as Hp by (rewrite El; apply rinsert_perm; [apply Ht|done]).
  assert (∀ x, x ∈ nodes_of t → n_pMblockNode x ≠ a) as Hne by (intros x Hx E2; apply HaU; rewrite <- E2; by apply HU).
  eexists _, t'. split; [reflexivity|]. split; [done|congruence| | | | |].
  - rewrite Hp. cbn. by rewrite Hi.
  - intros x. rewrite Hp, elem_of_cons. cbn. intros [-> |Hx]; [apply lookup_insert_eq|].
    rewrite lookup_insert_ne; [by apply Hn|]. intros ?. by apply (Hne x Hx).
  - rewrite Hp. cbn. apply NoDup_cons. split; [|done]. intros (x & E2 & Hx)%list_elem_of_fmap. by apply (Hne x Hx).
  - exists ({[a]} ∪ U). split; [by eapply core_env; [..|apply (Hst n)]|].
    intros x. rewrite Hp, elem_of_cons. intros [-> |Hx]; [set_solver|]. pose proof (HU x Hx). set_solver.
  - split; [|done]. destruct He. by split.
Qed.

Lemma free_unused s U a :
  core_ok cfg s ∅ U → a ∈ U → core_ok cfg (set_free_blocks_man (fast_mblock_free (free_blocks_man s) a) s) ∅ (U ∖ {[a]}).
Proof. intros [] Ha. split; try done. by apply free_block_pool. Qed.

Lemma reload_del s0 s t l r :
  reload_inv s0 s t l → op_type r = TRUNK_OP_TYPE_DEL_SPACE → place (trunk r) ∈ l → Forall block_ok l →
  ∃ s' t', reload_record env (logged r) t s = Some (inr t', s') ∧
    reload_inv s0 s' t' (filter (λ i, i ≠ place (trunk r)) l).
Proof using Type.
  clear Henv Hsys.
  intros [Ht Hfr Hi Hn Hd (U & Hc & HU) (He & Hb & Htot)] Hop Hin Hl.
  unfold reload_record. cbn [logged op_type trunk]. rewrite Hop.
  change (TRUNK_OP_TYPE_DEL_SPACE =? TRUNK_OP_TYPE_ADD_SPACE) with false.
  change (TRUNK_OP_TYPE_DEL_SPACE =? TRUNK_OP_TYPE_DEL_SPACE) with true. cbv iota zeta. run.
  set (tn := {| n_trunk := with_status FDFS_TRUNK_STATUS_FREE
     {| status := FDFS_TRUNK_STATUS_FREE; path := path (trunk r); file := file (trunk r) |};
     n_pMblockNode := 1; n_next := None |}).
  assert (block_ok (place (trunk r))) as Hblk by (rewrite Forall_forall in Hl; by apply Hl).
  pose proof Hin as Hin'. rewrite <- Hi in Hin'. apply list_elem_of_fmap in Hin' as (d & Ed & Hdin).
  pose proof Ht as [_ [_ _ Hsort]].
  assert (rfind node_rank (node_rank tn) (nodes_of t) = Some d) as Hfind.
  { replace (node_rank tn) with (node_rank d) by (unfold node_rank; by rewrite <- Ed). by apply rfind_elem. }
  destruct (avl_tree_delete_ok node_valid node_rank storage_trunk_node_compare_offset t tn (free_blocks_man s) Ht)
    as (t' & E & Ht' & El & Hf'); [by apply (block_position (place (trunk r)))|].
  unfold delete_code, delete_effect in E. rewrite Hfind, Hfr in E. cbn [call_free] in E.
  rewrite (deref_bind _ _ _ _ E). run.
  pose proof (rdelete_perm node_rank _ _ _ Hsort Hfind) as Hp. rewrite <- El in Hp.
  assert (NoDup (n_trunk <$> nodes_of t)) as Hnd.
  { apply (NoDup_fmap_1 position_rank). rewrite <- list_fmap_compose. by apply (rsorted_NoDup node_rank). }
  assert (∀ n, n ∈ nodes_of t' → n ∈ nodes_of t ∧ n_pMblockNode n ≠ n_pMblockNode d) as Hsub.
  { intros n Hnin. split; [rewrite Hp; by right|]. intros E2. rewrite Hp in Hd. cbn in Hd.
    apply NoDup_cons in Hd as [Hd _]. apply Hd. rewrite <- E2. by apply list_elem_of_fmap_2. }
  eexists _, t'. split; [reflexivity|]. split; [done|congruence| | | | |].
  - rewrite Hp in Hnd, Hi. cbn in Hnd, Hi. apply NoDup_cons in Hnd as [Hnd _]. rewrite Ed in *.
    rewrite <- Hi. rewrite filter_cons_False by tauto. rewrite filter_all; [done|].
    apply Forall_forall. intros i Hin2 ->. done.
  - intros n Hnin. cbn. apply Hn. by apply Hsub.
  - rewrite Hp in Hd. cbn in Hd. by apply NoDup_cons in Hd as [_ Hd].
  - exists (U ∖ {[n_pMblockNode d]}). split; [by apply free_unused; [|apply HU]|].
    intros n Hnin. destruct (Hsub n Hnin) as [H1 H2]. apply HU in H1. set_solver.
  - split; [|done]. destruct He. by split.
Qed.

(** One record of a sound journal. *)
Lemma reload_step s0 s t l l' rs r :
  reload_inv s0 s t l → sound_journal rs l → sound_journal (rs ++ [r]) l' →
  ∃ s' t', reload_record env (logged r) t s = Some (inr t', s') ∧ reload_inv s0 s' t' l'.
Proof using Henv Hsys.
  intros Hinv Hs Hs'. pose proof (sound_journal_blocks _ _ Hs) as Hb.
  destruct (sound_journal_last _ _ _ Hs') as (l0 & Hs0 & [(Hop & Hblk & Hno & ->)|(Hop & Hin & ->)]);
    rewrite <- (sound_journal_fun _ _ _ Hs Hs0) in *.
  - by apply reload_add.
  - by apply reload_del.
Qed.
(** ** The loop *)

Lemma do_line_read_offset n r res line len r' :
  trunk_binlog_do_line_read n r = Some (res, line, len, r') → binlog_offset r' = binlog_offset r.
Proof.
  unfold trunk_binlog_do_line_read. destruct (_ =? 0); [by intros [= _ _ _ <-]|].
  destruct (read_at _ _ _); cbn [mbind option_bind]; [|done].
  destruct (strchr _ _); [|by intros [= _ _ _ <-]].
  destruct (_ <=? _); by intros [= _ _ _ <-].
Qed.

Lemma preread_offset e b r res r' :
  trunk_binlog_preread e b r = Some (res, r') → binlog_offset r' = binlog_offset r.
Proof.
  unfold trunk_binlog_preread. destruct (preread_check _ _) as [[?|[v b']]|]; cbn [mbind option_bind]; [|  |done].
  - by intros [= _ <-].
  - unfold preread_fill. destruct e; [by intros [= _ <-]|]. cbv zeta.
    destruct (_ =? 0); [by intros [= _ <-]|]. destruct (_ || _); [done|]. by intros [= _ <-].
Qed.

Lemma read_offset e b r res rec len r' :
  trunk_binlog_read e b r = Some (res, rec, len, r') → binlog_offset r' = binlog_offset r.
Proof.
  unfold trunk_binlog_read, trunk_binlog_read_line.
  destruct (trunk_binlog_do_line_read _ r) as [[[[x1 x2] x3] r1]|] eqn:E1; cbn [mbind option_bind]; [|done].
  apply do_line_read_offset in E1. destruct (x1 =? ENOENT); cbn [negb].
  - destruct (trunk_binlog_preread e b r1) as [[y1 r2]|] eqn:E2; cbn [mbind option_bind]; [|done].
    apply preread_offset in E2. destruct (y1 =? 0); cbn [negb].
    + destruct (trunk_binlog_do_line_read _ r2) as [[[[z1 z2] z3] r3]|] eqn:E3; cbn [mbind option_bind]; [|done].
      apply do_line_read_offset in E3. cbn [mbind option_bind]. intros H. repeat case_match; simplify_eq; congruence.
    + cbn [mbind option_bind]. intros H. repeat case_match; simplify_eq; congruence.
  - cbn [mbind option_bind]. intros H. repeat case_match; simplify_eq; congruence.
Qed.

Lemma skip_follows pre rs k r n : follows pre rs k r → follows pre rs k (skip_record n r).
Proof. intros []. by split. Qed.

(** The loop reads the rest of the journal. *)
Lemma restore_loop_ok rs s0 l fuel : ∀ k reader t lk s,
  sound_journal rs l → sound_journal (take k rs) lk → reload_inv s0 (mem s) t lk →
  follows [] rs k reader → binlog_file (binlog s0) = lines rs → up_to_date (binlog s0) reader →
  binlog_offset reader = Z.of_nat (length (lines (take k rs))) → (length rs - k < fuel)%nat →
  ∃ s' t', restore_loop cfg env sys fuel (Z.of_nat (length (lines rs))) reader (Some t) s = Some (inr (0, Some t'), s') ∧
    reload_inv s0 (mem s') t' l ∧ same_files s s'.
Proof using Henv Hsys.
  induction fuel as [|fuel IH]; intros k reader t lk s Hs Hk Hinv F Hf Hv Hoff Hfuel; [lia|].
  cbn [restore_loop]. rewrite sys_call_bind, get_bind. cbn [mem set_calls].
  rewrite (sk_ret _ (Hsys _)). change (0 <? 0) with false. cbv iota.
  destruct (ri_env _ _ _ _ Hinv) as (He & Hb & _). rewrite Hb.
  destruct (trunk_binlog_read_spec [] rs k reader (binlog s0) F Hf Hv) as (reader' & Hv' & Hread).
  destruct (rs !! k) as [rec|] eqn:Ek; destruct Hread as [E F'];
    rewrite (deref_bind _ _ _ _ E); cbv beta iota; apply read_offset in E as Eo.
  - change (negb (0 =? 0)) with false. cbv iota. rewrite (deref_bind _ _ _ _ eq_refl).
    assert (take (S k) rs = take k rs ++ [rec]) as Etake by (by apply take_S_r).
    destruct (sound_journal_take rs l (S k) Hs) as [lk' Hk'].
    destruct (reload_step s0 (mem s) t lk lk' (take k rs) rec Hinv Hk) as (m & t' & Er & Hinv'); [by rewrite <- Etake|].
    rewrite (on_mem_bind _ _ (set_calls (S (calls s)) s) _ _ Er). cbv beta iota.
    destruct (IH (S k) (skip_record (Z.of_nat (length (record_line rec))) reader') t' lk'
      (set_mem m (set_calls (S (calls s)) s))) as (s' & t2 & E2 & H1 & H2); try done.
    + by apply skip_follows.
    + cbn. rewrite Eo, Hoff. unfold lines. rewrite Etake, fmap_app, concat_app, length_app. cbn.
      rewrite app_nil_r. lia.
    + pose proof (lookup_lt_Some _ _ _ Ek). lia.
    + exists s', t2. done.
  - change (negb (ENOENT =? 0)) with true. change (ENOENT =? ENOENT) with true. change (0 <? 0) with false. cbv iota.
    apply lookup_ge_None in Ek. assert (take k rs = rs) as Et by (by apply take_ge). rewrite Et in *.
    rewrite (sound_journal_fun _ _ _ Hs Hk) in *. rewrite Eo, Hoff, Z.leb_refl.
    by exists (set_calls (S (calls s)) s), t.
Qed.

(** [trunk_reader_init] at the start of a binlog that is not empty. *)
Lemma trunk_reader_init_ok rs s :
  Forall record_ok rs → rs ≠ [] → binlog_file (binlog (mem s)) = lines rs → write_version (binlog (mem s)) ≠ 0 →
  ∃ k reader, trunk_reader_init sys 0 s = Some ((0, reader), set_calls k s) ∧ follows [] rs 0 reader ∧
    up_to_date (binlog (mem s)) reader ∧ binlog_offset reader = 0.
Proof using Hsys.
  intros Hrs Hne Hf Hv. unfold trunk_reader_init.
  do 3 (rewrite sys_call_bind, (sk_ret _ (Hsys _)); change (0 <? 0) with false; cbv iota zeta).
  rewrite ret_bind, (sk_ret _ (Hsys _)). change (0 <? 0) with false. cbv iota.
  rewrite sys_call_bind, get_bind, (sk_ret _ (Hsys _)). change (0 <? 0) with false. cbv iota.
  set (r0 := {| binlog_buff := _; fd_pos := 0; binlog_offset := 0 |}). cbn [mem set_calls].
  pose proof (reader_start_follows (so_stale (sys (calls s))) [] rs (sk_stale _ (Hsys _)) Hrs) as F.
  change (follows [] rs 0 r0) in F.
  assert (lines rs ≠ []) as Hnil.
  { destruct rs as [|r rs']; [done|]. rewrite lines_cons. by destruct (line_text r). }
  assert (∃ r', trunk_binlog_preread None (binlog (mem s)) r0 = Some (0, r') ∧ follows [] rs 0 r' ∧
    bb_version (binlog_buff r') = 0 ∧ binlog_offset r' = 0) as (r' & E & F' & Hver & Ho).
  { unfold trunk_binlog_preread. destruct (preread_check_spec [] rs 0 r0 (write_version (binlog (mem s))) F ltac:(by left))
      as [(Ev & _)|[[E _]|(Hlt & b' & -> & Hc & Hl & Hver & _ & F')]]; [by destruct Hv|done|].
    cbn [mbind option_bind]. rewrite Hf.
    destruct (preread_fill_spec [] rs 0 (set_buff b' r0) (write_version (binlog (mem s))) F' Hc
      ltac:(unfold set_buff; cbn [binlog_buff]; lia)) as [(Hp & _)|(_ & r' & E & _ & _ & _ & Hver' & Ho & _ & F2)].
    - cbn in Hp. destruct (lines rs); [done|]. cbn in Hp. lia.
    - exists r'. split; [exact E|]. split; [exact F2|]. split; [rewrite Hver'; cbn; by rewrite Hver|rewrite Ho; done]. }
  rewrite (deref_bind _ _ _ _ E). eexists _, r'. split; [reflexivity|]. split; [done|]. split; [|done].
  unfold up_to_date. rewrite Hver. intros E0. by destruct Hv.
Qed.
(** ** Adding the nodes of the tree *)

Lemma free_info_id i : status i = FDFS_TRUNK_STATUS_FREE → free_info i = i.
Proof. intros E. unfold free_info, with_status. rewrite <- E. by destruct i. Qed.

Lemma sound_journal_free rs l : sound_journal rs l → Forall (λ i, status i = FDFS_TRUNK_STATUS_FREE) l.
Proof.
  induction 1 as [|rs l r _ IH _ _ _|rs l r _ IH _ _]; [constructor|by constructor|].
  rewrite Forall_forall in *. intros i [_ Hi]%list_elem_of_filter. by apply IH.
Qed.

(** Between two nodes: the blocks [B] were added, the nodes [ns] wait. *)
Definition adding (s0 : trunk_state) (t0 : Z) (s : trunk_state) (B : list FDFSTrunkFullInfo)
    (ns : list FDFSTrunkNode) : Prop :=
  same_env s0 s ∧ binlog s = binlog s0 ∧
  ∃ M U, core_ok cfg s M U ∧ total_from t0 (g_trunk_total_free_space s) M ∧ B ≡ₚ contents M ∧
    ∀ n, n ∈ ns → nodes s !! n_pMblockNode n = Some n ∧ n_pMblockNode n ∈ U ∧ M !! n_pMblockNode n = None.

Lemma adding_small s0 t0 s B n ns :
  adding s0 t0 s B (n :: ns) → n_pMblockNode n ∉ n_pMblockNode <$> ns →
  adding s0 t0 (set_free_blocks_man (fast_mblock_free (free_blocks_man s) (n_pMblockNode n)) s) B ns.
Proof.
  intros (He & Hb & M & U & Hc & Ht & HB & Hns) Hni. destruct (Hns n) as (_ & HaU & HM); [by left|].
  split; [by destruct He; split|]. split; [done|]. exists M, (U ∖ {[n_pMblockNode n]}).
  split; [|split; [done|split; [done|]]].
  - destruct Hc as [? ? ? ? Hu ? ? ?]. split; try done; [by apply free_block_pool|].
    intros b Hbd. apply elem_of_difference. split; [by apply Hu|]. intros ->%elem_of_singleton.
    by apply elem_of_dom in Hbd as [? ?]; congruence.
  - intros m Hm. destruct (Hns m) as (H1 & H2 & H3); [by right|]. split; [done|]. split; [|done].
    apply elem_of_difference. split; [done|]. intros E%elem_of_singleton. apply Hni. rewrite <- E.
    by apply list_elem_of_fmap_2.
Qed.

Lemma adding_block s0 t0 s B n ns :
  adding s0 t0 s B (n :: ns) → n_pMblockNode n ∉ n_pMblockNode <$> ns →
  block_ok (n_trunk n) → file_exists cfg s0 (n_trunk n) → (∀ j, j ∈ B → ¬ overlap (n_trunk n) j) →
  ∃ s', trunk_add_free_block env (n_pMblockNode n) false s = Some (0, s') ∧ adding s0 t0 s' (n_trunk n :: B) ns.
Proof using Henv Hsys.
  intros (He & Hb & M & U & Hc & Ht & HB & Hns) Hni Hblk Hf Hno. set (a := n_pMblockNode n) in *.
  destruct (Hns n) as (Ha & HaU & HM); [by left|].
  destruct (trunk_add_free_block_gen cfg env Henv false
    (λ t log, total_from t0 t (<[a := n_trunk n]> M) ∧ log = binlog s) s M U a n)
    as [[Ho _]|(_ & s' & p & E & Hc' & [Ht' Hl'] & He' & Hn')]; [done|done|done|done|done|done| | | |].
  - apply (file_exists_env cfg s0); [apply He|done].
  - intros s1 _ Et Eb. eexists _, _, _. split; [apply log_added_load|].
    split; [rewrite Et; by apply total_from_add|done].
  - destruct Ho. apply no_overlap_contents. intros j. rewrite <- HB. apply Hno.
  - exists s'. split; [done|]. split; [by eapply same_env_trans|]. split; [congruence|].
    eexists _, U. split; [exact Hc'|]. split; [done|]. split; [by rewrite contents_insert, HB|].
    intros m Hm. destruct (Hns m) as (H1 & H2 & H3); [by right|].
    assert (n_pMblockNode m ≠ a) by (intros E2; apply Hni; rewrite <- E2; by apply list_elem_of_fmap_2).
    by rewrite Hn', !lookup_insert_ne by done.
Qed.

Lemma add_nodes_ok s0 t0 ns : ∀ s B,
  adding s0 t0 s B ns → NoDup (n_pMblockNode <$> ns) →
  Forall (λ n, block_ok (n_trunk n) ∧ status (n_trunk n) = FDFS_TRUNK_STATUS_FREE ∧ file_exists cfg s0 (n_trunk n)) ns →
  apart ((n_trunk <$> ns) ++ B) →
  ∃ s' B', walk_list_opt (storage_trunk_add_free_blocks_callback cfg env) ns s = Some (0, s') ∧
    loaded cfg s0 t0 s' B' ∧ B' ≡ₚ ((n_trunk <$> ns) ≫= recycled cfg) ++ B.
Proof using Henv Hsys.
  induction ns as [|n ns IH]; intros s B Hadd Hd Hok Hap.
  - exists s, B. split; [done|]. split; [|done]. destruct Hadd as (He & Hb & M & U & Hc & Ht & HB & _).
    split; [done|]. split; [done|]. by exists M, U.
  - cbn in Hd, Hap. apply NoDup_cons in Hd as [Hni Hd]. apply Forall_cons in Hok as [(Hb & Hst & Hf) Hok].
    destruct Hap as [Hapn Hap]. pose proof Hadd as (_ & _ & M & U & _ & _ & _ & Hns).
    destruct (Hns n) as (Ha & _); [by left|].
    cbn [walk_list_opt fmap list_fmap].
    change (storage_trunk_add_free_blocks_callback cfg env n s) with (trunk_add_space_by_node cfg env (n_pMblockNode n) s).
    unfold trunk_add_space_by_node.
    rewrite (node_at_bind _ _ _ _ Ha).
    destruct (Z.ltb_spec (tf_size (file (n_trunk n))) (g_slot_min_size cfg)) as [Hs|Hs].
    + destruct (IH _ B (adding_small _ _ _ _ _ _ Hadd Hni) Hd Hok Hap) as (s' & B' & E & Hl & HB).
      exists s', B'. cbn [mbind list_bind].
      assert (recycled cfg (n_trunk n) = []) as -> by (unfold recycled; by rewrite (proj2 (Z.leb_gt _ _)) by lia).
      split; [exact E|]. done.
    + destruct (adding_block _ _ _ _ _ _ Hadd Hni Hb Hf) as (s1 & E1 & Hadd1).
      { intros j Hj. rewrite Forall_forall in Hapn. apply Hapn, elem_of_app. by right. }
      destruct (IH s1 (n_trunk n :: B) Hadd1 Hd Hok) as (s' & B' & E & Hl & HB).
      { rewrite <- Permutation_middle. done. }
      exists s', B'. rewrite (bind_run _ _ _ _ _ E1). cbn [mbind list_bind].
      assert (recycled cfg (n_trunk n) = [n_trunk n]) as ->.
      { unfold recycled. rewrite (proj2 (Z.leb_le _ _)) by lia. by rewrite free_info_id. }
      split; [exact E|]. split; [done|]. rewrite HB. cbn. by rewrite Permutation_middle.
Qed.

Lemma reload_end_ok s0 t0 s t l :
  reload_inv s0 s t l → total_from t0 (g_trunk_total_free_space s0) ∅ → apart l →
  Forall (λ i, block_ok i ∧ status i = FDFS_TRUNK_STATUS_FREE ∧ file_exists cfg s0 i) l →
  ∃ s' B', reload_end cfg env 0 t s = Some (0, s') ∧ loaded cfg s0 t0 s' B' ∧ B' ≡ₚ l ≫= recycled cfg.
Proof using Henv Hsys.
  intros [Ht Hfr Hi Hn Hd (U & Hc & HU) (He & Hb & Htot)] Ht0 Hap Hok.
  destruct (add_nodes_ok s0 t0 (nodes_of t) s []) as (s' & B' & E & Hl & HB); [|done| | |].
  - split; [done|]. split; [done|]. exists ∅, U. split; [done|]. split; [by rewrite Htot|]. split.
    { unfold contents. by rewrite map_to_list_empty. }
    intros n Hnin. split; [by apply Hn|]. split; [by apply HU|apply lookup_empty].
  - apply Forall_forall. intros n Hnin. rewrite <- Hi in Hok. rewrite Forall_forall in Hok. apply Hok.
    by apply list_elem_of_fmap_2.
  - by rewrite app_nil_r, Hi.
  - exists s', B'. unfold reload_end. change (negb (0 =? 0)) with false. cbv iota. run.
    assert (walk_opt (retype t) (storage_trunk_add_free_blocks_callback cfg env) s = Some (0, s')) as Ew
      by (by rewrite walk_opt_list).
    rewrite (deref_bind _ _ _ _ Ew). run. split; [reflexivity|]. split; [done|]. by rewrite HB, app_nil_r, Hi.
Qed.
(** ** The whole recovery *)

Lemma contents_nil (M : blocks_map) : [] ≡ₚ contents M → M = ∅.
Proof.
  intros H%Permutation_nil_l. apply map_empty. intros a. destruct (M !! a) as [i|] eqn:E; [|done].
  assert (i ∈ contents M) as Hin by (apply elem_of_contents; by exists a). rewrite <- H in Hin.
  by apply not_elem_of_nil in Hin.
Qed.

Lemma loaded_trans s0 t0 s1 s2 t1 B :
  loaded cfg s0 t0 s1 [] → loaded cfg s1 t1 s2 B → t1 = t0 → loaded cfg s0 t0 s2 B.
Proof.
  intros (He & Hb & _) (He' & Hb' & H) ->. split; [by eapply same_env_trans|]. split; [congruence|done].
Qed.

Lemma storage_trunk_restore_ok rs l s0 t0 s :
  loaded cfg s0 t0 (mem s) [] → sound_journal rs l → Forall record_ok rs →
  binlog_file (binlog (mem s)) = lines rs → write_version (binlog (mem s)) ≠ 0 →
  Z.of_nat (length (lines rs)) ≤ LONG_MAX → apart l → Forall (file_exists cfg (mem s)) l →
  ∃ s' B', storage_trunk_restore cfg env sys 0 s = Some (0, s') ∧ loaded cfg s0 t0 (mem s') B' ∧
    B' ≡ₚ l ≫= recycled cfg.
Proof using Henv Hsys.
  intros Hl Hs Hrs Hf Hv Hmax Hap Hfiles.
  unfold storage_trunk_restore, storage_trunk_get_binlog_size. rewrite bind_assoc, sys_call_bind.
  rewrite (sk_ret _ (Hsys _)). run. change (0 =? 0) with true. cbv iota. cbn [mem set_calls]. rewrite Hf.
  rewrite (proj2 (Z.ltb_ge _ 0)) by lia.
  destruct (decide (rs = [])) as [->|Hne].
  { assert (l = []) as -> by (apply sound_replay in Hs; done). exists (set_calls (S (calls s)) s), []. done. }
  assert (lines rs ≠ []) as Hnil.
  { destruct rs as [|r rs']; [done|]. rewrite lines_cons. by destruct (line_text r). }
  assert (0 < Z.of_nat (length (lines rs))) by (destruct (lines rs); [done|cbn; lia]).
  rewrite (proj2 (Z.eqb_neq 0 _)) by lia.
  destruct (trunk_reader_init_ok rs (set_calls (S (calls s)) s) Hrs Hne Hf Hv) as (k & reader & E & F & Hup & Ho).
  rewrite (bind_run _ _ _ _ _ E). change (c_true 0) with false. cbv iota.
  pose proof Hl as (He0 & Hb0 & M & U & Hc & Ht & HM). apply contents_nil in HM as ->.
  assert (length rs ≤ length (lines rs))%nat as Hlen.
  { clear. induction rs as [|r rs IH]; [done|]. rewrite lines_cons, length_app. cbn. lia. }
  set (t := avl_tree_init _ _).
  destruct (avl_tree_init_ok (W := fast_mblock_man) node_valid node_rank storage_trunk_node_compare_offset (Some storage_trunk_free_node)) as [Hok _].
  destruct (restore_loop_ok rs (mem s) l (S (Z.to_nat (Z.of_nat (length (lines rs))))) 0 reader t []
    (set_calls k (set_calls (S (calls s)) s))) as (s2 & t2 & E2 & Hinv & Hfs); try done.
  { constructor. }
  { split; try done; cbn; [by intros n ?%not_elem_of_nil|constructor|]. exists U. split; [done|].
    by intros n ?%not_elem_of_nil. }
  { lia. }
  rewrite (bind_run _ _ _ _ _ E2), sys_call_bind.
  destruct (reload_end_ok (mem s) t0 (mem s2) t2 l Hinv) as (m3 & B' & E3 & Hl3 & HB); [done|done| |].
  { apply Forall_forall. intros i Hi. pose proof (sound_journal_blocks _ _ Hs) as H1.
    pose proof (sound_journal_free _ _ Hs) as H2. rewrite Forall_forall in H1, H2, Hfiles. auto. }
  rewrite (on_mem_bind _ _ (set_calls (S (calls s2)) s2) _ _ E3). change (0 =? 0) with true. cbv iota.
  pose proof Hl3 as (He3 & Hb3 & M3 & U3 & Hc3 & _).
  destruct (storage_trunk_save_ok cfg sys Hsys (set_mem m3 (set_calls (S (calls s2)) s2)) M3 U3) as (k4 & l4 & E4 & _);
    [done|cbn; rewrite Hb3, Hf; lia|].
  eexists _, B'. split; [exact E4|]. split; [|done]. exact (loaded_trans _ _ _ _ _ _ Hl Hl3 eq_refl).
Qed.

Lemma apart_places (B l : list FDFSTrunkFullInfo) : apart B → l ≡ₚ place <$> B → apart l.
Proof.
  intros HB ->. induction B as [|i B IH]; [done|]. destruct HB as [Hi HB]. split; [|by apply IH].
  apply Forall_fmap. eapply Forall_impl; [exact Hi|]. done.
Qed.

Lemma recycled_places (B : list FDFSTrunkFullInfo) : (place <$> B) ≫= recycled cfg = B ≫= recycled cfg.
Proof. induction B as [|i B IH]; [done|]. cbn. by rewrite IH. Qed.
End recovery.

(** * Properties *)

(** A process that was not started yet and finds what [m0] left: its trunk
    files and, in the file of the binlog, everything it logged. *)
Record left_by (m0 m : trunk_state) : Prop := {
  lb_flag : trunk_init_flag m = STORAGE_TRUNK_INIT_FLAG_NONE;
  lb_total : is_int64 (g_trunk_total_free_space m);
  lb_files : trunk_files m = trunk_files m0;
  lb_log : binlog_file (binlog m) = whole_log (binlog m0);
  lb_size : Z.of_nat (length (whole_log (binlog m0))) ≤ LONG_MAX;
  lb_version : write_version (binlog m) ≠ 0;
}.

(** C3 Recovery from the binlog.  When everything a trunk server logged has
    reached the file, a new process that starts from that file alone
    ([g_trunk_init_reload_from_binlog], which deletes the data file) replays
    the records and holds the same blocks, free, without those that are
    too small; the total is the sum of their sizes on top of what the
    counter held. *)
Theorem storage_trunk_recover cfg lcfg env sys m0 B s :
  (∀ n, outcome_ok (env n)) → (∀ n, sys_ok (sys n)) → g_if_trunker_self cfg = true →
  g_trunk_init_reload_from_binlog lcfg = true → represents cfg m0 B → left_by m0 (mem s) →
  ∃ s', storage_trunk_init cfg lcfg env sys s = Some (0, s') ∧
    trunk_init_flag (mem s') = STORAGE_TRUNK_INIT_FLAG_DONE ∧ holds cfg (mem s') (B ≫= recycled cfg) ∧
    g_trunk_total_free_space (mem s')
    = s64 (g_trunk_total_free_space (mem s) + sizes (B ≫= recycled cfg)).
Proof.
  intros Henv Hsys Hself Hrel Hr [Hflag Htot Hfiles Hlog Hmax Hv].
  destruct (storage_trunk_init_run cfg env sys Hsys Hself lcfg s Hflag Htot) as (s1 & _ & Hl1 & E1).
  pose proof Hr as (_ & M & U & Hc & [_ (_ & rs & l & Hrs & Hw & Hj & Hp)] & HB).
  assert (l ≡ₚ place <$> B) as HlB by (rewrite Hp; unfold places; by rewrite HB).
  destruct (represents_addable cfg m0 (mem s1) B Hr) with (l := B) as [Hadd Hap]; [|done|].
  { destruct Hl1 as ([_ _ _ ->] & _). exact Hfiles. }
  assert (binlog (mem s1) = binlog (mem s)) as Hb1 by (destruct Hl1 as (_ & -> & _); done).
  assert (∃ s2, storage_trunk_load cfg lcfg env sys s1 = storage_trunk_restore cfg env sys 0 s2 ∧ mem s2 = mem s1)
    as (s2 & E2 & Em).
  { unfold storage_trunk_load. rewrite Hrel, sys_call_bind, get_bind, (sk_ret _ (Hsys _)).
    change (0 =? 0) with true. cbn [negb andb]. change (negb (0 =? 0)) with false. cbn [andb].
    rewrite modify_bind. by eexists. }
  destruct (storage_trunk_restore_ok cfg env sys Henv Hsys rs l (mem s) (g_trunk_total_free_space (mem s)) s2)
    as (s3 & B' & E3 & Hl3 & HB'); rewrite ?Em, ?Hb1, ?Hlog; try done; [by rewrite <- Hw|by apply apart_places with (B := B)| |].
  { apply Forall_forall. intros i Hi. rewrite HlB in Hi. apply list_elem_of_fmap in Hi as (j & -> & Hj2).
    rewrite Forall_forall in Hadd. destruct (Hadd j Hj2) as (_ & _ & _ & Hf). by apply (file_exists_place cfg _ j). }
  rewrite E1, (bind_run _ _ s1 0 s3) by (by rewrite E2). change (negb (0 =? 0)) with false. cbv iota.
  rewrite (on_mem_bind _ _ _ _ _ eq_refl). eexists. split; [reflexivity|]. split; [done|].
  destruct (loaded_holds _ _ _ _ _ (B ≫= recycled cfg) Hl3) as [H1 H2].
  { rewrite HB', HlB. by rewrite recycled_places. }
  split; [by apply holds_flag|exact H2].
Qed.

(** A new process that finds the files of [m]. *)
Definition sample_restarted (m : trunk_state) : trunk_server :=
  sample_server (set_binlog {| write_cache := []; write_version := 1; binlog_file := whole_log (binlog m) |}
    (set_trunk_files (trunk_files m) sample_stopped)).
Definition sample_reload : load_config :=
  {| g_trunk_init_check_occupying := false; g_trunk_init_reload_from_binlog := true |}.

Lemma storage_trunk_recover_witness :
  ∃ resps m B, serve_all sample_cfg sample_env sample_requests sample_state = Some (resps, m) ∧
    spec_run sample_cfg [] sample_requests resps B ∧
    ∃ s', storage_trunk_init sample_cfg sample_reload sample_env sample_sys (sample_restarted m) = Some (0, s') ∧
      holds sample_cfg (mem s') (B ≫= recycled sample_cfg) ∧
      g_trunk_total_free_space (mem s') = s64 (sizes (B ≫= recycled sample_cfg)).
Proof.
  destruct (serve_all_refines sample_cfg sample_env sample_env_ok ltac:(split; vm_compute; done) eq_refl
    sample_requests sample_state [] sample_represents sample_admissible) as (ps & m & B & E & Hrun & Hr).
  exists ps, m, B. split; [exact E|]. split; [exact Hrun|].
  destruct (storage_trunk_recover sample_cfg sample_reload sample_env sample_sys m B (sample_restarted m))
    as (s' & E' & _ & Hh & Ht).
  - exact sample_env_ok.
  - exact sample_sys_ok.
  - reflexivity.
  - reflexivity.
  - exact Hr.
  - split.
    + reflexivity.
    + split; vm_compute; done.
    + reflexivity.
    + reflexivity.
    + pose proof (serve_result _ _ _ _ (λ s, Z.of_nat (length (whole_log (binlog s)))) E) as El. cbv beta in El.
      rewrite El. clear. by vm_compute.
    + clear. discriminate.
  - exists s'. split; [exact E'|]. split; [exact Hh|exact Ht].
Defined.
