(* ===== verification/BinlogSync.v ===== *)
(** * Replication of the trunk binlog

    The loop of the sync thread of the trunk server ([trunk_sync_data] after
    [trunk_binlog_preread]) against the handler of the replica that appends
    what it receives to its own binlog. *)

From S2P Require Import Prelude CLib SharedFunc TrunkShared TrunkBinlog BinlogReader.
From stdpp Require Import strings.
#[local] Open Scope Z_scope.

(** ** The loop *)

Section rounds.
(** The outcomes of the flushes of the replica. *)
Context (o1 o2 o3 : io_outcome).

(** One iteration of the loop of [trunk_sync_thread_entrance] over a
    connection that works: the answer of the replica is the result of its
    handler.  The result is that of [trunk_binlog_preread] or, when there
    was something to send, that of [trunk_sync_data]. *)
Definition sync_round (master : trunk_binlog) (st : TrunkBinLogReader * trunk_binlog)
    : option (Z * (TrunkBinLogReader * trunk_binlog)) :=
  let '(r, replica) := st in
  '(read_result, r) ← trunk_binlog_preread None master r;
  if negb (read_result =? 0) then Some (read_result, (r, replica))
  else
    '(_, sent, _) ← trunk_sync_data 0 0 0 r;
    match sent with
    | None => '(sync_result, _, r) ← trunk_sync_data 0 0 0 r; Some (sync_result, (r, replica))
    | Some buff =>
        '(response, replica) ← storage_server_trunk_sync_binlog true false o1 o2 o3 buff replica;
        '(sync_result, _, r) ← trunk_sync_data 0 0 response r;
        Some (sync_result, (r, replica))
    end.

Fixpoint sync_rounds (n : nat) (master : trunk_binlog) (st : TrunkBinLogReader * trunk_binlog)
    : option (list Z * (TrunkBinLogReader * trunk_binlog)) :=
  match n with
  | O => Some ([], st)
  | S n =>
      '(result, st) ← sync_round master st;
      '(results, st) ← sync_rounds n master st;
      Some (result :: results, st)
  end.
End rounds.

(** * Lemmas *)

(** ** The part of the buffer that is sent *)

Lemma split_lines rs c unread :
  Forall record_ok rs → c ++ unread = lines rs →
  ∃ j c', c = lines (take j rs) ++ c' ∧ CH_LF ∉ c' ∧ c' ++ unread = lines (drop j rs) ∧ (j ≤ length rs)%nat.
Proof.
  intros Hrs. revert c. induction Hrs as [|r rs Hr Hrs IH]; intros c E.
  - apply app_eq_nil in E as [-> ->]. exists O, []. split_and!; try done. apply not_elem_of_nil.
  - rewrite lines_cons in E. destruct (first_line _ _ _ _ Hr E) as [(c' & Ec & Eu)|[Hlf _]].
    + destruct (IH c' Eu) as (j & c'' & -> & Hlf & Ed & Hj). exists (S j), c''.
      split_and!; [|done|done|cbn; lia]. cbn [take]. rewrite lines_cons, Ec, <- app_assoc. done.
    + exists O, c. split_and!; [done|done| |lia]. cbn [drop]. by rewrite lines_cons.
Qed.

Lemma last_line_end_app a c : CH_LF ∉ c → last_line_end (a ++ CH_LF :: c) = length a.
Proof.
  intros Hc. unfold last_line_end. rewrite reverse_app, reverse_cons, <- app_assoc. cbn [app].
  rewrite (proj2 (strchr_Some _ CH_LF (CH_LF :: reverse a))).
  - cbn. rewrite length_reverse. lia.
  - exists (reverse c), (reverse a). split_and!; [done| |done]. by rewrite elem_of_reverse.
Qed.

Lemma last_line_end_none c : CH_LF ∉ c → last_line_end c = O.
Proof.
  intros Hc. unfold last_line_end. rewrite (proj2 (strchr_None _ _)); [done|]. by rewrite elem_of_reverse.
Qed.

Lemma lines_snoc rs : rs ≠ [] → ∃ a, lines rs = a ++ [CH_LF] ∧ (0 < length a)%nat.
Proof.
  induction rs as [|r rs _] using rev_ind; [done|]. intros _. rewrite lines_app.
  exists (lines rs ++ line_text r). unfold lines at 2. cbn. rewrite app_nil_r, record_line_text, app_assoc.
  split; [done|]. rewrite length_app. unfold line_text. rewrite !length_app. cbn. lia.
Qed.

Lemma lines_no_lf_tail m a c : lines m = lines a ++ c → CH_LF ∉ c → c = [].
Proof.
  intros E Hc. destruct (decide (m = [])) as [->|Hm].
  { symmetry in E. by apply app_eq_nil in E as [_ ?]. }
  destruct (lines_snoc m Hm) as (x & Ex & _). rewrite Ex in E.
  destruct c as [|y c _] using rev_ind; [done|]. rewrite app_assoc in E.
  apply app_inj_tail in E as [_ <-]. exfalso. apply Hc. apply elem_of_app. right. by left.
Qed.

Lemma drop_drop_add {A} (l : list A) i j : drop j (drop i l) = drop (i + j) l.
Proof. by rewrite drop_drop. Qed.

(** What [trunk_sync_data] sends: the whole lines of the buffer. *)
Lemma trunk_sync_data_spec pre rs k r :
  follows pre rs k r → bb_current (binlog_buff r) = 0 → CH_LF ∈ content (binlog_buff r) →
  ∃ j r', (0 < j)%nat ∧ (k + j ≤ length rs)%nat ∧
    (∀ response, trunk_sync_data 0 0 response r
       = Some (response, Some (lines (take j (drop k rs))), if response =? 0 then r' else r)) ∧
    Z.of_nat (length (lines (take j (drop k rs)))) ≤ TRUNK_BINLOG_BUFFER_SIZE ∧
    follows pre rs (k + j) r' ∧ fd_pos r' = fd_pos r ∧
    binlog_offset r' = binlog_offset r + Z.of_nat (length (lines (take j (drop k rs)))) ∧
    bb_version (binlog_buff r') = bb_version (binlog_buff r) ∧
    CH_LF ∉ content (binlog_buff r') ∧ bb_length (binlog_buff r') < 86.
Proof.
  intros F Hcur Hin. pose proof (fo_buffer _ _ _ _ F) as Hb.
  pose proof (content_length _ Hb) as Hl. pose proof (content_read _ Hb) as Hread.
  pose proof F as [_ Hk Hrs Hp [unread Eu] Hm].
  destruct (split_lines (drop k rs) _ unread ltac:(by apply Forall_drop) Eu) as (j & c & Ec & Hlf & Eu' & Hj).
  set (m := take j (drop k rs)) in *. rewrite length_drop in Hj.
  assert (m ≠ []) as Hne by (intros E; rewrite E in Ec; cbn in Ec; by rewrite Ec in Hin).
  destruct (lines_snoc m Hne) as (a & Ea & Ha).
  assert (length (lines m) = S (length a)) as Hla by (rewrite Ea, length_app; cbn; lia).
  assert (last_line_end (content (binlog_buff r)) = length a) as Hend.
  { rewrite Ec, Ea, <- app_assoc. by apply last_line_end_app. }
  rewrite Ec, length_app in Hl. set (b := binlog_buff r) in *.
  set (b' := {| bb_buffer := bb_buffer b;
    bb_current := if 0 <? bb_length b - Z.of_nat (length (lines m)) then Z.of_nat (length (lines m)) else bb_current b;
    bb_length := bb_length b - Z.of_nat (length (lines m)); bb_version := bb_version b |}).
  set (r' := {| binlog_buff := b'; fd_pos := fd_pos r;
                binlog_offset := binlog_offset r + Z.of_nat (length (lines m)) |}).
  assert (content b' = c) as Ec'.
  { unfold b', content. cbn. destruct (Z.ltb_spec 0 (bb_length b - Z.of_nat (length (lines m)))).
    - unfold content in Ec. rewrite Hcur in Ec. change (Z.to_nat 0) with O in Ec. rewrite drop_0 in Ec.
      rewrite Nat2Z.id. replace (Z.to_nat (bb_length b - Z.of_nat (length (lines m)))) with
        (Z.to_nat (bb_length b) - length (lines m))%nat by lia.
      rewrite <- skipn_firstn_comm, Ec. by apply drop_app_length.
    - replace (Z.to_nat _) with O by lia. symmetry. apply length_zero_iff_nil. lia. }
  destruct Hb as [Hb1 Hb2 Hb3 Hb4].
  assert (buffer_ok b') as Hb'.
  { split; unfold b'; cbn; destruct (Z.ltb_spec 0 (bb_length b - Z.of_nat (length (lines m)))); lia. }
  assert (follows pre rs (k + j) r') as F'.
  { split; try done; cbn; [lia| | |].
    - rewrite Hp. fold b. rewrite <- take_take_drop, lines_app, length_app. fold m. lia.
    - exists unread. rewrite Ec', Eu'. by rewrite drop_drop_add.
    - destruct Hm as [Hm|[(m' & Hm' & Em)|[_ Hm]]].
      + fold b in Hm. destruct (Z.ltb_spec 0 (bb_length b - Z.of_nat (length (lines m)))) as [Hpos|Hpos].
        * left. unfold b'. cbn. lia.
        * right; left. exists []. split; [constructor|]. rewrite Ec'. apply length_zero_iff_nil. lia.
      + right; left. exists []. split; [constructor|]. rewrite Ec'. fold b in Em. rewrite Ec in Em.
        symmetry in Em. by eapply lines_no_lf_tail.
      + done. }
  exists j, r'. split_and!; try done.
  - destruct j; [|lia]. by unfold m in Hne.
  - lia.
  - intros response. unfold trunk_sync_data. fold b. rewrite (proj2 (Z.leb_gt _ _)) by lia.
    rewrite Hcur in Hread. rewrite Hread. cbn [mbind option_bind]. rewrite Hend.
    rewrite (proj2 (Z.eqb_neq (Z.of_nat (length a)) 0)) by lia. cbn [Z.eqb negb].
    replace (Z.to_nat (Z.of_nat (length a) + 1)) with (length (lines m)) by lia.
    rewrite Ec, take_app_length. replace (Z.of_nat (length a) + 1) with (Z.of_nat (length (lines m))) by lia.
    destruct (Z.eqb_spec response 0) as [->|]; done.
  - fold m. lia.
  - cbn. by rewrite Ec'.
  - destruct (follows_first _ _ _ _ F') as [(rec & c2 & un & _ & Er & _)|[_ ?]]; [|done].
    exfalso. apply Hlf. cbn in Er. rewrite <- Ec', Er. apply lf_in_line.
Qed.

(** ** The replica *)

(** The handler appends what it received to the replica's log. *)
Lemma storage_server_trunk_sync_binlog_ok o1 o2 o3 buff s :
  io_ok o1 → io_ok o2 → io_ok o3 →
  0 < Z.of_nat (length buff) ≤ TRUNK_BINLOG_BUFFER_SIZE →
  trunk_binlog_write_cache_len s ≤ TRUNK_BINLOG_BUFFER_SIZE →
  ∃ s', storage_server_trunk_sync_binlog true false o1 o2 o3 buff s = Some (0, s') ∧
    whole_log s' = whole_log s ++ buff ∧ trunk_binlog_write_cache_len s' ≤ TRUNK_BINLOG_BUFFER_SIZE.
Proof.
  intros H1 H2 H3 Hl Hs. unfold storage_server_trunk_sync_binlog.
  rewrite (proj2 (Z.eqb_neq _ 0)) by lia. cbn [negb].
  unfold TRUNK_BINLOG_BUFFER_SIZE in *. rewrite s32_id by (unfold is_int32; lia).
  unfold trunk_binlog_write_buffer.
  assert (∃ s1, (if TRUNK_BINLOG_BUFFER_SIZE - (trunk_binlog_write_cache_len s + Z.of_nat (length buff)) <? 128
                 then trunk_binlog_fsync o1 s else (0, s)) = (0, s1) ∧ whole_log s1 = whole_log s ∧
            trunk_binlog_write_cache_len s1 + Z.of_nat (length buff) ≤ TRUNK_BINLOG_BUFFER_SIZE) as (s1 & E1 & Hw1 & Hl1).
  { unfold TRUNK_BINLOG_BUFFER_SIZE. destruct (Z.ltb_spec (8 * 1024 - (trunk_binlog_write_cache_len s + Z.of_nat (length buff))) 128).
    - rewrite trunk_binlog_fsync_ok by done. eexists. split; [done|]. unfold whole_log. cbn.
      rewrite app_nil_r. split; [done|]. unfold trunk_binlog_write_cache_len. cbn. lia.
    - exists s. split_and!; [done..|lia]. }
  unfold TRUNK_BINLOG_BUFFER_SIZE in *. rewrite E1. cbn [Z.eqb].
  destruct (Z.leb_spec (8 * 1024) (Z.of_nat (length buff))).
  - assert (write_cache s1 = []) as Hc.
    { unfold trunk_binlog_write_cache_len in Hl1. apply length_zero_iff_nil. lia. }
    assert (trunk_binlog_write_cache_len s1 = 0) as Hc0 by (unfold trunk_binlog_write_cache_len; by rewrite Hc).
    rewrite Hc0. cbn [Z.ltb Z.compare Z.eqb].
    unfold trunk_binlog_fsync_ex. rewrite fsync_write_ok by (done || unfold TRUNK_BINLOG_BUFFER_SIZE; lia).
    unfold fsync_commit. cbn. eexists. split; [done|]. unfold whole_log, trunk_binlog_write_cache_len in *. cbn.
    rewrite <- Hw1, Hc, !app_nil_r. split; [done|]. cbn. lia.
  - rewrite read_at_take by lia. cbn [mbind option_bind]. rewrite (proj2 (Z.ltb_ge _ _)) by lia.
    change (Z.to_nat 0) with O. rewrite drop_0, Nat2Z.id, firstn_all. eexists. split; [done|].
    unfold whole_log, trunk_binlog_write_cache_len in *. cbn. rewrite length_app, app_assoc, Hw1. split; [done|lia].
Qed.

(** ** One round *)

Record synced (pre : list Z) (rs : list TrunkBinLogRecord) (log0 : list Z) (k : nat)
    (st : TrunkBinLogReader * trunk_binlog) : Prop := {
  sy_follows : follows pre rs k st.1;
  sy_front : bb_current (binlog_buff st.1) = 0 ∨
             (CH_LF ∉ content (binlog_buff st.1) ∧ bb_length (binlog_buff st.1) < 86);
  sy_offset : binlog_offset st.1 = Z.of_nat (length (pre ++ lines (take k rs)));
  sy_log : whole_log st.2 = log0 ++ lines (take k rs);
  sy_cache : trunk_binlog_write_cache_len st.2 ≤ TRUNK_BINLOG_BUFFER_SIZE;
}.

(** There is something a round can send. *)
Definition pending (master : trunk_binlog) (r : TrunkBinLogReader) : Prop :=
  bb_length (binlog_buff r) = TRUNK_BINLOG_BUFFER_SIZE ∨ fd_pos r < Z.of_nat (length (binlog_file master)).

Section round_lemmas.
Context (o1 o2 o3 : io_outcome) (Ho1 : io_ok o1) (Ho2 : io_ok o2) (Ho3 : io_ok o3).
Context (pre : list Z) (rs : list TrunkBinLogRecord) (log0 : list Z) (master : trunk_binlog).
Context (Hfile : binlog_file master = pre ++ lines rs).

Lemma follows_end k r :
  follows pre rs k r → fd_pos r = Z.of_nat (length (binlog_file master)) →
  CH_LF ∉ content (binlog_buff r) → k = length rs.
Proof.
  intros F Hp Hlf. destruct (follows_file _ _ _ _ F) as (unread & Eu & _ & Elen).
  rewrite <- Hfile in Elen. assert (unread = []) as -> by (apply length_zero_iff_nil; lia).
  rewrite app_nil_r in Eu. pose proof (fo_count _ _ _ _ F).
  destruct (rs !! k) as [rec|] eqn:Ek; [|apply lookup_ge_None in Ek; lia].
  exfalso. apply Hlf. rewrite Eu, (lines_drop _ _ _ Ek). apply lf_in_line.
Qed.

Lemma follows_pos k r : follows pre rs k r → fd_pos r ≤ Z.of_nat (length (binlog_file master)).
Proof.
  intros F. destruct (follows_file _ _ _ _ F) as (unread & _ & _ & Elen). rewrite Hfile. lia.
Qed.

Definition data_round (master : trunk_binlog) (r : TrunkBinLogReader) (replica : trunk_binlog) :=
  '(_, sent, _) ← trunk_sync_data 0 0 0 r;
  match sent with
  | None => '(sync_result, _, r) ← trunk_sync_data 0 0 0 r; Some (sync_result, (r, replica))
  | Some buff =>
      '(response, replica) ← storage_server_trunk_sync_binlog true false o1 o2 o3 buff replica;
      '(sync_result, _, r) ← trunk_sync_data 0 0 response r;
      Some (sync_result, (r, replica))
  end.

(** Sending the lines at the front of the buffer. *)
Lemma data_round_spec k r replica :
  synced pre rs log0 k (r, replica) → bb_current (binlog_buff r) = 0 → CH_LF ∈ content (binlog_buff r) →
  ∃ k' st', data_round master r replica = Some (0, st') ∧ synced pre rs log0 k' st' ∧
    (k < k')%nat ∧ fd_pos st'.1 = fd_pos r ∧
    bb_version (binlog_buff st'.1) = bb_version (binlog_buff r) ∧ CH_LF ∉ content (binlog_buff st'.1).
Proof.
  intros [F _ Ho Hlog Hc] Hcur Hin. cbn [fst snd] in *.
  destruct (trunk_sync_data_spec _ _ _ _ F Hcur Hin)
    as (j & r' & Hj & Hkj & Esend & Hlen & F' & Hp & Ho' & Hv & Hlf & Hl).
  destruct (storage_server_trunk_sync_binlog_ok o1 o2 o3 (lines (take j (drop k rs))) replica)
    as (rep' & Erep & Hw & Hc'); [done..| |done|].
  { split; [|done]. destruct (take j (drop k rs)) as [|rec m] eqn:E.
    - apply (f_equal length) in E. rewrite length_take, length_drop in E. cbn in E. lia.
    - rewrite lines_cons, length_app. cbn. lia. }
  exists (k + j)%nat, (r', rep'). unfold data_round. rewrite Esend. cbn [mbind option_bind].
  rewrite Erep. cbn [mbind option_bind]. rewrite Esend. cbn [mbind option_bind Z.eqb].
  split; [done|]. split; [|split_and!; [lia|done..]].
  split; cbn [fst snd]; try done; [by right| |].
  - rewrite Ho', Ho, <- take_take_drop, lines_app, !length_app. lia.
  - by rewrite Hw, Hlog, <- take_take_drop, lines_app, app_assoc.
Qed.

(** A round does nothing but record the version when there is nothing
    pending; otherwise it sends a line at least. *)
Lemma sync_round_spec k r replica :
  synced pre rs log0 k (r, replica) → up_to_date master r →
  ∃ result k' st', sync_round o1 o2 o3 master (r, replica) = Some (result, st') ∧
    synced pre rs log0 k' st' ∧ up_to_date master st'.1 ∧
    ((pending master r ∧ result = 0 ∧ (k < k')%nat ∧
        (fd_pos st'.1 = Z.of_nat (length (binlog_file master)) → k' = length rs)) ∨
     (¬ pending master r ∧ result = ENOENT ∧ k' = k ∧ st'.2 = replica ∧
        ¬ pending master st'.1)).
Proof.
  intros S Hu. pose proof S as [F Hfront Ho Hlog Hc]. cbn [fst snd] in *.
  pose proof (follows_pos _ _ F) as Hpos. pose proof (fo_buffer _ _ _ _ F) as [B1 B2 B3 B4].
  unfold sync_round, trunk_binlog_preread.
  destruct (preread_check_spec _ _ _ _ (write_version master) F Hfront)
    as [(Ev & E0 & ->)|[[Efull ->]|(Hlt & b' & -> & Hcur & Hl' & Hver & Hcon & F')]].
  - exists ENOENT, k, (r, replica). split_and!; try done. right.
    cbn [fst snd]. assert (¬ pending master r) as Hn; [|split_and!; first [exact Hn|done]].
    unfold pending, TRUNK_BINLOG_BUFFER_SIZE. rewrite (Hu Ev). lia.
  - assert (CH_LF ∈ content (binlog_buff r)) as Hin.
    { destruct (follows_first _ _ _ _ F) as [(rec & c & un & _ & -> & _)|[_ ?]]; [apply lf_in_line|].
      unfold TRUNK_BINLOG_BUFFER_SIZE in *. lia. }
    destruct (data_round_spec k r replica S) as (k' & st' & E & S' & Hk & Hp & Hv & Hlf); [lia|done|].
    exists 0, k', st'. cbn [mbind option_bind]. split; [exact E|]. split; [done|].
    split; [unfold up_to_date; rewrite Hp, Hv; exact Hu|].
    left. split_and!; [by left|done|done|]. intros Hend. eapply follows_end; [apply (sy_follows _ _ _ _ _ S')|exact Hend|exact Hlf].
  - cbn [mbind option_bind]. rewrite Hfile.
    destruct (preread_fill_spec _ _ _ _ (write_version master) F' Hcur ltac:(cbn; lia))
      as [(Hp & b'' & -> & Hcur'' & Hl'' & Hcon'' & Hver'' & F'')|(Hp & r' & -> & Hcur' & _ & _ & Hver' & Ho' & Hin & F'')];
      cbn [mbind option_bind set_buff fd_pos binlog_buff binlog_offset] in *; rewrite <- Hfile in Hp.
    + exists ENOENT, k, (set_buff b'' (set_buff b' r), replica). split; [done|].
      split; [split; try done; by left|]. split; [by intros _|].
      right. unfold pending. cbn [set_buff binlog_buff fd_pos fst]. split_and!; try done; lia.
    + assert (synced pre rs log0 k (r', replica)) as S'.
      { split; cbn [fst snd]; try done; [by left|]. by rewrite Ho'. }
      destruct (data_round_spec k r' replica S' Hcur' Hin) as (k' & st' & E & S2 & Hk & Hp2 & Hv2 & Hlf).
      exists 0, k', st'. split; [exact E|]. split; [done|]. split.
      { unfold up_to_date. rewrite Hv2, Hver', Hver. intros Ev. apply Hu in Ev. lia. }
      left. split_and!; [by right|done|done|]. intros Hend. rewrite <- Hfile in Hend.
      eapply follows_end; [apply (sy_follows _ _ _ _ _ S2)|exact Hend|exact Hlf].
Qed.

(** Any number of rounds. *)
Lemma sync_rounds_spec n k r replica :
  synced pre rs log0 k (r, replica) → up_to_date master r →
  ∃ results k' st', sync_rounds o1 o2 o3 n master (r, replica) = Some (results, st') ∧
    synced pre rs log0 k' st' ∧
    (¬ pending master r → results = replicate n ENOENT ∧ st'.2 = replica ∧ k' = k) ∧
    (pending master r ∨ k = length rs → (length rs - k ≤ n)%nat → k' = length rs).
Proof.
  revert k r replica. induction n as [|n IH]; intros k r replica S Hu.
  - exists [], k, (r, replica). split_and!; try done. intros _ H.
    pose proof (fo_count _ _ _ _ (sy_follows _ _ _ _ _ S)). lia.
  - destruct (sync_round_spec k r replica S Hu) as (result & k1 & [r1 rep1] & E & S1 & Hu1 & Hcase).
    destruct (IH k1 r1 rep1 S1 Hu1) as (results & k2 & st2 & E2 & S2 & Hnp & Hp).
    exists (result :: results), k2, st2. cbn [sync_rounds]. rewrite E. cbn [mbind option_bind].
    rewrite E2. split; [done|]. split; [done|]. cbn [fst snd] in *.
    pose proof (fo_count _ _ _ _ (sy_follows _ _ _ _ _ S1)) as Hk1. cbn [fst] in Hk1.
    destruct Hcase as [(Hpend & -> & Hk & Hend)|(Hpend & -> & -> & -> & Hpend1)].
    + split; [done|]. intros _ Hn. apply Hp; [|lia].
      destruct (decide (fd_pos r1 = Z.of_nat (length (binlog_file master)))) as [Ee|Ee]; [right; auto|left; right].
      pose proof (follows_pos _ _ (sy_follows _ _ _ _ _ S1)). cbn [fst] in *. lia.
    + split.
      * intros _. destruct (Hnp Hpend1) as (-> & ? & ?). done.
      * intros [?|Hk] Hn; [done|]. apply Hp; [by right|lia].
Qed.
End round_lemmas.

(** C13 Replication of the trunk binlog.  A sync thread opens the binlog at
    its offset, fills its buffer once ([trunk_reader_init]) and then loops.
    Whatever the number of rounds, the log of the replica is its old log
    followed by the first lines of the unsent part, each once and in order,
    and the saved offset is just behind them.  When 8 KB or more were unsent
    and there are as many rounds as lines, the replica has them all.  When
    less was unsent, nothing is ever sent: every round finds the end of the
    file and ends before it looks at the buffer that was filled at the
    start (until the binlog grows). *)
Theorem trunk_binlog_replication o1 o2 o3 pre rs master replica stale n :
  io_ok o1 → io_ok o2 → io_ok o3 →
  binlog_file master = pre ++ lines rs → Forall record_ok rs → rs ≠ [] → write_version master ≠ 0 →
  Z.of_nat (length stale) = TRUNK_BINLOG_BUFFER_SIZE →
  trunk_binlog_write_cache_len replica ≤ TRUNK_BINLOG_BUFFER_SIZE →
  ∃ r0 results r' replica' k,
    trunk_binlog_preread None master (reader_start stale (Z.of_nat (length pre))) = Some (0, r0) ∧
    sync_rounds o1 o2 o3 n master (r0, replica) = Some (results, (r', replica')) ∧
    whole_log replica' = whole_log replica ++ lines (take k rs) ∧
    binlog_offset r' = Z.of_nat (length (pre ++ lines (take k rs))) ∧
    (TRUNK_BINLOG_BUFFER_SIZE ≤ Z.of_nat (length (lines rs)) → (length rs ≤ n)%nat →
       whole_log replica' = whole_log replica ++ lines rs) ∧
    (Z.of_nat (length (lines rs)) < TRUNK_BINLOG_BUFFER_SIZE →
       results = replicate n ENOENT ∧ replica' = replica).
Proof.
  intros H1 H2 H3 Hf Hrs Hne Hv Hst Hc.
  pose proof (reader_start_follows stale pre rs Hst Hrs) as F.
  set (r := reader_start stale (Z.of_nat (length pre))) in *.
  destruct (lines_snoc rs Hne) as (a & Ea & Ha).
  assert (preread_check (write_version master) (binlog_buff r) = Some (inr (write_version master, binlog_buff r))) as Ec.
  { unfold preread_check, r, reader_start. cbn [binlog_buff bb_version].
    by rewrite (proj2 (Z.eqb_neq 0 (write_version master))) by done. }
  unfold trunk_binlog_preread. rewrite Ec, Hf. cbn [mbind option_bind].
  change (set_buff (binlog_buff r) r) with r.
  destruct (preread_fill_spec _ _ _ _ (write_version master) F eq_refl ltac:(cbn; unfold TRUNK_BINLOG_BUFFER_SIZE; lia))
    as [(Hp & _)|(_ & r0 & E & Hcur & _ & _ & Hver & Ho & _ & F0)].
  { exfalso. cbn in Hp. rewrite length_app, Ea, length_app in Hp. cbn in Hp. lia. }
  assert (synced pre rs (whole_log replica) 0 (r0, replica)) as S.
  { split; cbn [fst snd]; try done; [by left| |by rewrite app_nil_r]. rewrite Ho. cbn.
    change (lines (take 0 rs)) with (@nil Z). by rewrite app_nil_r. }
  assert (up_to_date master r0) as Hu.
  { intros E0. rewrite Hver in E0. cbn in E0. congruence. }
  assert (bb_length (binlog_buff r0)
    = Z.min TRUNK_BINLOG_BUFFER_SIZE (Z.of_nat (length (lines rs)))) as Hlen.
  { unfold preread_fill in E. cbn [r reader_start binlog_buff bb_length fd_pos] in E.
    unfold fd_read in E. rewrite Nat2Z.id, drop_app_length in E.
    destruct (Z.eqb_spec (Z.of_nat (length (take (Z.to_nat (TRUNK_BINLOG_BUFFER_SIZE - 0)) (lines rs)))) 0); [done|].
    destruct (_ || _); [done|]. injection E as <-. cbn. rewrite length_take.
    unfold TRUNK_BINLOG_BUFFER_SIZE. lia. }
  pose proof (fo_pos _ _ _ _ F0) as Hp0. change (lines (take 0 rs)) with (@nil Z) in Hp0. cbn [length] in Hp0.
  destruct (sync_rounds_spec o1 o2 o3 H1 H2 H3 pre rs (whole_log replica) master Hf n 0 r0 replica S Hu)
    as (results & k & [r' rep'] & Er & Sk & Hnp & Hpend).
  exists r0, results, r', rep', k. destruct Sk as [_ _ Hok Hlk _]. cbn [fst snd] in *.
  split_and!; try done.
  - intros Hbig Hn. rewrite Hlk. rewrite Hpend; [by rewrite firstn_all| |lia].
    left. left. lia.
  - intros Hsmall. destruct Hnp as (-> & -> & _); [|done].
    unfold pending. rewrite Hf, length_app. lia.
Qed.

Lemma trunk_binlog_replication_witness :
  let rs := sample_record <$> [0; 4096] in
  let master := {| write_cache := []; write_version := 2; binlog_file := lines rs |} in
  ∃ r0 results r' replica', trunk_binlog_preread None master
      (reader_start (replicate (Z.to_nat TRUNK_BINLOG_BUFFER_SIZE) 0) 0) = Some (0, r0) ∧
    sync_rounds sample_io sample_io sample_io 3 master (r0, empty_binlog) = Some (results, (r', replica')) ∧
    results = [ENOENT; ENOENT; ENOENT] ∧ replica' = empty_binlog.
Proof.
  destruct (trunk_binlog_replication sample_io sample_io sample_io [] (sample_record <$> [0; 4096])
    {| write_cache := []; write_version := 2; binlog_file := lines (sample_record <$> [0; 4096]) |}
    empty_binlog (replicate (Z.to_nat TRUNK_BINLOG_BUFFER_SIZE) 0) 3)
    as (r0 & results & r' & replica' & k & H1 & H2 & _ & _ & _ & H3);
    try done; try (rewrite length_replicate; vm_compute; done).
  - repeat constructor; try done; by left.
  - exists r0, results, r', replica'. split; [exact H1|]. split; [exact H2|]. apply H3. vm_compute. done.
Defined.
