(* ===== verification/BinlogFollow.v ===== *)
(** * A reader of the trunk binlog beside its writer

    The writer holds [trunk_sync_thread_lock] while it appends a line or
    flushes; the reader takes no lock.  The reader is told about new data
    by the version counter, which the writer increments after the data is
    in the file and which the reader saves before it reads.  The step
    relation below interleaves the two threads at the points where they
    touch shared data: the writer's [write] and its increment are separate
    steps, and so are the reader's version check and its [read].  One
    [write] is visible to readers all at once.  The version check compares
    the counter and then saves it; these two reads of one word, with no call
    between them, are a single step here. *)

From S2P Require Import Prelude CLib SharedFunc TrunkShared TrunkBinlog BinlogReader.
From stdpp Require Import strings.
#[local] Open Scope Z_scope.

(** ** The two threads *)

(** Where the writer is: outside the lock, in [trunk_binlog_fsync_ex]
    before [write], or after [write] and [fsync]. *)
Inductive writer_pc := WIdle | WFlush | WWritten.

(** Where the reader is: at the start of [trunk_binlog_read_line], or
    between the version check of [trunk_binlog_preread] and its [read]. *)
Inductive reader_pc := RIdle | RFill (saved_version : Z).

Record state := {
  log : trunk_binlog;
  wpc : writer_pc;
  reader : TrunkBinLogReader;
  rpc : reader_pc;
  written : list TrunkBinLogRecord;  (* the calls of [trunk_binlog_write] so far *)
  got : list TrunkBinLogRecord;      (* what [trunk_binlog_read] has returned *)
}.

Section steps.
(** The outcome of [write] and [fsync]. *)
Context (o : io_outcome).

Inductive step : state → state → Prop :=
  | step_write_line st rec full log' :
      wpc st = WIdle → record_ok rec →
      cache_line (timestamp rec) (op_type rec) (trunk rec) (log st) = Some (full, log') →
      step st {| log := log'; wpc := if full : bool then WFlush else WIdle; reader := reader st;
                 rpc := rpc st; written := written st ++ [rec]; got := got st |}
  | step_timer st :
      wpc st = WIdle → 0 < trunk_binlog_write_cache_len (log st) →
      step st {| log := log st; wpc := WFlush; reader := reader st; rpc := rpc st;
                 written := written st; got := got st |}
  | step_flush_write st file :
      wpc st = WFlush →
      fsync_write o (write_cache (log st)) (trunk_binlog_write_cache_len (log st))
        (binlog_file (log st)) = (0, file) →
      step st {| log := set_file file (log st); wpc := WWritten; reader := reader st; rpc := rpc st;
                 written := written st; got := got st |}
  | step_flush_commit st result len log' :
      wpc st = WWritten →
      fsync_commit 0 (trunk_binlog_write_cache_len (log st)) (log st) = (result, len, log') →
      step st {| log := set_cache (take (Z.to_nat len) (write_cache log')) log'; wpc := WIdle;
                 reader := reader st; rpc := rpc st; written := written st; got := got st |}
  | step_read_line st line n r rec :
      rpc st = RIdle →
      trunk_binlog_do_line_read TRUNK_BINLOG_LINE_SIZE (reader st) = Some (0, line, n, r) →
      parse_record line = Some rec →
      step st {| log := log st; wpc := wpc st; reader := r; rpc := RIdle;
                 written := written st; got := got st ++ [rec] |}
  | step_read_check st saved b :
      rpc st = RIdle →
      trunk_binlog_do_line_read TRUNK_BINLOG_LINE_SIZE (reader st) = Some (ENOENT, [], 0, reader st) →
      preread_check (write_version (log st)) (binlog_buff (reader st)) = Some (inr (saved, b)) →
      step st {| log := log st; wpc := wpc st; reader := set_buff b (reader st); rpc := RFill saved;
                 written := written st; got := got st |}
  | step_read_fill st saved result r :
      rpc st = RFill saved →
      preread_fill None (binlog_file (log st)) saved (reader st) = Some (result, r) →
      step st {| log := log st; wpc := wpc st; reader := r; rpc := RIdle;
                 written := written st; got := got st |}.

(** [n] steps. *)
Inductive steps : nat → state → state → Prop :=
  | steps_refl st : steps 0 st st
  | steps_next n st1 st2 st3 : steps n st1 st2 → step st2 st3 → steps (S n) st1 st3.
End steps.

Definition initial (stale : list Z) : state :=
  {| log := empty_binlog; wpc := WIdle; reader := reader_start stale 0; rpc := RIdle;
     written := []; got := [] |}.

(** ** The invariant *)

(** The bytes whose write the version counter has announced. *)
Definition announced (st : state) : Z :=
  match wpc st with
  | WWritten => Z.of_nat (length (binlog_file (log st))) - Z.of_nat (length (write_cache (log st)))
  | _ => Z.of_nat (length (binlog_file (log st)))
  end.

Record inv (n : nat) (st : state) : Prop := {
  inv_records : Forall record_ok (written st);
  inv_log : ∃ rs cs, binlog_file (log st) = lines rs ∧ write_cache (log st) = lines cs ∧
    follows [] rs (length (got st)) (reader st) ∧ got st = logged <$> take (length (got st)) rs ∧
    match wpc st with
    | WWritten => written st = rs
    | _ => written st = rs ++ cs
    end;
  inv_cache : match wpc st with
    | WIdle => cache_has_room (log st)
    | _ => trunk_binlog_write_cache_len (log st) ≤ TRUNK_BINLOG_BUFFER_SIZE
    end;
  inv_version : 1 ≤ write_version (log st) ≤ 1 + Z.of_nat n;
  inv_reader_version : bb_version (binlog_buff (reader st)) ≤ write_version (log st);
  inv_announced : bb_version (binlog_buff (reader st)) = write_version (log st) →
    announced st ≤ fd_pos (reader st);
  inv_rpc : match rpc st with
    | RIdle => True
    | RFill saved => saved ≤ write_version (log st) ∧ bb_current (binlog_buff (reader st)) = 0
        ∧ bb_length (binlog_buff (reader st)) < TRUNK_BINLOG_BUFFER_SIZE
    end;
}.

(** The file may grow by whole lines under a reader. *)
Lemma follows_more pre rs more k r :
  follows pre rs k r → Forall record_ok more → follows pre (rs ++ more) k r.
Proof.
  intros [Hb Hk Hrs Hp [unread Eu] Hm] Hmore. split; try done.
  - rewrite length_app. lia.
  - by apply Forall_app.
  - by rewrite take_app_le.
  - exists (unread ++ lines more). rewrite app_assoc, Eu, drop_app_le by done. by rewrite lines_app.
Qed.

Lemma follows_pos_le rs k r : follows [] rs k r → fd_pos r ≤ Z.of_nat (length (lines rs)).
Proof.
  intros F. destruct (follows_file _ _ _ _ F) as (unread & _ & _ & Elen). cbn [app] in Elen. lia.
Qed.

Lemma lines_snoc_app rs r : lines (rs ++ [r]) = lines rs ++ record_line r.
Proof. rewrite lines_app. unfold lines at 2. cbn. by rewrite app_nil_r. Qed.

Section invariant.
Context (o : io_outcome) (Ho : io_ok o).

Lemma inv_step n st st' :
  Z.of_nat n < INT_MAX - 1 → inv n st → step o st st' → inv (S n) st'.
Proof.
  intros Hn I Hstep. destruct I as [Irec (rs & cs & Efile & Ecache & F & Egot & Ew) Icache Iv Irv Iann Irpc].
  destruct Hstep as [st rec full log' Hpc Hrec E|st Hpc Hpos|st file' Hpc E|st result len log' Hpc E
    |st line len r rec Hpc E Ep|st saved b Hpc E E2|st saved result r Hpc E];
    cbn [log wpc reader rpc written got] in *; rewrite Hpc in *.
  - destruct (cache_line_room rec (log st) Hrec Icache) as (E' & Hl & _). rewrite E' in E.
    match type of E with Some (?b, _) = _ => remember b as full0 eqn:Efull end.
    injection E as <- <-. symmetry in Efull.
    split; cbn [log wpc reader rpc written got]; try done.
    + apply Forall_app. split; [done|by apply Forall_singleton].
    + exists rs, (cs ++ [rec]). cbn [set_cache binlog_file write_cache].
      rewrite lines_snoc_app, Ecache. split_and!; try done.
      destruct full0; by rewrite Ew, app_assoc.
    + destruct full0; [done|]. by apply Z.ltb_ge in Efull.
    + cbn. lia.
    + intros Ev. specialize (Iann Ev). unfold announced in *. rewrite Hpc in Iann. cbn in *.
      by destruct full0.
  - split; cbn [log wpc reader rpc written got]; try done.
    + exists rs, cs. done.
    + unfold cache_has_room in Icache. lia.
    + lia.
    + intros Ev. specialize (Iann Ev). unfold announced in *. rewrite Hpc in Iann. done.
  - unfold trunk_binlog_write_cache_len in *. rewrite fsync_write_ok in E by done. injection E as <-.
    assert (Forall record_ok cs) as Hcs by (rewrite Ew in Irec; by apply Forall_app in Irec as [_ ?]).
    split; cbn [log wpc reader rpc written got]; try done.
    + exists (rs ++ cs), cs. cbn [set_file binlog_file write_cache]. split_and!; try done.
      * by rewrite lines_app, Efile, Ecache.
      * by apply follows_more.
      * pose proof (fo_count _ _ _ _ F). by rewrite take_app_le.
    + cbn. lia.
    + intros Ev. specialize (Iann Ev). unfold announced in *. rewrite Hpc in Iann. cbn in *.
      rewrite length_app. lia.
  - unfold fsync_commit in E. cbn [Z.eqb] in E. injection E as <- <- <-.
    unfold INT_MAX in Hn. cbn [write_cache write_version binlog_file set_cache].
    split; cbn [log wpc reader rpc written got]; try done.
    + exists rs, []. cbn. by rewrite app_nil_r.
    + cbn. rewrite s32_id by (unfold is_int32; lia). lia.
    + cbn. rewrite s32_id by (unfold is_int32; lia). lia.
    + cbn. rewrite s32_id by (unfold is_int32; lia). lia.
    + destruct (rpc st); [done|]. cbn. rewrite s32_id by (unfold is_int32; lia).
      destruct Irpc as (? & ? & ?). split_and!; [lia|done|done].
  - destruct (do_line_read_spec _ _ _ _ F) as [(rec' & Ek & E' & F')|(_ & _ & E')];
      cbv zeta in *; rewrite E' in E; [|by injection E].
    injection E as <- <- <-.
    rewrite (parse_lines_ok rs (length (got st)) rec') in Ep by (done || apply F). injection Ep as <-.
    split; cbn [log wpc reader rpc written got]; try done.
    + exists rs, cs. rewrite length_app, Nat.add_1_r. split_and!; try done.
      by rewrite (take_S_r _ _ _ Ek), fmap_app, <- Egot.
    + lia.
  - destruct (do_line_read_spec _ _ _ _ F) as [(rec' & Ek & E' & F')|(Hlf & Hlen & _)];
      [cbv zeta in E'; rewrite E' in E; by injection E|].
    destruct (preread_check_spec _ _ _ _ (write_version (log st)) F ltac:(by right))
      as [(_ & _ & E')|[[_ E']|(Hlt & b' & E' & Hcur & Hl' & Hver & Hcon & F')]];
      rewrite E' in E2; [done|done|]. injection E2 as <- <-.
    split; cbn [log wpc reader rpc written got set_buff binlog_buff fd_pos]; try done.
    + exists rs, cs. done.
    + lia.
    + by rewrite Hver.
    + rewrite Hver. exact Iann.
    + split_and!; [lia|done|lia].
  - destruct Irpc as (Hsaved & Hcur & Hlt).
    pose proof (follows_pos_le _ _ _ F) as Hle. rewrite Efile in E. change (lines rs) with ([] ++ lines rs) in E.
    destruct (preread_fill_spec _ _ _ _ saved F Hcur Hlt)
      as [(Hp & b' & E' & Hcur' & Hl' & Hcon & Hver & F')
         |(Hp & r' & E' & Hcur' & _ & Hp' & Hver & Ho' & _ & F')];
      rewrite E' in E; injection E as <- <-; cbn [app] in *;
      (split; cbn [log wpc reader rpc written got set_buff binlog_buff fd_pos];
       [done|by exists rs, cs|done|lia|rewrite Hver; done| |done]).
    + intros _. rewrite Hp. unfold announced. cbn. rewrite Efile. destruct (wpc st); lia.
    + rewrite Hver. intros Ev. specialize (Iann Ev). unfold announced in *. cbn. lia.
Qed.

Lemma inv_steps n stale st :
  Z.of_nat n < INT_MAX - 1 → Z.of_nat (length stale) = TRUNK_BINLOG_BUFFER_SIZE →
  steps o n (initial stale) st → inv n st.
Proof.
  intros Hn Hst Hs. remember (initial stale) as st0 eqn:E0. induction Hs as [st|n st1 st2 st3 Hs IH Hstep]; subst.
  - split; cbn; try done; try lia.
    + exists [], []. split_and!; try done. by apply (reader_start_follows stale []).
  - apply inv_step with st2; [lia|apply IH; [lia|done]|done].
Qed.
End invariant.

(** C12 However the writer and the reader interleave, (1) the reader returns
    a prefix of the records written, in order, none lost, repeated or
    changed; (2) it never copies between overlapping or outside ranges,
    never meets a line that is too long or malformed, and its only error is
    ENOENT; (3) when the version check stops it, it has returned every
    record of the flushes that have completed, so no wake-up is missed. *)
Theorem trunk_binlog_reader_follows_writer o n stale st :
  io_ok o → Z.of_nat n < INT_MAX - 1 → Z.of_nat (length stale) = TRUNK_BINLOG_BUFFER_SIZE →
  steps o n (initial stale) st →
  got st = logged <$> take (length (got st)) (written st) ∧
  match rpc st with
  | RIdle =>
      (∃ rec r, trunk_binlog_do_line_read TRUNK_BINLOG_LINE_SIZE (reader st)
                = Some (0, record_line rec, Z.of_nat (length (record_line rec)), r) ∧
                parse_record (record_line rec) = Some (logged rec)) ∨
      (trunk_binlog_do_line_read TRUNK_BINLOG_LINE_SIZE (reader st) = Some (ENOENT, [], 0, reader st) ∧
       ((∃ saved b, preread_check (write_version (log st)) (binlog_buff (reader st)) = Some (inr (saved, b))) ∨
        (preread_check (write_version (log st)) (binlog_buff (reader st)) = Some (inl ENOENT) ∧
         (wpc st ≠ WWritten →
          lines (take (length (got st)) (written st)) = binlog_file (log st)))))
  | RFill saved =>
      ∃ result r, preread_fill None (binlog_file (log st)) saved (reader st) = Some (result, r) ∧
        (result = 0 ∨ result = ENOENT)
  end.
Proof.
  intros Ho Hn Hst Hs. destruct (inv_steps o Ho n stale st Hn Hst Hs)
    as [Irec (rs & cs & Efile & Ecache & F & Egot & Ew) Icache Iv Irv Iann Irpc].
  pose proof (fo_count _ _ _ _ F) as Hk.
  assert (take (length (got st)) (written st) = take (length (got st)) rs) as Htake.
  { destruct (wpc st); rewrite Ew; [by rewrite take_app_le..|done]. }
  split; [by rewrite Htake|]. destruct (rpc st) as [|saved].
  - destruct (do_line_read_spec _ _ _ _ F) as [(rec & Ek & E & F')|(Hlf & Hlen & E)].
    + left. eexists rec, _. split; [exact E|]. by eapply parse_lines_ok; [apply F|].
    + right. split; [done|].
      destruct (preread_check_spec _ _ _ _ (write_version (log st)) F ltac:(by right))
        as [(Ev & E0 & E2)|[[Efull _]|(Hlt & b' & E2 & _)]].
      * right. split; [done|]. intros Hpc. specialize (Iann Ev). unfold announced in Iann.
        pose proof (follows_pos_le _ _ _ F). destruct (follows_file _ _ _ _ F) as (unread & Eu & _ & Elen).
        cbn [app] in Elen. rewrite Efile in *.
        assert (unread = []) as -> by (apply length_zero_iff_nil; destruct (wpc st); [lia..|done]).
        pose proof (content_length _ (fo_buffer _ _ _ _ F)) as Hl. rewrite app_nil_r in Eu.
        assert (lines (drop (length (got st)) rs) = []) as Ed.
        { rewrite <- Eu. apply length_zero_iff_nil. lia. }
        rewrite Htake. transitivity (lines (take (length (got st)) rs ++ drop (length (got st)) rs)).
        -- by rewrite lines_app, Ed, app_nil_r.
        -- by rewrite take_drop.
      * unfold TRUNK_BINLOG_BUFFER_SIZE in *. lia.
      * left. by eexists _, _.
  - destruct Irpc as (_ & Hcur & Hlt). rewrite Efile. change (lines rs) with ([] ++ lines rs).
    destruct (preread_fill_spec _ _ _ _ saved F Hcur Hlt) as [(_ & b' & E & _)|(_ & r' & E & _)];
      eexists _, _; (split; [exact E|]); [by right|by left].
Qed.

Lemma trunk_binlog_reader_follows_writer_witness :
  let stale := replicate (Z.to_nat TRUNK_BINLOG_BUFFER_SIZE) 0 in
  let rec := sample_record 0 in
  ∃ st, steps sample_io 1 (initial stale) st ∧ written st = [rec] ∧
    got st = logged <$> take (length (got st)) (written st).
Proof.
  cbv zeta. set (stale := replicate (Z.to_nat TRUNK_BINLOG_BUFFER_SIZE) 0).
  assert (∃ st, steps sample_io 1 (initial stale) st ∧ written st = [sample_record 0]) as (st & Hs & Hw).
  { eexists. split.
    - eapply steps_next; [apply steps_refl|].
      apply (step_write_line sample_io (initial stale) (sample_record 0) false
               (set_cache (record_line (sample_record 0)) empty_binlog)).
      + reflexivity.
      + vm_compute. repeat split; try done; by left.
      + vm_compute. reflexivity.
    - reflexivity. }
  exists st. split; [exact Hs|]. split; [exact Hw|].
  apply (trunk_binlog_reader_follows_writer sample_io 1 stale st).
  - done.
  - vm_compute. reflexivity.
  - unfold stale. rewrite length_replicate. vm_compute. reflexivity.
  - exact Hs.
Defined.
