(* ===== verification/TrackerMem.v ===== *)
(** * tracker/tracker_mem.c: the storage servers of a group

    The tracker keeps a group of storage servers as three arrays of pointers
    to the same server objects: [all_servers] in the order they joined (the
    entries behind [count] point to spare objects), [sorted_servers] and
    [active_servers] in the order of their ids.  The objects live in the
    heap [details]; the pointers of a group stay inside the group.

    A function body runs over [group_state]: the group, the objects of its
    servers and what the groups share.  Array sizes and indexes are [nat]
    (they never exceed an allocated array); the counters the program only
    adds to are C ints.  Locks are taken to succeed.  Everything the program
    does not decide (an allocation, the result of writing a file, the answer
    of a storage server) is the [n]-th answer [env n], asked for in the
    order of the code.  [None] is undefined behaviour. *)

From S2P Require Import Prelude CLib SortedArray.
From stdpp Require Import sorting.
#[local] Open Scope Z_scope.

(** ** Data (tracker/tracker_types.h) *)

Definition FDFS_STORAGE_ID_MAX_SIZE : nat := 16.
Definition IP_ADDRESS_SIZE : nat := 16.
Definition FDFS_MAX_SERVERS_EACH_GROUP : nat := 32.
Definition TRACKER_MEM_ALLOC_ONCE : nat := 2.

Definition FDFS_STORAGE_STATUS_INIT : Z := 0.
Definition FDFS_STORAGE_STATUS_WAIT_SYNC : Z := 1.
Definition FDFS_STORAGE_STATUS_SYNCING : Z := 2.
Definition FDFS_STORAGE_STATUS_IP_CHANGED : Z := 3.
Definition FDFS_STORAGE_STATUS_DELETED : Z := 4.
Definition FDFS_STORAGE_STATUS_OFFLINE : Z := 5.
Definition FDFS_STORAGE_STATUS_ONLINE : Z := 6.
Definition FDFS_STORAGE_STATUS_ACTIVE : Z := 7.
Definition FDFS_STORAGE_STATUS_RECOVERY : Z := 9.
Definition FDFS_STORAGE_STATUS_NONE : Z := 99.

Definition FDFS_STORE_SERVER_ROUND_ROBIN : Z := 0.
Definition FDFS_STORE_SERVER_FIRST_BY_IP : Z := 1.
Definition FDFS_STORE_SERVER_FIRST_BY_PRI : Z := 2.

Definition EBUSY : Z := 16.
Definition ENONET : Z := 64.
Definition EOPNOTSUPP : Z := 95.
Definition EALREADY : Z := 114.

(** [counters]: the 38 counters, in the order of the C struct. *)
Record FDFSStorageStat := {
  counters : list Z;
  last_source_update : Z;
  last_sync_update : Z;
  last_synced_timestamp : Z;
  last_heart_beat_time : Z;
}.

Definition success_upload_count (st : FDFSStorageStat) : Z := nth 1 (counters st) 0.
Definition success_delete_count (st : FDFSStorageStat) : Z := nth 11 (counters st) 0.

Record FDFSStorageDetail := {
  status : Z;
  storage_id : list Z;
  ip_addr : list Z;
  version : list Z;
  domain_name : list Z;
  psync_src_server : option positive;
  path_total_mbs : option (list Z);
  path_free_mbs : option (list Z);
  s_total_mb : Z;
  s_free_mb : Z;
  changelog_offset : Z;
  sync_until_timestamp : Z;
  join_time : Z;
  up_time : Z;
  s_store_path_count : Z;
  s_subdir_count_per_path : Z;
  upload_priority : Z;
  s_storage_port : Z;
  s_storage_http_port : Z;
  current_write_path : Z;
  s_chg_count : Z;
  s_trunk_chg_count : Z;
  stat : FDFSStorageStat;
}.

Record FDFSGroupInfo := {
  group_name : list Z;
  g_total_mb : Z;
  g_free_mb : Z;
  trunk_free_mb : Z;
  alloc_size : nat;
  count : nat;
  active_count : nat;
  storage_port : Z;
  storage_http_port : Z;
  current_trunk_file_id : Z;
  all_servers : list (option positive);
  sorted_servers : list (option positive);
  active_servers : list (option positive);
  pStoreServer : option positive;
  pTrunkServer : option positive;
  last_trunk_server_id : list Z;
  current_read_server : nat;
  current_write_server : nat;
  store_path_count : Z;
  subdir_count_per_path : Z;
  last_sync_timestamps : list (list Z);
  chg_count : Z;
  trunk_chg_count : Z;
}.

(** tracker_types.h: [FDFSStorageIdInfo], [FDFSStorageBrief] *)
Record FDFSStorageIdInfo := {
  i_id : list Z;
  i_group_name : list Z;
  i_ip_addr : list Z;
}.

Record FDFSStorageBrief := {
  b_status : Z;
  b_id : list Z;
  b_ip_addr : list Z;
}.

#[export] Instance stat_eta : Eta FDFSStorageStat := λ r,
  {| counters := counters r; last_source_update := last_source_update r; last_sync_update := last_sync_update r;
     last_synced_timestamp := last_synced_timestamp r; last_heart_beat_time := last_heart_beat_time r |}.

#[export] Instance detail_eta : Eta FDFSStorageDetail := λ r,
  {| status := status r; storage_id := storage_id r; ip_addr := ip_addr r; version := version r;
     domain_name := domain_name r; psync_src_server := psync_src_server r; path_total_mbs := path_total_mbs r;
     path_free_mbs := path_free_mbs r; s_total_mb := s_total_mb r; s_free_mb := s_free_mb r;
     changelog_offset := changelog_offset r; sync_until_timestamp := sync_until_timestamp r;
     join_time := join_time r; up_time := up_time r; s_store_path_count := s_store_path_count r;
     s_subdir_count_per_path := s_subdir_count_per_path r; upload_priority := upload_priority r;
     s_storage_port := s_storage_port r; s_storage_http_port := s_storage_http_port r;
     current_write_path := current_write_path r; s_chg_count := s_chg_count r;
     s_trunk_chg_count := s_trunk_chg_count r; stat := stat r |}.

#[export] Instance group_eta : Eta FDFSGroupInfo := λ r,
  {| group_name := group_name r; g_total_mb := g_total_mb r; g_free_mb := g_free_mb r;
     trunk_free_mb := trunk_free_mb r; alloc_size := alloc_size r; count := count r;
     active_count := active_count r; storage_port := storage_port r; storage_http_port := storage_http_port r;
     current_trunk_file_id := current_trunk_file_id r; all_servers := all_servers r;
     sorted_servers := sorted_servers r; active_servers := active_servers r; pStoreServer := pStoreServer r;
     pTrunkServer := pTrunkServer r; last_trunk_server_id := last_trunk_server_id r;
     current_read_server := current_read_server r; current_write_server := current_write_server r;
     store_path_count := store_path_count r; subdir_count_per_path := subdir_count_per_path r;
     last_sync_timestamps := last_sync_timestamps r; chg_count := chg_count r;
     trunk_chg_count := trunk_chg_count r |}.

(** An object [malloc] returned and [memset] cleared. *)
Definition zero_stat : FDFSStorageStat :=
  {| counters := replicate 38 0; last_source_update := 0; last_sync_update := 0;
     last_synced_timestamp := 0; last_heart_beat_time := 0 |}.

Definition zero_detail : FDFSStorageDetail :=
  {| status := 0; storage_id := []; ip_addr := []; version := []; domain_name := []; psync_src_server := None;
     path_total_mbs := None; path_free_mbs := None; s_total_mb := 0; s_free_mb := 0; changelog_offset := 0;
     sync_until_timestamp := 0; join_time := 0; up_time := 0; s_store_path_count := 0;
     s_subdir_count_per_path := 0; upload_priority := 0; s_storage_port := 0; s_storage_http_port := 0;
     current_write_path := 0; s_chg_count := 0; s_trunk_chg_count := 0; stat := zero_stat |}.

Definition zero_group : FDFSGroupInfo :=
  {| group_name := []; g_total_mb := 0; g_free_mb := 0; trunk_free_mb := 0; alloc_size := 0; count := 0;
     active_count := 0; storage_port := 0; storage_http_port := 0; current_trunk_file_id := 0;
     all_servers := []; sorted_servers := []; active_servers := []; pStoreServer := None; pTrunkServer := None;
     last_trunk_server_id := []; current_read_server := 0; current_write_server := 0; store_path_count := 0;
     subdir_count_per_path := 0; last_sync_timestamps := []; chg_count := 0; trunk_chg_count := 0 |}.

(** Settings and globals the functions read. *)
Record tracker_config := {
  g_use_storage_id : bool;
  g_storage_ids_by_ip : list FDFSStorageIdInfo;   (* sorted by group name and ip *)
  g_storage_ids_by_id : list FDFSStorageIdInfo;   (* sorted by id *)
  g_if_leader_self : bool;
  g_if_use_trunk_file : bool;
  g_trunk_init_check_occupying : bool;
  g_trunk_init_reload_from_binlog : bool;
  store_server : Z;                               (* g_groups.store_server *)
  download_server : Z;                            (* g_groups.download_server *)
  g_check_active_interval : Z;
  g_storage_sync_file_max_delay : Z;
  g_storage_sync_file_max_time : Z;
  g_current_time : Z;
}.

(** An answer of the environment: does [malloc] succeed, the result of a
    call (errno of a failed [malloc]), the size a storage server reports. *)
Record answer := { a_malloc : bool; a_result : Z; a_size : Z }.

Record tracker_globals := {
  g_trunk_server_chg_count : Z;
  changelog : list Z;            (* the file behind changelog_fd *)
  g_changelog_fsize : Z;
  ticks : nat;
}.

Record group_state := {
  grp : FDFSGroupInfo;
  details : gmap positive FDFSStorageDetail;
  glob : tracker_globals;
}.

#[export] Instance globals_eta : Eta tracker_globals := λ r,
  {| g_trunk_server_chg_count := g_trunk_server_chg_count r; changelog := changelog r;
     g_changelog_fsize := g_changelog_fsize r; ticks := ticks r |}.
#[export] Instance group_state_eta : Eta group_state := λ r,
  {| grp := grp r; details := details r; glob := glob r |}.

(** ** Access to the group and its servers *)

Definition get_grp : prog group_state FDFSGroupInfo := s ← get; mret (grp s).
Definition upd_grp (f : FDFSGroupInfo → FDFSGroupInfo) : prog group_state unit := modify (λ s, s <| grp ::= f |>).
Definition get_glob : prog group_state tracker_globals := s ← get; mret (glob s).
Definition upd_glob (f : tracker_globals → tracker_globals) : prog group_state unit := modify (λ s, s <| glob ::= f |>).

(** [p->...] *)
Definition get_server (p : positive) : prog group_state FDFSStorageDetail := s ← get; deref (details s !! p).

(** An assignment to fields of [*p]. *)
Definition upd_server (p : positive) (f : FDFSStorageDetail → FDFSStorageDetail) : prog group_state unit :=
  d ← get_server p;
  modify (λ s, s <| details ::= <[p := f d]> |>).

(** The key of the sorted arrays: [p->id]. *)
Definition id_of (ds : gmap positive FDFSStorageDetail) (p : positive) : option (list Z) := storage_id <$> ds !! p.

(** A call that changes no state of the program: the environment answers. *)
Definition ask (env : nat → answer) : prog group_state answer :=
  s ← get;
  upd_glob (λ g, g <| ticks ::= S |>);;
  mret (env (ticks (glob s))).

(** [errno != 0 ? errno : ENOMEM] after a failed [malloc]; 0 when it worked. *)
Definition malloc_result (a : answer) : Z :=
  if a_malloc a then 0 else if c_true (a_result a) then a_result a else ENOMEM.

(** [snprintf(dest, sizeof(dest), "%s", s)] into [char dest[n]] *)
Definition snprintf_s (n : nat) (s : list Z) : list Z := take (n - 1) s.

(** [strcpy] into [char[n]] *)
Definition strcpy_to {S} (n : nat) (s : list Z) : prog S (list Z) :=
  if decide (length s < n)%nat then mret s else undefined.

(** [for (pp=arr; pp<arr+count; pp++)]: the servers the entries point to. *)
Definition servers_in (arr : list (option positive)) (count : nat) : prog group_state (list positive) :=
  deref (entries arr count).

(** [bsearch] of a server id in one of the arrays. *)
Definition bsearch_server (id : list Z) (arr : list (option positive)) (count : nat)
    : prog group_state (option (nat * positive)) :=
  s ← get;
  r ← deref (find_entry (id_of (details s)) id arr count);
  match r with
  | None => mret None
  | Some i => p ← deref (mjoin (arr !! i)); mret (Some (i, p))
  end.

Section operations.
Context (env : nat → answer) (cfg : tracker_config).

(** ** Storage ids (tracker/fdfs_shared_func.c) *)

Definition cmp_group_name_and_ip (group ip : list Z) (i : FDFSStorageIdInfo) : Z :=
  let result := strcmp group (i_group_name i) in
  if c_true result then result else strcmp ip (i_ip_addr i).

Definition fdfs_get_storage_id_by_ip (group ip : list Z) : option (option FDFSStorageIdInfo) :=
  let group := snprintf_s 24 group in
  let ip := snprintf_s IP_ADDRESS_SIZE ip in
  let ids := g_storage_ids_by_ip cfg in
  r ← bsearch (λ i, cmp_group_name_and_ip group ip <$> ids !! i) (length ids);
  Some (i ← r; ids !! i).

Definition fdfs_get_storage_by_id (id : list Z) : option (option FDFSStorageIdInfo) :=
  let id := snprintf_s FDFS_STORAGE_ID_MAX_SIZE id in
  let ids := g_storage_ids_by_id cfg in
  r ← bsearch (λ i, strcmp id <$> (i_id <$> ids !! i)) (length ids);
  Some (i ← r; ids !! i).

Definition fdfs_check_storage_id (group id : list Z) : option Z :=
  pFound ← fdfs_get_storage_by_id id;
  match pFound with
  | None => Some ENOENT
  | Some i => Some (if strcmp (i_group_name i) group =? 0 then 0 else EINVAL)
  end.

(** ** Looking servers up *)

Definition tracker_mem_get_storage (id : list Z) : prog group_state (option positive) :=
  id ← strcpy_to FDFS_STORAGE_ID_MAX_SIZE id;
  g ← get_grp;
  r ← bsearch_server id (sorted_servers g) (count g);
  mret (snd <$> r).

(** The id the tracker uses for the storage at [ip_addr]. *)
Definition storage_id_of_ip (ip_addr : list Z) : prog group_state (option (list Z)) :=
  if g_use_storage_id cfg then
    g ← get_grp;
    pStorageIdInfo ← deref (fdfs_get_storage_id_by_ip (group_name g) ip_addr);
    mret (i_id <$> pStorageIdInfo)
  else mret (Some ip_addr).

Definition tracker_mem_get_storage_by_ip (ip_addr : list Z) : prog group_state (option positive) :=
  storage_id ← storage_id_of_ip ip_addr;
  match storage_id with
  | None => mret None
  | Some id => tracker_mem_get_storage id
  end.

Definition tracker_mem_get_active_storage_by_id (id : list Z) : prog group_state (option positive) :=
  id ← strcpy_to FDFS_STORAGE_ID_MAX_SIZE id;
  g ← get_grp;
  r ← bsearch_server id (active_servers g) (active_count g);
  mret (snd <$> r).

Definition tracker_mem_get_active_storage_by_ip (ip_addr : list Z) : prog group_state (option positive) :=
  storage_id ← storage_id_of_ip ip_addr;
  match storage_id with
  | None => mret None
  | Some id => tracker_mem_get_active_storage_by_id id
  end.

(** [tracker_mem_get_storage_index] *)
Fixpoint index_of (pStorage : positive) (l : list positive) (i : Z) : Z :=
  match l with
  | [] => -1
  | p :: l => if decide (p = pStorage) then i else index_of pStorage l (i + 1)
  end.

Definition tracker_mem_get_storage_index (pStorage : positive) : prog group_state Z :=
  g ← get_grp;
  l ← servers_in (all_servers g) (count g);
  mret (index_of pStorage l 0).

(** [tracker_get_group_sync_src_server]: the first active server with
    another id than [pDestServer]. *)
Fixpoint first_other (id : list Z) (l : list positive) : prog group_state (option positive) :=
  match l with
  | [] => mret None
  | p :: l =>
      d ← get_server p;
      if strcmp (storage_id d) id =? 0 then first_other id l else mret (Some p)
  end.

Definition tracker_get_group_sync_src_server (pDestServer : positive) : prog group_state (option positive) :=
  g ← get_grp;
  d ← get_server pDestServer;
  l ← servers_in (active_servers g) (active_count g);
  first_other (storage_id d) l.

(** Sums over all servers, in a C int. *)
Fixpoint sum_servers (f : FDFSStorageStat → Z) (l : list positive) (count : Z) : prog group_state Z :=
  match l with
  | [] => mret count
  | p :: l => d ← get_server p; sum_servers f l (s32 (count + f (stat d)))
  end.

Definition tracker_get_group_file_count : prog group_state Z :=
  g ← get_grp;
  l ← servers_in (all_servers g) (count g);
  sum_servers (λ st, success_upload_count st - success_delete_count st) l 0.

Definition tracker_get_group_success_upload_count : prog group_state Z :=
  g ← get_grp;
  l ← servers_in (all_servers g) (count g);
  sum_servers success_upload_count l 0.

(** ** The server uploads go to *)

Fixpoint min_priority (l : list positive) (pMinPriServer : positive) : prog group_state positive :=
  match l with
  | [] => mret pMinPriServer
  | p :: l =>
      d ← get_server p;
      m ← get_server pMinPriServer;
      min_priority l (if upload_priority d <? upload_priority m then p else pMinPriServer)
  end.

Definition tracker_mem_find_store_server : prog group_state unit :=
  g ← get_grp;
  if decide (active_count g = 0)%nat then upd_grp (λ g, g <| pStoreServer := None |>)
  else
    l ← servers_in (active_servers g) (active_count g);
    match l with
    | [] => undefined
    | first :: others =>
        if store_server cfg =? FDFS_STORE_SERVER_FIRST_BY_PRI then
          p ← min_priority others first;
          upd_grp (λ g, g <| pStoreServer := Some p |>)
        else upd_grp (λ g, g <| pStoreServer := Some first |>)
    end.

Definition tracker_get_writable_storage : prog group_state (option positive) :=
  g ← get_grp;
  if store_server cfg =? FDFS_STORE_SERVER_ROUND_ROBIN then
    let write_server_index := current_write_server g in
    upd_grp (λ g, g <| current_write_server :=
      if decide (active_count g ≤ S (current_write_server g))%nat then 0%nat else S (current_write_server g) |>);;
    let write_server_index := if decide (active_count g ≤ write_server_index)%nat then 0%nat else write_server_index in
    deref (active_servers g !! write_server_index)
  else mret (pStoreServer g).

(** ** The trunk server *)

(** [tracker_mem_get_trunk_binlog_size]: asks the storage server. *)
Definition tracker_mem_get_trunk_binlog_size (p : positive) : prog group_state (Z * Z) :=
  get_server p;;
  a ← ask env;
  mret (a_result a, a_size a).

(** [tracker_set_trunk_server_and_log]; the text written to the log of
    trunk servers is left out, its lookup is not. *)
Definition tracker_set_trunk_server_and_log (pNewTrunkServer : option positive) : prog group_state Z :=
  g ← get_grp;
  let pLastTrunkServer := pTrunkServer g in
  upd_grp (λ g, g <| pTrunkServer := pNewTrunkServer |>);;
  new_id ← match pNewTrunkServer with None => mret None | Some p => d ← get_server p; mret (Some (storage_id d)) end;
  if match new_id with None => true | Some id => negb (strcmp id (last_trunk_server_id g) =? 0) end then
    match pLastTrunkServer, last_trunk_server_id g with
    | None, _ :: _ => tracker_mem_get_storage (last_trunk_server_id g);; mret tt
    | _, _ => mret tt
    end;;
    a ← ask env;
    match new_id with
    | None => upd_grp (λ g, g <| last_trunk_server_id := [] |>)
    | Some id => upd_grp (λ g, g <| last_trunk_server_id := id |>)
    end;;
    mret (a_result a)
  else mret 0.

Definition tracker_mem_do_set_trunk_server (pTrunkServer : positive) (save : bool) : prog group_state Z :=
  g ← get_grp;
  d ← get_server pTrunkServer;
  result ← match last_trunk_server_id g with
           | _ :: _ =>
               if strcmp (storage_id d) (last_trunk_server_id g) =? 0 then mret 0
               else a ← ask env; mret (a_result a)   (* STORAGE_PROTO_CMD_TRUNK_DELETE_BINLOG_MARKS *)
           | [] => mret 0
           end;
  if c_true result then mret result
  else
    tracker_set_trunk_server_and_log (Some pTrunkServer);;
    upd_grp (λ g, g <| trunk_chg_count ::= λ n, s32 (n + 1) |>);;
    upd_glob (λ g, g <| g_trunk_server_chg_count ::= λ n, s32 (n + 1) |>);;
    if save then a ← ask env; mret (a_result a) else mret 0.   (* tracker_save_groups *)

(** The loop of [tracker_mem_find_trunk_server]: a server whose binlog is
    larger than [max_file_size] becomes [pStoreServer]; [max_file_size]
    stays what it was. *)
Fixpoint largest_binlog (l : list positive) (max_file_size : Z) (pStoreServer : positive)
    : prog group_state positive :=
  match l with
  | [] => mret pStoreServer
  | p :: l =>
      if decide (p = pStoreServer) then largest_binlog l max_file_size pStoreServer
      else
        r ← tracker_mem_get_trunk_binlog_size p;
        let '(result, file_size) := r in
        if c_true result then largest_binlog l max_file_size pStoreServer
        else largest_binlog l max_file_size (if max_file_size <? file_size then p else pStoreServer)
  end.

Definition tracker_mem_find_trunk_server (save : bool) : prog group_state Z :=
  g ← get_grp;
  match pStoreServer g with
  | None => mret ENOENT
  | Some p =>
      r ← tracker_mem_get_trunk_binlog_size p;
      let '(result, max_file_size) := r in
      if c_true result then mret result
      else
        l ← servers_in (active_servers g) (active_count g);
        p ← largest_binlog l max_file_size p;
        tracker_mem_do_set_trunk_server p save
  end.

Definition tracker_mem_set_trunk_server (pStroageId : list Z) : prog group_state (Z * option positive) :=
  if negb (g_if_leader_self cfg && g_if_use_trunk_file cfg) then mret (EOPNOTSUPP, None)
  else
    g ← get_grp;
    active ← match pTrunkServer g with
             | None => mret None
             | Some p => d ← get_server p;
                         mret (if status d =? FDFS_STORAGE_STATUS_ACTIVE then Some (p, storage_id d) else None)
             end;
    match pStroageId, active with
    | [], Some (p, _) => mret (0, Some p)
    | [], None =>
        result ← tracker_mem_find_trunk_server true;
        if c_true result then mret (result, None) else g ← get_grp; mret (0, pTrunkServer g)
    | id, Some (p, trunk_id) => mret (if strcmp id trunk_id =? 0 then EALREADY else EEXIST, Some p)
    | id, None =>
        pServer ← tracker_mem_get_storage id;
        match pServer with
        | None => mret (ENOENT, None)
        | Some p =>
            d ← get_server p;
            if negb (status d =? FDFS_STORAGE_STATUS_ACTIVE) then mret (ENONET, None)
            else
              result ← tracker_mem_do_set_trunk_server p true;
              if c_true result then mret (result, None) else g ← get_grp; mret (0, pTrunkServer g)
        end
    end.

(** ** Path sizes *)

(** [malloc] of [n] zeroed 64-bit integers. *)
Definition zeros (n : Z) : list Z := replicate (Z.to_nat n) 0.

Definition tracker_malloc_storage_path_mbs (p : positive) (store_path_count : Z) : prog group_state Z :=
  if store_path_count <=? 0 then mret 0
  else
    a ← ask env;
    if c_true (malloc_result a) then upd_server p (λ d, d <| path_total_mbs := None |>);; mret (malloc_result a)
    else
      b ← ask env;
      if c_true (malloc_result b) then
        upd_server p (λ d, d <| path_total_mbs := None |> <| path_free_mbs := None |>);; mret (malloc_result b)
      else
        upd_server p (λ d, d <| path_total_mbs := Some (zeros store_path_count) |>
                             <| path_free_mbs := Some (zeros store_path_count) |>);;
        mret 0.

(** [memcpy] of the first [n] integers of an array over those of [dest]. *)
Definition memcpy_mbs (dest : list Z) (src : option (list Z)) (n : Z) : option (list Z) :=
  src ← src;
  if decide (Z.to_nat n ≤ length src)%nat then Some (take (Z.to_nat n) src ++ drop (Z.to_nat n) dest) else None.

Definition tracker_realloc_storage_path_mbs (p : positive) (old_store_path_count new_store_path_count : Z)
    : prog group_state Z :=
  if new_store_path_count <=? 0 then mret EINVAL
  else
    a ← ask env;
    if c_true (malloc_result a) then mret (malloc_result a)
    else
      b ← ask env;
      if c_true (malloc_result b) then mret (malloc_result b)
      else
        let new_mbs := zeros new_store_path_count in
        if old_store_path_count =? 0 then
          upd_server p (λ d, d <| path_total_mbs := Some new_mbs |> <| path_free_mbs := Some new_mbs |>);; mret 0
        else
          let copied := Z.min old_store_path_count new_store_path_count in
          d ← get_server p;
          total ← deref (memcpy_mbs new_mbs (path_total_mbs d) copied);
          free ← deref (memcpy_mbs new_mbs (path_free_mbs d) copied);
          upd_server p (λ d, d <| path_total_mbs := Some total |> <| path_free_mbs := Some free |>);;
          mret 0.

(** A call for each server until one fails. *)
Fixpoint for_servers (f : positive → prog group_state Z) (l : list positive) : prog group_state Z :=
  match l with
  | [] => mret 0
  | p :: l => result ← f p; if c_true result then mret result else for_servers f l
  end.

Definition tracker_realloc_group_path_mbs (new_store_path_count : Z) : prog group_state Z :=
  g ← get_grp;
  l ← servers_in (all_servers g) (alloc_size g);
  result ← for_servers (λ p, tracker_realloc_storage_path_mbs p (store_path_count g) new_store_path_count) l;
  if c_true result then mret result
  else upd_grp (λ g, g <| store_path_count := new_store_path_count |>);; mret 0.

Definition tracker_malloc_group_path_mbs : prog group_state Z :=
  g ← get_grp;
  l ← servers_in (all_servers g) (alloc_size g);
  for_servers (λ p, tracker_malloc_storage_path_mbs p (store_path_count g)) l.

(** ** Growing the arrays *)

(** [n] server objects, zeroed: the result and the objects made. *)
Fixpoint malloc_details (n : nat) : prog group_state (Z * list positive) :=
  match n with
  | O => mret (0, [])
  | S n =>
      a ← ask env;
      if c_true (malloc_result a) then mret (malloc_result a, [])
      else
        s ← get;
        let p := fresh (dom (details s)) in
        modify (λ s, s <| details ::= <[p := zero_detail]> |>);;
        r ← malloc_details n;
        mret (r.1, p :: r.2)
  end.

(** [tracker_mem_free_storages] of the objects made above. *)
Definition free_details (l : list positive) : prog group_state unit :=
  modify (λ s, s <| details ::= λ ds, foldr delete ds l |>).

(** [n] calls of [malloc] for the rows of the matrix. *)
Fixpoint malloc_rows (n size : nat) : prog group_state (Z * list (list Z)) :=
  match n with
  | O => mret (0, [])
  | S n =>
      a ← ask env;
      if c_true (malloc_result a) then mret (malloc_result a, [])
      else
        r ← malloc_rows n size;
        mret (r.1, replicate size 0 :: r.2)
  end.

Definition tracker_malloc_last_sync_timestamps (alloc_size : nat) : prog group_state (Z * list (list Z)) :=
  a ← ask env;
  if c_true (malloc_result a) then mret (malloc_result a, []) else malloc_rows alloc_size alloc_size.

(** The old matrix copied over the first rows and columns of the new one. *)
Fixpoint copy_rows (n size : nat) (old new : list (list Z)) : option (list (list Z)) :=
  match n with
  | O => Some new
  | S n =>
      match old, new with
      | o :: old, r :: new =>
          if decide (size ≤ length o ∧ size ≤ length r)%nat then
            rows ← copy_rows n size old new;
            Some ((take size o ++ drop size r) :: rows)
          else None
      | _, _ => None
      end
  end.

(** [new] with the first [n] entries of [arr]. *)
Definition memcpy_entries (arr : list (option positive)) (n size : nat) : option (list (option positive)) :=
  if decide (n ≤ length arr ∧ n ≤ size)%nat then Some (take n arr ++ replicate (size - n) None) else None.

(** The second part of [tracker_mem_realloc_store_servers]: the copies, the
    new matrix, and the arrays put in place. *)
Definition realloc_install (g : FDFSGroupInfo) (new_size : nat) (new_servers : list (option positive))
    : prog group_state Z :=
  new_sorted_servers ← deref (memcpy_entries (sorted_servers g) (count g) new_size);
  new_active_servers ← deref (memcpy_entries (active_servers g) (count g) new_size);
  rows ← tracker_malloc_last_sync_timestamps new_size;
  if c_true rows.1 then mret rows.1
  else
    new_last_sync_timestamps ←
      deref (copy_rows (alloc_size g) (alloc_size g) (last_sync_timestamps g) rows.2);
    upd_grp (λ g, g <| alloc_size := new_size |> <| all_servers := new_servers |>
                    <| sorted_servers := new_sorted_servers |> <| active_servers := new_active_servers |>
                    <| last_sync_timestamps := new_last_sync_timestamps |>);;
    tracker_mem_find_store_server;;
    (if g_if_leader_self cfg && g_if_use_trunk_file cfg then
       tracker_mem_find_trunk_server true;; mret tt
     else mret tt);;
    mret 0.

Definition tracker_mem_realloc_store_servers (inc_count : nat) (bNeedSleep : bool) : prog group_state Z :=
  g ← get_grp;
  let new_size := (alloc_size g + inc_count + TRACKER_MEM_ALLOC_ONCE)%nat in
  a ← ask env;                                             (* new_servers *)
  if c_true (malloc_result a) then mret (malloc_result a)
  else
    made ← malloc_details (new_size - count g);
    if c_true made.1 then free_details made.2;; mret made.1
    else
      olds ← deref (memcpy_entries (all_servers g) (count g) (count g));
      let new_servers := olds ++ (Some <$> made.2) in
      a ← ask env;                                         (* new_sorted_servers *)
      if c_true (malloc_result a) then mret (malloc_result a)
      else
        a ← ask env;                                       (* new_active_servers *)
        if c_true (malloc_result a) then mret (malloc_result a)
        else
          result ← (if 0 <? store_path_count g then
                      for_servers (λ p, tracker_malloc_storage_path_mbs p (store_path_count g)) made.2
                    else mret 0);
          if c_true result then mret result
          else
            realloc_install g new_size new_servers.

(** ** A new group *)

Definition tracker_mem_free_group (made : list positive) : prog group_state unit :=
  free_details made;;
  upd_grp (λ g, g <| sorted_servers := [] |> <| active_servers := [] |> <| all_servers := [] |>
                  <| last_sync_timestamps := [] |>).

Definition tracker_mem_init_group : prog group_state Z :=
  let n := TRACKER_MEM_ALLOC_ONCE in
  upd_grp (λ g, g <| alloc_size := n |> <| count := 0%nat |>);;
  a ← ask env;                                             (* all_servers *)
  if c_true (malloc_result a) then upd_grp (λ g, g <| all_servers := [] |>);; mret (malloc_result a)
  else
    made ← malloc_details n;
    if c_true made.1 then tracker_mem_free_group made.2;; mret made.1
    else
      upd_grp (λ g, g <| all_servers := Some <$> made.2 |>);;
      a ← ask env;                                         (* sorted_servers *)
      if c_true (malloc_result a) then tracker_mem_free_group made.2;; mret (malloc_result a)
      else
        upd_grp (λ g, g <| sorted_servers := replicate n None |>);;
        a ← ask env;                                       (* active_servers *)
        if c_true (malloc_result a) then tracker_mem_free_group made.2;; mret (malloc_result a)
        else
          upd_grp (λ g, g <| active_servers := replicate n None |>);;
          rows ← tracker_malloc_last_sync_timestamps n;
          upd_grp (λ g, g <| last_sync_timestamps := if c_true rows.1 then [] else rows.2 |>);;
          mret rows.1.

(** ** Adding and removing servers *)

(** The id the server gets: the one given, checked against the table of
    ids, or the one of the ip address. *)
Definition checked_storage_id (id : option (list Z)) (ip_addr : list Z) : prog group_state (Z + list Z) :=
  match id with
  | Some id =>
      if g_use_storage_id cfg then
        g ← get_grp;
        result ← deref (fdfs_check_storage_id (group_name g) id);
        mret (if c_true result then inl result else inr id)
      else mret (inr id)
  | None =>
      storage_id ← storage_id_of_ip ip_addr;
      mret (match storage_id with None => inl ENOENT | Some id => inr id end)
  end.

(** [_tracker_mem_add_storage]: the result, the pointer stored through
    [ppStorageServer] (its old value [pp] when nothing is stored) and
    [*bInserted]. *)
Definition _tracker_mem_add_storage (pp : option positive) (id : option (list Z)) (ip_addr : list Z)
    (bNeedSleep : bool) : prog group_state (Z * option positive * bool) :=
  match ip_addr with
  | [] => mret (EINVAL, pp, false)
  | _ =>
    checked ← checked_storage_id id ip_addr;
    match checked with
    | inl result => mret (result, pp, false)
    | inr id =>
        found ← tracker_mem_get_storage id;
        match found with
        | Some p =>
            (if g_use_storage_id cfg then upd_server p (λ d, d <| TrackerMem.ip_addr := ip_addr |>) else mret tt);;
            d ← get_server p;
            (if (status d =? FDFS_STORAGE_STATUS_DELETED) || (status d =? FDFS_STORAGE_STATUS_IP_CHANGED)
             then upd_server p (λ d, d <| status := FDFS_STORAGE_STATUS_INIT |>) else mret tt);;
            mret (0, Some p, false)
        | None =>
            g ← get_grp;
            result ← (if decide (alloc_size g ≤ count g)%nat then tracker_mem_realloc_store_servers 1 bNeedSleep
                      else mret 0);
            if c_true result then mret (result, None, false)
            else
              g ← get_grp;
              p ← deref (mjoin (all_servers g !! count g));
              upd_server p (λ d, d <| storage_id := snprintf_s FDFS_STORAGE_ID_MAX_SIZE id |>
                                   <| TrackerMem.ip_addr := ip_addr |>);;
              d ← get_server p;
              s ← get;
              sorted ← deref (insert_from (id_of (details s)) p (storage_id d) (count g) (sorted_servers g));
              upd_grp (λ g, g <| sorted_servers := sorted |> <| count ::= S |>
                              <| chg_count ::= λ n, s32 (n + 1) |>);;
              mret (0, Some p, true)
        end
    end
  end.

Definition memset_mbs (arr : option (list Z)) (n : Z) : option (option (list Z)) :=
  match arr with
  | None => Some None
  | Some l =>
      if decide (Z.to_nat n ≤ length l)%nat then Some (Some (zeros n ++ drop (Z.to_nat n) l)) else None
  end.

Definition tracker_mem_clear_storage_fields (p : positive) : prog group_state unit :=
  d ← get_server p;
  total ← deref (memset_mbs (path_total_mbs d) (s_store_path_count d));
  free ← deref (memset_mbs (path_free_mbs d) (s_store_path_count d));
  upd_server p (λ d, d <| path_total_mbs := total |> <| path_free_mbs := free |>
    <| psync_src_server := None |> <| sync_until_timestamp := 0 |> <| s_total_mb := 0 |> <| s_free_mb := 0 |>
    <| changelog_offset := 0 |> <| s_store_path_count := 0 |> <| s_subdir_count_per_path := 0 |>
    <| upload_priority := 0 |> <| current_write_path := 0 |> <| stat := zero_stat |>).

(** A line "time group id status arg" appended to the change log; the
    buffer of the line has 256 bytes. *)
Definition changelog_line (g : FDFSGroupInfo) (d : FDFSStorageDetail) (pArg : list Z) : list Z :=
  sprintf_d (s32 (g_current_time cfg)) ++ [CH_SPACE] ++ group_name g ++ [CH_SPACE] ++ storage_id d ++ [CH_SPACE] ++
  sprintf_d (status d) ++ [CH_SPACE] ++ pArg ++ [CH_LF].

Definition tracker_write_to_changelog (p : positive) (pArg : list Z) : prog group_state Z :=
  g ← get_grp;
  d ← get_server p;
  let line := changelog_line g d pArg in
  a ← ask env;
  if c_true (a_result a) then mret (a_result a)
  else
    upd_glob (λ t, t <| changelog ::= λ f, f ++ line |>
                     <| g_changelog_fsize ::= λ n, n + Z.of_nat (length line) |>);;
    b ← ask env;
    mret (a_result b).

(** No server synchronises from the server [id] any more. *)
Fixpoint forget_sync_src (id : list Z) (l : list positive) : prog group_state unit :=
  match l with
  | [] => mret tt
  | p :: l =>
      d ← get_server p;
      match psync_src_server d with
      | None => mret tt
      | Some q =>
          src ← get_server q;
          if strcmp (storage_id src) id =? 0 then upd_server p (λ d, d <| psync_src_server := None |>) else mret tt
      end;;
      forget_sync_src id l
  end.

Definition is_online (st : Z) : bool :=
  (st =? FDFS_STORAGE_STATUS_ONLINE) || (st =? FDFS_STORAGE_STATUS_ACTIVE) || (st =? FDFS_STORAGE_STATUS_RECOVERY).

Definition tracker_mem_delete_storage (id : list Z) : prog group_state Z :=
  pStorageServer ← tracker_mem_get_storage id;
  match pStorageServer with
  | None => mret ENOENT
  | Some p =>
      d ← get_server p;
      if status d =? FDFS_STORAGE_STATUS_IP_CHANGED then mret ENOENT
      else if is_online (status d) then mret EBUSY
      else if status d =? FDFS_STORAGE_STATUS_DELETED then mret EALREADY
      else
        g ← get_grp;
        l ← servers_in (all_servers g) (count g);
        forget_sync_src id l;;
        tracker_mem_clear_storage_fields p;;
        upd_server p (λ d, d <| status := FDFS_STORAGE_STATUS_DELETED |>);;
        upd_grp (λ g, g <| chg_count ::= λ n, s32 (n + 1) |>);;
        tracker_write_to_changelog p [];;
        mret 0
  end.

(** [qsort] of the first [count] entries by id. *)
Definition id_le (ds : gmap positive FDFSStorageDetail) (p q : positive) : Prop :=
  strcmp (default [] (id_of ds p)) (default [] (id_of ds q)) ≤ 0.

#[export] Instance id_le_dec ds p q : Decision (id_le ds p q).
Proof. unfold id_le. apply _. Defined.

Definition qsort_servers (arr : list (option positive)) (count : nat) : prog group_state (list (option positive)) :=
  s ← get;
  l ← servers_in arr count;
  deref (mapM (id_of (details s)) l);;
  mret ((Some <$> merge_sort (id_le (details s)) l) ++ drop count arr).

Definition tracker_mem_storage_ip_changed (old_storage_ip new_storage_ip : list Z) : prog group_state Z :=
  if g_use_storage_id cfg then mret EOPNOTSUPP
  else
    pOld ← tracker_mem_get_storage old_storage_ip;
    match pOld with
    | None => mret ENOENT
    | Some old =>
        d ← get_server old;
        if status d =? FDFS_STORAGE_STATUS_DELETED then mret ENOENT
        else if is_online (status d) then mret EBUSY
        else if status d =? FDFS_STORAGE_STATUS_IP_CHANGED then mret EALREADY
        else
          pNew ← tracker_mem_get_storage new_storage_ip;
          refused ← match pNew with
                    | None => mret false
                    | Some p => d ← get_server p; mret (negb (status d =? FDFS_STORAGE_STATUS_DELETED))
                    end;
          if refused : bool then mret EEXIST
          else
            r ← _tracker_mem_add_storage pNew (Some new_storage_ip) new_storage_ip true;
            let '(result, pNew, bInserted) := r in
            if c_true result then mret result
            else if negb bInserted then mret EEXIST
            else
              new ← deref pNew;
              let name := snprintf_s FDFS_STORAGE_ID_MAX_SIZE in
              upd_server old (λ d, d <| storage_id := name new_storage_ip |> <| ip_addr := name new_storage_ip |>);;
              upd_server new (λ d, d <| storage_id := name old_storage_ip |> <| ip_addr := name old_storage_ip |>
                                     <| status := FDFS_STORAGE_STATUS_IP_CHANGED |>);;
              upd_grp (λ g, g <| chg_count ::= λ n, s32 (n + 1) |>);;
              g ← get_grp;
              sorted ← qsort_servers (sorted_servers g) (count g);
              upd_grp (λ g, g <| sorted_servers := sorted |>);;
              tracker_write_to_changelog new new_storage_ip;;
              a ← ask env;                                  (* tracker_save_sys_files *)
              mret (a_result a)
    end.

(** ** The states of servers as another tracker or a storage reports them *)

Definition sync_storage (pServer : FDFSStorageBrief) : prog group_state Z :=
  let st := b_status pServer in
  if (st =? FDFS_STORAGE_STATUS_NONE) || (st =? FDFS_STORAGE_STATUS_ACTIVE) || (st =? FDFS_STORAGE_STATUS_ONLINE)
  then mret 0
  else
    let id := take (FDFS_STORAGE_ID_MAX_SIZE - 1) (b_id pServer) in
    g ← get_grp;
    ppFound ← bsearch_server id (sorted_servers g) (count g);
    match ppFound with
    | Some (_, p) =>
        d ← get_server p;
        if (status d =? st) || is_online (status d) then mret 0
        else if (st =? FDFS_STORAGE_STATUS_DELETED) || (st =? FDFS_STORAGE_STATUS_IP_CHANGED) || (status d <? st) then
          upd_server p (λ d, d <| status := st |>);;
          upd_grp (λ g, g <| chg_count ::= λ n, s32 (n + 1) |>);;
          mret 0
        else mret 0
    | None =>
        if (st =? FDFS_STORAGE_STATUS_DELETED) || (st =? FDFS_STORAGE_STATUS_IP_CHANGED) then mret 0
        else
          r ← _tracker_mem_add_storage None (Some id) (take (IP_ADDRESS_SIZE - 1) (b_ip_addr pServer)) true;
          let '(result, _, _) := r in
          (* the status is stored, through an unset pointer, when the call failed *)
          if c_true result then undefined else mret result
    end.

Fixpoint sync_storages (l : list FDFSStorageBrief) (result : Z) : prog group_state Z :=
  match l with
  | [] => mret result
  | b :: l => result ← sync_storage b; sync_storages l result
  end.

Definition tracker_mem_sync_storages (briefServers : list FDFSStorageBrief) : prog group_state Z :=
  sync_storages briefServers 0.

(** ** Active servers *)

Definition tracker_mem_deactive_store_server (pTargetServer : positive) : prog group_state Z :=
  g ← get_grp;
  d ← get_server pTargetServer;
  ppStorageServer ← bsearch_server (storage_id d) (active_servers g) (active_count g);
  match ppStorageServer with
  | None => mret tt
  | Some (i, p) =>
      upd_server p (λ d, d <| s_chg_count := 0 |> <| s_trunk_chg_count := 0 |>);;
      arr ← deref (shift_down (active_count g - 1 - i) i (active_servers g));
      upd_grp (λ g, g <| active_servers := arr |> <| active_count ::= pred |> <| chg_count ::= λ n, s32 (n + 1) |>)
  end;;
  tracker_mem_find_store_server;;
  mret 0.

Definition tracker_mem_active_store_server (pTargetServer : positive) : prog group_state Z :=
  d ← get_server pTargetServer;
  let st := status d in
  if (st =? FDFS_STORAGE_STATUS_WAIT_SYNC) || (st =? FDFS_STORAGE_STATUS_SYNCING) ||
     (st =? FDFS_STORAGE_STATUS_IP_CHANGED) || (st =? FDFS_STORAGE_STATUS_INIT) then mret 0
  else
    upd_server pTargetServer (λ d, d <| status := FDFS_STORAGE_STATUS_ACTIVE |>);;
    g ← get_grp;
    ppStorageServer ← bsearch_server (storage_id d) (active_servers g) (active_count g);
    match ppStorageServer with
    | Some _ => mret 0
    | None =>
        s ← get;
        arr ← deref (insert_from (id_of (details s)) pTargetServer (storage_id d) (active_count g) (active_servers g));
        upd_grp (λ g, g <| active_servers := arr |> <| active_count ::= S |> <| chg_count ::= λ n, s32 (n + 1) |>);;
        tracker_mem_find_store_server;;
        g ← get_grp;
        match pTrunkServer g with
        | None =>
            if g_if_leader_self cfg && g_if_use_trunk_file cfg then tracker_mem_find_trunk_server true;; mret tt
            else mret tt
        | Some _ => mret tt
        end;;
        mret 0
    end.

Definition tracker_mem_offline_store_server (pStorage : positive) : prog group_state Z :=
  upd_server pStorage (λ d, d <| up_time := 0 |>);;
  d ← get_server pStorage;
  let st := status d in
  if (st =? FDFS_STORAGE_STATUS_WAIT_SYNC) || (st =? FDFS_STORAGE_STATUS_SYNCING) ||
     (st =? FDFS_STORAGE_STATUS_INIT) || (st =? FDFS_STORAGE_STATUS_DELETED) ||
     (st =? FDFS_STORAGE_STATUS_IP_CHANGED) || (st =? FDFS_STORAGE_STATUS_RECOVERY) then mret 0
  else
    upd_server pStorage (λ d, d <| status := FDFS_STORAGE_STATUS_OFFLINE |>);;
    tracker_mem_deactive_store_server pStorage.

End operations.
