(* ===== verification/TrackerMemInv.v ===== *)
(** * The invariant of a group of storage servers

    [group_ok v g ds] relates a group [g] and the heap [ds] of its servers
    with a view [v]: the servers in the order they joined, the spare
    objects behind them, the servers in the order of their ids, the active
    ones among them.  The lemmas give the effect of the parts of the
    operations on a group that satisfies it. *)

From S2P Require Import Prelude CLib SortedArray TrackerMem.
From stdpp Require Import sorting.
#[local] Open Scope Z_scope.

Record group_view := {
  v_all : list positive;
  v_spare : list positive;
  v_sorted : list positive;
  v_active : list positive;
}.

Definition is_active (ds : gmap positive FDFSStorageDetail) (p : positive) : Prop :=
  ∃ d, ds !! p = Some d ∧ status d = FDFS_STORAGE_STATUS_ACTIVE.

Record group_ok (v : group_view) (g : FDFSGroupInfo) (ds : gmap positive FDFSStorageDetail) : Prop := {
  ok_all : all_servers g = Some <$> (v_all v ++ v_spare v);
  ok_alloc : alloc_size g = length (v_all v ++ v_spare v);
  ok_count : count g = length (v_all v);
  ok_nodup : NoDup (v_all v ++ v_spare v);
  ok_sorted : holds (sorted_servers g) (v_sorted v);
  ok_sorted_len : length (sorted_servers g) = alloc_size g;
  ok_perm : v_sorted v ≡ₚ v_all v;
  ok_order : sorted_by (id_of ds) (v_sorted v);
  ok_active : holds (active_servers g) (v_active v);
  ok_active_len : length (active_servers g) = alloc_size g;
  ok_active_count : active_count g = length (v_active v);
  ok_active_order : sorted_by (id_of ds) (v_active v);
  ok_active_in : ∀ p, p ∈ v_active v ↔ p ∈ v_all v ∧ is_active ds p;
  ok_objects : ∀ p, p ∈ v_all v ++ v_spare v → is_Some (ds !! p);
  ok_ids : ∀ p d, p ∈ v_all v → ds !! p = Some d → (length (storage_id d) < FDFS_STORAGE_ID_MAX_SIZE)%nat;
  ok_spare : ∀ p d, p ∈ v_spare v → ds !! p = Some d → status d = FDFS_STORAGE_STATUS_INIT;
  ok_src : ∀ p d q, p ∈ v_all v ++ v_spare v → ds !! p = Some d → psync_src_server d = Some q → q ∈ v_all v;
  ok_store : match pStoreServer g with None => v_active v = [] | Some p => p ∈ v_active v end;
  ok_trunk : ∀ p, pTrunkServer g = Some p → p ∈ v_all v;
  ok_last_trunk : (length (last_trunk_server_id g) < FDFS_STORAGE_ID_MAX_SIZE)%nat;
  ok_rows : length (last_sync_timestamps g) = alloc_size g;
  ok_columns : Forall (λ r, length r = alloc_size g) (last_sync_timestamps g);
}.

(** ** Running the primitives *)

(** Some allocation fails. *)
Definition oom (env : nat → answer) : Prop := ∃ n, a_malloc (env n) = false.

Lemma c_true_spec r : c_true r = true ↔ r ≠ 0.
Proof. unfold c_true. destruct (Z.eqb_spec r 0); naive_solver. Qed.

Section primitives.
Context (s : group_state).

Lemma returns_get_grp (Q : FDFSGroupInfo → group_state → Prop) : Q (grp s) s → returns get_grp s Q.
Proof. done. Qed.

Lemma returns_upd_grp f (Q : unit → group_state → Prop) : Q tt (s <| grp ::= f |>) → returns (upd_grp f) s Q.
Proof. done. Qed.

Lemma returns_upd_glob f (Q : unit → group_state → Prop) : Q tt (s <| glob ::= f |>) → returns (upd_glob f) s Q.
Proof. done. Qed.

Lemma returns_get_server p d (Q : FDFSStorageDetail → group_state → Prop) :
  details s !! p = Some d → Q d s → returns (get_server p) s Q.
Proof. intros Hp HQ. by apply returns_bind, returns_get, (returns_deref _ _ d). Qed.

Lemma returns_upd_server p d f (Q : unit → group_state → Prop) :
  details s !! p = Some d → Q tt (s <| details ::= <[p := f d]> |>) → returns (upd_server p f) s Q.
Proof. intros Hp HQ. by apply returns_bind, (returns_get_server p d), returns_modify. Qed.

Lemma returns_ask env (Q : answer → group_state → Prop) :
  (∀ a, (c_true (malloc_result a) = true → oom env) → Q a (s <| glob ::= λ g, g <| ticks ::= S |> |>)) →
  returns (ask env) s Q.
Proof.
  intros HQ. apply HQ. unfold malloc_result. intros Hr. exists (ticks (glob s)). by destruct (a_malloc _).
Qed.

Lemma returns_strcpy_to n (x : list Z) (Q : list Z → group_state → Prop) :
  (length x < n)%nat → Q x s → returns (strcpy_to n x) s Q.
Proof. intros Hn HQ. unfold strcpy_to. by rewrite decide_True. Qed.
End primitives.

(** The next step of a goal [returns (x ← m; ...) s Q]. *)
Ltac step :=
  lazymatch goal with
  | |- returns (_ ≫= _) _ _ => apply returns_bind; step
  | |- returns (mret _) _ _ => apply returns_ret
  | |- returns get _ _ => apply returns_get
  | |- returns get_grp _ _ => apply returns_get_grp
  | |- returns (upd_grp _) _ _ => apply returns_upd_grp
  | |- returns (upd_glob _) _ _ => apply returns_upd_glob
  | |- returns (modify _) _ _ => apply returns_modify
  | |- returns (get_server ?p) ?s _ =>
      match goal with H : _ !! p = Some _ |- _ => apply (returns_get_server s p _ _ H) end
  | |- returns (upd_server ?p _) ?s _ =>
      match goal with H : _ !! p = Some _ |- _ => apply (returns_upd_server s p _ _ _ H) end
  | |- returns (ask _) _ _ => apply returns_ask; intros ?a ?Hoom
  | |- _ => idtac
  end; cbv beta.

(** ** Changing one server *)

Section frame.
Implicit Types (ds : gmap positive FDFSStorageDetail) (l : list positive).

Lemma sorted_by_ext ds ds' l :
  (∀ p, p ∈ l → id_of ds' p = id_of ds p) → sorted_by (id_of ds) l → sorted_by (id_of ds') l.
Proof. apply sorted_by_key_ext. Qed.

Lemma id_of_insert ds p d d' q :
  ds !! p = Some d → storage_id d' = storage_id d → id_of (<[p := d']> ds) q = id_of ds q.
Proof.
  intros Hp Hid. unfold id_of. destruct (decide (p = q)) as [<-|Hne].
  - by rewrite lookup_insert_eq, Hp; cbn; rewrite Hid.
  - by rewrite lookup_insert_ne.
Qed.

Lemma id_of_insert_ne ds p d' q : p ≠ q → id_of (<[p := d']> ds) q = id_of ds q.
Proof. intros Hne. unfold id_of. by rewrite lookup_insert_ne. Qed.

Lemma is_active_insert_ne ds p d' q : p ≠ q → is_active (<[p := d']> ds) q ↔ is_active ds q.
Proof. intros Hne. unfold is_active. by rewrite lookup_insert_ne. Qed.

Lemma is_active_insert ds p d' : is_active (<[p := d']> ds) p ↔ status d' = FDFS_STORAGE_STATUS_ACTIVE.
Proof. unfold is_active. rewrite lookup_insert_eq. naive_solver. Qed.

Lemma is_active_lookup ds p d : ds !! p = Some d → is_active ds p ↔ status d = FDFS_STORAGE_STATUS_ACTIVE.
Proof. unfold is_active. intros ->. naive_solver. Qed.

End frame.

Section server_update.
Context {v : group_view} {g : FDFSGroupInfo} {ds : gmap positive FDFSStorageDetail} (Hok : group_ok v g ds).

Lemma in_all p : p ∈ v_all v → p ∈ v_all v ++ v_spare v.
Proof. intros Hp. apply elem_of_app. by left. Qed.

Lemma in_sorted p : p ∈ v_sorted v ↔ p ∈ v_all v.
Proof. by rewrite (ok_perm _ _ _ Hok). Qed.

Lemma active_all p : p ∈ v_active v → p ∈ v_all v.
Proof. by intros [Hp _]%(ok_active_in _ _ _ Hok). Qed.

Lemma server_object p : p ∈ v_all v → ∃ d, ds !! p = Some d.
Proof. intros Hp. apply (ok_objects _ _ _ Hok), in_all, Hp. Qed.

Lemma server_not_spare p : p ∈ v_all v → p ∉ v_spare v.
Proof.
  intros Hp Hs. destruct (proj1 (NoDup_app _ _) (ok_nodup _ _ _ Hok)) as (_ & Hd & _). by apply (Hd p).
Qed.

(** A change that keeps the id, the activity and sound pointers. *)
Lemma group_ok_upd p d d' :
  p ∈ v_all v → ds !! p = Some d → storage_id d' = storage_id d →
  (status d' = FDFS_STORAGE_STATUS_ACTIVE ↔ status d = FDFS_STORAGE_STATUS_ACTIVE) →
  (∀ q, psync_src_server d' = Some q → q ∈ v_all v) →
  group_ok v g (<[p := d']> ds).
Proof.
  intros Hp Hd Hid Hst Hsrc. assert (Hns := server_not_spare p Hp). destruct Hok. constructor; try assumption.
  - apply (sorted_by_ext ds); [|assumption]. intros q _. by apply (id_of_insert ds p d).
  - apply (sorted_by_ext ds); [|assumption]. intros q _. by apply (id_of_insert ds p d).
  - intros q. rewrite ok_active_in0. destruct (decide (p = q)) as [<-|Hne]; [|by rewrite is_active_insert_ne].
    by rewrite is_active_insert, (is_active_lookup _ _ _ Hd), Hst.
  - intros q Hq. destruct (decide (p = q)) as [<-|Hne]; [by rewrite lookup_insert_eq|].
    rewrite lookup_insert_ne by done. auto.
  - intros q e Hq. destruct (decide (p = q)) as [<-|Hne]; [|rewrite lookup_insert_ne by done; eauto].
    rewrite lookup_insert_eq. intros [= <-]. rewrite Hid. eauto.
  - intros q e Hq. rewrite lookup_insert_ne by (intros ->; done). eauto.
  - intros q e r Hq. destruct (decide (p = q)) as [<-|Hne]; [|rewrite lookup_insert_ne by done; eauto].
    rewrite lookup_insert_eq. intros [= <-]. eauto.
Qed.

(** ** Looking up *)

Lemma sorted_keys : Forall (λ p, is_Some (id_of ds p)) (v_sorted v).
Proof.
  apply Forall_forall. intros p Hp%in_sorted. destruct (server_object p Hp) as [d Hd].
  unfold id_of. rewrite Hd. by eexists.
Qed.

Lemma active_keys : Forall (λ p, is_Some (id_of ds p)) (v_active v).
Proof.
  apply Forall_forall. intros p Hp%active_all. destruct (server_object p Hp) as [d Hd].
  unfold id_of. rewrite Hd. by eexists.
Qed.

Lemma id_of_inj p q k : p ∈ v_all v → q ∈ v_all v → id_of ds p = Some k → id_of ds q = Some k → p = q.
Proof.
  rewrite <- !in_sorted. apply sorted_by_inj, (ok_order _ _ _ Hok).
Qed.

End server_update.

(** [bsearch] in a sorted array of servers. *)
Lemma bsearch_server_ok id l rest s (Q : option (nat * positive) → group_state → Prop) :
  sorted_by (id_of (details s)) l → Forall (λ p, is_Some (id_of (details s) p)) l →
  (∀ i p, l !! i = Some p → id_of (details s) p = Some id → Q (Some (i, p)) s) →
  ((∀ p, p ∈ l → id_of (details s) p ≠ Some id) → Q None s) →
  returns (bsearch_server id ((Some <$> l) ++ rest) (length l)) s Q.
Proof.
  intros Hs Hk Hfound Hnone. unfold bsearch_server. step.
  destruct (find_entry_sorted (id_of (details s)) l rest id Hs Hk) as (r & Hr & Hspec).
  apply returns_bind, (returns_deref _ _ r); [exact Hr|]. destruct r as [i|].
  - destruct Hspec as (p & Hi & Hp). apply returns_bind, (returns_deref _ _ p).
    { rewrite lookup_app_l, list_lookup_fmap, Hi by (rewrite length_fmap; by eapply lookup_lt_Some). done. }
    apply returns_ret, Hfound; done.
  - apply returns_ret, Hnone, Hspec.
Qed.

(** ** The active servers *)

Definition active_list (s : group_state) : list positive :=
  default [] (entries (active_servers (grp s)) (active_count (grp s))).

Lemma active_list_ok v s : group_ok v (grp s) (details s) → active_list s = v_active v.
Proof.
  intros Hok. unfold active_list. destruct (ok_active _ _ _ Hok) as [rest ->].
  by rewrite (ok_active_count _ _ _ Hok), entries_spec.
Qed.

(** ** The server with an id *)

(** [lookup_server v ds id r]: [r] is what a search for [id] gives. *)
Definition lookup_in (l : list positive) (ds : gmap positive FDFSStorageDetail) (id : list Z) (r : option positive) : Prop :=
  match r with
  | Some p => p ∈ l ∧ id_of ds p = Some id
  | None => ∀ p, p ∈ l → id_of ds p ≠ Some id
  end.

Lemma tracker_mem_get_storage_ok v s id :
  group_ok v (grp s) (details s) → (length id < FDFS_STORAGE_ID_MAX_SIZE)%nat →
  returns (tracker_mem_get_storage id) s (λ r s', s' = s ∧ lookup_in (v_all v) (details s) id r).
Proof.
  intros Hok Hid. unfold tracker_mem_get_storage. apply returns_bind, returns_strcpy_to; [done|]. step.
  destruct (ok_sorted _ _ _ Hok) as [rest ->].
  rewrite (ok_count _ _ _ Hok), <- (Permutation_length (ok_perm _ _ _ Hok)). apply returns_bind.
  apply bsearch_server_ok; [apply Hok|apply (sorted_keys Hok)|..].
  - intros i p Hi Hp. apply returns_ret. split; [done|]. split; [|done].
    apply (in_sorted Hok). by eapply list_elem_of_lookup_2.
  - intros Hnone. apply returns_ret. split; [done|]. intros p Hp. by apply Hnone, (in_sorted Hok).
Qed.

Lemma tracker_mem_get_active_storage_by_id_ok v s id :
  group_ok v (grp s) (details s) → (length id < FDFS_STORAGE_ID_MAX_SIZE)%nat →
  returns (tracker_mem_get_active_storage_by_id id) s (λ r s', s' = s ∧ lookup_in (v_active v) (details s) id r).
Proof.
  intros Hok Hid. unfold tracker_mem_get_active_storage_by_id. apply returns_bind, returns_strcpy_to; [done|]. step.
  destruct (ok_active _ _ _ Hok) as [rest ->]. rewrite (ok_active_count _ _ _ Hok). apply returns_bind.
  apply bsearch_server_ok; [apply Hok|apply (active_keys Hok)|..].
  - intros i p Hi Hp. apply returns_ret. split; [done|]. split; [|done]. by eapply list_elem_of_lookup_2.
  - intros Hnone. by apply returns_ret.
Qed.

(** ** The store server *)

Definition priority (ds : gmap positive FDFSStorageDetail) (p : positive) : Z :=
  default 0 (upload_priority <$> ds !! p).

(** The first server of [m :: l] with the least priority value. *)
Fixpoint first_min (ds : gmap positive FDFSStorageDetail) (l : list positive) (m : positive) : positive :=
  match l with
  | [] => m
  | p :: l => first_min ds l (if priority ds p <? priority ds m then p else m)
  end.

Definition store_choice (cfg : tracker_config) (ds : gmap positive FDFSStorageDetail) (l : list positive)
    : option positive :=
  match l with
  | [] => None
  | p :: l => Some (if store_server cfg =? FDFS_STORE_SERVER_FIRST_BY_PRI then first_min ds l p else p)
  end.

Lemma first_min_in ds l m : first_min ds l m ∈ m :: l.
Proof.
  revert m. induction l as [|p l IH]; intros m; cbn [first_min]; [by left|].
  specialize (IH (if priority ds p <? priority ds m then p else m)).
  destruct (priority ds p <? priority ds m); set_solver.
Qed.

Lemma first_min_least ds l m p : p ∈ m :: l → priority ds (first_min ds l m) ≤ priority ds p.
Proof.
  revert m p. induction l as [|q l IH]; intros m p; cbn [first_min].
  { intros ->%list_elem_of_singleton. lia. }
  intros Hp. set (m' := if priority ds q <? priority ds m then q else m).
  assert (Hm : priority ds (first_min ds l m') ≤ priority ds m') by (apply IH; left).
  assert (Hm' : priority ds m' ≤ priority ds m ∧ priority ds m' ≤ priority ds q)
    by (unfold m'; destruct (Z.ltb_spec (priority ds q) (priority ds m)); lia).
  apply elem_of_cons in Hp as [->|[->|Hp]%elem_of_cons]; [lia..|]. apply IH. by right.
Qed.

Lemma store_choice_in cfg ds l :
  match store_choice cfg ds l with None => l = [] | Some p => p ∈ l end.
Proof.
  destruct l as [|p l]; cbn; [done|]. destruct (_ =? _); [apply first_min_in|by left].
Qed.

Lemma min_priority_ok s l m :
  (∀ p, p ∈ m :: l → is_Some (details s !! p)) →
  returns (min_priority l m) s (λ r s', s' = s ∧ r = first_min (details s) l m).
Proof.
  revert m. induction l as [|p l IH]; intros m Hin; cbn [min_priority first_min]; [by apply returns_ret|].
  destruct (Hin p) as [d Hd]; [by right; left|]. destruct (Hin m) as [e He]; [by left|].
  step. step. unfold priority at 1 2. rewrite Hd, He. cbn [fmap option_fmap option_map default].
  apply IH. intros q Hq. apply Hin. destruct (_ <? _); set_solver.
Qed.

Lemma servers_in_ok s l rest (Q : list positive → group_state → Prop) :
  Q l s → returns (servers_in ((Some <$> l) ++ rest) (length l)) s Q.
Proof. intros HQ. apply (returns_deref _ _ l); [apply entries_spec|done]. Qed.

Lemma find_store_server_ok cfg s l :
  holds (active_servers (grp s)) l → active_count (grp s) = length l → (∀ p, p ∈ l → is_Some (details s !! p)) →
  returns (tracker_mem_find_store_server cfg) s (λ _ s',
    s' = s <| grp ::= λ g, g <| pStoreServer := store_choice cfg (details s) l |> |>).
Proof.
  intros [rest Ha] Hc Hin. unfold tracker_mem_find_store_server. step. rewrite Hc, Ha.
  destruct l as [|p l]; [by rewrite decide_True by done; step|]. rewrite decide_False by done.
  apply returns_bind, servers_in_ok. cbn [store_choice].
  destruct (_ =? _); [|by step]. apply returns_bind.
  eapply returns_mono; [by apply min_priority_ok|]. intros r s' [-> ->]. by step.
Qed.

(** ** The trunk server *)

Section trunk.
Context (env : nat → answer) (cfg : tracker_config).

(** Nothing changed but the choice of the trunk server and what [glob]
    counts. *)
Definition trunk_changed (s s' : group_state) : Prop :=
  details s' = details s ∧
  ∃ t n c, grp s' = (grp s) <| pTrunkServer := t |> <| last_trunk_server_id := n |> <| trunk_chg_count := c |>.

Lemma trunk_changed_same s s' : grp s' = grp s → details s' = details s → trunk_changed s s'.
Proof.
  intros Hg Hd. split; [done|]. exists (pTrunkServer (grp s)), (last_trunk_server_id (grp s)), (trunk_chg_count (grp s)).
  rewrite Hg. by destruct s as [[]].
Qed.

Lemma largest_binlog_ok s l size m :
  (∀ p, p ∈ l → is_Some (details s !! p)) →
  returns (largest_binlog env l size m) s (λ r s', r ∈ m :: l ∧ grp s' = grp s ∧ details s' = details s).
Proof.
  revert s m. induction l as [|p l IH]; intros s m Hin; cbn [largest_binlog].
  { apply returns_ret. split; [by left|done]. }
  assert (Hl : ∀ q, q ∈ l → is_Some (details s !! q)) by (intros q Hq; apply Hin; by right).
  destruct (decide (p = m)) as [->|Hne].
  { eapply returns_mono; [by apply IH|]. intros r s' (Hr & ->%eq_sym & ->%eq_sym). set_solver. }
  destruct (Hin p) as [d Hd]; [by left|]. apply returns_bind. unfold tracker_mem_get_trunk_binlog_size.
  step. step. apply returns_ret. destruct (c_true (a_result a));
    (eapply returns_mono; [by apply IH|]); cbn; intros r s' (Hr & Hg & Hds);
    (split; [|done]); [set_solver|destruct (size <? a_size a); set_solver].
Qed.

Lemma set_trunk_server_and_log_ok v s p :
  group_ok v (grp s) (details s) → p ∈ v_all v →
  returns (tracker_set_trunk_server_and_log env (Some p)) s (λ _ s',
    group_ok v (grp s') (details s') ∧ trunk_changed s s' ∧ pTrunkServer (grp s') = Some p).
Proof.
  intros Hok Hp. destruct (server_object Hok p Hp) as [d Hd].
  unfold tracker_set_trunk_server_and_log. step. step. apply returns_bind.
  apply returns_bind, (returns_get_server _ p d); [exact Hd|]. apply returns_ret.
  assert (Hok' : group_ok v ((grp s) <| pTrunkServer := Some p |>) (details s))
    by (destruct Hok; constructor; try assumption; cbn; by intros ? [= <-]).
  destruct (negb _).
  - apply returns_bind. set (s1 := s <| grp ::= _ |>).
    assert (Hl : returns
      match pTrunkServer (grp s), last_trunk_server_id (grp s) with
      | None, _ :: _ => tracker_mem_get_storage (last_trunk_server_id (grp s));; mret tt
      | _, _ => mret tt
      end s1 (λ _ s', s' = s1)).
    { destruct (pTrunkServer (grp s)), (last_trunk_server_id (grp s)) eqn:El; try by apply returns_ret.
      apply returns_bind. eapply returns_mono.
      - apply (tracker_mem_get_storage_ok v); [exact Hok'|]. rewrite <- El. apply Hok.
      - intros r s' [-> _]. by apply returns_ret. }
    eapply returns_mono; [exact Hl|]. intros _ s' ->. step. step. apply returns_ret. cbn. split; [|split].
    + destruct Hok'; constructor; try assumption. cbn. apply (ok_ids _ _ _ Hok p d Hp Hd).
    + split; [done|]. exists (Some p), (storage_id d), (trunk_chg_count (grp s)). done.
    + done.
  - apply returns_ret. split; [exact Hok'|]. split; [|done].
    split; [done|]. exists (Some p), (last_trunk_server_id (grp s)), (trunk_chg_count (grp s)). done.
Qed.

Lemma do_set_trunk_server_ok v s p save :
  group_ok v (grp s) (details s) → p ∈ v_all v →
  returns (tracker_mem_do_set_trunk_server env p save) s (λ r s',
    group_ok v (grp s') (details s') ∧ trunk_changed s s' ∧
    (r = 0 → pTrunkServer (grp s') = Some p) ∧
    (pTrunkServer (grp s') = pTrunkServer (grp s) ∨ pTrunkServer (grp s') = Some p)).
Proof.
  intros Hok Hp. destruct (server_object Hok p Hp) as [d Hd].
  unfold tracker_mem_do_set_trunk_server. step. step. apply returns_bind.
  assert (Hr : returns
    match last_trunk_server_id (grp s) with
    | [] => mret 0
    | _ :: _ => if strcmp (storage_id d) (last_trunk_server_id (grp s)) =? 0 then mret 0 else a ← ask env; mret (a_result a)
    end s (λ _ s', grp s' = grp s ∧ details s' = details s)).
  { destruct (last_trunk_server_id (grp s)); [by apply returns_ret|].
    destruct (_ =? _); [by apply returns_ret|]. step. by apply returns_ret. }
  eapply returns_mono; [exact Hr|]. clear Hr. intros result s1 [Hg Hds]. destruct (c_true result) eqn:Er.
  - apply returns_ret. rewrite Hg, Hds. split; [done|]. split; [by apply trunk_changed_same|].
    split; [by intros ->|by left].
  - apply returns_bind. eapply returns_mono; [apply (set_trunk_server_and_log_ok v); [by rewrite Hg, Hds|done]|].
    intros _ s2 (Hok2 & [Hds2 (t & n & c & Hg2)] & Ht). step. step.
    assert (Hfin : group_ok v ((grp s2) <| trunk_chg_count ::= λ n, s32 (n + 1) |>) (details s2))
      by (destruct Hok2; constructor; assumption).
    assert (Hch : details s2 = details s ∧ ∃ t n c, (grp s2) <| trunk_chg_count ::= λ n, s32 (n + 1) |>
      = (grp s) <| pTrunkServer := t |> <| last_trunk_server_id := n |> <| trunk_chg_count := c |>).
    { split; [by rewrite Hds2, Hds|]. exists t, n, (s32 (c + 1)). by rewrite Hg2, Hg. }
    destruct save; [step|]; apply returns_ret; (split; [exact Hfin|]; split; [exact Hch|]; split; [intros _|right]; exact Ht).
Qed.

Lemma find_trunk_server_ok v s save :
  group_ok v (grp s) (details s) →
  returns (tracker_mem_find_trunk_server env save) s (λ r s',
    group_ok v (grp s') (details s') ∧ trunk_changed s s' ∧
    (r = 0 → ∃ p, pTrunkServer (grp s') = Some p ∧ p ∈ v_active v) ∧
    (pTrunkServer (grp s') = pTrunkServer (grp s) ∨ ∃ p, pTrunkServer (grp s') = Some p ∧ p ∈ v_active v)).
Proof.
  intros Hok. unfold tracker_mem_find_trunk_server. step.
  assert (Hst := ok_store _ _ _ Hok). destruct (pStoreServer (grp s)) as [p|].
  2: { apply returns_ret. split; [done|]. split; [by apply trunk_changed_same|]. split; [done|by left]. }
  destruct (server_object Hok p) as [d Hd]; [by apply (active_all Hok)|]. apply returns_bind.
  unfold tracker_mem_get_trunk_binlog_size. step. step. apply returns_ret. destruct (c_true (a_result a)) eqn:Er.
  { apply returns_ret. split; [done|]. split; [by apply trunk_changed_same|].
    split; [intros Hz; by rewrite Hz in Er|by left]. }
  destruct (ok_active _ _ _ Hok) as [rest Ha]. cbn [grp details]. rewrite Ha, (ok_active_count _ _ _ Hok).
  apply returns_bind, servers_in_ok. apply returns_bind. eapply returns_mono; [apply largest_binlog_ok|].
  { intros q Hq%(active_all Hok). destruct (server_object Hok q Hq) as [e He]. by exists e. }
  intros q s1 (Hq & Hg & Hds). cbn in Hg, Hds.
  assert (Hqa : q ∈ v_active v) by set_solver.
  eapply returns_mono; [apply (do_set_trunk_server_ok v); [by rewrite Hg, Hds|by apply (active_all Hok)]|].
  intros r s2 (Hok2 & [Hd2 (t & n & c & Hg2)] & Ht & Hsame). split; [done|]. split; [|split].
  - split; [by rewrite Hd2|]. exists t, n, c. by rewrite Hg2, Hg.
  - intros Hr. exists q. split; [by apply Ht|done].
  - destruct Hsame as [E|E]; [left; by rewrite E, Hg|right; by exists q].
Qed.

End trunk.
