(* ===== verification/TrackerMemGrow.v ===== *)
(** * Growing the arrays of a group

    [tracker_mem_realloc_store_servers] allocates larger arrays, new spare
    servers and a larger matrix of timestamps.  Whether it succeeds or runs
    out of memory at any of its calls, the group stays sound and the
    servers it had are not touched. *)

From S2P Require Import Prelude CLib SortedArray TrackerMem TrackerMemInv.
From stdpp Require Import sorting.
#[local] Open Scope Z_scope.

(** ** Heaps that agree on what the invariant reads *)

Definition core (d : FDFSStorageDetail) : list Z * Z * option positive :=
  (storage_id d, status d, psync_src_server d).

Definition same_core (ds ds' : gmap positive FDFSStorageDetail) : Prop := ∀ p, core <$> ds' !! p = core <$> ds !! p.

(** What [ds] has, [ds'] has unchanged. *)
Definition heap_grows (ds ds' : gmap positive FDFSStorageDetail) : Prop := ∀ p d, ds !! p = Some d → ds' !! p = Some d.

Lemma heap_grows_refl ds : heap_grows ds ds.
Proof. by intros p d. Qed.

Section same_core.
Context {ds ds' : gmap positive FDFSStorageDetail} (Hc : same_core ds ds').

Lemma same_core_lookup p d' : ds' !! p = Some d' → ∃ d, ds !! p = Some d ∧ core d = core d'.
Proof.
  intros Hp. assert (H := Hc p). rewrite Hp in H. cbn in H.
  symmetry in H. apply fmap_Some in H as (d & Hd & He). by exists d.
Qed.

Lemma same_core_id p : id_of ds' p = id_of ds p.
Proof. assert (H := Hc p). unfold id_of, core in *. destruct (ds' !! p), (ds !! p); cbn in *; congruence. Qed.

Lemma same_core_active p : is_active ds' p ↔ is_active ds p.
Proof.
  assert (H := Hc p). unfold is_active, core in *. destruct (ds' !! p) as [d'|], (ds !! p) as [d|]; cbn in H; try done.
  injection H as _ Hst _. split; intros (e & [= ->] & He); eexists; (split; [done|congruence]).
Qed.

Lemma same_core_is_Some p : is_Some (ds' !! p) ↔ is_Some (ds !! p).
Proof. assert (H := Hc p). by destruct (ds' !! p), (ds !! p). Qed.

Lemma group_ok_core v g : group_ok v g ds → group_ok v g ds'.
Proof.
  intros []. constructor; try assumption.
  - apply (sorted_by_ext ds); [|assumption]. intros p _. apply same_core_id.
  - apply (sorted_by_ext ds); [|assumption]. intros p _. apply same_core_id.
  - intros p. by rewrite same_core_active.
  - intros p Hp. apply same_core_is_Some. auto.
  - intros p d' Hp (d & Hd & [= <- _ _])%same_core_lookup. eauto.
  - intros p d' Hp (d & Hd & [= _ <- _])%same_core_lookup. eauto.
  - intros p d' q Hp (d & Hd & [= _ _ <-])%same_core_lookup. eauto.
Qed.
End same_core.

(** ** Path sizes *)

(** Only the path sizes of the servers [l] differ. *)
Definition paths_changed (l : list positive) (s s' : group_state) : Prop :=
  grp s' = grp s ∧ same_core (details s) (details s') ∧ (∀ p, p ∉ l → details s' !! p = details s !! p).

Lemma paths_changed_refl l s s' : grp s' = grp s → details s' = details s → paths_changed l s s'.
Proof. intros Hg Hd. split; [done|]. rewrite Hd. split; done. Qed.

Lemma paths_changed_trans l s s' s'' : paths_changed l s s' → paths_changed l s' s'' → paths_changed l s s''.
Proof.
  intros (Hg & Hc & Hl) (Hg' & Hc' & Hl'). split; [by rewrite Hg'|]. split.
  - intros p. by rewrite Hc', Hc.
  - intros p Hp. by rewrite Hl', Hl.
Qed.

Lemma paths_changed_upd l s s' p d t f :
  p ∈ l → details s !! p = Some d → grp s' = grp s →
  details s' = <[p := d <| path_total_mbs := t |> <| path_free_mbs := f |>]> (details s) → paths_changed l s s'.
Proof.
  intros Hp Hd Hg Hds. split; [done|]. rewrite Hds. split.
  - intros q. destruct (decide (p = q)) as [<-|Hne]; [by rewrite lookup_insert_eq, Hd|by rewrite lookup_insert_ne].
  - intros q Hq. rewrite lookup_insert_ne; [done|]. by intros ->.
Qed.

Section grow.
Context (env : nat → answer) (cfg : tracker_config).

Lemma malloc_storage_path_mbs_ok l p n s :
  p ∈ l → is_Some (details s !! p) →
  returns (tracker_malloc_storage_path_mbs env p n) s (λ r s', paths_changed l s s' ∧ (r ≠ 0 → oom env)).
Proof.
  intros Hp [d Hd]. unfold tracker_malloc_storage_path_mbs.
  destruct (n <=? 0); [apply returns_ret; split; [by apply paths_changed_refl|done]|].
  step. destruct (c_true (malloc_result a)).
  { apply returns_bind, (returns_upd_server _ p d); [done|]. apply returns_ret. split; [|by auto].
    by apply (paths_changed_upd l s _ p d None (path_free_mbs d)). }
  step. destruct (c_true (malloc_result a0)).
  { apply returns_bind, (returns_upd_server _ p d); [done|]. apply returns_ret. split; [|by auto].
    by apply (paths_changed_upd l s _ p d None None). }
  apply returns_bind, (returns_upd_server _ p d); [done|]. apply returns_ret. split; [|done].
  by apply (paths_changed_upd l s _ p d (Some (zeros n)) (Some (zeros n))).
Qed.

Lemma for_servers_ok (f : positive → prog group_state Z) l l' s :
  (∀ p s, p ∈ l → is_Some (details s !! p) → returns (f p) s (λ r s', paths_changed l s s' ∧ (r ≠ 0 → oom env))) →
  (∀ p, p ∈ l' → p ∈ l ∧ is_Some (details s !! p)) →
  returns (for_servers f l') s (λ r s', paths_changed l s s' ∧ (r ≠ 0 → oom env)).
Proof.
  intros Hf. revert s. induction l' as [|p l' IH]; intros s Hin; cbn [for_servers].
  { apply returns_ret. split; [by apply paths_changed_refl|done]. }
  destruct (Hin p) as [Hp Hd]; [by left|]. apply returns_bind. eapply returns_mono; [by apply Hf|].
  intros r s1 [H1 Ho]. destruct (c_true r); [by apply returns_ret|].
  eapply returns_mono; [apply IH|].
  - intros q Hq. destruct (Hin q) as [Hql Hqd]; [by right|]. split; [done|].
    destruct H1 as (_ & Hc & _). by rewrite (same_core_is_Some Hc).
  - intros r' s2 [H2 Ho2]. split; [|done]. exact (paths_changed_trans _ _ _ _ H1 H2).
Qed.

(** ** New objects *)

Lemma malloc_details_ok n s :
  returns (malloc_details env n) s (λ r s',
    grp s' = grp s ∧ (if c_true r.1 then oom env else length r.2 = n) ∧ NoDup r.2 ∧
    (∀ p, p ∈ r.2 → details s !! p = None ∧ details s' !! p = Some zero_detail) ∧
    (∀ p, p ∉ r.2 → details s' !! p = details s !! p)).
Proof.
  revert s. induction n as [|n IH]; intros s; cbn [malloc_details].
  { apply returns_ret. cbn. split; [done|]. split; [done|]. split; [constructor|]. split; [set_solver|done]. }
  step. destruct (c_true (malloc_result a)) eqn:Er.
  { apply returns_ret. cbn. split; [done|]. split; [rewrite Er; auto|].
    split; [constructor|]. split; [set_solver|done]. }
  step. step. cbn [details grp]. set (p := fresh _).
  assert (Hp : details s !! p = None) by (apply not_elem_of_dom, is_fresh).
  apply returns_bind. eapply returns_mono; [apply IH|]. cbn [grp details fst snd].
  intros [r l] s' (Hg & Hlen & Hnd & Hin & Hout). apply returns_ret. cbn in Hg, Hlen, Hnd, Hin, Hout |- *.
  assert (Hpl : p ∉ l).
  { intros Hpl. destruct (Hin p Hpl) as [Hpn _]. by rewrite lookup_insert_eq in Hpn. }
  split; [done|]. split; [destruct (c_true r); [done|by cbn; f_equal]|]. split; [by constructor|]. split.
  - intros q [->|Hq]%elem_of_cons; [split; [done|]|].
    + by rewrite Hout, lookup_insert_eq.
    + destruct (Hin q Hq) as [Hn Hz]. rewrite lookup_insert_ne in Hn by (by intros ->). done.
  - intros q Hq. rewrite Hout by set_solver. rewrite lookup_insert_ne; [done|]. intros ->. set_solver.
Qed.

Lemma lookup_free (l : list positive) (ds : gmap positive FDFSStorageDetail) p :
  foldr delete ds l !! p = if decide (p ∈ l) then None else ds !! p.
Proof.
  induction l as [|q l IH]; cbn [foldr]; [by rewrite decide_False by set_solver|].
  destruct (decide (p = q)) as [->|Hne].
  - by rewrite lookup_delete_eq, decide_True by (by left).
  - rewrite lookup_delete_ne, IH by done. destruct (decide (p ∈ l)); [rewrite decide_True|rewrite decide_False]; set_solver.
Qed.

(** ** Copies *)

Lemma malloc_rows_ok n size s :
  returns (malloc_rows env n size) s (λ r s', grp s' = grp s ∧ details s' = details s ∧
    (if c_true r.1 then oom env else r.2 = replicate n (replicate size 0))).
Proof.
  revert s. induction n as [|n IH]; intros s; cbn [malloc_rows]; [by apply returns_ret|].
  step. destruct (c_true (malloc_result a)) eqn:Er.
  { apply returns_ret. cbn. split; [done|]. split; [done|]. rewrite Er. auto. }
  apply returns_bind. eapply returns_mono; [apply IH|]. intros [r l] s' (Hg & Hd & Hr).
  apply returns_ret. cbn in *. split; [done|]. split; [done|]. destruct (c_true r); [done|by rewrite Hr].
Qed.

Lemma copy_rows_ok n size old new w :
  (n ≤ length old)%nat → (n ≤ length new)%nat → (size ≤ w)%nat →
  Forall (λ r, (size ≤ length r)%nat) old → Forall (λ r, length r = w) new →
  ∃ rows, copy_rows n size old new = Some rows ∧ length rows = length new ∧ Forall (λ r, length r = w) rows ∧
    (∀ i j o, (i < n)%nat → (j < size)%nat → old !! i = Some o → rows !! i ≫= lookup j = o !! j).
Proof.
  revert old new. induction n as [|n IH]; intros old new Ho Hn Hw Fo Fn; cbn [copy_rows].
  { exists new. repeat split; [done|]. intros i j o Hi. lia. }
  destruct old as [|o old], new as [|r new]; cbn in Ho, Hn; [lia..|].
  apply Forall_cons in Fo as [Hlo Fo]. apply Forall_cons in Fn as [Hlr Fn].
  rewrite decide_True by lia. destruct (IH old new) as (rows & E & Hl & Hf & Hc); [lia..|done|done|].
  rewrite E. cbn [mbind option_bind]. eexists. split; [done|]. split; [by cbn; rewrite Hl|]. split.
  - constructor; [|done]. rewrite length_app, length_take, length_drop. lia.
  - intros [|i] j o' Hi Hj; cbn [lookup list_lookup].
    + intros [= <-]. cbn. rewrite lookup_app_l by (rewrite length_take; lia). by rewrite lookup_take_lt.
    + intros Ho'. apply Hc; [lia|done|done].
Qed.

Lemma memcpy_entries_ok arr l n size :
  holds arr l → (length l ≤ n)%nat → (n ≤ length arr)%nat → (n ≤ size)%nat →
  ∃ arr', memcpy_entries arr n size = Some arr' ∧ holds arr' l ∧ length arr' = size.
Proof.
  intros [rest ->] Hl Hn Hs. unfold memcpy_entries. rewrite decide_True by done. eexists. split; [done|]. split.
  - rewrite take_app_ge by (rewrite length_fmap; lia). rewrite <- app_assoc. by eexists.
  - rewrite length_app, length_take, length_replicate. lia.
Qed.

Lemma active_le v g ds : group_ok v g ds → (length (v_active v) ≤ length (v_all v))%nat.
Proof.
  intros Hok. apply submseteq_length, NoDup_submseteq; [eapply sorted_by_NoDup, Hok|].
  intros p. apply (active_all Hok).
Qed.

(** ** The whole operation *)

(** The group with its arrays replaced; the invariant before the store
    server is chosen anew. *)
Lemma group_ok_arrays v g ds spare n servers sorted active rows :
  group_ok v g ds → servers = Some <$> (v_all v ++ spare) → n = length servers →
  NoDup (v_all v ++ spare) → holds sorted (v_sorted v) → length sorted = n →
  holds active (v_active v) → length active = n → length rows = n → Forall (λ r, length r = n) rows →
  (∀ p, p ∈ spare → core <$> ds !! p = Some (core zero_detail)) →
  group_ok {| v_all := v_all v; v_spare := spare; v_sorted := v_sorted v; v_active := v_active v |}
    (g <| alloc_size := n |> <| all_servers := servers |> <| sorted_servers := sorted |>
       <| active_servers := active |> <| last_sync_timestamps := rows |>
       <| pStoreServer := store_choice cfg ds (v_active v) |>) ds.
Proof.
  intros Hok -> -> Hnd Hs Hsl Ha Hal Hrl Hr Hz. rewrite length_fmap in *.
  assert (Hz' : ∀ p d, p ∈ spare → ds !! p = Some d → core d = core zero_detail).
  { intros p d Hp Hd. assert (E := Hz p Hp). rewrite Hd in E. by apply (inj Some) in E. }
  assert (Hobj : ∀ p, p ∈ v_all v ++ spare → is_Some (ds !! p)).
  { intros p [Hp|Hp]%elem_of_app; [by apply (ok_objects _ _ _ Hok), in_all|].
    assert (E := Hz p Hp). destruct (ds !! p); [by eexists|done]. }
  assert (Hc := store_choice_in cfg ds (v_active v)).
  assert (Hsrc : ∀ p d q, p ∈ v_all v ++ spare → ds !! p = Some d → psync_src_server d = Some q → q ∈ v_all v).
  { intros p d q [Hp|Hp]%elem_of_app Hd Hq; [by apply (ok_src _ _ _ Hok p d q); [apply in_all|..]|].
    assert (E := Hz' p d Hp Hd). unfold core in E. cbn in E. congruence. }
  destruct Hok. constructor; cbn; try assumption; try done.
  intros p d Hp Hd. assert (E := Hz' p d Hp Hd). by injection E.
Qed.

(** What the operation keeps of the group. *)
Definition grown (v : group_view) (s : group_state) (r : Z) (s' : group_state) : Prop :=
  heap_grows (details s) (details s') ∧ group_name (grp s') = group_name (grp s) ∧
  ∃ spare, group_ok {| v_all := v_all v; v_spare := spare; v_sorted := v_sorted v; v_active := v_active v |}
             (grp s') (details s') ∧ (r = 0 → spare ≠ []) ∧ (r ≠ 0 → oom env).

(** The invariant only reads the objects of the group. *)
Lemma group_ok_heap v g ds ds' :
  group_ok v g ds → (∀ p, p ∈ v_all v ++ v_spare v → ds' !! p = ds !! p) → group_ok v g ds'.
Proof.
  intros Hok Hi.
  assert (Hid : ∀ p, p ∈ v_all v → id_of ds' p = id_of ds p).
  { intros p Hp. unfold id_of. by rewrite Hi by by apply in_all. }
  assert (Hsort := in_sorted Hok). assert (Hact := @active_all _ _ _ Hok). destruct Hok.
  constructor; try assumption.
  - apply (sorted_by_ext ds); [|done]. intros p Hp. by apply Hid, Hsort.
  - apply (sorted_by_ext ds); [|done]. intros p Hp. by apply Hid, Hact.
  - intros p. rewrite ok_active_in. unfold is_active.
    split; intros (Hp & d & Hd & Hst); (split; [done|]); exists d; (split; [|done]);
      [rewrite Hi|rewrite <- Hi]; (done || by apply in_all).
  - intros p Hp. rewrite Hi by done. auto.
  - intros p d Hp. rewrite Hi by by apply in_all. by apply ok_ids.
  - intros p d Hp. rewrite Hi by (apply elem_of_app; by right). by apply ok_spare.
  - intros p d q Hp. rewrite Hi by done. eauto.
Qed.

Lemma group_ok_grows v g ds ds' : group_ok v g ds → heap_grows ds ds' → group_ok v g ds'.
Proof.
  intros Hok Hh. apply (group_ok_heap v g ds); [done|]. intros p Hp.
  destruct (ok_objects _ _ _ Hok p Hp) as [d Hd]. by rewrite (Hh p d Hd), Hd.
Qed.

Lemma grown_failed v s s' r :
  group_ok v (grp s) (details s) → grp s' = grp s → heap_grows (details s) (details s') → r ≠ 0 → oom env →
  grown v s r s'.
Proof.
  intros Hok Hg Hh Hr Hoom. split; [done|]. split; [by rewrite Hg|]. exists (v_spare v). split; [|done]. rewrite Hg.
  destruct v. by apply (group_ok_grows _ _ (details s)).
Qed.

Lemma grown_by_objects s s' (made : list positive) :
  (∀ p, p ∈ made → details s !! p = None) → (∀ p, p ∉ made → details s' !! p = details s !! p) →
  heap_grows (details s) (details s').
Proof.
  intros Hn Ho p d Hd. destruct (decide (p ∈ made)) as [Hp|Hp]; [by rewrite (Hn p Hp) in Hd|by rewrite Ho].
Qed.

(** The new objects are made, the group is as it was. *)
Definition objects_made (made : list positive) (s s' : group_state) : Prop :=
  grp s' = grp s ∧ (∀ p, p ∉ made → details s' !! p = details s !! p) ∧
  (∀ p, p ∈ made → core <$> details s' !! p = Some (core zero_detail)).

Section with_made.
Context (made : list positive) (v : group_view) (s : group_state) (Hok : group_ok v (grp s) (details s)).
Context (Hnone : ∀ p, p ∈ made → details s !! p = None).

Lemma objects_made_grows s' : objects_made made s s' → heap_grows (details s) (details s').
Proof. intros (_ & Ho & _). by apply (grown_by_objects s s' made). Qed.

Lemma objects_made_failed s' r : objects_made made s s' → c_true r = true → oom env → grown v s r s'.
Proof.
  intros Hm Hr%c_true_spec Ho. apply grown_failed; [done|apply Hm|by apply objects_made_grows|done..].
Qed.

Lemma objects_made_trans s' s'' : objects_made made s s' → paths_changed made s' s'' → objects_made made s s''.
Proof.
  intros (Hg & Ho & Hm) (Hg' & Hc & Ho'). split; [by rewrite Hg'|]. split.
  - intros p Hp. by rewrite Ho', Ho.
  - intros p Hp. by rewrite Hc, Hm.
Qed.

Lemma made_nodup : NoDup made → NoDup (v_all v ++ made).
Proof.
  intros Hnd. apply NoDup_app. assert (Ha := ok_nodup _ _ _ Hok). apply NoDup_app in Ha as (Ha & _ & _).
  split; [done|]. split; [|done]. intros p Hp Hm. destruct (server_object Hok p Hp) as [d Hd].
  by rewrite (Hnone p Hm) in Hd.
Qed.

Lemma realloc_install_ok s' new_size :
  objects_made made s s' → NoDup made → new_size = (length (v_all v) + length made)%nat →
  (alloc_size (grp s) < new_size)%nat →
  returns (realloc_install env cfg (grp s) new_size (Some <$> (v_all v ++ made))) s' (grown v s).
Proof.
  intros Hm Hnd Hsize Hlt. unfold realloc_install.
  assert (Hgrow := objects_made_grows s' Hm). assert (Hok' := group_ok_grows _ _ _ _ Hok Hgrow).
  assert (Hca : (count (grp s) ≤ alloc_size (grp s))%nat)
    by (rewrite (ok_count _ _ _ Hok), (ok_alloc _ _ _ Hok), length_app; lia).
  destruct (memcpy_entries_ok (sorted_servers (grp s)) (v_sorted v) (count (grp s)) new_size)
    as (sorted & Es & Hs & Hsl); [apply Hok|rewrite (Permutation_length (ok_perm _ _ _ Hok)), (ok_count _ _ _ Hok); lia|
    rewrite (ok_sorted_len _ _ _ Hok); lia|lia|].
  destruct (memcpy_entries_ok (active_servers (grp s)) (v_active v) (count (grp s)) new_size)
    as (active & Ea & Ha & Hal); [apply Hok|rewrite (ok_count _ _ _ Hok); by apply active_le in Hok|
    rewrite (ok_active_len _ _ _ Hok); lia|lia|].
  apply returns_bind, (returns_deref _ _ _ _ Es), returns_bind, (returns_deref _ _ _ _ Ea), returns_bind.
  unfold tracker_malloc_last_sync_timestamps. step. destruct (c_true (malloc_result a)) eqn:Er.
  { apply returns_ret. cbn [fst]. rewrite Er. apply returns_ret. apply objects_made_failed; auto. }
  eapply returns_mono; [apply malloc_rows_ok|]. intros [err rows] s2 (Hg2 & Hd2 & Hrows). cbn in Hg2, Hd2, Hrows |- *.
  assert (Hm2 : objects_made made s s2) by (unfold objects_made; by rewrite Hg2, Hd2).
  destruct (c_true err) eqn:Ee; [by apply returns_ret, objects_made_failed|]. subst rows.
  destruct (copy_rows_ok (alloc_size (grp s)) (alloc_size (grp s)) (last_sync_timestamps (grp s))
    (replicate new_size (replicate new_size 0)) new_size) as (m & Em & Hml & Hmf & _).
  { by rewrite (ok_rows _ _ _ Hok). }
  { rewrite length_replicate. lia. }
  { lia. }
  { eapply Forall_impl; [apply Hok|]. cbn. intros r ->. lia. }
  { apply Forall_replicate, length_replicate. }
  apply returns_bind, (returns_deref _ _ _ _ Em). step. rewrite length_replicate in Hml.
  set (g' := (grp s) <| alloc_size := new_size |> <| all_servers := Some <$> (v_all v ++ made) |>
     <| sorted_servers := sorted |> <| active_servers := active |> <| last_sync_timestamps := m |>).
  assert (Hgok : group_ok {| v_all := v_all v; v_spare := made; v_sorted := v_sorted v; v_active := v_active v |}
    (g' <| pStoreServer := store_choice cfg (details s2) (v_active v) |>) (details s2)).
  { rewrite Hd2. apply group_ok_arrays; try done; [by rewrite length_fmap, length_app|by apply made_nodup|apply Hm]. }
  apply returns_bind. eapply returns_mono.
  { apply (find_store_server_ok cfg _ (v_active v)); cbn; rewrite ?Hg2, ?(proj1 Hm); [done|apply Hok|].
    intros p Hp%(active_all Hok). rewrite Hd2. by apply (ok_objects _ _ _ Hok'), in_all. }
  intros _ s3 ->. cbn.
  assert (Hfin : ∀ s', group_ok {| v_all := v_all v; v_spare := made; v_sorted := v_sorted v; v_active := v_active v |}
    (grp s') (details s') → group_name (grp s') = group_name (grp s) → details s' = details s2 → grown v s 0 s').
  { intros s4 H4 Hn Hd. split; [rewrite Hd; by apply objects_made_grows|]. split; [done|]. exists made. split; [done|].
    split; [|done]. intros _ ->. rewrite (ok_alloc _ _ _ Hok), length_app in Hlt. cbn in Hsize. lia. }
  match goal with |- returns _ ?st _ => set (s3 := st) end.
  assert (Hg3 : grp s3 = g' <| pStoreServer := store_choice cfg (details s2) (v_active v) |>)
    by (unfold g'; rewrite <- (proj1 Hm), <- Hg2; done).
  rewrite <- Hg3 in Hgok. apply returns_bind. destruct (_ && _).
  - apply returns_bind. eapply returns_mono; [apply find_trunk_server_ok; exact Hgok|].
    intros r s4 (H4 & [Hd4 (t & n & c & Hg4)] & _). do 2 apply returns_ret. apply Hfin; [done|by rewrite Hg4, Hg3|done].
  - do 2 apply returns_ret. apply Hfin; [done|by rewrite Hg3|done].
Qed.
End with_made.

(** The operation keeps the invariant; when it succeeds there are spare
    servers. *)
Lemma realloc_store_servers_ok v s inc b :
  group_ok v (grp s) (details s) → (0 < inc)%nat →
  returns (tracker_mem_realloc_store_servers env cfg inc b) s (grown v s).
Proof.
  intros Hok Hinc. unfold tracker_mem_realloc_store_servers. step.
  set (new_size := (alloc_size (grp s) + inc + TRACKER_MEM_ALLOC_ONCE)%nat).
  assert (Hca : (count (grp s) ≤ alloc_size (grp s))%nat)
    by (rewrite (ok_count _ _ _ Hok), (ok_alloc _ _ _ Hok), length_app; lia).
  step. destruct (c_true (malloc_result a)) eqn:Er.
  { apply returns_ret, grown_failed; [done|done|apply heap_grows_refl|by apply c_true_spec|auto]. }
  apply returns_bind. eapply returns_mono; [apply malloc_details_ok|]. cbn.
  intros [err made] s1 (Hg1 & Hlen & Hnd & Hin & Hout). cbn in Hlen, Hnd, Hin, Hout |- *.
  assert (Hnone : ∀ p, p ∈ made → details s !! p = None) by by intros p [Hp _]%Hin.
  destruct (c_true err) eqn:Ee.
  { step. apply returns_ret, grown_failed; [done|done| |by apply c_true_spec|done].
    apply (grown_by_objects s _ made); [done|]. cbn. intros p Hp.
    by rewrite lookup_free, decide_False, Hout. }
  assert (Hm1 : objects_made made s s1).
  { split; [done|]. split; [done|]. intros p [_ ->]%Hin. done. }
  assert (Hall : memcpy_entries (all_servers (grp s)) (count (grp s)) (count (grp s)) = Some (Some <$> v_all v)).
  { unfold memcpy_entries. rewrite (ok_all _ _ _ Hok), (ok_count _ _ _ Hok), fmap_app.
    rewrite decide_True by (rewrite length_app, !length_fmap; lia).
    by rewrite take_app_length' by (by rewrite length_fmap); rewrite Nat.sub_diag, app_nil_r. }
  apply returns_bind, (returns_deref _ _ _ _ Hall).
  step. destruct (c_true (malloc_result a0)) eqn:Er1;
    [apply returns_ret, (objects_made_failed made v s Hok Hnone); auto|].
  step. destruct (c_true (malloc_result a1)) eqn:Er2;
    [apply returns_ret, (objects_made_failed made v s Hok Hnone); auto|].
  match goal with |- returns _ ?st _ => set (s2 := st) end.
  assert (Hp : returns (if 0 <? store_path_count (grp s) then
      for_servers (λ p, tracker_malloc_storage_path_mbs env p (store_path_count (grp s))) made else mret 0) s2
      (λ r s', paths_changed made s2 s' ∧ (r ≠ 0 → oom env))).
  { destruct (0 <? _); [|apply returns_ret; split; [by apply paths_changed_refl|done]].
    apply for_servers_ok; [intros; by apply malloc_storage_path_mbs_ok|].
    intros p Hp. split; [done|]. unfold s2. cbn. destruct (Hin p Hp) as [_ ->]. by eexists. }
  apply returns_bind. eapply returns_mono; [exact Hp|]. intros result s3 [Hch Ho].
  assert (Hm3 : objects_made made s s3) by by eapply objects_made_trans.
  destruct (c_true result) eqn:Er3.
  { apply returns_ret, (objects_made_failed made v s Hok Hnone); [done..|]. by apply Ho, c_true_spec. }
  rewrite <- fmap_app. apply realloc_install_ok; try done; unfold new_size; rewrite ?Hlen, ?(ok_count _ _ _ Hok) in *; lia.
Qed.

End grow.
