(* ===== verification/TrackerMemOps.v ===== *)
(** * The operations on a group keep its invariant

    Each operation of tracker/tracker_mem.c runs without undefined
    behaviour on a group that satisfies [group_ok], leaves one that does,
    and changes the states of the servers the way the abstract operation on
    the map from ids to states says. *)

From S2P Require Import Prelude CLib SortedArray TrackerMem TrackerMemInv TrackerMemGrow.
From stdpp Require Import sorting.
#[local] Open Scope Z_scope.

(** ** The states of the servers by id *)

(** [states v ds m]: [m] maps the ids of the group's servers to their states. *)
Definition states (v : group_view) (ds : gmap positive FDFSStorageDetail) (m : gmap (list Z) Z) : Prop :=
  ∀ id st, m !! id = Some st ↔ ∃ p d, p ∈ v_all v ∧ ds !! p = Some d ∧ storage_id d = id ∧ status d = st.

Section states.
Context {v : group_view} {g : FDFSGroupInfo} {ds : gmap positive FDFSStorageDetail} {m : gmap (list Z) Z}.
Context (Hok : group_ok v g ds) (Hm : states v ds m).

Lemma states_lookup p d : p ∈ v_all v → ds !! p = Some d → m !! storage_id d = Some (status d).
Proof. intros Hp Hd. apply Hm. by exists p, d. Qed.

Lemma states_none id : (∀ p, p ∈ v_all v → id_of ds p ≠ Some id) → m !! id = None.
Proof.
  intros Hn. destruct (m !! id) as [st|] eqn:E; [|done]. apply Hm in E as (p & d & Hp & Hd & Hid & _).
  destruct (Hn p Hp). unfold id_of. by rewrite Hd; cbn; rewrite Hid.
Qed.

Lemma states_upd p d d' :
  p ∈ v_all v → ds !! p = Some d → storage_id d' = storage_id d →
  states v (<[p := d']> ds) (<[storage_id d := status d']> m).
Proof.
  intros Hp Hd Hid id st. destruct (decide (id = storage_id d)) as [->|Hne].
  - rewrite lookup_insert_eq. split.
    + intros [= <-]. exists p, d'. by rewrite lookup_insert_eq.
    + intros (q & e & Hq & He & Hqid & Hst). assert (q = p) as ->.
      { apply (id_of_inj Hok q p (storage_id d)); [done|done| |unfold id_of; by rewrite Hd].
        rewrite <- (id_of_insert ds p d d' q Hd Hid). unfold id_of. rewrite He. cbn. by rewrite Hqid. }
      rewrite lookup_insert_eq in He. by simplify_eq.
  - rewrite lookup_insert_ne by done. rewrite (Hm id st). split; intros (q & e & Hq & He & Hqid & Hst); exists q, e.
    + rewrite lookup_insert_ne; [done|]. intros <-. by simplify_eq.
    + destruct (decide (p = q)) as [<-|Hpq]; [|by rewrite lookup_insert_ne in He].
      rewrite lookup_insert_eq in He. injection He as <-. congruence.
Qed.

Lemma states_upd_same p d d' :
  p ∈ v_all v → ds !! p = Some d → storage_id d' = storage_id d → status d' = status d → states v (<[p := d']> ds) m.
Proof.
  intros Hp Hd Hid Hst. rewrite <- (insert_id m (storage_id d) (status d')); [by apply states_upd|].
  rewrite Hst. by apply (states_lookup p).
Qed.

Lemma states_heap ds' : (∀ p, p ∈ v_all v → ds' !! p = ds !! p) → states v ds' m.
Proof.
  intros Hi id st. rewrite (Hm id st). split; intros (p & d & Hp & Hd & H); exists p, d; by rewrite ?Hi in *.
Qed.

Lemma states_core ds' : same_core ds ds' → states v ds' m.
Proof.
  intros Hc id st. rewrite (Hm id st).
  split; intros (p & d & Hp & Hd & Hid & Hst); assert (E := Hc p); rewrite Hd in E; cbn in E.
  - apply fmap_Some in E as (d' & Hd' & [= Ei Es _]). exists p, d'. by rewrite <- Ei, <- Es.
  - symmetry in E. apply fmap_Some in E as (d' & Hd' & [= Ei Es _]). exists p, d'. by rewrite <- Ei, <- Es.
Qed.

Lemma states_active p d : p ∈ v_all v → ds !! p = Some d →
  p ∈ v_active v ↔ status d = FDFS_STORAGE_STATUS_ACTIVE.
Proof. intros Hp Hd. rewrite (ok_active_in _ _ _ Hok), (is_active_lookup _ _ _ Hd). naive_solver. Qed.
End states.

Lemma states_fun v ds m m' : states v ds m → states v ds m' → m = m'.
Proof. intros H H'. apply map_eq. intros id. apply option_eq. intros st. by rewrite (H id st), (H' id st). Qed.

(** ** The id of a storage *)

(** The ids of the tables fit their fields. *)
Definition ids_ok (cfg : tracker_config) : Prop :=
  Forall (λ i, (length (i_id i) < FDFS_STORAGE_ID_MAX_SIZE)%nat) (g_storage_ids_by_ip cfg).

(** The id a call names: [id] itself, or the one of the ip address. *)
Definition names_id (cfg : tracker_config) (group : list Z) (id : option (list Z)) (ip i : list Z) : Prop :=
  match id with
  | Some x => i = x
  | None =>
      if g_use_storage_id cfg then ∃ info, fdfs_get_storage_id_by_ip cfg group ip = Some (Some info) ∧ i = i_id info
      else i = ip
  end.

(** The ids the caller gives fit their buffers. *)
Definition fits (id : option (list Z)) (ip : list Z) : Prop :=
  match id with
  | Some x => (length x < FDFS_STORAGE_ID_MAX_SIZE)%nat
  | None => (length ip < FDFS_STORAGE_ID_MAX_SIZE)%nat
  end.

Section ops.
Context (env : nat → answer) (cfg : tracker_config) (Hids : ids_ok cfg).

Lemma fdfs_get_storage_id_by_ip_ok group ip :
  ∃ r, fdfs_get_storage_id_by_ip cfg group ip = Some r ∧
       (∀ i, r = Some i → (length (i_id i) < FDFS_STORAGE_ID_MAX_SIZE)%nat).
Proof.
  unfold fdfs_get_storage_id_by_ip.
  destruct (bsearch_total (λ i, cmp_group_name_and_ip (snprintf_s 24 group) (snprintf_s IP_ADDRESS_SIZE ip)
    <$> g_storage_ids_by_ip cfg !! i) (length (g_storage_ids_by_ip cfg))) as (r & -> & Hr).
  { intros i Hi. apply lookup_lt_is_Some_2 in Hi as [x ->]. by eexists. }
  cbn [mbind option_bind]. eexists. split; [done|]. intros i Hi. destruct r as [j|]; [|done]. cbn in Hi.
  unfold ids_ok in Hids. rewrite Forall_forall in Hids. by apply Hids, (list_elem_of_lookup_2 _ j).
Qed.

Lemma fdfs_check_storage_id_ok group id : ∃ r, fdfs_check_storage_id cfg group id = Some r.
Proof.
  unfold fdfs_check_storage_id, fdfs_get_storage_by_id.
  destruct (bsearch_total (λ i, strcmp (snprintf_s FDFS_STORAGE_ID_MAX_SIZE id) <$> (i_id <$> g_storage_ids_by_id cfg !! i))
    (length (g_storage_ids_by_id cfg))) as (r & -> & Hr).
  { intros i Hi. apply lookup_lt_is_Some_2 in Hi as [x ->]. by eexists. }
  cbn [mbind option_bind]. destruct r as [j|]; cbn; [|by eexists].
  destruct (g_storage_ids_by_id cfg !! j); by eexists.
Qed.

Lemma storage_id_of_ip_ok s ip :
  (length ip < FDFS_STORAGE_ID_MAX_SIZE)%nat →
  returns (storage_id_of_ip cfg ip) s (λ r s', s' = s ∧
    ∀ i, r = Some i → (length i < FDFS_STORAGE_ID_MAX_SIZE)%nat ∧ names_id cfg (group_name (grp s)) None ip i).
Proof.
  intros Hip. unfold storage_id_of_ip, names_id. destruct (g_use_storage_id cfg).
  - step. destruct (fdfs_get_storage_id_by_ip_ok (group_name (grp s)) ip) as (r & Hr & Hfit).
    apply returns_bind, (returns_deref _ _ _ _ Hr), returns_ret. split; [done|].
    intros i (info & -> & ->)%fmap_Some. split; [by apply Hfit|]. by exists info.
  - apply returns_ret. split; [done|]. by intros i [= <-].
Qed.

Lemma checked_storage_id_ok s id ip :
  fits id ip →
  returns (checked_storage_id cfg id ip) s (λ r s', s' = s ∧
    match r with
    | inl e => e ≠ 0 ∧ g_use_storage_id cfg = true
    | inr i => (length i < FDFS_STORAGE_ID_MAX_SIZE)%nat ∧ names_id cfg (group_name (grp s)) id ip i
    end).
Proof.
  intros Hfit. unfold checked_storage_id. destruct id as [id|]; cbn in Hfit.
  - destruct (g_use_storage_id cfg) eqn:Hu; [|by apply returns_ret].
    step. destruct (fdfs_check_storage_id_ok (group_name (grp s)) id) as [r Hr].
    apply returns_bind, (returns_deref _ _ _ _ Hr), returns_ret. split; [done|].
    destruct (c_true r) eqn:E; [by apply c_true_spec in E|done].
  - apply returns_bind. unfold storage_id_of_ip. destruct (g_use_storage_id cfg) eqn:Hu.
    + step. destruct (fdfs_get_storage_id_by_ip_ok (group_name (grp s)) ip) as (r & Hr & Hf).
      apply returns_bind, (returns_deref _ _ _ _ Hr), returns_ret, returns_ret. split; [done|].
      destruct r as [i|]; cbn; [|done]. split; [by apply Hf|]. rewrite Hu. by exists i.
    + do 2 apply returns_ret. split; [done|]. split; [done|]. cbn. by rewrite Hu.
Qed.

(** ** Adding a server *)

Definition revived (st : Z) : Z :=
  if (st =? FDFS_STORAGE_STATUS_DELETED) || (st =? FDFS_STORAGE_STATUS_IP_CHANGED) then FDFS_STORAGE_STATUS_INIT else st.

(** The first spare server becomes the server [i]. *)
Lemma add_new_ok v g ds m p sp d d' i ip :
  group_ok v g ds → states v ds m → v_spare v = p :: sp → ds !! p = Some d →
  d' = d <| storage_id := i |> <| ip_addr := ip |> →
  (length i < FDFS_STORAGE_ID_MAX_SIZE)%nat → (∀ q, q ∈ v_all v → id_of ds q ≠ Some i) →
  ∃ sorted l, insert_from (id_of (<[p := d']> ds)) p i (count g) (sorted_servers g) = Some sorted ∧
    let v' := {| v_all := v_all v ++ [p]; v_spare := sp; v_sorted := l; v_active := v_active v |} in
    group_ok v' (g <| sorted_servers := sorted |> <| count ::= S |> <| chg_count ::= λ n, s32 (n + 1) |>)
      (<[p := d']> ds) ∧
    states v' (<[p := d']> ds) (<[i := FDFS_STORAGE_STATUS_INIT]> m).
Proof.
  intros Hok Hm Hsp Hd Hd' Hi Hnew.
  assert (Hsid : storage_id d' = i) by by rewrite Hd'.
  assert (Hst : status d' = FDFS_STORAGE_STATUS_INIT).
  { rewrite Hd'. apply (ok_spare _ _ _ Hok p d); [rewrite Hsp; by left|done]. }
  assert (Hnin : p ∉ v_all v).
  { intros Hp. apply (server_not_spare Hok p Hp). rewrite Hsp. by left. }
  assert (Hne : ∀ q, q ∈ v_all v → p ≠ q) by by intros q Hq <-.
  assert (Hido : ∀ q, q ∈ v_all v → id_of (<[p := d']> ds) q = id_of ds q) by (intros; by apply id_of_insert_ne, Hne).
  assert (Hidp : id_of (<[p := d']> ds) p = Some i) by (unfold id_of; rewrite lookup_insert_eq; cbn; by rewrite Hsid).
  destruct (ok_sorted _ _ _ Hok) as [rest Hrest].
  assert (Hlen : (length (v_sorted v) < length (sorted_servers g))%nat).
  { rewrite (Permutation_length (ok_perm _ _ _ Hok)), (ok_sorted_len _ _ _ Hok), (ok_alloc _ _ _ Hok), length_app, Hsp.
    cbn. lia. }
  destruct rest as [|e rest]; [rewrite Hrest, app_nil_r, length_fmap in Hlen; lia|].
  destruct (insert_from_spec (id_of (<[p := d']> ds)) p i (v_sorted v) e rest) as (l & El & Hperm & Hsl).
  { apply (sorted_by_ext ds); [|apply Hok]. intros q Hq. by apply Hido, (in_sorted Hok). }
  { eapply Forall_impl; [apply (sorted_keys Hok)|]. cbn. intros q [k Hk].
    destruct (decide (p = q)) as [<-|Hpq]; [by eexists|]. rewrite id_of_insert_ne by done. by eexists. }
  { done. }
  { intros q Hq. rewrite Hido by by apply (in_sorted Hok). by apply Hnew, (in_sorted Hok). }
  exists ((Some <$> l) ++ rest), l. split.
  { rewrite Hrest, (ok_count _ _ _ Hok), <- (Permutation_length (ok_perm _ _ _ Hok)). exact El. }
  assert (Happ : (v_all v ++ [p]) ++ sp = v_all v ++ v_spare v) by by rewrite Hsp, <- app_assoc.
  assert (Hlk : ∀ q, q ∈ (v_all v ++ [p]) ++ sp → is_Some (<[p := d']> ds !! q)).
  { intros q Hq. destruct (decide (p = q)) as [<-|Hpq]; [by rewrite lookup_insert_eq|].
    rewrite lookup_insert_ne by done. apply (ok_objects _ _ _ Hok). by rewrite <- Happ. }
  cbv zeta. split.
  - assert (Hact := @active_all _ _ _ Hok). assert (Hperm0 := ok_perm _ _ _ Hok).
    assert (Hlenl : length l = S (length (v_sorted v))) by by rewrite (Permutation_length Hperm).
    assert (Hal := ok_sorted_len _ _ _ Hok). rewrite Hrest in Hal.
    destruct Hok. constructor; cbn; try assumption.
    + by rewrite ok_all, Happ.
    + by rewrite ok_alloc, Happ.
    + rewrite length_app. cbn. lia.
    + by rewrite Happ.
    + by eexists.
    + rewrite <- Hal, !length_app, !length_fmap. cbn. lia.
    + rewrite Hperm, Hperm0. apply Permutation_cons_append.
    + apply (sorted_by_ext ds); [|done]. intros q Hq. by apply Hido, Hact.
    + intros q. rewrite ok_active_in, elem_of_app, list_elem_of_singleton. split.
      * intros [Hq Ha]. split; [by left|]. by apply is_active_insert_ne; [apply Hne|].
      * intros [[Hq| ->] Ha]; [split; [done|]; by apply is_active_insert_ne in Ha; [|apply Hne]|].
        apply is_active_insert in Ha. by rewrite Hst in Ha.
    + intros q e' [Hq|Hq%list_elem_of_singleton]%elem_of_app.
      * rewrite lookup_insert_ne by by apply Hne. by apply ok_ids.
      * subst q. rewrite lookup_insert_eq. intros [= <-]. by rewrite Hsid.
    + intros q e' Hq. rewrite lookup_insert_ne; [apply ok_spare; rewrite Hsp; by right|].
      intros <-. rewrite Hsp, NoDup_app in ok_nodup. destruct ok_nodup as (_ & _ & [Hp _]%NoDup_cons). done.
    + intros q e' r Hq He Hr. apply elem_of_app. left.
      destruct (decide (p = q)) as [<-|Hpq].
      * rewrite lookup_insert_eq in He. injection He as <-. rewrite Hd' in Hr. apply (ok_src p d r); [|done|done].
        rewrite Hsp. apply elem_of_app. right. by left.
      * rewrite lookup_insert_ne in He by done. apply (ok_src q e' r); [|done|done]. by rewrite <- Happ.
    + intros q Hq. apply elem_of_app. left. auto.
  - intros id st. destruct (decide (id = i)) as [->|Hidi].
    + rewrite lookup_insert_eq. split.
      * intros [= <-]. exists p, d'. cbn. rewrite lookup_insert_eq, elem_of_app, list_elem_of_singleton. naive_solver.
      * cbn. intros (q & e' & [Hq|Hq%list_elem_of_singleton]%elem_of_app & He & Heid & Hest).
        -- rewrite lookup_insert_ne in He by by apply Hne. destruct (Hnew q Hq). unfold id_of. by rewrite He; cbn; rewrite Heid.
        -- subst q. rewrite lookup_insert_eq in He. injection He as <-. by rewrite <- Hest, Hst.
    + rewrite lookup_insert_ne by done. rewrite (Hm id st). cbn. split.
      * intros (q & e' & Hq & He & H). exists q, e'. rewrite elem_of_app, lookup_insert_ne by by apply Hne. naive_solver.
      * intros (q & e' & [Hq|Hq%list_elem_of_singleton]%elem_of_app & He & Heid & Hest).
        -- rewrite lookup_insert_ne in He by by apply Hne. by exists q, e'.
        -- subst q. rewrite lookup_insert_eq in He. injection He as <-. congruence.
Qed.
(** What [_tracker_mem_add_storage] does: nothing when it fails; otherwise
    the id has a server, new ones start in the state INIT. *)
Definition added (v : group_view) (s : group_state) (m : gmap (list Z) Z) (id : option (list Z)) (ip : list Z)
    (x : Z * option positive * bool) (s' : group_state) : Prop :=
  let '(r, pp, bInserted) := x in
  ∃ v' m', group_ok v' (grp s') (details s') ∧ states v' (details s') m' ∧ v_active v' = v_active v ∧
    if c_true r then
      m' = m ∧ v_all v' = v_all v ∧
      (ip = [] ∨ g_use_storage_id cfg = true ∨
       oom env ∧ ∃ i, names_id cfg (group_name (grp s)) id ip i ∧ m !! i = None)
    else
      ∃ i p, (length i < FDFS_STORAGE_ID_MAX_SIZE)%nat ∧ names_id cfg (group_name (grp s)) id ip i ∧ pp = Some p ∧
        p ∈ v_all v' ∧ id_of (details s') p = Some i ∧
        if bInserted : bool then
          v_all v' = v_all v ++ [p] ∧ p ∉ v_all v ∧ m !! i = None ∧ m' = <[i := FDFS_STORAGE_STATUS_INIT]> m ∧
          (∀ q, q ∈ v_all v → details s' !! q = details s !! q)
        else v_all v' = v_all v ∧ ∃ st, m !! i = Some st ∧ m' = <[i := revived st]> m.

(** The server exists. *)
Lemma add_found_ok v s m p i id ip :
  group_ok v (grp s) (details s) → states v (details s) m →
  (length i < FDFS_STORAGE_ID_MAX_SIZE)%nat → names_id cfg (group_name (grp s)) id ip i →
  p ∈ v_all v → id_of (details s) p = Some i →
  returns (
    (if g_use_storage_id cfg then upd_server p (λ d, d <| ip_addr := ip |>) else mret tt);;
    d ← get_server p;
    (if (status d =? FDFS_STORAGE_STATUS_DELETED) || (status d =? FDFS_STORAGE_STATUS_IP_CHANGED)
     then upd_server p (λ d, d <| status := FDFS_STORAGE_STATUS_INIT |>) else mret tt);;
    mret (0, Some p, false)) s (added v s m id ip).
Proof.
  intros Hok Hm Hi Hn Hp Hpi. destruct (server_object Hok p Hp) as [d Hd].
  assert (Hdi : storage_id d = i) by (unfold id_of in Hpi; rewrite Hd in Hpi; by injection Hpi).
  set (d1 := if g_use_storage_id cfg then d <| ip_addr := ip |> else d).
  set (d2 := d1 <| status := revived (status d) |>).
  assert (H2 : core d2 = (i, revived (status d), psync_src_server d)) by (unfold d2, d1; destruct (g_use_storage_id cfg); by rewrite <- Hdi).
  assert (Hfin : ∀ s', grp s' = grp s → details s' = <[p := d2]> (details s) → added v s m id ip (0, Some p, false) s').
  { intros s' Hg Hds. exists v, (<[i := revived (status d)]> m).
    assert (Hid2 := f_equal (fst ∘ fst) H2). assert (Hst2 := f_equal (snd ∘ fst) H2). assert (Hsrc2 := f_equal snd H2).
    cbn [compose core fst snd] in Hid2, Hst2, Hsrc2. rewrite Hg, Hds. split.
    { apply (group_ok_upd Hok p d); [done|done|by rewrite Hid2, Hdi| |].
      - rewrite Hst2. unfold revived. destruct (Z.eqb_spec (status d) FDFS_STORAGE_STATUS_DELETED) as [->|];
          [done|]. by destruct (Z.eqb_spec (status d) FDFS_STORAGE_STATUS_IP_CHANGED) as [->|].
      - intros q. rewrite Hsrc2. apply (ok_src _ _ _ Hok p d q); [by apply in_all|done]. }
    split; [rewrite <- Hst2, <- Hdi; apply (states_upd Hok Hm p d); [done|done|by rewrite Hid2, Hdi]|].
    split; [done|]. exists i, p. split; [done|]. split; [done|]. split; [done|]. split; [done|].
    split; [unfold id_of; rewrite lookup_insert_eq; cbn [fmap option_fmap option_map]; by rewrite Hid2|]. split; [done|].
    exists (status d). split; [|done]. rewrite <- Hdi. by apply (states_lookup Hm p). }
  apply returns_bind.
  assert (H1 : returns (if g_use_storage_id cfg then upd_server p (λ d, d <| ip_addr := ip |>) else mret tt) s
    (λ _ s', grp s' = grp s ∧ details s' = <[p := d1]> (details s))).
  { unfold d1. destruct (g_use_storage_id cfg); [by step|]. apply returns_ret. by rewrite insert_id. }
  eapply returns_mono; [exact H1|]. intros _ s1 [Hg1 Hd1].
  assert (Hp1 : details s1 !! p = Some d1) by by rewrite Hd1, lookup_insert_eq.
  assert (Hst1 : status d1 = status d) by (unfold d1; by destruct (g_use_storage_id cfg)).
  step. apply returns_bind. unfold d2, revived in Hfin. rewrite Hst1. destruct (_ || _).
  - step. apply returns_ret. apply Hfin; [done|]. cbn. by rewrite Hd1, insert_insert_eq.
  - do 2 apply returns_ret. apply Hfin; [done|]. rewrite Hd1. f_equal. rewrite <- Hst1. by destruct d1.
Qed.

Lemma add_storage_ok v s m pp id ip b :
  group_ok v (grp s) (details s) → states v (details s) m → fits id ip →
  returns (_tracker_mem_add_storage env cfg pp id ip b) s (added v s m id ip).
Proof.
  intros Hok Hm Hfit. unfold _tracker_mem_add_storage. destruct ip as [|c ip'].
  { apply returns_ret. exists v, m. split; [done|]. split; [done|]. split; [done|]. cbn. naive_solver. }
  set (ip := c :: ip') in *. clearbody ip. apply returns_bind.
  eapply returns_mono; [by apply checked_storage_id_ok|]. intros [e|i] s0 [-> H0].
  { apply returns_ret. exists v, m. split; [done|]. split; [done|]. split; [done|].
    destruct H0 as [He%c_true_spec Hu]. rewrite He. naive_solver. }
  destruct H0 as [Hi Hn]. apply returns_bind.
  eapply returns_mono; [by apply (tracker_mem_get_storage_ok v)|]. intros [p|] s0 [-> Hl]; cbn [lookup_in] in Hl.
  { destruct Hl as [Hp Hpi]. by apply (add_found_ok _ _ _ _ i). }
  step. apply returns_bind.
  assert (Hgrown : returns (if decide (alloc_size (grp s) ≤ count (grp s))%nat
    then tracker_mem_realloc_store_servers env cfg 1 b else mret 0) s (grown env v s)).
  { destruct (decide _) as [|Hlt]; [apply realloc_store_servers_ok; [done|lia]|].
    apply returns_ret. split; [apply heap_grows_refl|]. split; [done|]. exists (v_spare v).
    split; [by destruct v|]. split; [|done]. intros _ Hsp. apply Hlt.
    rewrite (ok_alloc _ _ _ Hok), (ok_count _ _ _ Hok), length_app, Hsp. cbn. lia. }
  eapply returns_mono; [exact Hgrown|]. clear Hgrown. intros r s1 (Hh & Hgn & sp & Hok1 & Hsp & Hoom).
  set (v1 := {| v_all := v_all v; v_spare := sp; v_sorted := v_sorted v; v_active := v_active v |}) in *.
  assert (Hh' : ∀ q, q ∈ v_all v → details s1 !! q = details s !! q).
  { intros q Hq. destruct (server_object Hok q Hq) as [d Hd]. by rewrite (Hh q d Hd), Hd. }
  assert (Hm1 : states v1 (details s1) m) by by apply (states_heap Hm).
  destruct (c_true r) eqn:Er.
  { apply returns_ret. exists v1, m. split; [done|]. split; [done|]. split; [done|]. rewrite Er.
    split; [done|]. split; [done|]. right; right. split; [by apply Hoom, c_true_spec|].
    exists i. split; [done|]. by apply (states_none Hm). }
  destruct sp as [|p sp'].
  { destruct Hsp; [|done]. unfold c_true in Er. by apply Z.eqb_eq, negb_false_iff. }
  destruct (ok_objects _ _ _ Hok1 p) as [d Hd]; [apply elem_of_app; right; by left|].
  step. apply returns_bind, (returns_deref _ _ p).
  { rewrite (ok_all _ _ _ Hok1), (ok_count _ _ _ Hok1), fmap_app, lookup_app_r, length_fmap, Nat.sub_diag
      by (rewrite length_fmap; lia). done. }
  assert (Hsn : snprintf_s FDFS_STORAGE_ID_MAX_SIZE i = i).
  { apply take_ge. unfold FDFS_STORAGE_ID_MAX_SIZE in *. lia. }
  step. rewrite Hsn. set (d' := d <| storage_id := i |> <| ip_addr := ip |>).
  apply returns_bind, (returns_get_server _ p d'); [cbn; by rewrite lookup_insert_eq|]. step.
  destruct (add_new_ok v1 (grp s1) (details s1) m p sp' d d' i ip Hok1 Hm1) as (sorted & l & El & Hok2 & Hm2);
    [done..| |].
  { intros q Hq. unfold id_of. rewrite Hh' by done. by apply Hl. }
  apply returns_bind, (returns_deref _ _ sorted); [exact El|]. step. apply returns_ret.
  eexists _, _. split; [exact Hok2|]. split; [exact Hm2|]. split; [done|].
  assert (Hpn : p ∉ v_all v) by (intros Hp; apply (server_not_spare Hok1 p Hp); by left).
  exists i, p. split; [done|]. split; [done|]. split; [done|].
  split; [cbn; apply elem_of_app; right; by left|]. split; [unfold id_of; cbn; by rewrite lookup_insert_eq|].
  split; [done|]. split; [done|]. split; [by apply (states_none Hm)|]. split; [done|].
  intros q Hq. cbn. rewrite lookup_insert_ne by (by intros ->). by apply Hh'.
Qed.

(** ** Deleting a server *)

(** The result and the states after [tracker_mem_delete_storage]. *)
Definition delete_server (m : gmap (list Z) Z) (id : list Z) : Z * gmap (list Z) Z :=
  match m !! id with
  | None => (ENOENT, m)
  | Some st =>
      if st =? FDFS_STORAGE_STATUS_IP_CHANGED then (ENOENT, m)
      else if is_online st then (EBUSY, m)
      else if st =? FDFS_STORAGE_STATUS_DELETED then (EALREADY, m)
      else (0, <[id := FDFS_STORAGE_STATUS_DELETED]> m)
  end.

(** The path arrays of a server are as long as its count of paths says. *)
Definition paths_fit (d : FDFSStorageDetail) : Prop :=
  (∀ l, path_total_mbs d = Some l → (Z.to_nat (s_store_path_count d) ≤ length l)%nat) ∧
  (∀ l, path_free_mbs d = Some l → (Z.to_nat (s_store_path_count d) ≤ length l)%nat).

(** Only [psync_src_server] differs. *)
Definition src_forgotten (ds ds' : gmap positive FDFSStorageDetail) : Prop :=
  ∀ p d', ds' !! p = Some d' → ∃ d, ds !! p = Some d ∧ (d' = d ∨ d' = d <| psync_src_server := None |>).

Lemma forget_sync_src_ok v s m id l :
  group_ok v (grp s) (details s) → states v (details s) m → (∀ p, p ∈ l → p ∈ v_all v) →
  returns (forget_sync_src id l) s (λ _ s',
    grp s' = grp s ∧ group_ok v (grp s') (details s') ∧ states v (details s') m ∧ src_forgotten (details s) (details s')).
Proof.
  revert s. induction l as [|p l IH]; intros s Hok Hm Hl; cbn [forget_sync_src].
  { apply returns_ret. split; [done|]. split; [done|]. split; [done|]. intros p d Hd. exists d. auto. }
  assert (Hp : p ∈ v_all v) by (apply Hl; left). destruct (server_object Hok p Hp) as [d Hd].
  assert (Hl' : ∀ q, q ∈ l → q ∈ v_all v) by (intros q Hq; apply Hl; by right).
  step. apply returns_bind. destruct (psync_src_server d) as [q|] eqn:Hq; [|apply returns_ret; by apply IH].
  assert (Hqa : q ∈ v_all v) by (apply (ok_src _ _ _ Hok p d q); [by apply in_all|done|done]).
  destruct (server_object Hok q Hqa) as [e He]. step. destruct (_ =? _); [|apply returns_ret; by apply IH].
  step. eapply returns_mono; [apply IH; [| |done]|].
  - apply (group_ok_upd Hok p d); try done.
  - by apply (states_upd_same Hok Hm p d (d <| psync_src_server := None |>)).
  - intros _ s' (Hg & Hok' & Hm' & Hf). split; [by rewrite Hg|]. split; [done|]. split; [done|].
    intros r d' Hr. destruct (Hf r d' Hr) as (d1 & Hd1 & Hd'). cbn in Hd1.
    destruct (decide (p = r)) as [<-|Hne].
    + rewrite lookup_insert_eq in Hd1. injection Hd1 as <-. exists d. split; [done|]. right. by destruct Hd' as [->| ->].
    + rewrite lookup_insert_ne in Hd1 by done. by exists d1.
Qed.

Lemma memset_mbs_ok arr n : (∀ l, arr = Some l → (Z.to_nat n ≤ length l)%nat) → is_Some (memset_mbs arr n).
Proof. intros Hl. destruct arr as [l|]; cbn; [|by eexists]. rewrite decide_True by by apply Hl. by eexists. Qed.

Lemma write_to_changelog_ok p d arg s :
  details s !! p = Some d →
  returns (tracker_write_to_changelog env cfg p arg) s (λ _ s', grp s' = grp s ∧ details s' = details s).
Proof.
  intros Hd. unfold tracker_write_to_changelog. step. step. step.
  destruct (c_true (a_result a)); [by apply returns_ret|]. step. step. by apply returns_ret.
Qed.

Lemma delete_storage_ok v s m id :
  group_ok v (grp s) (details s) → states v (details s) m → (length id < FDFS_STORAGE_ID_MAX_SIZE)%nat →
  (∀ p d, p ∈ v_all v → details s !! p = Some d → storage_id d = id → paths_fit d) →
  returns (tracker_mem_delete_storage env cfg id) s (λ r s',
    group_ok v (grp s') (details s') ∧ r = (delete_server m id).1 ∧ states v (details s') (delete_server m id).2).
Proof.
  intros Hok Hm Hid Hfit. unfold tracker_mem_delete_storage, delete_server. apply returns_bind.
  eapply returns_mono; [by apply (tracker_mem_get_storage_ok v)|]. intros [p|] s0 [-> Hl]; cbn [lookup_in] in Hl.
  2: { rewrite (states_none Hm) by done. by apply returns_ret. }
  destruct Hl as [Hp Hpi]. destruct (server_object Hok p Hp) as [d Hd].
  assert (Hdi : storage_id d = id) by (unfold id_of in Hpi; rewrite Hd in Hpi; by injection Hpi).
  assert (Hmi := states_lookup Hm p d Hp Hd). rewrite Hdi in Hmi. rewrite Hmi. step.
  destruct (status d =? FDFS_STORAGE_STATUS_IP_CHANGED); [by apply returns_ret|].
  destruct (is_online (status d)) eqn:Hon; [by apply returns_ret|].
  destruct (status d =? FDFS_STORAGE_STATUS_DELETED); [by apply returns_ret|].
  assert (Hna : status d ≠ FDFS_STORAGE_STATUS_ACTIVE) by by intros E; rewrite E in Hon.
  step. rewrite (ok_all _ _ _ Hok), (ok_count _ _ _ Hok), fmap_app. apply returns_bind, servers_in_ok.
  apply returns_bind. eapply returns_mono; [by apply (forget_sync_src_ok v s m)|].
  intros _ s1 (Hg1 & Hok1 & Hm1 & Hf1). destruct (server_object Hok1 p Hp) as [d1 Hd1].
  destruct (Hf1 p d1 Hd1) as (d0 & Hd0 & Hd10). assert (d0 = d) as -> by (rewrite Hd in Hd0; by injection Hd0).
  assert (Hfit1 : paths_fit d1) by (specialize (Hfit p d Hp Hd Hdi); by destruct Hd10 as [->| ->]).
  assert (Hid1 : storage_id d1 = id) by (by destruct Hd10 as [->| ->]).
  assert (Hst1 : status d1 = status d) by (by destruct Hd10 as [->| ->]).
  destruct (memset_mbs_ok (path_total_mbs d1) (s_store_path_count d1)) as [total Ht]; [apply Hfit1|].
  destruct (memset_mbs_ok (path_free_mbs d1) (s_store_path_count d1)) as [free Hfr]; [apply Hfit1|].
  apply returns_bind. unfold tracker_mem_clear_storage_fields. step.
  apply returns_bind, (returns_deref _ _ _ _ Ht), returns_bind, (returns_deref _ _ _ _ Hfr). step.
  set (d2 := d1 <| path_total_mbs := total |> <| path_free_mbs := free |> <| psync_src_server := None |>
    <| sync_until_timestamp := 0 |> <| s_total_mb := 0 |> <| s_free_mb := 0 |> <| changelog_offset := 0 |>
    <| s_store_path_count := 0 |> <| s_subdir_count_per_path := 0 |> <| upload_priority := 0 |>
    <| current_write_path := 0 |> <| stat := zero_stat |>).
  apply returns_bind, (returns_upd_server _ p d2); [cbn; by rewrite lookup_insert_eq|]. step.
  set (d3 := d2 <| status := FDFS_STORAGE_STATUS_DELETED |>).
  apply returns_bind. eapply returns_mono.
  { apply (write_to_changelog_ok p d3). cbn. by rewrite lookup_insert_eq. }
  intros _ s2 [Hg2 Hd2]. cbn in Hg2, Hd2. rewrite insert_insert_eq in Hd2. apply returns_ret.
  assert (H3 : group_ok v (grp s1) (details s2)).
  { rewrite Hd2. apply (group_ok_upd Hok1 p d1); [done..| |done]. split; [done|]. rewrite Hst1. by intros E. }
  split; [rewrite Hg2; destruct H3; by constructor|]. split; [done|]. cbn. rewrite Hd2, <- Hid1.
  by apply (states_upd Hok1 Hm1 p d1).
Qed.

End ops.
