(* ===== verification/TrackerMemActive.v ===== *)
(** * Servers become active and go offline

    The operations that move servers into and out of [active_servers], and
    the choice of the store server they end with. *)

From S2P Require Import Prelude CLib SortedArray TrackerMem TrackerMemInv TrackerMemGrow TrackerMemOps.
From stdpp Require Import sorting.
#[local] Open Scope Z_scope.

Section active.
Context (env : nat → answer) (cfg : tracker_config).

(** The store server is the choice among the active servers. *)
Definition store_chosen (v : group_view) (s : group_state) : Prop :=
  pStoreServer (grp s) = store_choice cfg (details s) (v_active v).

(** [ds] is [ds0] with the state of [p] changed to one that is not ACTIVE. *)
Lemma deactivate_view v g ds p d d' i :
  group_ok v g ds → v_active v !! i = Some p → ds !! p = Some d → storage_id d' = storage_id d →
  status d' ≠ FDFS_STORAGE_STATUS_ACTIVE → psync_src_server d' = psync_src_server d →
  ∀ arr x rest, arr = (Some <$> delete i (v_active v)) ++ x :: rest → length arr = alloc_size g →
  let v' := {| v_all := v_all v; v_spare := v_spare v; v_sorted := v_sorted v; v_active := delete i (v_active v) |} in
  group_ok v' (g <| active_servers := arr |> <| active_count ::= pred |> <| chg_count ::= λ n, s32 (n + 1) |>
                 <| pStoreServer := store_choice cfg (<[p := d']> ds) (delete i (v_active v)) |>) (<[p := d']> ds).
Proof.
  intros Hok Hi Hd Hid Hst Hsrc arr x rest Harr Hlen v'.
  assert (Hpa : p ∈ v_active v) by by eapply list_elem_of_lookup_2.
  assert (Hp := active_all Hok p Hpa). assert (Hns := server_not_spare Hok p Hp).
  assert (Hc := store_choice_in cfg (<[p := d']> ds) (delete i (v_active v))).
  assert (Hido : ∀ q, id_of (<[p := d']> ds) q = id_of ds q) by (intros q; by apply (id_of_insert ds p d)).
  assert (Hnd : NoDup (v_active v)) by eapply sorted_by_NoDup, Hok.
  destruct (list_elem_of_split_length _ _ _ Hi) as (l1 & l2 & Hl & Hl1).
  assert (Hdel : delete i (v_active v) = l1 ++ l2) by (rewrite Hl, Hl1; apply delete_middle).
  assert (Hmem : ∀ q, q ∈ delete i (v_active v) ↔ q ∈ v_active v ∧ q ≠ p).
  { intros q. rewrite Hdel. rewrite Hl in Hnd |- *. apply NoDup_app in Hnd as (_ & Hd12 & [Hp2 _]%NoDup_cons).
    assert (p ∉ l1) by (intros H; apply (Hd12 p H); by left). set_solver. }
  assert (Hdlen : length (v_active v) = S (length (delete i (v_active v)))).
  { rewrite Hdel, Hl, !length_app. cbn. lia. }
  destruct Hok. constructor; cbn; try assumption.
  - apply (sorted_by_ext ds); [done|assumption].
  - by eexists.
  - lia.
  - apply (sorted_by_ext ds); [done|]. by apply (sorted_by_delete _ _ _ p).
  - intros q. rewrite Hmem, ok_active_in. destruct (decide (p = q)) as [<-|Hne].
    + rewrite is_active_insert. naive_solver.
    + rewrite is_active_insert_ne by done. naive_solver.
  - intros q Hq. destruct (decide (p = q)) as [<-|Hne]; [by rewrite lookup_insert_eq|].
    rewrite lookup_insert_ne by done. auto.
  - intros q e Hq. destruct (decide (p = q)) as [<-|Hne]; [|rewrite lookup_insert_ne by done; by apply ok_ids].
    rewrite lookup_insert_eq. intros [= <-]. rewrite Hid. by apply (ok_ids p).
  - intros q e Hq. rewrite lookup_insert_ne by (by intros ->). by apply ok_spare.
  - intros q e r Hq. destruct (decide (p = q)) as [<-|Hne]; [|rewrite lookup_insert_ne by done; by apply (ok_src q e r)].
    rewrite lookup_insert_eq. intros [= <-]. rewrite Hsrc. by apply (ok_src p d r).
Qed.

(** Taking a server off the active ones, once its state says so. *)
Lemma deactive_store_server_ok v s ds0 m p d d' :
  group_ok v (grp s) ds0 → states v ds0 m → p ∈ v_all v → ds0 !! p = Some d →
  details s = <[p := d']> ds0 → storage_id d' = storage_id d → status d' ≠ FDFS_STORAGE_STATUS_ACTIVE →
  psync_src_server d' = psync_src_server d →
  returns (tracker_mem_deactive_store_server cfg p) s (λ r s', r = 0 ∧ ∃ v',
    group_ok v' (grp s') (details s') ∧ states v' (details s') (<[storage_id d := status d']> m) ∧
    v_all v' = v_all v ∧ (∀ q, q ∈ v_active v' ↔ q ∈ v_active v ∧ q ≠ p) ∧ store_chosen v' s' ∧
    (∀ q, q ≠ p → details s' !! q = ds0 !! q)).
Proof.
  intros Hok Hm Hp Hd Hds Hid Hst Hsrc. unfold tracker_mem_deactive_store_server. step.
  assert (Hido : ∀ q, id_of (details s) q = id_of ds0 q) by (intros q; rewrite Hds; by apply (id_of_insert ds0 p d)).
  assert (Hps : details s !! p = Some d') by by rewrite Hds, lookup_insert_eq. step.
  destruct (ok_active _ _ _ Hok) as [rest Harr]. rewrite Harr, (ok_active_count _ _ _ Hok).
  assert (Hm' : states v (<[p := d']> ds0) (<[storage_id d := status d']> m)) by by apply (states_upd Hok Hm).
  do 2 apply returns_bind. apply bsearch_server_ok.
  { apply (sorted_by_ext ds0); [done|apply Hok]. }
  { eapply Forall_impl; [apply (active_keys Hok)|]. cbn. intros q. by rewrite Hido. }
  - intros i q Hi Hq. rewrite Hido, Hid in Hq.
    assert (q = p) as ->.
    { apply (id_of_inj Hok q p (storage_id d)); [apply (active_all Hok); by eapply list_elem_of_lookup_2|done|done|].
      unfold id_of. by rewrite Hd. }
    clear Hq. step. destruct (remove_spec (v_active v) i p rest Hi) as [x Hx].
    apply returns_bind, (returns_deref _ _ _ _ Hx). step.
    set (d2 := d' <| s_chg_count := 0 |> <| s_trunk_chg_count := 0 |>).
    assert (Hdlen : length ((Some <$> delete i (v_active v)) ++ x :: rest) = alloc_size (grp s)).
    { rewrite <- (ok_active_len _ _ _ Hok), Harr, !length_app, !length_fmap. cbn.
      assert (Hlt := lookup_lt_Some _ _ _ Hi). rewrite length_delete by by eexists. lia. }
    assert (H2 := deactivate_view v (grp s) ds0 p d d2 i Hok Hi Hd Hid Hst Hsrc _ _ _ eq_refl Hdlen).
    assert (Hds2 : <[p := d2]> (details s) = <[p := d2]> ds0) by by rewrite Hds, insert_insert_eq.
    apply returns_bind. eapply returns_mono.
    { apply (find_store_server_ok cfg _ (delete i (v_active v))); cbn.
      - by eexists.
      - rewrite (ok_active_count _ _ _ Hok). assert (Hlt := lookup_lt_Some _ _ _ Hi).
        rewrite length_delete by by eexists. lia.
      - intros q Hq. rewrite Hds2. apply (ok_objects _ _ _ H2), in_all. by apply (active_all H2). }
    intros _ s' ->. apply returns_ret. split; [done|]. eexists.
    split; [cbn; rewrite Hds2; exact H2|]. cbn. rewrite Hds2. split; [|split; [done|]].
    { intros id st. rewrite <- (states_upd Hok Hm p d d2 Hp Hd Hid id st). done. }
    split; [|split; [unfold store_chosen; cbn; by rewrite Hds2|]].
    + intros q. rewrite (ok_active_in _ _ _ H2), (ok_active_in _ _ _ Hok). cbn.
      destruct (decide (p = q)) as [<-|Hne].
      * rewrite is_active_insert. naive_solver.
      * rewrite is_active_insert_ne by done. naive_solver.
    + intros q Hq. by rewrite lookup_insert_ne.
  - intros Hnone. step.
    assert (Hpa : p ∉ v_active v).
    { intros Hpa. apply (Hnone p Hpa). unfold id_of. by rewrite Hps. }
    assert (H2 : group_ok v (grp s) (details s)).
    { rewrite Hds. apply (group_ok_upd Hok p d); [done..| |intros q; rewrite Hsrc; apply (ok_src _ _ _ Hok p d q); [by apply in_all|done]].
      split; [done|]. intros Ha. destruct Hpa. by apply (states_active Hok p d). }
    apply returns_bind. eapply returns_mono.
    { apply (find_store_server_ok cfg _ (v_active v)); [by eexists|by apply (ok_active_count _ _ _ Hok)|].
      intros q Hq. apply (ok_objects _ _ _ H2), in_all. by apply (active_all H2). }
    intros _ s' ->. apply returns_ret. split; [done|]. exists v.
    assert (Hc := store_choice_in cfg (details s) (v_active v)).
    split; [destruct H2; by constructor|]. split; [cbn; by rewrite Hds|]. split; [done|].
    split; [intros q; split; [|naive_solver]; intros Hq; split; [done|]; by intros ->|]. split; [done|].
    intros q Hq. cbn. rewrite Hds. by rewrite lookup_insert_ne.
Qed.

(** The state after a call of [tracker_mem_active_store_server]. *)
Definition activated (st : Z) : Z :=
  if (st =? FDFS_STORAGE_STATUS_WAIT_SYNC) || (st =? FDFS_STORAGE_STATUS_SYNCING) ||
     (st =? FDFS_STORAGE_STATUS_IP_CHANGED) || (st =? FDFS_STORAGE_STATUS_INIT) then st
  else FDFS_STORAGE_STATUS_ACTIVE.

(** An inactive server with its state set and its entry inserted. *)
Lemma activate_view v g ds p d l rest :
  group_ok v g ds → p ∈ v_all v → p ∉ v_active v → ds !! p = Some d →
  let d' := d <| status := FDFS_STORAGE_STATUS_ACTIVE |> in
  let arr := (Some <$> l) ++ rest in
  l ≡ₚ p :: v_active v → sorted_by (id_of (<[p := d']> ds)) l → length arr = alloc_size g →
  let v' := {| v_all := v_all v; v_spare := v_spare v; v_sorted := v_sorted v; v_active := l |} in
  group_ok v' (g <| active_servers := arr |> <| active_count ::= S |> <| chg_count ::= λ n, s32 (n + 1) |>
                 <| pStoreServer := store_choice cfg (<[p := d']> ds) l |>) (<[p := d']> ds).
Proof.
  intros Hok Hp Hpa Hd d' arr Hl Hs Hlen v'.
  assert (Hc := store_choice_in cfg (<[p := d']> ds) l). assert (Hns := server_not_spare Hok p Hp).
  assert (Hll : length l = S (length (v_active v))) by by rewrite (Permutation_length Hl).
  destruct Hok. constructor; cbn; try assumption.
  - apply (sorted_by_ext ds); [|assumption]. intros q _. by apply (id_of_insert ds p d).
  - by eexists.
  - lia.
  - intros q. rewrite Hl, elem_of_cons, ok_active_in. destruct (decide (p = q)) as [<-|Hne].
    + rewrite is_active_insert. naive_solver.
    + rewrite is_active_insert_ne by done. naive_solver.
  - intros q Hq. destruct (decide (p = q)) as [<-|Hne]; [by rewrite lookup_insert_eq|].
    rewrite lookup_insert_ne by done. auto.
  - intros q e Hq. destruct (decide (p = q)) as [<-|Hne]; [|rewrite lookup_insert_ne by done; by apply ok_ids].
    rewrite lookup_insert_eq. intros [= <-]. by apply (ok_ids p d).
  - intros q e Hq. rewrite lookup_insert_ne by (by intros ->). by apply ok_spare.
  - intros q e r Hq. destruct (decide (p = q)) as [<-|Hne]; [|rewrite lookup_insert_ne by done; by apply (ok_src q e r)].
    rewrite lookup_insert_eq. intros [= <-]. by apply (ok_src p d r).
Qed.

Lemma active_store_server_ok v s m p d :
  group_ok v (grp s) (details s) → states v (details s) m → p ∈ v_all v → details s !! p = Some d →
  returns (tracker_mem_active_store_server env cfg p) s (λ r s', r = 0 ∧ ∃ v',
    group_ok v' (grp s') (details s') ∧ states v' (details s') (<[storage_id d := activated (status d)]> m) ∧
    v_all v' = v_all v ∧
    (v_active v' = v_active v ∧ pStoreServer (grp s') = pStoreServer (grp s) ∨ store_chosen v' s') ∧
    (∀ q, id_of (details s') q = id_of (details s) q)).
Proof.
  intros Hok Hm Hp Hd. unfold tracker_mem_active_store_server, activated. step.
  destruct (_ || _).
  { apply returns_ret. split; [done|]. exists v. split; [done|]. split; [|auto].
    by rewrite insert_id by by apply (states_lookup Hm p). }
  step. set (d' := d <| status := FDFS_STORAGE_STATUS_ACTIVE |>). set (ds' := <[p := d']> (details s)).
  assert (Hido : ∀ q, id_of ds' q = id_of (details s) q) by (intros q; by apply (id_of_insert (details s) p d)).
  assert (Hm' : states v ds' (<[storage_id d := FDFS_STORAGE_STATUS_ACTIVE]> m)) by by apply (states_upd Hok Hm p d d').
  step. destruct (ok_active _ _ _ Hok) as [rest Harr]. cbn [grp details glob update]. rewrite Harr, (ok_active_count _ _ _ Hok).
  apply returns_bind, bsearch_server_ok.
  { apply (sorted_by_ext (details s)); [by intros q _; apply Hido|apply Hok]. }
  { eapply Forall_impl; [apply (active_keys Hok)|]. cbn. intros q. by fold ds'; rewrite Hido. }
  - intros i q Hi Hq. apply returns_ret. split; [done|]. exists v. split; [|split; [done|split; [done|split; [auto|exact Hido]]]].
    cbn in Hq |- *. fold ds' in Hq |- *. rewrite Hido in Hq.
    assert (q = p) as ->.
    { apply (id_of_inj Hok q p (storage_id d)); [apply (active_all Hok); by eapply list_elem_of_lookup_2|done|done|].
      unfold id_of. by rewrite Hd. }
    apply (group_ok_upd Hok p d); [done..| |intros q; apply (ok_src _ _ _ Hok p d q); [by apply in_all|done]].
    split; [|done]. intros _. apply (states_active Hok p d Hp Hd). by eapply list_elem_of_lookup_2.
  - intros Hnone. cbn in Hnone. fold ds' in Hnone. step. cbn [grp details glob update]. fold ds'.
    assert (Hpa : p ∉ v_active v).
    { intros Hpa. apply (Hnone p Hpa). rewrite Hido. unfold id_of. by rewrite Hd. }
    assert (Hlen : (length (v_active v) < length (active_servers (grp s)))%nat).
    { rewrite (ok_active_len _ _ _ Hok), (ok_alloc _ _ _ Hok), length_app.
      assert (S (length (v_active v)) ≤ length (v_all v))%nat; [|lia].
      change (S (length (v_active v))) with (length (p :: v_active v)). apply submseteq_length, NoDup_submseteq.
      - constructor; [done|]. eapply sorted_by_NoDup, Hok.
      - intros q [->|Hq]%elem_of_cons; [done|]. by apply (active_all Hok). }
    destruct rest as [|e rest]; [rewrite Harr, app_nil_r, length_fmap in Hlen; lia|].
    destruct (insert_from_spec (id_of ds') p (storage_id d) (v_active v) e rest) as (l & El & Hl & Hsl).
    { apply (sorted_by_ext (details s)); [by intros q _; apply Hido|apply Hok]. }
    { eapply Forall_impl; [apply (active_keys Hok)|]. cbn. intros q. by rewrite Hido. }
    { rewrite Hido. unfold id_of. by rewrite Hd. }
    { done. }
    apply returns_bind, (returns_deref _ _ _ _ El). step.
    set (arr := (Some <$> l) ++ rest) in *.
    assert (Hal : length arr = alloc_size (grp s)).
    { unfold arr. rewrite <- (ok_active_len _ _ _ Hok), Harr, !length_app, !length_fmap, (Permutation_length Hl). cbn. lia. }
    assert (H2 := activate_view v (grp s) (details s) p d l rest Hok Hp Hpa Hd Hl Hsl Hal). fold d' ds' arr in H2.
    set (v2 := {| v_all := v_all v; v_spare := v_spare v; v_sorted := v_sorted v; v_active := l |}) in H2.
    apply returns_bind. eapply returns_mono.
    { apply (find_store_server_ok cfg _ l); cbn.
      - by eexists.
      - by rewrite (Permutation_length Hl), (ok_active_count _ _ _ Hok).
      - fold d' ds'. intros q Hq. apply (ok_objects _ _ _ H2), in_all. by apply (active_all H2). }
    intros _ s2 ->. step.
    match goal with |- returns _ ?st _ => set (s3 := st) end.
    assert (H3 : group_ok v2 (grp s3) (details s3)) by exact H2.
    assert (Hm3 : states v2 (details s3) (<[storage_id d := FDFS_STORAGE_STATUS_ACTIVE]> m)) by exact Hm'.
    assert (Hc3 : store_chosen v2 s3) by done.
    apply returns_bind.
    assert (Hskip : returns (mret tt) s3 (λ _ s', returns (mret 0) s' (λ r s', r = 0 ∧ ∃ v',
      group_ok v' (grp s') (details s') ∧ states v' (details s') (<[storage_id d := FDFS_STORAGE_STATUS_ACTIVE]> m) ∧
      v_all v' = v_all v ∧
      (v_active v' = v_active v ∧ pStoreServer (grp s') = pStoreServer (grp s) ∨ store_chosen v' s') ∧
    (∀ q, id_of (details s') q = id_of (details s) q)))).
    { do 2 apply returns_ret. split; [done|]. exists v2. split; [done|]. split; [done|]. split; [done|]. split; [auto|exact Hido]. }
    destruct (pTrunkServer (grp s3)); [exact Hskip|]. destruct (_ && _); [|exact Hskip].
    apply returns_bind. eapply returns_mono; [by apply (find_trunk_server_ok _ v2)|].
    intros r s4 (H4 & [Hd4 (t & n & c & Hg4)] & _). do 2 apply returns_ret. split; [done|]. exists v2.
    split; [done|]. rewrite Hd4. split; [done|]. split; [done|]. split; [|exact Hido].
    right. unfold store_chosen. by rewrite Hg4, Hd4.
Qed.

(** The state after a call of [tracker_mem_offline_store_server]. *)
Definition offlined (st : Z) : Z :=
  if (st =? FDFS_STORAGE_STATUS_WAIT_SYNC) || (st =? FDFS_STORAGE_STATUS_SYNCING) ||
     (st =? FDFS_STORAGE_STATUS_INIT) || (st =? FDFS_STORAGE_STATUS_DELETED) ||
     (st =? FDFS_STORAGE_STATUS_IP_CHANGED) || (st =? FDFS_STORAGE_STATUS_RECOVERY) then st
  else FDFS_STORAGE_STATUS_OFFLINE.

Lemma offline_store_server_ok v s m p d :
  group_ok v (grp s) (details s) → states v (details s) m → p ∈ v_all v → details s !! p = Some d →
  returns (tracker_mem_offline_store_server cfg p) s (λ r s', r = 0 ∧ ∃ v',
    group_ok v' (grp s') (details s') ∧ states v' (details s') (<[storage_id d := offlined (status d)]> m) ∧
    v_all v' = v_all v ∧
    (v_active v' = v_active v ∧ pStoreServer (grp s') = pStoreServer (grp s) ∨ store_chosen v' s')).
Proof.
  intros Hok Hm Hp Hd. unfold tracker_mem_offline_store_server, offlined. step.
  set (d1 := d <| up_time := 0 |>). apply returns_bind, (returns_get_server _ p d1); [cbn; by rewrite lookup_insert_eq|].
  change (status d1) with (status d). destruct (_ || _).
  { apply returns_ret. split; [done|]. exists v. cbn. split; [|split; [|auto]].
    - apply (group_ok_upd Hok p d); [done..|]. intros q. apply (ok_src _ _ _ Hok p d q); [by apply in_all|done].
    - rewrite (insert_id m) by by apply (states_lookup Hm p). by apply (states_upd_same Hok Hm p d d1). }
  apply returns_bind, (returns_upd_server _ p d1); [cbn; by rewrite lookup_insert_eq|].
  set (d2 := d1 <| status := FDFS_STORAGE_STATUS_OFFLINE |>).
  eapply returns_mono; [apply (deactive_store_server_ok v _ (details s) m p d d2)|]; try done.
  { cbn. by rewrite insert_insert_eq. }
  cbn. intros r s' (Hr & v' & H' & Hm' & Hall & _ & Hc & _). split; [done|]. exists v'. auto.
Qed.

End active.
