(* ===== verification/TrackerMemSync.v ===== *)
(** * Changing an ip address, and the states other servers report

    [tracker_mem_storage_ip_changed] exchanges the names of the old server
    and a new one and sorts the group again; [tracker_mem_sync_storages]
    merges the states a storage server or another tracker reports. *)

From S2P Require Import Prelude CLib SortedArray TrackerMem TrackerMemInv TrackerMemGrow TrackerMemOps.
From stdpp Require Import sorting.
#[local] Open Scope Z_scope.

(** ** Sorting by id *)

Section sort.
Context (ds : gmap positive FDFSStorageDetail).

#[local] Instance id_le_trans : Transitive (id_le ds).
Proof.
  intros p q r. unfold id_le. set (a := default [] _). set (b := default [] _). set (c := default [] _).
  intros Hab Hbc. destruct (decide (strcmp a b = 0)) as [->%strcmp_eq|]; [done|].
  destruct (decide (strcmp b c = 0)) as [Hc|]; [apply strcmp_eq in Hc as <-; lia|].
  assert (strcmp a c < 0) by (apply (strcmp_trans a b c); lia). lia.
Qed.

#[local] Instance id_le_total : Total (id_le ds).
Proof.
  intros p q. unfold id_le. rewrite (strcmp_antisym (default [] (id_of ds p))). lia.
Qed.

(** Sorting by id gives an array in strict order when no id occurs twice. *)
Lemma sort_by_id l :
  NoDup l → (∀ p, p ∈ l → is_Some (id_of ds p)) →
  (∀ p q, p ∈ l → q ∈ l → id_of ds p = id_of ds q → p = q) →
  merge_sort (id_le ds) l ≡ₚ l ∧ sorted_by (id_of ds) (merge_sort (id_le ds) l).
Proof.
  intros Hnd Hk Hinj. assert (Hperm := merge_sort_Permutation (id_le ds) l). split; [done|].
  assert (Hs := StronglySorted_merge_sort (id_le ds) l). revert Hs Hperm.
  generalize (merge_sort (id_le ds) l). intros l' Hs Hperm.
  assert (Hnd' : NoDup l') by by rewrite Hperm.
  assert (Hk' : ∀ p, p ∈ l' → is_Some (id_of ds p)) by (intros p; rewrite Hperm; apply Hk).
  assert (Hinj' : ∀ p q, p ∈ l' → q ∈ l' → id_of ds p = id_of ds q → p = q) by (intros p q; rewrite Hperm; apply Hinj).
  clear Hperm Hnd Hk Hinj. induction Hs as [|p l' Hl' IH Hp]; [constructor|].
  apply NoDup_cons in Hnd' as [Hpl Hnd']. constructor.
  { apply IH; [done|intros; apply Hk'; by right|intros; apply Hinj'; by try right]. }
  rewrite Forall_forall in Hp |- *. intros q Hq.
  destruct (Hk' p (list_elem_of_here _ _)) as [a Ha], (Hk' q) as [b Hb]; [by right|].
  assert (Hle := Hp q Hq). unfold id_le in Hle. rewrite Ha, Hb in Hle. cbn in Hle.
  exists a, b. split; [done|]. split; [done|]. destruct (decide (strcmp a b = 0)) as [->%strcmp_eq|]; [|lia].
  destruct Hpl. rewrite (Hinj' p q); [done|by left|by right|congruence].
Qed.
End sort.

(** ** Changing an ip address *)

(** Two servers exchange their ids; [q], a new one, gets the state
    IP_CHANGED. *)
Section exchange.
Context (v : group_view) (g : FDFSGroupInfo) (ds : gmap positive FDFSStorageDetail) (m : gmap (list Z) Z).
Context (p q : positive) (dp dq dp' dq' : FDFSStorageDetail) (Hok : group_ok v g ds) (Hm : states v ds m).
Context (Hp : p ∈ v_all v) (Hq : q ∈ v_all v) (Hpq : p ≠ q) (Hdp : ds !! p = Some dp) (Hdq : ds !! q = Some dq).
Context (Hpi : storage_id dp' = storage_id dq) (Hqi : storage_id dq' = storage_id dp).
Context (Hps : status dp' = status dp) (Hqs : status dq' = FDFS_STORAGE_STATUS_IP_CHANGED).
Context (Hpsrc : psync_src_server dp' = psync_src_server dp) (Hqsrc : psync_src_server dq' = psync_src_server dq).
Context (Hpna : status dp ≠ FDFS_STORAGE_STATUS_ACTIVE) (Hqna : status dq ≠ FDFS_STORAGE_STATUS_ACTIVE).

Let ds' := <[q := dq']> (<[p := dp']> ds).

Lemma exchange_p : ds' !! p = Some dp'.
Proof. unfold ds'. rewrite lookup_insert_ne by (intros E; by apply Hpq). apply lookup_insert_eq. Qed.
Lemma exchange_q : ds' !! q = Some dq'.
Proof. apply lookup_insert_eq. Qed.
Lemma exchange_other r : r ≠ p → r ≠ q → ds' !! r = ds !! r.
Proof. intros Hrp Hrq. unfold ds'. by rewrite !lookup_insert_ne by done. Qed.

(** The heap before the exchange, seen through it. *)
Lemma exchange_id r : r ∈ v_all v →
  id_of ds' r = if decide (r = p) then id_of ds q else if decide (r = q) then id_of ds p else id_of ds r.
Proof.
  intros Hr. unfold id_of. destruct (decide (r = p)) as [->|]; [by rewrite exchange_p, Hdq; cbn; rewrite Hpi|].
  destruct (decide (r = q)) as [->|]; [by rewrite exchange_q, Hdp; cbn; rewrite Hqi|]. by rewrite exchange_other.
Qed.

Lemma exchange_inj r t : r ∈ v_all v → t ∈ v_all v → id_of ds' r = id_of ds' t → r = t.
Proof.
  intros Hr Ht. rewrite !exchange_id by done.
  assert (Hinj : ∀ x y, x ∈ v_all v → y ∈ v_all v → id_of ds x = id_of ds y → x = y).
  { intros x y Hx Hy Hxy. destruct (server_object Hok x Hx) as [e He].
    apply (id_of_inj Hok x y (storage_id e)); [done|done|unfold id_of; by rewrite He|].
    rewrite <- Hxy. unfold id_of. by rewrite He. }
  repeat case_decide; subst; try done; intros E; apply Hinj in E; congruence.
Qed.

Lemma exchange_inactive : p ∉ v_active v ∧ q ∉ v_active v.
Proof.
  split; intros Ha.
  - apply Hpna. by apply (states_active Hok p dp).
  - apply Hqna. by apply (states_active Hok q dq).
Qed.

Lemma exchange_ok sorted rest :
  let l := merge_sort (id_le ds') (v_sorted v) in
  sorted_servers g = (Some <$> v_sorted v) ++ rest → sorted = (Some <$> l) ++ rest →
  let v' := {| v_all := v_all v; v_spare := v_spare v; v_sorted := l; v_active := v_active v |} in
  group_ok v' (g <| sorted_servers := sorted |>) ds' ∧
  states v' ds' (<[storage_id dp := FDFS_STORAGE_STATUS_IP_CHANGED]> (<[storage_id dq := status dp]> m)).
Proof.
  intros l Hrest Hsorted v'. destruct exchange_inactive as [Hpa Hqa].
  destruct (sort_by_id ds' (v_sorted v)) as [Hperm Hord].
  { eapply sorted_by_NoDup, Hok. }
  { intros r Hr%(in_sorted Hok). rewrite exchange_id by done. destruct (server_object Hok r Hr) as [e He].
    unfold id_of. repeat case_decide; rewrite ?Hdp, ?Hdq, ?He; by eexists. }
  { intros r t Hr%(in_sorted Hok) Ht%(in_sorted Hok). by apply exchange_inj. }
  fold l in Hperm, Hord. split.
  - assert (Hact := @active_all _ _ _ Hok). assert (Hns := @server_not_spare _ _ _ Hok).
    assert (Hll := Permutation_length Hperm). assert (Hsl := ok_sorted_len _ _ _ Hok). rewrite Hrest in Hsl.
    destruct Hok. constructor; cbn; try assumption.
    + rewrite Hsorted. by eexists.
    + rewrite <- Hsl, Hsorted, !length_app, !length_fmap. lia.
    + by rewrite Hperm.
    + apply (sorted_by_ext ds); [|done]. intros r Hr. rewrite exchange_id by by apply Hact.
      rewrite !decide_False by congruence. done.
    + intros r. rewrite ok_active_in. unfold is_active.
      destruct (decide (r = p)) as [->|]; [rewrite exchange_p|destruct (decide (r = q)) as [->|];
        [rewrite exchange_q|by rewrite exchange_other]].
      * split; intros (_ & e & He & Hst); congruence.
      * assert (FDFS_STORAGE_STATUS_IP_CHANGED ≠ FDFS_STORAGE_STATUS_ACTIVE) by done.
        split; intros (_ & e & He & Hst); congruence.
    + intros r Hr. destruct (decide (r = p)) as [->|]; [rewrite exchange_p; by eexists|].
      destruct (decide (r = q)) as [->|]; [rewrite exchange_q; by eexists|]. rewrite exchange_other by done. auto.
    + intros r e Hr. destruct (decide (r = p)) as [->|]; [rewrite exchange_p|destruct (decide (r = q)) as [->|];
        [rewrite exchange_q|rewrite exchange_other by done; by apply ok_ids]]; intros [= <-].
      * rewrite Hpi. by apply (ok_ids q).
      * rewrite Hqi. by apply (ok_ids p).
    + intros r e Hr. rewrite exchange_other; [by apply ok_spare|intros ->; by apply (Hns p)|intros ->; by apply (Hns q)].
    + intros r e t Hr. destruct (decide (r = p)) as [->|]; [rewrite exchange_p|destruct (decide (r = q)) as [->|];
        [rewrite exchange_q|rewrite exchange_other by done; by apply ok_src]]; intros [= <-].
      * rewrite Hpsrc. by apply (ok_src p).
      * rewrite Hqsrc. by apply (ok_src q).
  - assert (Hne : storage_id dp ≠ storage_id dq).
    { intros E. apply Hpq. apply (id_of_inj Hok p q (storage_id dp)); [done|done|unfold id_of; by rewrite Hdp|].
      unfold id_of. rewrite Hdq. cbn. by rewrite E. }
    assert (Hrest' : ∀ r e, r ≠ p → r ≠ q → r ∈ v_all v → ds !! r = Some e →
      storage_id e ≠ storage_id dp ∧ storage_id e ≠ storage_id dq).
    { intros r e Hrp Hrq Hr He. split; intros E; [apply Hrp|apply Hrq].
      - apply (id_of_inj Hok r p (storage_id e)); [done|done|unfold id_of; by rewrite He|]. unfold id_of. rewrite Hdp. cbn. by rewrite E.
      - apply (id_of_inj Hok r q (storage_id e)); [done|done|unfold id_of; by rewrite He|]. unfold id_of. rewrite Hdq. cbn. by rewrite E. }
    intros id st. cbn. rewrite lookup_insert, lookup_insert. split.
    + repeat case_decide; [intros [= <-]; exists q, dq'|intros [= <-]; exists p, dp'|].
      * rewrite exchange_q. by subst id.
      * rewrite exchange_p. by subst id.
      * intros (r & e & Hr & He & Hid & Hst)%Hm. exists r, e. rewrite exchange_other; [done|congruence|congruence].
    + intros (r & e & Hr & He & Hid & Hst).
      destruct (decide (r = p)) as [->|Hrp]; [|destruct (decide (r = q)) as [->|Hrq]].
      * rewrite exchange_p in He. injection He as <-. rewrite decide_False, decide_True by congruence. congruence.
      * rewrite exchange_q in He. injection He as <-. rewrite decide_True by congruence. congruence.
      * rewrite exchange_other in He by done. destruct (Hrest' r e Hrp Hrq Hr He).
        rewrite !decide_False by congruence. apply Hm. by exists r, e.
Qed.
End exchange.

Section ops.
Context (env : nat → answer) (cfg : tracker_config) (Hids : ids_ok cfg).

(** The results and states of [tracker_mem_storage_ip_changed]: with a
    deleted server under the new address the call fails, and that server
    starts anew; otherwise the new address gets the state of the old. *)
Definition ip_change (m : gmap (list Z) Z) (old new : list Z) (r : Z) (m' : gmap (list Z) Z) : Prop :=
  if g_use_storage_id cfg then r = EOPNOTSUPP ∧ m' = m
  else
    match m !! old with
    | None => r = ENOENT ∧ m' = m
    | Some st =>
        if st =? FDFS_STORAGE_STATUS_DELETED then r = ENOENT ∧ m' = m
        else if is_online st then r = EBUSY ∧ m' = m
        else if st =? FDFS_STORAGE_STATUS_IP_CHANGED then r = EALREADY ∧ m' = m
        else
          match m !! new with
          | Some st' =>
              r = EEXIST ∧ m' = if st' =? FDFS_STORAGE_STATUS_DELETED then <[new := FDFS_STORAGE_STATUS_INIT]> m else m
          | None => r ≠ 0 ∧ m' = m ∧ oom env ∨
                    m' = <[old := FDFS_STORAGE_STATUS_IP_CHANGED]> (<[new := st]> m)
          end
    end.

Lemma qsort_servers_ok s l rest :
  (∀ p, p ∈ l → is_Some (details s !! p)) →
  returns (qsort_servers ((Some <$> l) ++ rest) (length l)) s
    (λ r s', s' = s ∧ r = (Some <$> merge_sort (id_le (details s)) l) ++ rest).
Proof.
  intros Hl. unfold qsort_servers. step. apply returns_bind, servers_in_ok. apply returns_bind.
  assert (Hk : is_Some (mapM (id_of (details s)) l)).
  { apply mapM_is_Some_2, Forall_forall. intros p Hp. cbn. unfold id_of.
    destruct (Hl p Hp) as [d ->]. by eexists. }
  destruct Hk as [ks Hk]. apply (returns_deref _ _ _ _ Hk), returns_ret. split; [done|].
  by rewrite drop_app_length' by (by rewrite length_fmap).
Qed.

Lemma storage_ip_changed_ok v s m old new :
  group_ok v (grp s) (details s) → states v (details s) m →
  (length old < FDFS_STORAGE_ID_MAX_SIZE)%nat → (length new < FDFS_STORAGE_ID_MAX_SIZE)%nat → new ≠ [] →
  returns (tracker_mem_storage_ip_changed env cfg old new) s (λ r s', ∃ v' m',
    group_ok v' (grp s') (details s') ∧ states v' (details s') m' ∧ ip_change m old new r m' ∧
    (∀ p, p ∈ v_all v → p ∈ v_all v') ∧ v_active v' = v_active v).
Proof.
  intros Hok Hm Ho Hn Hne. unfold tracker_mem_storage_ip_changed, ip_change.
  destruct (g_use_storage_id cfg) eqn:Huse; [apply returns_ret; by exists v, m|].
  apply returns_bind. eapply returns_mono; [by apply (tracker_mem_get_storage_ok v)|].
  intros [p|] s0 [-> Hl]; cbn [lookup_in] in Hl; [|rewrite (states_none Hm) by done; apply returns_ret; by exists v, m].
  destruct Hl as [Hp Hpi]. destruct (server_object Hok p Hp) as [d Hd].
  assert (Hdi : storage_id d = old) by (unfold id_of in Hpi; rewrite Hd in Hpi; by injection Hpi).
  assert (Hmo := states_lookup Hm p d Hp Hd). rewrite Hdi in Hmo. rewrite Hmo. step.
  destruct (status d =? FDFS_STORAGE_STATUS_DELETED) eqn:Hsd; [apply returns_ret; by exists v, m|].
  destruct (is_online (status d)) eqn:Hon; [apply returns_ret; by exists v, m|].
  destruct (status d =? FDFS_STORAGE_STATUS_IP_CHANGED) eqn:Hsc; [apply returns_ret; by exists v, m|].
  assert (Hna : status d ≠ FDFS_STORAGE_STATUS_ACTIVE) by by intros E; rewrite E in Hon.
  apply returns_bind. eapply returns_mono; [by apply (tracker_mem_get_storage_ok v)|].
  intros pNew s0 [-> Hl]. apply returns_bind.
  assert (Href : returns match pNew with
      | None => mret false
      | Some q => d ← get_server q; mret (negb (status d =? FDFS_STORAGE_STATUS_DELETED))
      end s (λ r s', s' = s ∧ r = match m !! new with Some st => negb (st =? FDFS_STORAGE_STATUS_DELETED) | None => false end ∧
                     (m !! new = None ↔ pNew = None))).
  { destruct pNew as [q|]; cbn [lookup_in] in Hl.
    - destruct Hl as [Hq Hqi]. destruct (server_object Hok q Hq) as [e He]. step. apply returns_ret.
      assert (Hei : storage_id e = new) by (unfold id_of in Hqi; rewrite He in Hqi; by injection Hqi).
      rewrite <- Hei, (states_lookup Hm q e Hq He). split; [done|]. split; [done|]. by split.
    - rewrite (states_none Hm) by done. by apply returns_ret. }
  eapply returns_mono; [exact Href|]. intros refused s0 (-> & -> & Hnew). clear Href.
  destruct (m !! new) as [st'|] eqn:Hmn; cbn [negb].
  { destruct (st' =? FDFS_STORAGE_STATUS_DELETED) eqn:Hst'; [|apply returns_ret; by exists v, m].
    apply returns_bind. eapply returns_mono; [by apply (add_storage_ok env cfg Hids v s m)|].
    intros [[r pp] ins] s1 (v' & m' & Hok' & Hm' & Hact & H). destruct (c_true r) eqn:Er.
    { destruct H as (-> & Hall & [->|[Hu|Hoom]]); [done|congruence|].
      destruct Hoom as (_ & i & -> & Hi). congruence. }
    destruct H as (i & q & Hi & Hni & -> & Hq & Hqi & H). cbn in Hni. subst i.
    destruct ins; [destruct H as (_ & _ & Hnone & _); congruence|]. destruct H as (Hall & st & Hst & ->).
    apply returns_ret. eexists v', _. split; [done|]. split; [exact Hm'|]. rewrite Hall. split; [|done].
    split; [done|]. rewrite Hmn in Hst. injection Hst as <-. unfold revived. by rewrite Hst'. }
  apply returns_bind. eapply returns_mono; [by apply (add_storage_ok env cfg Hids v s m)|].
  intros [[r pp] ins] s1 (v' & m' & Hok' & Hm' & Hact & H). destruct (c_true r) eqn:Er.
  { destruct H as (-> & Hall & H). apply returns_ret. exists v', m. split; [done|]. split; [done|]. rewrite Hall.
    split; [|done]. left. split; [by apply c_true_spec|]. split; [done|].
    destruct H as [->|[Hu|[Ho' _]]]; [done|congruence|done]. }
  destruct H as (i & q & Hi & Hni & -> & Hq & Hqi & H). cbn in Hni. subst i.
  destruct ins; [|destruct H as (_ & st & Hst & _); congruence].
  destruct H as (Hall & Hqn & _ & -> & Hsame). cbn [negb].
  assert (Hp' : p ∈ v_all v') by (rewrite Hall; apply elem_of_app; by left).
  assert (Hpq : p ≠ q) by by intros ->.
  assert (Hd' : details s1 !! p = Some d) by by rewrite Hsame.
  destruct (server_object Hok' q Hq) as [e He].
  assert (Hei : storage_id e = new) by (unfold id_of in Hqi; rewrite He in Hqi; by injection Hqi).
  assert (Hes : status e = FDFS_STORAGE_STATUS_INIT).
  { assert (E := states_lookup Hm' q e Hq He). rewrite Hei, lookup_insert_eq in E. by injection E. }
  apply returns_bind, returns_ret.
  assert (Hsn : ∀ x, (length x < FDFS_STORAGE_ID_MAX_SIZE)%nat → snprintf_s FDFS_STORAGE_ID_MAX_SIZE x = x).
  { intros x Hx. apply take_ge. unfold FDFS_STORAGE_ID_MAX_SIZE in *. lia. }
  rewrite !Hsn by done. step.
  set (d' := d <| storage_id := new |> <| ip_addr := new |>).
  apply returns_bind, (returns_upd_server _ q e); [cbn; by rewrite lookup_insert_ne|]. step. step.
  set (e' := e <| storage_id := old |> <| ip_addr := old |> <| status := FDFS_STORAGE_STATUS_IP_CHANGED |>).
  cbn [grp details glob update]. set (ds2 := <[q := e']> (<[p := d']> (details s1))).
  destruct (ok_sorted _ _ _ Hok') as [rest Hrest].
  destruct (exchange_ok v' (grp s1) (details s1) _ p q d e d' e' Hok' Hm' Hp' Hq Hpq Hd' He (eq_sym Hei) (eq_sym Hdi)
    eq_refl eq_refl eq_refl eq_refl Hna) with (sorted := (Some <$> merge_sort (id_le ds2) (v_sorted v')) ++ rest) (rest := rest)
    as [Hok2 Hm2]; [by rewrite Hes|done|done|].
  cbn [sorted_servers count update].
  rewrite Hrest, (ok_count _ _ _ Hok'), <- (Permutation_length (ok_perm _ _ _ Hok')).
  apply returns_bind. eapply returns_mono.
  { apply qsort_servers_ok. cbn. fold ds2. intros t Ht%(in_sorted Hok'). apply (ok_objects _ _ _ Hok2), in_all, Ht. }
  cbn [grp details glob update]. fold ds2. intros sorted s2 [-> ->]. step.
  apply returns_bind. eapply returns_mono; [apply (write_to_changelog_ok env cfg q e'); cbn; apply lookup_insert_eq|].
  intros _ s3 [Hg3 Hd3]. step. apply returns_ret. cbn. rewrite Hg3, Hd3. eexists _, _.
  split; [destruct Hok2; by constructor|]. split; [exact Hm2|]. cbn. split.
  - right. rewrite Hei, Hdi. f_equal. apply insert_insert_eq.
  - split; [|done]. intros t Ht. rewrite Hall. apply elem_of_app. by left.
Qed.

(** ** The states other servers report *)

(** The states after a report, when no addition fails. *)
Definition sync_state (m : gmap (list Z) Z) (b : FDFSStorageBrief) : gmap (list Z) Z :=
  let st := b_status b in
  let id := take (FDFS_STORAGE_ID_MAX_SIZE - 1) (b_id b) in
  if (st =? FDFS_STORAGE_STATUS_NONE) || (st =? FDFS_STORAGE_STATUS_ACTIVE) || (st =? FDFS_STORAGE_STATUS_ONLINE) then m
  else
    match m !! id with
    | Some cur =>
        if (cur =? st) || is_online cur then m
        else if (st =? FDFS_STORAGE_STATUS_DELETED) || (st =? FDFS_STORAGE_STATUS_IP_CHANGED) || (cur <? st)
        then <[id := st]> m else m
    | None =>
        if (st =? FDFS_STORAGE_STATUS_DELETED) || (st =? FDFS_STORAGE_STATUS_IP_CHANGED) then m
        else <[id := FDFS_STORAGE_STATUS_INIT]> m
    end.

Lemma bsearch_sorted_ok v s id :
  group_ok v (grp s) (details s) →
  returns (bsearch_server id (sorted_servers (grp s)) (count (grp s))) s
    (λ r s', s' = s ∧ lookup_in (v_all v) (details s) id (snd <$> r)).
Proof.
  intros Hok. destruct (ok_sorted _ _ _ Hok) as [rest ->].
  rewrite (ok_count _ _ _ Hok), <- (Permutation_length (ok_perm _ _ _ Hok)).
  apply bsearch_server_ok; [apply Hok|apply (sorted_keys Hok)|..].
  - intros i p Hi Hp. split; [done|]. split; [|done]. apply (in_sorted Hok). by eapply list_elem_of_lookup_2.
  - intros Hnone. split; [done|]. intros p Hp. by apply Hnone, (in_sorted Hok).
Qed.

Lemma sync_storage_ok v s m b :
  group_ok v (grp s) (details s) → states v (details s) m →
  ¬ oom env → g_use_storage_id cfg = false → take (IP_ADDRESS_SIZE - 1) (b_ip_addr b) ≠ [] →
  returns (sync_storage env cfg b) s (λ r s', r = 0 ∧ ∃ v',
    group_ok v' (grp s') (details s') ∧ states v' (details s') (sync_state m b) ∧
    (∀ p, p ∈ v_all v → p ∈ v_all v') ∧ v_active v' = v_active v).
Proof.
  intros Hok Hm Hoom Huse Hip. unfold sync_storage, sync_state.
  destruct ((_ =? FDFS_STORAGE_STATUS_NONE) || _ || _) eqn:Hsk; [apply returns_ret; split; [done|]; by exists v|].
  apply orb_false_iff in Hsk as [[_ Hact]%orb_false_iff _]. apply Z.eqb_neq in Hact.
  step. set (id := take _ (b_id b)). apply returns_bind. eapply returns_mono; [by apply (bsearch_sorted_ok v)|].
  intros [[i p]|] s0 [-> Hl]; cbn [lookup_in fmap option_fmap option_map snd] in Hl.
  - destruct Hl as [Hp Hpi]. destruct (server_object Hok p Hp) as [d Hd].
    assert (Hdi : storage_id d = id) by (unfold id_of in Hpi; rewrite Hd in Hpi; by injection Hpi).
    assert (Hmi := states_lookup Hm p d Hp Hd). rewrite Hdi in Hmi. rewrite Hmi. step.
    destruct ((status d =? _) || is_online (status d)) eqn:Hon; [apply returns_ret; split; [done|]; by exists v|].
    apply orb_false_iff in Hon as [_ Hon].
    destruct (_ || _ || _); [|apply returns_ret; split; [done|]; by exists v].
    step. step. apply returns_ret. split; [done|]. exists v. cbn.
    set (d' := d <| status := b_status b |>).
    assert (H' : group_ok v (grp s) (<[p := d']> (details s))).
    { apply (group_ok_upd Hok p d); [done..| |intros q; by apply (ok_src _ _ _ Hok p d q), Hd; apply in_all].
      split; [done|]. intros E. by rewrite E in Hon. }
    split; [destruct H'; by constructor|]. split; [|done].
    assert (Hm' := states_upd Hok Hm p d d' Hp Hd eq_refl). by rewrite Hdi in Hm'.
  - rewrite (states_none Hm) by done. destruct (_ || _); [apply returns_ret; split; [done|]; by exists v|].
    apply returns_bind. eapply returns_mono.
    { apply (add_storage_ok env cfg Hids v s m); [done|done|]. unfold fits, id. rewrite length_take.
      unfold FDFS_STORAGE_ID_MAX_SIZE. lia. }
    intros [[r pp] ins] s1 (v' & m' & Hok' & Hm' & Ha' & H). destruct (c_true r) eqn:Er.
    { destruct H as (_ & _ & [H|[H|[H _]]]); [done|congruence|done]. }
    apply returns_ret. split; [unfold c_true in Er; by apply Z.eqb_eq, negb_false_iff|]. exists v'. split; [done|].
    destruct H as (i & q & Hi & Hni & -> & Hq & Hqi & H). cbn in Hni. subst i.
    destruct ins; [|destruct H as (_ & st & Hst & _); by rewrite (states_none Hm) in Hst].
    destruct H as (Hall & _ & _ & -> & _). split; [done|]. split; [|done]. rewrite Hall. intros t Ht.
    apply elem_of_app. by left.
Qed.

Lemma sync_storages_ok v s m l :
  group_ok v (grp s) (details s) → states v (details s) m →
  ¬ oom env → g_use_storage_id cfg = false → Forall (λ b, take (IP_ADDRESS_SIZE - 1) (b_ip_addr b) ≠ []) l →
  returns (tracker_mem_sync_storages env cfg l) s (λ r s', r = 0 ∧ ∃ v',
    group_ok v' (grp s') (details s') ∧ states v' (details s') (fold_left sync_state l m) ∧
    (∀ p, p ∈ v_all v → p ∈ v_all v') ∧ v_active v' = v_active v).
Proof.
  intros Hok Hm Hoom Huse Hip. unfold tracker_mem_sync_storages.
  enough (H : ∀ r, r = 0 → returns (sync_storages env cfg l r) s (λ r s', r = 0 ∧ ∃ v',
    group_ok v' (grp s') (details s') ∧ states v' (details s') (fold_left sync_state l m) ∧
    (∀ p, p ∈ v_all v → p ∈ v_all v') ∧ v_active v' = v_active v)) by by apply H.
  revert v s m Hok Hm. induction Hip as [|b l Hb Hl IH]; intros v s m Hok Hm r ->; cbn [sync_storages fold_left].
  { apply returns_ret. split; [done|]. by exists v. }
  apply returns_bind. eapply returns_mono; [by apply (sync_storage_ok v s m b)|].
  intros r s1 (-> & v1 & Hok1 & Hm1 & Hall & Hact). eapply returns_mono; [by apply (IH v1)|].
  intros r s2 (-> & v2 & Hok2 & Hm2 & Hall2 & Hact2). split; [done|]. exists v2. split; [done|]. split; [done|].
  split; [auto|congruence].
Qed.
End ops.
