(* ===== verification/TrackerQuery.v ===== *)
(** * tracker/tracker_mem.c: which storage servers serve a file

    [tracker_mem_get_storage_by_filename] for a group that was found: the
    name of a file carries the server that created it and the time, and the
    answer is the source server, or servers that have got the file since.
    Three commands ask: for one server to download from, for the server to
    update the file on, for all servers that have the file. *)

From S2P Require Import Prelude CLib SharedFunc Base64 TrunkShared.
From S2P Require Import SortedArray TrackerMem TrackerMemInv TrackerMemOps.
#[local] Open Scope Z_scope.

(** ** Definitions *)

Definition INADDR_NONE : Z := -1.     (* 0xffffffff in an int *)
Definition FDFS_MAX_SERVER_ID : Z := 2 ^ 24 - 1.
Definition FDFS_ID_TYPE_SERVER_ID : Z := 1.
Definition FDFS_ID_TYPE_IP_ADDRESS : Z := 2.
Definition FDFS_DOWNLOAD_SERVER_ROUND_ROBIN : Z := 0.
Definition FDFS_DOWNLOAD_SERVER_SOURCE_FIRST : Z := 1.
Definition FDFS_NORMAL_LOGIC_FILENAME_LENGTH : Z :=
  FDFS_LOGIC_FILE_PATH_LEN + FDFS_FILENAME_BASE64_LENGTH + FDFS_FILE_EXT_NAME_MAX_LEN + 1.

Definition TRACKER_PROTO_CMD_SERVICE_QUERY_FETCH_ONE : Z := 102.
Definition TRACKER_PROTO_CMD_SERVICE_QUERY_UPDATE : Z := 103.
Definition TRACKER_PROTO_CMD_SERVICE_QUERY_FETCH_ALL : Z := 105.

Definition IS_APPENDER_FILE (file_size : Z) : bool := c_true (Z.land file_size FDFS_APPENDER_FILE_SIZE).
Definition IS_SLAVE_FILE (filename_len file_size : Z) : bool :=
  (FDFS_TRUNK_LOGIC_FILENAME_LENGTH <? filename_len) ||
  (FDFS_NORMAL_LOGIC_FILENAME_LENGTH <? filename_len) && negb (IS_TRUNK_FILE file_size).

Definition fdfs_get_server_id_type (id : Z) : Z :=
  if (0 <? id) && (id <=? FDFS_MAX_SERVER_ID) then FDFS_ID_TYPE_SERVER_ID else FDFS_ID_TYPE_IP_ADDRESS.

(** tracker/fdfs_trackerd.c sets the decoder up. *)
Definition g_base64_context : base64_context := base64_init_ex 0 CH_MINUS 95 CH_DOT.

Definition ntohl (n : Z) : Z := s32 (be_value (int_bytes_le n)).

(** [inet_ntop(AF_INET, ...)]: the bytes of the address in memory order. *)
Definition inet_ntop (addr : Z) : list Z :=
  match int_bytes_le addr with
  | [b0; b1; b2; b3] =>
      sprintf_d b0 ++ [CH_DOT] ++ sprintf_d b1 ++ [CH_DOT] ++ sprintf_d b2 ++ [CH_DOT] ++ sprintf_d b3
  | _ => []
  end.

(** What a file name says: [storage_id] is empty when the name carries an
    ip address. *)
Record name_info := {
  storage_ip : Z;
  n_storage_id : list Z;
  file_timestamp : Z;
  bNormalFile : bool;
}.

(** [name_buff] is what the buffer on the stack held before. *)
Definition decode_filename (name_buff filename : list Z) (filename_len : Z) : option name_info :=
  if filename_len <? 32 + (FDFS_FILE_EXT_NAME_MAX_LEN + 1) then
    Some {| storage_ip := INADDR_NONE; n_storage_id := []; file_timestamp := 0; bNormalFile := true |}
  else
    str ← read_at filename FDFS_LOGIC_FILE_PATH_LEN FDFS_FILENAME_BASE64_LENGTH;
    '(written, _) ← base64_decode_auto_to true g_base64_context str;
    let name_buff := TrunkShared.store_at name_buff written in
    ip ← buff2int name_buff;
    file_timestamp ← buff2int (drop 4 name_buff);
    file_size ← buff2long (drop 8 name_buff);
    let storage_ip := ntohl ip in
    Some {| storage_ip := storage_ip;
            n_storage_id := if fdfs_get_server_id_type storage_ip =? FDFS_ID_TYPE_SERVER_ID
                            then sprintf_d storage_ip else [];
            file_timestamp := file_timestamp;
            bNormalFile := negb (IS_SLAVE_FILE filename_len file_size || IS_APPENDER_FILE file_size) |}.

Section query.
Context (cfg : tracker_config) (info : name_info).

(** The server that created the file, if it is active. *)
Definition get_source_server : prog group_state (option positive) :=
  match n_storage_id info with
  | _ :: _ => tracker_mem_get_active_storage_by_id (n_storage_id info)
  | [] => tracker_mem_get_active_storage_by_ip cfg (inet_ntop (storage_ip info))
  end.

(** The server has got the file, by its times. *)
Definition has_synced (d : FDFSStorageDetail) : bool :=
  (file_timestamp info <? g_current_time cfg - g_storage_sync_file_max_delay cfg) ||
  (file_timestamp info <? last_synced_timestamp (stat d)) ||
  (file_timestamp info <=? last_synced_timestamp (stat d) + 1) &&
    (g_storage_sync_file_max_time cfg <? g_current_time cfg - file_timestamp info) ||
  (storage_ip info =? INADDR_NONE) && (store_server cfg =? FDFS_STORE_SERVER_ROUND_ROBIN).

(** [cmp_res == 0] *)
Definition is_source (d : FDFSStorageDetail) : bool :=
  match n_storage_id info with
  | _ :: _ => strcmp (n_storage_id info) (storage_id d) =? 0
  | [] => strcmp (inet_ntop (storage_ip info)) (ip_addr d) =? 0
  end.

(** The block after the server [p] was taken in turn. *)
Definition check_read_server (pGroupStoreServer p : positive) : prog group_state positive :=
  d ← get_server p;
  if bNormalFile info && has_synced d then mret p
  else if bNormalFile info && (storage_ip info =? INADDR_NONE) then mret pGroupStoreServer
  else if is_source d then mret p
  else
    pStoreSrcServer ← (if download_server cfg =? FDFS_DOWNLOAD_SERVER_ROUND_ROBIN then get_source_server
                       else mret None);
    match pStoreSrcServer with
    | Some q => mret q
    | None => mret (if store_server cfg =? FDFS_STORE_SERVER_ROUND_ROBIN then p else pGroupStoreServer)
    end.

Definition next_read_server (g : FDFSGroupInfo) : FDFSGroupInfo :=
  g <| current_read_server :=
         if decide (active_count g ≤ S (current_read_server g))%nat then 0%nat else S (current_read_server g) |>.

Definition query_fetch_one (pGroupStoreServer : positive) : prog group_state (list positive) :=
  pStoreSrcServer ← (if download_server cfg =? FDFS_DOWNLOAD_SERVER_SOURCE_FIRST then get_source_server
                     else mret None);
  match pStoreSrcServer with
  | Some q => mret [q]
  | None =>
      g ← get_grp;
      let read_server_index :=
        if decide (active_count g ≤ current_read_server g)%nat then 0%nat else current_read_server g in
      p ← deref (mjoin (active_servers g !! read_server_index));
      p ← check_read_server pGroupStoreServer p;
      upd_grp next_read_server;;
      mret [p]
  end.

Definition query_update : prog group_state (list positive) :=
  pStoreSrcServer ← (if storage_ip info =? INADDR_NONE then mret None else get_source_server);
  match pStoreSrcServer with
  | Some q => mret [q]
  | None => p ← tracker_get_writable_storage cfg; mret (option_list p)
  end.

(** [ppStoreServers[( *server_count)++] = p]; the array of the caller has
    [FDFS_MAX_SERVERS_EACH_GROUP] entries. *)
Definition add_server (l : list positive) (p : positive) : prog group_state (list positive) :=
  if decide (length l < FDFS_MAX_SERVERS_EACH_GROUP)%nat then mret (l ++ [p]) else undefined.

(** The loop over the active servers; [szIpAddr] is the source's address as
    text. *)
Fixpoint collect_servers (szIpAddr : list Z) (l acc : list positive) : prog group_state (list positive) :=
  match l with
  | [] => mret acc
  | p :: l =>
      d ← get_server p;
      acc ← (if has_synced d || (strcmp (ip_addr d) szIpAddr =? 0) then add_server acc p else mret acc);
      collect_servers szIpAddr l acc
  end.

Definition source_address : list Z :=
  if storage_ip info =? INADDR_NONE then [] else inet_ntop (storage_ip info).

Definition query_fetch_all (pGroupStoreServer : positive) : prog group_state (list positive) :=
  servers ← (if bNormalFile info then
               g ← get_grp;
               l ← servers_in (active_servers g) (active_count g);
               collect_servers source_address l []
             else
               pStoreSrcServer ← match n_storage_id info with
                                 | _ :: _ => tracker_mem_get_active_storage_by_id (n_storage_id info)
                                 | [] => tracker_mem_get_active_storage_by_ip cfg source_address
                                 end;
               mret (option_list pStoreSrcServer));
  match servers with
  | [] => mret [pGroupStoreServer]
  | _ => mret servers
  end.

End query.

(** The servers, and the result ([ENOENT] without servers). *)
Definition tracker_mem_get_storage_by_filename (cfg : tracker_config) (cmd : Z) (name_buff filename : list Z)
    (filename_len : Z) : prog group_state (Z * list positive) :=
  g ← get_grp;
  if decide (active_count g = 0)%nat then mret (ENOENT, [])
  else
    match pStoreServer g with
    | None => mret (ENOENT, [])
    | Some pGroupStoreServer =>
        info ← deref (decode_filename name_buff filename filename_len);
        servers ← (if cmd =? TRACKER_PROTO_CMD_SERVICE_QUERY_FETCH_ONE then query_fetch_one cfg info pGroupStoreServer
                   else if cmd =? TRACKER_PROTO_CMD_SERVICE_QUERY_UPDATE then query_update cfg info
                   else query_fetch_all cfg info pGroupStoreServer);
        mret (if decide (length servers = 0)%nat then ENOENT else 0, servers)
    end.

(** ** The source server *)

Lemma inet_ntop_length addr : (length (inet_ntop addr) < FDFS_STORAGE_ID_MAX_SIZE)%nat.
Proof.
  unfold inet_ntop, FDFS_STORAGE_ID_MAX_SIZE. assert (H := int_bytes_le_byte addr). unfold int_bytes_le in *.
  repeat (apply Forall_cons in H as [?%byte_length H]). rewrite !length_app. cbn [length]. lia.
Qed.

Lemma source_address_length info : (length (source_address info) < FDFS_STORAGE_ID_MAX_SIZE)%nat.
Proof. unfold source_address. destruct (_ =? _); [unfold FDFS_STORAGE_ID_MAX_SIZE; cbn; lia|apply inet_ntop_length]. Qed.

(** The id of the server at an address or with an id. *)
Definition source_id (cfg : tracker_config) (group storage_id ip id : list Z) : Prop :=
  match storage_id with
  | _ :: _ => id = storage_id
  | [] => names_id cfg group None ip id
  end.

(** The values the configuration reader lets through. *)
Definition download_ok (cfg : tracker_config) : Prop :=
  download_server cfg = FDFS_DOWNLOAD_SERVER_ROUND_ROBIN ∨ download_server cfg = FDFS_DOWNLOAD_SERVER_SOURCE_FIRST.

(** The source server as the name gives it. *)
Definition source_of (cfg : tracker_config) (info : name_info) (group id : list Z) : Prop :=
  source_id cfg group (n_storage_id info) (inet_ntop (storage_ip info)) id.

Section proofs.
Context (env : nat → answer) (cfg : tracker_config) (Hids : ids_ok cfg).

(** A search among the active servers by id or address. *)
Definition found_active (v : group_view) (s : group_state) (named : list Z → Prop) (r : option positive) : Prop :=
  match r with
  | Some p => p ∈ v_active v ∧ ∃ id, named id ∧ id_of (details s) p = Some id
  | None => ∀ p id, p ∈ v_active v → named id → id_of (details s) p ≠ Some id
  end.

Lemma names_id_fun group ip a b : names_id cfg group None ip a → names_id cfg group None ip b → a = b.
Proof. unfold names_id. destruct (g_use_storage_id cfg); naive_solver. Qed.

Lemma source_of_fun info group a b : source_of cfg info group a → source_of cfg info group b → a = b.
Proof. unfold source_of, source_id. destruct (n_storage_id info); [apply names_id_fun|congruence]. Qed.

Lemma get_active_by_ip_ok v s ip :
  group_ok v (grp s) (details s) → (length ip < FDFS_STORAGE_ID_MAX_SIZE)%nat →
  returns (tracker_mem_get_active_storage_by_ip cfg ip) s (λ r s',
    s' = s ∧ found_active v s (names_id cfg (group_name (grp s)) None ip) r).
Proof.
  intros Hok Hip. unfold tracker_mem_get_active_storage_by_ip. apply returns_bind.
  unfold storage_id_of_ip, names_id. destruct (g_use_storage_id cfg).
  - step. destruct (fdfs_get_storage_id_by_ip_ok cfg Hids (group_name (grp s)) ip) as (r & Hr & Hfit).
    apply returns_bind, (returns_deref _ _ _ _ Hr), returns_ret. destruct r as [i|]; cbn.
    + eapply returns_mono; [apply tracker_mem_get_active_storage_by_id_ok; [done|by apply Hfit]|].
      intros r s' [-> Hr']. split; [done|]. destruct r as [p|]; cbn in *; [naive_solver|].
      intros p id Hp (j & Hj & ->). rewrite Hr in Hj. injection Hj as <-. by apply Hr'.
    + apply returns_ret. split; [done|]. intros p id _ (j & Hj & _). congruence.
  - apply returns_ret. eapply returns_mono; [by apply tracker_mem_get_active_storage_by_id_ok|].
    intros r s' [-> Hr']. split; [done|]. destruct r as [p|]; cbn in *; naive_solver.
Qed.

Lemma get_active_ok v s id ip :
  group_ok v (grp s) (details s) → (length id < FDFS_STORAGE_ID_MAX_SIZE)%nat →
  (length ip < FDFS_STORAGE_ID_MAX_SIZE)%nat →
  returns (match id with
           | _ :: _ => tracker_mem_get_active_storage_by_id id
           | [] => tracker_mem_get_active_storage_by_ip cfg ip
           end) s (λ r s', s' = s ∧ found_active v s (source_id cfg (group_name (grp s)) id ip) r).
Proof.
  intros Hok Hid Hip. unfold source_id. destruct id as [|c id]; [by apply get_active_by_ip_ok|].
  eapply returns_mono; [by apply tracker_mem_get_active_storage_by_id_ok|].
  intros r s' [-> Hr]. split; [done|]. destruct r as [p|]; cbn in *; naive_solver.
Qed.

Lemma get_source_server_ok info v s :
  group_ok v (grp s) (details s) → (length (n_storage_id info) < FDFS_STORAGE_ID_MAX_SIZE)%nat →
  returns (get_source_server cfg info) s (λ r s',
    s' = s ∧ found_active v s (source_of cfg info (group_name (grp s))) r).
Proof. intros Hok Hid. by apply get_active_ok; [..|apply inet_ntop_length]. Qed.

(** ** One server to download from *)

(** The server [d] created the file. *)
Definition created (info : name_info) (group : list Z) (d : FDFSStorageDetail) : Prop :=
  source_of cfg info group (storage_id d) ∨ n_storage_id info = [] ∧ ip_addr d = inet_ntop (storage_ip info).

Lemma is_source_created info group d : is_source info d = true → created info group d.
Proof.
  unfold is_source, created, source_of, source_id. destruct (n_storage_id info) as [|c id].
  - intros E%Z.eqb_eq%strcmp_eq. right. done.
  - intros E%Z.eqb_eq%strcmp_eq. left. done.
Qed.

(** No active server of the group has the id of the source. *)
Definition source_inactive (v : group_view) (s : group_state) (info : name_info) : Prop :=
  found_active v s (source_of cfg info (group_name (grp s))) None.

(** Why the server [p] may be asked for the file. *)
Definition may_serve (v : group_view) (s : group_state) (info : name_info) (store p : positive)
    (d : FDFSStorageDetail) : Prop :=
  created info (group_name (grp s)) d ∨
  bNormalFile info = true ∧ has_synced cfg info d = true ∨
  bNormalFile info = true ∧ storage_ip info = INADDR_NONE ∧ p = store ∨
  source_inactive v s info ∧ (store_server cfg ≠ FDFS_STORE_SERVER_ROUND_ROBIN → p = store).

Lemma found_created v s info p d :
  found_active v s (source_of cfg info (group_name (grp s))) (Some p) → details s !! p = Some d →
  created info (group_name (grp s)) d.
Proof.
  intros (_ & id & Hs & Hid) Hd. unfold id_of in Hid. rewrite Hd in Hid. injection Hid as Hid. left. by rewrite Hid.
Qed.

Lemma check_read_server_ok v s info store p :
  group_ok v (grp s) (details s) → (length (n_storage_id info) < FDFS_STORAGE_ID_MAX_SIZE)%nat →
  store ∈ v_active v → p ∈ v_active v →
  (download_server cfg = FDFS_DOWNLOAD_SERVER_ROUND_ROBIN ∨ source_inactive v s info) →
  returns (check_read_server cfg info store p) s (λ q s',
    s' = s ∧ q ∈ v_active v ∧ ∃ d, details s !! q = Some d ∧ may_serve v s info store q d).
Proof.
  intros Hok Hid Hstore Hp Hdown. unfold check_read_server.
  assert (Hobj : ∀ q, q ∈ v_active v → ∃ d, details s !! q = Some d)
    by (intros q Hq; by apply (server_object Hok), (active_all Hok)).
  destruct (Hobj p Hp) as [d Hd]. destruct (Hobj store Hstore) as [ds Hds]. step.
  destruct (bNormalFile info && has_synced cfg info d) eqn:E1.
  { apply andb_true_iff in E1. apply returns_ret. split; [done|]. split; [done|]. exists d. unfold may_serve. tauto. }
  destruct (bNormalFile info && (storage_ip info =? INADDR_NONE)) eqn:E2.
  { apply andb_true_iff in E2 as [? ?%Z.eqb_eq]. apply returns_ret. split; [done|]. split; [done|]. exists ds.
    split; [done|]. unfold may_serve. tauto. }
  destruct (is_source info d) eqn:E3.
  { apply returns_ret. split; [done|]. split; [done|]. exists d. split; [done|]. left. by apply is_source_created. }
  apply returns_bind.
  assert (Hrest : source_inactive v s info →
    returns (mret (if store_server cfg =? FDFS_STORE_SERVER_ROUND_ROBIN then p else store) : prog _ _) s
      (λ q s', s' = s ∧ q ∈ v_active v ∧ ∃ d, details s !! q = Some d ∧ may_serve v s info store q d)).
  { intros Hin. apply returns_ret. split; [done|].
    destruct (Z.eqb_spec (store_server cfg) FDFS_STORE_SERVER_ROUND_ROBIN);
      (split; [done|]); [exists d|exists ds]; (split; [done|]); unfold may_serve; naive_solver. }
  destruct (Z.eqb_spec (download_server cfg) FDFS_DOWNLOAD_SERVER_ROUND_ROBIN) as [|Hne].
  - eapply returns_mono; [by apply (get_source_server_ok info v)|]. intros [q|] s' [-> Hq]; [|by apply Hrest].
    apply returns_ret. destruct (Hobj q (proj1 Hq)) as [dq Hdq]. split; [done|]. split; [apply Hq|]. exists dq. split; [done|].
    left. by apply (found_created v s info q dq).
  - apply returns_ret. destruct Hdown as [|Hdown]; [done|]. by apply Hrest.
Qed.

(** The turn of the readers is no part of the invariant. *)
Lemma group_ok_next_read v g ds : group_ok v g ds → group_ok v (next_read_server g) ds.
Proof. intros [ ]. by constructor. Qed.

Lemma active_at v g ds i : group_ok v g ds → (i < active_count g)%nat →
  ∃ p, mjoin (active_servers g !! i) = Some p ∧ p ∈ v_active v.
Proof.
  intros Hok Hi. destruct (ok_active _ _ _ Hok) as [rest Ha]. rewrite (ok_active_count _ _ _ Hok) in Hi.
  destruct (lookup_lt_is_Some_2 _ _ Hi) as [p Hp]. exists p. split; [|by eapply list_elem_of_lookup_2].
  by rewrite Ha, lookup_app_l, list_lookup_fmap, Hp by (by rewrite length_fmap).
Qed.

Lemma query_fetch_one_ok v s info store :
  group_ok v (grp s) (details s) → (length (n_storage_id info) < FDFS_STORAGE_ID_MAX_SIZE)%nat →
  store ∈ v_active v →
  download_ok cfg →
  returns (query_fetch_one cfg info store) s (λ r s',
    group_ok v (grp s') (details s') ∧ details s' = details s ∧ glob s' = glob s ∧
    ∃ p d, r = [p] ∧ p ∈ v_active v ∧ details s !! p = Some d ∧ may_serve v s info store p d).
Proof.
  intros Hok Hid Hstore Hdown. unfold query_fetch_one.
  assert (Hn : active_count (grp s) ≠ 0%nat).
  { rewrite (ok_active_count _ _ _ Hok). by destruct (v_active v); [set_solver|]. }
  apply returns_bind, (returns_mono _ _ (λ r s', s' = s ∧ match r with
    | Some p => found_active v s (source_of cfg info (group_name (grp s))) (Some p)
    | None => download_server cfg = FDFS_DOWNLOAD_SERVER_ROUND_ROBIN ∨ source_inactive v s info end)).
  { destruct (Z.eqb_spec (download_server cfg) FDFS_DOWNLOAD_SERVER_SOURCE_FIRST); [|by apply returns_ret; unfold download_ok in Hdown; naive_solver].
    eapply returns_mono; [by apply (get_source_server_ok info v)|]. intros [p|] s' [-> Hr]; [done|]. split; [done|]. by right. }
  intros [q|] s' [-> Hr].
  - apply returns_ret. destruct (server_object Hok q) as [d Hd]; [apply (active_all Hok), Hr|].
    split; [done|]. split; [done|]. split; [done|]. exists q, d. split; [done|]. split; [apply Hr|]. split; [done|].
    left. by apply (found_created v s info q).
  - step. edestruct (active_at v (grp s) (details s)) as (p & Hp & Hin); [done| |apply returns_bind, (returns_deref _ _ p); [exact Hp|]].
    { destruct (decide _); lia. }
    apply returns_bind. eapply returns_mono; [by apply (check_read_server_ok v)|].
    intros q s' (-> & Hq & d & Hd & Hs). step. step. split; [by apply group_ok_next_read|]. split; [done|]. split; [done|].
    by exists q, d.
Qed.

(** ** All servers that have a file *)

(** The loop keeps an active server that has got the file, or whose address
    is that of the source. *)
Definition kept (s : group_state) (info : name_info) (ip : list Z) (p : positive) : bool :=
  match details s !! p with
  | Some d => has_synced cfg info d || (strcmp (ip_addr d) ip =? 0)
  | None => false
  end.

Lemma collect_servers_ok s info ip l acc :
  (∀ p, p ∈ l → is_Some (details s !! p)) → (length acc + length l ≤ FDFS_MAX_SERVERS_EACH_GROUP)%nat →
  returns (collect_servers cfg info ip l acc) s (λ r s', s' = s ∧ r = acc ++ filter (λ p, kept s info ip p) l).
Proof.
  revert acc. induction l as [|p l IH]; intros acc Hobj Hlen; cbn [collect_servers].
  { apply returns_ret. by rewrite app_nil_r. }
  destruct (Hobj p) as [d Hd]; [by left|]. cbn [length] in Hlen. step.
  assert (Hkept : kept s info ip p = has_synced cfg info d || (strcmp (ip_addr d) ip =? 0)) by (unfold kept; by rewrite Hd).
  apply returns_bind. destruct (_ || _) eqn:E.
  - unfold add_server. rewrite decide_True by lia. apply returns_ret.
    eapply returns_mono; [apply IH; [intros q Hq; apply Hobj; by right|rewrite length_app; cbn; lia]|].
    intros r s' [-> ->]. split; [done|]. rewrite filter_cons_True; [|by rewrite Hkept]. by rewrite <- app_assoc.
  - apply returns_ret. eapply returns_mono; [apply IH; [intros q Hq; apply Hobj; by right|lia]|].
    intros r s' [-> ->]. split; [done|]. rewrite filter_cons_False; [done|]. rewrite Hkept. by intros [].
Qed.

Lemma query_fetch_all_ok v s info store :
  group_ok v (grp s) (details s) → (length (n_storage_id info) < FDFS_STORAGE_ID_MAX_SIZE)%nat →
  store ∈ v_active v → (active_count (grp s) ≤ FDFS_MAX_SERVERS_EACH_GROUP)%nat →
  returns (query_fetch_all cfg info store) s (λ r s', s' = s ∧ ∃ l,
    r = match l with [] => [store] | _ => l end ∧
    if bNormalFile info then l = filter (λ p, kept s info (source_address info) p) (v_active v)
    else ∃ o, l = option_list o ∧ found_active v s (source_id cfg (group_name (grp s)) (n_storage_id info) (source_address info)) o).
Proof.
  intros Hok Hid Hstore Hmax. unfold query_fetch_all. apply returns_bind.
  rewrite (ok_active_count _ _ _ Hok) in Hmax. destruct (bNormalFile info).
  - step. destruct (ok_active _ _ _ Hok) as [rest Ha]. rewrite Ha, (ok_active_count _ _ _ Hok).
    apply returns_bind, servers_in_ok. eapply returns_mono.
    { apply collect_servers_ok; [|cbn; lia]. intros p Hp%(active_all Hok). destruct (server_object Hok p Hp) as [d Hd]. by eexists. }
    intros r s' [-> ->]. cbn [app]. destruct (filter _ _) as [|p l] eqn:E; apply returns_ret; (split; [done|]); [by exists []|by exists (p :: l)].
  - apply returns_bind. eapply returns_mono; [apply (get_active_ok v); [done|done|apply source_address_length]|].
    intros o s' [-> Ho]. apply returns_ret. destruct o as [p|]; apply returns_ret; (split; [done|]).
    + exists [p]. split; [done|]. by exists (Some p).
    + exists []. split; [done|]. by exists None.
Qed.

Lemma get_writable_storage_ok v s :
  group_ok v (grp s) (details s) → v_active v ≠ [] →
  returns (tracker_get_writable_storage cfg) s (λ r s',
    details s' = details s ∧ group_ok v (grp s') (details s') ∧ ∃ p, r = Some p ∧ p ∈ v_active v).
Proof.
  intros Hok Hne. unfold tracker_get_writable_storage. step.
  destruct (_ =? _).
  - step. destruct (ok_active _ _ _ Hok) as [rest Ha]. rewrite (ok_active_count _ _ _ Hok).
    set (i := if decide _ then 0%nat else current_write_server (grp s)).
    assert (Hi : (i < length (v_active v))%nat).
    { unfold i. destruct (v_active v); [done|]. case_decide; cbn in *; lia. }
    destruct (lookup_lt_is_Some_2 _ _ Hi) as [p Hp]. apply (returns_deref _ _ (Some p)).
    { rewrite Ha, lookup_app_l, list_lookup_fmap, Hp by (by rewrite length_fmap). done. }
    split; [done|]. split; [destruct Hok; by constructor|]. exists p. split; [done|]. by eapply list_elem_of_lookup_2.
  - apply returns_ret. split; [done|]. split; [done|]. assert (Hst := ok_store _ _ _ Hok).
    destruct (pStoreServer (grp s)) as [p|]; [by exists p|done].
Qed.

(** ** The server to update a file on *)

Lemma query_update_ok v s info :
  group_ok v (grp s) (details s) → (length (n_storage_id info) < FDFS_STORAGE_ID_MAX_SIZE)%nat → v_active v ≠ [] →
  returns (query_update cfg info) s (λ r s',
    details s' = details s ∧ group_ok v (grp s') (details s') ∧ ∃ p, r = [p] ∧ p ∈ v_active v ∧
      (storage_ip info ≠ INADDR_NONE →
       found_active v s (source_of cfg info (group_name (grp s))) (Some p) ∨ source_inactive v s info)).
Proof.
  intros Hok Hid Hne. unfold query_update.
  apply returns_bind, (returns_mono _ _ (λ r s', s' = s ∧ match r with
    | Some p => found_active v s (source_of cfg info (group_name (grp s))) (Some p)
    | None => storage_ip info ≠ INADDR_NONE → source_inactive v s info end)).
  { destruct (Z.eqb_spec (storage_ip info) INADDR_NONE); [by apply returns_ret|].
    eapply returns_mono; [by apply get_source_server_ok|]. intros [p|] s' [-> Hr]; done. }
  intros [q|] s' [-> Hr].
  - apply returns_ret. split; [done|]. split; [done|]. exists q. split; [done|]. split; [apply Hr|]. by left.
  - apply returns_bind. eapply returns_mono; [by apply get_writable_storage_ok|].
    intros r s' (Hd & Hok' & p & -> & Hp). apply returns_ret. split; [done|]. split; [done|]. exists p.
    split; [done|]. split; [done|]. intros H. right. by apply Hr.
Qed.

(** ** The query *)

Lemma decode_filename_id name_buff filename n info :
  decode_filename name_buff filename n = Some info → (length (n_storage_id info) < FDFS_STORAGE_ID_MAX_SIZE)%nat.
Proof.
  unfold decode_filename, FDFS_STORAGE_ID_MAX_SIZE. destruct (_ <? _); [intros [= <-]; cbn; lia|].
  intros (str & _ & H)%bind_Some. apply bind_Some in H as ([w k] & _ & H).
  apply bind_Some in H as (ip & _ & H). apply bind_Some in H as (t & _ & H). apply bind_Some in H as (z & _ & H).
  injection H as <-. cbn. destruct (_ =? _); [|cbn; lia].
  pose proof (sprintf_d_length (ntohl ip) (s32_range _)). lia.
Qed.

(** The answer [servers] to the command [cmd] in the state [s]. *)
Definition answers (v : group_view) (s : group_state) (info : name_info) (cmd : Z) (servers : list positive) : Prop :=
  ∃ store, pStoreServer (grp s) = Some store ∧
  if cmd =? TRACKER_PROTO_CMD_SERVICE_QUERY_FETCH_ONE then
    ∃ p d, servers = [p] ∧ p ∈ v_active v ∧ details s !! p = Some d ∧ may_serve v s info store p d
  else if cmd =? TRACKER_PROTO_CMD_SERVICE_QUERY_UPDATE then
    ∃ p, servers = [p] ∧ p ∈ v_active v ∧ (storage_ip info ≠ INADDR_NONE →
      found_active v s (source_of cfg info (group_name (grp s))) (Some p) ∨ source_inactive v s info)
  else ∃ l, servers = match l with [] => [store] | _ => l end ∧
    if bNormalFile info then l = filter (λ p, kept s info (source_address info) p) (v_active v)
    else ∃ o, l = option_list o ∧
      found_active v s (source_id cfg (group_name (grp s)) (n_storage_id info) (source_address info)) o.

Lemma get_storage_by_filename_ok v s cmd name_buff filename n info :
  group_ok v (grp s) (details s) → decode_filename name_buff filename n = Some info →
  download_ok cfg →
  (cmd ≠ TRACKER_PROTO_CMD_SERVICE_QUERY_FETCH_ONE → (active_count (grp s) ≤ FDFS_MAX_SERVERS_EACH_GROUP)%nat) →
  returns (tracker_mem_get_storage_by_filename cfg cmd name_buff filename n) s (λ r s',
    details s' = details s ∧ group_ok v (grp s') (details s') ∧
    if decide (active_count (grp s) = 0)%nat then r = (ENOENT, []) else r.1 = 0 ∧ answers v s info cmd r.2).
Proof.
  intros Hok Hdec Hdown Hmax. assert (Hid := decode_filename_id _ _ _ _ Hdec).
  unfold tracker_mem_get_storage_by_filename, answers. step.
  destruct (decide (active_count (grp s) = 0)%nat) as [|Hn]; [by apply returns_ret|].
  assert (Hne : v_active v ≠ []) by (intros E; by rewrite (ok_active_count _ _ _ Hok), E in Hn).
  assert (Hst := ok_store _ _ _ Hok). destruct (pStoreServer (grp s)) as [store|]; [|done].
  apply returns_bind, (returns_deref _ _ info); [done|]. apply returns_bind.
  destruct (Z.eqb_spec cmd TRACKER_PROTO_CMD_SERVICE_QUERY_FETCH_ONE) as [|Hcmd]; [|specialize (Hmax Hcmd); destruct (cmd =? _)].
  - eapply returns_mono; [by apply (query_fetch_one_ok v)|].
    intros r s' (Hok' & Hd & _ & p & d & -> & H). apply returns_ret. rewrite Hd. split; [done|]. split; [by rewrite <- Hd|].
    split; [done|]. exists store. split; [done|]. by exists p, d.
  - eapply returns_mono; [by apply (query_update_ok v)|].
    intros r s' (Hd & Hok' & p & -> & H). apply returns_ret. split; [done|]. split; [done|].
    split; [done|]. exists store. split; [done|]. by exists p.
  - eapply returns_mono; [by apply (query_fetch_all_ok v)|].
    intros r s' (-> & l & -> & H). apply returns_ret. split; [done|]. split; [done|].
    assert (Hl : match l with [] => [store] | _ => l end ≠ []) by by destruct l.
    split; [by destruct (match l with [] => _ | _ => _ end)|]. exists store. split; [done|]. by exists l.
Qed.

End proofs.
