(* ===== verification/TrackerAlive.v ===== *)
(** * Storage servers that stay silent

    [tracker_mem_check_alive] of tracker/tracker_mem.c, for one group: the
    active servers that sent no heart beat for too long go offline, and a
    trunk server that is silent even longer is replaced. *)

From S2P Require Import Prelude CLib SortedArray TrackerMem TrackerMemInv TrackerMemGrow TrackerMemOps TrackerMemActive.
#[local] Open Scope Z_scope.

(** ** Definitions *)

Section check.
Context (env : nat → answer) (cfg : tracker_config).

Definition is_idle (d : FDFSStorageDetail) : bool :=
  g_check_active_interval cfg <? g_current_time cfg - last_heart_beat_time (stat d).

(** The first loop: the array on the stack takes
    [FDFS_MAX_SERVERS_EACH_GROUP] servers. *)
Fixpoint idle_servers (l deactiveServers : list positive) : prog group_state (list positive) :=
  match l with
  | [] => mret deactiveServers
  | p :: l =>
      d ← get_server p;
      if is_idle d then
        let deactiveServers := deactiveServers ++ [p] in
        if decide (FDFS_MAX_SERVERS_EACH_GROUP ≤ length deactiveServers)%nat then mret deactiveServers
        else idle_servers l deactiveServers
      else idle_servers l deactiveServers
  end.

Fixpoint deactive_servers (l : list positive) : prog group_state unit :=
  match l with
  | [] => mret tt
  | p :: l =>
      upd_server p (λ d, d <| status := FDFS_STORAGE_STATUS_OFFLINE |>);;
      tracker_mem_deactive_store_server cfg p;;
      deactive_servers l
  end.

Definition check_servers_alive : prog group_state unit :=
  g ← get_grp;
  l ← servers_in (active_servers g) (active_count g);
  deactiveServers ← idle_servers l [];
  deactive_servers deactiveServers.

(** A trunk server that started a short while ago may still be loading its
    free space. *)
Definition check_trunk_times (pTrunkServer : FDFSStorageDetail) : Z :=
  if g_current_time cfg - up_time pTrunkServer <=? s32 (10 * g_check_active_interval cfg) then
    let check_trunk_times := if g_trunk_init_check_occupying cfg then 5 else 3 in
    if g_trunk_init_reload_from_binlog cfg then check_trunk_times * 2 else check_trunk_times
  else 2.

Definition trunk_silent (pTrunkServer : FDFSStorageDetail) : bool :=
  let last_beat_interval := s32 (g_current_time cfg - last_heart_beat_time (stat pTrunkServer)) in
  let check_trunk_interval := s32 (check_trunk_times pTrunkServer * g_check_active_interval cfg) in
  check_trunk_interval <? last_beat_interval.

Definition check_trunk_alive : prog group_state unit :=
  g ← get_grp;
  match pTrunkServer g with
  | Some p =>
      d ← get_server p;
      if trunk_silent d then
        upd_grp (λ g, g <| pTrunkServer := None |>);;
        tracker_mem_find_trunk_server env false;;
        g ← get_grp;
        match pTrunkServer g with
        | None => tracker_set_trunk_server_and_log env None;; mret tt
        | Some _ => mret tt
        end;;
        upd_grp (λ g, g <| trunk_chg_count ::= λ n, s32 (n + 1) |>);;
        upd_glob (λ t, t <| g_trunk_server_chg_count ::= λ n, s32 (n + 1) |>);;
        ask env;;                                               (* tracker_save_groups *)
        mret tt
      else mret tt
  | None => tracker_mem_find_trunk_server env true;; mret tt
  end.

(** ** Silent servers *)

Definition idle_at (s : group_state) (p : positive) : bool :=
  match details s !! p with Some d => is_idle d | None => false end.

(** The servers that go offline. *)
Definition idle_list (s : group_state) (l : list positive) : list positive :=
  take FDFS_MAX_SERVERS_EACH_GROUP (filter (λ p, idle_at s p) l).

Lemma idle_servers_ok s l acc :
  (∀ p, p ∈ l → is_Some (details s !! p)) → (length acc < FDFS_MAX_SERVERS_EACH_GROUP)%nat →
  returns (idle_servers l acc) s (λ r s',
    s' = s ∧ r = take FDFS_MAX_SERVERS_EACH_GROUP (acc ++ filter (λ p, idle_at s p) l)).
Proof.
  revert acc. induction l as [|p l IH]; intros acc Hobj Hlen; cbn [idle_servers].
  { apply returns_ret. rewrite app_nil_r, take_ge by lia. done. }
  destruct (Hobj p) as [d Hd]; [by left|]. step.
  assert (Hobj' : ∀ q, q ∈ l → is_Some (details s !! q)) by (intros q Hq; apply Hobj; by right).
  assert (Hi : idle_at s p = is_idle d) by (unfold idle_at; by rewrite Hd).
  destruct (is_idle d) eqn:E.
  - rewrite filter_cons_True; [|by rewrite Hi].
    replace (acc ++ p :: filter _ l) with ((acc ++ [p]) ++ filter (λ p, idle_at s p) l) by by rewrite <- app_assoc.
    assert (Hl : length (acc ++ [p]) = S (length acc)) by (rewrite length_app; cbn; lia).
    case_decide.
    + apply returns_ret. split; [done|]. rewrite take_app_le, take_ge by lia. done.
    + apply IH; [done|lia].
  - rewrite filter_cons_False; [|rewrite Hi; by intros []]. by apply IH.
Qed.

(** The states after the servers [l] went offline. *)
Definition offline_states (ds : gmap positive FDFSStorageDetail) (l : list positive) (m : gmap (list Z) Z)
    : gmap (list Z) Z :=
  foldl (λ m p, match id_of ds p with Some id => <[id := FDFS_STORAGE_STATUS_OFFLINE]> m | None => m end) m l.

Lemma offline_states_ext ds ds' l m :
  (∀ p, p ∈ l → id_of ds' p = id_of ds p) → offline_states ds' l m = offline_states ds l m.
Proof.
  revert m. induction l as [|p l IH]; intros m Hid; [done|]. cbn. rewrite Hid by by left.
  apply IH. intros q Hq. apply Hid. by right.
Qed.

Lemma offline_states_cons ds p d l m : ds !! p = Some d →
  offline_states ds (p :: l) m = offline_states ds l (<[storage_id d := FDFS_STORAGE_STATUS_OFFLINE]> m).
Proof. intros Hd. unfold offline_states. cbn [foldl]. unfold id_of at 2. by rewrite Hd. Qed.

Lemma deactive_servers_ok v s m l :
  group_ok v (grp s) (details s) → states v (details s) m → NoDup l → (∀ p, p ∈ l → p ∈ v_all v) →
  returns (deactive_servers l) s (λ _ s', ∃ v',
    group_ok v' (grp s') (details s') ∧ states v' (details s') (offline_states (details s) l m) ∧ v_all v' = v_all v ∧
    (∀ q, q ∈ v_active v' ↔ q ∈ v_active v ∧ q ∉ l) ∧ (∀ q, q ∉ l → details s' !! q = details s !! q) ∧
    (l ≠ [] ∨ store_chosen cfg v s → store_chosen cfg v' s')).
Proof.
  revert v s m. induction l as [|p l IH]; intros v s m Hok Hm Hnd Hin; cbn [deactive_servers].
  { apply returns_ret. exists v. split; [done|]. split; [done|]. set_solver. }
  apply NoDup_cons in Hnd as [Hpl Hnd]. assert (Hp : p ∈ v_all v) by (apply Hin; by left).
  destruct (server_object Hok p Hp) as [d Hd]. step. apply returns_bind.
  set (d' := d <| status := FDFS_STORAGE_STATUS_OFFLINE |>).
  eapply returns_mono; [apply (deactive_store_server_ok env cfg v _ (details s) m p d d'); try done|].
  intros _ s1 (_ & v1 & Hok1 & Hm1 & Hall & Hact & Hc & Hds).
  eapply returns_mono; [apply (IH v1 s1 _ Hok1 Hm1 Hnd)|].
  { intros q Hq. rewrite Hall. apply Hin. by right. }
  intros _ s2 (v2 & Hok2 & Hm2 & Hall2 & Hact2 & Hds2 & Hc2). exists v2. split; [done|]. split; [|split; [congruence|split; [|split]]].
  - rewrite (offline_states_cons _ _ d) by done. rewrite <- (offline_states_ext (details s) (details s1)); [exact Hm2|].
    intros q Hq. unfold id_of. rewrite Hds; [done|]. by intros ->.
  - intros q. rewrite Hact2, Hact, not_elem_of_cons. tauto.
  - intros q [Hqp Hql]%not_elem_of_cons. rewrite Hds2, Hds by done. done.
  - intros _. apply Hc2. by right.
Qed.
Lemma check_servers_alive_ok v s m :
  group_ok v (grp s) (details s) → states v (details s) m →
  returns check_servers_alive s (λ _ s', ∃ v',
    group_ok v' (grp s') (details s') ∧
    states v' (details s') (offline_states (details s) (idle_list s (v_active v)) m) ∧ v_all v' = v_all v ∧
    (∀ q, q ∈ v_active v' ↔ q ∈ v_active v ∧ q ∉ idle_list s (v_active v)) ∧
    (∀ q, q ∉ idle_list s (v_active v) → details s' !! q = details s !! q) ∧
    (idle_list s (v_active v) ≠ [] ∨ store_chosen cfg v s → store_chosen cfg v' s')).
Proof.
  intros Hok Hm. unfold check_servers_alive. step. destruct (ok_active _ _ _ Hok) as [rest Ha].
  rewrite Ha, (ok_active_count _ _ _ Hok). apply returns_bind, servers_in_ok. apply returns_bind.
  eapply returns_mono; [apply idle_servers_ok|].
  { intros p Hp%(active_all Hok). destruct (server_object Hok p Hp) as [d Hd]. by eexists. }
  { cbn. unfold FDFS_MAX_SERVERS_EACH_GROUP. lia. }
  intros l s' [-> ->]. cbn [app]. fold (idle_list s (v_active v)).
  assert (Hsub : idle_list s (v_active v) `sublist_of` v_active v).
  { unfold idle_list. etrans; [apply sublist_take|]. apply sublist_filter. }
  apply deactive_servers_ok; [done..| |].
  - eapply sublist_NoDup; [|exact Hsub]. eapply sorted_by_NoDup, Hok.
  - intros p Hp. apply (active_all Hok). eapply elem_of_sublist; [exact Hp|exact Hsub].
Qed.

(** ** The trunk server *)

Lemma set_no_trunk_server_ok v s :
  group_ok v (grp s) (details s) →
  returns (tracker_set_trunk_server_and_log env None) s (λ _ s',
    group_ok v (grp s') (details s') ∧ details s' = details s ∧ pTrunkServer (grp s') = None ∧
    active_servers (grp s') = active_servers (grp s) ∧ active_count (grp s') = active_count (grp s) ∧
    pStoreServer (grp s') = pStoreServer (grp s)).
Proof.
  intros Hok. unfold tracker_set_trunk_server_and_log. step. step. apply returns_bind, returns_ret.
  apply returns_bind. set (s1 := s <| grp ::= _ |>).
  assert (Hok1 : group_ok v (grp s1) (details s1)) by (destruct Hok; by constructor).
  eapply (returns_mono _ _ (λ _ s', s' = s1)).
  { destruct (pTrunkServer (grp s)), (last_trunk_server_id (grp s)) eqn:El; try by apply returns_ret.
    apply returns_bind. eapply returns_mono.
    - apply (tracker_mem_get_storage_ok v); [exact Hok1|]. rewrite <- El. apply Hok.
    - intros r s' [-> _]. by apply returns_ret. }
  intros _ s' ->. step. step. apply returns_ret. cbn. split; [|done].
  destruct Hok1. constructor; try assumption. cbn. unfold FDFS_STORAGE_ID_MAX_SIZE. lia.
Qed.

(** A trunk server that is silent is given up; what else the check changes
    is the choice of another. *)
Lemma check_trunk_alive_ok v s :
  group_ok v (grp s) (details s) →
  returns check_trunk_alive s (λ _ s',
    group_ok v (grp s') (details s') ∧ details s' = details s ∧
    match pTrunkServer (grp s), pTrunkServer (grp s') with
    | Some p, Some q =>
        p = q ∧ (∃ d, details s !! p = Some d ∧ trunk_silent d = false) ∨ q ∈ v_active v
    | Some p, None => ∃ d, details s !! p = Some d ∧ trunk_silent d = true
    | None, Some q => q ∈ v_all v
    | None, None => True
    end).
Proof.
  intros Hok. unfold check_trunk_alive. step. assert (Htr := ok_trunk _ _ _ Hok).
  destruct (pTrunkServer (grp s)) as [p|] eqn:Ep.
  - assert (Hp : p ∈ v_all v) by by apply Htr. destruct (server_object Hok p Hp) as [d Hd]. step.
    destruct (trunk_silent d) eqn:Es; [|apply returns_ret; rewrite Ep; eauto 10].
    step. set (s1 := s <| grp ::= _ |>).
    assert (Hok1 : group_ok v (grp s1) (details s1)) by (destruct Hok; by constructor).
    apply returns_bind. eapply returns_mono; [by apply (find_trunk_server_ok env v)|].
    intros r s2 (Hok2 & [Hd2 _] & _ & Ht). step. apply returns_bind.
    eapply (returns_mono _ _ (λ _ s3, group_ok v (grp s3) (details s3) ∧ details s3 = details s ∧
      match pTrunkServer (grp s3) with Some q => q ∈ v_active v | None => True end)).
    { destruct (pTrunkServer (grp s2)) as [q|] eqn:Eq.
      - apply returns_ret. split; [done|]. split; [done|]. rewrite Eq. destruct Ht as [?|(? & [= <-] & ?)]; done.
      - apply returns_bind. eapply returns_mono; [by apply (set_no_trunk_server_ok v)|].
        intros _ s3 (Hok3 & Hd3 & Hn & _). apply returns_ret. rewrite Hn. split; [done|]. split; [by rewrite Hd3, Hd2|done]. }
    intros _ s3 (Hok3 & Hd3 & Hq). step. step. step. apply returns_ret. cbn.
    split; [destruct Hok3; by constructor|]. split; [done|].
    destruct (pTrunkServer (grp s3)) as [q|]; [by right|]. by exists d.
  - apply returns_bind. eapply returns_mono; [by apply (find_trunk_server_ok env v)|].
    intros r s2 (Hok2 & [Hd2 _] & _). apply returns_ret. split; [done|]. split; [done|].
    destruct (pTrunkServer (grp s2)) as [q|] eqn:Eq; [|done]. by apply (ok_trunk _ _ _ Hok2).
Qed.

End check.
