(* ===== verification/TrackerMemSpec.v ===== *)
(** * What a group of storage servers promises

    Seen from outside a group is a map from the ids of its servers to their
    states.  Every operation, in every state that the operations reach from
    a new group, runs without undefined behaviour, returns the result and
    makes the change of state the specification [op_spec] allows, and keeps
    the active servers the ones in the state ACTIVE, in the order of ids. *)

From stdpp Require Import strings sorting.
From S2P Require Import Prelude CLib SortedArray TrackerMem TrackerMemInv TrackerMemGrow TrackerMemOps.
From S2P Require Import TrackerMemActive TrackerMemSync TrackerQuery TrackerAlive.
#[local] Open Scope Z_scope.

(** ** A new group *)

Definition empty_view (spare : list positive) : group_view :=
  {| v_all := []; v_spare := spare; v_sorted := []; v_active := [] |}.

(** A group object that [tracker_mem_init_group] may be called on: new, or
    left by a call that failed. *)
Definition blank_group (g : FDFSGroupInfo) : Prop :=
  active_count g = 0%nat ∧ pStoreServer g = None ∧ pTrunkServer g = None ∧ last_trunk_server_id g = [] ∧
  store_path_count g = 0.

Lemma blank_zero : blank_group zero_group.
Proof. done. Qed.

(** What the initialisation leaves alone. *)
Definition same_head (g g' : FDFSGroupInfo) : Prop :=
  group_name g' = group_name g ∧ active_count g' = active_count g ∧ pStoreServer g' = pStoreServer g ∧
  pTrunkServer g' = pTrunkServer g ∧ last_trunk_server_id g' = last_trunk_server_id g ∧
  store_path_count g' = store_path_count g.

Lemma blank_head g g' : same_head g g' → blank_group g → blank_group g'.
Proof. intros (_ & Ha & Hs & Ht & Hl & Hp) Hb. unfold blank_group. by rewrite Ha, Hs, Ht, Hl, Hp. Qed.

(** The result of [tracker_mem_init_group]. *)
Definition group_made (env : nat → answer) (s : group_state) (r : Z) (s' : group_state) : Prop :=
  same_head (grp s) (grp s') ∧
  (r = 0 → ∃ spare, group_ok (empty_view spare) (grp s') (details s') ∧ length spare = 2%nat ∧
     ∀ p, p ∈ spare → details s' !! p = Some zero_detail) ∧ (r ≠ 0 → oom env).

Lemma init_failed env s s' r :
  same_head (grp s) (grp s') → c_true r = true → oom env → group_made env s r s'.
Proof. intros Hh Hr Ho. split; [done|]. split; [intros ->; done|done]. Qed.

Lemma init_group_ok env s :
  blank_group (grp s) → returns (tracker_mem_init_group env) s (group_made env s).
Proof.
  intros Hg. unfold tracker_mem_init_group. step. step.
  destruct (c_true (malloc_result a)) eqn:Er; [step; apply returns_ret, init_failed; [done..|auto]|].
  apply returns_bind. eapply returns_mono; [apply malloc_details_ok|].
  intros [err made] s1 (Hg1 & Hlen & Hnd & Hin & Hout). cbn [fst snd] in Hlen, Hnd, Hin |- *.
  assert (Hhead : ∀ s2, same_head (grp s1) (grp s2) → same_head (grp s) (grp s2))
    by (unfold same_head; rewrite Hg1; done).
  destruct (c_true err) eqn:Ee; [step; step; apply returns_ret, init_failed; [by apply Hhead|done|auto]|].
  step. step. destruct (c_true (malloc_result a0)) eqn:Er0;
    [step; step; apply returns_ret, init_failed; [by apply Hhead|done|auto]|].
  step. step. destruct (c_true (malloc_result a1)) eqn:Er1;
    [step; step; apply returns_ret, init_failed; [by apply Hhead|done|auto]|].
  step. apply returns_bind. unfold tracker_malloc_last_sync_timestamps. step.
  destruct (c_true (malloc_result a2)) eqn:Er2.
  { apply returns_ret. cbn [fst snd]. step. apply returns_ret, init_failed; [by apply Hhead|done|auto]. }
  eapply returns_mono; [apply malloc_rows_ok|]. intros [err2 rows] s2 (Hg2 & Hd2 & Hrows). cbn [fst snd] in Hrows |- *.
  step. apply returns_ret. split; [apply Hhead; unfold same_head; cbn; by rewrite Hg2|].
  split; [|intros E%c_true_spec; by rewrite E in Hrows]. intros ->. cbn in Hrows |- *.
  subst rows. exists made. split; [|split; [done|intros p Hp; rewrite Hd2; by apply Hin]]. rewrite Hg2. cbn. rewrite Hd2, Hg1. cbn.
  destruct Hg as (Hac & Hst & Htr & Hlt & _). constructor; cbn; rewrite ?Hac, ?Hst, ?Htr, ?Hlt; try done.
  - by exists (replicate 2 None).
  - constructor.
  - by exists (replicate 2 None).
  - constructor.
  - set_solver.
  - intros p Hp. destruct (Hin p Hp) as [_ ->]. by eexists.
  - set_solver.
  - intros p d Hp Hd. destruct (Hin p Hp) as [_ E]. rewrite E in Hd. by injection Hd as <-.
  - intros p d q Hp Hd. destruct (Hin p Hp) as [_ E]. rewrite E in Hd. by injection Hd as <-.
  - cbn. unfold FDFS_STORAGE_ID_MAX_SIZE. lia.
  - by repeat constructor.
Qed.

Lemma empty_states spare ds : states (empty_view spare) ds ∅.
Proof. intros id st. rewrite lookup_empty. split; [done|]. intros (p & d & Hp & _). cbn in Hp. set_solver. Qed.

(** ** Choosing the trunk server *)

Lemma set_trunk_server_ok env cfg v s id :
  group_ok v (grp s) (details s) → (length id < FDFS_STORAGE_ID_MAX_SIZE)%nat →
  returns (tracker_mem_set_trunk_server env cfg id) s (λ r s',
    group_ok v (grp s') (details s') ∧ details s' = details s ∧
    (r.1 = 0 → ∃ p, r.2 = Some p ∧ p ∈ v_active v ∧ pTrunkServer (grp s') = Some p)).
Proof.
  intros Hok Hid. unfold tracker_mem_set_trunk_server. destruct (negb _); [by apply returns_ret|]. step. apply returns_bind.
  set (active := match pTrunkServer (grp s) with
     | None => None
     | Some p => match details s !! p with
                 | Some d => if status d =? FDFS_STORAGE_STATUS_ACTIVE then Some (p, storage_id d) else None
                 | None => None end end).
  assert (Hin : ∀ p i, active = Some (p, i) → p ∈ v_active v ∧ pTrunkServer (grp s) = Some p).
  { unfold active. intros p i. destruct (pTrunkServer (grp s)) as [q|] eqn:Et; [|done].
    destruct (details s !! q) as [d|] eqn:Hd; [|done]. destruct (Z.eqb_spec (status d) FDFS_STORAGE_STATUS_ACTIVE); [|done].
    intros [= <- <-]. split; [|done]. apply (states_active Hok q d); [by apply (ok_trunk _ _ _ Hok)|done..]. }
  assert (Ha : returns match pTrunkServer (grp s) with
     | None => mret None
     | Some p => d ← get_server p;
                 mret (if status d =? FDFS_STORAGE_STATUS_ACTIVE then Some (p, storage_id d) else None)
     end s (λ r s', s' = s ∧ r = active)).
  { unfold active. destruct (pTrunkServer (grp s)) as [p|] eqn:Et; [|by apply returns_ret].
    destruct (server_object Hok p) as [d Hd]; [by apply (ok_trunk _ _ _ Hok)|]. step. apply returns_ret. by rewrite Hd. }
  eapply returns_mono; [exact Ha|]. clear Ha. intros r s0 [-> ->].
  assert (Hset : ∀ p, p ∈ v_active v → returns
     (result ← tracker_mem_do_set_trunk_server env p true;
      if c_true result then mret (result, None) else g ← get_grp; mret (0, pTrunkServer g)) s
     (λ r s', group_ok v (grp s') (details s') ∧ details s' = details s ∧
       (r.1 = 0 → ∃ p, r.2 = Some p ∧ p ∈ v_active v ∧ pTrunkServer (grp s') = Some p))).
  { intros p Hp. apply returns_bind. eapply returns_mono; [apply (do_set_trunk_server_ok env v); [done|by apply (active_all Hok)]|].
    intros r s1 (H1 & [Hd1 _] & Ht & _). destruct (c_true r) eqn:Er.
    - apply returns_ret. split; [done|]. split; [done|]. cbn. by intros ->.
    - step. apply returns_ret. split; [done|]. split; [done|]. intros _. exists p.
      rewrite Ht; [done|]. unfold c_true in Er. by apply Z.eqb_eq, negb_false_iff. }
  destruct id as [|c id'].
  - destruct active as [[p i]|] eqn:Ea.
    + apply returns_ret. split; [done|]. split; [done|]. intros _. destruct (Hin p i eq_refl). by exists p.
    + apply returns_bind. eapply returns_mono; [by apply (find_trunk_server_ok env v)|].
      intros r s1 (H1 & [Hd1 _] & Ht & _). destruct (c_true r) eqn:Er.
      * apply returns_ret. split; [done|]. split; [done|]. cbn. by intros ->.
      * step. apply returns_ret. split; [done|]. split; [done|]. intros _.
        destruct Ht as (p & Hp & Hpa); [unfold c_true in Er; by apply Z.eqb_eq, negb_false_iff|]. exists p. by rewrite Hp.
  - set (id := c :: id') in *. destruct active as [[p i]|] eqn:Ea.
    + apply returns_ret. split; [done|]. split; [done|]. by destruct (_ =? _).
    + apply returns_bind. eapply returns_mono; [by apply (tracker_mem_get_storage_ok v)|].
      intros [p|] s1 [-> Hl]; [|by apply returns_ret]. destruct Hl as [Hp _].
      destruct (server_object Hok p Hp) as [d Hd]. step.
      destruct (Z.eqb_spec (status d) FDFS_STORAGE_STATUS_ACTIVE); cbn [negb]; [|by apply returns_ret].
      apply Hset. by apply (states_active Hok p d).
Qed.

(** ** The abstraction *)

(** The map from ids to states a group stands for. *)
Definition add_state (ds : gmap positive FDFSStorageDetail) (p : positive) (m : gmap (list Z) Z) : gmap (list Z) Z :=
  match ds !! p with Some d => <[storage_id d := status d]> m | None => m end.

Definition server_states (s : group_state) : gmap (list Z) Z :=
  match entries (all_servers (grp s)) (count (grp s)) with
  | Some l => foldr (add_state (details s)) ∅ l
  | None => ∅
  end.

Lemma foldr_states ds (l : list positive) :
  (∀ p q d e, p ∈ l → q ∈ l → ds !! p = Some d → ds !! q = Some e → storage_id d = storage_id e → p = q) →
  ∀ id st, foldr (add_state ds) ∅ l !! id = Some st ↔
    ∃ p d, p ∈ l ∧ ds !! p = Some d ∧ storage_id d = id ∧ status d = st.
Proof.
  induction l as [|p l IH]; intros Hinj id st; cbn [foldr].
  { rewrite lookup_empty. split; [done|]. intros (q & d & Hq & _). set_solver. }
  assert (IH' := IH (λ q r d e Hq Hr, Hinj q r d e (list_elem_of_further _ _ _ Hq) (list_elem_of_further _ _ _ Hr)) id st).
  unfold add_state at 1. destruct (ds !! p) as [d|] eqn:Hd.
  - destruct (decide (storage_id d = id)) as [<-|Hne].
    + rewrite lookup_insert_eq. split; [intros [= <-]; exists p, d; by split; [left|]|].
      intros (q & e & Hq & He & Hid & Hst). rewrite (Hinj p q d e) in Hd; [congruence|by left|done|done|done|done].
    + rewrite lookup_insert_ne, IH' by done. split; intros (q & e & Hq & He & Hid & Hst); exists q, e.
      * split; [by right|done].
      * apply elem_of_cons in Hq as [->|Hq]; [congruence|done].
  - rewrite IH'. split; intros (q & e & Hq & H); exists q, e.
    + split; [by right|done].
    + apply elem_of_cons in Hq as [->|Hq]; [destruct H; congruence|done].
Qed.

Lemma server_states_ok v s : group_ok v (grp s) (details s) → states v (details s) (server_states s).
Proof.
  intros Hok. unfold server_states. rewrite (ok_all _ _ _ Hok), (ok_count _ _ _ Hok), fmap_app, entries_spec.
  intros id st. apply foldr_states. intros p q d e Hp Hq Hd He Hid.
  apply (id_of_inj Hok p q (storage_id d)); [done|done|unfold id_of; by rewrite Hd|].
  unfold id_of. rewrite He. cbn. by rewrite Hid.
Qed.

Lemma server_states_eq v s m : group_ok v (grp s) (details s) → states v (details s) m → server_states s = m.
Proof. intros Hok Hm. by eapply states_fun; [apply server_states_ok|]. Qed.

(** The active servers, as the group keeps them, are the ones in the state
    ACTIVE, in the order of their ids. *)
Definition serves_active (s : group_state) : Prop :=
  ∃ l ids, entries (active_servers (grp s)) (active_count (grp s)) = Some l ∧ mapM (id_of (details s)) l = Some ids ∧
    StronglySorted (λ a b, strcmp a b < 0) ids ∧
    ∀ id, id ∈ ids ↔ server_states s !! id = Some FDFS_STORAGE_STATUS_ACTIVE.

Lemma mapM_keys (key : positive → option (list Z)) (l : list positive) :
  sorted_by key l → Forall (λ p, is_Some (key p)) l →
  ∃ ids, mapM key l = Some ids ∧ StronglySorted (λ a b, strcmp a b < 0) ids ∧
    ∀ id, id ∈ ids ↔ ∃ p, p ∈ l ∧ key p = Some id.
Proof.
  intros Hs Hk. induction Hs as [|p l Hl IH Hp]; [exists []; split; [done|]; split; [constructor|set_solver]|].
  apply Forall_cons in Hk as [[a Ha] Hk]. destruct IH as (ids & E & Hs & Hin); [done|].
  exists (a :: ids). cbn [mapM]. rewrite Ha, E. split; [done|]. split.
  - constructor; [done|]. apply Forall_forall. intros b Hb. apply Hin in Hb as (q & Hq & Hqb).
    rewrite Forall_forall in Hp. destruct (Hp q Hq) as (x & y & Hx & Hy & Hxy). by simplify_eq.
  - intros id. rewrite elem_of_cons, Hin. split.
    + intros [->|(q & Hq & Hqi)]; [exists p; split; [by left|done]|exists q; split; [by right|done]].
    + intros (q & [->|Hq]%elem_of_cons & Hqi); [left; congruence|right; by exists q].
Qed.

Lemma mapM_sorted_nodup (key : positive → option (list Z)) l ids :
  mapM key l = Some ids → StronglySorted (λ a b, strcmp a b < 0) ids → NoDup l.
Proof.
  revert ids. induction l as [|p l IH]; intros ids E Hs; [constructor|]. cbn [mapM] in E.
  apply bind_Some in E as (a & Ha & (ks & Hks & [= <-])%bind_Some). apply StronglySorted_inv in Hs as [Hs Hf].
  constructor; [|by apply (IH ks)]. intros Hp. rewrite Forall_forall in Hf.
  apply mapM_Some in Hks. apply list_elem_of_lookup in Hp as [i Hi].
  destruct (Forall2_lookup_l _ _ _ _ _ Hks Hi) as (b & Hb & Hpb). assert (b = a) as -> by congruence.
  assert (H := Hf a ltac:(by eapply list_elem_of_lookup_2)). rewrite strcmp_refl in H. lia.
Qed.

Lemma group_serves_active v s : group_ok v (grp s) (details s) → serves_active s.
Proof.
  intros Hok. destruct (mapM_keys (id_of (details s)) (v_active v)) as (ids & E & Hs & Hin); [apply Hok|apply (active_keys Hok)|].
  exists (v_active v), ids. split.
  { destruct (ok_active _ _ _ Hok) as [rest ->]. rewrite (ok_active_count _ _ _ Hok). apply entries_spec. }
  split; [done|]. split; [done|]. intros id. rewrite Hin, (server_states_ok v s Hok id _). split.
  - intros (p & Hp & Hid). assert (Hpa := active_all Hok p Hp). destruct (server_object Hok p Hpa) as [d Hd].
    exists p, d. unfold id_of in Hid. rewrite Hd in Hid. injection Hid as Hid. split; [done|]. split; [done|].
    split; [done|]. by apply (states_active Hok p d).
  - intros (p & d & Hp & Hd & Hid & Hst). exists p. split; [by apply (states_active Hok p d)|].
    unfold id_of. rewrite Hd. cbn. by rewrite Hid.
Qed.

(** ** The operations *)

Inductive group_op :=
  | OpAdd (id : option (list Z)) (ip : list Z)
  | OpDelete (id : list Z)
  | OpIpChanged (old new : list Z)
  | OpSync (l : list FDFSStorageBrief)
  | OpActive (p : positive)
  | OpOffline (p : positive)
  | OpWritable
  | OpFindTrunk (save : bool)
  | OpSetTrunk (id : list Z)
  | OpQuery (cmd : Z) (name_buff filename : list Z) (filename_len : Z)
  | OpCheckServers
  | OpCheckTrunk.

Definition run_op (env : nat → answer) (cfg : tracker_config) (o : group_op) : prog group_state Z :=
  match o with
  | OpAdd id ip => r ← _tracker_mem_add_storage env cfg None id ip true; mret r.1.1
  | OpDelete id => tracker_mem_delete_storage env cfg id
  | OpIpChanged old new => tracker_mem_storage_ip_changed env cfg old new
  | OpSync l => tracker_mem_sync_storages env cfg l
  | OpActive p => tracker_mem_active_store_server env cfg p
  | OpOffline p => tracker_mem_offline_store_server cfg p
  | OpWritable => tracker_get_writable_storage cfg;; mret 0
  | OpFindTrunk save => tracker_mem_find_trunk_server env save
  | OpSetTrunk id => r ← tracker_mem_set_trunk_server env cfg id; mret r.1
  | OpQuery cmd name_buff filename n => r ← tracker_mem_get_storage_by_filename cfg cmd name_buff filename n; mret r.1
  | OpCheckServers => check_servers_alive cfg;; mret 0
  | OpCheckTrunk => check_trunk_alive env cfg;; mret 0
  end.

(** What the callers see to: names fit their buffers, a pointer points to a
    server of the group, the arrays of a server that is deleted are as long
    as its count says; a report adds servers only while memory lasts; a
    query is decoded, and its answer fits the array of the caller. *)
Definition op_pre (env : nat → answer) (cfg : tracker_config) (s : group_state) (o : group_op) : Prop :=
  match o with
  | OpAdd id ip => fits id ip
  | OpDelete id => (length id < FDFS_STORAGE_ID_MAX_SIZE)%nat ∧
                   ∀ p d, details s !! p = Some d → storage_id d = id → paths_fit d
  | OpIpChanged old new =>
      (length old < FDFS_STORAGE_ID_MAX_SIZE)%nat ∧ (length new < FDFS_STORAGE_ID_MAX_SIZE)%nat ∧ new ≠ []
  | OpSync l => ¬ oom env ∧ g_use_storage_id cfg = false ∧ Forall (λ b, take (IP_ADDRESS_SIZE - 1) (b_ip_addr b) ≠ []) l
  | OpActive p | OpOffline p => ∃ i, (i < count (grp s))%nat ∧ all_servers (grp s) !! i = Some (Some p)
  | OpWritable => active_count (grp s) ≠ 0%nat
  | OpFindTrunk _ | OpCheckServers | OpCheckTrunk => True
  | OpSetTrunk id => (length id < FDFS_STORAGE_ID_MAX_SIZE)%nat
  | OpQuery _ name_buff filename n =>
      is_Some (decode_filename name_buff filename n) ∧ download_ok cfg ∧
      (active_count (grp s) ≤ FDFS_MAX_SERVERS_EACH_GROUP)%nat
  end.

(** The result and the new states of an operation. *)
Definition op_spec (env : nat → answer) (cfg : tracker_config) (s : group_state) (o : group_op) (r : Z)
    (m' : gmap (list Z) Z) : Prop :=
  let m := server_states s in
  match o with
  | OpAdd id ip =>
      r ≠ 0 ∧ m' = m ∨
      r = 0 ∧ ∃ i, names_id cfg (group_name (grp s)) id ip i ∧
        m' = <[i := match m !! i with Some st => revived st | None => FDFS_STORAGE_STATUS_INIT end]> m
  | OpDelete id => (r, m') = delete_server m id
  | OpIpChanged old new => ip_change env cfg m old new r m'
  | OpSync l => r = 0 ∧ m' = fold_left sync_state l m
  | OpActive p => r = 0 ∧ ∃ d, details s !! p = Some d ∧ m' = <[storage_id d := activated (status d)]> m
  | OpOffline p => r = 0 ∧ ∃ d, details s !! p = Some d ∧ m' = <[storage_id d := offlined (status d)]> m
  | OpCheckServers => r = 0 ∧ m' = offline_states (details s) (idle_list cfg s (active_list s)) m
  | OpWritable | OpFindTrunk _ | OpSetTrunk _ | OpQuery _ _ _ _ | OpCheckTrunk => m' = m
  end.

Lemma in_group v s p :
  group_ok v (grp s) (details s) → (∃ i, (i < count (grp s))%nat ∧ all_servers (grp s) !! i = Some (Some p)) → p ∈ v_all v.
Proof.
  intros Hok (i & Hi & Hl). rewrite (ok_count _ _ _ Hok) in Hi.
  rewrite (ok_all _ _ _ Hok), list_lookup_fmap, lookup_app_l in Hl by done.
  destruct (v_all v !! i) as [q|] eqn:E; [|done]. injection Hl as <-. by eapply list_elem_of_lookup_2.
Qed.

(** One operation: no undefined behaviour, the invariant, the effect. *)
Lemma run_op_ok env cfg v s o :
  ids_ok cfg → group_ok v (grp s) (details s) → op_pre env cfg s o →
  returns (run_op env cfg o) s (λ r s',
    (∃ v', group_ok v' (grp s') (details s')) ∧ op_spec env cfg s o r (server_states s')).
Proof.
  intros Hids Hok Hpre. assert (Hm := server_states_ok v s Hok).
  destruct o as [id ip|id|old new|l|p|p| |save|id|cmd nb fn n| |]; cbn [op_pre] in Hpre; cbn [run_op op_spec].
  - apply returns_bind. eapply returns_mono; [by apply (add_storage_ok env cfg Hids v s (server_states s))|].
    intros [[r pp] ins] s' (v' & m' & Hok' & Hm' & _ & H). apply returns_ret. split; [by exists v'|].
    rewrite (server_states_eq v' s' m') by done. cbn. destruct (c_true r) eqn:Er.
    + left. split; [by apply c_true_spec|apply H].
    + right. split; [unfold c_true in Er; by apply Z.eqb_eq, negb_false_iff|].
      destruct H as (i & q & _ & Hn & _ & _ & _ & H). exists i. split; [done|].
      destruct ins; [by destruct H as (_ & _ & -> & -> & _)|by destruct H as (_ & st & -> & ->)].
  - destruct Hpre as [Hid Hfit]. eapply returns_mono.
    { apply (delete_storage_ok env cfg v s (server_states s)); [done..|]. intros p d _. apply Hfit. }
    intros r s' (Hok' & -> & Hm'). split; [by exists v|]. rewrite (server_states_eq v s' _ Hok' Hm'). by destruct (delete_server _ _).
  - destruct Hpre as (Ho & Hn & Hne). eapply returns_mono; [by apply (storage_ip_changed_ok env cfg Hids v s (server_states s))|].
    intros r s' (v' & m' & Hok' & Hm' & Hs & _). split; [by exists v'|]. by rewrite (server_states_eq v' s' m').
  - destruct Hpre as (Ho & Hu & Hl). eapply returns_mono; [by apply (sync_storages_ok env cfg Hids v s (server_states s))|].
    intros r s' (-> & v' & Hok' & Hm' & _). split; [by exists v'|]. split; [done|]. by rewrite (server_states_eq v' s' _ Hok' Hm').
  - apply (in_group v) in Hpre; [|done]. destruct (server_object Hok p Hpre) as [d Hd].
    eapply returns_mono; [by apply (active_store_server_ok env cfg v s (server_states s) p d)|].
    intros r s' (-> & v' & Hok' & Hm' & _). split; [by exists v'|]. split; [done|]. exists d. split; [done|].
    by rewrite (server_states_eq v' s' _ Hok' Hm').
  - apply (in_group v) in Hpre; [|done]. destruct (server_object Hok p Hpre) as [d Hd].
    eapply returns_mono; [by apply (offline_store_server_ok env cfg v s (server_states s) p d)|].
    intros r s' (-> & v' & Hok' & Hm' & _). split; [by exists v'|]. split; [done|]. exists d. split; [done|].
    by rewrite (server_states_eq v' s' _ Hok' Hm').
  - apply returns_bind. eapply returns_mono; [apply (get_writable_storage_ok cfg v); [done|]|].
    { intros E. rewrite (ok_active_count _ _ _ Hok), E in Hpre. done. }
    intros r s' (Hd & Hok' & _). apply returns_ret. split; [by exists v|].
    apply (server_states_eq v s'); [done|]. by rewrite Hd.
  - eapply returns_mono; [by apply (find_trunk_server_ok env v)|]. intros r s' (Hok' & [Hd _] & _). split; [by exists v|].
    apply (server_states_eq v s'); [done|]. by rewrite Hd.
  - apply returns_bind. eapply returns_mono; [by apply (set_trunk_server_ok env cfg v)|].
    intros r s' (Hok' & Hd & _). apply returns_ret. split; [by exists v|].
    apply (server_states_eq v s'); [done|]. by rewrite Hd.
  - destruct Hpre as ([info Hi] & Hdown & Hmax). apply returns_bind.
    eapply returns_mono; [by apply (get_storage_by_filename_ok cfg Hids v s cmd nb fn n info)|].
    intros r s' (Hd & Hok' & _). apply returns_ret. split; [by exists v|].
    apply (server_states_eq v s'); [done|]. by rewrite Hd.
  - apply returns_bind. eapply returns_mono; [by apply (check_servers_alive_ok env cfg v s (server_states s))|].
    intros _ s' (v' & Hok' & Hm' & _). apply returns_ret. split; [by exists v'|]. split; [done|].
    rewrite (active_list_ok v s Hok). by apply (server_states_eq v' s').
  - apply returns_bind. eapply returns_mono; [by apply (check_trunk_alive_ok env cfg v)|].
    intros _ s' (Hok' & Hd & _). apply returns_ret. split; [by exists v|].
    apply (server_states_eq v s'); [done|]. by rewrite Hd.
Qed.

(** ** Reachable states *)

Inductive reachable (env : nat → answer) : group_state → Prop :=
  | reachable_new s s' :
      grp s = zero_group → tracker_mem_init_group env s = Some (0, s') → reachable env s'
  | reachable_op s cfg o r s' :
      reachable env s → ids_ok cfg → op_pre env cfg s o → run_op env cfg o s = Some (r, s') → reachable env s'.

Lemma reachable_ok env s : reachable env s → ∃ v, group_ok v (grp s) (details s).
Proof.
  induction 1 as [s s' Hg E|s cfg o r s' Hr [v Hok] Hids Hpre E].
  - assert (H := init_group_ok env s ltac:(rewrite Hg; apply blank_zero)). unfold returns in H. rewrite E in H.
    destruct H as (_ & H & _). destruct (H eq_refl) as (spare & Hok & _). by eexists.
  - assert (H := run_op_ok env cfg v s o Hids Hok Hpre). unfold returns in H. rewrite E in H. apply H.
Qed.

(** C5: a group of storage servers implements the state machine [op_spec].
    In every state the operations reach from a new group, an operation its
    caller may call runs without undefined behaviour (no NULL or wild
    pointer, no access outside an array, whatever allocations fail), returns
    the result and changes the states of the servers as [op_spec] says, and
    leaves the active servers sorted by id and exactly those in the state
    ACTIVE. *)
Theorem tracker_group_refines env cfg s o :
  reachable env s → ids_ok cfg → op_pre env cfg s o →
  ∃ r s', run_op env cfg o s = Some (r, s') ∧ op_spec env cfg s o r (server_states s') ∧ serves_active s'.
Proof.
  intros [v Hok]%reachable_ok Hids Hpre.
  destruct (proj1 (returns_run _ _ _) (run_op_ok env cfg v s o Hids Hok Hpre)) as (r & s' & E & [v' Hok'] & Hs).
  exists r, s'. split; [done|]. split; [done|]. by apply (group_serves_active v').
Qed.

(** ** A sample group *)

Definition sample_env : nat → answer := λ _, {| a_malloc := true; a_result := 0; a_size := 0 |}.

Definition sample_config (policy : Z) : tracker_config :=
  {| g_use_storage_id := false; g_storage_ids_by_ip := []; g_storage_ids_by_id := []; g_if_leader_self := false;
     g_if_use_trunk_file := false; g_trunk_init_check_occupying := false; g_trunk_init_reload_from_binlog := false;
     store_server := policy; download_server := 0; g_check_active_interval := 100;
     g_storage_sync_file_max_delay := 86400; g_storage_sync_file_max_time := 300; g_current_time := 1700000000 |}.

Definition sample_cfg : tracker_config := sample_config FDFS_STORE_SERVER_FIRST_BY_PRI.

Definition sample_start : group_state :=
  {| grp := zero_group; details := ∅;
     glob := {| g_trunk_server_chg_count := 0; changelog := []; g_changelog_fsize := 0; ticks := 0 |} |}.

Definition ip_a : list Z := bytes "10.0.0.2"%string.
Definition ip_b : list Z := bytes "10.0.0.1".

(** The states after [o], or [s] where [o] fails. *)
Definition after {A} (s : group_state) (o : prog group_state A) : group_state :=
  match o s with Some (_, s') => s' | None => s end.

Definition sample_new : group_state := Eval vm_compute in after sample_start (tracker_mem_init_group sample_env).
Definition sample_one : group_state := Eval vm_compute in after sample_new (run_op sample_env sample_cfg (OpAdd None ip_a)).
Definition sample_two : group_state := Eval vm_compute in after sample_one (run_op sample_env sample_cfg (OpAdd None ip_b)).
(** The first server comes online (it was found in the state RECOVERY). *)
Definition sample_report : list FDFSStorageBrief :=
  [{| b_status := FDFS_STORAGE_STATUS_RECOVERY; b_id := ip_a; b_ip_addr := ip_a |};
   {| b_status := FDFS_STORAGE_STATUS_OFFLINE; b_id := ip_b; b_ip_addr := ip_b |}].
Definition sample_sync : group_state := Eval vm_compute in
  after sample_two (run_op sample_env sample_cfg (OpSync sample_report)).
Definition sample_active : group_state := Eval vm_compute in
  after sample_sync (run_op sample_env sample_cfg (OpActive 1)).

Definition sample_both : group_state := Eval vm_compute in
  after sample_active (run_op sample_env sample_cfg (OpActive 2)).

Lemma sample_ids_ok : ids_ok sample_cfg.
Proof. constructor. Qed.

Lemma sample_not_oom : ¬ oom sample_env.
Proof. by intros [n H]. Qed.

Lemma sample_sync_reachable : reachable sample_env sample_sync.
Proof.
  eapply (reachable_op _ sample_two sample_cfg (OpSync sample_report) 0); [|apply sample_ids_ok|
    split; [apply sample_not_oom|split; [done|by repeat constructor]]|vm_compute; reflexivity].
  eapply (reachable_op _ sample_one sample_cfg (OpAdd None ip_b) 0); [|apply sample_ids_ok|apply (bool_decide_unpack (length _ < _)%nat); reflexivity|vm_compute; reflexivity].
  eapply (reachable_op _ sample_new sample_cfg (OpAdd None ip_a) 0); [|apply sample_ids_ok|apply (bool_decide_unpack (length _ < _)%nat); reflexivity|vm_compute; reflexivity].
  apply (reachable_new _ sample_start); [done|vm_compute; reflexivity].
Qed.

Lemma sample_both_reachable : reachable sample_env sample_both.
Proof.
  eapply (reachable_op _ sample_active sample_cfg (OpActive 2) 0);
    [|apply sample_ids_ok|exists 1%nat; split; [cbn; lia|reflexivity]|vm_compute; reflexivity].
  eapply (reachable_op _ sample_sync sample_cfg (OpActive 1) 0);
    [|apply sample_ids_ok|exists 0%nat; split; [cbn; lia|reflexivity]|vm_compute; reflexivity].
  apply sample_sync_reachable.
Qed.

(** A server that recovered becomes active. *)
Lemma tracker_group_refines_witness :
  ∃ r s', run_op sample_env sample_cfg (OpActive 1) sample_sync = Some (r, s') ∧
    op_spec sample_env sample_cfg sample_sync (OpActive 1) r (server_states s') ∧ serves_active s'.
Proof.
  apply tracker_group_refines; [apply sample_sync_reachable|apply sample_ids_ok|].
  exists 0%nat. split; [cbn; lia|reflexivity].
Defined.

(** ** The store server by priority *)








(** ** Round robin *)

(** The servers [n] calls in a row choose. *)
Fixpoint writable_storages (cfg : tracker_config) (n : nat) : prog group_state (list (option positive)) :=
  match n with
  | O => mret []
  | S n => p ← tracker_get_writable_storage cfg; l ← writable_storages cfg n; mret (p :: l)
  end.

Lemma writable_step cfg g ds gl (l : list positive) rest c :
  store_server cfg = FDFS_STORE_SERVER_ROUND_ROBIN → active_servers g = (Some <$> l) ++ rest →
  active_count g = length l → (c < length l)%nat →
  tracker_get_writable_storage cfg {| grp := g <| current_write_server := c |>; details := ds; glob := gl |} =
  p ← l !! c; Some (Some p,
    {| grp := g <| current_write_server := if decide (S c = length l) then 0%nat else S c |>; details := ds; glob := gl |}).
Proof.
  intros Hrr Ha Hc Hlt. unfold tracker_get_writable_storage.
  unfold get_grp, upd_grp. rewrite Hrr, Z.eqb_refl. cbv beta iota delta [mbind prog_bind get modify mret prog_ret]. cbn. rewrite Hc, Ha.
  rewrite decide_False by lia. destruct (lookup_lt_is_Some_2 l c Hlt) as [p Hp].
  unfold deref. rewrite lookup_app_l, list_lookup_fmap, Hp by (by rewrite length_fmap). cbn.
  do 2 f_equal. cbv beta delta [update]. cbn. rewrite Hc.
  by destruct (decide (S c = length l)); [rewrite decide_True by lia|rewrite decide_False by lia].
Qed.

Lemma writable_storages_from cfg g ds gl (l : list positive) rest n c :
  store_server cfg = FDFS_STORE_SERVER_ROUND_ROBIN → active_servers g = (Some <$> l) ++ rest →
  active_count g = length l → (c + n ≤ length l)%nat → (c < length l)%nat →
  writable_storages cfg n {| grp := g <| current_write_server := c |>; details := ds; glob := gl |} =
  Some (Some <$> take n (drop c l),
    {| grp := g <| current_write_server := if decide (c + n = length l)%nat then 0%nat else (c + n)%nat |>;
       details := ds; glob := gl |}).
Proof.
  intros Hrr Ha Hc. revert c. induction n as [|n IH]; intros c Hn Hlt; cbn [writable_storages].
  { rewrite decide_False, take_0, Nat.add_0_r by lia. done. }
  destruct (lookup_lt_is_Some_2 l c Hlt) as [p Hp].
  unfold mbind at 1, prog_bind at 1. rewrite (writable_step cfg g ds gl l rest c) by done. rewrite Hp. cbn [mbind option_bind].
  rewrite (drop_S l p c Hp). cbn [take fmap list_fmap].
  destruct (decide (S c = length l)) as [He|He].
  - assert (n = 0)%nat as -> by lia. cbn. rewrite decide_True by lia. done.
  - cbv beta iota. unfold mbind, prog_bind. rewrite IH by lia. rewrite <- Nat.add_succ_comm. done.
Qed.

Lemma writable_storages_app cfg a b s x s1 y s2 :
  writable_storages cfg a s = Some (x, s1) → writable_storages cfg b s1 = Some (y, s2) →
  writable_storages cfg (a + b) s = Some (x ++ y, s2).
Proof.
  revert s x. induction a as [|a IH]; intros s x Ha Hb; cbn [writable_storages Nat.add] in *.
  { unfold mret, prog_ret in Ha. injection Ha as <- <-. done. }
  apply prog_bind_Some in Ha as (p & s' & Hp & Ha). apply prog_bind_Some in Ha as (l & s'' & Hl & Ha).
  injection Ha as <- <-. rewrite (bind_run _ _ _ _ _ Hp). by rewrite (bind_run _ _ _ _ _ (IH s' l Hl Hb)).
Qed.

(** An index past the active servers, left when servers stopped being active,
    gives the first server. *)
Lemma writable_step_past cfg g ds gl (l : list positive) rest c p :
  store_server cfg = FDFS_STORE_SERVER_ROUND_ROBIN → active_servers g = (Some <$> l) ++ rest →
  active_count g = length l → (length l ≤ c)%nat → head l = Some p →
  tracker_get_writable_storage cfg {| grp := g <| current_write_server := c |>; details := ds; glob := gl |} =
  Some (Some p, {| grp := g <| current_write_server := 0%nat |>; details := ds; glob := gl |}).
Proof.
  intros Hrr Ha Hc Hle Hp. unfold tracker_get_writable_storage.
  unfold get_grp, upd_grp. rewrite Hrr, Z.eqb_refl. cbv beta iota delta [mbind prog_bind get modify mret prog_ret]. cbn. rewrite Hc, Ha.
  rewrite decide_True by lia. destruct l as [|a l]; [done|]. injection Hp as ->. cbn.
  do 2 f_equal. cbv beta delta [update]. cbn. rewrite Hc. cbn in Hle. by rewrite decide_True by (cbn; lia).
Qed.

(** One round, from the place in turn. *)
Lemma writable_storages_round cfg g ds gl (l : list positive) rest c :
  store_server cfg = FDFS_STORE_SERVER_ROUND_ROBIN → active_servers g = (Some <$> l) ++ rest →
  active_count g = length l → (c < length l)%nat →
  writable_storages cfg (length l) {| grp := g <| current_write_server := c |>; details := ds; glob := gl |} =
    Some (Some <$> (drop c l ++ take c l), {| grp := g <| current_write_server := c |>; details := ds; glob := gl |}).
Proof.
  intros Hrr Ha Hc Hlt. replace (length l) with ((length l - c) + c)%nat by lia. rewrite fmap_app. eapply writable_storages_app.
  - rewrite (writable_storages_from cfg g ds gl l rest) by (done || lia). rewrite decide_True by lia.
    by rewrite take_ge by (rewrite length_drop; lia).
  - rewrite (writable_storages_from cfg g ds gl l rest) by (done || lia). by rewrite decide_False by lia.
Qed.

(** C10: with round robin the uploads go to the active servers in the order of
    their ids, each of them once in a round.  From an index in range a round
    of as many requests as there are active servers starts with the server
    in turn, goes on with the first one behind the last, and ends with the
    index where it was.  From an index out of range, which is left when
    servers stopped being active, one extra request goes to the first server,
    and the rounds start with it again. *)
Theorem writable_storage_round_robin env cfg s :
  reachable env s → store_server cfg = FDFS_STORE_SERVER_ROUND_ROBIN → active_count (grp s) ≠ 0%nat →
  ∃ l ids, entries (active_servers (grp s)) (active_count (grp s)) = Some l ∧
    mapM (id_of (details s)) l = Some ids ∧ StronglySorted (λ a b, strcmp a b < 0) ids ∧ NoDup l ∧
    (∀ id, id ∈ ids ↔ server_states s !! id = Some FDFS_STORAGE_STATUS_ACTIVE) ∧
    let c := current_write_server (grp s) in
    let n := active_count (grp s) in
    if decide (c < n)%nat then
      writable_storages cfg n s = Some (Some <$> (drop c l ++ take c l), s)
    else
      writable_storages cfg (S n) s =
        Some (head l :: (Some <$> l), s <| grp ::= λ g, g <| current_write_server := 0%nat |> |>).
Proof.
  intros [v Hok]%reachable_ok Hrr Hne. destruct (group_serves_active v s Hok) as (l & ids & Hl & Hids & Hs & Hin).
  exists l, ids. destruct (ok_active _ _ _ Hok) as [rest Ha]. assert (Hc := ok_active_count _ _ _ Hok).
  assert (l = v_active v) as -> by (rewrite Ha, Hc, entries_spec in Hl; congruence).
  do 3 (split; [done|]). split.
  { assert (Hnd := ok_nodup _ _ _ Hok). apply NoDup_app in Hnd as (Hnd & _). apply (mapM_sorted_nodup _ _ ids Hids Hs). }
  split; [done|]. destruct s as [g ds gl]. cbn in *. rewrite Hc. set (l := v_active v) in *.
  assert (Hg : g = g <| current_write_server := current_write_server g |>) by by destruct g.
  destruct (decide _) as [Hlt|Hge].
  - rewrite Hg at 1. rewrite (writable_storages_round cfg g ds gl l rest) by done. by rewrite <- Hg.
  - cbn [writable_storages]. destruct l as [|p l'] eqn:El; [by rewrite Hc in Hne|]. rewrite <- El in *.
    rewrite Hg at 1.
    rewrite (bind_run _ _ _ _ _ (writable_step_past cfg g ds gl l rest (current_write_server g) p Hrr Ha Hc ltac:(lia) ltac:(by rewrite El))).
    rewrite (bind_run _ _ _ _ _ (writable_storages_round cfg g ds gl l rest 0 Hrr Ha Hc ltac:(rewrite El; cbn; lia))).
    cbn [drop take]. by rewrite app_nil_r, El.
Qed.

Lemma writable_storage_round_robin_witness :
  ∃ l ids, entries (active_servers (grp sample_both)) 2 = Some l ∧
    mapM (id_of (details sample_both)) l = Some ids ∧ StronglySorted (λ a b, strcmp a b < 0) ids ∧ NoDup l ∧
    (∀ id, id ∈ ids ↔ server_states sample_both !! id = Some FDFS_STORAGE_STATUS_ACTIVE) ∧
    let c := current_write_server (grp sample_both) in
    if decide (c < 2)%nat then
      writable_storages (sample_config FDFS_STORE_SERVER_ROUND_ROBIN) 2 sample_both =
        Some (Some <$> (drop c l ++ take c l), sample_both)
    else
      writable_storages (sample_config FDFS_STORE_SERVER_ROUND_ROBIN) 3 sample_both =
        Some (head l :: (Some <$> l), sample_both <| grp ::= λ g, g <| current_write_server := 0%nat |> |>).
Proof.
  apply (writable_storage_round_robin sample_env (sample_config FDFS_STORE_SERVER_ROUND_ROBIN) sample_both);
    [apply sample_both_reachable|reflexivity|done].
Defined.
