(* ===== verification/TrackerDownload.v ===== *)
(** * Downloads: the tracker and the names the storage servers give

    The name of a file carries the server that created it
    (storage/storage_service.c, [storage_gen_filename]); the tracker reads
    it back and chooses the servers to download from
    (tracker/tracker_mem.c, [tracker_mem_get_storage_by_filename]).  The
    properties of the queries, over the reachable states of a group. *)

From stdpp Require Import strings.
From S2P Require Import Prelude CLib SharedFunc Base64 TrunkShared StorePath.
From S2P Require Import SortedArray TrackerMem TrackerMemInv TrackerMemOps TrackerQuery TrackerMemSpec.
#[local] Open Scope Z_scope.

(** ** Reading a generated name *)

Lemma land_pow2 n k : 0 ≤ k → Z.land n (2 ^ k) = 0 ↔ Z.testbit n k = false.
Proof.
  intros Hk. split; intros H.
  - assert (E : Z.testbit (Z.land n (2 ^ k)) k = false) by (rewrite H; apply Z.bits_0).
    rewrite Z.land_spec, Z.pow2_bits_true, andb_true_r in E by done. done.
  - apply Z.bits_inj'. intros i Hi. rewrite Z.land_spec, Z.pow2_bits_eqb, Z.bits_0 by done.
    destruct (Z.eqb_spec k i) as [<-|]; [by rewrite H|apply andb_false_r].
Qed.

Lemma s32_bit n i : 0 ≤ i < 32 → Z.testbit (s32 n) i = Z.testbit n i.
Proof.
  intros Hi. destruct (s32_cong n) as [q ->].
  rewrite <- (Z.mod_pow2_bits_low (n + _) 32 i), <- (Z.mod_pow2_bits_low n 32 i) by lia. by rewrite Z.mod_add.
Qed.

Lemma small_bit n k : 0 ≤ k → 0 ≤ n < 2 ^ k → Z.testbit n k = false.
Proof. intros Hk Hn. rewrite <- (Z.mod_small n (2 ^ k)) by done. apply Z.mod_pow2_bits_high. lia. Qed.

Lemma combine_size_bit rand fs : 0 ≤ fs < 2 ^ 32 → Z.testbit (COMBINE_RAND_FILE_SIZE rand fs) 58 = false.
Proof.
  intros Hfs. unfold COMBINE_RAND_FILE_SIZE. set (r := s32 _).
  assert (Hr : is_int32 r) by apply s32_range.
  rewrite s64_id by (unfold is_int64, is_int32 in *; rewrite Z.shiftl_mul_pow2 by lia; lia).
  rewrite Z.lor_spec, Z.shiftl_spec, (small_bit fs 58) by lia. rewrite orb_false_r. unfold r.
  rewrite s32_bit, Z.lor_spec, Z.land_spec by lia. by rewrite andb_false_r.
Qed.

(** The size in a name of a file below 256 PB marks no appender file. *)
Definition masked_size (rand file_size : Z) : Z :=
  if c_true (Z.shiftr file_size 32) then file_size else COMBINE_RAND_FILE_SIZE rand file_size.

Lemma masked_size_ok rand fs :
  0 ≤ fs < 2 ^ 58 → is_int64 (masked_size rand fs) ∧ IS_APPENDER_FILE (masked_size rand fs) = false.
Proof.
  intros Hfs. assert (H : is_int64 (masked_size rand fs) ∧ Z.testbit (masked_size rand fs) 58 = false).
  { unfold masked_size, c_true. destruct (Z.eqb_spec (Z.shiftr fs 32) 0) as [E|E]; cbn [negb].
    - assert (Hs : 0 ≤ fs < 2 ^ 32) by (rewrite Z.shiftr_div_pow2 in E by lia; apply Z.div_small_iff in E; lia).
      split; [|by apply combine_size_bit].
      apply is_int64_lor; [apply s64_range|unfold is_int64; lia].
    - split; [unfold is_int64; lia|]. apply small_bit; lia. }
  destruct H as [H1 H2%land_pow2]; [|lia]. split; [done|].
  unfold IS_APPENDER_FILE. change FDFS_APPENDER_FILE_SIZE with (2 ^ 58). by rewrite H2.
Qed.

(** The id comes back from the byte order of the network. *)
Lemma int_bytes_le_s32 n : int_bytes_le (s32 n) = int_bytes_le n.
Proof.
  destruct (s32_cong n) as [q ->]. unfold int_bytes_le.
  replace (n + q * 2 ^ 32) with (n + (q * 2 ^ 24) * 2 ^ 8) at 2 by lia.
  replace (n + q * 2 ^ 32) with (n + (q * 2 ^ 16) * 2 ^ 16) at 2 by lia.
  replace (n + q * 2 ^ 32) with (n + (q * 2 ^ 8) * 2 ^ 24) at 2 by lia.
  rewrite !Z.div_add by lia.
  replace (q * 2 ^ 32) with ((q * 2 ^ 24) * 256) by lia.
  replace (q * 2 ^ 24) with ((q * 2 ^ 16) * 256) by lia.
  replace (q * 2 ^ 16) with ((q * 2 ^ 8) * 256) by lia.
  replace (q * 2 ^ 8) with (q * 256) by lia.
  by rewrite !Z_mod_plus_full.
Qed.

Lemma int_bytes_le_be b0 b1 b2 b3 :
  is_byte b0 → is_byte b1 → is_byte b2 → is_byte b3 →
  int_bytes_le (be_value [b0; b1; b2; b3]) = [b3; b2; b1; b0].
Proof. unfold is_byte, be_value, int_bytes_le. cbn [fold_left]. intros. cons_eq dlia. Qed.

Lemma be_value_le n : be_value (rev (int_bytes_le n)) = u32 n.
Proof. unfold be_value, int_bytes_le, u32. cbn [fold_left rev app]. dlia. Qed.

Lemma ntohl_htonl n : is_int32 n → ntohl (htonl n) = n.
Proof.
  intros Hn. unfold ntohl, htonl. rewrite int_bytes_le_s32. pose proof (int_bytes_le_byte n) as Hb.
  pose proof (be_value_le n) as Hv. unfold int_bytes_le at 2.
  unfold int_bytes_le in Hb, Hv. repeat (apply Forall_cons in Hb as [? Hb]).
  rewrite int_bytes_le_be by done. cbn [rev app] in Hv. rewrite Hv, s32_u32. by apply s32_id.
Qed.

Lemma logic_name_read index high low encoded ext :
  0 ≤ index < 256 → 0 ≤ high < 256 → 0 ≤ low < 256 → length encoded = 27%nat →
  let name := logic_name index (sprintf_02X high ++ [CH_SLASH] ++ sprintf_02X low ++ [CH_SLASH] ++ encoded ++ ext) in
  read_at name FDFS_LOGIC_FILE_PATH_LEN FDFS_FILENAME_BASE64_LENGTH = Some encoded ∧
  Z.of_nat (length name) = 37 + Z.of_nat (length ext).
Proof.
  intros Hi Hh Hl He name. unfold name, logic_name.
  set (dirs := sprintf_02X high ++ [CH_SLASH] ++ sprintf_02X low ++ [CH_SLASH]).
  replace (FDFS_STORAGE_STORE_PATH_PREFIX_CHAR :: _) with
    ((FDFS_STORAGE_STORE_PATH_PREFIX_CHAR :: sprintf_02X index ++ [CH_SLASH] ++ dirs) ++ encoded ++ ext)
    by (unfold dirs; cbn [app]; repeat (rewrite <- ?app_assoc; cbn [app]); done).
  assert (Hd : length dirs = 6%nat) by by apply sub_dirs_length. split.
  - apply read_at_app; [|by rewrite He]. cbn [length]. rewrite !length_app, sprintf_02X_length, Hd by done. done.
  - rewrite !length_app. cbn [length]. rewrite !length_app, sprintf_02X_length, Hd, He by done. cbn [length]. lia.
Qed.

(** The sub path given is a pair of bytes. *)
Definition sub_path_ok (sub : option (Z * Z)) : Prop :=
  match sub with Some (h, l) => 0 ≤ h < 256 ∧ 0 ≤ l < 256 | None => True end.

(** What [storage_gen_filename] returns. *)
Lemma storage_gen_filename_parts scfg rand fs crc ext len t sub d filename hl d' :
  sub_path_ok sub → storage_gen_filename scfg rand fs crc ext len t sub d = Some ((filename, hl), d') →
  ∃ high low encoded e, 0 ≤ high < 256 ∧ 0 ≤ low < 256 ∧
    base64_encode_ex g_fdfs_base64_context (name_bytes scfg t (masked_size rand fs) crc) false = Some encoded ∧
    read_at ext 0 len = Some e ∧
    filename = sprintf_02X high ++ [CH_SLASH] ++ sprintf_02X low ++ [CH_SLASH] ++ encoded ++ e.
Proof.
  intros Hsub E. unfold storage_gen_filename in E. fold (masked_size rand fs) in E. cbv zeta in E.
  apply prog_bind_Some in E as (encoded & d1 & E1 & E). apply deref_Some in E1 as [E1 ->].
  apply prog_bind_Some in E as ([high low] & d2 & E2 & E).
  apply prog_bind_Some in E as (e & d3 & E3 & E). apply deref_Some in E3 as [E3 ->]. injection E as <- _ _.
  exists high, low, encoded, e. assert (Hhl : 0 ≤ high < 256 ∧ 0 ≤ low < 256).
  { destruct sub as [[h l]|].
    - injection E2 as <- <- _. apply Hsub.
    - apply prog_bind_Some in E2 as ([h l] & d4 & _ & E2). injection E2 as <- <- _.
      unfold u8. split; apply Z.mod_pos_bound; done. }
  split; [apply Hhl|]. split; [apply Hhl|]. done.
Qed.

(** The tracker reads from the name of a file which server created it and
    when. *)
Definition generated_info (scfg : store_config) (t filename_len size : Z) : name_info :=
  {| storage_ip := g_server_id_in_filename scfg;
     n_storage_id := if fdfs_get_server_id_type (g_server_id_in_filename scfg) =? FDFS_ID_TYPE_SERVER_ID
                     then sprintf_d (g_server_id_in_filename scfg) else [];
     file_timestamp := t;
     bNormalFile := negb (IS_SLAVE_FILE filename_len size) |}.

Lemma generated_name_decodes scfg rand fs crc ext len t sub d filename hl d' index name_buff :
  storage_gen_filename scfg rand fs crc ext len t sub d = Some ((filename, hl), d') →
  0 ≤ fs < 2 ^ 58 → is_int32 t → is_int32 crc → is_int32 (g_server_id_in_filename scfg) →
  0 ≤ index < 256 → sub_path_ok sub → 2 ≤ len →
  let name := logic_name index filename in
  let n := Z.of_nat (length name) in
  n = 37 + len ∧
  decode_filename name_buff name n = Some (generated_info scfg t n (masked_size rand fs)).
Proof.
  intros E Hfs Ht Hc Hid Hi Hsub Hlen.
  destruct (storage_gen_filename_parts _ _ _ _ _ _ _ _ _ _ _ _ Hsub E) as (h & l & enc & e & Hh & Hl & Henc & He & ->).
  destruct (masked_size_ok rand fs Hfs) as [Hs Happ].
  destruct (name_base64 (name_bytes scfg t (masked_size rand fs) crc)) as (str & Estr & Hlstr & x & Hdec);
    [apply name_bytes_ok|]. rewrite Henc in Estr. injection Estr as <-.
  assert (Hel : Z.of_nat (length e) = len).
  { unfold read_at in He. destruct (_ || _) eqn:E0; [done|]. injection He as <-.
    rewrite length_take, length_drop. cbn. lia. }
  assert (Hen : length enc = 27%nat).
  { assert (H20 : length (name_bytes scfg t (masked_size rand fs) crc) = 20%nat) by reflexivity.
    rewrite H20 in Hlstr. change ((4 * Z.of_nat 20 + 2) / 3) with 27 in Hlstr. lia. }
  intros name n. destruct (logic_name_read index h l enc e Hi Hh Hl Hen) as [Hr Hn].
  fold name in Hr, Hn. fold n in Hn. split; [lia|].
  unfold decode_filename. replace (n <? _) with false by (unfold FDFS_FILE_EXT_NAME_MAX_LEN; lia).
  rewrite Hr. cbn [mbind option_bind]. change g_base64_context with g_fdfs_base64_context. rewrite Hdec. cbn [mbind option_bind].
  unfold TrunkShared.store_at. rewrite <- app_assoc.
  match goal with |- context [name_bytes scfg t (masked_size rand fs) crc ++ ?y] =>
    destruct (name_bytes_fields scfg t (masked_size rand fs) crc y Ht Hs Hc) as (Hf1 & Hf2 & _) end.
  rewrite Hf1, Hf2. unfold name_bytes at 1. rewrite <- app_assoc.
  rewrite buff2int_int2buff by apply s32_range. cbn [mbind option_bind].
  rewrite ntohl_htonl by done. rewrite Happ, orb_false_r. done.
Qed.

(** ** The queries on a reachable group *)




(** The query for all servers of a file answers with active servers,
    none twice and at least one.  For a normal file they are all active
    servers that by their times have got it, and besides these only servers
    at the address in the name; for another file the server that created
    it.  Only when there is none, the server that takes the uploads is
    given. *)
Theorem download_all_holders env cfg s name_buff filename n info :
  reachable env s → ids_ok cfg → download_ok cfg → decode_filename name_buff filename n = Some info →
  active_count (grp s) ≠ 0%nat → (active_count (grp s) ≤ FDFS_MAX_SERVERS_EACH_GROUP)%nat →
  ∃ servers s', tracker_mem_get_storage_by_filename cfg TRACKER_PROTO_CMD_SERVICE_QUERY_FETCH_ALL name_buff filename n s
                  = Some ((0, servers), s') ∧
    details s' = details s ∧ servers ≠ [] ∧ NoDup servers ∧ servers ⊆ active_list s ∧
    (bNormalFile info = true →
      (∀ p d, p ∈ active_list s → details s !! p = Some d → has_synced cfg info d = true → p ∈ servers) ∧
      ((∀ p d, p ∈ servers → details s !! p = Some d →
          has_synced cfg info d = true ∨ ip_addr d = source_address info) ∨
       ∃ store, pStoreServer (grp s) = Some store ∧ servers = [store])) ∧
    (bNormalFile info = false → ∃ p d, servers = [p] ∧ details s !! p = Some d ∧
      (source_id cfg (group_name (grp s)) (n_storage_id info) (source_address info) (storage_id d) ∨
       pStoreServer (grp s) = Some p)).
Proof.
  intros [v Hok]%reachable_ok Hids Hdown Hdec Hn Hmax.
  assert (H := get_storage_by_filename_ok cfg Hids v s TRACKER_PROTO_CMD_SERVICE_QUERY_FETCH_ALL name_buff filename n info
    Hok Hdec Hdown ltac:(done)).
  apply returns_run in H as ([r servers] & s' & E & Hd & _ & H). rewrite decide_False in H by done.
  destruct H as [Hr (store & Hst & l & Hl & H)]. cbn in Hr, Hl. subst r.
  assert (Hstore : store ∈ v_active v) by (assert (Hs := ok_store _ _ _ Hok); by rewrite Hst in Hs).
  assert (Hnd := sorted_by_NoDup _ _ (ok_active_order _ _ _ Hok)).
  exists servers, s'. rewrite (active_list_ok v s Hok). split; [done|]. split; [done|].
  assert (Hsub : l ⊆ v_active v ∧ NoDup l).
  { destruct (bNormalFile info); [subst l; split; [intros p [_ Hp]%list_elem_of_filter; done|by apply NoDup_filter]|].
    destruct H as (o & -> & Ho). destruct o as [p|]; cbn in *; [|split; [set_solver|constructor]].
    split; [set_solver|apply NoDup_singleton]. }
  destruct (server_object Hok store (active_all Hok store Hstore)) as [ds Hds].
  destruct l as [|p0 l0] eqn:El.
  - subst servers. split; [done|]. split; [apply NoDup_singleton|]. split; [set_solver|]. split.
    * intros Hb. rewrite Hb in H. split; [|right; by exists store]. intros p d Hp Hpd Hs. exfalso.
    assert (p ∈ filter (λ p, kept cfg s info (source_address info) p) (v_active v)) as Hin.
    { apply list_elem_of_filter. split; [|done]. unfold kept. by rewrite Hpd, Hs. }
    rewrite <- H in Hin. set_solver.
    * intros _. exists store, ds. tauto.
  - subst servers. split; [done|]. split; [apply Hsub|]. split; [apply Hsub|]. split.
    { intros Hb. rewrite Hb in H. rewrite H. split.
    + intros p d Hp Hpd Hs. apply list_elem_of_filter. split; [|done]. unfold kept. by rewrite Hpd, Hs.
    + left. intros p d [Hk _]%list_elem_of_filter Hpd. unfold kept in Hk. rewrite Hpd in Hk.
      apply Is_true_true, orb_true_iff in Hk as [?|?%Z.eqb_eq%strcmp_eq]; tauto. }
    intros Hb. rewrite Hb in H. destruct H as ([p|] & Ho & Hf); [|done]. cbn in Ho. injection Ho as -> ->.
    destruct Hf as (Hp & id & Hs & Hid). destruct (server_object Hok p (active_all Hok p Hp)) as [d Hpd].
    exists p, d. split; [done|]. split; [done|]. left. unfold id_of in Hid. rewrite Hpd in Hid. by injection Hid as ->.
Qed.

(** C30: a file is downloaded from the storage server that created it as
    long as that server is active and the source is preferred.  The name
    that [storage_gen_filename] gives the file, under the path "Mxx/" of a
    store path, leads the tracker to the server whose id, or whose address,
    is that server's [g_server_id_in_filename]. *)
Theorem created_file_from_creator env cfg s scfg rand fs crc ext len t sub d filename hl d' index name_buff p dp :
  reachable env s → ids_ok cfg → download_server cfg = FDFS_DOWNLOAD_SERVER_SOURCE_FIRST →
  storage_gen_filename scfg rand fs crc ext len t sub d = Some ((filename, hl), d') →
  0 ≤ fs < 2 ^ 58 → is_int32 t → is_int32 crc → is_int32 (g_server_id_in_filename scfg) →
  0 ≤ index < 256 → sub_path_ok sub → 2 ≤ len →
  p ∈ active_list s → details s !! p = Some dp →
  (if fdfs_get_server_id_type (g_server_id_in_filename scfg) =? FDFS_ID_TYPE_SERVER_ID
   then storage_id dp = sprintf_d (g_server_id_in_filename scfg)
   else names_id cfg (group_name (grp s)) None (inet_ntop (g_server_id_in_filename scfg)) (storage_id dp)) →
  tracker_mem_get_storage_by_filename cfg TRACKER_PROTO_CMD_SERVICE_QUERY_FETCH_ONE name_buff
    (logic_name index filename) (37 + len) s = Some ((0, [p]), s).
Proof.
  intros [v Hok]%reachable_ok Hids Hdown E Hfs Ht Hc Hsid Hi Hsub Hlen Hp Hdp Hcr.
  destruct (generated_name_decodes scfg rand fs crc ext len t sub d filename hl d' index name_buff E Hfs Ht Hc Hsid Hi Hsub Hlen)
    as [Hn Hdec]. cbv zeta in Hn, Hdec. rewrite Hn in Hdec. set (info := generated_info _ _ _ _) in Hdec.
  rewrite (active_list_ok v s Hok) in Hp. assert (Hid := decode_filename_id _ _ _ _ Hdec).
  assert (Hsrc : source_of cfg info (group_name (grp s)) (storage_id dp)).
  { unfold source_of, source_id, info, generated_info. cbn [n_storage_id storage_ip].
    destruct (_ =? FDFS_ID_TYPE_SERVER_ID); [|done]. rewrite Hcr.
    destruct (sprintf_d (g_server_id_in_filename scfg)) eqn:Es; [|done]. exfalso. by apply (sprintf_d_nonempty (g_server_id_in_filename scfg)). }
  assert (Hrun : returns (tracker_mem_get_storage_by_filename cfg TRACKER_PROTO_CMD_SERVICE_QUERY_FETCH_ONE name_buff
    (logic_name index filename) (37 + len)) s (λ r s', r = (0, [p]) ∧ s' = s)).
  { unfold tracker_mem_get_storage_by_filename. step. rewrite decide_False.
    2: { rewrite (ok_active_count _ _ _ Hok). by destruct (v_active v); [set_solver|]. }
    assert (Hst := ok_store _ _ _ Hok). destruct (pStoreServer (grp s)) as [store|]; [|rewrite Hst in Hp; set_solver].
    apply returns_bind, (returns_deref _ _ info); [done|]. apply returns_bind. rewrite Z.eqb_refl.
    unfold query_fetch_one. apply returns_bind. rewrite Hdown, Z.eqb_refl.
    eapply returns_mono; [by apply (get_source_server_ok cfg Hids info v)|]. intros [q|] s' [-> Hq].
    - assert (q = p) as ->; [|by repeat apply returns_ret].
      destruct Hq as (Hq & id & Hs & Hqid). apply (id_of_inj Hok q p id); [by apply (active_all Hok)..|done|].
      unfold id_of. rewrite Hdp. cbn. f_equal. symmetry. by apply (source_of_fun cfg info (group_name (grp s))).
    - exfalso. apply (Hq p (storage_id dp)); [done..|]. unfold id_of. by rewrite Hdp. }
  by apply returns_run in Hrun as (r & s' & Er & -> & ->).
Qed.

(** ** A sample file *)

(** The storage server at 10.0.0.2, without a table of ids, names a file of
    1000 bytes. *)
Definition sample_store : store_config :=
  {| g_store_path_mode := 0; g_fdfs_store_paths := sample_paths; g_path_space_list := [];
     g_avg_storage_reserved_mb := 0; g_storage_reserved_space := FdfsShared.ReservedMb 0;
     g_file_distribute_path_mode := 0; g_file_distribute_rotate_count := 100; g_subdir_count_per_path := 256;
     g_server_id_in_filename := 10 + 2 * 2 ^ 24 |}.

Definition sample_time : Z := 1699999990.
Definition sample_gen : prog dist_state (list Z * (Z * Z)) :=
  storage_gen_filename sample_store 12345 1000 77 (bytes "012.jpg") 7 sample_time (Some (1, 2)).
Definition sample_filename : list Z := Eval vm_compute in
  match sample_gen sample_dist with Some ((f, _), _) => logic_name 0 f | None => [] end.

Definition sample_info : name_info := generated_info sample_store sample_time 44 (masked_size 12345 1000).

(** [download_server] is "source first". *)
Definition source_cfg : tracker_config :=
  {| g_use_storage_id := false; g_storage_ids_by_ip := []; g_storage_ids_by_id := []; g_if_leader_self := false;
     g_if_use_trunk_file := false; g_trunk_init_check_occupying := false; g_trunk_init_reload_from_binlog := false;
     store_server := FDFS_STORE_SERVER_ROUND_ROBIN; download_server := FDFS_DOWNLOAD_SERVER_SOURCE_FIRST;
     g_check_active_interval := 100; g_storage_sync_file_max_delay := 86400; g_storage_sync_file_max_time := 300;
     g_current_time := 1700000000 |}.

Lemma source_ids_ok : ids_ok source_cfg.
Proof. constructor. Qed.


Lemma download_all_holders_witness :
  ∃ servers s', tracker_mem_get_storage_by_filename sample_cfg TRACKER_PROTO_CMD_SERVICE_QUERY_FETCH_ALL (replicate 64 0)
                  sample_filename 44 sample_both = Some ((0, servers), s') ∧ servers ≠ [] ∧ servers ⊆ active_list sample_both.
Proof.
  destruct (download_all_holders sample_env sample_cfg sample_both (replicate 64 0) sample_filename 44 sample_info)
    as (servers & s' & E & _ & Hn & _ & Hs & _).
  - apply sample_both_reachable.
  - apply sample_ids_ok.
  - by left.
  - vm_compute. reflexivity.
  - vm_compute. discriminate.
  - apply Nat.leb_le. vm_compute. reflexivity.
  - exists servers, s'. split; [exact E|]. split; [exact Hn|exact Hs].
Defined.

Lemma created_file_from_creator_witness :
  ∃ filename hl d', sample_gen sample_dist = Some ((filename, hl), d') ∧
    tracker_mem_get_storage_by_filename source_cfg TRACKER_PROTO_CMD_SERVICE_QUERY_FETCH_ONE (replicate 64 0)
      (logic_name 0 filename) (37 + 7) sample_both = Some ((0, [1%positive]), sample_both).
Proof.
  destruct (sample_gen sample_dist) as [[[filename hl] d']|] eqn:E.
  - exists filename, hl, d'. split; [reflexivity|].
    assert (Hd : ∃ dp, details sample_both !! 1%positive = Some dp ∧ storage_id dp = ip_a)
      by (eexists; split; [vm_compute; reflexivity|reflexivity]).
    destruct Hd as (dp & Hd & Hid).
    apply (created_file_from_creator sample_env source_cfg sample_both sample_store 12345 1000 77 (bytes "012.jpg") 7
      sample_time (Some (1, 2)) sample_dist filename hl d' 0 (replicate 64 0) 1%positive dp).
    + apply sample_both_reachable.
    + apply source_ids_ok.
    + reflexivity.
    + exact E.
    + lia.
    + unfold sample_time, is_int32. lia.
    + unfold is_int32. lia.
    + unfold is_int32. cbn. lia.
    + lia.
    + cbn. lia.
    + lia.
    + vm_compute. right. left.
    + exact Hd.
    + rewrite Hid. vm_compute. reflexivity.
  - exfalso. revert E. vm_compute. discriminate.
Defined.
