(* ===== verification/TrackerGroups.v ===== *)
(** * tracker/tracker_mem.c: the groups of a tracker

    [g_groups] holds pointers to the groups twice: [groups] in the order in
    which they were added (with spare objects behind [count]) and
    [sorted_groups] in the order of their names.  The servers of a group
    are reached only through it, so a group is kept with the heap of its
    servers ([group_mem]), and an operation on one group is run inside the
    state of the tracker by [in_group]. *)

From S2P Require Import Prelude CLib FdfsShared SortedArray TrackerMem TrackerAlive.
#[local] Open Scope Z_scope.

(** ** Data (tracker/tracker_types.h) *)

Definition FDFS_GROUP_NAME_MAX_LEN : nat := 16.
(** [char group_name[FDFS_GROUP_NAME_MAX_LEN + 8]] *)
Definition FDFS_GROUP_NAME_SIZE : nat := 24.

Definition FDFS_STORE_LOOKUP_ROUND_ROBIN : Z := 0.
Definition FDFS_STORE_LOOKUP_SPEC_GROUP : Z := 1.
Definition FDFS_STORE_LOOKUP_LOAD_BALANCE : Z := 2.

Record group_mem := {
  m_group : FDFSGroupInfo;
  m_details : gmap positive FDFSStorageDetail;
}.

(** What changes in [FDFSGroups]; the settings among its fields are in
    [groups_config]. *)
Record FDFSGroups := {
  gs_alloc_size : nat;
  gs_count : nat;
  groups : list (option positive);
  sorted_groups : list (option positive);
  pStoreGroup : option positive;
  current_write_group : nat;
}.

Record groups_config := {
  t_config : tracker_config;
  store_lookup : Z;
  store_path : Z;
  store_group : list Z;
  reserved_space : FDFSStorageReservedSpace;     (* g_storage_reserved_space *)
}.

(** common/connection_pool.h; the socket is left out. *)
Record ConnectionInfo := {
  c_ip_addr : list Z;
  c_port : Z;
}.

(** [g_tracker_servers]: NULL or the trackers of the cluster;
    [g_last_tracker_servers]: an array that is still to be freed. *)
Record tracker_state := {
  g_groups : FDFSGroups;
  gmem : gmap positive group_mem;
  g_tracker_servers : option (list ConnectionInfo);
  g_last_tracker_servers : option (list ConnectionInfo);
  g_storage_stat_chg_count : Z;
  g_storage_sync_time_chg_count : Z;
  tglob : tracker_globals;
}.

#[export] Instance group_mem_eta : Eta group_mem := λ r, {| m_group := m_group r; m_details := m_details r |}.
#[export] Instance groups_eta : Eta FDFSGroups := λ r,
  {| gs_alloc_size := gs_alloc_size r; gs_count := gs_count r; groups := groups r; sorted_groups := sorted_groups r;
     pStoreGroup := pStoreGroup r; current_write_group := current_write_group r |}.
#[export] Instance tracker_state_eta : Eta tracker_state := λ r,
  {| g_groups := g_groups r; gmem := gmem r; g_tracker_servers := g_tracker_servers r;
     g_last_tracker_servers := g_last_tracker_servers r;
     g_storage_stat_chg_count := g_storage_stat_chg_count r;
     g_storage_sync_time_chg_count := g_storage_sync_time_chg_count r; tglob := tglob r |}.

(** ** Access *)

Definition get_groups : prog tracker_state FDFSGroups := s ← get; mret (g_groups s).
Definition upd_groups (f : FDFSGroups → FDFSGroups) : prog tracker_state unit := modify (λ s, s <| g_groups ::= f |>).

(** [*p] of a group. *)
Definition get_group (p : positive) : prog tracker_state FDFSGroupInfo :=
  s ← get; gm ← deref (gmem s !! p); mret (m_group gm).

(** An operation on the group [p] and its servers. *)
Definition in_group {A} (p : positive) (m : prog group_state A) : prog tracker_state A :=
  s ← get;
  gm ← deref (gmem s !! p);
  r ← deref (m {| grp := m_group gm; details := m_details gm; glob := tglob s |});
  modify (λ s, s <| gmem ::= <[p := {| m_group := grp r.2; m_details := details r.2 |}]> |> <| tglob := glob r.2 |>);;
  mret r.1.

(** An answer of the environment outside any group. *)
Definition ask_tracker (env : nat → answer) : prog tracker_state answer :=
  s ← get;
  modify (λ s, s <| tglob ::= λ g, g <| ticks ::= S |> |>);;
  mret (env (ticks (tglob s))).

(** The key of [sorted_groups]. *)
Definition name_of (gm : gmap positive group_mem) (p : positive) : option (list Z) :=
  (λ g, group_name (m_group g)) <$> gm !! p.

(** [for (ppGroup=arr; ppGroup<arr+count; ppGroup++)] *)
Definition groups_in (arr : list (option positive)) (count : nat) : prog tracker_state (list positive) :=
  deref (entries arr count).

Fixpoint for_groups (f : positive → prog tracker_state unit) (l : list positive) : prog tracker_state unit :=
  match l with
  | [] => mret tt
  | p :: l => f p;; for_groups f l
  end.

Section operations.
Context (env : nat → answer) (cfg : groups_config).

(** ** The table of groups *)

Definition new_group : group_mem := {| m_group := zero_group; m_details := ∅ |}.

Fixpoint malloc_groups (n : nat) : prog tracker_state (Z * list positive) :=
  match n with
  | O => mret (0, [])
  | S n =>
      a ← ask_tracker env;
      if c_true (malloc_result a) then mret (malloc_result a, [])
      else
        s ← get;
        let p := fresh (dom (gmem s)) in
        modify (λ s, s <| gmem ::= <[p := new_group]> |>);;
        r ← malloc_groups n;
        mret (r.1, p :: r.2)
  end.

(** [tracker_mem_free_groups] *)
Definition tracker_mem_free_groups (l : list positive) : prog tracker_state unit :=
  modify (λ s, s <| gmem ::= λ gm, foldr delete gm l |>).

(** [tracker_mem_init_groups], up to the reading of the state files. *)
Definition tracker_mem_init_groups : prog tracker_state Z :=
  let n := TRACKER_MEM_ALLOC_ONCE in
  upd_groups (λ gs, gs <| gs_alloc_size := n |> <| gs_count := 0%nat |> <| current_write_group := 0%nat |>
                       <| pStoreGroup := None |>);;
  a ← ask_tracker env;
  if c_true (malloc_result a) then upd_groups (λ gs, gs <| groups := [] |>);; mret (malloc_result a)
  else
    made ← malloc_groups n;
    if c_true made.1 then
      upd_groups (λ gs, gs <| groups := (Some <$> made.2) ++ replicate (n - length made.2) None |>);; mret made.1
    else
      upd_groups (λ gs, gs <| groups := Some <$> made.2 |>);;
      b ← ask_tracker env;
      if c_true (malloc_result b) then upd_groups (λ gs, gs <| groups := [] |>);; mret (malloc_result b)
      else
        upd_groups (λ gs, gs <| sorted_groups := replicate n None |>);;
        mret 0.

(** When the second array cannot be allocated, [new_groups] is freed with
    everything it points to, the groups in use included. *)
Definition tracker_mem_realloc_groups : prog tracker_state Z :=
  gs ← get_groups;
  let new_size := (gs_alloc_size gs + TRACKER_MEM_ALLOC_ONCE)%nat in
  a ← ask_tracker env;
  if c_true (malloc_result a) then mret (malloc_result a)
  else
    made ← malloc_groups (new_size - gs_count gs);
    if c_true made.1 then tracker_mem_free_groups made.2;; mret made.1
    else
      olds ← deref (memcpy_entries (groups gs) (gs_count gs) (gs_count gs));
      b ← ask_tracker env;
      if c_true (malloc_result b) then
        tracker_mem_free_groups (omap id olds ++ made.2);; mret (malloc_result b)
      else
        new_sorted_groups ← deref (memcpy_entries (sorted_groups gs) (gs_count gs) new_size);
        upd_groups (λ gs, gs <| gs_alloc_size := new_size |> <| groups := olds ++ (Some <$> made.2) |>
                             <| sorted_groups := new_sorted_groups |>);;
        mret 0.

Definition tracker_mem_get_group_ex (group_name : list Z) : prog tracker_state (option positive) :=
  target ← strcpy_to FDFS_GROUP_NAME_SIZE group_name;
  s ← get;
  r ← deref (find_entry (name_of (gmem s)) target (sorted_groups (g_groups s)) (gs_count (g_groups s)));
  match r with
  | None => mret None
  | Some i => p ← deref (mjoin (sorted_groups (g_groups s) !! i)); mret (Some p)
  end.

(** The result, [pClientInfo->pGroup] when it is set, [*bInserted]. *)
Definition tracker_mem_add_group_ex (group_name : list Z) : prog tracker_state (Z * option positive * bool) :=
  found ← tracker_mem_get_group_ex group_name;
  match found with
  | Some p => mret (0, Some p, false)
  | None =>
      gs ← get_groups;
      result ← (if decide (gs_alloc_size gs ≤ gs_count gs)%nat then tracker_mem_realloc_groups else mret 0);
      if c_true result then mret (result, None, false)
      else
        gs ← get_groups;
        p ← deref (mjoin (groups gs !! gs_count gs));
        result ← in_group p (tracker_mem_init_group env);
        if c_true result then mret (result, None, false)
        else
          name ← strcpy_to FDFS_GROUP_NAME_SIZE group_name;
          in_group p (upd_grp (λ g, g <| TrackerMem.group_name := name |>));;
          s ← get;
          sorted ← deref (insert_from (name_of (gmem s)) p name (gs_count gs) (sorted_groups gs));
          upd_groups (λ gs, gs <| sorted_groups := sorted |> <| gs_count ::= S |>
            <| pStoreGroup ::= λ o,
                 match o with
                 | None => if (store_lookup cfg =? FDFS_STORE_LOOKUP_SPEC_GROUP) && (strcmp (store_group cfg) name =? 0)
                           then Some p else None
                 | Some q => Some q
                 end |>);;
          mret (0, Some p, true)
  end.

(** ** All groups *)

Definition tracker_mem_find_trunk_servers : prog tracker_state unit :=
  if negb (g_if_leader_self (t_config cfg) && g_if_use_trunk_file (t_config cfg)) then mret tt
  else
    gs ← get_groups;
    l ← groups_in (groups gs) (gs_count gs);
    for_groups (λ p,
      g ← get_group p;
      match pTrunkServer g with
      | None => in_group p (tracker_mem_find_trunk_server env true);; mret tt
      | Some _ => mret tt
      end) l.

Definition tracker_mem_check_alive : prog tracker_state Z :=
  gs ← get_groups;
  l ← groups_in (groups gs) (gs_count gs);
  for_groups (λ p, in_group p (check_servers_alive (t_config cfg))) l;;
  if negb (g_if_leader_self (t_config cfg)) || negb (g_if_use_trunk_file (t_config cfg)) then mret 0
  else
    for_groups (λ p, in_group p (check_trunk_alive env (t_config cfg))) l;;
    mret 0.

End operations.
