(* ===== verification/TrackerKeeps.v ===== *)
(** * What the operations on a group leave alone

    [Keeps R m]: every run of [m] relates the states before and after by the
    preorder [R].  The relation passes through the constructs of a function
    body, so that for most operations it is found by the tactic [keeps];
    here for [settled]: the name of the group and its number of store paths
    stay, and its servers have an entry per store path if they had.  [ends]
    is the partial correctness that goes with it. *)

From S2P Require Import Prelude CLib SortedArray TrackerMem TrackerMemInv TrackerMemGrow TrackerQuery TrackerAlive TrackerMemSpec.
#[local] Open Scope Z_scope.

(** ** Partial correctness

    [ends m s Q]: if [m] has no undefined behaviour from [s], its result and
    final state satisfy [Q]. *)

Definition ends {S A} (m : prog S A) (s : S) (Q : A → S → Prop) : Prop :=
  match m s with Some (x, s') => Q x s' | None => True end.

Section ends.
Context {S A B : Type} (s : S).
Implicit Types (m : prog S A) (Q : A → S → Prop).

Lemma ends_mono m Q (R : A → S → Prop) : ends m s Q → (∀ x s', Q x s' → R x s') → ends m s R.
Proof. unfold ends. destruct (m s) as [[x s']|]; eauto. Qed.
Lemma ends_returns m Q : returns m s Q → ends m s Q.
Proof. unfold ends, returns. by destruct (m s) as [[x s']|]. Qed.
Lemma returns_ends m Q (R : A → S → Prop) : returns m s Q → ends m s R → returns m s (λ x s', Q x s' ∧ R x s').
Proof. unfold ends, returns. by destruct (m s) as [[x s']|]. Qed.
Lemma ends_ret x Q : Q x s → ends (mret x) s Q.
Proof. done. Qed.
Lemma ends_bind m (f : A → prog S B) (R : B → S → Prop) :
  ends m s (λ x s', ends (f x) s' R) → ends (m ≫= f) s R.
Proof. unfold ends, mbind, prog_bind. by destruct (m s) as [[x s']|]. Qed.
Lemma ends_get (Q : S → S → Prop) : Q s s → ends get s Q.
Proof. done. Qed.
Lemma ends_modify (f : S → S) (Q : unit → S → Prop) : Q tt (f s) → ends (modify f) s Q.
Proof. done. Qed.
Lemma ends_deref (o : option A) Q : (∀ x, o = Some x → Q x s) → ends (deref o) s Q.
Proof. unfold ends, deref. destruct o; auto. Qed.
End ends.

(** The next step of a goal [ends (x ← m; ...) s Q]. *)
Ltac estep :=
  lazymatch goal with
  | |- ends (_ ≫= _) _ _ => apply ends_bind; estep
  | |- ends (mret _) _ _ => apply ends_ret
  | |- ends undefined _ _ => exact I
  | |- ends get _ _ => apply ends_get
  | |- ends (modify _) _ _ => apply ends_modify
  | |- ends (deref _) _ _ => apply ends_deref; intros ? ?
  | |- ends get_grp _ _ => apply ends_returns, returns_get_grp
  | |- ends (upd_grp _) _ _ => apply ends_returns, returns_upd_grp
  | |- ends (upd_glob _) _ _ => apply ends_returns, returns_upd_glob
  | |- ends (ask _) _ _ => apply ends_returns, returns_ask; intros ? ?
  | |- _ => idtac
  end; cbv beta.

(** ** Preorders of states *)

Class Keeps {S A} (R : relation S) (m : prog S A) : Prop :=
  keeps_run s x s' : m s = Some (x, s') → R s s'.

Section keeps.
Context {S : Type} (R : relation S) `{!PreOrder R}.

Lemma keeps_ends {A} (m : prog S A) : Keeps R m ↔ ∀ s, ends m s (λ _ s', R s s').
Proof.
  unfold Keeps, ends. split; [intros H s|intros H s x s' E; specialize (H s); by rewrite E in H].
  destruct (m s) as [[x s']|] eqn:E; [by eapply H|done].
Qed.
Lemma returns_keeps {A} (m : prog S A) s Q : Keeps R m → returns m s Q → returns m s (λ x s', Q x s' ∧ R s s').
Proof. intros Hk Hq. by apply returns_ends; [|apply keeps_ends]. Qed.
Lemma keeps_ret {A} (x : A) : Keeps R (mret x).
Proof. intros s y s' [= <- <-]. reflexivity. Qed.
Lemma keeps_undefined {A} : Keeps R (undefined : prog S A).
Proof. intros s y s' [=]. Qed.
Lemma keeps_get : Keeps R (get : prog S S).
Proof. intros s y s' [= <- <-]. reflexivity. Qed.
Lemma keeps_deref {A} (o : option A) : Keeps R (deref o).
Proof. intros s y s' [_ ->]%deref_Some. reflexivity. Qed.
Lemma keeps_modify (f : S → S) : (∀ s, R s (f s)) → Keeps R (modify f).
Proof. intros Hf s y s' [= <- <-]. apply Hf. Qed.
Lemma keeps_bind {A B} (m : prog S A) (f : A → prog S B) :
  Keeps R m → (∀ x, Keeps R (f x)) → Keeps R (m ≫= f).
Proof.
  intros Hm Hf s y s' (x & s1 & H1 & H2)%prog_bind_Some. etrans; [by eapply Hm|by eapply Hf].
Qed.
End keeps.

(** Pass through a function body; a called function is left to the
    instances, a change of the state to [tac]. *)
Ltac keeps_step tac :=
  lazymatch goal with
  | |- Keeps _ (mret _) => apply keeps_ret; apply _
  | |- Keeps _ undefined => apply keeps_undefined; apply _
  | |- Keeps _ get => apply keeps_get; apply _
  | |- Keeps _ (deref _) => apply keeps_deref; apply _
  | |- Keeps _ (modify _) => apply keeps_modify; tac
  | |- Keeps _ (_ ≫= _) => apply keeps_bind; [apply _| |intros ?]
  | |- Keeps _ (match ?x with _ => _ end) => destruct x
  | |- Keeps _ _ => first [assumption | typeclasses eauto]
  end.
Ltac keeps tac := repeat (keeps_step tac; cbv beta).

(** ** Name, number of paths, and path sizes

    Every server object has two arrays with an entry per store path of the
    group. *)

(** The next path is an index; the arrays of a server have [n] entries. *)
Definition sized (n : Z) (d : FDFSStorageDetail) : Prop :=
  0 ≤ current_write_path d < 2 ^ 31 - 1 ∧
  (0 < n → ∃ t f, path_total_mbs d = Some t ∧ path_free_mbs d = Some f ∧
     length t = Z.to_nat n ∧ length f = Z.to_nat n).

Definition paths_ready (s : group_state) : Prop :=
  ∀ p, Some p ∈ all_servers (grp s) → ∃ d, details s !! p = Some d ∧ sized (store_path_count (grp s)) d.

Lemma sized_zero n : n ≤ 0 → sized n zero_detail.
Proof. intros Hn. split; [done|lia]. Qed.

Definition settled (s s' : group_state) : Prop :=
  group_name (grp s') = group_name (grp s) ∧ store_path_count (grp s') = store_path_count (grp s) ∧
  (paths_ready s → paths_ready s').

#[export] Instance settled_preorder : PreOrder settled.
Proof.
  split; [by intros s|]. intros s1 s2 s3 (Hn & Hc & Hr) (Hn' & Hc' & Hr').
  split; [congruence|]. split; [congruence|auto].
Qed.

#[local] Notation KS m := (Keeps settled m).

Lemma settled_same s s' :
  group_name (grp s') = group_name (grp s) → all_servers (grp s') = all_servers (grp s) →
  store_path_count (grp s') = store_path_count (grp s) → details s' = details s → settled s s'.
Proof. unfold settled, paths_ready. by intros -> -> -> ->. Qed.

(** One server [p] becomes [d']. *)
Lemma settled_upd s p d d' :
  details s !! p = Some d → (sized (store_path_count (grp s)) d → sized (store_path_count (grp s)) d') →
  settled s (s <| details ::= <[p := d']> |>).
Proof.
  intros Hd Hsz. split; [done|]. split; [done|]. intros Hr q Hq. cbn in *.
  destruct (Hr q Hq) as (e & He & Hse). destruct (decide (p = q)) as [<-|Hne].
  - rewrite lookup_insert_eq. exists d'. split; [done|]. apply Hsz. congruence.
  - rewrite lookup_insert_ne by done. by exists e.
Qed.

Ltac kept := keeps ltac:(intros ?; by apply settled_same).

Lemma get_server_Some p d s s' : get_server p s = Some (d, s') → details s !! p = Some d ∧ s' = s.
Proof.
  unfold get_server. intros (s1 & s2 & E0 & E)%prog_bind_Some. injection E0 as <- <-. by apply deref_Some in E.
Qed.

Section primitives.
Context (env : nat → answer).

#[export] Instance keeps_get_grp : KS get_grp.
Proof. unfold get_grp. kept. Qed.
#[export] Instance keeps_upd_glob f : KS (upd_glob f).
Proof. unfold upd_glob. kept. Qed.
Lemma keeps_upd_grp f :
  (∀ g, group_name (f g) = group_name g) → (∀ g, all_servers (f g) = all_servers g) →
  (∀ g, store_path_count (f g) = store_path_count g) → KS (upd_grp f).
Proof. intros Hn Ha Hs. unfold upd_grp. keeps ltac:(intros s; apply settled_same; cbn; auto). Qed.
#[export] Instance keeps_get_server p : KS (get_server p).
Proof. unfold get_server. kept. Qed.
Lemma keeps_upd_server p f : (∀ n d, sized n d → sized n (f d)) → KS (upd_server p f).
Proof.
  intros Hf s x s' E. unfold upd_server in E. apply prog_bind_Some in E as (d & s1 & E1 & E).
  apply get_server_Some in E1 as [Hd ->]. injection E as <- <-. apply (settled_upd _ _ d); [done|apply Hf].
Qed.
#[export] Instance keeps_ask : KS (ask env).
Proof. unfold ask. kept. Qed.
#[export] Instance keeps_strcpy_to n x : KS (strcpy_to n x).
Proof. unfold strcpy_to. kept. Qed.
#[export] Instance keeps_servers_in arr n : KS (servers_in arr n).
Proof. unfold servers_in. kept. Qed.
#[export] Instance keeps_bsearch_server id arr n : KS (bsearch_server id arr n).
Proof. unfold bsearch_server. kept. Qed.

End primitives.

#[export] Hint Extern 2 (Keeps settled (upd_grp _)) => apply keeps_upd_grp; reflexivity : typeclass_instances.
#[export] Hint Extern 2 (Keeps settled (upd_server _ _)) =>
  apply keeps_upd_server; intros ? ? H; exact H : typeclass_instances.

(** ** Clearing a server *)

Lemma memset_mbs_length l n l' : memset_mbs (Some l) n = Some l' → ∃ k, l' = Some k ∧ length k = length l.
Proof.
  unfold memset_mbs. case_decide; [|done]. intros [= <-]. eexists. split; [done|].
  rewrite length_app, length_drop. unfold zeros. rewrite length_replicate. lia.
Qed.

#[export] Instance keeps_clear_storage_fields p : KS (tracker_mem_clear_storage_fields p).
Proof.
  intros s x s' E. unfold tracker_mem_clear_storage_fields in E.
  apply prog_bind_Some in E as (d & s1 & E1 & E). apply get_server_Some in E1 as [Hd ->].
  apply prog_bind_Some in E as (t & s4 & E1 & E). apply deref_Some in E1 as [Ht ->].
  apply prog_bind_Some in E as (f & s5 & E1 & E). apply deref_Some in E1 as [Hf ->].
  unfold upd_server in E. apply prog_bind_Some in E as (d' & s6 & E1 & E).
  apply get_server_Some in E1 as [Hd' ->]. injection E as <- <-. apply (settled_upd _ _ d); [done|].
  intros [_ Hsz]. split; [cbn; lia|]. intros Hn. destruct (Hsz Hn) as (l1 & l2 & E1 & E2 & H1 & H2).
  rewrite E1 in Ht. rewrite E2 in Hf.
  apply memset_mbs_length in Ht as (k1 & -> & L1). apply memset_mbs_length in Hf as (k2 & -> & L2).
  exists k1, k2. cbn. by rewrite L1, L2.
Qed.

(** ** New servers *)

Section grow.
Context (env : nat → answer) (cfg : tracker_config).

(** The sizes of the servers a call of [for_servers] has dealt with. *)
Definition paths_made (n : Z) (l : list positive) (s : group_state) (r : Z) (s' : group_state) : Prop :=
  grp s' = grp s ∧ (∀ q, q ∉ l → details s' !! q = details s !! q) ∧
  (∀ p, p ∈ l → current_write_path <$> details s' !! p = current_write_path <$> details s !! p) ∧
  (r = 0 → ∀ p, p ∈ l → ∃ d', details s' !! p = Some d' ∧ sized n d').

Definition path_ok (s : group_state) (p : positive) : Prop :=
  ∃ d, details s !! p = Some d ∧ 0 ≤ current_write_path d < 2 ^ 31 - 1.

Lemma paths_made_all (f : positive → prog group_state Z) n l s :
  (∀ p s, path_ok s p → ends (f p) s (paths_made n [p] s)) → (∀ p, p ∈ l → path_ok s p) →
  ends (for_servers f l) s (paths_made n l s).
Proof.
  intros Hf. revert s. induction l as [|p l IH]; intros s Hin; cbn [for_servers].
  { apply ends_ret. split; [done|]. split; [done|]. split; set_solver. }
  assert (Hp : path_ok s p) by (apply Hin; by left). apply ends_bind.
  eapply ends_mono; [by apply Hf|]. intros r s1 (Hg & Hout & Hcw & Hr).
  assert (Hcw1 : ∀ q, current_write_path <$> details s1 !! q = current_write_path <$> details s !! q).
  { intros q. destruct (decide (q = p)) as [->|Hne]; [apply Hcw; by left|]. rewrite Hout by set_solver. done. }
  destruct (c_true r) eqn:Er.
  { apply ends_ret. split; [done|]. split; [intros q Hq; apply Hout; set_solver|]. split; [done|]. by intros ->. }
  assert (Hr0 : r = 0) by (unfold c_true in Er; by apply Z.eqb_eq, negb_false_iff).
  destruct (Hr Hr0 p) as (d' & Hd' & Hs'); [by left|].
  eapply ends_mono; [apply IH|].
  { intros q Hq. destruct (Hin q) as (e & He & Hbnd); [by right|]. specialize (Hcw1 q). rewrite He in Hcw1.
    destruct (details s1 !! q) as [e'|] eqn:Hq'; [|done]. injection Hcw1 as E. exists e'. by rewrite E. }
  intros r2 s2 (Hg2 & Hout2 & Hcw2 & Hr2). split; [by rewrite Hg2|]. split; [|split].
  - intros q [Hqp Hql]%not_elem_of_cons. rewrite Hout2, Hout by set_solver. done.
  - intros q Hq. destruct (decide (q ∈ l)) as [Hql|Hql]; [by rewrite Hcw2|]. by rewrite Hout2.
  - intros E q [->|Hq]%elem_of_cons; [|by apply Hr2]. destruct (decide (p ∈ l)) as [Hpl|Hpl]; [by apply Hr2|].
    exists d'. by rewrite Hout2.
Qed.

(** One server gets two arrays, or an allocation failed. *)
Lemma paths_made_upd n p d d' s s' (r : Z) :
  details s !! p = Some d → grp s' = grp s → details s' = <[p := d']> (details s) →
  current_write_path d' = current_write_path d → (r = 0 → sized n d') → paths_made n [p] s r s'.
Proof.
  intros Hd Hg Hds Hc Hsz. split; [done|]. rewrite Hds. split; [|split].
  - intros q Hq. rewrite lookup_insert_ne; [done|]. set_solver.
  - intros q ->%list_elem_of_singleton. rewrite lookup_insert_eq, Hd. cbn. by rewrite Hc.
  - intros E q ->%list_elem_of_singleton. rewrite lookup_insert_eq. eexists. split; [done|auto].
Qed.

Lemma sized_some n d t f : 0 ≤ current_write_path d < 2 ^ 31 - 1 →
  path_total_mbs d = Some t → path_free_mbs d = Some f → length t = Z.to_nat n → length f = Z.to_nat n → sized n d.
Proof. intros Hc Ht Hf Lt Lf. split; [done|]. by exists t, f. Qed.

Lemma length_zeros n : length (zeros n) = Z.to_nat n.
Proof. apply length_replicate. Qed.

Lemma malloc_paths_made p n s :
  0 < n → path_ok s p → ends (tracker_malloc_storage_path_mbs env p n) s (paths_made n [p] s).
Proof.
  intros Hn (d & Hd & Hcw). apply ends_returns. unfold tracker_malloc_storage_path_mbs.
  rewrite (proj2 (Z.leb_gt n 0)) by lia.
  step. destruct (c_true (malloc_result a)) eqn:E.
  { apply returns_bind, (returns_upd_server _ p d); [done|]. apply returns_ret.
    eapply (paths_made_upd n p d); [done..|]. by intros Hz; rewrite Hz in E. }
  step. destruct (c_true (malloc_result a0)) eqn:E0;
    (apply returns_bind, (returns_upd_server _ p d); [done|]; apply returns_ret; eapply (paths_made_upd n p d); [done..|]).
  - by intros Hz; rewrite Hz in E0.
  - intros _. by eapply sized_some; [| | |apply length_zeros|apply length_zeros].
Qed.

End grow.
(** ** Growing the arrays of a group *)

(** The group is the same and no object was lost. *)
Lemma settled_grows s s' : grp s' = grp s → heap_grows (details s) (details s') → settled s s'.
Proof.
  intros Hg Hh. unfold settled, paths_ready. rewrite Hg. split; [done|]. split; [done|].
  intros Hr p Hp. destruct (Hr p Hp) as (d & Hd & Hsz). exists d. auto.
Qed.

Section realloc.
Context (env : nat → answer) (cfg : tracker_config).

#[local] Instance keeps_min_priority l m : KS (min_priority l m).
Proof. revert m. induction l; intros; cbn [min_priority]; kept. Qed.
#[export] Instance keeps_tracker_mem_find_store_server : KS (tracker_mem_find_store_server cfg).
Proof. unfold tracker_mem_find_store_server. kept. Qed.

(** The arrays [g] had, with the new objects behind them, are put in place. *)
Lemma settled_install s s3 n l :
  (KS (tracker_mem_find_trunk_server env true)) →
  grp s3 = grp s → heap_grows (details s) (details s3) →
  (paths_ready s → ∀ p, Some p ∈ l → ∃ d, details s3 !! p = Some d ∧ sized (store_path_count (grp s)) d) →
  ends (realloc_install env cfg (grp s) n l) s3 (λ _ s', settled s s').
Proof.
  intros Ht Hg Hh Hl. unfold realloc_install. estep. estep.
  apply ends_bind, ends_returns. unfold tracker_malloc_last_sync_timestamps. step.
  eapply (returns_mono _ _ (λ _ s', grp s' = grp s ∧ details s' = details s3)).
  { destruct (c_true _); [by apply returns_ret|]. eapply returns_mono; [apply malloc_rows_ok|]. cbn. rewrite Hg. naive_solver. }
  intros rows s4 [Hg4 Hd4]. destruct (c_true rows.1).
  { apply ends_ret, settled_grows; [done|]. by rewrite Hd4. }
  estep. estep. match goal with |- ends _ ?st _ => set (s5 := st) end.
  assert (H5 : settled s s5).
  { split; [cbn; by rewrite Hg4|]. split; [cbn; by rewrite Hg4|]. intros Hr p Hp. cbn in *. rewrite Hg4, Hd4 in *. auto. }
  match goal with |- ends ?m _ _ => assert (Hk : KS m) by kept end.
  eapply ends_mono; [by apply keeps_ends|]. intros ret s6 H6. by etrans.
Qed.

Lemma free_grows s s' made :
  (∀ p, p ∈ made → details s !! p = None) → (∀ p, p ∉ made → details s' !! p = details s !! p) →
  heap_grows (details s) (foldr delete (details s') made).
Proof.
  intros Hnone Hout p d Hd. rewrite lookup_free. case_decide as Hp; [by rewrite Hnone in Hd|]. by rewrite Hout.
Qed.

Lemma keeps_realloc (Ht : KS (tracker_mem_find_trunk_server env true)) n b :
  KS (tracker_mem_realloc_store_servers env cfg n b).
Proof.
  apply keeps_ends. intros s. unfold tracker_mem_realloc_store_servers. estep. estep.
  destruct (c_true _); [by apply ends_ret, settled_same|].
  apply ends_bind. eapply ends_mono; [apply ends_returns, malloc_details_ok|]. cbn [grp details].
  intros [err made] s1 (Hg1 & _ & _ & Hin & Hout). cbn in Hg1, Hin, Hout |- *.
  assert (Hnone : ∀ p, p ∈ made → details s !! p = None) by by intros p [? _]%Hin.
  assert (Hgrow : heap_grows (details s) (details s1)) by by apply (grown_by_objects s s1 made).
  destruct (c_true err).
  { unfold free_details. estep. apply ends_ret, settled_grows; [done|]. cbn. by apply (free_grows s s1). }
  apply ends_bind, ends_deref. intros olds Holds.
  assert (Hol : ∀ p, Some p ∈ olds → Some p ∈ all_servers (grp s)).
  { unfold memcpy_entries in Holds. case_decide; [|done]. injection Holds as <-. intros p.
    rewrite Nat.sub_diag, app_nil_r. intros Hp. eapply elem_of_submseteq; [done|].
    by apply sublist_submseteq, sublist_take. }
  estep. destruct (c_true _); [by apply ends_ret, settled_grows|].
  estep. destruct (c_true _); [by apply ends_ret, settled_grows|].
  match goal with |- ends _ ?st _ => set (s2 := st) end.
  assert (Hinst : ∀ s3, grp s3 = grp s → (∀ q, q ∉ made → details s3 !! q = details s !! q) →
    (∀ p, p ∈ made → ∃ d, details s3 !! p = Some d ∧ sized (store_path_count (grp s)) d) →
    ends (realloc_install env cfg (grp s) (alloc_size (grp s) + n + TRACKER_MEM_ALLOC_ONCE) (olds ++ (Some <$> made))) s3
      (λ _ s', settled s s')).
  { intros s3 Hg3 Hout3 Hmade. apply settled_install; [done..| |].
    - by apply (grown_by_objects s s3 made).
    - intros Hready p [Hp|(q & [= <-] & Hp)%list_elem_of_fmap]%elem_of_app; [|by apply Hmade].
      destruct (Hready p) as (d & Hd & Hsz); [by apply Hol|]. exists d. split; [|done]. rewrite Hout3; [done|].
      intros Hp'. by rewrite Hnone in Hd. }
  apply ends_bind. destruct (Z.ltb_spec 0 (store_path_count (grp s))) as [Hn|Hn].
  - eapply ends_mono; [apply (paths_made_all _ (store_path_count (grp s)))|].
    + intros p s' Hp. by apply malloc_paths_made.
    + intros p Hp. destruct (Hin p Hp) as [_ Hz]. by exists zero_detail.
    + intros r s3 (Hg3 & Hout3 & _ & Hr). cbn in Hg3, Hout3.
      assert (Hout4 : ∀ q, q ∉ made → details s3 !! q = details s !! q) by (intros q Hq; by rewrite Hout3, Hout).
      destruct (c_true r) eqn:Er; [apply ends_ret, settled_grows; [congruence|by apply (grown_by_objects s s3 made)]|].
      apply Hinst; [congruence|done|]. intros p. apply Hr. unfold c_true in Er. by apply Z.eqb_eq, negb_false_iff.
  - estep. cbn. apply Hinst; [done..|]. intros p Hp. destruct (Hin p Hp) as [_ Hz]. exists zero_detail.
    split; [done|]. by apply sized_zero.
Qed.

End realloc.

(** ** The operations *)

Section operations.
Context (env : nat → answer) (cfg : tracker_config).

#[export] Instance keeps_tracker_mem_get_storage id : KS (tracker_mem_get_storage id).
Proof. unfold tracker_mem_get_storage. kept. Qed.
#[export] Instance keeps_storage_id_of_ip ip : KS (storage_id_of_ip cfg ip).
Proof. unfold storage_id_of_ip. kept. Qed.
#[export] Instance keeps_tracker_mem_get_storage_by_ip ip : KS (tracker_mem_get_storage_by_ip cfg ip).
Proof. unfold tracker_mem_get_storage_by_ip. kept. Qed.
#[export] Instance keeps_tracker_mem_get_active_storage_by_id id : KS (tracker_mem_get_active_storage_by_id id).
Proof. unfold tracker_mem_get_active_storage_by_id. kept. Qed.
#[export] Instance keeps_tracker_mem_get_active_storage_by_ip ip : KS (tracker_mem_get_active_storage_by_ip cfg ip).
Proof. unfold tracker_mem_get_active_storage_by_ip. kept. Qed.
#[export] Instance keeps_tracker_get_writable_storage : KS (tracker_get_writable_storage cfg).
Proof. unfold tracker_get_writable_storage. kept. Qed.
#[export] Instance keeps_tracker_mem_get_trunk_binlog_size p : KS (tracker_mem_get_trunk_binlog_size env p).
Proof. unfold tracker_mem_get_trunk_binlog_size. kept. Qed.
#[export] Instance keeps_tracker_set_trunk_server_and_log o : KS (tracker_set_trunk_server_and_log env o).
Proof. unfold tracker_set_trunk_server_and_log. kept. Qed.
#[export] Instance keeps_tracker_mem_do_set_trunk_server p save : KS (tracker_mem_do_set_trunk_server env p save).
Proof. unfold tracker_mem_do_set_trunk_server. kept. Qed.
#[export] Instance keeps_largest_binlog l n p : KS (largest_binlog env l n p).
Proof. revert p. induction l; intros; cbn [largest_binlog]; kept. Qed.
#[export] Instance keeps_tracker_mem_find_trunk_server save : KS (tracker_mem_find_trunk_server env save).
Proof. unfold tracker_mem_find_trunk_server. kept. Qed.
#[export] Instance keeps_tracker_mem_set_trunk_server id : KS (tracker_mem_set_trunk_server env cfg id).
Proof. unfold tracker_mem_set_trunk_server. kept. Qed.
#[export] Instance keeps_tracker_mem_realloc_store_servers n b : KS (tracker_mem_realloc_store_servers env cfg n b).
Proof. apply keeps_realloc, _. Qed.
#[export] Instance keeps_checked_storage_id id ip : KS (checked_storage_id cfg id ip).
Proof. unfold checked_storage_id. kept. Qed.
#[export] Instance keeps_tracker_mem_add_storage pp id ip b : KS (_tracker_mem_add_storage env cfg pp id ip b).
Proof. unfold _tracker_mem_add_storage. kept. Qed.
#[export] Instance keeps_tracker_write_to_changelog p x : KS (tracker_write_to_changelog env cfg p x).
Proof. unfold tracker_write_to_changelog. kept. Qed.
#[export] Instance keeps_forget_sync_src id l : KS (forget_sync_src id l).
Proof. induction l; intros; cbn [forget_sync_src]; kept. Qed.
#[export] Instance keeps_tracker_mem_delete_storage id : KS (tracker_mem_delete_storage env cfg id).
Proof. unfold tracker_mem_delete_storage. kept. Qed.
#[export] Instance keeps_qsort_servers arr n : KS (qsort_servers arr n).
Proof. unfold qsort_servers. kept. Qed.
#[export] Instance keeps_tracker_mem_storage_ip_changed a b : KS (tracker_mem_storage_ip_changed env cfg a b).
Proof. unfold tracker_mem_storage_ip_changed. kept. Qed.
#[export] Instance keeps_sync_storage b : KS (sync_storage env cfg b).
Proof. unfold sync_storage. kept. Qed.
#[export] Instance keeps_sync_storages l r : KS (sync_storages env cfg l r).
Proof. revert r. induction l; intros; cbn [sync_storages]; kept. Qed.
#[export] Instance keeps_tracker_mem_sync_storages l : KS (tracker_mem_sync_storages env cfg l).
Proof. unfold tracker_mem_sync_storages. kept. Qed.
#[export] Instance keeps_tracker_mem_deactive_store_server p : KS (tracker_mem_deactive_store_server cfg p).
Proof. unfold tracker_mem_deactive_store_server. kept. Qed.
#[export] Instance keeps_tracker_mem_active_store_server p : KS (tracker_mem_active_store_server env cfg p).
Proof. unfold tracker_mem_active_store_server. kept. Qed.
#[export] Instance keeps_tracker_mem_offline_store_server p : KS (tracker_mem_offline_store_server cfg p).
Proof. unfold tracker_mem_offline_store_server. kept. Qed.
#[export] Instance keeps_get_source_server i : KS (get_source_server cfg i).
Proof. unfold get_source_server. kept. Qed.
#[export] Instance keeps_check_read_server i p q : KS (check_read_server cfg i p q).
Proof. unfold check_read_server. kept. Qed.
#[export] Instance keeps_query_fetch_one i p : KS (query_fetch_one cfg i p).
Proof. unfold query_fetch_one. kept. Qed.
#[export] Instance keeps_query_update i : KS (query_update cfg i).
Proof. unfold query_update. kept. Qed.
#[export] Instance keeps_add_server l p : KS (add_server l p).
Proof. unfold add_server. kept. Qed.
#[export] Instance keeps_collect_servers i ip l acc : KS (collect_servers cfg i ip l acc).
Proof. revert acc. induction l; intros; cbn [collect_servers]; kept. Qed.
#[export] Instance keeps_query_fetch_all i p : KS (query_fetch_all cfg i p).
Proof. unfold query_fetch_all. kept. Qed.
#[export] Instance keeps_tracker_mem_get_storage_by_filename c b f n : KS (tracker_mem_get_storage_by_filename cfg c b f n).
Proof. unfold tracker_mem_get_storage_by_filename. kept. Qed.
#[export] Instance keeps_idle_servers l acc : KS (idle_servers cfg l acc).
Proof. revert acc. induction l; intros; cbn [idle_servers]; kept. Qed.
#[export] Instance keeps_deactive_servers l : KS (deactive_servers cfg l).
Proof. induction l; intros; cbn [deactive_servers]; kept. Qed.
#[export] Instance keeps_check_servers_alive : KS (check_servers_alive cfg).
Proof. unfold check_servers_alive. kept. Qed.
#[export] Instance keeps_check_trunk_alive : KS (check_trunk_alive env cfg).
Proof. unfold check_trunk_alive. kept. Qed.
#[export] Instance keeps_run_op o : KS (run_op env cfg o).
Proof. unfold run_op. kept. Qed.

End operations.
