(* ===== verification/TrackerGroupsInv.v ===== *)
(** * The invariant of the table of groups

    [groups_ok w T]: the arrays of [g_groups] hold the groups of the view
    [w], in the order they were added and in the order of their names; every
    group satisfies the invariant of a group, and the arrays of path sizes
    of its servers are there; the spare objects are blank. *)

From S2P Require Import Prelude CLib SortedArray TrackerMem TrackerMemInv TrackerMemGrow TrackerMemOps TrackerMemSpec.
From S2P Require Import TrackerAlive TrackerGroups TrackerKeeps.
From stdpp Require Import sorting.
#[local] Open Scope Z_scope.

Record groups_view := {
  w_all : list positive;
  w_spare : list positive;
  w_sorted : list positive;
}.

(** An operation on the group [gm] starts in this state. *)
Definition enter (T : tracker_state) (gm : group_mem) : group_state :=
  {| grp := m_group gm; details := m_details gm; glob := tglob T |}.

(** The tracker after an operation on the group [p] ended in [s]. *)
Definition leave (T : tracker_state) (p : positive) (s : group_state) : tracker_state :=
  T <| gmem ::= <[p := {| m_group := grp s; m_details := details s |}]> |> <| tglob := glob s |>.

(** A group in use. *)
Definition member_ok (g : FDFSGroupInfo) (ds : gmap positive FDFSStorageDetail) : Prop :=
  (length (group_name g) < FDFS_GROUP_NAME_SIZE)%nat ∧ (∃ v, group_ok v g ds) ∧
  0 ≤ store_path_count g < 2 ^ 31 ∧
  ∀ p, Some p ∈ all_servers g → ∃ d, ds !! p = Some d ∧ sized (store_path_count g) d.

Definition in_use (T : tracker_state) (p : positive) : Prop :=
  ∃ gm, gmem T !! p = Some gm ∧ member_ok (m_group gm) (m_details gm).

Record groups_ok (w : groups_view) (T : tracker_state) : Prop := {
  gok_all : groups (g_groups T) = Some <$> (w_all w ++ w_spare w);
  gok_alloc : gs_alloc_size (g_groups T) = length (w_all w ++ w_spare w);
  gok_count : gs_count (g_groups T) = length (w_all w);
  gok_nodup : NoDup (w_all w ++ w_spare w);
  gok_sorted : holds (sorted_groups (g_groups T)) (w_sorted w);
  gok_sorted_len : length (sorted_groups (g_groups T)) = gs_alloc_size (g_groups T);
  gok_perm : w_sorted w ≡ₚ w_all w;
  gok_order : sorted_by (name_of (gmem T)) (w_sorted w);
  gok_members : ∀ p, p ∈ w_all w → in_use T p;
  gok_spare : ∀ p, p ∈ w_spare w → ∃ gm, gmem T !! p = Some gm ∧ blank_group (m_group gm);
  gok_store : ∀ p, pStoreGroup (g_groups T) = Some p → p ∈ w_all w;
}.

(** ** Running the primitives *)

Section primitives.
Context (T : tracker_state).

Lemma returns_get_groups (Q : FDFSGroups → tracker_state → Prop) : Q (g_groups T) T → returns get_groups T Q.
Proof. done. Qed.

Lemma returns_upd_groups f (Q : unit → tracker_state → Prop) :
  Q tt (T <| g_groups ::= f |>) → returns (upd_groups f) T Q.
Proof. done. Qed.

Lemma returns_get_group p gm (Q : FDFSGroupInfo → tracker_state → Prop) :
  gmem T !! p = Some gm → Q (m_group gm) T → returns (get_group p) T Q.
Proof. intros Hp HQ. unfold get_group. apply returns_bind, returns_get. by apply returns_bind, (returns_deref _ _ gm), returns_ret. Qed.

Lemma returns_in_group {A} p gm (m : prog group_state A) (Q : A → tracker_state → Prop) :
  gmem T !! p = Some gm → returns m (enter T gm) (λ r s, Q r (leave T p s)) → returns (in_group p m) T Q.
Proof.
  intros Hp Hm. unfold in_group. apply returns_bind, returns_get. apply returns_bind, (returns_deref _ _ gm); [done|].
  apply returns_run in Hm as (r & s & E & HQ). apply returns_bind, (returns_deref _ _ (r, s)); [exact E|].
  apply returns_bind, returns_modify. apply returns_ret. exact HQ.
Qed.

Lemma returns_ask_tracker env (Q : answer → tracker_state → Prop) :
  (∀ a, (c_true (malloc_result a) = true → oom env) → Q a (T <| tglob ::= λ g, g <| ticks ::= S |> |>)) →
  returns (ask_tracker env) T Q.
Proof.
  intros HQ. apply HQ. unfold malloc_result. intros Hr. exists (ticks (tglob T)). by destruct (a_malloc _).
Qed.
End primitives.

(** The next step of a goal [returns (x ← m; ...) T Q]. *)
Ltac gstep :=
  lazymatch goal with
  | |- returns (_ ≫= _) _ _ => apply returns_bind; gstep
  | |- returns (mret _) _ _ => apply returns_ret
  | |- returns get _ _ => apply returns_get
  | |- returns (modify _) _ _ => apply returns_modify
  | |- returns get_groups _ _ => apply returns_get_groups
  | |- returns (upd_groups _) _ _ => apply returns_upd_groups
  | |- returns (get_group ?p) ?s _ =>
      match goal with H : gmem _ !! p = Some _ |- _ => apply (returns_get_group s p _ _ H) end
  | |- returns (in_group ?p _) ?s _ =>
      match goal with H : gmem _ !! p = Some _ |- _ => apply (returns_in_group s p _ _ _ H) end
  | |- returns (ask_tracker _) _ _ => apply returns_ask_tracker; intros ?a ?Hoom
  | |- _ => idtac
  end; cbv beta.

(** ** Members *)

Section members.
Context {w : groups_view} {T : tracker_state} (Hok : groups_ok w T).

Lemma sorted_all p : p ∈ w_sorted w ↔ p ∈ w_all w.
Proof. by rewrite (gok_perm _ _ Hok). Qed.

Lemma name_of_member p gm : gmem T !! p = Some gm → name_of (gmem T) p = Some (group_name (m_group gm)).
Proof. unfold name_of. by intros ->. Qed.

Lemma member_keys : Forall (λ p, is_Some (name_of (gmem T) p)) (w_sorted w).
Proof.
  apply Forall_forall. intros p Hp%sorted_all. destruct (gok_members _ _ Hok p Hp) as (gm & Hgm & _).
  rewrite (name_of_member p gm Hgm). by eexists.
Qed.

Lemma member_not_spare p : p ∈ w_all w → p ∉ w_spare w.
Proof.
  intros Hp Hs. destruct (proj1 (NoDup_app _ _) (gok_nodup _ _ Hok)) as (_ & Hd & _). by apply (Hd p).
Qed.

Lemma name_inj p q k : p ∈ w_all w → q ∈ w_all w → name_of (gmem T) p = Some k → name_of (gmem T) q = Some k → p = q.
Proof. rewrite <- !sorted_all. apply sorted_by_inj, (gok_order _ _ Hok). Qed.

(** A member changes and keeps its name. *)
Lemma groups_ok_member p gm g ds gl :
  p ∈ w_all w → gmem T !! p = Some gm → group_name g = group_name (m_group gm) → member_ok g ds →
  groups_ok w (leave T p {| grp := g; details := ds; glob := gl |}).
Proof.
  intros Hp Hgm Hname Hm. assert (Hns := member_not_spare p Hp). destruct Hok. constructor; try assumption.
  - apply (sorted_by_key_ext (name_of (gmem T))); [|assumption]. intros q _. unfold name_of. cbn.
    destruct (decide (p = q)) as [<-|Hne]; [by rewrite lookup_insert_eq, Hgm; cbn; rewrite Hname|by rewrite lookup_insert_ne].
  - intros q Hq. unfold in_use. cbn. destruct (decide (p = q)) as [<-|Hne].
    + rewrite lookup_insert_eq. eexists. split; [done|]. done.
    + rewrite lookup_insert_ne by done. by apply gok_members0.
  - intros q Hq. cbn. rewrite lookup_insert_ne by (by intros ->). by apply gok_spare0.
Qed.

End members.

(** ** Operations on one group *)

Section in_group.
Context {w : groups_view} {T : tracker_state} (Hok : groups_ok w T).

(** The group and its servers satisfy the invariant after [m] again. *)
Definition group_fine (s : group_state) : Prop :=
  ∃ v, group_ok v (grp s) (details s).

Lemma in_group_changes {A} p (m : prog group_state A) (Q : A → group_state → Prop) :
  p ∈ w_all w →
  (∀ gm v, gmem T !! p = Some gm → group_ok v (m_group gm) (m_details gm) → member_ok (m_group gm) (m_details gm) →
     returns m (enter T gm) (λ r s,
       group_name (grp s) = group_name (m_group gm) ∧ member_ok (grp s) (details s) ∧ Q r s)) →
  returns (in_group p m) T (λ r T', groups_ok w T' ∧ ∃ s, T' = leave T p s ∧ Q r s).
Proof.
  intros Hp Hm. destruct (gok_members _ _ Hok p Hp) as (gm & Hgm & Hin). destruct (Hin) as (_ & [v Hv] & _).
  apply (returns_in_group T p gm); [done|]. eapply returns_mono; [by apply (Hm gm v)|].
  intros r [g ds gl] (Hn & Hmem & HQ). split; [by apply (groups_ok_member Hok p gm)|]. by eexists.
Qed.

Lemma member_settled T' gm s :
  member_ok (m_group gm) (m_details gm) → settled (enter T' gm) s → group_fine s →
  group_name (grp s) = group_name (m_group gm) ∧ member_ok (grp s) (details s).
Proof.
  intros (Hlen & _ & Hspc & Hready) (Hn & Hc & Hr) Hf. cbn in Hn, Hc. split; [done|].
  split; [by rewrite Hn|]. split; [done|]. split; [by rewrite Hc|]. by apply Hr.
Qed.

Lemma in_group_kept {A} p (m : prog group_state A) (Q : A → group_state → Prop) :
  Keeps settled m → p ∈ w_all w →
  (∀ gm v, gmem T !! p = Some gm → group_ok v (m_group gm) (m_details gm) →
     returns m (enter T gm) (λ r s, group_fine s ∧ Q r s)) →
  returns (in_group p m) T (λ r T', groups_ok w T' ∧ ∃ s, T' = leave T p s ∧ Q r s).
Proof.
  intros Hk Hp Hm. apply in_group_changes; [done|]. intros gm v Hgm Hv Hin.
  destruct (proj1 (returns_run _ _ _) (Hm gm v Hgm Hv)) as (r & s & E & Hf & HQ). apply returns_run.
  destruct (member_settled T gm s Hin) as [Hn Hmem]; [by eapply Hk|done|]. by exists r, s.
Qed.

(** ** Looking a group up *)

Definition group_named (name : list Z) (r : option positive) : Prop :=
  match r with
  | Some p => p ∈ w_all w ∧ name_of (gmem T) p = Some name
  | None => ∀ p, p ∈ w_all w → name_of (gmem T) p ≠ Some name
  end.

Lemma get_group_ex_ok name :
  (length name < FDFS_GROUP_NAME_SIZE)%nat →
  returns (tracker_mem_get_group_ex name) T (λ r T', T' = T ∧ group_named name r).
Proof.
  intros Hlen. unfold tracker_mem_get_group_ex. apply returns_bind. unfold strcpy_to. rewrite decide_True by done.
  apply returns_ret. gstep. destruct (gok_sorted _ _ Hok) as [rest Hs]. rewrite Hs, (gok_count _ _ Hok).
  rewrite <- (Permutation_length (gok_perm _ _ Hok)).
  destruct (find_entry_sorted (name_of (gmem T)) (w_sorted w) rest name (gok_order _ _ Hok) (member_keys Hok)) as (r & Hr & Hspec).
  apply returns_bind, (returns_deref _ _ r); [exact Hr|]. destruct r as [i|].
  - destruct Hspec as (p & Hi & Hp). apply returns_bind, (returns_deref _ _ p).
    { rewrite lookup_app_l, list_lookup_fmap, Hi by (rewrite length_fmap; by eapply lookup_lt_Some). done. }
    apply returns_ret. split; [done|]. split; [|done]. apply (sorted_all Hok). by eapply list_elem_of_lookup_2.
  - apply returns_ret. split; [done|]. intros p Hp. by apply Hspec, (sorted_all Hok).
Qed.

End in_group.

(** ** The table of groups as a map *)

(** The groups in the order in which they were added. *)
Definition all_groups (T : tracker_state) : list positive :=
  default [] (entries (groups (g_groups T)) (gs_count (g_groups T))).

Lemma table_groups w T : groups_ok w T → all_groups T = w_all w.
Proof. intros Hok. unfold all_groups. by rewrite (gok_all _ _ Hok), (gok_count _ _ Hok), fmap_app, entries_spec. Qed.

Section table.
Context {V : Type} (F : group_state → V).

Definition group_entry (T : tracker_state) (p : positive) : option (list Z * V) :=
  gm ← gmem T !! p; Some (group_name (m_group gm), F (enter T gm)).

(** From the names of the groups to what [F] says of them. *)
Definition group_table (T : tracker_state) : gmap (list Z) V :=
  list_to_map (omap (group_entry T) (all_groups T)).

Lemma omap_table (f : positive → option (list Z * V)) l k y :
  (∀ p q a b, p ∈ l → q ∈ l → f p = Some (k, a) → f q = Some (k, b) → a = b) →
  (list_to_map (omap f l) : gmap (list Z) V) !! k = Some y ↔ ∃ p, p ∈ l ∧ f p = Some (k, y).
Proof.
  induction l as [|p l IH]; intros Hfun; cbn [omap list_omap].
  { split; [done|]. intros (q & Hq & _). set_solver. }
  assert (IH' : (list_to_map (omap f l) : gmap (list Z) V) !! k = Some y ↔ ∃ p, p ∈ l ∧ f p = Some (k, y)).
  { apply IH. intros q r a b Hq Hr. apply Hfun; by right. }
  destruct (f p) as [[k' y']|] eqn:Ef.
  - cbn [list_to_map foldr fst snd]. destruct (decide (k' = k)) as [->|Hne].
    + cbn. rewrite lookup_insert_eq. split; [intros [= <-]; exists p; split; [by left|done]|].
      intros (q & Hq & Hfq). f_equal. apply (Hfun p q y' y); [by left|done|done|done].
    + cbn. rewrite lookup_insert_ne by done. etrans; [exact IH'|].
      split; intros (q & Hq & Hfq); exists q; (split; [|done]); [by right|].
      apply elem_of_cons in Hq as [->|Hq]; [congruence|done].
  - etrans; [exact IH'|]. split; intros (q & Hq & Hfq); exists q; (split; [|done]); [by right|].
    apply elem_of_cons in Hq as [->|Hq]; [congruence|done].
Qed.


Lemma group_table_spec w T k y : groups_ok w T →
  group_table T !! k = Some y ↔
  ∃ p gm, p ∈ w_all w ∧ gmem T !! p = Some gm ∧ group_name (m_group gm) = k ∧ F (enter T gm) = y.
Proof.
  intros Hok. unfold group_table. rewrite (table_groups w T Hok), omap_table.
  - unfold group_entry. split.
    + intros (p & Hp & He). destruct (gmem T !! p) as [gm|] eqn:E; [|done]. injection He as <- <-. by exists p, gm.
    + intros (p & gm & Hp & Hgm & <- & <-). exists p. by rewrite Hgm.
  - unfold group_entry. intros p q a b Hp Hq Ha Hb.
    destruct (gmem T !! p) as [gm|] eqn:E; [|done]. destruct (gmem T !! q) as [gm'|] eqn:E'; [|done].
    injection Ha as Ha <-. injection Hb as Hb <-.
    assert (p = q) as ->; [|congruence].
    apply (name_inj Hok p q (group_name (m_group gm))); [done|done|by rewrite (name_of_member p gm)|].
    rewrite (name_of_member q gm') by done. congruence.
Qed.

Lemma group_table_lookup w T p gm : groups_ok w T → p ∈ w_all w → gmem T !! p = Some gm →
  group_table T !! group_name (m_group gm) = Some (F (enter T gm)).
Proof. intros Hok Hp Hgm. apply (group_table_spec w); [done|]. by exists p, gm. Qed.

Lemma group_table_none w T k : groups_ok w T →
  (∀ p, p ∈ w_all w → name_of (gmem T) p ≠ Some k) → group_table T !! k = None.
Proof.
  intros Hok Hn. destruct (group_table T !! k) as [y|] eqn:E; [|done]. exfalso.
  apply (group_table_spec w) in E as (p & gm & Hp & Hgm & Hk & _); [|done]. apply (Hn p Hp).
  by rewrite (name_of_member p gm), Hk.
Qed.

End table.

(** One group changes. *)
Lemma group_table_leave {V} (F : group_state → V) w T p gm s :
  (∀ g ds gl gl', F {| grp := g; details := ds; glob := gl |} = F {| grp := g; details := ds; glob := gl' |}) →
  groups_ok w T → groups_ok w (leave T p s) → p ∈ w_all w → gmem T !! p = Some gm →
  group_name (grp s) = group_name (m_group gm) →
  group_table F (leave T p s) = <[group_name (m_group gm) := F s]> (group_table F T).
Proof.
  intros HF Hok Hok' Hp Hgm Hn. destruct s as [g ds gl]. cbn in Hn. apply map_eq. intros k.
  assert (Hlk : gmem (leave T p {| grp := g; details := ds; glob := gl |}) !! p = Some {| m_group := g; m_details := ds |})
    by (cbn; by rewrite lookup_insert_eq).
  destruct (decide (group_name (m_group gm) = k)) as [<-|Hne].
  - rewrite lookup_insert_eq, <- Hn. apply (group_table_lookup F w _ p {| m_group := g; m_details := ds |} Hok' Hp Hlk).
  - rewrite lookup_insert_ne by done. apply option_eq. intros y.
    rewrite (group_table_spec F w _ k y Hok'), (group_table_spec F w T k y Hok).
    assert (Hkey : ∀ q gm', gmem T !! q = Some gm' → group_name (m_group gm') = k → p ≠ q) by by intros q gm' Hq Hk ->; simplify_eq.
    split; intros (q & gm' & Hq & Hgm' & Hk & Hy); exists q, gm'.
    + cbn in Hgm'. destruct (decide (p = q)) as [->|Hpq]; [rewrite lookup_insert_eq in Hgm'; by simplify_eq/=|].
      rewrite lookup_insert_ne in Hgm' by done. split; [done|]. split; [done|]. split; [done|]. rewrite <- Hy. apply HF.
    + cbn. rewrite lookup_insert_ne by by apply (Hkey q gm'). split; [done|]. split; [done|]. split; [done|].
      rewrite <- Hy. apply HF.
Qed.

(** ** Adding a group *)

Section add.
Context (env : nat → answer) (cfg : groups_config).

Lemma malloc_groups_ok n T :
  returns (malloc_groups env n) T (λ r T',
    g_groups T' = g_groups T ∧ (if c_true r.1 then oom env else length r.2 = n) ∧ NoDup r.2 ∧
    (∀ p, p ∈ r.2 → gmem T !! p = None ∧ gmem T' !! p = Some new_group) ∧
    (∀ p, p ∉ r.2 → gmem T' !! p = gmem T !! p)).
Proof.
  revert T. induction n as [|n IH]; intros T; cbn [malloc_groups].
  { apply returns_ret. cbn. split; [done|]. split; [done|]. split; [constructor|]. split; [set_solver|done]. }
  gstep. destruct (c_true (malloc_result a)) eqn:Er.
  { apply returns_ret. cbn. split; [done|]. split; [rewrite Er; auto|].
    split; [constructor|]. split; [set_solver|done]. }
  gstep. gstep. cbn [gmem g_groups]. set (p := fresh _).
  assert (Hp : gmem T !! p = None) by (apply not_elem_of_dom, is_fresh).
  apply returns_bind. eapply returns_mono; [apply IH|]. cbn [gmem g_groups fst snd].
  intros [r l] T' (Hg & Hlen & Hnd & Hin & Hout). apply returns_ret. cbn in Hg, Hlen, Hnd, Hin, Hout |- *.
  assert (Hpl : p ∉ l).
  { intros Hpl. destruct (Hin p Hpl) as [Hpn _]. by rewrite lookup_insert_eq in Hpn. }
  split; [done|]. split; [destruct (c_true r); [done|by cbn; f_equal]|]. split; [by constructor|]. split.
  - intros q [->|Hq]%elem_of_cons; [split; [done|]|].
    + by rewrite Hout, lookup_insert_eq.
    + destruct (Hin q Hq) as [Hn Hz]. rewrite lookup_insert_ne in Hn by (by intros ->). done.
  - intros q Hq. rewrite Hout by set_solver. rewrite lookup_insert_ne; [done|]. intros ->. set_solver.
Qed.

(** Room for one more group: without memory a tracker whose arrays are full
    frees the groups in use. *)
Definition has_room (T : tracker_state) : Prop :=
  (gs_count (g_groups T) < gs_alloc_size (g_groups T))%nat ∨ ¬ oom env.

Definition grown_groups (w : groups_view) (T : tracker_state) (r : Z) (T' : tracker_state) : Prop :=
  r = 0 ∧ (∀ p, p ∈ w_all w → gmem T' !! p = gmem T !! p) ∧
  ∃ spare, groups_ok {| w_all := w_all w; w_spare := spare; w_sorted := w_sorted w |} T' ∧ spare ≠ [].

Lemma sorted_le w T : groups_ok w T → (length (w_sorted w) ≤ length (sorted_groups (g_groups T)))%nat.
Proof. intros Hok. destruct (gok_sorted _ _ Hok) as [rest ->]. rewrite length_app, length_fmap. lia. Qed.

(** The new arrays. *)
Lemma groups_ok_grown w T T' made n :
  groups_ok w T → (∀ p, p ∉ made → gmem T' !! p = gmem T !! p) → NoDup made →
  (∀ p, p ∈ made → gmem T !! p = None ∧ gmem T' !! p = Some new_group) →
  n = length (w_all w ++ made) → (length (w_all w) ≤ n)%nat →
  gs_count (g_groups T') = gs_count (g_groups T) → pStoreGroup (g_groups T') = pStoreGroup (g_groups T) →
  gs_alloc_size (g_groups T') = n → groups (g_groups T') = (Some <$> w_all w) ++ (Some <$> made) →
  sorted_groups (g_groups T') = (Some <$> w_sorted w) ++ replicate (n - length (w_all w)) None →
  groups_ok {| w_all := w_all w; w_spare := made; w_sorted := w_sorted w |} T'.
Proof.
  intros Hok Hout Hnd Hin Hn Hle Hc Hst Hal Hgr Hso.
  assert (Hnew : ∀ p, p ∈ w_all w → p ∉ made).
  { intros p Hp Hm. destruct (Hin p Hm) as [Hnone _]. destruct (gok_members _ _ Hok p Hp) as (gm & Hgm & _). congruence. }
  assert (Hlen := Permutation_length (gok_perm _ _ Hok)). assert (Hsa := @sorted_all _ _ Hok).
  destruct Hok. constructor; cbn; try assumption; try congruence.
  - by rewrite Hgr, fmap_app.
  - apply NoDup_app. apply NoDup_app in gok_nodup0 as (Ha & _ & _). split; [done|]. by split.
  - rewrite Hso. by eexists.
  - rewrite Hso, Hal, length_app, length_fmap, length_replicate. lia.
  - apply (sorted_by_key_ext (name_of (gmem T))); [|done]. intros p Hp. unfold name_of. rewrite Hout; [done|].
    by apply Hnew, Hsa.
  - intros p Hp. unfold in_use. rewrite Hout by by apply Hnew. by apply gok_members0.
  - intros p Hp. destruct (Hin p Hp) as [_ ->]. eexists. split; [done|]. apply blank_zero.
  - intros p. rewrite Hst. apply gok_store0.
Qed.

Lemma realloc_groups_ok w T :
  groups_ok w T → (gs_alloc_size (g_groups T) ≤ gs_count (g_groups T))%nat → ¬ oom env →
  returns (tracker_mem_realloc_groups env) T (grown_groups w T).
Proof.
  intros Hok Hfull Hoom. unfold tracker_mem_realloc_groups. gstep. gstep.
  destruct (c_true (malloc_result a)); [by destruct Hoom; auto|].
  apply returns_bind. eapply returns_mono; [apply malloc_groups_ok|]. cbn [g_groups gmem].
  intros [err made] T1 (Hg1 & Hlen & Hnd & Hin & Hout). cbn in Hg1, Hlen, Hin, Hout |- *.
  destruct (c_true err); [by destruct Hoom|].
  assert (Hn : w_spare w = []).
  { apply length_zero_iff_nil. rewrite (gok_alloc _ _ Hok), (gok_count _ _ Hok), length_app in Hfull. lia. }
  assert (Hcount := gok_count _ _ Hok). assert (Halloc := gok_alloc _ _ Hok). rewrite Hn, app_nil_r in Halloc.
  apply returns_bind, (returns_deref _ _ (Some <$> w_all w)).
  { unfold memcpy_entries. rewrite (gok_all _ _ Hok), Hn, app_nil_r, Hcount. rewrite decide_True by (rewrite length_fmap; lia).
    rewrite take_ge by (rewrite length_fmap; lia). by rewrite Nat.sub_diag, app_nil_r. }
  gstep. destruct (c_true (malloc_result _)); [by destruct Hoom; auto|].
  destruct (gok_sorted _ _ Hok) as [rest Hrest].
  assert (Hps := Permutation_length (gok_perm _ _ Hok)).
  apply returns_bind, (returns_deref _ _ ((Some <$> w_sorted w) ++ replicate (length made) None)).
  { unfold memcpy_entries. rewrite Hrest, Hcount, <- Hps.
    rewrite decide_True by (rewrite length_app, length_fmap; unfold TRACKER_MEM_ALLOC_ONCE; lia).
    rewrite take_app_length' by (by rewrite length_fmap). do 3 f_equal. lia. }
  gstep. apply returns_ret. split; [done|]. cbn [gmem].
  assert (Hold : ∀ p, p ∈ w_all w → p ∉ made).
  { intros p Hp Hm. destruct (Hin p Hm) as [Hnone _]. destruct (gok_members _ _ Hok p Hp) as (gm & Hgm & _). congruence. }
  split; [intros p Hp; by apply Hout, Hold|]. exists made. split.
  - apply (groups_ok_grown w T _ made (gs_alloc_size (g_groups T) + TRACKER_MEM_ALLOC_ONCE)); cbn; rewrite ?Hg1; try done.
    + rewrite length_app. lia.
    + lia.
    + f_equal. f_equal. lia.
  - intros ->. cbn in Hlen. unfold TRACKER_MEM_ALLOC_ONCE in Hlen. lia.
Qed.

(** A spare object changes and stays blank. *)
Lemma groups_ok_spare w T p g ds gl :
  groups_ok w T → p ∈ w_spare w → blank_group g → groups_ok w (leave T p {| grp := g; details := ds; glob := gl |}).
Proof.
  intros Hok Hp Hb. assert (Hne : ∀ q, q ∈ w_all w → p ≠ q) by (intros q Hq ->; by apply (member_not_spare Hok q Hq)).
  assert (Hsa := @sorted_all _ _ Hok). destruct Hok. constructor; try assumption.
  - apply (sorted_by_key_ext (name_of (gmem T))); [|assumption]. intros q Hq%Hsa. unfold name_of. cbn.
    by rewrite lookup_insert_ne by by apply Hne.
  - intros q Hq. unfold in_use. cbn. rewrite lookup_insert_ne by by apply Hne. by apply gok_members0.
  - intros q Hq. cbn. destruct (decide (p = q)) as [<-|Hpq]; [rewrite lookup_insert_eq; by eexists|].
    rewrite lookup_insert_ne by done. by apply gok_spare0.
Qed.

(** What [tracker_mem_add_group_ex] does: nothing when it fails. *)
Definition group_added (w : groups_view) (T : tracker_state) (name : list Z) (x : Z * option positive * bool)
    (T' : tracker_state) : Prop :=
  let '(r, pp, bInserted) := x in
  ∃ w', groups_ok w' T' ∧ (∀ p, p ∈ w_all w → gmem T' !! p = gmem T !! p) ∧
    if c_true r then w_all w' = w_all w ∧ oom env
    else ∃ p, pp = Some p ∧ p ∈ w_all w' ∧
      if bInserted : bool then
        w_all w' = w_all w ++ [p] ∧ (∀ q, q ∈ w_all w → name_of (gmem T) q ≠ Some name) ∧
        ∃ gm spare, gmem T' !! p = Some gm ∧ group_name (m_group gm) = name ∧ store_path_count (m_group gm) = 0 ∧
          group_ok (empty_view spare) (m_group gm) (m_details gm)
      else w_all w' = w_all w ∧ name_of (gmem T) p = Some name.

(** The new group behind the others, and among them in the order of names. *)
Lemma insert_group_ok w T p sp gm name spare :
  groups_ok w T → w_spare w = p :: sp → gmem T !! p = Some gm → group_name (m_group gm) = name →
  (length name < FDFS_GROUP_NAME_SIZE)%nat → group_ok (empty_view spare) (m_group gm) (m_details gm) →
  store_path_count (m_group gm) = 0 → (∀ q, q ∈ spare → m_details gm !! q = Some zero_detail) →
  (∀ q, q ∈ w_all w → name_of (gmem T) q ≠ Some name) →
  ∃ sorted l, insert_from (name_of (gmem T)) p name (gs_count (g_groups T)) (sorted_groups (g_groups T)) = Some sorted ∧
    ∀ store, (∀ q, store = Some q → q ∈ w_all w ++ [p]) →
    groups_ok {| w_all := w_all w ++ [p]; w_spare := sp; w_sorted := l |}
      (T <| g_groups ::= λ gs, gs <| sorted_groups := sorted |> <| gs_count ::= S |> <| pStoreGroup := store |> |>).
Proof.
  intros Hok Hsp Hgm Hname Hlen Hgok Hspc Hzero Hnew.
  assert (Hkey : name_of (gmem T) p = Some name) by by rewrite (name_of_member p gm Hgm), Hname.
  destruct (gok_sorted _ _ Hok) as [rest Hrest]. assert (Hperm := gok_perm _ _ Hok).
  assert (Hle : (length (w_sorted w) < length (sorted_groups (g_groups T)))%nat).
  { rewrite (Permutation_length Hperm), (gok_sorted_len _ _ Hok), (gok_alloc _ _ Hok), length_app, Hsp. cbn. lia. }
  destruct rest as [|e rest]; [rewrite Hrest, app_nil_r, length_fmap in Hle; lia|].
  destruct (insert_from_spec (name_of (gmem T)) p name (w_sorted w) e rest) as (l & El & Hpl & Hsl);
    [apply Hok|apply (member_keys Hok)|done|intros q Hq; by apply Hnew, (sorted_all Hok)|].
  exists ((Some <$> l) ++ rest), l. split.
  { by rewrite Hrest, (gok_count _ _ Hok), <- (Permutation_length Hperm). }
  intros store Hstore. assert (Happ : (w_all w ++ [p]) ++ sp = w_all w ++ w_spare w) by by rewrite Hsp, <- app_assoc.
  assert (Hll : length l = S (length (w_sorted w))) by by rewrite (Permutation_length Hpl).
  assert (Hal := gok_sorted_len _ _ Hok). rewrite Hrest in Hal.
  destruct Hok. constructor; cbn; try done.
  - by rewrite gok_all0, Happ.
  - by rewrite gok_alloc0, Happ.
  - rewrite length_app. cbn. lia.
  - by rewrite Happ.
  - by eexists.
  - rewrite <- Hal, !length_app, !length_fmap. cbn. lia.
  - rewrite Hpl, Hperm. apply Permutation_cons_append.
  - intros q [Hq|Hq%list_elem_of_singleton]%elem_of_app; [by apply gok_members0|]. subst q. exists gm. split; [done|].
    split; [by rewrite Hname|]. split; [by eexists|]. rewrite Hspc. split; [lia|].
    intros r. rewrite (ok_all _ _ _ Hgok). cbn. intros (r' & [= <-] & Hr)%list_elem_of_fmap.
    exists zero_detail. split; [by apply Hzero|by apply sized_zero].
  - intros q Hq. apply gok_spare0. rewrite Hsp. by right.
Qed.

Lemma add_group_ex_ok w T name :
  groups_ok w T → (length name < FDFS_GROUP_NAME_SIZE)%nat → has_room T →
  returns (tracker_mem_add_group_ex env cfg name) T (group_added w T name).
Proof.
  intros Hok Hlen Hroom. unfold tracker_mem_add_group_ex. apply returns_bind.
  eapply returns_mono; [by apply (get_group_ex_ok Hok)|]. intros [p|] T0 [-> Hnamed]; cbn [group_named] in Hnamed.
  { destruct Hnamed as [Hp Hn]. apply returns_ret. exists w. split; [done|]. split; [done|]. by exists p. }
  gstep. apply returns_bind.
  eapply (returns_mono _ _ (grown_groups w T)).
  { case_decide as Hfull.
    - apply realloc_groups_ok; [done|done|]. destruct Hroom; [lia|done].
    - apply returns_ret. split; [done|]. split; [done|]. exists (w_spare w). split; [by destruct w|].
      intros Hn. apply Hfull. rewrite (gok_count _ _ Hok), (gok_alloc _ _ Hok), Hn, app_nil_r. done. }
  intros r T1 (-> & Hold & [|p sp] & Hok1 & Hsp); [done|]. cbn [c_true Z.eqb negb]. gstep.
  set (w1 := {| w_all := w_all w; w_spare := p :: sp; w_sorted := w_sorted w |}) in *.
  assert (Hps : p ∈ w_spare w1) by by left. destruct (gok_spare _ _ Hok1 p Hps) as (gm & Hgm & Hblank).
  apply returns_bind, (returns_deref _ _ p).
  { rewrite (gok_all _ _ Hok1), (gok_count _ _ Hok1). unfold w1. cbn [w_all w_spare]. rewrite fmap_app.
    rewrite lookup_app_r, length_fmap, Nat.sub_diag by (rewrite length_fmap; lia). done. }
  assert (Hold2 : ∀ s q, q ∈ w_all w → gmem (leave T1 p s) !! q = gmem T !! q).
  { intros s q Hq. cbn. rewrite lookup_insert_ne; [by apply Hold|]. intros ->. by apply (member_not_spare Hok1 q Hq). }
  apply returns_bind, (returns_in_group T1 p gm); [done|].
  eapply returns_mono; [by apply init_group_ok|]. intros r s (Hhead & Hmade & Hoom). cbn [enter grp] in Hhead.
  destruct (c_true r) eqn:Er.
  { apply returns_ret. exists w1. split; [destruct s; apply groups_ok_spare; [done|done|by eapply blank_head]|].
    split; [by apply Hold2|]. rewrite Er. split; [done|]. by apply Hoom, c_true_spec. }
  destruct Hmade as (spare & Hgok & _ & Hzero); [unfold c_true in Er; by apply Z.eqb_eq, negb_false_iff|].
  apply returns_bind. unfold strcpy_to. rewrite decide_True by done. apply returns_ret.
  apply returns_bind, (returns_in_group _ p {| m_group := grp s; m_details := details s |}); [cbn; by rewrite lookup_insert_eq|].
  apply returns_upd_grp. match goal with |- context [leave (leave _ _ _) p ?s'] => set (s2 := s') end.
  assert (Hspc : store_path_count (grp s2) = 0).
  { destruct Hhead as (_ & _ & _ & _ & _ & E). etrans; [exact E|]. apply Hblank. }
  set (T2 := leave (leave T1 p s) p s2). gstep.
  assert (Hok2 : groups_ok w1 T2).
  { assert (H2 : groups_ok w1 (leave T1 p s)) by (destruct s; apply groups_ok_spare; [done|done|by eapply blank_head]).
    apply (groups_ok_spare w1); [exact H2|done|]. apply blank_head in Hhead; [|done]. exact Hhead. }
  assert (Hold3 : ∀ q, q ∈ w_all w → gmem T2 !! q = gmem T !! q).
  { intros q Hq. cbn. rewrite lookup_insert_ne; [by apply Hold2|]. intros ->. by apply (member_not_spare Hok1 q Hq). }
  destruct (insert_group_ok w1 T2 p sp {| m_group := grp s2; m_details := details s2 |} name spare) as (sorted & l & El & Hins);
    [done|done|cbn; by rewrite lookup_insert_eq|done|done|by destruct Hgok; constructor|exact Hspc|exact Hzero| |].
  { intros q Hq. unfold name_of. rewrite Hold3 by done. by apply Hnamed. }
  apply returns_bind, (returns_deref _ _ sorted); [exact El|]. gstep. apply returns_ret.
  eexists. split; [apply Hins|].
  { intros q. cbn. destruct (pStoreGroup _) as [q'|] eqn:Est.
    - intros [= <-]. apply elem_of_app. left. apply (gok_store _ _ Hok1). exact Est.
    - destruct (_ && _); [|done]. intros [= <-]. apply elem_of_app. right. by left. }
  split; [exact Hold3|]. exists p. split; [done|]. split; [cbn; apply elem_of_app; right; by left|].
  split; [done|]. split; [done|]. eexists _, spare. split; [cbn; by rewrite lookup_insert_eq|]. split; [done|].
  split; [exact Hspc|]. by destruct Hgok; constructor.
Qed.

End add.
