(* ===== verification/TrackerStore.v ===== *)
(** * tracker/tracker_service.c: where an upload goes

    [tracker_deal_service_query_storage]: the group (the one asked for, the
    next one in turn that has space, or the one of the configuration), the
    server of the group and the store path of the server, with the tests of
    the reserved space of tracker/fdfs_shared_func.c. *)

From S2P Require Import Prelude CLib CFloat FdfsShared SortedArray SharedFunc TrackerMem TrackerGroups.
#[local] Open Scope Z_scope.

(** ** Reserved space (tracker/fdfs_shared_func.c) *)

Definition fdfs_check_reserved_space (pGroup : FDFSGroupInfo) (pStorageReservedSpace : FDFSStorageReservedSpace) : bool :=
  match pStorageReservedSpace with
  | ReservedMb mb => mb <? g_free_mb pGroup
  | ReservedRatio ratio =>
      if g_total_mb pGroup =? 0 then false
      else double_lt ratio (double_div (double_of_Z (g_free_mb pGroup)) (double_of_Z (g_total_mb pGroup)))
  end.

Definition fdfs_check_reserved_space_trunk (pGroup : FDFSGroupInfo) (pStorageReservedSpace : FDFSStorageReservedSpace)
    : bool :=
  let free := s64 (g_free_mb pGroup + trunk_free_mb pGroup) in
  match pStorageReservedSpace with
  | ReservedMb mb => mb <? free
  | ReservedRatio ratio =>
      if g_total_mb pGroup =? 0 then false
      else double_lt ratio (double_div (double_of_Z free) (double_of_Z (g_total_mb pGroup)))
  end.

(** [rs.mb]; what the union holds under a ratio is not looked at by
    [fdfs_check_reserved_space_path]. *)
Definition rs_mb (r : FDFSStorageReservedSpace) : Z :=
  match r with ReservedMb mb => mb | ReservedRatio _ => 0 end.

(** ** The query *)

Definition TRACKER_PROTO_CMD_SERVICE_QUERY_STORE_WITHOUT_GROUP_ONE : Z := 101.
Definition TRACKER_PROTO_CMD_SERVICE_QUERY_STORE_WITH_GROUP_ONE : Z := 104.
Definition TRACKER_PROTO_CMD_SERVICE_QUERY_STORE_WITHOUT_GROUP_ALL : Z := 106.
Definition TRACKER_PROTO_CMD_SERVICE_QUERY_STORE_WITH_GROUP_ALL : Z := 107.

Definition with_group (cmd : Z) : bool :=
  (cmd =? TRACKER_PROTO_CMD_SERVICE_QUERY_STORE_WITH_GROUP_ONE) ||
  (cmd =? TRACKER_PROTO_CMD_SERVICE_QUERY_STORE_WITH_GROUP_ALL).
Definition for_one (cmd : Z) : bool :=
  (cmd =? TRACKER_PROTO_CMD_SERVICE_QUERY_STORE_WITH_GROUP_ONE) ||
  (cmd =? TRACKER_PROTO_CMD_SERVICE_QUERY_STORE_WITHOUT_GROUP_ONE).

(** The reply: the group, the addresses of the servers, their port, the
    byte of the store path. *)
Record store_reply := {
  r_group_name : list Z;
  r_ip_addrs : list (list Z);
  r_storage_port : Z;
  r_write_path_index : Z;
}.

Section query.
Context (cfg : groups_config).
#[local] Notation trunk_used := (g_if_use_trunk_file (t_config cfg)).

Definition check_space (g : FDFSGroupInfo) : bool := fdfs_check_reserved_space g (reserved_space cfg).
Definition check_space_trunk (g : FDFSGroupInfo) : bool := fdfs_check_reserved_space_trunk g (reserved_space cfg).

(** *** The group *)

Definition select_given_group (group_name : list Z) : prog tracker_state (Z + positive) :=
  pStoreGroup ← tracker_mem_get_group_ex group_name;
  match pStoreGroup with
  | None => mret (inl ENOENT)
  | Some p =>
      g ← get_group p;
      if decide (active_count g = 0)%nat then mret (inl ENOENT)
      else if negb (check_space g) && negb (trunk_used && check_space_trunk g) then mret (inl ENOSPC)
      else mret (inr p)
  end.

(** [n] groups from [sorted_groups + i] on: the first active one that
    passes the test, and whether an active one was seen. *)
Fixpoint scan_groups (test : FDFSGroupInfo → bool) (n i : nat) (bHaveActiveServer : bool)
    : prog tracker_state (bool * option (nat * positive)) :=
  match n with
  | O => mret (bHaveActiveServer, None)
  | S n =>
      gs ← get_groups;
      p ← deref (mjoin (sorted_groups gs !! i));
      g ← get_group p;
      if decide (active_count g = 0)%nat then scan_groups test n (S i) bHaveActiveServer
      else if test g then mret (true, Some (i, p))
      else scan_groups test n (S i) true
  end.

Definition found_group (i : nat) (p : positive) : prog tracker_state (Z + positive) :=
  upd_groups (λ gs, gs <| current_write_group := i |>);;
  mret (inr p).

(** The groups behind the one in turn, those before it, and all of them
    with the space in trunk files. *)
Definition scan_all_groups (count write_group_index : nat) (bHaveActiveServer : bool) : prog tracker_state (Z + positive) :=
  r ← scan_groups check_space (count - S write_group_index) (S write_group_index) bHaveActiveServer;
  match r with
  | (_, Some (i, p)) => found_group i p
  | (have, None) =>
      r ← scan_groups check_space write_group_index 0 have;
      match r with
      | (_, Some (i, p)) => found_group i p
      | (have, None) =>
          if negb have then mret (inl ENOENT)
          else if negb trunk_used then mret (inl ENOSPC)
          else
            r ← scan_groups check_space_trunk count 0 have;
            match r with
            | (_, Some (i, p)) => found_group i p
            | (_, None) => mret (inl ENOSPC)
            end
      end
  end.

Definition select_next_group : prog tracker_state (Z + positive) :=
  gs ← get_groups;
  let write_group_index :=
    if decide (gs_count gs ≤ current_write_group gs)%nat then 0%nat else current_write_group gs in
  p ← deref (mjoin (sorted_groups gs !! write_group_index));
  g ← get_group p;
  let bHaveActiveServer := bool_decide (0 < active_count g)%nat in
  if bHaveActiveServer &&
     (check_space g || trunk_used && (store_lookup cfg =? FDFS_STORE_LOOKUP_LOAD_BALANCE) && check_space_trunk g)
  then mret (inr p)
  else scan_all_groups (gs_count gs) write_group_index bHaveActiveServer.

Definition advance_write_group : prog tracker_state unit :=
  if store_lookup cfg =? FDFS_STORE_LOOKUP_ROUND_ROBIN then
    upd_groups (λ gs, gs <| current_write_group :=
      if decide (gs_count gs ≤ S (current_write_group gs))%nat then 0%nat else S (current_write_group gs) |>)
  else mret tt.

Definition select_configured_group : prog tracker_state (Z + positive) :=
  gs ← get_groups;
  match pStoreGroup gs with
  | None => mret (inl ENOENT)
  | Some p =>
      g ← get_group p;
      if decide (active_count g = 0)%nat then mret (inl ENOENT)
      else if negb (check_space g) && negb (trunk_used && check_space_trunk g) then mret (inl ENOSPC)
      else mret (inr p)
  end.

Definition select_group (cmd : Z) (body : list Z) : prog tracker_state (Z + positive) :=
  if with_group cmd then select_given_group (c_string body)
  else if (store_lookup cfg =? FDFS_STORE_LOOKUP_ROUND_ROBIN) || (store_lookup cfg =? FDFS_STORE_LOOKUP_LOAD_BALANCE) then
    r ← select_next_group;
    match r with
    | inl err => mret (inl err)
    | inr p => advance_write_group;; mret (inr p)
    end
  else if store_lookup cfg =? FDFS_STORE_LOOKUP_SPEC_GROUP then select_configured_group
  else mret (inl EINVAL).

(** *** The server and its path *)

Definition select_server (one : bool) : prog group_state (option positive) :=
  if one then tracker_get_writable_storage (t_config cfg)
  else g ← get_grp; p ← deref (mjoin (active_servers g !! 0%nat)); mret (Some p).

(** The test of path [i] of a server; [extra_mb] counts as free. *)
Definition server_path_has_space (d : FDFSStorageDetail) (avg_reserved_mb extra_mb : Z) (i : nat) : option bool :=
  total ← path_total_mbs d ≫= (.!! i);
  free ← path_free_mbs d ≫= (.!! i);
  Some (fdfs_check_reserved_space_path total (s64 (free + extra_mb)) avg_reserved_mb (reserved_space cfg)).

(** [n] paths from [i] on: the first that passes the test. *)
Fixpoint scan_paths (d : FDFSStorageDetail) (avg_reserved_mb extra_mb : Z) (n i : nat) : option (option nat) :=
  match n with
  | O => Some None
  | S n =>
      ok ← server_path_has_space d avg_reserved_mb extra_mb i;
      if ok : bool then Some (Some i) else scan_paths d avg_reserved_mb extra_mb n (S i)
  end.

(** [write_path_index], or the errno.  In the last search a path that is
    found is stored, and the test [i == write_path_index] that follows
    holds whether one was found or not. *)
Definition select_path (p : positive) : prog group_state (Z + Z) :=
  g ← get_grp;
  d ← get_server p;
  let count := Z.to_nat (store_path_count g) in
  let avg_reserved_mb := Z.quot (rs_mb (reserved_space cfg)) (store_path_count g) in
  let write_path_index := if store_path_count g <=? current_write_path d then 0 else current_write_path d in
  let set_path i := upd_server p (λ d, d <| current_write_path := Z.of_nat i |>) in
  ok ← deref (if write_path_index <? 0 then None else server_path_has_space d avg_reserved_mb 0 (Z.to_nat write_path_index));
  if ok : bool then mret (inr write_path_index)
  else
    r ← deref (scan_paths d avg_reserved_mb 0 count 0);
    match r with
    | Some i => set_path i;; mret (inr (Z.of_nat i))
    | None =>
        if negb trunk_used then mret (inl ENOSPC)
        else
          let start := Z.to_nat write_path_index in
          r ← deref (scan_paths d avg_reserved_mb (trunk_free_mb g) (count - start) start);
          match r with
          | Some i => set_path i;; mret (inr (Z.of_nat i))
          | None =>
              r ← deref (scan_paths d avg_reserved_mb (trunk_free_mb g) start 0);
              match r with
              | Some i => set_path i;; mret (inl ENOSPC)
              | None => mret (inl ENOSPC)
              end
          end
    end.

Definition advance_path (p : positive) : prog group_state unit :=
  if store_path cfg =? FDFS_STORE_PATH_ROUND_ROBIN then
    g ← get_grp;
    upd_server p (λ d, d <| current_write_path :=
      let next := s32 (current_write_path d + 1) in
      if store_path_count g <=? next then 0 else next |>)
  else mret tt.

(** The addresses of servers. *)
Fixpoint ip_addrs_of (l : list positive) : prog group_state (list (list Z)) :=
  match l with
  | [] => mret []
  | p :: l => d ← get_server p; r ← ip_addrs_of l; mret (ip_addr d :: r)
  end.

(** In the group that was chosen. *)
Definition query_group (one : bool) : prog group_state (Z + store_reply) :=
  g ← get_grp;
  if store_path_count g <=? 0 then mret (inl ENOENT)
  else
    pStorageServer ← select_server one;
    match pStorageServer with
    | None => mret (inl ENOENT)
    | Some p =>
        r ← select_path p;
        match r with
        | inl err => mret (inl err)
        | inr write_path_index =>
            advance_path p;;
            g ← get_grp;
            servers ← (if one then mret [p] else servers_in (active_servers g) (active_count g));
            ips ← ip_addrs_of servers;
            if decide (length servers = 0)%nat then mret (inl ENOENT)
            else
              mret (inr {| r_group_name := group_name g; r_ip_addrs := ips; r_storage_port := storage_port g;
                           r_write_path_index := u8 write_path_index |})
        end
    end.

Definition tracker_deal_service_query_storage (cmd : Z) (body : list Z) : prog tracker_state (Z + store_reply) :=
  let expect_pkg_len := if with_group cmd then FDFS_GROUP_NAME_MAX_LEN else 0%nat in
  if negb (length body =? expect_pkg_len)%nat then mret (inl EINVAL)
  else
    gs ← get_groups;
    if decide (gs_count gs = 0)%nat then mret (inl ENOENT)
    else
      pStoreGroup ← select_group cmd body;
      match pStoreGroup with
      | inl err => mret (inl err)
      | inr p => in_group p (query_group (for_one cmd))
      end.

End query.
