(* ===== verification/TrackerJoin.v ===== *)
(** * A storage server joins

    [tracker_deal_storage_join] of tracker/tracker_service.c takes a request
    apart and [tracker_mem_add_group_and_storage] of tracker/tracker_mem.c
    registers its trackers, its group and the server, and compares its
    settings with those of the group.  The exchange of state files with the
    other trackers, which precedes this once after a start, is left out. *)

From S2P Require Import Prelude CLib SortedArray SharedFunc TrackerMem TrackerGroups.
#[local] Open Scope Z_scope.

(** ** Data *)

Definition EAGAIN : Z := 11.
Definition EFAULT : Z := 14.
Definition FDFS_MAX_TRACKERS : Z := 16.
Definition FDFS_VERSION_SIZE : nat := 6.
Definition FDFS_DOMAIN_NAME_MAX_SIZE : nat := 128.
Definition FDFS_PROTO_IP_PORT_SIZE : nat := 22.

Record FDFSStorageJoinBody := {
  j_storage_port : Z;
  j_storage_http_port : Z;
  j_store_path_count : Z;
  j_subdir_count_per_path : Z;
  j_upload_priority : Z;
  j_join_time : Z;
  j_up_time : Z;
  j_version : list Z;
  j_group_name : list Z;
  j_domain_name : list Z;
  j_init_flag : bool;
  j_status : Z;
  j_tracker_servers : list ConnectionInfo;
}.

(** [if ((result=m) != 0) return result; k] *)
Definition and_then {S} (m k : prog S Z) : prog S Z :=
  result ← m;
  if c_true result then mret result else k.

Section join.
Context (env : nat → answer) (cfg : groups_config).

(** ** The trackers (tracker/tracker_mem.c) *)

Definition same_tracker (a b : ConnectionInfo) : bool := (c_port a =? c_port b) && (strcmp (c_ip_addr a) (c_ip_addr b) =? 0).

Definition is_new_tracker (known : list ConnectionInfo) (t : ConnectionInfo) : bool := negb (existsb (same_tracker t) known).

Definition tracker_mem_first_add_tracker_servers (b : FDFSStorageJoinBody) : prog tracker_state Z :=
  a ← ask_tracker env;
  if c_true (malloc_result a) then mret (malloc_result a)
  else modify (λ s, s <| g_tracker_servers := Some (j_tracker_servers b) |>);; mret 0.

Definition tracker_mem_check_add_tracker_servers (known : list ConnectionInfo) (b : FDFSStorageJoinBody)
    : prog tracker_state Z :=
  let new_ones := List.filter (is_new_tracker known) (j_tracker_servers b) in
  if decide (length new_ones = 0)%nat then mret 0
  else
    s ← get;
    match g_last_tracker_servers s with
    | Some _ => mret EAGAIN
    | None =>
        if FDFS_MAX_TRACKERS <? Z.of_nat (length known) + Z.of_nat (length new_ones) then mret ENOSPC
        else
          a ← ask_tracker env;
          if c_true (malloc_result a) then mret (malloc_result a)
          else
            modify (λ s, s <| g_last_tracker_servers := Some known |> <| g_tracker_servers := Some (known ++ new_ones) |>);;
            mret 0
    end.

Definition add_tracker_servers (b : FDFSStorageJoinBody) : prog tracker_state Z :=
  s ← get;
  match g_tracker_servers s with
  | None => tracker_mem_first_add_tracker_servers b
  | Some known => tracker_mem_check_add_tracker_servers known b
  end.

(** ** The settings of the group *)

(** [tracker_save_groups], [tracker_save_sys_files] *)
Definition save_files : prog group_state Z := a ← ask env; mret (a_result a).

(** The first server with the id changes; the loop ends there. *)
Fixpoint set_server (id : list Z) (f : FDFSStorageDetail → FDFSStorageDetail) (l : list positive) : prog group_state unit :=
  match l with
  | [] => mret tt
  | p :: l =>
      d ← get_server p;
      if strcmp (storage_id d) id =? 0 then upd_server p f else set_server id f l
  end.

(** All servers have the value. *)
Fixpoint all_same (field : FDFSStorageDetail → Z) (value : Z) (l : list positive) : prog group_state bool :=
  match l with
  | [] => mret true
  | p :: l => d ← get_server p; if negb (field d =? value) then mret false else all_same field value l
  end.

(** A port of the group, of the server with the id: a group without port
    takes the one of the server, and so does a group all of whose servers
    have it; otherwise the result is [refused]. *)
Definition adjust_port (group_port : FDFSGroupInfo → Z) (set_group_port : FDFSGroupInfo → FDFSGroupInfo)
    (server_port : FDFSStorageDetail → Z) (set_server_port : FDFSStorageDetail → FDFSStorageDetail)
    (refused : Z) (id : list Z) (port : Z) : prog group_state Z :=
  g ← get_grp;
  if group_port g =? 0 then upd_grp set_group_port;; save_files
  else if group_port g =? port then mret 0
  else
    l ← servers_in (all_servers g) (count g);
    set_server id set_server_port l;;
    same ← all_same server_port port l;
    if same : bool then upd_grp set_group_port;; save_files else mret refused.

(** A different http port is only logged. *)
Definition adjust_ports (b : FDFSStorageJoinBody) (id : list Z) : prog group_state Z :=
  and_then (adjust_port storage_port (λ g, g <| storage_port := j_storage_port b |>)
              s_storage_port (λ d, d <| s_storage_port := j_storage_port b |>) EINVAL id (j_storage_port b))
           (adjust_port storage_http_port (λ g, g <| storage_http_port := j_storage_http_port b |>)
              s_storage_http_port (λ d, d <| s_storage_http_port := j_storage_http_port b |>) 0 id (j_storage_http_port b)).

Definition adjust_path_count (b : FDFSStorageJoinBody) : prog group_state Z :=
  g ← get_grp;
  if store_path_count g =? 0 then
    upd_grp (λ g, g <| store_path_count := j_store_path_count b |>);;
    and_then (tracker_malloc_group_path_mbs env) save_files
  else if store_path_count g =? j_store_path_count b then mret 0
  else
    l ← servers_in (all_servers g) (count g);
    same ← all_same s_store_path_count (j_store_path_count b) l;
    if same : bool then and_then (tracker_realloc_group_path_mbs env (j_store_path_count b)) save_files
    else if j_store_path_count b <? store_path_count g then mret EINVAL
    else mret 0.

Definition adjust_subdir_count (b : FDFSStorageJoinBody) : prog group_state Z :=
  g ← get_grp;
  if subdir_count_per_path g =? 0 then
    upd_grp (λ g, g <| subdir_count_per_path := j_subdir_count_per_path b |>);; save_files
  else if subdir_count_per_path g =? j_subdir_count_per_path b then mret 0
  else
    l ← servers_in (all_servers g) (count g);
    same ← all_same s_subdir_count_per_path (j_subdir_count_per_path b) l;
    if same : bool then
      upd_grp (λ g, g <| subdir_count_per_path := j_subdir_count_per_path b |>);; save_files
    else mret EINVAL.

(** ** The server *)

(** A state a server that was in use may not come with. *)
Definition bad_status (st : Z) : bool :=
  (st <? 0) || (st =? FDFS_STORAGE_STATUS_DELETED) || (st =? FDFS_STORAGE_STATUS_IP_CHANGED) ||
  (st =? FDFS_STORAGE_STATUS_NONE).

Definition describe_server (b : FDFSStorageJoinBody) (d : FDFSStorageDetail) : FDFSStorageDetail :=
  d <| s_store_path_count := j_store_path_count b |> <| s_subdir_count_per_path := j_subdir_count_per_path b |>
    <| upload_priority := j_upload_priority b |> <| join_time := j_join_time b |> <| up_time := j_up_time b |>
    <| version := snprintf_s FDFS_VERSION_SIZE (j_version b) |>
    <| domain_name := snprintf_s FDFS_DOMAIN_NAME_MAX_SIZE (j_domain_name b) |>
    <| s_storage_port := j_storage_port b |> <| s_storage_http_port := j_storage_http_port b |>.

(** The state of a server that is new to the tracker. *)
Definition state_of_new (b : FDFSStorageJoinBody) (st : Z) : Z :=
  if negb (j_init_flag b) && (0 <? j_status b) then
    if j_status b =? FDFS_STORAGE_STATUS_ACTIVE then FDFS_STORAGE_STATUS_ONLINE else j_status b
  else st.

(** The last step: the server is there. *)
Definition came_back (p : positive) : prog group_state Z :=
  d ← get_server p;
  (if (status d =? FDFS_STORAGE_STATUS_OFFLINE) || (status d =? FDFS_STORAGE_STATUS_RECOVERY) then
     upd_server p (λ d, d <| status := FDFS_STORAGE_STATUS_ONLINE |>)
   else if status d =? FDFS_STORAGE_STATUS_INIT then
     t ← get_glob;
     upd_server p (λ d, d <| changelog_offset := g_changelog_fsize t |>)
   else mret tt);;
  mret 0.

Definition settle_server (b : FDFSStorageJoinBody) (p : positive) (bStorageInserted : bool) : prog group_state Z :=
  upd_server p (describe_server b);;
  and_then (adjust_path_count b)
    (and_then (adjust_subdir_count b)
      (and_then
        (if bStorageInserted then
           upd_server p (λ d, d <| status ::= state_of_new b |>);;
           save_files
         else mret 0)
        (came_back p))).

(** The part of [tracker_mem_add_group_and_storage] in the group: the
    result and [pClientInfo->pStorage] when it is set. *)
Definition join_group (ip_addr : list Z) (b : FDFSStorageJoinBody) : prog group_state (Z * option positive) :=
  storage_id ← storage_id_of_ip (t_config cfg) ip_addr;
  match storage_id with
  | None => mret (ENOENT, None)
  | Some id =>
      result ← adjust_ports b id;
      if c_true result then mret (result, None)
      else
        pStorageServer ← tracker_mem_get_storage id;
        if match pStorageServer with None => negb (j_init_flag b) && bad_status (j_status b) | Some _ => false end
        then mret (EFAULT, None)
        else
          r ← _tracker_mem_add_storage env (t_config cfg) None (Some id) ip_addr true;
          let '(result, pStorage, bStorageInserted) := r in
          if c_true result then mret (result, None)
          else
            p ← deref pStorage;
            result ← settle_server b p bStorageInserted;
            mret (result, Some p)
  end.

(** The result, the group and the server of the client. *)
Definition tracker_mem_add_group_and_storage (ip_addr : list Z) (b : FDFSStorageJoinBody)
    : prog tracker_state (Z * option positive * option positive) :=
  result ← add_tracker_servers b;
  if c_true result then mret (result, None, None)
  else
    r ← tracker_mem_add_group_ex env cfg (j_group_name b);
    let '(result, pGroup, bGroupInserted) := r in
    if c_true result then mret (result, None, None)
    else
      result ← (if bGroupInserted : bool then a ← ask_tracker env; mret (a_result a) else mret 0);
      if c_true result then mret (result, pGroup, None)
      else
        p ← deref pGroup;
        r ← in_group p (join_group ip_addr b);
        mret (r.1, Some p, r.2).

(** ** The request (tracker/tracker_service.c) *)

(** A byte as a [signed char]; [char] is one too. *)
Definition s8 (c : Z) : Z := (c + 2 ^ 7) mod 2 ^ 8 - 2 ^ 7.

(** tracker/tracker_proto.c *)
Definition fdfs_validate_group_name (group_name : list Z) : Z :=
  if decide (length group_name = 0)%nat then EINVAL
  else if forallb is_alnum group_name then 0 else EINVAL.

(** The field of [n] bytes at [i], a number of 8 bytes, a number cut to an int. *)
Definition field (body : list Z) (i n : nat) : list Z := take n (drop i body).
Definition long_at (body : list Z) (i : nat) : option Z := buff2long (field body i 8).
Definition int_at (body : list Z) (i : nat) : option Z := s32 <$> long_at body i.

(** [sizeof(TrackerStorageJoinBody)]: the offsets of its fields are 0, 17,
    25, 33, 41, 49, 57, 65, 73, 79, 207, 208 and 209. *)
Definition TrackerStorageJoinBody_size : nat := 217.

(** [n] addresses [ip:port]: NULL when one has no colon. *)
Fixpoint parse_trackers (n : nat) (p : list Z) : option (list ConnectionInfo) :=
  match n with
  | O => Some []
  | S n =>
      let text := c_string (take (FDFS_PROTO_IP_PORT_SIZE - 1) p) in
      match strchr text 58 with                                          (* ':' *)
      | None => None
      | Some sep =>
          rest ← parse_trackers n (drop FDFS_PROTO_IP_PORT_SIZE p);
          Some ({| c_ip_addr := snprintf_s IP_ADDRESS_SIZE (take (length text - length sep) text);
                   c_port := atoi (drop 1 sep) |} :: rest)
      end
  end.

(** The checks and the fields of the request; the errno when it is refused.
    [None] never happens: the length is checked first. *)
Definition parse_join (body : list Z) : option (Z + FDFSStorageJoinBody) :=
  if decide (length body < TrackerStorageJoinBody_size)%nat then Some (inl EINVAL)
  else
    tracker_count ← int_at body 209;
    if (tracker_count <=? 0) || (FDFS_MAX_TRACKERS <? tracker_count) then Some (inl EINVAL)
    else if negb (length body =? TrackerStorageJoinBody_size + Z.to_nat tracker_count * FDFS_PROTO_IP_PORT_SIZE)%nat
    then Some (inl EINVAL)
    else
      let group_name := c_string (field body 0 FDFS_GROUP_NAME_MAX_LEN) in
      let result := fdfs_validate_group_name group_name in
      if c_true result then Some (inl result)
      else
        port ← int_at body 17;
        http_port ← int_at body 25;
        paths ← int_at body 33;
        subdirs ← int_at body 41;
        if (port <=? 0) || (http_port <? 0) || ((paths <=? 0) || (256 <? paths)) || ((subdirs <=? 0) || (256 <? subdirs))
        then Some (inl EINVAL)
        else
          match parse_trackers (Z.to_nat tracker_count) (drop TrackerStorageJoinBody_size body) with
          | None => Some (inl EINVAL)
          | Some trackers =>
              priority ← int_at body 49;
              joined ← int_at body 57;
              up ← int_at body 65;
              init ← body !! 207%nat;
              st ← body !! 208%nat;
              Some (inr {| j_storage_port := port; j_storage_http_port := http_port; j_store_path_count := paths;
                j_subdir_count_per_path := subdirs; j_upload_priority := priority; j_join_time := joined;
                j_up_time := up; j_version := c_string (field body 73 (FDFS_VERSION_SIZE - 1));
                j_group_name := group_name;
                j_domain_name := c_string (field body 79 (FDFS_DOMAIN_NAME_MAX_SIZE - 1));
                j_init_flag := c_true init; j_status := s8 st;
                j_tracker_servers := trackers |})
          end.

(** The reply: the id of the server to copy from, or nothing. *)
Definition tracker_deal_storage_join (client_ip body : list Z) : prog tracker_state (Z * list Z) :=
  parsed ← deref (parse_join body);
  match parsed with
  | inl err => mret (err, [])
  | inr b =>
      r ← tracker_mem_add_group_and_storage client_ip b;
      let '(result, pGroup, pStorage) := r in
      if c_true result then mret (result, [])
      else
        g ← deref pGroup;
        p ← deref pStorage;
        src ← in_group g (d ← get_server p;
                          match psync_src_server d with
                          | None => mret []
                          | Some q => e ← get_server q; mret (storage_id e)
                          end);
        mret (0, src)
  end.

End join.
