(* ===== verification/TrackerReport.v ===== *)
(** * What a storage server reports to the tracker

    The handlers of tracker/tracker_service.c for the requests of a server
    that has joined: heart beat, disk usage, synchronisation times, trunk
    file id and free space, the servers another tracker knows.  Group and
    server of the client ([pClientInfo->pGroup], [pClientInfo->pStorage])
    are arguments. *)

From S2P Require Import Prelude CLib FdfsShared SortedArray SharedFunc TrackerMem TrackerGroups TrackerJoin TrackerStore.
#[local] Open Scope Z_scope.

(** ** Data *)

Definition TRACKER_SYNC_TO_FILE_FREQ : Z := 1000.

(** What a reply tells the server, a bit of the flags each: the leader of
    the trackers, the trunk server, the servers of the group (these with the
    port of the group). *)
Inductive notice :=
  | ChangedLeader (leader : option ConnectionInfo)                 (* FDFS_CHANGE_FLAG_TRACKER_LEADER *)
  | ChangedTrunkServer (trunk : option (FDFSStorageBrief * Z))     (* FDFS_CHANGE_FLAG_TRUNK_SERVER *)
  | ChangedServers (port : Z) (l : list FDFSStorageBrief).         (* FDFS_CHANGE_FLAG_GROUP_SERVER *)

(** Set by tracker/tracker_relationship.c. *)
Record leader_info := {
  leader_index : Z;
  g_tracker_leader_chg_count : Z;
}.

Section report.
Context (env : nat → answer) (cfg : groups_config) (leader : leader_info).
#[local] Notation tcfg := (t_config cfg).

(** ** The reply *)

Definition brief_of (d : FDFSStorageDetail) : FDFSStorageBrief :=
  {| b_status := status d; b_id := storage_id d; b_ip_addr := TrackerMem.ip_addr d |}.

Fixpoint briefs_of (l : list positive) : prog group_state (list FDFSStorageBrief) :=
  match l with
  | [] => mret []
  | p :: l => d ← get_server p; r ← briefs_of l; mret (brief_of d :: r)
  end.

Definition notify_leader (client_leader_chg : Z) : prog tracker_state (list notice) :=
  if g_if_leader_self tcfg && negb (client_leader_chg =? g_tracker_leader_chg_count leader) then
    s ← get;
    if 0 <=? leader_index leader then
      l ← deref (g_tracker_servers s);
      t ← deref (l !! Z.to_nat (leader_index leader));
      mret [ChangedLeader (Some t)]
    else mret [ChangedLeader None]
  else mret [].

Definition notify_trunk_server (q : positive) : prog group_state (list notice) :=
  g ← get_grp;
  d ← get_server q;
  if g_if_leader_self tcfg && negb (s_trunk_chg_count d =? trunk_chg_count g) then
    trunk ← match pTrunkServer g with None => mret None | Some p => d ← get_server p; mret (Some (brief_of d, storage_port g)) end;
    upd_server q (λ d, d <| s_trunk_chg_count := trunk_chg_count g |>);;
    mret [ChangedTrunkServer trunk]
  else mret [].

Definition notify_servers (q : positive) : prog group_state (list notice) :=
  g ← get_grp;
  d ← get_server q;
  if negb (s_chg_count d =? chg_count g) then
    l ← servers_in (sorted_servers g) (count g);
    briefs ← briefs_of l;
    upd_server q (λ d, d <| s_chg_count := chg_count g |>);;
    mret [ChangedServers (storage_port g) briefs]
  else mret [].

(** The status, the notices, and the client's new count of leader changes. *)
Definition tracker_check_and_sync (p q : positive) (client_leader_chg status : Z)
    : prog tracker_state (Z * list notice * Z) :=
  if c_true status then mret (status, [], client_leader_chg)
  else
    a ← notify_leader client_leader_chg;
    b ← in_group p (notify_trunk_server q);
    c ← in_group p (notify_servers q);
    mret (status, a ++ b ++ c,
          if g_if_leader_self tcfg then g_tracker_leader_chg_count leader else client_leader_chg).

(** ** Heart beat *)

(** [sizeof(FDFSStorageStatBuff)]: 42 numbers of 8 bytes. *)
Definition FDFSStorageStatBuff_size : nat := 336.

Definition stat_field (body : list Z) (i : nat) : option Z := buff2long (drop (8 * i) body).

Definition read_stat (body : list Z) (st : FDFSStorageStat) : option FDFSStorageStat :=
  counts ← mapM (stat_field body) (seq 0 38);
  source_update ← stat_field body 38;
  sync_update ← stat_field body 39;
  Some (st <| counters := counts |> <| last_source_update := source_update |> <| last_sync_update := sync_update |>).

Definition store_stat (q : positive) (body : list Z) : prog tracker_state Z :=
  modify (λ s, s <| g_storage_stat_chg_count ::= λ n, s32 (n + 1) |>);;
  s ← get;
  if Z.rem (g_storage_stat_chg_count s) TRACKER_SYNC_TO_FILE_FREQ =? 0
  then a ← ask_tracker env; mret (a_result a)                                      (* tracker_save_storages *)
  else mret 0.

Definition beat_status (p q : positive) (body : list Z) : prog tracker_state Z :=
  if decide (length body = 0)%nat then mret 0
  else if negb (length body =? FDFSStorageStatBuff_size)%nat then mret EINVAL
  else
    in_group p (d ← get_server q; st ← deref (read_stat body (stat d)); upd_server q (λ d, d <| stat := st |>));;
    store_stat q body.

Definition tracker_deal_storage_beat (p q : positive) (client_leader_chg : Z) (body : list Z)
    : prog tracker_state (Z * list notice * Z) :=
  status ← beat_status p q body;
  (if c_true status then mret tt
   else
     in_group p (tracker_mem_active_store_server env tcfg q);;
     in_group p (upd_server q (λ d, d <| stat ::= λ st, st <| last_heart_beat_time := g_current_time tcfg |> |>)));;
  tracker_check_and_sync p q client_leader_chg status.

(** ** Disk usage *)

Definition set_mb (arr : option (list Z)) (i : nat) (mb : Z) : option (list Z) :=
  l ← arr;
  if decide (i < length l)%nat then Some (<[i := mb]> l) else None.

(** [n] paths from [i] on. *)
Fixpoint report_paths (q : positive) (body : list Z) (n i : nat) : prog group_state unit :=
  match n with
  | O => mret tt
  | S n =>
      total ← deref (buff2long (drop (16 * i) body));
      free ← deref (buff2long (drop (16 * i + 8) body));
      d ← get_server q;
      totals ← deref (set_mb (path_total_mbs d) i total);
      frees ← deref (set_mb (path_free_mbs d) i free);
      upd_server q (λ d, d <| path_total_mbs := Some totals |> <| path_free_mbs := Some frees |>
                           <| s_total_mb ::= λ mb, s64 (mb + total) |> <| s_free_mb ::= λ mb, s64 (mb + free) |>);;
      (if store_path cfg =? FDFS_STORE_PATH_LOAD_BALANCE then
         best ← deref (if current_write_path d <? 0 then None else frees !! Z.to_nat (current_write_path d));
         if best <? free then upd_server q (λ d, d <| current_write_path := Z.of_nat i |>) else mret tt
       else mret tt);;
      report_paths q body n (S i)
  end.

(** The server of least free space among [l] and the one of [g]. *)
Fixpoint min_free_space (l : list positive) : prog group_state unit :=
  match l with
  | [] => mret tt
  | p :: l =>
      d ← get_server p;
      g ← get_grp;
      (if s_free_mb d <? g_free_mb g
       then upd_grp (λ g, g <| g_total_mb := s_total_mb d |> <| g_free_mb := s_free_mb d |>) else mret tt);;
      min_free_space l
  end.

Definition tracker_find_min_free_space : prog group_state unit :=
  g ← get_grp;
  l ← servers_in (active_servers g) (active_count g);
  match l with
  | [] => mret tt
  | p :: l =>
      d ← get_server p;
      upd_grp (λ g, g <| g_total_mb := s_total_mb d |> <| g_free_mb := s_free_mb d |>);;
      min_free_space l
  end.

(** The first active group with the most of [field], among [n] from [i] on. *)
Fixpoint max_group (field : FDFSGroupInfo → Z) (n i : nat) (best : option (nat * FDFSGroupInfo))
    : prog tracker_state (option (nat * FDFSGroupInfo)) :=
  match n with
  | O => mret best
  | S n =>
      gs ← get_groups;
      p ← deref (mjoin (sorted_groups gs !! i));
      g ← get_group p;
      let best :=
        if decide (0 < active_count g)%nat then
          match best with
          | None => Some (i, g)
          | Some (j, m) => if field m <? field g then Some (i, g) else Some (j, m)
          end
        else best in
      max_group field n (S i) best
  end.

Definition tracker_find_max_free_space_group : prog tracker_state unit :=
  if negb (store_lookup cfg =? FDFS_STORE_LOOKUP_LOAD_BALANCE) then mret tt
  else
    gs ← get_groups;
    r ← max_group g_free_mb (gs_count gs) 0 None;
    match r with
    | None => mret tt
    | Some (i, g) =>
        if check_space cfg g || negb (g_if_use_trunk_file tcfg) then upd_groups (λ gs, gs <| current_write_group := i |>)
        else
          r ← max_group trunk_free_mb (gs_count gs) 0 None;
          match r with
          | None => mret tt
          | Some (i, _) => upd_groups (λ gs, gs <| current_write_group := i |>)
          end
    end.

(** The sizes of the server, and with them those of the group. *)
Definition report_sizes (q : positive) (body : list Z) : prog group_state unit :=
  g ← get_grp;
  d ← get_server q;
  let old_free_mb := s_free_mb d in
  upd_server q (λ d, d <| s_total_mb := 0 |> <| s_free_mb := 0 |>);;
  report_paths q body (Z.to_nat (store_path_count g)) 0;;
  g ← get_grp;
  d ← get_server q;
  if (g_free_mb g =? 0) || (s_free_mb d <? g_free_mb g) then
    upd_grp (λ g, g <| g_total_mb := s_total_mb d |> <| g_free_mb := s_free_mb d |>)
  else if old_free_mb <? s_free_mb d then tracker_find_min_free_space
  else mret tt.

Definition tracker_deal_storage_df_report (p q : positive) (client_leader_chg : Z) (body : list Z)
    : prog tracker_state (Z * list notice * Z) :=
  g ← get_group p;
  if negb (Z.of_nat (length body) =? 16 * store_path_count g) then mret (EINVAL, [], client_leader_chg)
  else
    in_group p (report_sizes q body);;
    tracker_find_max_free_space_group;;
    in_group p (tracker_mem_active_store_server env tcfg q);;
    tracker_check_and_sync p q client_leader_chg 0.

(** ** Trunk files *)

Definition tracker_deal_report_trunk_fid (p q : positive) (body : list Z) : prog tracker_state Z :=
  if negb (length body =? 4)%nat then mret EINVAL
  else
    current_trunk_fid ← deref (buff2int body);
    if current_trunk_fid <? 0 then mret EINVAL
    else
      g ← get_group p;
      if negb (bool_decide (pTrunkServer g = Some q)) then mret EINVAL
      else if current_trunk_file_id g <? current_trunk_fid then
        in_group p (upd_grp (λ g, g <| current_trunk_file_id := current_trunk_fid |>));;
        a ← ask_tracker env;                                                         (* tracker_save_groups *)
        mret (a_result a)
      else mret 0.

Definition tracker_deal_report_trunk_free_space (p q : positive) (body : list Z) : prog tracker_state Z :=
  if negb (length body =? 8)%nat then mret EINVAL
  else
    trunk_free_space ← deref (buff2long body);
    if trunk_free_space <? 0 then mret EINVAL
    else
      g ← get_group p;
      if negb (bool_decide (pTrunkServer g = Some q)) then mret EINVAL
      else
        in_group p (upd_grp (λ g, g <| trunk_free_mb := trunk_free_space |>));;
        tracker_find_max_free_space_group;;
        mret 0.

(** ** The servers another tracker knows *)

(** [sizeof(FDFSStorageBrief)]: status, port, id, ip address. *)
Definition FDFSStorageBrief_size : nat := 37.

Fixpoint parse_briefs (n : nat) (body : list Z) : option (list FDFSStorageBrief) :=
  match n with
  | O => Some []
  | S n =>
      st ← body !! 0%nat;
      rest ← parse_briefs n (drop FDFSStorageBrief_size body);
      Some ({| b_status := s8 st; b_id := c_string (take FDFS_STORAGE_ID_MAX_SIZE (drop 5 body));
               b_ip_addr := c_string (take IP_ADDRESS_SIZE (drop 21 body)) |} :: rest)
  end.

Definition tracker_deal_storage_replica_chg (p : positive) (body : list Z) : prog tracker_state Z :=
  let n := (length body / FDFSStorageBrief_size)%nat in
  if decide (length body = 0)%nat then mret EINVAL
  else if negb (length body =? n * FDFSStorageBrief_size)%nat then mret EINVAL
  else if decide (FDFS_MAX_SERVERS_EACH_GROUP < n)%nat then mret EINVAL
  else
    briefs ← deref (parse_briefs n body);
    in_group p (tracker_mem_sync_storages env tcfg briefs).

End report.
