(* ===== verification/TrackerJoinInv.v ===== *)
(** * A server that joins: the settings of its group

    The parts of the join change the settings of group and server and, when
    the number of store paths changes, the arrays of path sizes of all
    servers ([adjusted]); the states of the servers change only where the
    server is added and where its state is set. *)

From S2P Require Import Prelude CLib SortedArray TrackerMem TrackerMemInv TrackerMemGrow TrackerMemOps TrackerMemActive.
From S2P Require Import TrackerMemSpec TrackerAlive TrackerGroups TrackerKeeps TrackerJoin.
From stdpp Require Import sorting.
#[local] Open Scope Z_scope.

(** What the tracker checks of a request. *)
Definition body_ok (b : FDFSStorageJoinBody) : Prop := 0 < j_store_path_count b < 2 ^ 31.

Section join.
Context (env : nat → answer) (cfg : groups_config) (b : FDFSStorageJoinBody) (Hb : body_ok b).

Record adjusted (v : group_view) (s s' : group_state) : Prop := {
  ad_ok : group_ok v (grp s') (details s');
  ad_core : same_core (details s) (details s');
  ad_name : group_name (grp s') = group_name (grp s);
  ad_count : store_path_count (grp s') = store_path_count (grp s) ∨ store_path_count (grp s') = j_store_path_count b;
  ad_ready : paths_ready s → paths_ready s';
}.

Lemma adjusted_refl v s : group_ok v (grp s) (details s) → adjusted v s s.
Proof. intros Hok. constructor; auto. done. Qed.

Lemma adjusted_trans v s1 s2 s3 : adjusted v s1 s2 → adjusted v s2 s3 → adjusted v s1 s3.
Proof.
  intros [H1 C1 N1 P1 R1] [H2 C2 N2 P2 R2]. constructor; [done| |congruence| |auto].
  - intros p. by rewrite C2, C1.
  - destruct P1, P2; [left|right|right|right]; congruence.
Qed.

(** A change of a setting of the group. *)
Definition quiet (f : FDFSGroupInfo → FDFSGroupInfo) : Prop :=
  ∀ g, (∀ v ds, group_ok v g ds → group_ok v (f g) ds) ∧ group_name (f g) = group_name g ∧
       all_servers (f g) = all_servers g ∧ store_path_count (f g) = store_path_count g.

Lemma adjusted_grp v s s' f : group_ok v (grp s) (details s) → quiet f →
  grp s' = f (grp s) → details s' = details s → adjusted v s s'.
Proof.
  intros Hok Hf Hg' Hd'. destruct (Hf (grp s)) as (Hg & Hn & Ha & Hc).
  constructor; unfold paths_ready; rewrite ?Hg', ?Hd', ?Ha, ?Hc; auto. done.
Qed.

Lemma quiet_id : quiet id.
Proof. intros g. by split. Qed.

(** A change of a setting of a server. *)
Definition quiet_server (f : FDFSStorageDetail → FDFSStorageDetail) : Prop :=
  ∀ d, core (f d) = core d ∧ current_write_path (f d) = current_write_path d ∧
       path_total_mbs (f d) = path_total_mbs d ∧ path_free_mbs (f d) = path_free_mbs d.

Lemma adjusted_server v s p d f : group_ok v (grp s) (details s) → details s !! p = Some d → quiet_server f →
  adjusted v s (s <| details ::= <[p := f d]> |>).
Proof.
  intros Hok Hd Hf. destruct (Hf d) as (Hco & Hcw & Ht & Hfr).
  assert (Hcore : same_core (details s) (<[p := f d]> (details s))).
  { intros q. destruct (decide (p = q)) as [<-|Hne]; [rewrite lookup_insert_eq, Hd; cbn; by rewrite Hco|by rewrite lookup_insert_ne]. }
  constructor; cbn; [by apply (group_ok_core Hcore)|done|done|auto|].
  intros Hr q Hq. cbn in *. destruct (Hr q Hq) as (e & He & Hsz). destruct (decide (p = q)) as [<-|Hne].
  - rewrite lookup_insert_eq. eexists. split; [done|]. assert (e = d) as -> by congruence. unfold sized. by rewrite Hcw, Ht, Hfr.
  - rewrite lookup_insert_ne by done. by exists e.
Qed.

(** ** Ports *)

Lemma save_files_ok v s : group_ok v (grp s) (details s) → returns (save_files env) s (λ _ s', adjusted v s s').
Proof. intros Hok. unfold save_files. step. apply returns_ret. by apply (adjusted_grp v s _ id Hok quiet_id). Qed.

Lemma and_then_ok v m k s :
  returns m s (λ _ s', adjusted v s s') → (∀ s', adjusted v s s' → returns k s' (λ _ s'', adjusted v s' s'')) →
  returns (and_then m k) s (λ _ s', adjusted v s s').
Proof.
  intros Hm Hk. apply returns_bind. eapply returns_mono; [exact Hm|]. intros r s1 H1.
  destruct (c_true r); [by apply returns_ret|]. eapply returns_mono; [by apply Hk|].
  intros r2 s2 H2. exact (adjusted_trans _ _ _ _ H1 H2).
Qed.

Lemma set_group_save_ok v s f :
  group_ok v (grp s) (details s) → quiet f → returns (upd_grp f;; save_files env) s (λ _ s', adjusted v s s').
Proof.
  intros Hok Hf. step. assert (H1 : adjusted v s (s <| grp ::= f |>)) by by apply (adjusted_grp v s _ f).
  eapply returns_mono; [apply (save_files_ok v), H1|]. intros r s2 H2. exact (adjusted_trans _ _ _ _ H1 H2).
Qed.

Lemma all_same_ok field value s l :
  (∀ p, p ∈ l → is_Some (details s !! p)) → returns (all_same field value l) s (λ _ s', s' = s).
Proof.
  induction l as [|p l IH]; intros Hl; cbn [all_same]; [by apply returns_ret|].
  destruct (Hl p) as [d Hd]; [by left|]. step. destruct (negb _); [by apply returns_ret|].
  apply IH. intros q Hq. apply Hl. by right.
Qed.

Lemma set_server_ok v s id f l :
  group_ok v (grp s) (details s) → quiet_server f → (∀ p, p ∈ l → is_Some (details s !! p)) →
  returns (set_server id f l) s (λ _ s', adjusted v s s').
Proof.
  intros Hok Hf. induction l as [|p l IH]; intros Hl; cbn [set_server]; [by apply returns_ret, adjusted_refl|].
  destruct (Hl p) as [d Hd]; [by left|]. step. destruct (_ =? 0).
  - apply (returns_upd_server _ p d); [done|]. by apply (adjusted_server v s p d).
  - apply IH. intros q Hq. apply Hl. by right.
Qed.

(** The servers in use. *)
Lemma all_in_use v s : group_ok v (grp s) (details s) →
  servers_in (all_servers (grp s)) (count (grp s)) = deref (Some (v_all v)).
Proof. intros Hok. unfold servers_in. by rewrite (ok_all _ _ _ Hok), (ok_count _ _ _ Hok), fmap_app, entries_spec. Qed.

Lemma objects_in_use v s p : group_ok v (grp s) (details s) → p ∈ v_all v → is_Some (details s !! p).
Proof. intros Hok Hp. destruct (server_object Hok p Hp) as [d ->]. by eexists. Qed.

Lemma adjust_port_ok v s gp sgp sp ssp refused id port :
  group_ok v (grp s) (details s) → quiet sgp → quiet_server ssp →
  returns (adjust_port env gp sgp sp ssp refused id port) s (λ _ s', adjusted v s s').
Proof.
  intros Hok Hg Hs. unfold adjust_port. step. destruct (_ =? 0); [by apply set_group_save_ok|].
  destruct (_ =? _); [by apply returns_ret, adjusted_refl|].
  rewrite (all_in_use v) by done. apply returns_bind, (returns_deref _ _ (v_all v)); [done|].
  apply returns_bind. eapply returns_mono; [apply (set_server_ok v); [done|done|by intros p; apply objects_in_use]|].
  intros u s1 H1. assert (Hok1 := ad_ok _ _ _ H1). apply returns_bind.
  eapply returns_mono; [apply all_same_ok; intros p Hp; by apply (objects_in_use v)|]. intros same s2 ->.
  destruct same; [|by apply returns_ret].
  eapply returns_mono; [by apply (set_group_save_ok v)|]. intros r s2 H2. exact (adjusted_trans _ _ _ _ H1 H2).
Qed.

Ltac quiet := intros ?; (split; [intros v0 ds0 H0; destruct H0; by constructor|done]).

Lemma adjust_ports_ok v s id :
  group_ok v (grp s) (details s) → returns (adjust_ports env b id) s (λ _ s', adjusted v s s').
Proof.
  intros Hok. apply and_then_ok; [apply adjust_port_ok; [done|quiet|done]|].
  intros s1 H1. apply adjust_port_ok; [apply H1|quiet|done].
Qed.

Lemma adjust_subdir_count_ok v s :
  group_ok v (grp s) (details s) → returns (adjust_subdir_count env b) s (λ _ s', adjusted v s s').
Proof.
  intros Hok. unfold adjust_subdir_count. step. destruct (_ =? 0); [apply set_group_save_ok; [done|quiet]|].
  destruct (_ =? _); [by apply returns_ret, adjusted_refl|].
  rewrite (all_in_use v) by done. apply returns_bind, (returns_deref _ _ (v_all v)); [done|].
  apply returns_bind. eapply returns_mono; [apply all_same_ok; intros p Hp; by apply (objects_in_use v)|]. intros same s2 ->.
  destruct same; [apply set_group_save_ok; [done|quiet]|by apply returns_ret, adjusted_refl].
Qed.

(** ** The number of store paths *)

(** Group and objects before the number of paths is looked at. *)
Definition ready_group (s : group_state) : Prop := paths_ready s ∧ 0 ≤ store_path_count (grp s) < 2 ^ 31.

Lemma adjusted_ready v s s' : adjusted v s s' → ready_group s → ready_group s'.
Proof.
  intros H [Hr Hc]. split; [by apply (ad_ready _ _ _ H)|]. unfold body_ok in Hb. destruct (ad_count _ _ _ H); lia.
Qed.

(** All servers have new arrays for [n] paths. *)
Lemma adjusted_paths v s s' g' :
  group_ok v (grp s) (details s) → paths_changed (v_all v ++ v_spare v) s s' →
  (∀ ds, group_ok v (grp s) ds → group_ok v g' ds) → group_name g' = group_name (grp s) →
  all_servers g' = all_servers (grp s) → store_path_count g' = j_store_path_count b →
  (∀ p, p ∈ v_all v ++ v_spare v → ∃ d, details s' !! p = Some d ∧ sized (j_store_path_count b) d) →
  adjusted v s {| grp := g'; details := details s'; glob := glob s' |}.
Proof.
  intros Hok (_ & Hcore & _) Hg Hn Ha Hc Hsz. constructor; cbn; [|done|done|by right|].
  - apply Hg. by apply (group_ok_core Hcore).
  - intros _ p Hp. cbn in *. rewrite Ha, (ok_all _ _ _ Hok) in Hp. apply list_elem_of_fmap in Hp as (q & [= <-] & Hq).
    rewrite Hc. by apply Hsz.
Qed.

Lemma all_objects v s : group_ok v (grp s) (details s) →
  servers_in (all_servers (grp s)) (alloc_size (grp s)) = deref (Some (v_all v ++ v_spare v)).
Proof.
  intros Hok. unfold servers_in. rewrite (ok_all _ _ _ Hok), (ok_alloc _ _ _ Hok).
  by rewrite <- (app_nil_r (Some <$> _)), entries_spec.
Qed.

Lemma ready_object v s p : group_ok v (grp s) (details s) → paths_ready s → p ∈ v_all v ++ v_spare v →
  ∃ d, details s !! p = Some d ∧ sized (store_path_count (grp s)) d.
Proof. intros Hok Hr Hp. apply Hr. rewrite (ok_all _ _ _ Hok). by apply list_elem_of_fmap_2. Qed.

Context (Hoom : ¬ oom env).

Lemma first_path_count_ok v s :
  group_ok v (grp s) (details s) → ready_group s →
  returns (upd_grp (λ g, g <| store_path_count := j_store_path_count b |>);;
           and_then (tracker_malloc_group_path_mbs env) (save_files env)) s (λ _ s', adjusted v s s').
Proof.
  intros Hok [Hr Hc]. step. set (s1 := s <| grp ::= _ |>). set (l := v_all v ++ v_spare v).
  assert (Hok1 : group_ok v (grp s1) (details s1)) by (destruct Hok; by constructor).
  assert (Hobj : ∀ p, p ∈ l → ∃ d, details s !! p = Some d ∧ sized (store_path_count (grp s)) d) by by intros; apply (ready_object v).
  apply returns_bind. unfold tracker_malloc_group_path_mbs. step. rewrite (all_objects v) by done.
  apply returns_bind, (returns_deref _ _ l); [done|].
  eapply returns_mono; [apply returns_ends; [apply (for_servers_ok env _ l l)|apply (paths_made_all _ (j_store_path_count b) l)]|].
  - intros p s' Hp Hd. by apply malloc_storage_path_mbs_ok.
  - intros p Hp. split; [done|]. destruct (Hobj p Hp) as (d & Hd & _). by exists d.
  - intros p s' Hp. apply malloc_paths_made; [apply Hb|done].
  - intros p Hp. destruct (Hobj p Hp) as (d & Hd & [Hcw _]). by exists d.
  - intros r s2 [[Hch Ho] (Hg & _ & _ & Hsz)].
    assert (r = 0) as -> by (destruct (decide (r = 0)); [done|by destruct Hoom; auto]). cbn [c_true Z.eqb negb].
    assert (H2 : adjusted v s s2).
    { destruct s2 as [g2 ds2 gl2]. destruct Hch as (Hg2 & Hcore & Hout). cbn in Hg2. subst g2.
      apply (adjusted_paths v s {| grp := grp s; details := ds2; glob := gl2 |}); try done; [|by apply Hsz].
      intros ds H. by destruct H; constructor. }
    eapply returns_mono; [apply (save_files_ok v), H2|]. intros r s3 H3. exact (adjusted_trans _ _ _ _ H2 H3).
Qed.

(** Arrays of [n] entries replace those of [n0]. *)
Lemma memcpy_mbs_ok n0 n a :
  length a = Z.to_nat n0 → 0 < n →
  ∃ a', memcpy_mbs (zeros n) (Some a) (Z.min n0 n) = Some a' ∧ length a' = Z.to_nat n.
Proof.
  intros La Hn. unfold memcpy_mbs. cbn [mbind option_bind]. rewrite decide_True by lia. eexists. split; [done|].
  rewrite length_app, length_take, length_drop, length_zeros. lia.
Qed.

Lemma realloc_paths_one n0 n p l s d :
  0 < n0 → 0 < n → p ∈ l → details s !! p = Some d → sized n0 d →
  returns (tracker_realloc_storage_path_mbs env p n0 n) s (λ r s',
    r = 0 ∧ paths_changed l s s' ∧ (∀ q, q ≠ p → details s' !! q = details s !! q) ∧
    ∃ d', details s' !! p = Some d' ∧ sized n d').
Proof.
  intros Hn0 Hn Hp Hd [Hcw Hsz]. destruct (Hsz Hn0) as (t & f & Ht & Hf & Lt & Lf).
  destruct (memcpy_mbs_ok n0 n t Lt Hn) as (t' & Et & Lt'). destruct (memcpy_mbs_ok n0 n f Lf Hn) as (f' & Ef & Lf').
  unfold tracker_realloc_storage_path_mbs. rewrite (proj2 (Z.leb_gt n 0)) by lia.
  step. destruct (c_true (malloc_result a)); [by destruct Hoom; auto|].
  step. destruct (c_true (malloc_result a0)); [by destruct Hoom; auto|].
  rewrite (proj2 (Z.eqb_neq n0 0)) by lia.
  apply returns_bind, (returns_get_server _ p d); [done|]. rewrite Ht, Hf.
  apply returns_bind, (returns_deref _ _ t'); [done|]. apply returns_bind, (returns_deref _ _ f'); [done|].
  apply returns_bind, (returns_upd_server _ p d); [done|]. apply returns_ret. split; [done|]. split; [|split].
  - by apply (paths_changed_upd _ _ _ p d (Some t') (Some f')).
  - intros q Hq. cbn. by rewrite lookup_insert_ne.
  - cbn. rewrite lookup_insert_eq. eexists. split; [done|]. split; [done|]. intros _. by exists t', f'.
Qed.

Lemma realloc_paths_all n0 n l s :
  0 < n0 → 0 < n → NoDup l → (∀ p, p ∈ l → ∃ d, details s !! p = Some d ∧ sized n0 d) →
  returns (for_servers (λ p, tracker_realloc_storage_path_mbs env p n0 n) l) s (λ r s',
    r = 0 ∧ paths_changed l s s' ∧ ∀ p, p ∈ l → ∃ d, details s' !! p = Some d ∧ sized n d).
Proof.
  intros Hn0 Hn Hnd. revert s. induction l as [|p l IH]; intros s Hl; cbn [for_servers].
  { apply returns_ret. split; [done|]. split; [by apply paths_changed_refl|set_solver]. }
  apply NoDup_cons in Hnd as [Hpl Hnd]. destruct (Hl p) as (d & Hd & Hsz); [by left|].
  apply returns_bind. eapply returns_mono; [apply (realloc_paths_one n0 n p (p :: l) s d); [done|done|by left|done|done]|].
  intros r s1 (-> & H1 & Hout & d' & Hd' & Hsz'). cbn [c_true Z.eqb negb].
  eapply returns_mono; [apply (IH Hnd s1)|].
  - intros q Hq. rewrite Hout by (by intros ->). apply Hl. by right.
  - intros r s2 (-> & H2 & Hs2). split; [done|]. destruct H2 as (Hg & Hc & Ho). split.
    + apply (paths_changed_trans _ _ s1); [done|]. split; [done|]. split; [done|]. set_solver.
    + intros q [->|Hq]%elem_of_cons; [|by apply Hs2]. exists d'. by rewrite Ho.
Qed.

Lemma adjust_path_count_ok v s :
  group_ok v (grp s) (details s) → ready_group s → returns (adjust_path_count env b) s (λ _ s', adjusted v s s').
Proof.
  intros Hok Hr. unfold adjust_path_count. step. destruct (Z.eqb_spec (store_path_count (grp s)) 0) as [Hz|Hz].
  { by apply first_path_count_ok. }
  destruct (_ =? _); [by apply returns_ret, adjusted_refl|].
  rewrite (all_in_use v) by done. apply returns_bind, (returns_deref _ _ (v_all v)); [done|].
  apply returns_bind. eapply returns_mono; [apply all_same_ok; intros p Hp; by apply (objects_in_use v)|]. intros same s2 ->.
  destruct same; [|destruct (_ <? _); by apply returns_ret, adjusted_refl].
  set (l := v_all v ++ v_spare v). apply returns_bind. unfold tracker_realloc_group_path_mbs. step.
  rewrite (all_objects v) by done. apply returns_bind, (returns_deref _ _ l); [done|]. destruct Hr as [Hr Hc].
  apply returns_bind. eapply returns_mono; [apply (realloc_paths_all (store_path_count (grp s)) (j_store_path_count b) l)|].
  { lia. } { apply Hb. } { apply Hok. } { by intros p; apply (ready_object v). }
  intros r s3 (-> & Hch & Hsz). cbn [c_true Z.eqb negb]. step. apply returns_ret. cbn [c_true Z.eqb negb].
  match goal with |- returns _ ?st _ => set (s4 := st) end.
  assert (H4 : adjusted v s s4).
  { destruct s3 as [g3 ds3 gl3]. assert (Hg3 := proj1 Hch). cbn in Hg3. subst g3.
    apply (adjusted_paths v s {| grp := grp s; details := ds3; glob := gl3 |}); try done.
    intros ds H. by destruct H; constructor. }
  eapply returns_mono; [apply (save_files_ok v), H4|]. intros r s5 H5. exact (adjusted_trans _ _ _ _ H4 H5).
Qed.

(** ** The server *)

(** The group, its path sizes and the states of its servers. *)
Record standing (v : group_view) (m : gmap (list Z) Z) (s : group_state) : Prop := {
  st_ok : group_ok v (grp s) (details s);
  st_ready : ready_group s;
  st_states : states v (details s) m;
}.

Lemma standing_adjusted v m s s' : standing v m s → adjusted v s s' → standing v m s'.
Proof.
  intros [Hok Hr Hm] H. constructor; [apply H|by eapply adjusted_ready|].
  by apply (states_core Hm), (ad_core _ _ _ H).
Qed.

(** A server that is not active gets a state in which it is not. *)
Lemma standing_status v m s p d st :
  standing v m s → p ∈ v_all v → details s !! p = Some d →
  status d ≠ FDFS_STORAGE_STATUS_ACTIVE → st ≠ FDFS_STORAGE_STATUS_ACTIVE →
  standing v (<[storage_id d := st]> m) (s <| details ::= <[p := d <| status := st |>]> |>).
Proof.
  intros [Hok [Hr Hc] Hm] Hp Hd Hst Hst'. constructor.
  - apply (group_ok_upd Hok p d); [done|done|done|by split|].
    intros q. apply (ok_src _ _ _ Hok p d q); [by apply in_all|done].
  - split; [|done]. by apply (settled_upd s p d (d <| status := st |>)).
  - assert (H := states_upd Hok Hm p d (d <| status := st |>) Hp Hd). by apply H.
Qed.

Definition came (st : Z) : Z :=
  if (st =? FDFS_STORAGE_STATUS_OFFLINE) || (st =? FDFS_STORAGE_STATUS_RECOVERY) then FDFS_STORAGE_STATUS_ONLINE else st.

Lemma came_back_ok v m s p d :
  standing v m s → p ∈ v_all v → details s !! p = Some d →
  returns (came_back p) s (λ r s', r = 0 ∧ group_name (grp s') = group_name (grp s) ∧
    standing v (<[storage_id d := came (status d)]> m) s').
Proof.
  intros Hs Hp Hd. assert (Hsame : <[storage_id d := status d]> m = m).
  { apply insert_id. by apply (states_lookup (st_states _ _ _ Hs) p). }
  unfold came_back, came. step. apply returns_bind. destruct (_ || _) eqn:E.
  - apply (returns_upd_server _ p d); [done|]. apply returns_ret. split; [done|]. split; [done|].
    apply standing_status; [done|done|done| |done]. intros Ha. by rewrite Ha in E.
  - rewrite Hsame. clear E. destruct (status d =? _).
    + unfold get_glob. step. apply (returns_upd_server _ p d); [done|]. apply returns_ret. split; [done|]. split; [done|].
      apply (standing_adjusted v m s); [done|]. apply (adjusted_server v s p d (λ d, _)); [apply Hs|done|done].
    + do 2 apply returns_ret. done.
Qed.

(** The states a settled server goes through. *)
Definition settled_state (ins : bool) (st : Z) : Z := if ins then state_of_new b st else st.

Definition settle_states (i : list Z) (ins : bool) (st : Z) (m : gmap (list Z) Z) (r : Z) (m' : gmap (list Z) Z) : Prop :=
  if c_true r then m' = m ∨ m' = <[i := settled_state ins st]> m
  else m' = <[i := came (settled_state ins st)]> m.

Lemma state_of_new_inactive st : st ≠ FDFS_STORAGE_STATUS_ACTIVE → state_of_new b st ≠ FDFS_STORAGE_STATUS_ACTIVE.
Proof.
  intros Hst. unfold state_of_new. destruct (_ && _); [|done].
  by destruct (Z.eqb_spec (j_status b) FDFS_STORAGE_STATUS_ACTIVE).
Qed.

(** An [adjusted] step before [k]. *)
Lemma and_then_standing v m s (f k : prog group_state Z) (Q : Z → group_state → Prop) :
  standing v m s → returns f s (λ _ s', adjusted v s s') →
  (∀ r s', adjusted v s s' → c_true r = true → Q r s') →
  (∀ s', adjusted v s s' → standing v m s' → returns k s' Q) →
  returns (and_then f k) s Q.
Proof.
  intros Hs Hf Hbad Hk. apply returns_bind. eapply returns_mono; [exact Hf|]. intros r s1 H1. cbn beta in H1.
  destruct (c_true r) eqn:Er; [by apply returns_ret, Hbad|].
  apply Hk; [exact H1|exact (standing_adjusted _ _ _ _ Hs H1)].
Qed.

Lemma core_of s s' (p : positive) d : same_core (details s) (details s') → details s !! p = Some d →
  ∃ d', details s' !! p = Some d' ∧ storage_id d' = storage_id d ∧ status d' = status d.
Proof.
  intros Hc Hd. specialize (Hc p). rewrite Hd in Hc. destruct (details s' !! p) as [d'|]; [|done].
  injection Hc as Hi Hst _. by exists d'.
Qed.

Lemma settle_server_ok v m s p d ins :
  standing v m s → p ∈ v_all v → details s !! p = Some d → (ins = true → status d ≠ FDFS_STORAGE_STATUS_ACTIVE) →
  returns (settle_server env b p ins) s (λ r s', group_name (grp s') = group_name (grp s) ∧
    ∃ m', standing v m' s' ∧ settle_states (storage_id d) ins (status d) m r m').
Proof.
  intros Hs Hp Hd Hins. unfold settle_server. apply returns_bind, (returns_upd_server _ p d); [done|].
  match goal with |- returns _ ?st _ => set (s0 := st) end.
  assert (H0 : adjusted v s s0) by (apply (adjusted_server v s p d (describe_server b)); [apply Hs|done|done]).
  assert (Hs0 := standing_adjusted _ _ _ _ Hs H0).
  assert (Hbad : ∀ r s', adjusted v s s' → c_true r = true →
    group_name (grp s') = group_name (grp s) ∧ ∃ m', standing v m' s' ∧ settle_states (storage_id d) ins (status d) m r m').
  { intros r s' H E. split; [apply H|]. exists m. split; [exact (standing_adjusted _ _ _ _ Hs H)|].
    unfold settle_states. rewrite E. by left. }
  apply (and_then_standing v m s0); [done|by apply adjust_path_count_ok; apply Hs0| |].
  { intros r s1 H1. apply Hbad. exact (adjusted_trans _ _ _ _ H0 H1). }
  intros s1 H1 Hs1. assert (H01 := adjusted_trans _ _ _ _ H0 H1).
  apply (and_then_standing v m s1); [done|by apply adjust_subdir_count_ok; apply Hs1| |].
  { intros r s2 H2. apply Hbad. exact (adjusted_trans _ _ _ _ H01 H2). }
  intros s2 H2 Hs2. assert (H02 := adjusted_trans _ _ _ _ H01 H2).
  destruct (core_of s s2 p d (ad_core _ _ _ H02) Hd) as (d2 & Hd2 & Hi2 & Hst2).
  assert (Hn2 := ad_name _ _ _ H02). apply returns_bind. destruct ins.
  - apply returns_bind, (returns_upd_server _ p d2); [done|].
    assert (Hs3 := standing_status v m s2 p d2 (state_of_new b (status d2)) Hs2 Hp Hd2).
    set (s3 := s2 <| details ::= _ |>) in Hs3.
    assert (Hna : status d2 ≠ FDFS_STORAGE_STATUS_ACTIVE) by (rewrite Hst2; by apply Hins).
    specialize (Hs3 Hna (state_of_new_inactive _ Hna)). rewrite Hi2, Hst2 in Hs3.
    eapply returns_mono; [apply (save_files_ok v), Hs3|]. intros r s4 H4. cbn beta in H4.
    assert (Hs4 := standing_adjusted _ _ _ _ Hs3 H4).
    assert (Hn4 : group_name (grp s4) = group_name (grp s)).
    { etrans; [exact (ad_name _ _ _ H4)|exact Hn2]. }
    destruct (c_true r) eqn:Er.
    + apply returns_ret. split; [exact Hn4|]. eexists. split; [exact Hs4|]. unfold settle_states. rewrite Er. by right.
    + destruct (core_of s3 s4 p (d2 <| status := state_of_new b (status d2) |>) (ad_core _ _ _ H4)) as (d4 & Hd4 & Hi4 & Hst4);
        [cbn; by rewrite lookup_insert_eq|].
      eapply returns_mono; [by apply (came_back_ok v _ s4 p d4 Hs4)|]. intros r5 s5 (-> & Hn5 & Hs5).
      split; [congruence|]. eexists. split; [exact Hs5|]. unfold settle_states. cbn [c_true Z.eqb negb settled_state].
      rewrite Hi4, Hst4. cbn. by rewrite Hi2, Hst2, insert_insert_eq.
  - apply returns_ret. cbn [c_true Z.eqb negb].
    eapply returns_mono; [by apply (came_back_ok v m s2 p d2 Hs2)|]. intros r5 s5 (-> & Hn5 & Hs5).
    split; [congruence|]. eexists. split; [exact Hs5|]. unfold settle_states. cbn [c_true Z.eqb negb settled_state].
    by rewrite Hi2, Hst2.
Qed.

(** ** The join in the group *)

Context (Hids : ids_ok (t_config cfg)).

Lemma standing_settled v v' m m' s s' :
  standing v m s → settled s s' → group_ok v' (grp s') (details s') → states v' (details s') m' → standing v' m' s'.
Proof.
  intros [Hok [Hr Hc] Hm] (_ & Hcs & Hrs) Hok' Hm'. constructor; [done| |done]. split; [by apply Hrs|by rewrite Hcs].
Qed.

(** The states of the servers after a server at [ip] joined, or tried to. *)
Definition join_states (group ip : list Z) (m : gmap (list Z) Z) (r : Z) (m' : gmap (list Z) Z) : Prop :=
  (r ≠ 0 ∧ m' = m) ∨
  ∃ i, names_id (t_config cfg) group None ip i ∧
    let st := match m !! i with Some st => revived st | None => FDFS_STORAGE_STATUS_INIT end in
    settle_states i (bool_decide (m !! i = None)) st (<[i := st]> m) r m'.

Lemma add_and_settle_ok v m s i ip :
  standing v m s → (length i < FDFS_STORAGE_ID_MAX_SIZE)%nat → names_id (t_config cfg) (group_name (grp s)) None ip i →
  returns (r ← _tracker_mem_add_storage env (t_config cfg) None (Some i) ip true;
           let '(result, pStorage, bStorageInserted) := r in
           if c_true result then mret (result, None)
           else p ← deref pStorage; result ← settle_server env b p bStorageInserted; mret (result, Some p)) s
    (λ x s', group_name (grp s') = group_name (grp s) ∧
      ∃ v' m', standing v' m' s' ∧ join_states (group_name (grp s)) ip m x.1 m' ∧
        (x.1 = 0 → ∃ p, x.2 = Some p ∧ p ∈ v_all v')).
Proof.
  intros Hs Hi Hn. apply returns_bind. eapply returns_mono.
  { apply (returns_keeps settled); [apply _|].
    apply (add_storage_ok env (t_config cfg) Hids v s m); [apply Hs|apply Hs|exact Hi]. }
  intros [[r pp] ins] s1 [(v1 & m1 & Hok1 & Hm1 & _ & Hx) Hst].
  assert (Hs1 : standing v1 m1 s1) by (eapply standing_settled; eauto). assert (Hn1 := proj1 Hst). cbn [fst snd].
  destruct (c_true r) eqn:Er.
  { apply returns_ret. split; [done|]. exists v1, m1. split; [done|]. destruct Hx as (-> & _).
    apply c_true_spec in Er. split; [by left|]. done. }
  destruct Hx as (i' & p & _ & Hni & -> & Hp & Hpi & Hins). cbn in Hni. subst i'.
  destruct (server_object Hok1 p Hp) as [d Hd].
  assert (Hdi : storage_id d = i) by (unfold id_of in Hpi; rewrite Hd in Hpi; by injection Hpi).
  assert (Hmd := states_lookup Hm1 p d Hp Hd). rewrite Hdi in Hmd.
  assert (Hst' : m1 = <[i := status d]> m ∧ ins = bool_decide (m !! i = None) ∧
    status d = match m !! i with Some st => revived st | None => FDFS_STORAGE_STATUS_INIT end).
  { destruct ins.
    - destruct Hins as (_ & _ & Hnone & -> & _). rewrite lookup_insert_eq in Hmd. injection Hmd as <-. by rewrite Hnone.
    - destruct Hins as (_ & st & Hsome & ->). rewrite lookup_insert_eq in Hmd. injection Hmd as <-. by rewrite Hsome. }
  destruct Hst' as (Hm1e & Hie & Hste).
  apply returns_bind, (returns_deref _ _ p); [done|]. apply returns_bind.
  eapply returns_mono; [apply (settle_server_ok v1 m1 s1 p d ins); [done|done|done|]|].
  { intros Hi1. rewrite Hste. rewrite Hie in Hi1. apply bool_decide_eq_true in Hi1. by rewrite Hi1. }
  intros r2 s2 (Hn2 & m2 & Hs2 & Hset). apply returns_ret. split; [congruence|]. exists v1, m2. split; [done|].
  split; [|intros _; by exists p]. right. exists i. split; [done|]. cbv zeta. cbn [fst]. rewrite <- Hste, <- Hie, <- Hm1e.
  by rewrite Hdi in Hset.
Qed.

Lemma join_group_ok v m s ip :
  standing v m s → (length ip < FDFS_STORAGE_ID_MAX_SIZE)%nat →
  returns (join_group env cfg ip b) s (λ x s', group_name (grp s') = group_name (grp s) ∧
    ∃ v' m', standing v' m' s' ∧ join_states (group_name (grp s)) ip m x.1 m' ∧
      (x.1 = 0 → ∃ p, x.2 = Some p ∧ p ∈ v_all v')).
Proof.
  intros Hs Hip. unfold join_group. apply returns_bind.
  eapply returns_mono; [by apply (storage_id_of_ip_ok (t_config cfg) Hids)|]. intros [i|] s0 [-> Hi].
  2: { apply returns_ret. split; [done|]. exists v, m. split; [done|]. split; [by left|done]. }
  destruct (Hi i eq_refl) as [Hlen Hn]. apply returns_bind.
  eapply returns_mono; [apply (adjust_ports_ok v); apply Hs|]. intros r s1 H1. cbn beta in H1.
  assert (Hs1 := standing_adjusted _ _ _ _ Hs H1). assert (Hn1 := ad_name _ _ _ H1).
  destruct (c_true r) eqn:Er.
  { apply returns_ret. split; [done|]. exists v, m. split; [done|]. apply c_true_spec in Er. split; [by left|done]. }
  apply returns_bind. eapply returns_mono; [apply (tracker_mem_get_storage_ok v); [apply Hs1|done]|].
  intros found s2 [-> _]. destruct (match found with None => _ | _ => _ end).
  { apply returns_ret. split; [done|]. exists v, m. split; [done|]. split; [by left|done]. }
  rewrite <- Hn1. apply (add_and_settle_ok v m s1 i ip); [done|done|by rewrite Hn1].
Qed.

End join.
