(* ===== verification/TrackerTable.v ===== *)
(** * The tracker as a map of maps

    Seen from outside the tracker is a map from the names of groups to the
    maps from the ids of their servers to the states of these
    ([tracker_table]).  The lemmas give the effect of a change of one group,
    of a new group and of a join on it. *)

From S2P Require Import Prelude CLib SortedArray TrackerMem TrackerMemInv TrackerMemOps TrackerMemSpec TrackerAlive.
From S2P Require Import TrackerGroups TrackerKeeps TrackerGroupsInv TrackerJoin TrackerJoinInv.
#[local] Open Scope Z_scope.

Definition tracker_table (T : tracker_state) : gmap (list Z) (gmap (list Z) Z) := group_table server_states T.

(** ** Changes that leave the groups alone *)

Lemma groups_ok_same w T T' : groups_ok w T → g_groups T' = g_groups T → gmem T' = gmem T → groups_ok w T'.
Proof.
  intros [] Hg Hm. unfold in_use in *. by constructor; unfold in_use; rewrite ?Hg, ?Hm.
Qed.

(** ** Members *)

Lemma member_standing T gm : member_ok (m_group gm) (m_details gm) →
  ∃ v, standing v (server_states (enter T gm)) (enter T gm).
Proof.
  intros (_ & [v Hok] & Hc & Hr). exists v. constructor; [done|by split|]. by apply (server_states_ok v (enter T gm)).
Qed.

Lemma standing_member v m s : standing v m s → (length (group_name (grp s)) < FDFS_GROUP_NAME_SIZE)%nat →
  member_ok (grp s) (details s) ∧ server_states s = m.
Proof.
  intros [Hok [Hr Hc] Hm] Hn. split; [|by apply (server_states_eq v s)].
  split; [done|]. split; [by exists v|]. by split.
Qed.

Section one.
Context {w : groups_view} {T : tracker_state} (Hok : groups_ok w T).

Lemma table_lookup p gm : p ∈ w_all w → gmem T !! p = Some gm →
  tracker_table T !! group_name (m_group gm) = Some (server_states (enter T gm)).
Proof. apply (group_table_lookup server_states w T p gm Hok). Qed.

Lemma table_leave p gm s :
  groups_ok w (leave T p s) → p ∈ w_all w → gmem T !! p = Some gm → group_name (grp s) = group_name (m_group gm) →
  tracker_table (leave T p s) = <[group_name (m_group gm) := server_states s]> (tracker_table T).
Proof. intros Hok'. by apply (group_table_leave server_states w). Qed.

(** A table is given by its members. *)
Lemma table_eq w' T' : groups_ok w' T' →
  (∀ p, p ∈ w_all w' ↔ p ∈ w_all w) → (∀ p, p ∈ w_all w → gmem T' !! p = gmem T !! p) →
  tracker_table T' = tracker_table T.
Proof.
  intros Hok' Hall Hm. apply map_eq. intros k. apply option_eq. intros y.
  unfold tracker_table. rewrite (group_table_spec _ w' _ k y Hok'), (group_table_spec _ w T k y Hok).
  split; intros (p & gm & Hp & Hgm & Hn & Hy); exists p, gm.
  - apply Hall in Hp. rewrite <- Hm by done. done.
  - rewrite Hm by done. by rewrite Hall.
Qed.

(** A new group has no servers. *)
Lemma table_new w' T' p gm spare :
  groups_ok w' T' → w_all w' = w_all w ++ [p] → (∀ q, q ∈ w_all w → gmem T' !! q = gmem T !! q) →
  (∀ q, q ∈ w_all w → name_of (gmem T) q ≠ Some (group_name (m_group gm))) →
  gmem T' !! p = Some gm → group_ok (empty_view spare) (m_group gm) (m_details gm) →
  tracker_table T' = <[group_name (m_group gm) := ∅]> (tracker_table T).
Proof.
  intros Hok' Hall Hm Hnew Hgm Hgok.
  assert (He : server_states (enter T' gm) = ∅).
  { apply (server_states_eq (empty_view spare)); [done|]. apply empty_states. }
  apply map_eq. intros k. destruct (decide (group_name (m_group gm) = k)) as [<-|Hne].
  - rewrite lookup_insert_eq, <- He. apply (group_table_lookup server_states w' T' p gm Hok'); [|done].
    rewrite Hall. apply elem_of_app. right. by left.
  - rewrite lookup_insert_ne by done. apply option_eq. intros y.
    unfold tracker_table. rewrite (group_table_spec _ w' _ k y Hok'), (group_table_spec _ w T k y Hok).
    split; intros (q & gm' & Hq & Hgm' & Hn & Hy); exists q, gm'.
    + rewrite Hall in Hq. apply elem_of_app in Hq as [Hq| ->%list_elem_of_singleton]; [|by simplify_eq].
      rewrite <- Hm by done. done.
    + rewrite Hall, Hm by done. split; [apply elem_of_app; by left|done].
Qed.

End one.

(** ** A server joins *)

Section join.
Context (env : nat → answer) (cfg : groups_config) (b : FDFSStorageJoinBody).
Context (Hb : body_ok b) (Hoom : ¬ oom env) (Hids : ids_ok (t_config cfg)).
Context (Hname : (length (j_group_name b) < FDFS_GROUP_NAME_SIZE)%nat).

Lemma add_tracker_servers_ok T :
  returns (add_tracker_servers env b) T (λ _ T', g_groups T' = g_groups T ∧ gmem T' = gmem T).
Proof.
  unfold add_tracker_servers. gstep. destruct (g_tracker_servers T).
  - unfold tracker_mem_check_add_tracker_servers. destruct (decide _); [by apply returns_ret|]. gstep.
    destruct (g_last_tracker_servers T); [by apply returns_ret|]. destruct (_ <? _); [by apply returns_ret|].
    gstep. destruct (c_true _); [by apply returns_ret|]. gstep. by apply returns_ret.
  - unfold tracker_mem_first_add_tracker_servers. gstep. destruct (c_true _); [by apply returns_ret|].
    gstep. by apply returns_ret.
Qed.

(** The table after a join. *)
Definition join_table (ip : list Z) (M : gmap (list Z) (gmap (list Z) Z)) (r : Z) (M' : gmap (list Z) (gmap (list Z) Z)) : Prop :=
  (r ≠ 0 ∧ M' = M) ∨
  ∃ m', join_states cfg b (j_group_name b) ip (default ∅ (M !! j_group_name b)) r m' ∧ M' = <[j_group_name b := m']> M.

(** The client that joined points to a group and a server of it. *)
Definition client_ok (w : groups_view) (T : tracker_state) (p q : positive) : Prop :=
  p ∈ w_all w ∧ ∃ gm v, gmem T !! p = Some gm ∧ group_ok v (m_group gm) (m_details gm) ∧ q ∈ v_all v.

Lemma join_in_ok w T p ip :
  groups_ok w T → p ∈ w_all w → name_of (gmem T) p = Some (j_group_name b) → (length ip < FDFS_STORAGE_ID_MAX_SIZE)%nat →
  returns (in_group p (join_group env cfg ip b)) T (λ x T', groups_ok w T' ∧
    join_table ip (tracker_table T) x.1 (tracker_table T') ∧
    (x.1 = 0 → ∃ q, x.2 = Some q ∧ client_ok w T' p q)).
Proof.
  intros Hok Hp Hn Hip. destruct (gok_members _ _ Hok p Hp) as (gm & Hgm & Hmem). unfold name_of in Hn. rewrite Hgm in Hn.
  injection Hn as Hn. destruct (member_standing T gm Hmem) as [v Hs]. assert (Hlen := proj1 Hmem).
  apply (returns_in_group T p gm); [done|].
  eapply returns_mono; [by apply (join_group_ok env cfg b Hb Hoom Hids v _ _ ip Hs)|].
  intros x s (Hns & v' & m' & Hs' & Hjoin & Hq). cbn in Hns, Hjoin.
  destruct (standing_member v' m' s Hs') as [Hmem' Hm']; [by rewrite Hns|].
  assert (Hok' : groups_ok w (leave T p s)) by (destruct s; by apply (groups_ok_member Hok p gm)).
  split; [done|]. split.
  - right. exists m'. rewrite <- Hn. split.
    + rewrite (table_lookup Hok p gm Hp Hgm). exact Hjoin.
    + rewrite (table_leave Hok p gm s Hok' Hp Hgm Hns). by rewrite Hm'.
  - intros E. destruct (Hq E) as (q & Eq & Hqv). exists q. split; [done|]. split; [done|].
    eexists _, v'. split; [cbn; by rewrite lookup_insert_eq|]. split; [apply Hs'|done].
Qed.

Lemma add_group_and_storage_ok w T ip :
  groups_ok w T → (length ip < FDFS_STORAGE_ID_MAX_SIZE)%nat →
  returns (tracker_mem_add_group_and_storage env cfg ip b) T (λ x T', ∃ w', groups_ok w' T' ∧
    join_table ip (tracker_table T) x.1.1 (tracker_table T') ∧
    (x.1.1 = 0 → ∃ p q, x.1.2 = Some p ∧ x.2 = Some q ∧ client_ok w' T' p q)).
Proof.
  intros Hok Hip. unfold tracker_mem_add_group_and_storage. apply returns_bind.
  eapply returns_mono; [apply add_tracker_servers_ok|]. intros r T1 [Hg1 Hm1].
  assert (Hok1 : groups_ok w T1) by by apply (groups_ok_same w T).
  assert (Ht1 : tracker_table T1 = tracker_table T) by (apply (table_eq Hok w T1); [done|done|by rewrite Hm1]).
  destruct (c_true r) eqn:Er.
  { apply returns_ret. exists w. split; [done|]. apply c_true_spec in Er. split; [by left|done]. }
  apply returns_bind. eapply returns_mono; [apply (add_group_ex_ok env cfg w T1 _ Hok1 Hname); by right|].
  intros [[r2 pp] ins] T2 (w2 & Hok2 & Hold & Hx).
  destruct (c_true r2) eqn:Er2; [by destruct Hoom; apply Hx|].
  destruct Hx as (p & -> & Hp & Hins).
  assert (Ht2 : name_of (gmem T2) p = Some (j_group_name b) ∧
    (tracker_table T2 = tracker_table T ∨
     tracker_table T !! j_group_name b = None ∧ tracker_table T2 = <[j_group_name b := ∅]> (tracker_table T))).
  { destruct ins.
    - destruct Hins as (Hall & Hnew & gm & spare & Hgm & Hn & _ & Hgok). split; [by rewrite (name_of_member p gm Hgm), Hn|].
      right. rewrite <- Hn, <- Ht1. split; [apply (group_table_none _ w T1); [done|by rewrite Hn]|].
      apply (table_new Hok1 w2 T2 p gm spare); try done. by rewrite Hn.
    - destruct Hins as [Hall Hn]. rewrite Hall in Hp. split; [unfold name_of; rewrite Hold by done; exact Hn|]. left.
      rewrite <- Ht1. apply (table_eq Hok1 w2 T2); [done|by rewrite Hall|done]. }
  destruct Ht2 as [Hn2 Ht2].
  assert (Hstep : ∀ r M', join_table ip (tracker_table T2) r M' → join_table ip (tracker_table T) r M').
  { intros r3 M [[Hr3 ->]|(m' & Hj & ->)].
    - destruct Ht2 as [E|[Hnone E]]; rewrite E; [by left|]. right. exists ∅. rewrite Hnone. split; [|done]. by left.
    - right. exists m'. destruct Ht2 as [E|[Hnone E]]; rewrite E in Hj |- *; [done|].
      rewrite lookup_insert_eq in Hj. rewrite Hnone, insert_insert_eq. done. }
  apply returns_bind. eapply (returns_mono _ _ (λ _ T', g_groups T' = g_groups T2 ∧ gmem T' = gmem T2)).
  { destruct ins; [gstep; by apply returns_ret|by apply returns_ret]. }
  intros r3 T3 [Hg3 Hm3]. assert (Hok3 : groups_ok w2 T3) by by apply (groups_ok_same w2 T2).
  assert (Ht3 : tracker_table T3 = tracker_table T2) by (apply (table_eq Hok2 w2 T3); [done|done|by rewrite Hm3]).
  destruct (c_true r3) eqn:Er3.
  { apply returns_ret. exists w2. split; [done|]. cbn. apply c_true_spec in Er3. split; [|done].
    rewrite Ht3. apply Hstep. by left. }
  apply returns_bind, (returns_deref _ _ p); [done|]. apply returns_bind.
  eapply returns_mono; [apply (join_in_ok w2 T3 p ip); [done|done|by rewrite Hm3|done]|].
  intros [r4 pq] T4 (Hok4 & Hj & Hq). apply returns_ret. exists w2. split; [done|]. cbn in *. rewrite Ht3 in Hj. split.
  - by apply Hstep.
  - intros E. destruct (Hq E) as (q & -> & Hc). by exists p, q.
Qed.

End join.
