(* ===== verification/TrackerReportInv.v ===== *)
(** * What the reports of a storage server do

    Every report leaves the table of groups sound; a heart beat and a report
    of disk usage make the server active, the other ones leave the states of
    the servers alone. *)

From S2P Require Import Prelude CLib FdfsShared SortedArray SharedFunc TrackerMem TrackerMemInv TrackerMemGrow.
From S2P Require Import TrackerMemOps TrackerMemActive TrackerMemSpec TrackerAlive TrackerGroups TrackerKeeps.
From S2P Require Import TrackerGroupsInv TrackerJoin TrackerJoinInv TrackerTable TrackerStore TrackerReport.
#[local] Open Scope Z_scope.

(** ** Operations of a client *)

Section client.
Context {w : groups_view} {T : tracker_state} (Hok : groups_ok w T) {p q : positive} (Hc : client_ok w T p q).

(** The tracker after an operation [m] of the client on its group. *)
Definition client_step {A} (Q : A → group_state → group_state → Prop) (r : A) (T' : tracker_state) : Prop :=
  groups_ok w T' ∧ client_ok w T' p q ∧ ∃ gm s', gmem T !! p = Some gm ∧ T' = leave T p s' ∧
    tracker_table T' = <[group_name (m_group gm) := server_states s']> (tracker_table T) ∧
    group_name (grp s') = group_name (m_group gm) ∧ Q r (enter T gm) s'.

Lemma in_group_client {A} (m : prog group_state A) (Q : A → group_state → group_state → Prop) :
  (∀ gm v ms, gmem T !! p = Some gm → standing v ms (enter T gm) → q ∈ v_all v → returns m (enter T gm) (λ r s',
     group_name (grp s') = group_name (m_group gm) ∧ (∃ v' ms', standing v' ms' s' ∧ v_all v' = v_all v) ∧
     Q r (enter T gm) s')) →
  returns (in_group p m) T (client_step Q).
Proof.
  intros Hm. destruct Hc as (Hp & gm & v & Hgm & Hv & Hq).
  destruct (gok_members _ _ Hok p Hp) as (gm' & Hgm' & Hmem). assert (gm' = gm) as -> by congruence.
  assert (Hs : standing v (server_states (enter T gm)) (enter T gm)).
  { destruct Hmem as (_ & _ & Hcnt & Hr). constructor; [done|by split|]. by apply (server_states_ok v (enter T gm)). }
  apply (returns_in_group T p gm); [done|]. eapply returns_mono; [by apply (Hm gm v _ Hgm Hs)|].
  intros r s (Hn & (v' & ms' & Hs' & Hall) & HQ). cbn in Hn.
  destruct (standing_member v' ms' s Hs') as [Hmem' Hm']; [rewrite Hn; apply Hmem|].
  assert (Hok' : groups_ok w (leave T p s)) by (destruct s; by apply (groups_ok_member Hok p gm)).
  split; [done|]. split.
  - split; [done|]. exists {| m_group := grp s; m_details := details s |}, v'. cbn. rewrite lookup_insert_eq.
    split; [done|]. split; [apply Hs'|by rewrite Hall].
  - exists gm, s. split; [done|]. split; [done|]. split; [by apply (table_leave Hok p gm)|done].
Qed.

End client.

(** ** Parts of the handlers *)

Section parts.
Context (env : nat → answer) (cfg : groups_config) (leader : leader_info).

(** The names of the group and of the server of a client. *)
Definition client_names (T : tracker_state) (p q : positive) : option (list Z * list Z) :=
  gm ← gmem T !! p; i ← id_of (m_details gm) q; Some (group_name (m_group gm), i).

(** A quiet operation: the view stays and so do the states. *)
Definition calm {A} (q : positive) (m : prog group_state A) : Prop :=
  ∀ v ms s, standing v ms s → q ∈ v_all v → returns m s (λ _ s',
    group_name (grp s') = group_name (grp s) ∧ id_of (details s') q = id_of (details s) q ∧ standing v ms s').

Definition client_same (w : groups_view) (p q : positive) (T T' : tracker_state) : Prop :=
  groups_ok w T' ∧ client_ok w T' p q ∧ tracker_table T' = tracker_table T ∧ client_names T' p q = client_names T p q ∧
  g_tracker_servers T' = g_tracker_servers T.

Lemma client_same_trans w p q T1 T2 T3 : client_same w p q T1 T2 → client_same w p q T2 T3 → client_same w p q T1 T3.
Proof.
  intros (_ & _ & H1 & H2 & H7) (H3 & H4 & H5 & H6 & H8). split; [done|]. split; [done|]. split; [congruence|].
  split; congruence.
Qed.

Lemma in_group_same {A} w T p q (m : prog group_state A) :
  groups_ok w T → client_ok w T p q →
  (∀ gm v ms, gmem T !! p = Some gm → standing v ms (enter T gm) → q ∈ v_all v → returns m (enter T gm) (λ _ s',
     group_name (grp s') = group_name (m_group gm) ∧ id_of (details s') q = id_of (m_details gm) q ∧ standing v ms s')) →
  returns (in_group p m) T (λ _ T', client_same w p q T T').
Proof.
  intros Hok Hc Hm. eapply returns_mono.
  - apply (in_group_client Hok Hc m (λ _ s s', server_states s' = server_states s ∧ id_of (details s') q = id_of (details s) q)).
    intros gm v ms Hgm Hs Hq. eapply returns_mono; [by apply (Hm gm v ms)|]. intros r s' (Hn & Hi & Hs').
    split; [done|]. split; [by exists v, ms|]. split; [|done].
    etrans; [by apply (server_states_eq v s' ms); apply Hs'|]. symmetry. apply (server_states_eq v _ ms); apply Hs.
  - intros r T' (Hok' & Hc' & gm & s' & Hgm & -> & Ht & Hn & Hst & Hi). split; [done|]. split; [done|]. split.
    + rewrite Ht, Hst. apply insert_id. apply (table_lookup Hok p gm); [apply Hc|done].
    + split; [|done]. unfold client_names. cbn. rewrite lookup_insert_eq, Hgm. cbn. by rewrite Hi, Hn.
Qed.

Lemma in_group_calm {A} w T p q (m : prog group_state A) :
  groups_ok w T → client_ok w T p q → calm q m → returns (in_group p m) T (λ _ T', client_same w p q T T').
Proof. intros Hok Hc Hm. apply (in_group_same w T p q m Hok Hc). intros gm v ms _. apply Hm. Qed.

Lemma standing_quiet v ms s q d f :
  standing v ms s → details s !! q = Some d → quiet_server f →
  standing v ms (s <| details ::= <[q := f d]> |>).
Proof.
  intros [Hok [Hr Hcnt] Hm] Hd Hf. destruct (Hf d) as (Hco & Hcw & Ht & Hfr).
  assert (Hcore : same_core (details s) (<[q := f d]> (details s))).
  { intros r. destruct (decide (q = r)) as [<-|Hne]; [rewrite lookup_insert_eq, Hd; cbn; by rewrite Hco|by rewrite lookup_insert_ne]. }
  constructor; [by apply (group_ok_core Hcore)| |by apply (states_core Hm)].
  split; [|done]. apply (settled_upd s q d (f d) Hd); [|done]. unfold sized. by rewrite Hcw, Ht, Hfr.
Qed.

Lemma standing_grp v ms s f :
  standing v ms s → quiet f → standing v ms (s <| grp ::= f |>).
Proof.
  intros [Hok [Hr Hcnt] Hm] Hf. destruct (Hf (grp s)) as (Hg & Hn & Ha & Hc). constructor; cbn; [by apply Hg| |done].
  unfold ready_group, paths_ready. cbn. by rewrite Hc, Ha.
Qed.

Ltac quiet := intros ?; (split; [intros v0 ds0 H0; destruct H0; by constructor|done]).

Lemma calm_object v ms s q : standing v ms s → q ∈ v_all v → ∃ d, details s !! q = Some d.
Proof. intros Hs Hq. exact (server_object (st_ok _ _ _ Hs) q Hq). Qed.

(** *** The reply *)

Lemma briefs_of_ok s l :
  (∀ p, p ∈ l → is_Some (details s !! p)) → returns (briefs_of l) s (λ r s', s' = s ∧
    Forall2 (λ p x, ∃ d, details s !! p = Some d ∧ x = brief_of d) l r).
Proof.
  induction l as [|p l IH]; intros Hl; cbn [briefs_of]; [by apply returns_ret|].
  destruct (Hl p) as [d Hd]; [by left|]. step. apply returns_bind.
  eapply returns_mono; [apply IH; intros q Hq; apply Hl; by right|]. intros r s' [-> HF]. apply returns_ret.
  split; [done|]. constructor; [by exists d|done].
Qed.

Lemma notify_trunk_server_calm q : calm q (notify_trunk_server cfg q).
Proof.
  intros v ms s Hs Hq. destruct (calm_object v ms s q Hs Hq) as [d Hd]. unfold notify_trunk_server. step. step.
  destruct (_ && _); [|by apply returns_ret]. apply returns_bind.
  eapply (returns_mono _ _ (λ _ s', s' = s)).
  { destruct (pTrunkServer (grp s)) as [p|] eqn:E; [|by apply returns_ret].
    destruct (server_object (st_ok _ _ _ Hs) p) as [e He]; [by apply (ok_trunk _ _ _ (st_ok _ _ _ Hs))|].
    step. by apply returns_ret. }
  intros trunk s' ->. apply returns_bind, (returns_upd_server _ q d); [done|]. apply returns_ret.
  split; [done|]. split; [by apply (id_of_insert _ _ d)|]. apply (standing_quiet v ms s q d (λ d, d <| s_trunk_chg_count := trunk_chg_count (grp s) |>)); done.
Qed.

Lemma servers_sorted v s : group_ok v (grp s) (details s) →
  servers_in (sorted_servers (grp s)) (count (grp s)) = deref (Some (v_sorted v)).
Proof.
  intros Hok. unfold servers_in. destruct (ok_sorted _ _ _ Hok) as [rest ->].
  by rewrite (ok_count _ _ _ Hok), <- (Permutation_length (ok_perm _ _ _ Hok)), entries_spec.
Qed.

Lemma notify_servers_calm q : calm q (notify_servers q).
Proof.
  intros v ms s Hs Hq. destruct (calm_object v ms s q Hs Hq) as [d Hd]. unfold notify_servers. step. step.
  destruct (negb _); [|by apply returns_ret]. rewrite (servers_sorted v) by apply Hs.
  apply returns_bind, (returns_deref _ _ (v_sorted v)); [done|]. apply returns_bind.
  eapply returns_mono; [apply briefs_of_ok; intros p Hp; apply (objects_in_use v); [apply Hs|]; by apply (in_sorted (st_ok _ _ _ Hs))|].
  intros r s' [-> _]. apply returns_bind, (returns_upd_server _ q d); [done|]. apply returns_ret. split; [done|].
  split; [by apply (id_of_insert _ _ d)|].
  apply (standing_quiet v ms s q d (λ d, d <| s_chg_count := chg_count (grp s) |>)); done.
Qed.

(** The leader is one of the trackers. *)
Definition leader_ok (T : tracker_state) : Prop :=
  g_if_leader_self (t_config cfg) = true → 0 ≤ leader_index leader →
  ∃ l, g_tracker_servers T = Some l ∧ (Z.to_nat (leader_index leader) < length l)%nat.

Lemma check_and_sync_ok w T p q chg status :
  groups_ok w T → client_ok w T p q → leader_ok T →
  returns (tracker_check_and_sync cfg leader p q chg status) T (λ r T', client_same w p q T T' ∧ r.1.1 = status).
Proof.
  intros Hok Hc Hl. unfold tracker_check_and_sync. destruct (c_true status); [by apply returns_ret|].
  apply returns_bind. eapply (returns_mono _ _ (λ _ T', T' = T)).
  { unfold notify_leader. destruct (g_if_leader_self (t_config cfg)) eqn:E; cbn [andb]; [|by apply returns_ret].
    destruct (negb _); [|by apply returns_ret]. gstep. destruct (Z.leb_spec 0 (leader_index leader)); [|by apply returns_ret].
    destruct (Hl E) as (l & Hl1 & Hl2); [done|]. apply returns_bind, (returns_deref _ _ l); [done|].
    destruct (lookup_lt_is_Some_2 l _ Hl2) as [t Ht]. apply returns_bind, (returns_deref _ _ t); [done|]. by apply returns_ret. }
  intros a T0 ->. apply returns_bind. eapply returns_mono; [by apply (in_group_calm w T p q), notify_trunk_server_calm|].
  intros r1 T1 H1. apply returns_bind.
  eapply returns_mono; [by apply (in_group_calm w T1 p q), notify_servers_calm; apply H1|].
  intros r2 T2 H2. apply returns_ret. split; [exact (client_same_trans _ _ _ _ _ _ H1 H2)|done].
Qed.

(** *** Becoming active *)

(** The server of the client becomes active, or stays in a state before. *)
Definition client_active (w : groups_view) (p q : positive) (T T' : tracker_state) : Prop :=
  groups_ok w T' ∧ client_ok w T' p q ∧ client_names T' p q = client_names T p q ∧
  g_tracker_servers T' = g_tracker_servers T ∧
  ∃ n i ms st, client_names T p q = Some (n, i) ∧ tracker_table T !! n = Some ms ∧ ms !! i = Some st ∧
    tracker_table T' = <[n := <[i := activated st]> ms]> (tracker_table T).

Lemma active_client w T p q :
  groups_ok w T → client_ok w T p q →
  returns (in_group p (tracker_mem_active_store_server env (t_config cfg) q)) T (λ _ T', client_active w p q T T').
Proof.
  intros Hok Hc. eapply returns_mono.
  - apply (in_group_client Hok Hc _ (λ _ s s', ∃ d, details s !! q = Some d ∧ id_of (details s') q = Some (storage_id d) ∧
      server_states s !! storage_id d = Some (status d) ∧
      server_states s' = <[storage_id d := activated (status d)]> (server_states s))).
    intros gm v ms _ Hs Hq. set (s := enter T gm) in *. destruct (calm_object v ms s q Hs Hq) as [d Hd].
    eapply returns_mono; [apply (returns_keeps settled); [apply _|];
      by apply (active_store_server_ok env (t_config cfg) v s ms q d); [apply Hs|apply Hs|..]|].
    intros r s' [(_ & v' & Hok' & Hm' & Hall & _ & Hids) Hst]. split; [apply Hst|]. split.
    { eexists v', _. split; [by eapply (standing_settled v v')|done]. }
    exists d. split; [done|]. split; [rewrite Hids; unfold id_of; by rewrite Hd|].
    assert (Hms : server_states s = ms) by (apply (server_states_eq v s); apply Hs). rewrite Hms.
    split; [exact (states_lookup (st_states _ _ _ Hs) q d Hq Hd)|]. exact (server_states_eq v' s' _ Hok' Hm').
  - intros r T' (Hok' & Hc' & gm & s' & Hgm & -> & Ht & Hn & d & Hd & Hi & Hm & Hm').
    cbn in Hd, Hm. split; [done|]. split; [done|].
    assert (Hnames : client_names T p q = Some (group_name (m_group gm), storage_id d)).
    { unfold client_names. rewrite Hgm. cbn. unfold id_of. by rewrite Hd. }
    split.
    + rewrite Hnames. unfold client_names. cbn. rewrite lookup_insert_eq. cbn. by rewrite Hi, Hn.
    + split; [done|]. eexists _, _, _, _. split; [exact Hnames|]. split; [apply (table_lookup Hok p gm); [apply Hc|done]|].
      split; [exact Hm|]. by rewrite Ht, Hm'.
Qed.

Lemma client_active_same w p q T1 T2 T3 T4 :
  client_same w p q T1 T2 → client_active w p q T2 T3 → client_same w p q T3 T4 → client_active w p q T1 T4.
Proof.
  intros (_ & _ & H1 & H2 & H9) (_ & _ & Hn & Hg & n & i & ms & st & E1 & E2 & E3 & E4) (H5 & H6 & H7 & H8 & H10).
  split; [done|]. split; [done|]. split; [congruence|]. split; [congruence|]. exists n, i, ms, st. rewrite <- H2, <- H1. split; [done|].
  split; [done|]. split; [done|]. congruence.
Qed.

(** *** Heart beat *)

Lemma buff2long_is_Some l : (8 ≤ length l)%nat → is_Some (buff2long l).
Proof. do 8 (destruct l as [|? l]; [cbn; lia|]). by eexists. Qed.

Lemma read_stat_ok body st : length body = FDFSStorageStatBuff_size → is_Some (read_stat body st).
Proof.
  intros Hlen. unfold read_stat.
  assert (H : ∀ i, (i < 42)%nat → is_Some (stat_field body i)).
  { intros i Hi. apply buff2long_is_Some. rewrite length_drop, Hlen. unfold FDFSStorageStatBuff_size. lia. }
  destruct (proj2 (mapM_is_Some (stat_field body) (seq 0 38))) as [counts ->].
  { apply Forall_forall. intros i Hi%elem_of_seq. apply H. lia. }
  destruct (H 38%nat) as [c ->]; [lia|]. destruct (H 39%nat) as [e ->]; [lia|]. by eexists.
Qed.

Lemma calm_upd_server q f : quiet_server f → calm q (upd_server q f).
Proof.
  intros Hf v ms s Hs Hq. destruct (calm_object v ms s q Hs Hq) as [d Hd].
  apply (returns_upd_server _ q d); [done|]. split; [done|]. split; [|by apply standing_quiet].
  apply (id_of_insert _ _ d); [done|]. destruct (Hf d) as [Hco _]. by injection Hco.
Qed.

Lemma calm_upd_grp q f : quiet f → calm q (upd_grp f).
Proof.
  intros Hf v ms s Hs Hq. apply returns_upd_grp. destruct (Hf (grp s)) as (_ & Hn & _).
  split; [exact Hn|]. split; [done|]. by apply standing_grp.
Qed.

Lemma groups_ok_ticks w p q T T' :
  groups_ok w T → client_ok w T p q → g_groups T' = g_groups T → gmem T' = gmem T →
  g_tracker_servers T' = g_tracker_servers T → client_same w p q T T'.
Proof.
  intros Hok Hc Hg Hm Ht. assert (Hok' : groups_ok w T') by by apply (groups_ok_same w T).
  split; [done|]. unfold client_ok, client_names. rewrite Hm. split; [done|]. split; [|done].
  apply (table_eq Hok w T'); [done|done|by rewrite Hm].
Qed.

Lemma beat_status_ok w T p q body :
  groups_ok w T → client_ok w T p q → returns (beat_status env p q body) T (λ _ T', client_same w p q T T').
Proof.
  intros Hok Hc. unfold beat_status. destruct (decide _); [by apply returns_ret|].
  destruct (length body =? FDFSStorageStatBuff_size)%nat eqn:El; cbn [negb]; [|by apply returns_ret].
  apply Nat.eqb_eq in El. apply returns_bind. eapply returns_mono.
  { apply (in_group_calm w T p q); [done|done|]. intros v ms s Hs Hq. destruct (calm_object v ms s q Hs Hq) as [d Hd].
    apply returns_bind, (returns_get_server _ q d); [done|]. destruct (read_stat_ok body (stat d) El) as [st Est].
    apply returns_bind, (returns_deref _ _ st); [done|]. by apply (calm_upd_server q (λ d, d <| stat := st |>)). }
  intros r T1 H1. unfold store_stat. gstep. gstep. destruct (_ =? 0).
  - gstep. apply returns_ret. apply (client_same_trans _ _ _ _ _ _ H1). by apply groups_ok_ticks; [apply H1|apply H1|..].
  - apply returns_ret. apply (client_same_trans _ _ _ _ _ _ H1). by apply groups_ok_ticks; [apply H1|apply H1|..].
Qed.

Lemma leader_same T T' : g_tracker_servers T' = g_tracker_servers T → leader_ok T → leader_ok T'.
Proof. unfold leader_ok. by intros ->. Qed.

Lemma client_same_refl w p q T : groups_ok w T → client_ok w T p q → client_same w p q T T.
Proof. done. Qed.

(** What follows a successful report: the reply. *)
Lemma sync_after_active w T T0 T2 p q chg :
  client_same w p q T T0 → client_active w p q T0 T2 → leader_ok T →
  returns (tracker_check_and_sync cfg leader p q chg 0) T2 (λ r T', client_active w p q T T' ∧ r.1.1 = 0).
Proof.
  intros H0 H2 Hl. eapply returns_mono; [apply (check_and_sync_ok w T2 p q); [apply H2|apply H2|]|].
  - apply (leader_same T); [|done]. destruct H0 as (_ & _ & _ & _ & E0), H2 as (_ & _ & _ & E2 & _). congruence.
  - intros r T3 [H3 Hr]. split; [|done]. by eapply client_active_same.
Qed.

Lemma beat_ok w T p q chg body :
  groups_ok w T → client_ok w T p q → leader_ok T →
  returns (tracker_deal_storage_beat env cfg leader p q chg body) T (λ r T',
    if c_true r.1.1 then client_same w p q T T' else client_active w p q T T').
Proof.
  intros Hok Hc Hl. unfold tracker_deal_storage_beat. apply returns_bind.
  eapply returns_mono; [by apply (beat_status_ok w T p q body)|]. intros st T0 H0. cbn beta in H0. apply returns_bind.
  destruct (c_true st) eqn:Es.
  - apply returns_ret. eapply returns_mono; [apply (check_and_sync_ok w T0 p q); [apply H0|apply H0|]|].
    + apply (leader_same T); [|done]. apply H0.
    + intros r T1 [H1 ->]. rewrite Es. exact (client_same_trans _ _ _ _ _ _ H0 H1).
  - assert (st = 0) as -> by (unfold c_true in Es; by apply Z.eqb_eq, negb_false_iff).
    apply returns_bind. eapply returns_mono; [apply active_client; apply H0|]. intros r1 T1 H1. cbn beta in H1.
    eapply returns_mono; [apply (in_group_calm w T1 p q _); [apply H1|apply H1|by apply calm_upd_server]|].
    intros r2 T2 H2. cbn beta in H2.
    eapply returns_mono; [apply (sync_after_active w T T0 T2 p q chg); [done| |done]|].
    + eapply client_active_same; [by apply client_same_refl; apply H0|exact H1|exact H2].
    + intros r T3 [H3 ->]. exact H3.
Qed.

(** *** Disk usage *)

(** With the path of most space chosen, the path in turn is one of the
    group: it is not when the number of paths has been reduced. *)
Definition path_in_range (s : group_state) (q : positive) : Prop :=
  store_path cfg = FDFS_STORE_PATH_LOAD_BALANCE →
  ∀ d, details s !! q = Some d → current_write_path d < store_path_count (grp s).

Lemma set_mb_ok l i mb : (i < length l)%nat → set_mb (Some l) i mb = Some (<[i := mb]> l).
Proof. intros Hi. unfold set_mb. cbn. by rewrite decide_True. Qed.

Lemma standing_sizes v ms s q d d' :
  standing v ms s → q ∈ v_all v → details s !! q = Some d → core d' = core d → sized (store_path_count (grp s)) d' →
  standing v ms (s <| details ::= <[q := d']> |>).
Proof.
  intros [Hok [Hr Hcnt] Hm] Hq Hd Hco Hsz.
  assert (Hcore : same_core (details s) (<[q := d']> (details s))).
  { intros r. destruct (decide (q = r)) as [<-|Hne]; [rewrite lookup_insert_eq, Hd; cbn; by rewrite Hco|by rewrite lookup_insert_ne]. }
  constructor; [by apply (group_ok_core Hcore)| |by apply (states_core Hm)].
  split; [|done]. by apply (settled_upd s q d d' Hd).
Qed.

(** What [report_paths] keeps. *)
Definition paths_reported (v : group_view) (ms : gmap (list Z) Z) (q : positive) (s s' : group_state) : Prop :=
  grp s' = grp s ∧ standing v ms s' ∧ id_of (details s') q = id_of (details s) q ∧ path_in_range s' q.

Lemma report_paths_ok v ms q body n i s :
  standing v ms s → q ∈ v_all v → path_in_range s q → Z.of_nat (i + n) = store_path_count (grp s) →
  (16 * (i + n) ≤ length body)%nat →
  returns (report_paths cfg q body n i) s (λ _ s', paths_reported v ms q s s').
Proof.
  revert i s. induction n as [|n IH]; intros i s Hs Hq Hrange Hn Hlen; cbn [report_paths].
  { by apply returns_ret. }
  destruct (buff2long_is_Some (drop (16 * i) body)) as [total Et]; [rewrite length_drop; lia|].
  destruct (buff2long_is_Some (drop (16 * i + 8) body)) as [free Ef]; [rewrite length_drop; lia|].
  apply returns_bind, (returns_deref _ _ total); [done|]. apply returns_bind, (returns_deref _ _ free); [done|].
  destruct (ready_object v s q (st_ok _ _ _ Hs)) as (d & Hd & Hcw & Hsz); [apply Hs|by apply in_all|].
  destruct Hsz as (t & f & Ht & Hf & Lt & Lf); [lia|]. step. rewrite Ht, Hf.
  apply returns_bind, (returns_deref _ _ (<[i := total]> t)); [apply set_mb_ok; lia|].
  apply returns_bind, (returns_deref _ _ (<[i := free]> f)); [apply set_mb_ok; lia|].
  apply returns_bind, (returns_upd_server _ q d); [done|].
  match goal with |- context [<[q := ?x]>] => set (d1 := x) end.
  assert (Hs1 : standing v ms (s <| details ::= <[q := d1]> |>)).
  { apply (standing_sizes v ms s q d d1); [done|done|done|done|]. split; [done|]. intros _.
    exists (<[i := total]> t), (<[i := free]> f). by rewrite !length_insert. }
  set (s1 := s <| details ::= <[q := d1]> |>) in *.
  assert (Hd1 : details s1 !! q = Some d1) by (cbn; by rewrite lookup_insert_eq).
  assert (Hid1 : id_of (details s1) q = id_of (details s) q) by by apply (id_of_insert _ _ d).
  assert (Hcount : store_path_count (grp s) < 2 ^ 31) by apply (st_ready _ _ _ Hs).
  apply returns_bind. eapply (returns_mono _ _ (λ _ s', paths_reported v ms q s1 s')).
  - destruct (Z.eqb_spec (store_path cfg) FDFS_STORE_PATH_LOAD_BALANCE) as [Hlb|Hlb];
      [|apply returns_ret; split; [done|]; split; [done|]; split; [done|]; by intros ?].
    specialize (Hrange Hlb d Hd). rewrite (proj2 (Z.ltb_ge _ _)) by lia.
    destruct (lookup_lt_is_Some_2 (<[i := free]> f) (Z.to_nat (current_write_path d))) as [best Hbest];
      [rewrite length_insert; lia|].
    apply returns_bind, (returns_deref _ _ best); [done|]. destruct (best <? free).
    + apply (returns_upd_server _ q d1); [done|]. split; [done|]. split.
      * apply (standing_sizes v ms s1 q d1); [done|done|done|done|]. split; [cbn; lia|]. intros _.
        exists (<[i := total]> t), (<[i := free]> f). cbn. by rewrite !length_insert.
      * split; [by apply (id_of_insert _ _ d1)|]. intros _ e. cbn. rewrite lookup_insert_eq. intros [= <-]. cbn. lia.
    + apply returns_ret. split; [done|]. split; [done|]. split; [done|]. intros _ e. cbn. rewrite lookup_insert_eq.
      intros [= <-]. done.
  - intros u s2 (Hg2 & Hs2 & Hi2 & Hr2). change (grp s1) with (grp s) in Hg2.
    eapply returns_mono; [apply (IH (S i) s2)|]; [done|done|done|rewrite Hg2; lia|lia|].
    intros u' s3 (Hg3 & Hs3 & Hi3 & Hr3). split; [congruence|]. split; [done|]. split; [congruence|done].
Qed.

Lemma set_sizes_quiet t f : quiet (λ g, g <| g_total_mb := t |> <| g_free_mb := f |>).
Proof. quiet. Qed.

Lemma min_free_space_ok v ms l s :
  standing v ms s → (∀ p, p ∈ l → p ∈ v_all v) →
  returns (min_free_space l) s (λ _ s', group_name (grp s') = group_name (grp s) ∧ details s' = details s ∧ standing v ms s').
Proof.
  revert s. induction l as [|p l IH]; intros s Hs Hl; cbn [min_free_space]; [by apply returns_ret|].
  destruct (calm_object v ms s p Hs) as [d Hd]; [apply Hl; by left|]. step. step. apply returns_bind.
  assert (Hl' : ∀ r, r ∈ l → r ∈ v_all v) by (intros r Hr; apply Hl; by right). destruct (_ <? _).
  - apply returns_upd_grp. eapply returns_mono; [apply IH; [by apply standing_grp, set_sizes_quiet|done]|]. done.
  - apply returns_ret. by apply IH.
Qed.

Lemma find_min_free_space_ok v ms s :
  standing v ms s →
  returns tracker_find_min_free_space s (λ _ s',
    group_name (grp s') = group_name (grp s) ∧ details s' = details s ∧ standing v ms s').
Proof.
  intros Hs. unfold tracker_find_min_free_space. step.
  assert (Hact := st_ok _ _ _ Hs). unfold servers_in. destruct (ok_active _ _ _ Hact) as [rest ->].
  rewrite (ok_active_count _ _ _ Hact). apply returns_bind, (returns_deref _ _ (v_active v)); [apply entries_spec|].
  assert (Hall : ∀ p, p ∈ v_active v → p ∈ v_all v) by (intros p; apply (active_all Hact)).
  destruct (v_active v) as [|p l]; [by apply returns_ret|].
  destruct (calm_object v ms s p Hs) as [d Hd]; [apply Hall; by left|]. step. step.
  eapply returns_mono; [apply (min_free_space_ok v ms l); [by apply standing_grp, set_sizes_quiet|]|done].
  intros r Hr. apply Hall. by right.
Qed.

Lemma report_sizes_ok v ms s q body :
  standing v ms s → q ∈ v_all v → path_in_range s q → Z.of_nat (length body) = 16 * store_path_count (grp s) →
  returns (report_sizes cfg q body) s (λ _ s', group_name (grp s') = group_name (grp s) ∧
    id_of (details s') q = id_of (details s) q ∧ standing v ms s').
Proof.
  intros Hs Hq Hr Hlen. unfold report_sizes. step. destruct (calm_object v ms s q Hs Hq) as [d Hd]. step.
  apply returns_bind, (returns_upd_server _ q d); [done|].
  match goal with |- returns _ ?st _ => set (s1 := st) end.
  assert (Hs1 : standing v ms s1) by by apply (standing_quiet v ms s q d (λ d, d <| s_total_mb := 0 |> <| s_free_mb := 0 |>)).
  assert (Hi1 : id_of (details s1) q = id_of (details s) q) by by apply (id_of_insert _ _ d).
  assert (Hc : 0 ≤ store_path_count (grp s)) by apply (st_ready _ _ _ Hs).
  apply returns_bind. eapply returns_mono; [apply (report_paths_ok v ms q body _ 0 s1)|]; [done|done| |cbn; lia|lia|].
  { intros Hlb e. cbn. rewrite lookup_insert_eq. intros [= <-]. exact (Hr Hlb d Hd). }
  intros u s2 (Hg2 & Hs2 & Hi2 & _). destruct (calm_object v ms s2 q Hs2 Hq) as [e He].
  assert (Hn2 : group_name (grp s2) = group_name (grp s)) by by rewrite Hg2. rewrite Hi1 in Hi2. step. step.
  destruct (_ || _).
  { apply returns_upd_grp. split; [done|]. split; [done|]. by apply standing_grp, set_sizes_quiet. }
  destruct (_ <? _); [|by apply returns_ret].
  eapply returns_mono; [by apply (find_min_free_space_ok v ms s2)|]. intros u3 s3 (Hn3 & Hd3 & Hs3).
  split; [congruence|]. split; [by rewrite Hd3|done].
Qed.

(** *** The group of most free space *)

Lemma sorted_at w T i : groups_ok w T → (i < gs_count (g_groups T))%nat →
  ∃ p gm, mjoin (sorted_groups (g_groups T) !! i) = Some p ∧ w_sorted w !! i = Some p ∧ p ∈ w_all w ∧
    gmem T !! p = Some gm ∧ member_ok (m_group gm) (m_details gm).
Proof.
  intros Hok Hi. destruct (gok_sorted _ _ Hok) as [rest Hrest].
  rewrite (gok_count _ _ Hok), <- (Permutation_length (gok_perm _ _ Hok)) in Hi.
  destruct (lookup_lt_is_Some_2 (w_sorted w) i Hi) as [p Hp].
  assert (Hpa : p ∈ w_all w) by (apply (sorted_all Hok); by eapply list_elem_of_lookup_2).
  destruct (gok_members _ _ Hok p Hpa) as (gm & Hgm & Hmem). exists p, gm.
  rewrite Hrest, lookup_app_l, list_lookup_fmap, Hp by (by rewrite length_fmap). done.
Qed.

(** The group in a slot of [sorted_groups]. *)
Definition slot (T : tracker_state) (i : nat) : option FDFSGroupInfo :=
  p ← mjoin (sorted_groups (g_groups T) !! i); m_group <$> gmem T !! p.

(** [best] is the first active group of most [field] before slot [n]. *)
Definition is_max (T : tracker_state) (field : FDFSGroupInfo → Z) (n : nat) (best : option (nat * FDFSGroupInfo)) : Prop :=
  match best with
  | None => ∀ j g, (j < n)%nat → slot T j = Some g → active_count g = 0%nat
  | Some (i, m) => (i < n)%nat ∧ slot T i = Some m ∧ (0 < active_count m)%nat ∧
      ∀ j g, (j < n)%nat → slot T j = Some g → (0 < active_count g)%nat →
        field g ≤ field m ∧ ((j < i)%nat → field g < field m)
  end.

Lemma max_group_ok w T field n i best :
  groups_ok w T → (i + n = gs_count (g_groups T))%nat → is_max T field i best →
  returns (max_group field n i best) T (λ r T', T' = T ∧ is_max T field (gs_count (g_groups T)) r).
Proof.
  intros Hok. revert i best. induction n as [|n IH]; intros i best Hi Hbest; cbn [max_group].
  { apply returns_ret. by rewrite Nat.add_0_r in Hi; subst. }
  destruct (sorted_at w T i Hok) as (p & gm & Hp & _ & _ & Hgm & _); [lia|].
  gstep. apply returns_bind, (returns_deref _ _ p); [done|]. gstep.
  assert (Hslot : slot T i = Some (m_group gm)) by (unfold slot; rewrite Hp; cbn; by rewrite Hgm).
  assert (Hcase : ∀ j, (j < S i)%nat → (j < i)%nat ∨ j = i) by lia.
  apply IH; [lia|]. destruct (decide (0 < active_count (m_group gm))%nat) as [Ha|Ha].
  - destruct best as [[k m]|].
    + destruct Hbest as (Hk & Hsk & Hak & Hmax). destruct (Z.ltb_spec (field m) (field (m_group gm))) as [Hlt|Hge].
      * split; [lia|]. split; [done|]. split; [done|]. intros j g Hj Hg Hag.
        destruct (Hcase j Hj) as [Hj'| ->]; [destruct (Hmax j g Hj' Hg Hag); lia|]. simplify_eq. lia.
      * split; [lia|]. split; [done|]. split; [done|]. intros j g Hj Hg Hag.
        destruct (Hcase j Hj) as [Hj'| ->]; [by apply Hmax|]. simplify_eq. lia.
    + split; [lia|]. split; [done|]. split; [done|]. intros j g Hj Hg Hag.
      destruct (Hcase j Hj) as [Hj'| ->]; [specialize (Hbest j g Hj' Hg); lia|]. simplify_eq. lia.
  - destruct best as [[k m]|].
    + destruct Hbest as (Hk & Hsk & Hak & Hmax). split; [lia|]. split; [done|]. split; [done|]. intros j g Hj Hg Hag.
      destruct (Hcase j Hj) as [Hj'| ->]; [by apply Hmax|]. simplify_eq. lia.
    + intros j g Hj Hg. destruct (Hcase j Hj) as [Hj'| ->]; [by apply (Hbest j)|]. simplify_eq. lia.
Qed.

(** The group uploads go to next under load balance: the active group of
    most free space, or of most space in trunk files when that one has none. *)
Definition balanced (T : tracker_state) (i : nat) : Prop :=
  ∃ j m, is_max T g_free_mb (gs_count (g_groups T)) (Some (j, m)) ∧
    if check_space cfg m || negb (g_if_use_trunk_file (t_config cfg)) then i = j
    else ∃ m', is_max T trunk_free_mb (gs_count (g_groups T)) (Some (i, m')).

Definition set_write_group (T : tracker_state) (i : nat) : tracker_state :=
  T <| g_groups ::= λ gs, gs <| current_write_group := i |> |>.

Lemma find_max_free_space_group_ok w T :
  groups_ok w T → returns (tracker_find_max_free_space_group cfg) T (λ _ T',
    if store_lookup cfg =? FDFS_STORE_LOOKUP_LOAD_BALANCE then
      T' = T ∧ (∀ j g, (j < gs_count (g_groups T))%nat → slot T j = Some g → active_count g = 0%nat) ∨
      ∃ i, T' = set_write_group T i ∧ balanced T i
    else T' = T).
Proof.
  intros Hok. unfold tracker_find_max_free_space_group. destruct (_ =? _); cbn [negb]; [|by apply returns_ret]. gstep.
  apply returns_bind. eapply returns_mono; [apply (max_group_ok w T _ _ 0 None); [done|done|intros ??; lia]|].
  intros [[j m]|] T0 [-> Hmax]; [|apply returns_ret; by left]. destruct (_ || _) eqn:E.
  - gstep. right. exists j. split; [done|]. exists j, m. split; [done|]. by rewrite E.
  - apply returns_bind. eapply returns_mono; [apply (max_group_ok w T _ _ 0 None); [done|done|intros ??; lia]|].
    intros [[i m']|] T0 [-> Hmax']; [|].
    + gstep. right. exists i. split; [done|]. exists j, m. split; [done|]. rewrite E. by exists m'.
    + destruct Hmax as (Hj & Hs & Ha & _). specialize (Hmax' j m Hj Hs). lia.
Qed.

Lemma set_write_group_same w p q T i : groups_ok w T → client_ok w T p q → client_same w p q T (set_write_group T i).
Proof.
  intros Hok Hc. assert (Hok' : groups_ok w (set_write_group T i)) by (destruct Hok; by constructor).
  split; [done|]. split; [done|]. split; [|done]. by apply (table_eq Hok w).
Qed.

Lemma find_max_same w p q T :
  groups_ok w T → client_ok w T p q →
  returns (tracker_find_max_free_space_group cfg) T (λ _ T', client_same w p q T T').
Proof.
  intros Hok Hc. eapply returns_mono; [by apply (find_max_free_space_group_ok w)|]. intros r T' H.
  destruct (_ =? _); [|by subst]. destruct H as [[-> _]|(i & -> & _)]; [done|by apply set_write_group_same].
Qed.

Lemma df_report_ok w T p q gm chg body :
  groups_ok w T → client_ok w T p q → leader_ok T → gmem T !! p = Some gm → path_in_range (enter T gm) q →
  returns (tracker_deal_storage_df_report env cfg leader p q chg body) T (λ r T',
    if c_true r.1.1 then r.1.1 = EINVAL ∧ T' = T else client_active w p q T T').
Proof.
  intros Hok Hc Hl Hgm Hr. unfold tracker_deal_storage_df_report. gstep.
  destruct (Z.eqb_spec (Z.of_nat (length body)) (16 * store_path_count (m_group gm))) as [Hlen|]; cbn [negb];
    [|by apply returns_ret].
  apply returns_bind. eapply returns_mono.
  { apply (in_group_same w T p q _ Hok Hc). intros gm' v ms Hgm' Hs Hq. assert (gm' = gm) as -> by congruence.
    by apply (report_sizes_ok v ms (enter T gm) q body). }
  intros u T1 H1. cbn beta in H1. apply returns_bind.
  eapply returns_mono; [apply (find_max_same w p q T1); apply H1|]. intros u2 T2 H2. cbn beta in H2.
  assert (H12 := client_same_trans _ _ _ _ _ _ H1 H2).
  apply returns_bind. eapply returns_mono; [apply active_client; apply H2|]. intros u3 T3 H3. cbn beta in H3.
  eapply returns_mono; [by apply (sync_after_active w T T2 T3 p q chg)|]. intros r T4 [H4 ->]. exact H4.
Qed.

(** *** Trunk files *)

Lemma client_group w T p q : client_ok w T p q → ∃ gm, gmem T !! p = Some gm.
Proof. intros (_ & gm & _ & Hgm & _). by exists gm. Qed.

Lemma buff2int_is_Some l : (4 ≤ length l)%nat → is_Some (buff2int l).
Proof. do 4 (destruct l as [|? l]; [cbn; lia|]). by eexists. Qed.

Lemma report_trunk_fid_ok w T p q body :
  groups_ok w T → client_ok w T p q →
  returns (tracker_deal_report_trunk_fid env p q body) T (λ _ T', client_same w p q T T').
Proof.
  intros Hok Hc. unfold tracker_deal_report_trunk_fid. destruct (Nat.eqb_spec (length body) 4) as [El|]; [|by apply returns_ret].
  destruct (buff2int_is_Some body) as [fid Hfid]; [lia|]. apply returns_bind, (returns_deref _ _ fid); [done|].
  destruct (fid <? 0); [by apply returns_ret|]. destruct (client_group w T p q Hc) as [gm Hgm]. gstep.
  destruct (negb _); [by apply returns_ret|]. destruct (_ <? _); [|by apply returns_ret].
  apply returns_bind. eapply returns_mono; [apply (in_group_calm w T p q); [done|done|apply calm_upd_grp; quiet]|].
  intros u T1 H1. cbn beta in H1. gstep. apply returns_ret. apply (client_same_trans _ _ _ _ _ _ H1).
  by apply groups_ok_ticks; [apply H1|apply H1|..].
Qed.

Lemma report_trunk_free_space_ok w T p q body :
  groups_ok w T → client_ok w T p q →
  returns (tracker_deal_report_trunk_free_space cfg p q body) T (λ _ T', client_same w p q T T').
Proof.
  intros Hok Hc. unfold tracker_deal_report_trunk_free_space. destruct (Nat.eqb_spec (length body) 8) as [El|]; [|by apply returns_ret].
  destruct (buff2long_is_Some body) as [mb Hmb]; [lia|]. apply returns_bind, (returns_deref _ _ mb); [done|].
  destruct (mb <? 0); [by apply returns_ret|]. destruct (client_group w T p q Hc) as [gm Hgm]. gstep.
  destruct (negb _); [by apply returns_ret|].
  apply returns_bind. eapply returns_mono; [apply (in_group_calm w T p q); [done|done|apply calm_upd_grp; quiet]|].
  intros u T1 H1. cbn beta in H1.
  apply returns_bind. eapply returns_mono; [apply (find_max_same w p q T1); apply H1|]. intros u2 T2 H2. cbn beta in H2.
  apply returns_ret. exact (client_same_trans _ _ _ _ _ _ H1 H2).
Qed.

(** *** The servers another tracker knows *)

Lemma parse_briefs_ok n body : length body = (n * FDFSStorageBrief_size)%nat → is_Some (parse_briefs n body).
Proof.
  revert body. induction n as [|n IH]; intros body Hlen; cbn [parse_briefs]; [by eexists|].
  unfold FDFSStorageBrief_size in *. destruct (lookup_lt_is_Some_2 body 0) as [st ->]; [lia|].
  destruct (IH (drop 37 body)) as [rest E]; [rewrite length_drop; lia|]. cbn [mbind option_bind]. rewrite E. by eexists.
Qed.

End parts.
