(* ===== verification/TrackerStoreInv.v ===== *)
(** * Where an upload is sent

    The parts of [tracker_deal_service_query_storage] on a sound table of
    groups: which group, which server and which store path they choose, and
    what their errors mean. *)

From S2P Require Import Prelude CLib CFloat FdfsShared SortedArray SharedFunc TrackerMem TrackerMemInv TrackerMemGrow.
From S2P Require Import TrackerMemOps TrackerQuery TrackerMemSpec TrackerAlive TrackerGroups TrackerKeeps TrackerGroupsInv.
From S2P Require Import TrackerJoin TrackerJoinInv TrackerTable TrackerStore TrackerReport TrackerReportInv.
#[local] Open Scope Z_scope.

Section store.
Context (cfg : groups_config).
#[local] Notation trunk_used := (g_if_use_trunk_file (t_config cfg)).

(** ** The group *)

(** Uploads may go to the group. *)
Definition group_takes (g : FDFSGroupInfo) : Prop :=
  (0 < active_count g)%nat ∧ (check_space cfg g = true ∨ trunk_used = true ∧ check_space_trunk cfg g = true).

(** A group of the tracker. *)
Definition a_group (T : tracker_state) (p : positive) (g : FDFSGroupInfo) : Prop :=
  p ∈ all_groups T ∧ m_group <$> gmem T !! p = Some g.

Definition some_active (T : tracker_state) : Prop :=
  ∃ p g, a_group T p g ∧ (0 < active_count g)%nat.

Definition nobody_takes (T : tracker_state) : Prop := ∀ p g, a_group T p g → ¬ group_takes g.

(** No group passes the test without the space in trunk files. *)
Definition all_full (T : tracker_state) : Prop :=
  ∀ p g, a_group T p g → (0 < active_count g)%nat → check_space cfg g = false.

(** The result of a search over all groups. *)
Definition group_chosen (T : tracker_state) (r : Z + positive) : Prop :=
  match r with
  | inr p => ∃ g, a_group T p g ∧ group_takes g ∧
      (check_space cfg g = true ∨ store_lookup cfg = FDFS_STORE_LOOKUP_LOAD_BALANCE ∨ all_full T)
  | inl e => e = ENOENT ∧ ¬ some_active T ∨ e = ENOSPC ∧ some_active T ∧ nobody_takes T
  end.

(** The group that was named. *)
Definition named_chosen (T : tracker_state) (named : positive → Prop) (r : Z + positive) : Prop :=
  match r with
  | inr p => ∃ g, named p ∧ a_group T p g ∧ group_takes g
  | inl e => e = ENOENT ∧ (∀ p g, a_group T p g → named p → active_count g = 0%nat) ∨
             e = ENOSPC ∧ ∃ p g, a_group T p g ∧ named p ∧ ¬ group_takes g
  end.

Lemma a_group_in w T p g : groups_ok w T → a_group T p g → p ∈ w_all w.
Proof. intros Hok [Hp _]. by rewrite (table_groups w T Hok) in Hp. Qed.

Lemma takes_dec g : active_count g ≠ 0%nat →
  negb (check_space cfg g) && negb (trunk_used && check_space_trunk cfg g) = false → group_takes g.
Proof.
  intros Ha H. split; [lia|]. destruct (check_space cfg g); [by left|]. right.
  by destruct trunk_used, (check_space_trunk cfg g).
Qed.

Lemma takes_not g : negb (check_space cfg g) && negb (trunk_used && check_space_trunk cfg g) = true → ¬ group_takes g.
Proof.
  intros H [_ Hs]. destruct (check_space cfg g), trunk_used, (check_space_trunk cfg g); cbn in H; destruct Hs as [?|[??]]; done.
Qed.

Lemma a_group_object w T p : groups_ok w T → p ∈ w_all w → ∃ gm, gmem T !! p = Some gm ∧ a_group T p (m_group gm).
Proof.
  intros Hok Hp. destruct (gok_members _ _ Hok p Hp) as (gm & Hgm & _). exists gm. split; [done|]. split; [by rewrite (table_groups w T Hok)|]. by rewrite Hgm.
Qed.

Lemma a_group_eq T p gm g : gmem T !! p = Some gm → a_group T p g → g = m_group gm.
Proof. intros Hgm [_ H]. rewrite Hgm in H. by injection H. Qed.

(** One group, tested. *)
Lemma check_one_ok w T p (named : positive → Prop) :
  groups_ok w T → p ∈ w_all w → named p → (∀ q, q ∈ w_all w → named q → q = p) →
  returns (g ← get_group p;
           if decide (active_count g = 0)%nat then mret (inl ENOENT)
           else if negb (check_space cfg g) && negb (trunk_used && check_space_trunk cfg g) then mret (inl ENOSPC)
           else mret (inr p)) T (λ r T', T' = T ∧ named_chosen T named r).
Proof.
  intros Hok Hp Hn Huniq. destruct (a_group_object w T p Hok Hp) as (gm & Hgm & Hag). gstep.
  destruct (decide _) as [Ha|Ha].
  { apply returns_ret. split; [done|]. left. split; [done|]. intros q g Hq Hnq.
    rewrite (Huniq q (a_group_in w T q g Hok Hq) Hnq) in Hq. by rewrite (a_group_eq T p gm g Hgm Hq). }
  destruct (_ && _) eqn:E; apply returns_ret; (split; [done|]).
  - right. split; [done|]. exists p, (m_group gm). split; [done|]. split; [done|]. by apply takes_not.
  - exists (m_group gm). split; [done|]. split; [done|]. by apply takes_dec.
Qed.

Lemma select_given_group_ok w T name :
  groups_ok w T → (length name < FDFS_GROUP_NAME_SIZE)%nat →
  returns (select_given_group cfg name) T (λ r T', T' = T ∧
    named_chosen T (λ p, name_of (gmem T) p = Some name) r).
Proof.
  intros Hok Hlen. unfold select_given_group. apply returns_bind.
  eapply returns_mono; [by apply (get_group_ex_ok Hok)|]. intros [p|] T0 [-> Hnamed]; cbn [group_named] in Hnamed.
  - destruct Hnamed as [Hp Hn]. apply (check_one_ok w); [done|done|done|].
    intros q Hq Hnq. by apply (name_inj Hok q p name).
  - apply returns_ret. split; [done|]. left. split; [done|]. intros p g Hg Hn. by destruct (Hnamed p (a_group_in w T p g Hok Hg)).
Qed.

Lemma select_configured_group_ok w T :
  groups_ok w T →
  returns (select_configured_group cfg) T (λ r T', T' = T ∧
    named_chosen T (λ p, pStoreGroup (g_groups T) = Some p) r).
Proof.
  intros Hok. unfold select_configured_group. gstep. destruct (pStoreGroup (g_groups T)) as [p|] eqn:E.
  - apply (check_one_ok w); [done|by apply (gok_store _ _ Hok)|done|]. intros q _ Hq. by injection Hq.
  - apply returns_ret. split; [done|]. left. split; [done|]. by intros p g _ Hn.
Qed.

(** [n] slots from [i] on. *)
Definition scan_spec (T : tracker_state) (test : FDFSGroupInfo → bool) (n i : nat) (have : bool)
    (r : bool * option (nat * positive)) : Prop :=
  match r.2 with
  | Some (j, p) => (i ≤ j < i + n)%nat ∧ ∃ g, mjoin (sorted_groups (g_groups T) !! j) = Some p ∧
      slot T j = Some g ∧ (0 < active_count g)%nat ∧ test g = true
  | None =>
      (∀ j g, (i ≤ j < i + n)%nat → slot T j = Some g → (0 < active_count g)%nat → test g = false) ∧
      (r.1 = true ↔ have = true ∨ ∃ j g, (i ≤ j < i + n)%nat ∧ slot T j = Some g ∧ (0 < active_count g)%nat)
  end.

Lemma scan_groups_ok w T test n i have :
  groups_ok w T → (i + n ≤ gs_count (g_groups T))%nat →
  returns (scan_groups test n i have) T (λ r T', T' = T ∧ scan_spec T test n i have r).
Proof.
  intros Hok. revert i have. induction n as [|n IH]; intros i have Hi; cbn [scan_groups].
  { apply returns_ret. split; [done|]. split; [intros j g Hj; lia|]. cbn. split; [by left|].
    intros [?|(j & g & Hj & _)]; [done|lia]. }
  destruct (sorted_at w T i Hok) as (p & gm & Hp & _ & _ & Hgm & _); [lia|].
  gstep. apply returns_bind, (returns_deref _ _ p); [done|]. gstep.
  assert (Hslot : slot T i = Some (m_group gm)) by (unfold slot; rewrite Hp; cbn; by rewrite Hgm).
  assert (Hcase : ∀ j, (i ≤ j < i + S n)%nat → j = i ∨ (S i ≤ j < S i + n)%nat) by lia.
  destruct (decide _) as [Ha|Ha]; [|destruct (test (m_group gm)) eqn:Et].
  - eapply returns_mono; [apply IH; lia|]. intros [b [[j q]|]] T0 [-> H]; (split; [done|]).
    + destruct H as (Hj & g & H). split; [lia|]. by exists g.
    + destruct H as [H1 H2]. cbn [fst snd] in *. split.
      * intros j g [->|Hj]%Hcase Hg Hag; [simplify_eq; lia|by apply (H1 j)].
      * rewrite H2. split; (intros [?|(j & g & Hj & Hg & Hag)]; [by left|]).
        -- right. exists j, g. split; [lia|done].
        -- apply Hcase in Hj as [->|Hj]; [simplify_eq; lia|]. right. by exists j, g.
  - apply returns_ret. split; [done|]. split; [lia|]. exists (m_group gm). split; [done|]. split; [done|]. split; [lia|done].
  - eapply returns_mono; [apply IH; lia|]. intros [b [[j q]|]] T0 [-> H]; (split; [done|]).
    + destruct H as (Hj & g & H). split; [lia|]. by exists g.
    + destruct H as [H1 H2]. cbn [fst snd] in *. split.
      * intros j g [->|Hj]%Hcase Hg Hag; [by simplify_eq|by apply (H1 j)].
      * rewrite H2. split; [intros _|by left]. right. exists i, (m_group gm). split; [lia|]. split; [done|lia].
Qed.

(** Slots and groups. *)
Lemma slot_group w T j p g : groups_ok w T → (j < gs_count (g_groups T))%nat →
  mjoin (sorted_groups (g_groups T) !! j) = Some p → slot T j = Some g → a_group T p g.
Proof.
  intros Hok Hj Hp Hs. destruct (sorted_at w T j Hok Hj) as (q & gm & Hq & _ & Hqa & Hgm & _).
  assert (q = p) as -> by congruence. unfold slot in Hs. rewrite Hp in Hs. cbn in Hs. split; [by rewrite (table_groups w T Hok)|done].
Qed.

Lemma group_slot w T p g : groups_ok w T → a_group T p g →
  ∃ j, (j < gs_count (g_groups T))%nat ∧ slot T j = Some g.
Proof.
  intros Hok Hag. assert (Hp := a_group_in w T p g Hok Hag). destruct Hag as [_ Hg].
  assert (Hs : p ∈ w_sorted w) by by apply (sorted_all Hok).
  apply list_elem_of_lookup in Hs as [j Hj]. exists j.
  assert (Hlt := lookup_lt_Some _ _ _ Hj). split.
  { by rewrite (gok_count _ _ Hok), <- (Permutation_length (gok_perm _ _ Hok)). }
  unfold slot. destruct (gok_sorted _ _ Hok) as [rest ->].
  rewrite lookup_app_l, list_lookup_fmap, Hj by (by rewrite length_fmap). exact Hg.
Qed.

Lemma some_slot w T : groups_ok w T →
  some_active T ↔ ∃ j g, (j < gs_count (g_groups T))%nat ∧ slot T j = Some g ∧ (0 < active_count g)%nat.
Proof.
  intros Hok. split.
  - intros (p & g & Hg & Ha). destruct (group_slot w T p g Hok Hg) as (j & Hj & Hs). by exists j, g.
  - intros (j & g & Hj & Hs & Ha). destruct (sorted_at w T j Hok Hj) as (p & gm & Hp & _).
    exists p, g. split; [by apply (slot_group w T j)|done].
Qed.

(** Only the group in turn may differ. *)
Definition turned (T T' : tracker_state) : Prop := T' = T ∨ ∃ i, T' = set_write_group T i.

(** A slot that passes one of the two tests. *)
Lemma slot_chosen w T j p g :
  groups_ok w T → (j < gs_count (g_groups T))%nat → mjoin (sorted_groups (g_groups T) !! j) = Some p →
  slot T j = Some g → (0 < active_count g)%nat →
  (check_space cfg g = true ∨ trunk_used = true ∧ check_space_trunk cfg g = true) →
  (check_space cfg g = true ∨ store_lookup cfg = FDFS_STORE_LOOKUP_LOAD_BALANCE ∨ all_full T) →
  group_chosen T (inr p).
Proof. intros Hok Hj Hp Hs Ha Ht Hw. exists g. split; [by apply (slot_group w T j)|]. by split. Qed.

Lemma scan_all_groups_ok w T wi gw :
  groups_ok w T → (wi < gs_count (g_groups T))%nat → slot T wi = Some gw →
  ((0 < active_count gw)%nat → check_space cfg gw = false) →
  returns (scan_all_groups cfg (gs_count (g_groups T)) wi (bool_decide (0 < active_count gw)%nat)) T (λ r T',
    turned T T' ∧ group_chosen T r).
Proof.
  intros Hok Hwi Hgw Hcur. unfold scan_all_groups. set (n := gs_count (g_groups T)) in *.
  apply returns_bind. eapply returns_mono; [apply (scan_groups_ok w T); [done|unfold n in *; lia]|].
  intros [h1 [[j p]|]] T0 [-> H1].
  { destruct H1 as (Hj & g & Hp & Hs & Ha & Ht). unfold found_group. gstep. apply returns_ret. split; [right; by exists j|].
    apply (slot_chosen w T j p g); auto. unfold n in *. lia. }
  apply returns_bind. eapply returns_mono; [apply (scan_groups_ok w T); [done|unfold n in *; lia]|].
  intros [h2 [[j p]|]] T0 [-> H2].
  { destruct H2 as (Hj & g & Hp & Hs & Ha & Ht). unfold found_group. gstep. apply returns_ret. split; [right; by exists j|].
    apply (slot_chosen w T j p g); auto. unfold n in *. lia. }
  destruct H1 as [H1 Hh1], H2 as [H2 Hh2]. cbn [fst snd] in *.
  assert (Hcase : ∀ j, (j < n)%nat → j = wi ∨ (S wi ≤ j < S wi + (n - S wi))%nat ∨ (0 ≤ j < 0 + wi)%nat) by lia.
  assert (Hfull : all_full T).
  { intros p g Hg Ha. destruct (group_slot w T p g Hok Hg) as (j & Hj & Hs).
    destruct (Hcase j Hj) as [->|[Hj'|Hj']]; [simplify_eq; auto|by apply (H1 j)|by apply (H2 j)]. }
  assert (Hsome : h2 = true ↔ some_active T).
  { rewrite (some_slot w T Hok), Hh2, Hh1, bool_decide_eq_true. fold n. split.
    - intros [[Ha|(j & g & Hj & H)]|(j & g & Hj & H)]; [exists wi, gw|exists j, g|exists j, g]; (split; [lia|done]).
    - intros (j & g & Hj & Hs & Ha). destruct (Hcase j Hj) as [->|[Hj'|Hj']].
      + left; left. by simplify_eq.
      + left; right. by exists j, g.
      + right. by exists j, g. }
  destruct h2; cbn [negb].
  2: { apply returns_ret. split; [by left|]. left. split; [done|]. intros H. by apply Hsome in H. }
  assert (Hact : some_active T) by by apply Hsome.
  destruct trunk_used eqn:Etr; cbn [negb].
  2: { apply returns_ret. split; [by left|]. right. split; [done|]. split; [done|]. intros p g Hg [Ha [Hc|[Ht _]]]; [|congruence].
       by rewrite (Hfull p g Hg Ha) in Hc. }
  apply returns_bind. eapply returns_mono; [apply (scan_groups_ok w T); [done|unfold n in *; lia]|].
  intros [h3 [[j p]|]] T0 [-> H3].
  - destruct H3 as (Hj & g & Hp & Hs & Ha & Ht). unfold found_group. gstep. apply returns_ret. split; [right; by exists j|].
    apply (slot_chosen w T j p g); auto. unfold n in *. lia.
  - apply returns_ret. split; [by left|]. right. split; [done|]. split; [done|]. intros p g Hg [Ha Hc].
    destruct (group_slot w T p g Hok Hg) as (j & Hj & Hs). destruct Hc as [Hc|[_ Hc]].
    + by rewrite (Hfull p g Hg Ha) in Hc.
    + destruct H3 as [H3 _]. rewrite (H3 j g) in Hc; [done|fold n in Hj; lia|done|done].
Qed.

Lemma select_next_group_ok w T :
  groups_ok w T → gs_count (g_groups T) ≠ 0%nat →
  returns (select_next_group cfg) T (λ r T', turned T T' ∧ group_chosen T r).
Proof.
  intros Hok Hn. unfold select_next_group. gstep.
  set (wi := if decide _ then 0%nat else _). assert (Hwi : (wi < gs_count (g_groups T))%nat) by (unfold wi; destruct (decide _); lia).
  destruct (sorted_at w T wi Hok Hwi) as (p & gm & Hp & _ & _ & Hgm & _).
  apply returns_bind, (returns_deref _ _ p); [done|]. gstep.
  assert (Hslot : slot T wi = Some (m_group gm)) by (unfold slot; rewrite Hp; cbn; by rewrite Hgm).
  destruct (bool_decide _ && _) eqn:E.
  - apply andb_true_iff in E as [Ha%bool_decide_eq_true E]. apply returns_ret. split; [by left|].
    apply (slot_chosen w T wi p (m_group gm)); try done.
    + destruct (check_space cfg (m_group gm)); [by left|]. right. by destruct trunk_used, (check_space_trunk cfg (m_group gm));
        destruct (store_lookup cfg =? _).
    + destruct (check_space cfg (m_group gm)); [by left|]. right; left. cbn in E.
      destruct trunk_used; [|done]. cbn in E. apply andb_true_iff in E as [E _]. by apply Z.eqb_eq.
  - apply (scan_all_groups_ok w); [done|done|done|]. intros Ha. rewrite bool_decide_eq_true_2 in E by done. cbn in E.
    by destruct (check_space cfg (m_group gm)).
Qed.

Lemma advance_write_group_ok T : returns (advance_write_group cfg) T (λ _ T', turned T T').
Proof.
  unfold advance_write_group. destruct (_ =? _); [|apply returns_ret; by left].
  apply returns_upd_groups. right. eexists. reflexivity.
Qed.

Lemma turned_trans T1 T2 T3 : turned T1 T2 → turned T2 T3 → turned T1 T3.
Proof. intros [->|[i ->]] [->|[j ->]]; [by left|right; by eexists..|right; exists j; reflexivity]. Qed.

(** The answer of [select_group]. *)
Definition group_answer (T : tracker_state) (cmd : Z) (body : list Z) (r : Z + positive) : Prop :=
  if with_group cmd then named_chosen T (λ p, name_of (gmem T) p = Some (c_string body)) r
  else if (store_lookup cfg =? FDFS_STORE_LOOKUP_ROUND_ROBIN) || (store_lookup cfg =? FDFS_STORE_LOOKUP_LOAD_BALANCE)
  then group_chosen T r
  else if store_lookup cfg =? FDFS_STORE_LOOKUP_SPEC_GROUP then
    named_chosen T (λ p, pStoreGroup (g_groups T) = Some p) r
  else r = inl EINVAL.

Lemma select_group_ok w T cmd body :
  groups_ok w T → gs_count (g_groups T) ≠ 0%nat → (length (c_string body) < FDFS_GROUP_NAME_SIZE)%nat →
  returns (select_group cfg cmd body) T (λ r T', turned T T' ∧ group_answer T cmd body r).
Proof.
  intros Hok Hn Hlen. unfold select_group, group_answer. destruct (with_group cmd).
  { eapply returns_mono; [by apply (select_given_group_ok w)|]. intros r T' [-> H]. split; [by left|done]. }
  destruct (_ || _).
  { apply returns_bind. eapply returns_mono; [by apply (select_next_group_ok w)|]. intros [e|p] T1 [H1 Hr].
    - by apply returns_ret.
    - apply returns_bind. eapply returns_mono; [apply advance_write_group_ok|]. intros u T2 H2. apply returns_ret.
      split; [|done]. exact (turned_trans _ _ _ H1 H2). }
  destruct (_ =? _); [|apply returns_ret; split; [by left|done]].
  eapply returns_mono; [by apply (select_configured_group_ok w)|]. intros r T' [-> H]. split; [by left|done].
Qed.

(** The group of an answer. *)
Lemma answer_takes T cmd body p : group_answer T cmd body (inr p) → ∃ g, a_group T p g ∧ group_takes g.
Proof.
  unfold group_answer. destruct (with_group cmd); [intros (g & _ & H); by exists g|].
  destruct (_ || _); [intros (g & H1 & H2 & _); by exists g|]. destruct (_ =? _); [intros (g & _ & H); by exists g|done].
Qed.

(** ** The store path *)

Definition tests_ok (d : FDFSStorageDetail) (avg extra : Z) (i : nat) : Prop :=
  server_path_has_space cfg d avg extra i = Some true.

Definition refused (d : FDFSStorageDetail) (avg extra : Z) (i : nat) : Prop :=
  server_path_has_space cfg d avg extra i = Some false.

Lemma server_path_has_space_ok n d avg extra i : sized n d → (i < Z.to_nat n)%nat →
  tests_ok d avg extra i ∨ refused d avg extra i.
Proof.
  intros [_ Hsz] Hi. destruct Hsz as (t & f & Ht & Hf & Lt & Lf); [lia|]. unfold tests_ok, refused, server_path_has_space.
  rewrite Ht, Hf. cbn. destruct (lookup_lt_is_Some_2 t i) as [x ->]; [lia|]. destruct (lookup_lt_is_Some_2 f i) as [y ->]; [lia|].
  cbn. destruct (fdfs_check_reserved_space_path _ _ _ _); auto.
Qed.

Lemma scan_paths_ok n d avg extra k i : sized n d → (i + k ≤ Z.to_nat n)%nat →
  ∃ r, scan_paths cfg d avg extra k i = Some r ∧
    match r with
    | Some j => (i ≤ j < i + k)%nat ∧ tests_ok d avg extra j
    | None => ∀ j, (i ≤ j < i + k)%nat → refused d avg extra j
    end.
Proof.
  intros Hsz. revert i. induction k as [|k IH]; intros i Hi; cbn [scan_paths].
  { exists None. split; [done|]. intros j Hj. lia. }
  destruct (server_path_has_space_ok n d avg extra i Hsz) as [H|H]; [lia| |]; rewrite H; cbn [mbind option_bind].
  - exists (Some i). split; [done|]. split; [lia|done].
  - destruct (IH (S i)) as (r & -> & Hr); [lia|]. exists r. split; [done|]. destruct r as [j|].
    + destruct Hr. split; [lia|done].
    + intros j Hj. destruct (decide (j = i)) as [->|]; [done|]. apply Hr. lia.
Qed.

(** The space kept free on a path. *)
Definition avg_reserved (g : FDFSGroupInfo) : Z := Z.quot (rs_mb (reserved_space cfg)) (store_path_count g).

(** A path that is answered has space, with the space in trunk files of the
    group only when no path has it without.  An error means that no path
    has space, or that only paths before the one in turn have it, with the
    space in trunk files. *)
Definition path_chosen (g : FDFSGroupInfo) (d : FDFSStorageDetail) (r : Z + Z) : Prop :=
  let n := Z.to_nat (store_path_count g) in
  let plain := tests_ok d (avg_reserved g) 0 in
  let trunk := tests_ok d (avg_reserved g) (trunk_free_mb g) in
  match r with
  | inr i => 0 ≤ i < store_path_count g ∧
      (plain (Z.to_nat i) ∨ trunk_used = true ∧ trunk (Z.to_nat i) ∧ ∀ j, (j < n)%nat → ¬ plain j)
  | inl e => e = ENOSPC ∧ (∀ j, (j < n)%nat → ¬ plain j) ∧
      (trunk_used = true → ∀ j, (j < n)%nat → trunk j → Z.of_nat j < current_write_path d < store_path_count g)
  end.

(** Only the path in turn of the server differs. *)
Definition path_moved (q : positive) (s s' : group_state) : Prop :=
  grp s' = grp s ∧ ∃ d c, details s !! q = Some d ∧ details s' = <[q := d <| current_write_path := c |>]> (details s).

Lemma path_moved_refl q s d : details s !! q = Some d → path_moved q s s.
Proof.
  intros Hd. split; [done|]. exists d, (current_write_path d). split; [done|]. symmetry. apply insert_id. rewrite Hd. by destruct d.
Qed.

Lemma path_moved_trans q s1 s2 s3 : path_moved q s1 s2 → path_moved q s2 s3 → path_moved q s1 s3.
Proof.
  intros (Hg & d & c & Hd & E) (Hg' & d' & c' & Hd' & E'). split; [congruence|]. exists d, c'. split; [done|].
  rewrite E', E in *. rewrite lookup_insert_eq in Hd'. injection Hd' as <-. by rewrite insert_insert_eq.
Qed.

Lemma standing_path v ms s q d c :
  standing v ms s → q ∈ v_all v → details s !! q = Some d → 0 ≤ c < 2 ^ 31 - 1 →
  standing v ms (s <| details ::= <[q := d <| current_write_path := c |>]> |>).
Proof.
  intros Hs Hq Hd Hc. apply (standing_sizes v ms s q d); [done|done|done|done|].
  destruct (ready_object v s q (st_ok _ _ _ Hs)) as (d' & Hd' & _ & Hsz); [apply Hs|by apply in_all|].
  assert (d' = d) as -> by congruence. by split.
Qed.

Lemma select_path_ok v ms s q :
  standing v ms s → q ∈ v_all v → 0 < store_path_count (grp s) →
  returns (select_path cfg q) s (λ r s', standing v ms s' ∧ path_moved q s s' ∧
    ∃ d, details s !! q = Some d ∧ path_chosen (grp s) d r).
Proof.
  intros Hs Hq Hpos. unfold select_path. step.
  destruct (ready_object v s q (st_ok _ _ _ Hs)) as (d & Hd & Hsz); [apply Hs|by apply in_all|]. assert (Hcw := proj1 Hsz). step.
  assert (Hspc : store_path_count (grp s) < 2 ^ 31) by apply (st_ready _ _ _ Hs).
  set (n := store_path_count (grp s)) in *. fold (avg_reserved (grp s)). set (avg := avg_reserved (grp s)).
  set (wi := if n <=? current_write_path d then 0 else current_write_path d).
  assert (Hwi : 0 ≤ wi < n ∧ (wi = 0 ∨ wi = current_write_path d)) by (unfold wi; destruct (Z.leb_spec n (current_write_path d)); lia).
  destruct Hwi as [Hwi Hwc]. rewrite (proj2 (Z.ltb_ge wi 0)) by lia.
  assert (Hset : ∀ i r, (i < Z.to_nat n)%nat → path_chosen (grp s) d r →
    returns (upd_server q (λ d, d <| current_write_path := Z.of_nat i |>);; mret r) s (λ r s',
      standing v ms s' ∧ path_moved q s s' ∧ ∃ d, details s !! q = Some d ∧ path_chosen (grp s) d r)).
  { intros i r Hi Hr. apply returns_bind, (returns_upd_server _ q d); [done|]. apply returns_ret. split; [|split].
    - apply standing_path; [done|done|done|lia].
    - split; [done|]. by exists d, (Z.of_nat i).
    - by exists d. }
  assert (Hkeep : ∀ r, path_chosen (grp s) d r → returns (mret r) s (λ r s',
      standing v ms s' ∧ path_moved q s s' ∧ ∃ d, details s !! q = Some d ∧ path_chosen (grp s) d r)).
  { intros r Hr. apply returns_ret. split; [done|]. split; [by apply (path_moved_refl q s d)|by exists d]. }
  destruct (server_path_has_space_ok n d avg 0 (Z.to_nat wi) Hsz) as [H|H]; [lia| |];
    (apply returns_bind; eapply returns_deref; [exact H|]).
  { apply Hkeep. split; [done|]. by left. }
  destruct (scan_paths_ok n d avg 0 (Z.to_nat n) 0 Hsz) as (r1 & E1 & H1); [lia|].
  apply returns_bind, (returns_deref _ _ r1); [done|]. destruct r1 as [i|].
  { destruct H1 as [Hi H1]. apply Hset; [lia|]. cbn. fold n avg. split; [lia|]. left. by rewrite Nat2Z.id. }
  assert (Hplain : ∀ j, (j < Z.to_nat n)%nat → ¬ tests_ok d avg 0 j).
  { intros j Hj Ht. assert (Hr := H1 j ltac:(lia)). unfold refused, tests_ok in *. congruence. }
  destruct trunk_used eqn:Etr; cbn [negb].
  2: { apply Hkeep. split; [done|]. split; [exact Hplain|]. by rewrite Etr. }
  destruct (scan_paths_ok n d avg (trunk_free_mb (grp s)) (Z.to_nat n - Z.to_nat wi) (Z.to_nat wi) Hsz) as (r2 & E2 & H2); [lia|].
  apply returns_bind, (returns_deref _ _ r2); [done|]. destruct r2 as [i|].
  { destruct H2 as [Hi H2]. apply Hset; [lia|]. cbn. fold n avg. split; [lia|]. right. rewrite Nat2Z.id. by split. }
  assert (Hbefore : ∀ j, (j < Z.to_nat n)%nat → tests_ok d avg (trunk_free_mb (grp s)) j → Z.of_nat j < current_write_path d < n).
  { intros j Hj Ht. destruct (decide (Z.to_nat wi ≤ j)%nat) as [Hle|Hlt].
    - assert (Hr := H2 j ltac:(lia)). unfold refused, tests_ok in *. congruence.
    - destruct Hwc; lia. }
  destruct (scan_paths_ok n d avg (trunk_free_mb (grp s)) (Z.to_nat wi) 0 Hsz) as (r3 & E3 & H3); [lia|].
  assert (Hfail : path_chosen (grp s) d (inl ENOSPC)) by (split; [done|]; split; [exact Hplain|]; intros _; exact Hbefore).
  apply returns_bind, (returns_deref _ _ r3); [done|]. destruct r3 as [i|]; [|by apply Hkeep].
  destruct H3 as [Hi _]. apply Hset; [lia|done].
Qed.

Lemma advance_path_ok v ms s q :
  standing v ms s → q ∈ v_all v → 0 < store_path_count (grp s) →
  returns (advance_path cfg q) s (λ _ s', standing v ms s' ∧ path_moved q s s').
Proof.
  intros Hs Hq Hpos. unfold advance_path. destruct (calm_object v ms s q Hs Hq) as [d Hd].
  destruct (_ =? _); [|apply returns_ret; split; [done|by apply (path_moved_refl q s d)]]. step.
  assert (Hcw : 0 ≤ current_write_path d < 2 ^ 31 - 1).
  { destruct (ready_object v s q (st_ok _ _ _ Hs)) as (d' & Hd' & Hcw & _); [apply Hs|by apply in_all|].
    assert (d' = d) as -> by congruence. done. }
  assert (Hspc : store_path_count (grp s) < 2 ^ 31) by apply (st_ready _ _ _ Hs).
  apply (returns_upd_server _ q d); [done|]. cbv zeta. rewrite s32_id by (unfold is_int32; lia). set (c := if _ <=? _ then _ else _).
  split; [|split; [done|by exists d, c]]. apply standing_path; [done|done|done|]. unfold c.
  destruct (Z.leb_spec (store_path_count (grp s)) (current_write_path d + 1)); lia.
Qed.

(** ** The server *)

(** The group but for the server in turn. *)
Definition same_settings (g g' : FDFSGroupInfo) : Prop := ∃ c, g' = g <| current_write_server := c |>.

Lemma writable_settings s :
  ends (tracker_get_writable_storage (t_config cfg)) s (λ _ s', same_settings (grp s) (grp s')).
Proof.
  unfold tracker_get_writable_storage. estep. destruct (_ =? _).
  - estep. estep. by eexists.
  - estep. exists (current_write_server (grp s)). by destruct (grp s).
Qed.

Lemma path_chosen_settings g g' d r : same_settings g g' → path_chosen g' d r ↔ path_chosen g d r.
Proof. by intros [c ->]. Qed.

Lemma select_server_ok v ms s one :
  standing v ms s → (0 < active_count (grp s))%nat →
  returns (select_server cfg one) s (λ r s', standing v ms s' ∧ same_settings (grp s) (grp s') ∧
    details s' = details s ∧ ∃ q, r = Some q ∧ q ∈ v_active v).
Proof.
  intros Hs Ha. assert (Hok := st_ok _ _ _ Hs).
  assert (Hne : v_active v ≠ []) by (intros E; rewrite (ok_active_count _ _ _ Hok), E in Ha; cbn in Ha; lia).
  unfold select_server. destruct one.
  - eapply returns_mono; [apply (returns_keeps settled); [apply _|]; apply returns_ends;
      [by apply (get_writable_storage_ok (t_config cfg) v s)|apply writable_settings]|].
    intros r s' [[(Hd & Hok' & q & -> & Hq) Hset] Hk]. split; [|by eauto].
    eapply (standing_settled v v); [done|done|done|]. rewrite Hd. apply Hs.
  - step. destruct (ok_active _ _ _ Hok) as [rest Hrest]. destruct (v_active v) as [|q l] eqn:E; [done|].
    apply returns_bind, (returns_deref _ _ q); [by rewrite Hrest|]. apply returns_ret. split; [done|]. split.
    { exists (current_write_server (grp s)). by destruct (grp s). }
    split; [done|]. exists q. split; [done|by left].
Qed.

(** ** The reply *)

Definition ip_of (s : group_state) (p : positive) : option (list Z) := ip_addr <$> details s !! p.

Lemma ip_addrs_of_ok s l : (∀ p, p ∈ l → is_Some (details s !! p)) →
  returns (ip_addrs_of l) s (λ r s', s' = s ∧ mapM (ip_of s) l = Some r).
Proof.
  induction l as [|p l IH]; intros Hl; cbn [ip_addrs_of mapM]; [by apply returns_ret|].
  destruct (Hl p) as [d Hd]; [by left|]. step. apply returns_bind.
  eapply returns_mono; [apply IH; intros q Hq; apply Hl; by right|]. intros r s' [-> E]. apply returns_ret.
  split; [done|]. replace (ip_of s p) with (Some (ip_addr d)) by (unfold ip_of; by rewrite Hd). cbn. by rewrite E.
Qed.

Lemma path_moved_ip q s s' p : path_moved q s s' → ip_of s' p = ip_of s p.
Proof.
  intros (_ & d & c & Hd & E). unfold ip_of. rewrite E. destruct (decide (q = p)) as [<-|Hne].
  - by rewrite lookup_insert_eq, Hd.
  - by rewrite lookup_insert_ne.
Qed.

Lemma mapM_ip_ext s s' l : (∀ p, ip_of s' p = ip_of s p) → mapM (ip_of s') l = mapM (ip_of s) l.
Proof. intros H. induction l as [|p l IH]; cbn [mapM]; [done|]. by rewrite H, IH. Qed.

(** What the client is told. *)
Definition reply_ok (s : group_state) (one : bool) (reply : store_reply) : Prop :=
  ∃ q d i, q ∈ active_list s ∧ details s !! q = Some d ∧ status d = FDFS_STORAGE_STATUS_ACTIVE ∧
    path_chosen (grp s) d (inr i) ∧ r_write_path_index reply = u8 i ∧
    r_group_name reply = group_name (grp s) ∧ r_storage_port reply = storage_port (grp s) ∧
    mapM (ip_of s) (if one then [q] else active_list s) = Some (r_ip_addrs reply).

(** No server has joined with its paths, or the server chosen is full. *)
Definition refusal_ok (s : group_state) (e : Z) : Prop :=
  e = ENOENT ∧ store_path_count (grp s) = 0 ∨
  ∃ q d, q ∈ active_list s ∧ details s !! q = Some d ∧ path_chosen (grp s) d (inl e).

Lemma query_group_ok v ms s one :
  standing v ms s → (0 < active_count (grp s))%nat →
  returns (query_group cfg one) s (λ r s', standing v ms s' ∧ group_name (grp s') = group_name (grp s) ∧
    match r with inr reply => reply_ok s one reply | inl e => refusal_ok s e end).
Proof.
  intros Hs Ha. unfold query_group. step. assert (Hok := st_ok _ _ _ Hs).
  assert (Hal := active_list_ok v s Hok). unfold reply_ok, refusal_ok. rewrite Hal.
  destruct (Z.leb_spec (store_path_count (grp s)) 0) as [Hz|Hz].
  { apply returns_ret. split; [done|]. split; [done|]. left. split; [done|]. assert (H := proj1 (proj2 (st_ready _ _ _ Hs))). lia. }
  apply returns_bind. eapply returns_mono; [by apply (select_server_ok v ms s one)|].
  intros r s1 (Hs1 & Hset & Hd1 & q & -> & Hq). destruct Hset as [c Hg1].
  assert (Hqa : q ∈ v_all v) by by apply (active_all Hok).
  assert (Hpc1 : store_path_count (grp s1) = store_path_count (grp s)) by by rewrite Hg1.
  apply returns_bind. eapply returns_mono; [apply (select_path_ok v ms s1 q); [done|done|lia]|].
  intros r s2 (Hs2 & Hmv2 & d & Hd & Hch). rewrite Hd1 in Hd.
  assert (Hch' : path_chosen (grp s) d r) by (rewrite Hg1 in Hch; exact Hch).
  assert (Hact : status d = FDFS_STORAGE_STATUS_ACTIVE) by by apply (states_active Hok q d).
  destruct r as [e|i].
  { apply returns_ret. split; [done|]. split; [by rewrite (proj1 Hmv2), Hg1|]. right. by exists q, d. }
  assert (Hpc2 : store_path_count (grp s2) = store_path_count (grp s)) by by rewrite (proj1 Hmv2).
  apply returns_bind. eapply returns_mono; [apply (advance_path_ok v ms s2 q); [done|done|lia]|].
  intros u s3 [Hs3 Hmv3]. assert (Hmv := path_moved_trans q s1 s2 s3 Hmv2 Hmv3). assert (Hok3 := st_ok _ _ _ Hs3).
  step. set (l := if one then [q] else v_active v).
  assert (Hl : returns (if one then mret [q] else servers_in (active_servers (grp s3)) (active_count (grp s3))) s3
    (λ r s', s' = s3 ∧ r = l)).
  { unfold l. destruct one; [by apply returns_ret|]. unfold servers_in. destruct (ok_active _ _ _ Hok3) as [rest ->].
    rewrite (ok_active_count _ _ _ Hok3), entries_spec. by apply (returns_deref _ _ (v_active v)). }
  assert (Hin : ∀ p, p ∈ l → p ∈ v_all v).
  { intros p. unfold l. destruct one; [by intros ->%list_elem_of_singleton|apply (active_all Hok)]. }
  apply returns_bind. eapply returns_mono; [exact Hl|]. intros servers s4 [-> ->].
  apply returns_bind. eapply returns_mono; [apply ip_addrs_of_ok; intros p Hp; apply (objects_in_use v); auto|].
  intros ips s4 [-> Hips]. destruct (decide _) as [Hz2|_].
  { exfalso. apply length_zero_iff_nil in Hz2. unfold l in Hz2. destruct one; [done|]. rewrite Hz2 in Hq. by apply not_elem_of_nil in Hq. }
  apply returns_ret. split; [done|]. split; [by rewrite (proj1 Hmv), Hg1|].
  exists q, d, i. split; [done|]. split; [done|]. split; [done|]. split; [done|]. cbn. split; [done|].
  rewrite (proj1 Hmv), Hg1. split; [done|]. split; [done|]. rewrite <- Hips. symmetry. apply mapM_ip_ext.
  intros p. rewrite (path_moved_ip q s1 s3 p Hmv). unfold ip_of. by rewrite Hd1.
Qed.

(** ** The handler *)

Lemma c_string_length b : (length (c_string b) ≤ length b)%nat.
Proof. induction b as [|c b IH]; cbn; [done|]. destruct (c =? 0); cbn; lia. Qed.


Definition upload_answer (T : tracker_state) (cmd : Z) (body : list Z) (r : Z + store_reply) : Prop :=
  match r with
  | inl e =>
      e = EINVAL ∧ length body ≠ (if with_group cmd then FDFS_GROUP_NAME_MAX_LEN else 0%nat) ∨
      e = ENOENT ∧ gs_count (g_groups T) = 0%nat ∨
      group_answer T cmd body (inl e) ∨
      ∃ p gm, group_answer T cmd body (inr p) ∧ gmem T !! p = Some gm ∧ refusal_ok (enter T gm) e
  | inr reply =>
      ∃ p gm, group_answer T cmd body (inr p) ∧ gmem T !! p = Some gm ∧ reply_ok (enter T gm) (for_one cmd) reply
  end.

Lemma query_storage_ok w T cmd body :
  groups_ok w T →
  returns (tracker_deal_service_query_storage cfg cmd body) T (λ r T',
    groups_ok w T' ∧ tracker_table T' = tracker_table T ∧ upload_answer T cmd body r).
Proof.
  intros Hok. unfold tracker_deal_service_query_storage. cbv zeta.
  destruct (Nat.eqb_spec (length body) (if with_group cmd then FDFS_GROUP_NAME_MAX_LEN else 0%nat)) as [El|El]; cbn [negb].
  2: { apply returns_ret. split; [done|]. split; [done|]. by left. }
  gstep. destruct (decide _) as [Hz|Hnz].
  { apply returns_ret. split; [done|]. split; [done|]. right; by left. }
  apply returns_bind. eapply returns_mono; [apply (select_group_ok w T cmd body); [done|done|]|].
  { assert (H := c_string_length body). destruct (with_group cmd); unfold FDFS_GROUP_NAME_MAX_LEN, FDFS_GROUP_NAME_SIZE in *; lia. }
  intros r T1 [Hturn Hr].
  assert (H1 : groups_ok w T1 ∧ tracker_table T1 = tracker_table T ∧ gmem T1 = gmem T).
  { destruct Hturn as [->|[i ->]]; [done|]. assert (Hok' : groups_ok w (set_write_group T i)) by (destruct Hok; by constructor).
    split; [done|]. split; [by apply (table_eq Hok w)|done]. }
  destruct H1 as (Hok1 & Ht1 & Hm1). destruct r as [e|p].
  { apply returns_ret. split; [done|]. split; [done|]. right; right; by left. }
  destruct (answer_takes T cmd body p Hr) as (g & Hg & Htake). assert (Hp := a_group_in w T p g Hok Hg). destruct (a_group_object w T p Hok Hp) as (gm & Hgm & _).
  rewrite (a_group_eq T p gm g Hgm Hg) in *. clear g Hg.
  eapply returns_mono.
  { apply (in_group_changes Hok1 p _ (λ r s', group_name (grp s') = group_name (m_group gm) ∧ server_states s' = server_states (enter T1 gm) ∧
      match r with inr reply => reply_ok (enter T1 gm) (for_one cmd) reply | inl e => refusal_ok (enter T1 gm) e end)); [done|].
    intros gm' v Hgm' _ Hmem. assert (gm' = gm) as -> by (rewrite Hm1 in Hgm'; congruence).
    destruct (member_standing T1 gm Hmem) as [v' Hs].
    eapply returns_mono; [apply (query_group_ok v' (server_states (enter T1 gm)) (enter T1 gm)); [exact Hs|apply Htake]|].
    intros r s' (Hs' & Hn & Hr'). cbn in Hn. destruct (standing_member v' (server_states (enter T1 gm)) s' Hs') as [Hmem' Hst];
      [rewrite Hn; apply Hmem|].
    split; [done|]. split; [done|]. split; [done|]. split; [done|]. destruct r; exact Hr'. }
  assert (Hgm1 : gmem T1 !! p = Some gm) by by rewrite Hm1.
  intros r T2 (Hok2 & s' & -> & Hn & Hst & Hr'). split; [done|]. split.
  { rewrite (table_leave Hok1 p gm s' Hok2 Hp Hgm1 Hn), Hst, <- Ht1. apply insert_id. by apply (table_lookup Hok1 p gm). }
  destruct r as [e|reply]; [right; right; right|]; by exists p, gm.
Qed.

End store.
