(* ===== verification/TrackerAll.v ===== *)
(** * What the tracker does to all its groups

    The start with an empty table, the periodic check for silent servers and
    the search for trunk servers, on a sound table of groups. *)

From S2P Require Import Prelude CLib SortedArray TrackerMem TrackerMemInv TrackerMemOps TrackerMemSpec TrackerAlive.
From S2P Require Import TrackerGroups TrackerKeeps TrackerGroupsInv TrackerJoinInv TrackerTable.
#[local] Open Scope Z_scope.

(** ** A new tracker *)

Section init.
Context (env : nat → answer).

(** The groups of a tracker that starts. *)
Lemma init_groups_ok T :
  returns (tracker_mem_init_groups env) T (λ r T', (r ≠ 0 → oom env) ∧
    (r = 0 → ∃ spare,
       groups_ok {| w_all := []; w_spare := spare; w_sorted := [] |} T')).
Proof.
  unfold tracker_mem_init_groups. gstep. gstep.
  destruct (c_true (malloc_result a)) eqn:E1; [gstep; apply returns_ret; split; [auto|by intros Hz; rewrite Hz in E1]|].
  apply returns_bind. eapply returns_mono; [apply malloc_groups_ok|]. cbn [g_groups gmem].
  intros [err made] T1 (Hg1 & Hlen & Hnd & Hin & Hout). cbn in Hg1, Hlen, Hin, Hout |- *.
  destruct (c_true err) eqn:E2; [gstep; apply returns_ret; split; [auto|by intros Hz; rewrite Hz in E2]|].
  gstep. gstep. destruct (c_true (malloc_result a0)) eqn:E3;
    [gstep; apply returns_ret; split; [auto|by intros Hz; rewrite Hz in E3]|].
  gstep. apply returns_ret. split; [done|]. intros _. exists made. constructor; cbn; rewrite ?Hg1; cbn; try done.
  - by exists (replicate 2 None).
  - constructor.
  - intros p Hp. by apply not_elem_of_nil in Hp.
  - intros p Hp. destruct (Hin p Hp) as [_ ->]. eexists. split; [done|]. apply blank_zero.
Qed.

End init.

(** ** A loop over the groups *)

Section loop.
Context (w : groups_view) (f : positive → prog tracker_state unit) (P : group_mem → group_mem → Prop).

Definition one_changed (p : positive) (T T' : tracker_state) : Prop :=
  groups_ok w T' ∧ g_groups T' = g_groups T ∧ g_tracker_servers T' = g_tracker_servers T ∧
  ∃ gm gm', gmem T !! p = Some gm ∧ gmem T' = <[p := gm']> (gmem T) ∧ P gm gm'.

Lemma for_groups_ok l T :
  (∀ T p, groups_ok w T → p ∈ w_all w → returns (f p) T (λ _ T', one_changed p T T')) →
  groups_ok w T → NoDup l → (∀ p, p ∈ l → p ∈ w_all w) →
  returns (for_groups f l) T (λ _ T', groups_ok w T' ∧ g_groups T' = g_groups T ∧
    g_tracker_servers T' = g_tracker_servers T ∧
    (∀ p, p ∉ l → gmem T' !! p = gmem T !! p) ∧
    ∀ p gm, p ∈ l → gmem T !! p = Some gm → ∃ gm', gmem T' !! p = Some gm' ∧ P gm gm').
Proof.
  intros Hf Hok Hnd. revert T Hok. induction l as [|p l IH]; intros T Hok Hl; cbn [for_groups].
  { apply returns_ret. split; [done|]. split; [done|]. split; [done|]. split; [done|]. intros p gm Hp. by apply not_elem_of_nil in Hp. }
  apply NoDup_cons in Hnd as [Hpl Hnd]. apply returns_bind. eapply returns_mono; [apply Hf; [done|apply Hl; by left]|].
  intros u T1 (Hok1 & Hg1 & Ht1 & gm & gm' & Hgm & Hm1 & HP). cbn beta in Hm1.
  eapply returns_mono; [apply (IH Hnd T1 Hok1); intros q Hq; apply Hl; by right|].
  intros u' T2 (Hok2 & Hg2 & Ht2 & Hout & Hin). split; [done|]. split; [congruence|]. split; [congruence|]. split.
  - intros q [Hqp Hql]%not_elem_of_cons. by rewrite Hout, Hm1, lookup_insert_ne.
  - intros q gq [->|Hq]%elem_of_cons Hgq.
    + exists gm'. rewrite Hout, Hm1, lookup_insert_eq by done. assert (gq = gm) as -> by congruence. done.
    + apply Hin; [done|]. rewrite Hm1, lookup_insert_ne; [done|]. by intros ->.
Qed.

End loop.

Lemma groups_in_all w T : groups_ok w T →
  groups_in (groups (g_groups T)) (gs_count (g_groups T)) = deref (Some (w_all w)).
Proof. intros Hok. unfold groups_in. by rewrite (gok_all _ _ Hok), (gok_count _ _ Hok), fmap_app, entries_spec. Qed.

Lemma all_nodup w T : groups_ok w T → NoDup (w_all w).
Proof. intros Hok. by destruct (proj1 (NoDup_app _ _) (gok_nodup _ _ Hok)) as (? & _). Qed.

(** One group of the loop, in which [m] is run. *)
Lemma in_group_one {A} w (m : prog group_state A) (P : group_mem → group_mem → Prop) T p :
  Keeps settled m → groups_ok w T → p ∈ w_all w →
  (∀ gm v, group_ok v (m_group gm) (m_details gm) →
     returns m (enter T gm) (λ _ s, group_fine s ∧
       (group_name (grp s) = group_name (m_group gm) → P gm {| m_group := grp s; m_details := details s |}))) →
  returns (in_group p m) T (λ _ T', one_changed w P p T T').
Proof.
  intros Hk Hok Hp Hm. destruct (gok_members _ _ Hok p Hp) as (gm & Hgm & Hmem).
  eapply returns_mono.
  - apply (in_group_changes Hok p m (λ _ s, group_name (grp s) = group_name (m_group gm) ∧
      P gm {| m_group := grp s; m_details := details s |})); [done|].
    intros gm' v Hgm' Hv Hmem'. assert (gm' = gm) as -> by congruence.
    eapply returns_mono; [apply (returns_keeps settled); [done|by apply (Hm gm v)]|].
    intros r s [[Hf HP] Hst]. destruct (member_settled T gm s Hmem Hst Hf) as [Hn Hms]. auto.
  - intros r T' (Hok' & s & -> & _ & HP). split; [done|]. split; [done|]. split; [done|].
    exists gm, {| m_group := grp s; m_details := details s |}. done.
Qed.

(** ** Silent servers *)

Section alive.
Context (env : nat → answer) (cfg : groups_config).

(** The states of the servers of a group after the check. *)
Definition alive_states (s : group_state) : gmap (list Z) Z :=
  offline_states (details s) (idle_list (t_config cfg) s (active_list s)) (server_states s).

Definition states_of (gm : group_mem) : gmap (list Z) Z :=
  server_states {| grp := m_group gm; details := m_details gm;
    glob := {| g_trunk_server_chg_count := 0; changelog := []; g_changelog_fsize := 0; ticks := 0 |} |}.

Lemma states_enter T gm : server_states (enter T gm) = states_of gm.
Proof. done. Qed.

Definition checked (gm gm' : group_mem) : Prop :=
  group_name (m_group gm') = group_name (m_group gm) ∧
  ∀ T, states_of gm' = alive_states (enter T gm).

Definition states_kept (gm gm' : group_mem) : Prop :=
  group_name (m_group gm') = group_name (m_group gm) ∧ states_of gm' = states_of gm.

Lemma check_servers_one w T p : groups_ok w T → p ∈ w_all w →
  returns (in_group p (check_servers_alive (t_config cfg))) T (λ _ T', one_changed w checked p T T').
Proof.
  intros Hok Hp. apply in_group_one; [apply _|done|done|]. intros gm v Hv.
  assert (Hm := server_states_ok v (enter T gm) Hv).
  eapply returns_mono; [apply (check_servers_alive_ok env (t_config cfg) v (enter T gm) _ Hv Hm)|].
  intros r s' (v' & Hok' & Hm' & _). split; [by exists v'|]. intros Hn. split; [done|]. intros T0.
  unfold alive_states. rewrite (active_list_ok v (enter T0 gm) Hv). by apply (server_states_eq v' s').
Qed.

Lemma check_trunk_one w T p : groups_ok w T → p ∈ w_all w →
  returns (in_group p (check_trunk_alive env (t_config cfg))) T (λ _ T', one_changed w states_kept p T T').
Proof.
  intros Hok Hp. apply in_group_one; [apply _|done|done|]. intros gm v Hv.
  assert (Hm := server_states_ok v (enter T gm) Hv).
  eapply returns_mono; [by apply (check_trunk_alive_ok env (t_config cfg) v (enter T gm))|].
  intros r s' (Hok' & Hd & _). split; [by exists v|]. intros Hn. split; [done|].
  apply (server_states_eq v s'); [done|]. by rewrite Hd.
Qed.

Lemma find_trunk_one w T p : groups_ok w T → p ∈ w_all w →
  returns (g ← get_group p;
           match pTrunkServer g with
           | None => in_group p (tracker_mem_find_trunk_server env true);; mret tt
           | Some _ => mret tt
           end) T (λ _ T', one_changed w states_kept p T T').
Proof.
  intros Hok Hp. destruct (gok_members _ _ Hok p Hp) as (gm & Hgm & _). gstep.
  destruct (pTrunkServer (m_group gm)).
  { apply returns_ret. split; [done|]. split; [done|]. split; [done|]. exists gm, gm. split; [done|]. split; [|done].
    by rewrite insert_id. }
  apply returns_bind. eapply (returns_mono _ _ (λ _ T', one_changed w states_kept p T T'));
    [|intros r T' H; by apply returns_ret].
  apply in_group_one; [apply _|done|done|]. intros gm' v Hv.
  assert (Hm := server_states_ok v (enter T gm') Hv).
  eapply returns_mono; [by apply (find_trunk_server_ok env v (enter T gm'))|].
  intros r s' (Hok' & [Hd _] & _). split; [by exists v|]. intros Hn. split; [done|].
  apply (server_states_eq v s'); [done|]. by rewrite Hd.
Qed.

(** A table whose groups changed one by one. *)
Lemma table_changed (w : groups_view) (T T' : tracker_state) (P : group_mem → group_mem → Prop) (F : group_state → gmap (list Z) Z) :
  groups_ok w T → groups_ok w T' →
  (∀ p gm, p ∈ w_all w → gmem T !! p = Some gm → ∃ gm', gmem T' !! p = Some gm' ∧ P gm gm') →
  (∀ gm gm', P gm gm' → group_name (m_group gm') = group_name (m_group gm) ∧ states_of gm' = F (enter T gm)) →
  tracker_table T' = group_table F T.
Proof.
  intros Hok Hok' Hch HP. apply map_eq. intros k. apply option_eq. intros y.
  unfold tracker_table. rewrite (group_table_spec _ w T' k y Hok'), (group_table_spec _ w T k y Hok).
  split.
  - intros (p & gm' & Hp & Hgm' & Hn & Hy). destruct (gok_members _ _ Hok p Hp) as (gm & Hgm & _).
    destruct (Hch p gm Hp Hgm) as (gm2 & Hgm2 & H). assert (gm2 = gm') as -> by congruence.
    destruct (HP _ _ H) as [Hn' Hs']. exists p, gm. split; [done|]. split; [done|]. split; [congruence|].
    by rewrite <- Hs', <- Hy.
  - intros (p & gm & Hp & Hgm & Hn & Hy). destruct (Hch p gm Hp Hgm) as (gm' & Hgm' & H).
    destruct (HP _ _ H) as [Hn' Hs']. exists p, gm'. split; [done|]. split; [done|]. split; [congruence|].
    by rewrite <- Hy, <- Hs'.
Qed.

Lemma find_trunk_servers_ok w T : groups_ok w T →
  returns (tracker_mem_find_trunk_servers env cfg) T (λ _ T', groups_ok w T' ∧ tracker_table T' = tracker_table T ∧
    g_tracker_servers T' = g_tracker_servers T).
Proof.
  intros Hok. unfold tracker_mem_find_trunk_servers. destruct (negb _); [by apply returns_ret|]. gstep.
  rewrite (groups_in_all w) by done. apply returns_bind, (returns_deref _ _ (w_all w)); [done|].
  eapply returns_mono; [apply (for_groups_ok w _ states_kept); [intros; by apply find_trunk_one|done|by apply (all_nodup w T)|done]|].
  intros u T' (Hok' & _ & Ht & _ & Hin). split; [done|]. split; [|done].
  by apply (table_changed w T T' states_kept server_states).
Qed.

Lemma check_alive_ok w T : groups_ok w T →
  returns (tracker_mem_check_alive env cfg) T (λ r T', r = 0 ∧ groups_ok w T' ∧
    tracker_table T' = group_table alive_states T ∧ g_tracker_servers T' = g_tracker_servers T).
Proof.
  intros Hok. unfold tracker_mem_check_alive. gstep.
  rewrite (groups_in_all w) by done. apply returns_bind, (returns_deref _ _ (w_all w)); [done|].
  apply returns_bind.
  eapply returns_mono; [apply (for_groups_ok w _ checked); [intros; by apply check_servers_one|done|by apply (all_nodup w T)|done]|].
  intros u T1 (Hok1 & _ & Ht1 & _ & Hin1).
  assert (Htab1 : tracker_table T1 = group_table alive_states T).
  { apply (table_changed w T T1 checked alive_states); [done|done|done|]. intros gm gm' [Hn Hs]. by split. }
  destruct (_ || _); [by apply returns_ret|]. apply returns_bind.
  eapply returns_mono; [apply (for_groups_ok w _ states_kept); [intros; by apply check_trunk_one|done|by apply (all_nodup w T)|done]|].
  intros u2 T2 (Hok2 & _ & Ht2 & _ & Hin2). apply returns_ret. split; [done|]. split; [done|]. split; [|congruence].
  rewrite <- Htab1. by apply (table_changed w T1 T2 states_kept server_states).
Qed.

End alive.
