(* ===== verification/StorageReport.v ===== *)
(** * storage/tracker_client_thread.c: what a storage server writes

    The requests a storage server sends to a tracker ([tracker_report_join],
    [tracker_report_df_stat], [tracker_heart_beat],
    [tracker_report_trunk_fid], [tracker_report_trunk_free_space],
    [tracker_sync_diff_servers]), as the bytes of their bodies, and that the
    handlers of tracker/tracker_service.c read from them what was written. *)

From stdpp Require Import strings.
From S2P Require Import Prelude CLib FdfsShared SharedFunc TrunkShared TrunkBinlog TrackerMem TrackerGroups TrackerJoin TrackerReport.
#[local] Open Scope Z_scope.

(** ** Definitions *)

(** [strcpy] into a field of [n] bytes that is zero; a longer string runs
    into the fields behind it. *)
Definition strcpy_field (n : nat) (s : list Z) : option (list Z) :=
  if decide (length s < n)%nat then Some (s ++ replicate (n - length s) 0) else None.

(** The globals of the storage server that a join tells of. *)
Record storage_info := {
  g_group_name : list Z;
  g_http_domain : list Z;
  g_version_major : Z;
  g_version_minor : Z;
  g_server_port : Z;
  g_http_port : Z;
  g_store_paths_count : Z;
  g_subdir_count_per_path : Z;
  g_upload_priority : Z;
  g_storage_join_time : Z;
  g_up_time : Z;
  g_tracker_group : list ConnectionInfo;
}.

(** [tracker_report_join]: the state the server joins with, its state among
    the servers of the group when it is one of them. *)
Definition join_status (found : option Z) (my_report_status : list Z) : Z :=
  match found with
  | Some status => status
  | None =>
      if decide (1 < length my_report_status)%nat then
        if forallb (λ result, result =? EFAULT) my_report_status then FDFS_STORAGE_STATUS_INIT else -1
      else FDFS_STORAGE_STATUS_INIT
  end.

(** [sprintf(p, "%s:%d", ...)] into a slot of [FDFS_PROTO_IP_PORT_SIZE] bytes. *)
Definition write_tracker (t : ConnectionInfo) : option (list Z) :=
  strcpy_field FDFS_PROTO_IP_PORT_SIZE (c_ip_addr t ++ 58 :: sprintf_d (c_port t)).

Fixpoint write_trackers (l : list ConnectionInfo) : option (list Z) :=
  match l with
  | [] => Some []
  | t :: l => a ← write_tracker t; b ← write_trackers l; Some (a ++ b)
  end.

(** [snprintf] into a field of [n] zero bytes. *)
Definition snprintf_field (n : nat) (s : list Z) : list Z :=
  let s := take (n - 1) s in s ++ replicate (n - length s) 0.

Definition version_text (i : storage_info) : list Z :=
  sprintf_d (g_version_major i) ++ 46 :: sprintf_0d 2 (g_version_minor i).

(** The body of the request; [out_buff] has room for [FDFS_MAX_TRACKERS]. *)
Definition report_join (i : storage_info) (sync_old_done : bool) (status : Z) : option (list Z) :=
  group_name ← strcpy_field (FDFS_GROUP_NAME_MAX_LEN + 1) (g_group_name i);
  domain_name ← strcpy_field FDFS_DOMAIN_NAME_MAX_SIZE (g_http_domain i);
  trackers ← (if decide (Z.of_nat (length (g_tracker_group i)) ≤ FDFS_MAX_TRACKERS)
              then write_trackers (g_tracker_group i) else None);
  Some (group_name ++ long2buff (g_server_port i) ++ long2buff (g_http_port i) ++
        long2buff (g_store_paths_count i) ++ long2buff (g_subdir_count_per_path i) ++
        long2buff (g_upload_priority i) ++ long2buff (g_storage_join_time i) ++ long2buff (g_up_time i) ++
        snprintf_field FDFS_VERSION_SIZE (version_text i) ++ domain_name ++
        [if sync_old_done then 0 else 1; u8 status] ++
        long2buff (Z.of_nat (length (g_tracker_group i))) ++ trackers).

(** [tracker_report_df_stat]: total and free space of each path. *)
Definition FDFS_ONE_MB : Z := 1024 * 1024.

Record statvfs_answer := {
  f_blocks : Z;
  f_bavail : Z;
  f_frsize : Z;
}.

Definition path_space (st : statvfs_answer) : Z * Z :=
  ((f_blocks st * f_frsize st) mod 2 ^ 64 / FDFS_ONE_MB, (f_bavail st * f_frsize st) mod 2 ^ 64 / FDFS_ONE_MB).

Definition report_df_stat (g_path_space_list : list (Z * Z)) : list Z :=
  g_path_space_list ≫= λ space, long2buff space.1 ++ long2buff space.2.

(** The path of most free space above the reserve, [-1] when there is none;
    [max_free_mb] is an [int]. *)
Fixpoint best_path (avg_reserved_mb : Z) (l : list (Z * Z)) (i : Z) (best max_free_mb : Z) : Z :=
  match l with
  | [] => best
  | space :: l =>
      if (avg_reserved_mb <? space.2) && (max_free_mb <? space.2)
      then best_path avg_reserved_mb l (i + 1) i (s32 space.2)
      else best_path avg_reserved_mb l (i + 1) best max_free_mb
  end.

(** [g_store_path_index] after a report. *)
Definition df_store_path (g_store_path_mode avg_reserved_mb : Z) (l : list (Z * Z)) (g_store_path_index : Z) : Z :=
  if g_store_path_mode =? FDFS_STORE_PATH_LOAD_BALANCE then best_path avg_reserved_mb l 0 (-1) 0 else g_store_path_index.

(** [tracker_heart_beat]: the counters when they have changed since the last
    one; the last two of the buffer stay zero. *)
Definition heart_beat (stat_chg_sync_count g_stat_change_count : Z) (counters : list Z) : list Z :=
  if stat_chg_sync_count =? g_stat_change_count then []
  else (counters ≫= long2buff) ++ replicate 16 0.

Definition report_trunk_fid (g_current_trunk_file_id : Z) : list Z := int2buff g_current_trunk_file_id.

Definition report_trunk_free_space (g_trunk_total_free_space : Z) : list Z :=
  long2buff (g_trunk_total_free_space `quot` FDFS_ONE_MB).

(** [tracker_sync_diff_servers]: the records as they lie in memory. *)
Record brief := {
  br_status : Z;
  br_port : list Z;
  br_id : list Z;
  br_ip_addr : list Z;
}.

Definition write_brief (b : brief) : list Z :=
  u8 (br_status b) :: take 4 (br_port b ++ replicate 4 0) ++ snprintf_field FDFS_STORAGE_ID_MAX_SIZE (br_id b) ++
  snprintf_field IP_ADDRESS_SIZE (br_ip_addr b).

Definition sync_diff_servers (l : list brief) : list Z := l ≫= write_brief.

Lemma s8_u8 n : -2 ^ 7 ≤ n < 2 ^ 7 → s8 (u8 n) = n.
Proof. intros Hn. unfold s8, u8. rewrite Zplus_mod_idemp_l, Z.mod_small; lia. Qed.

(** ** Fields *)

(** The part [k] of a text whose parts have the lengths [lens]. *)
Lemma field_part parts lens k x n off r :
  length <$> parts = lens → parts !! k = Some x → lens !! k = Some n → sum_list (take k lens) = off →
  field (concat parts ++ r) off n = x.
Proof.
  intros <- Hx Hn <-. rewrite list_lookup_fmap, Hx in Hn. injection Hn as <-.
  revert k Hx. induction parts as [|a parts IH]; intros k Hx; [done|]. cbn [concat]. rewrite <- app_assoc.
  destruct k as [|k]; cbn in Hx |- *.
  - injection Hx as ->. unfold field. by rewrite drop_0, take_app_length.
  - rewrite <- (IH k Hx) at 2. unfold field. f_equal. by apply drop_app_add.
Qed.

Lemma concat_length {A} (l : list (list A)) : length (concat l) = sum_list (length <$> l).
Proof. induction l as [|a l IH]; [done|]. cbn. by rewrite length_app, IH. Qed.

Lemma lookup_field body off n x j : field body off n = x → (j < n)%nat → body !! (off + j)%nat = x !! j.
Proof. intros <- Hj. unfold field. by rewrite lookup_take_lt, lookup_drop by done. Qed.

Lemma field_take body off n m x : field body off n = x → (m ≤ n)%nat → field body off m = take m x.
Proof. intros <- Hm. unfold field. rewrite take_take. by rewrite Nat.min_l by lia. Qed.

Lemma c_string_zero s r : 0 ∉ s → c_string (s ++ 0 :: r) = s.
Proof.
  induction s as [|c s IH]; [done|]. rewrite not_elem_of_cons. intros [Hc Hs]. cbn.
  rewrite (proj2 (Z.eqb_neq c 0)) by done. by rewrite IH.
Qed.

Lemma c_string_field n m s : 0 ∉ s → (length s ≤ m)%nat → c_string (take m (s ++ replicate n 0)) = s.
Proof.
  intros Hs Hm. rewrite take_app, take_ge, take_replicate by done. destruct (_ `min` _)%nat eqn:E.
  - rewrite app_nil_r. by apply c_string_no_nul.
  - by apply c_string_zero.
Qed.

Lemma strcpy_field_Some n s f : strcpy_field n s = Some f → f = s ++ replicate (n - length s) 0 ∧ length f = n ∧ (length s < n)%nat.
Proof.
  unfold strcpy_field. case_decide; [|done]. intros [= <-]. split; [done|]. rewrite length_app, length_replicate. lia.
Qed.

Lemma snprintf_field_length n s : (0 < n)%nat → length (snprintf_field n s) = n.
Proof. intros Hn. unfold snprintf_field. rewrite length_app, length_replicate, length_take. lia. Qed.

(** ** The trackers *)

(** Addresses the text of which can be read back. *)
Definition tracker_ok (t : ConnectionInfo) : Prop :=
  0 ∉ c_ip_addr t ∧ 58 ∉ c_ip_addr t ∧ (length (c_ip_addr t) < IP_ADDRESS_SIZE)%nat ∧ 0 ≤ c_port t < 2 ^ 16.

Lemma sprintf_d_no_colon n : 58 ∉ sprintf_d n.
Proof. apply num_chars_not_in; [unfold num_char; lia|apply sprintf_d_chars]. Qed.

Lemma parse_trackers_write l text r :
  Forall tracker_ok l → write_trackers l = Some text → parse_trackers (length l) (text ++ r) = Some l.
Proof.
  intros Hl. revert text. induction Hl as [|t l (Hnul & Hcolon & Hlen & Hport) Hl IH]; intros text Ht; [done|].
  cbn in Ht. apply bind_Some in Ht as (a & Ha & Ht). apply bind_Some in Ht as (b & Hb & [= <-]).
  apply strcpy_field_Some in Ha as (-> & Hla & Hlt). cbn [length parse_trackers].
  set (s := c_ip_addr t ++ 58 :: sprintf_d (c_port t)) in *.
  assert (Hs : 0 ∉ s).
  { unfold s. rewrite not_elem_of_app, not_elem_of_cons. split; [done|]. split; [done|]. apply sprintf_d_no_nul. }
  rewrite <- app_assoc.
  rewrite (take_app_le (_ ++ _)) by (rewrite Hla; unfold FDFS_PROTO_IP_PORT_SIZE; lia).
  rewrite c_string_field by (done || unfold FDFS_PROTO_IP_PORT_SIZE in *; lia).
  rewrite (proj2 (strchr_Some s 58 (58 :: sprintf_d (c_port t)))) by by exists (c_ip_addr t), (sprintf_d (c_port t)).
  assert (Hdrop : drop FDFS_PROTO_IP_PORT_SIZE ((s ++ replicate (FDFS_PROTO_IP_PORT_SIZE - length s) 0) ++ b ++ r) = b ++ r).
  { apply drop_app_length'. by rewrite Hla. }
  rewrite Hdrop, (IH b Hb). cbn [mbind option_bind]. do 3 f_equal. destruct t as [ip port]. cbn in *. f_equal.
  - assert (Hl' : (length (ip ++ 58%Z :: sprintf_d port) - S (length (sprintf_d port)) = length ip)%nat)
      by (rewrite length_app; cbn; lia).
    rewrite Hl', take_app_length. apply take_ge. unfold IP_ADDRESS_SIZE in *. lia.
  - rewrite <- (app_nil_r (sprintf_d port)). apply atoi_sprintf_d; [unfold is_int32; lia|done].
Qed.

Lemma write_trackers_length l text : write_trackers l = Some text → length text = (length l * FDFS_PROTO_IP_PORT_SIZE)%nat.
Proof.
  revert text. induction l as [|t l IH]; intros text Ht; cbn in Ht; [by injection Ht as <-|].
  apply bind_Some in Ht as (a & Ha & Ht). apply bind_Some in Ht as (b & Hb & [= <-]).
  apply strcpy_field_Some in Ha as (_ & Hla & _). rewrite length_app, Hla, (IH b Hb). cbn [length]. lia.
Qed.

Lemma strcpy_field_fits n s : (length s < n)%nat → strcpy_field n s = Some (s ++ replicate (n - length s) 0).
Proof. intros Hs. unfold strcpy_field. by rewrite decide_True. Qed.

Lemma port_length n : 0 ≤ n < 2 ^ 16 → (length (sprintf_d n) ≤ 5)%nat.
Proof.
  intros Hn. unfold sprintf_d, digits. rewrite (proj2 (Z.ltb_ge n 0)) by lia.
  pose proof (digits_fuel_length (num_fuel n) n [] 5 ltac:(lia) ltac:(lia)). cbn in *. lia.
Qed.

Lemma write_trackers_fits l : Forall tracker_ok l → ∃ text, write_trackers l = Some text.
Proof.
  induction 1 as [|t l (_ & _ & Hlen & Hport) _ [text IH]]; [by eexists|]. cbn. unfold write_tracker.
  rewrite strcpy_field_fits; [rewrite IH; by eexists|]. assert (H := port_length _ Hport).
  rewrite length_app. cbn [length]. unfold FDFS_PROTO_IP_PORT_SIZE, IP_ADDRESS_SIZE in *. lia.
Qed.

(** ** The join *)

(** What a tracker reads. *)
Definition join_body (i : storage_info) (sync_old_done : bool) (status : Z) : FDFSStorageJoinBody := {|
  j_storage_port := g_server_port i; j_storage_http_port := g_http_port i; j_store_path_count := g_store_paths_count i;
  j_subdir_count_per_path := g_subdir_count_per_path i; j_upload_priority := g_upload_priority i;
  j_join_time := g_storage_join_time i; j_up_time := g_up_time i;
  j_version := take (FDFS_VERSION_SIZE - 1) (version_text i); j_group_name := g_group_name i;
  j_domain_name := g_http_domain i; j_init_flag := negb sync_old_done; j_status := status;
  j_tracker_servers := g_tracker_group i |}.

(** The settings of a storage server, as storage/storage_func.c reads them. *)
Record info_ok (i : storage_info) : Prop := {
  io_group : g_group_name i ≠ [] ∧ Forall (λ c, is_alnum c = true) (g_group_name i) ∧
    (length (g_group_name i) ≤ FDFS_GROUP_NAME_MAX_LEN)%nat;
  io_domain : 0 ∉ g_http_domain i ∧ (length (g_http_domain i) < FDFS_DOMAIN_NAME_MAX_SIZE)%nat;
  io_version : is_int32 (g_version_major i) ∧ 0 ≤ g_version_minor i < 2 ^ 31;
  io_port : 0 < g_server_port i < 2 ^ 31;
  io_http_port : 0 ≤ g_http_port i < 2 ^ 31;
  io_paths : 0 < g_store_paths_count i ≤ 256;
  io_subdirs : 0 < g_subdir_count_per_path i ≤ 256;
  io_priority : is_int32 (g_upload_priority i);
  io_join_time : is_int32 (g_storage_join_time i);
  io_up_time : is_int32 (g_up_time i);
  io_trackers : 0 < Z.of_nat (length (g_tracker_group i)) ≤ FDFS_MAX_TRACKERS ∧ Forall tracker_ok (g_tracker_group i);
}.

Lemma long_at_field body off n : field body off 8 = long2buff n → is_int64 n → long_at body off = Some n.
Proof. intros Hf Hn. unfold long_at. rewrite Hf. rewrite <- (app_nil_r (long2buff n)). by apply buff2long_long2buff. Qed.

Lemma int_at_field body off n : field body off 8 = long2buff n → is_int32 n → int_at body off = Some n.
Proof.
  intros Hf Hn. unfold int_at. rewrite (long_at_field body off n Hf).
  - cbn. by rewrite s32_id.
  - unfold is_int32, is_int64 in *. lia.
Qed.

Definition join_parts (i : storage_info) (sync_old_done : bool) (status : Z) : list (list Z) :=
  [g_group_name i ++ replicate (FDFS_GROUP_NAME_MAX_LEN + 1 - length (g_group_name i)) 0;
   long2buff (g_server_port i); long2buff (g_http_port i); long2buff (g_store_paths_count i);
   long2buff (g_subdir_count_per_path i); long2buff (g_upload_priority i); long2buff (g_storage_join_time i);
   long2buff (g_up_time i); snprintf_field FDFS_VERSION_SIZE (version_text i);
   g_http_domain i ++ replicate (FDFS_DOMAIN_NAME_MAX_SIZE - length (g_http_domain i)) 0;
   [if sync_old_done then 0 else 1; u8 status]; long2buff (Z.of_nat (length (g_tracker_group i)))].

Definition join_lengths : list nat := [17; 8; 8; 8; 8; 8; 8; 8; 6; 128; 2; 8]%nat.

Section join.
Context (i : storage_info) (Hi : info_ok i) (sync_old_done : bool) (status : Z).

Lemma join_parts_length : length <$> join_parts i sync_old_done status = join_lengths.
Proof.
  destruct (io_group _ Hi) as (_ & _ & Hg), (io_domain _ Hi) as [_ Hd]. unfold join_parts, join_lengths. cbn [fmap list_fmap].
  rewrite !length_app, !length_replicate. rewrite snprintf_field_length by (unfold FDFS_VERSION_SIZE; lia).
  unfold FDFS_GROUP_NAME_MAX_LEN, FDFS_DOMAIN_NAME_MAX_SIZE in *. repeat f_equal; lia.
Qed.

Lemma report_join_parts : ∃ trackers, write_trackers (g_tracker_group i) = Some trackers ∧
  report_join i sync_old_done status = Some (concat (join_parts i sync_old_done status) ++ trackers).
Proof.
  destruct (io_trackers _ Hi) as [Hn Ht]. destruct (write_trackers_fits _ Ht) as [text E]. exists text. split; [done|].
  destruct (io_group _ Hi) as (_ & _ & Hg), (io_domain _ Hi) as [_ Hd]. unfold report_join.
  rewrite !strcpy_field_fits by (unfold FDFS_GROUP_NAME_MAX_LEN in *; lia). rewrite decide_True, E by lia.
  cbn [mbind option_bind]. f_equal. unfold join_parts. cbn [concat]. by rewrite <- !app_assoc, app_nil_l.
Qed.

Lemma version_no_nul : 0 ∉ version_text i.
Proof.
  unfold version_text. rewrite not_elem_of_app, not_elem_of_cons. split; [apply sprintf_d_no_nul|]. split; [done|].
  apply num_chars_not_in; [unfold num_char; lia|apply sprintf_0d_chars].
Qed.

Lemma group_name_valid : fdfs_validate_group_name (g_group_name i) = 0.
Proof.
  destruct (io_group _ Hi) as (Hne & Hal & _). unfold fdfs_validate_group_name.
  rewrite decide_False by (by destruct (g_group_name i)). assert (E : forallb is_alnum (g_group_name i) = true); [|by rewrite E].
  apply forallb_forall. intros c Hc%list_elem_of_In. rewrite Forall_forall in Hal. by apply Hal.
Qed.

Lemma group_name_no_nul : 0 ∉ g_group_name i.
Proof. destruct (io_group _ Hi) as (_ & Hal & _). intros H. rewrite Forall_forall in Hal. by apply Hal in H. Qed.

Lemma elem_of_take_nul n s : 0 ∉ s → 0 ∉ take n s.
Proof. intros H Hin. apply H. rewrite <- (take_drop n s), elem_of_app. by left. Qed.

Lemma join_field k x n off trackers :
  join_parts i sync_old_done status !! k = Some x → join_lengths !! k = Some n → sum_list (take k join_lengths) = off →
  field (concat (join_parts i sync_old_done status) ++ trackers) off n = x.
Proof. apply field_part, join_parts_length. Qed.

Lemma join_body_length trackers : write_trackers (g_tracker_group i) = Some trackers →
  length (concat (join_parts i sync_old_done status) ++ trackers) =
  (TrackerStorageJoinBody_size + length (g_tracker_group i) * FDFS_PROTO_IP_PORT_SIZE)%nat.
Proof.
  intros Et. rewrite length_app, (write_trackers_length _ _ Et). f_equal. by rewrite concat_length, join_parts_length.
Qed.

Lemma parse_tracker_list trackers : write_trackers (g_tracker_group i) = Some trackers →
  parse_trackers (length (g_tracker_group i))
    (drop TrackerStorageJoinBody_size (concat (join_parts i sync_old_done status) ++ trackers)) = Some (g_tracker_group i).
Proof.
  intros Et. rewrite drop_app_length' by (by rewrite concat_length, join_parts_length).
  rewrite <- (app_nil_r trackers). apply parse_trackers_write; [apply (io_trackers _ Hi)|done].
Qed.

Lemma join_texts trackers (body := concat (join_parts i sync_old_done status) ++ trackers) :
  c_string (field body 0 FDFS_GROUP_NAME_MAX_LEN) = g_group_name i ∧
  c_string (field body 79 (FDFS_DOMAIN_NAME_MAX_SIZE - 1)) = g_http_domain i ∧
  c_string (field body 73 (FDFS_VERSION_SIZE - 1)) = take (FDFS_VERSION_SIZE - 1) (version_text i).
Proof.
  assert (Hf := λ k x n off, join_field k x n off trackers). fold body in Hf.
  destruct (io_group _ Hi) as (_ & _ & Hg), (io_domain _ Hi) as [Hnul Hd]. split; [|split].
  - rewrite (field_take body 0 17 _ _ (Hf 0%nat _ _ _ eq_refl eq_refl eq_refl)) by (unfold FDFS_GROUP_NAME_MAX_LEN; lia).
    apply c_string_field; [apply group_name_no_nul|done].
  - rewrite (field_take body 79 128 _ _ (Hf 9%nat _ _ _ eq_refl eq_refl eq_refl)) by (unfold FDFS_DOMAIN_NAME_MAX_SIZE; lia).
    apply c_string_field; [done|lia].
  - rewrite (field_take body 73 6 _ _ (Hf 8%nat _ _ _ eq_refl eq_refl eq_refl)) by (unfold FDFS_VERSION_SIZE; lia).
    apply c_string_field; [apply elem_of_take_nul, version_no_nul|rewrite length_take; lia].
Qed.

(** The tracker reads what the storage server wrote. *)
Lemma parse_report_join : -2 ^ 7 ≤ status < 2 ^ 7 →
  ∃ body, report_join i sync_old_done status = Some body ∧ parse_join body = Some (inr (join_body i sync_old_done status)).
Proof.
  intros Hst. destruct report_join_parts as (trackers & Et & E).
  exists (concat (join_parts i sync_old_done status) ++ trackers). split; [done|].
  assert (Hlen := join_body_length trackers Et). assert (Htr := parse_tracker_list trackers Et).
  assert (Hf := λ k x n off, join_field k x n off trackers). clear E.
  destruct (join_texts trackers) as (Hgroup & Hdomain & Hversion).
  set (body := concat (join_parts i sync_old_done status) ++ trackers) in *.
  assert (Hflag : body !! 207%nat = Some (if sync_old_done then 0 else 1))
    by (apply (lookup_field body 207 2 [_; u8 status] 0); [by apply (Hf 10%nat)|lia]).
  assert (Hstatus : body !! 208%nat = Some (u8 status))
    by (apply (lookup_field body 207 2 [if sync_old_done then 0 else 1; _] 1); [by apply (Hf 10%nat)|lia]).
  destruct (io_trackers _ Hi) as [Hn _]. assert (Hvalid := group_name_valid).
  destruct Hi as [_ _ _ Hport Hhttp Hpaths Hsub Hprio Hjoin Hup _].
  assert (Hint : ∀ off k x, join_parts i sync_old_done status !! k = Some (long2buff x) → join_lengths !! k = Some 8%nat →
    sum_list (take k join_lengths) = off → is_int32 x → int_at body off = Some x)
    by (intros off k x Hk Hl Ho; apply int_at_field; by apply (Hf k)).
  unfold parse_join. rewrite decide_False by (rewrite Hlen; unfold TrackerStorageJoinBody_size; lia).
  assert (Hcount : is_int32 (Z.of_nat (length (g_tracker_group i)))) by (clear -Hn; unfold is_int32, FDFS_MAX_TRACKERS in *; lia).
  rewrite (Hint 209%nat 11%nat (Z.of_nat (length (g_tracker_group i)))) by done.
  cbn [mbind option_bind]. rewrite (proj2 (Z.leb_gt _ 0)), (proj2 (Z.ltb_ge FDFS_MAX_TRACKERS _)) by lia. cbn [orb].
  rewrite Hlen, Nat2Z.id, Nat.eqb_refl, Hgroup, Hvalid. cbn [c_true Z.eqb negb].
  rewrite (Hint 17%nat 1%nat (g_server_port i)), (Hint 25%nat 2%nat (g_http_port i)), (Hint 33%nat 3%nat (g_store_paths_count i)),
    (Hint 41%nat 4%nat (g_subdir_count_per_path i)) by (done || (unfold is_int32; lia)).
  cbn [mbind option_bind]. rewrite !(proj2 (Z.leb_gt _ 0)), !(proj2 (Z.ltb_ge _ _)) by lia. cbn [orb].
  rewrite Htr, Hdomain, Hversion, (Hint 49%nat 5%nat (g_upload_priority i)), (Hint 57%nat 6%nat (g_storage_join_time i)),
    (Hint 65%nat 7%nat (g_up_time i)), Hflag, Hstatus by done.
  cbn [mbind option_bind]. unfold join_body.
  rewrite s8_u8 by done. by destruct sync_old_done.
Qed.

End join.

(** C32: a tracker reads from a join request what the storage server that
    wrote it is set to: with settings that fit the fields
    [tracker_report_join] writes its request without running over any of
    them, and the handler accepts it and gets the same ports, counts, times,
    names, state and trackers back (the version is cut to five characters). *)
Theorem join_request_read i sync_old_done status :
  info_ok i → -2 ^ 7 ≤ status < 2 ^ 7 →
  ∃ body, report_join i sync_old_done status = Some body ∧
    parse_join body = Some (inr (join_body i sync_old_done status)).
Proof. intros Hi Hst. by apply parse_report_join. Qed.

Definition sample_info : storage_info := {|
  g_group_name := bytes "group1"%string; g_http_domain := []; g_version_major := 4; g_version_minor := 8;
  g_server_port := 23000; g_http_port := 8888; g_store_paths_count := 2; g_subdir_count_per_path := 256;
  g_upload_priority := 10; g_storage_join_time := 1400000000; g_up_time := 1400000100;
  g_tracker_group := [{| c_ip_addr := bytes "10.0.0.9"%string; c_port := 22122 |};
                      {| c_ip_addr := bytes "192.168.100.200"%string; c_port := 65535 |}] |}.

Lemma sample_storage_ok : info_ok sample_info.
Proof.
  constructor; try (cbn; lia); try (unfold is_int32; cbn; lia).
  - split; [done|]. split; [by repeat constructor|]. apply (bool_decide_unpack (length _ ≤ _)%nat). reflexivity.
  - split; [set_solver|]. apply (bool_decide_unpack (length _ < _)%nat). reflexivity.
  - split; [done|]. repeat constructor; try (apply (bool_decide_unpack _); vm_compute; reflexivity).
Qed.

Lemma join_request_read_witness :
  ∃ body, report_join sample_info false FDFS_STORAGE_STATUS_INIT = Some body ∧
    parse_join body = Some (inr (join_body sample_info false FDFS_STORAGE_STATUS_INIT)).
Proof. apply join_request_read; [apply sample_storage_ok|unfold FDFS_STORAGE_STATUS_INIT; lia]. Defined.

(** ** The other reports *)

Lemma flat_field {A} (f : A → list Z) n (l : list A) k x r :
  (∀ y, length (f y) = n) → l !! k = Some x → drop (n * k) ((l ≫= f) ++ r) = f x ++ (drop (S k) l ≫= f) ++ r.
Proof.
  intros Hn. revert k. induction l as [|y l IH]; intros k Hk; [done|]. destruct k as [|k]; cbn in Hk.
  - injection Hk as ->. rewrite Nat.mul_0_r, drop_0. cbn. by rewrite <- app_assoc.
  - cbn [mbind list_bind]. rewrite <- app_assoc.
    replace (n * S k)%nat with (length (f y) + n * k)%nat by (rewrite Hn; lia).
    rewrite drop_app_add. exact (IH k Hk).
Qed.

Lemma flat_length {A} (f : A → list Z) n (l : list A) : (∀ y, length (f y) = n) → length (l ≫= f) = (n * length l)%nat.
Proof.
  intros Hn. induction l as [|y l IH]; [cbn; lia|]. change ((y :: l) ≫= f) with (f y ++ (l ≫= f)).
  rewrite length_app, Hn, IH. cbn [length]. lia.
Qed.

Lemma df_stat_field l k t f : l !! k = Some (t, f) →
  drop (16 * k) (report_df_stat l) = long2buff t ++ long2buff f ++ report_df_stat (drop (S k) l).
Proof.
  intros Hk. rewrite <- (app_nil_r (report_df_stat l)). unfold report_df_stat.
  rewrite (flat_field (λ space, long2buff space.1 ++ long2buff space.2) 16 l k (t, f)) by done.
  by rewrite app_nil_r, <- app_assoc.
Qed.

Lemma df_stat_read l k t f : l !! k = Some (t, f) → is_int64 t → is_int64 f →
  buff2long (drop (16 * k) (report_df_stat l)) = Some t ∧ buff2long (drop (16 * k + 8) (report_df_stat l)) = Some f.
Proof.
  intros Hk Ht Hf. assert (Hd := df_stat_field l k t f Hk). split.
  - rewrite Hd. by apply buff2long_long2buff.
  - rewrite <- drop_drop, Hd, drop_app_length' by done. by apply buff2long_long2buff.
Qed.

Lemma df_stat_length l : length (report_df_stat l) = (16 * length l)%nat.
Proof. by apply (flat_length (λ space, long2buff space.1 ++ long2buff space.2)). Qed.

(** A record that fits, as the tracker has it. *)
Definition brief_ok (b : brief) : Prop :=
  -2 ^ 7 ≤ br_status b < 2 ^ 7 ∧ 0 ∉ br_id b ∧ 0 ∉ br_ip_addr b ∧
  (length (br_id b) < FDFS_STORAGE_ID_MAX_SIZE)%nat ∧ (length (br_ip_addr b) < IP_ADDRESS_SIZE)%nat.

Definition brief_read (b : brief) : FDFSStorageBrief :=
  {| b_status := br_status b; b_id := br_id b; b_ip_addr := br_ip_addr b |}.

Lemma write_brief_length b : length (write_brief b) = FDFSStorageBrief_size.
Proof.
  unfold write_brief. cbn [length]. rewrite !length_app, !snprintf_field_length by (unfold FDFS_STORAGE_ID_MAX_SIZE, IP_ADDRESS_SIZE; lia).
  rewrite length_take, length_app, length_replicate. unfold FDFSStorageBrief_size, FDFS_STORAGE_ID_MAX_SIZE, IP_ADDRESS_SIZE. lia.
Qed.

Lemma brief_fields b r : brief_ok b →
  c_string (take FDFS_STORAGE_ID_MAX_SIZE (drop 5 (write_brief b ++ r))) = br_id b ∧
  c_string (take IP_ADDRESS_SIZE (drop 21 (write_brief b ++ r))) = br_ip_addr b.
Proof.
  intros (_ & Hid & Hip & Hlid & Hlip).
  set (parts := [[u8 (br_status b)]; take 4 (br_port b ++ replicate 4 0);
    snprintf_field FDFS_STORAGE_ID_MAX_SIZE (br_id b); snprintf_field IP_ADDRESS_SIZE (br_ip_addr b)]).
  assert (Hlens : length <$> parts = [1; 4; 16; 16]%nat).
  { unfold parts. cbn [fmap list_fmap]. rewrite !snprintf_field_length, length_take, length_app, length_replicate
      by (unfold FDFS_STORAGE_ID_MAX_SIZE, IP_ADDRESS_SIZE; lia). repeat f_equal. lia. }
  assert (E : write_brief b ++ r = concat parts ++ r).
  { unfold write_brief, parts. cbn [concat]. by rewrite app_nil_r. }
  rewrite E. split.
  - etrans; [exact (f_equal c_string (field_part parts _ 2 _ 16 5 r Hlens eq_refl eq_refl eq_refl))|].
    unfold snprintf_field. rewrite (take_ge (br_id b)) by lia.
    rewrite <- (take_ge (br_id b ++ _) FDFS_STORAGE_ID_MAX_SIZE) by (rewrite length_app, length_replicate; lia).
    apply c_string_field; [done|lia].
  - etrans; [exact (f_equal c_string (field_part parts _ 3 _ 16 21 r Hlens eq_refl eq_refl eq_refl))|].
    unfold snprintf_field. rewrite (take_ge (br_ip_addr b)) by lia.
    rewrite <- (take_ge (br_ip_addr b ++ _) IP_ADDRESS_SIZE) by (rewrite length_app, length_replicate; lia).
    apply c_string_field; [done|lia].
Qed.

Lemma parse_sync_diff l : Forall brief_ok l → parse_briefs (length l) (sync_diff_servers l) = Some (brief_read <$> l).
Proof.
  intros Hl. induction Hl as [|b l Hb Hl IH]; [done|].
  change (sync_diff_servers (b :: l)) with (write_brief b ++ sync_diff_servers l). cbn [length parse_briefs].
  destruct (brief_fields b (sync_diff_servers l) Hb) as [-> ->]. rewrite drop_app_length' by by rewrite write_brief_length.
  rewrite IH. unfold write_brief. cbn [app lookup list_lookup mbind option_bind fmap list_fmap].
  by rewrite s8_u8 by apply Hb.
Qed.

(** The counters of a heart beat. *)
Lemma stat_field_read (l : list Z) k n r : l !! k = Some n → is_int64 n → stat_field ((l ≫= long2buff) ++ r) k = Some n.
Proof.
  intros Hk Hn. unfold stat_field. rewrite (flat_field long2buff 8 l k n) by done. by apply buff2long_long2buff.
Qed.

Lemma heart_beat_read l st : length l = 40%nat → Forall is_int64 l →
  read_stat ((l ≫= long2buff) ++ replicate 16 0) st =
  Some (st <| counters := take 38 l |> <| last_source_update := l !!! 38%nat |> <| last_sync_update := l !!! 39%nat |>).
Proof.
  intros Hlen Hl. assert (Hf : ∀ k, (k < 40)%nat → stat_field ((l ≫= long2buff) ++ replicate 16 0) k = Some (l !!! k)).
  { intros k Hk. destruct (lookup_lt_is_Some_2 l k) as [n Hn]; [lia|].
    rewrite (list_lookup_total_correct l k n Hn). apply stat_field_read; [done|].
    rewrite Forall_forall in Hl. apply Hl. by eapply list_elem_of_lookup_2. }
  unfold read_stat. rewrite !Hf by lia. assert (E : mapM (stat_field ((l ≫= long2buff) ++ replicate 16 0)) (seq 0 38) = Some (take 38 l)).
  { apply mapM_Some. apply Forall2_same_length_lookup_2; [rewrite length_seq, length_take; lia|].
    intros i k n Hk Hn. apply lookup_seq in Hk as [-> Hk]. rewrite lookup_take_lt in Hn by lia.
    rewrite Hf by lia. by rewrite (list_lookup_total_correct l i n Hn). }
  by rewrite E.
Qed.

Lemma buff2int_whole n : is_int32 n → buff2int (int2buff n) = Some n.
Proof. rewrite <- (app_nil_r (int2buff n)). apply buff2int_int2buff. Qed.

Lemma buff2long_whole n : is_int64 n → buff2long (long2buff n) = Some n.
Proof. rewrite <- (app_nil_r (long2buff n)). apply buff2long_long2buff. Qed.

Lemma mb_int64 n : is_int64 n → is_int64 (n `quot` FDFS_ONE_MB).
Proof.
  unfold is_int64, FDFS_ONE_MB. change (1024 * 1024) with 1048576. intros Hn. pose proof (Z.quot_rem n 1048576 ltac:(done)).
  pose proof (Z.rem_bound_abs n 1048576 ltac:(done)). lia.
Qed.

(** The reports of a storage server arrive as they were sent: the handlers
    of the tracker accept the length of every body and read from it the disk
    usage of each path, the counters of a heart beat, the id of the current
    trunk file, the free space in trunk files in MB, and the records of the
    servers another tracker knows. *)
Theorem reports_read :
  (∀ l, Z.of_nat (length (report_df_stat l)) = 16 * Z.of_nat (length l) ∧
     ∀ k t f, l !! k = Some (t, f) → is_int64 t → is_int64 f →
       buff2long (drop (16 * k) (report_df_stat l)) = Some t ∧
       buff2long (drop (16 * k + 8) (report_df_stat l)) = Some f) ∧
  (∀ a b l st, a ≠ b → length l = 40%nat → Forall is_int64 l →
     length (heart_beat a b l) = FDFSStorageStatBuff_size ∧
     read_stat (heart_beat a b l) st =
       Some (st <| counters := take 38 l |> <| last_source_update := l !!! 38%nat |> <| last_sync_update := l !!! 39%nat |>)) ∧
  (∀ n, is_int32 n → length (report_trunk_fid n) = 4%nat ∧ buff2int (report_trunk_fid n) = Some n) ∧
  (∀ n, is_int64 n → length (report_trunk_free_space n) = 8%nat ∧
     buff2long (report_trunk_free_space n) = Some (n `quot` FDFS_ONE_MB)) ∧
  (∀ l, Forall brief_ok l →
     length (sync_diff_servers l) = (length l * FDFSStorageBrief_size)%nat ∧
     parse_briefs (length l) (sync_diff_servers l) = Some (brief_read <$> l)).
Proof.
  split; [|split; [|split; [|split]]].
  - intros l. split; [rewrite df_stat_length; lia|]. intros k t f. apply df_stat_read.
  - intros a b l st Hab Hlen Hl. unfold heart_beat. rewrite (proj2 (Z.eqb_neq a b) Hab). split; [|by apply heart_beat_read].
    rewrite length_app, (flat_length long2buff 8), Hlen by done. done.
  - intros n Hn. split; [done|]. by apply buff2int_whole.
  - intros n Hn. split; [done|]. by apply buff2long_whole, mb_int64.
  - intros l Hl. split; [|by apply parse_sync_diff]. unfold sync_diff_servers.
    rewrite (flat_length write_brief FDFSStorageBrief_size) by apply write_brief_length. lia.
Qed.

Lemma reports_read_witness :
  buff2long (drop 16 (report_df_stat [(100, 50); (200, 70)])) = Some 200 ∧
  buff2int (report_trunk_fid 7) = Some 7 ∧ buff2long (report_trunk_free_space 5242880) = Some 5.
Proof.
  split; [|split].
  - apply (proj2 (proj1 reports_read [(100, 50); (200, 70)]) 1%nat 200 70); [done|unfold is_int64; lia..].
  - apply (proj1 (proj2 (proj2 reports_read)) 7). unfold is_int32. lia.
  - apply (proj1 (proj2 (proj2 (proj2 reports_read))) 5242880). unfold is_int64. lia.
Defined.

(** ** The path of most free space *)

(** The first place of the largest entry above the reserve. *)
Definition is_best (avg_reserved_mb : Z) (l : list (Z * Z)) (k : nat) (t f : Z) : Prop :=
  l !! k = Some (t, f) ∧ avg_reserved_mb < f ∧ (∀ space, space ∈ l → space.2 ≤ f) ∧
  ∀ j t' f', (j < k)%nat → l !! j = Some (t', f') → f' < f.

(** What the search found among the paths [l]. *)
Definition best_so_far (avg_reserved_mb : Z) (l : list (Z * Z)) (best max_free_mb : Z) : Prop :=
  best = -1 ∧ max_free_mb = 0 ∧ (∀ space, space ∈ l → space.2 ≤ avg_reserved_mb) ∨
  ∃ k t, best = Z.of_nat k ∧ is_best avg_reserved_mb l k t max_free_mb.

Lemma best_so_far_step avg l best mb t f :
  0 ≤ avg → f < 2 ^ 31 → best_so_far avg l best mb →
  if (avg <? f) && (mb <? f) then best_so_far avg (l ++ [(t, f)]) (Z.of_nat (length l)) (s32 f)
  else best_so_far avg (l ++ [(t, f)]) best mb.
Proof.
  intros Havg Hf Hb. destruct ((avg <? f) && (mb <? f)) eqn:E.
  - apply andb_true_iff in E as [E1%Z.ltb_lt E2%Z.ltb_lt]. rewrite s32_id by (unfold is_int32; lia).
    assert (Hlt : ∀ space, space ∈ l → space.2 < f).
    { intros space Hs. destruct Hb as [(_ & _ & H)|(k & u & _ & _ & _ & H & _)]; specialize (H space Hs); lia. }
    right. exists (length l), t. split; [done|]. split; [by rewrite lookup_app_r, Nat.sub_diag by lia|]. split; [done|].
    split.
    + intros space [Hs| ->%list_elem_of_singleton]%elem_of_app; [by apply Z.lt_le_incl, Hlt|done].
    + intros j t' f' Hj. rewrite lookup_app_l by done. intros Hs. apply (Hlt (t', f')). by eapply list_elem_of_lookup_2.
  - apply andb_false_iff in E as E'. rewrite !Z.ltb_ge in E'.
    destruct Hb as [(-> & -> & Hle)|(k & u & -> & Hk & Ha & Hmax & Hfirst)].
    + left. split; [done|]. split; [done|]. intros space [?| ->%list_elem_of_singleton]%elem_of_app; [by apply Hle|cbn; lia].
    + right. exists k, u. split; [done|]. assert (Hlk := lookup_lt_Some _ _ _ Hk). split; [by rewrite lookup_app_l|].
      split; [done|]. split.
      * intros space [?| ->%list_elem_of_singleton]%elem_of_app; [by apply Hmax|cbn; lia].
      * intros j t' f' Hj. rewrite lookup_app_l by lia. by apply Hfirst.
Qed.

Lemma best_path_ok avg done rest best mb :
  0 ≤ avg → Forall (λ space, space.2 < 2 ^ 31) rest → best_so_far avg done best mb →
  ∃ mb', best_so_far avg (done ++ rest) (best_path avg rest (Z.of_nat (length done)) best mb) mb'.
Proof.
  intros Havg Hrest. revert done best mb. induction Hrest as [|[t f] rest Hf Hrest IH]; intros done best mb Hb; cbn [best_path].
  { rewrite app_nil_r. by exists mb. }
  assert (H := best_so_far_step avg done best mb t f Havg Hf Hb).
  replace (done ++ (t, f) :: rest) with ((done ++ [(t, f)]) ++ rest) by by rewrite <- app_assoc.
  replace (Z.of_nat (length done) + 1) with (Z.of_nat (length (done ++ [(t, f)]))) by (rewrite length_app; cbn; lia).
  cbn [snd]. destruct (_ && _); by apply (IH _ _ _ H).
Qed.

(** With the policy "load balance" a storage server writes next to the
    path whose free space is above the reserve and the largest of all its
    paths, the first of these, and to none ([-1]) exactly when no path has
    more than the reserve. *)
Theorem df_store_path_best avg_reserved_mb l index :
  0 ≤ avg_reserved_mb → Forall (λ space, space.2 < 2 ^ 31) l →
  let r := df_store_path FDFS_STORE_PATH_LOAD_BALANCE avg_reserved_mb l index in
  (r = -1 ∧ ∀ space, space ∈ l → space.2 ≤ avg_reserved_mb) ∨
  (∃ k t f, r = Z.of_nat k ∧ is_best avg_reserved_mb l k t f).
Proof.
  intros Havg Hl. unfold df_store_path. rewrite Z.eqb_refl. cbv zeta.
  destruct (best_path_ok avg_reserved_mb [] l (-1) 0 Havg Hl) as (mb & [(E & _ & H)|(k & t & E & H)]).
  - left. split; [done|]. split; [done|]. intros space Hs. by apply not_elem_of_nil in Hs.
  - left. split; [exact E|exact H].
  - right. exists k, t, mb. by split.
Qed.

Lemma df_store_path_best_witness :
  let r := df_store_path FDFS_STORE_PATH_LOAD_BALANCE 100 [(1000, 50); (2000, 700); (1000, 700)] 0 in
  r = 1 ∧ ((r = -1 ∧ ∀ space, space ∈ [(1000, 50); (2000, 700); (1000, 700)] → space.2 ≤ 100) ∨
    (∃ k t f, r = Z.of_nat k ∧ is_best 100 [(1000, 50); (2000, 700); (1000, 700)] k t f)).
Proof. split; [done|]. apply df_store_path_best; [lia|repeat constructor; cbn; lia]. Defined.
