(* ===== verification/TrackerSyncReq.v ===== *)
(** * How a new storage server gets its files

    The handlers of tracker/tracker_service.c by which a server that joined
    finds the server to copy from and comes online: [sync_dest_req] chooses
    the source, [sync_dest_query] and [sync_src_req] tell it to both sides,
    [sync_notify] reports progress, [sync_report] the times up to which files
    have arrived from other servers; and the requests that name a group: [report_status],
    [delete_storage], [set_trunk_server], [report_ip_changed],
    [fetch_update]. *)

From S2P Require Import Prelude CLib FdfsShared SortedArray SharedFunc TrackerMem TrackerQuery TrackerGroups TrackerJoin.
From S2P Require Import TrackerStore TrackerReport.
#[local] Open Scope Z_scope.

(** [sizeof(TrackerStorageSyncReqBody)]: an id and a number of 8 bytes. *)
Definition TrackerStorageSyncReqBody_size : nat := 24.

(** The source and the time up to which its files are copied. *)
Notation sync_reply := (option (list Z * Z)).

(** A buffer of [n] bytes whose last byte is set to NUL. *)
Definition text_at (body : list Z) (i n : nat) : list Z := c_string (take (n - 1) (drop i body)).

Section sync.
Context (env : nat → answer) (cfg : groups_config).
#[local] Notation tcfg := (t_config cfg).

(** [tracker_save_storages]; its result is not looked at. *)
Definition save_storages : prog group_state unit := ask env;; mret tt.

Definition set_status (q : positive) (st : Z) : prog group_state unit :=
  upd_server q (λ d, d <| status := st |>);;
  upd_grp (λ g, g <| chg_count ::= λ n, s32 (n + 1) |>).

(** ** Progress of the copy *)

Definition waits_for_sync (st : Z) : bool :=
  (st =? FDFS_STORAGE_STATUS_INIT) || (st =? FDFS_STORAGE_STATUS_WAIT_SYNC) || (st =? FDFS_STORAGE_STATUS_SYNCING).

(** The source is [src_id]; it stays set when it is refused. *)
Definition take_source (q : positive) (src_id : list Z) (until : Z) : prog group_state Z :=
  src ← tracker_mem_get_storage src_id;
  upd_server q (λ d, d <| psync_src_server := src |>);;
  match src with
  | None => mret ENOENT
  | Some p =>
      e ← get_server p;
      if (status e =? FDFS_STORAGE_STATUS_DELETED) || (status e =? FDFS_STORAGE_STATUS_IP_CHANGED) then mret ENOENT
      else upd_server q (λ d, d <| sync_until_timestamp := until |>);; mret 0
  end.

Definition sync_notify (q : positive) (src_id : list Z) (until : Z) : prog group_state Z :=
  d ← get_server q;
  if decide (src_id = []) then
    (if waits_for_sync (status d) then set_status q FDFS_STORAGE_STATUS_ONLINE;; save_storages else mret tt);;
    mret 0
  else
    (if status d =? FDFS_STORAGE_STATUS_INIT then set_status q FDFS_STORAGE_STATUS_WAIT_SYNC else mret tt);;
    match psync_src_server d with
    | None =>
        result ← take_source q src_id until;
        if c_true result then mret result else save_storages;; mret 0
    | Some _ =>
        (if status d =? FDFS_STORAGE_STATUS_INIT then save_storages else mret tt);;
        mret 0
    end.

Definition tracker_deal_storage_sync_notify (p q : positive) (body : list Z) : prog tracker_state Z :=
  if negb (length body =? TrackerStorageSyncReqBody_size)%nat then mret EINVAL
  else
    until ← deref (buff2long (drop FDFS_STORAGE_ID_MAX_SIZE body));
    in_group p (sync_notify q (text_at body 0 FDFS_STORAGE_ID_MAX_SIZE) (s32 until)).

(** ** Choosing the source *)

Definition may_be_source (st : Z) : bool :=
  (st =? FDFS_STORAGE_STATUS_OFFLINE) || (st =? FDFS_STORAGE_STATUS_ONLINE) || (st =? FDFS_STORAGE_STATUS_ACTIVE).

(** [source_count] *)
Fixpoint count_sources (id : list Z) (l : list positive) : prog group_state nat :=
  match l with
  | [] => mret 0%nat
  | p :: l =>
      d ← get_server p;
      n ← count_sources id l;
      mret (if negb (strcmp (storage_id d) id =? 0) && may_be_source (status d) then S n else n)
  end.

Definition sync_dest_req (q : positive) : prog group_state (Z * sync_reply) :=
  g ← get_grp;
  d ← get_server q;
  source_count ← (if decide (count g ≤ 1)%nat then mret 0%nat
                  else l ← servers_in (all_servers g) (count g); count_sources (storage_id d) l);
  if decide (source_count = 0)%nat then
    set_status q FDFS_STORAGE_STATUS_ONLINE;;
    save_storages;;
    mret (0, None)
  else
    pSrcStorage ← tracker_get_group_sync_src_server q;
    match pSrcStorage with
    | None => mret (ENOENT, None)
    | Some p =>
        e ← get_server p;
        let until := s32 (g_current_time tcfg) in
        upd_server q (λ d, d <| psync_src_server := Some p |> <| sync_until_timestamp := until |>);;
        set_status q FDFS_STORAGE_STATUS_WAIT_SYNC;;
        save_storages;;
        mret (0, Some (storage_id e, until))
    end.

Definition tracker_deal_storage_sync_dest_req (p q : positive) (body : list Z) : prog tracker_state (Z * sync_reply) :=
  if decide (length body = 0)%nat then in_group p (sync_dest_req q) else mret (EINVAL, None).

(** ** Asking for the source *)

Definition sync_dest_query (q : positive) : prog group_state sync_reply :=
  d ← get_server q;
  match psync_src_server d with
  | None => mret None
  | Some p => e ← get_server p; mret (Some (storage_id e, sync_until_timestamp d))
  end.

Definition tracker_deal_storage_sync_dest_query (p q : positive) (body : list Z) : prog tracker_state (Z * sync_reply) :=
  if decide (length body = 0)%nat then r ← in_group p (sync_dest_query q); mret (0, r) else mret (EINVAL, None).

Definition sync_src_req (dest_storage_id : list Z) : prog group_state (Z * sync_reply) :=
  pDestStorage ← tracker_mem_get_storage dest_storage_id;
  match pDestStorage with
  | None => mret (ENOENT, None)
  | Some q =>
      d ← get_server q;
      if (status d =? FDFS_STORAGE_STATUS_INIT) || (status d =? FDFS_STORAGE_STATUS_DELETED) ||
         (status d =? FDFS_STORAGE_STATUS_IP_CHANGED)
      then mret (ENOENT, None)
      else
        match psync_src_server d with
        | None => mret (0, None)
        | Some p =>
            e ← get_server p;
            if may_be_source (status e) || (status e =? FDFS_STORAGE_STATUS_RECOVERY) then
              mret (0, Some (storage_id e, sync_until_timestamp d))
            else
              upd_server q (λ d, d <| psync_src_server := None |>);;
              save_storages;;
              mret (0, None)
        end
  end.

(** ** Requests that name a group *)

(** The name is the first field of the request. *)
Definition with_named_group {A} (body : list Z) (none : A) (k : positive → prog tracker_state A) : prog tracker_state A :=
  pGroup ← tracker_mem_get_group_ex (c_string (take FDFS_GROUP_NAME_MAX_LEN body));
  match pGroup with
  | None => mret none
  | Some p => k p
  end.

Definition tracker_deal_storage_sync_src_req (body : list Z) : prog tracker_state (Z * sync_reply) :=
  if negb (length body =? FDFS_GROUP_NAME_MAX_LEN + FDFS_STORAGE_ID_MAX_SIZE)%nat then mret (EINVAL, None)
  else
    with_named_group body (ENOENT, None) (λ p,
      in_group p (sync_src_req (text_at body FDFS_GROUP_NAME_MAX_LEN FDFS_STORAGE_ID_MAX_SIZE))).

Definition tracker_deal_storage_report_status (body : list Z) : prog tracker_state Z :=
  if negb (length body =? FDFS_GROUP_NAME_MAX_LEN + FDFSStorageBrief_size)%nat then mret EINVAL
  else
    with_named_group body ENOENT (λ p,
      briefs ← deref (parse_briefs 1 (drop FDFS_GROUP_NAME_MAX_LEN body));
      in_group p (tracker_mem_sync_storages env tcfg briefs)).

Definition tracker_deal_server_delete_storage (body : list Z) : prog tracker_state Z :=
  if decide (length body ≤ FDFS_GROUP_NAME_MAX_LEN)%nat then mret EINVAL
  else if decide (FDFS_GROUP_NAME_MAX_LEN + FDFS_STORAGE_ID_MAX_SIZE ≤ length body)%nat then mret EINVAL
  else
    with_named_group body ENOENT (λ p,
      in_group p (tracker_mem_delete_storage env tcfg (text_at body FDFS_GROUP_NAME_MAX_LEN FDFS_STORAGE_ID_MAX_SIZE))).

(** The reply: the id of the trunk server. *)
Definition tracker_deal_server_set_trunk_server (body : list Z) : prog tracker_state (Z * list Z) :=
  if decide (length body < FDFS_GROUP_NAME_MAX_LEN)%nat then mret (EINVAL, [])
  else if decide (FDFS_GROUP_NAME_MAX_LEN + FDFS_STORAGE_ID_MAX_SIZE ≤ length body)%nat then mret (EINVAL, [])
  else
    with_named_group body (ENOENT, []) (λ p,
      in_group p (
        r ← tracker_mem_set_trunk_server env tcfg (text_at body FDFS_GROUP_NAME_MAX_LEN FDFS_STORAGE_ID_MAX_SIZE);
        let '(result, pTrunkServer) := r in
        if c_true result then mret (result, [])
        else
          match pTrunkServer with
          | None => mret (ENOENT, [])
          | Some q => d ← get_server q; mret (0, storage_id d)
          end)).

Definition tracker_deal_storage_report_ip_changed (client_ip body : list Z) : prog tracker_state Z :=
  if g_use_storage_id tcfg then mret EOPNOTSUPP
  else if negb (length body =? FDFS_GROUP_NAME_MAX_LEN + 2 * IP_ADDRESS_SIZE)%nat then mret EINVAL
  else
    let pOldIpAddr := text_at body FDFS_GROUP_NAME_MAX_LEN IP_ADDRESS_SIZE in
    let pNewIpAddr := text_at body (FDFS_GROUP_NAME_MAX_LEN + IP_ADDRESS_SIZE) IP_ADDRESS_SIZE in
    with_named_group body ENOENT (λ p,
      if negb (strcmp pNewIpAddr client_ip =? 0) then mret EINVAL
      else in_group p (tracker_mem_storage_ip_changed env tcfg pOldIpAddr pNewIpAddr)).

(** The reply: the group, its port and the addresses of the servers;
    [name_buff] is what the buffer on the stack holds. *)
Definition tracker_deal_service_query_fetch_update (cmd : Z) (name_buff body : list Z)
    : prog tracker_state (Z * option (list Z * Z * list (list Z))) :=
  if decide (length body < FDFS_GROUP_NAME_MAX_LEN + 22)%nat then mret (EINVAL, None)
  else if decide (FDFS_GROUP_NAME_MAX_LEN + 128 ≤ length body)%nat then mret (EINVAL, None)
  else
    let filename := drop FDFS_GROUP_NAME_MAX_LEN body in
    with_named_group body (ENOENT, None) (λ p,
      in_group p (
        r ← tracker_mem_get_storage_by_filename tcfg cmd name_buff filename (Z.of_nat (length filename));
        if c_true r.1 then mret (r.1, None)
        else
          ips ← ip_addrs_of r.2;
          g ← get_grp;
          mret (0, Some (group_name g, storage_port g, ips)))).

(** ** Times of files that arrived *)

Definition SYNC_REPORT_ENTRY : nat := FDFS_STORAGE_ID_MAX_SIZE + 4.

(** [last_sync_timestamps[src][dest] = t] *)
Definition set_timestamp (rows : list (list Z)) (src dest : nat) (t : Z) : option (list (list Z)) :=
  row ← rows !! src;
  if decide (dest < length row)%nat then Some (<[src := <[dest := t]> row]> rows) else None.

(** One entry of the report: the time, when it counts. *)
Definition sync_entry (q : positive) (dest_index : Z) (entry : list Z) : prog group_state (option Z) :=
  sync_timestamp ← deref (buff2int (drop FDFS_STORAGE_ID_MAX_SIZE entry));
  if sync_timestamp <=? 0 then mret None
  else
    pSrcStorage ← tracker_mem_get_storage (text_at entry 0 FDFS_STORAGE_ID_MAX_SIZE);
    match pSrcStorage with
    | None => mret None
    | Some p =>
        d ← get_server p;
        if negb (status d =? FDFS_STORAGE_STATUS_ACTIVE) then mret None
        else
          src_index ← tracker_mem_get_storage_index p;
          g ← get_grp;
          if (src_index =? dest_index) || (src_index <? 0) || (Z.of_nat (count g) <=? src_index) then mret None
          else
            rows ← deref (set_timestamp (last_sync_timestamps g) (Z.to_nat src_index) (Z.to_nat dest_index) sync_timestamp);
            upd_grp (λ g, g <| last_sync_timestamps := rows |>);;
            mret (Some sync_timestamp)
    end.

(** [n] entries; [synced] is the least (round robin) or the largest time. *)
Fixpoint sync_entries (q : positive) (dest_index : Z) (n : nat) (body : list Z) (synced : Z) : prog group_state Z :=
  match n with
  | O => mret synced
  | S n =>
      t ← sync_entry q dest_index (take SYNC_REPORT_ENTRY body);
      let synced :=
        match t with
        | None => synced
        | Some t =>
            if store_server tcfg =? FDFS_STORE_SERVER_ROUND_ROBIN then
              if synced =? 0 then t else if t <? synced then t else synced
            else if synced <? t then t else synced
        end in
      sync_entries q dest_index n (drop SYNC_REPORT_ENTRY body) synced
  end.

Definition set_synced (q : positive) (t : Z) : prog group_state unit :=
  upd_server q (λ d, d <| stat ::= λ st, st <| last_synced_timestamp := t |> |>).

(** Whether the server is one of the group. *)
Definition sync_report (q : positive) (body : list Z) : prog group_state bool :=
  dest_index ← tracker_mem_get_storage_index q;
  g ← get_grp;
  if (dest_index <? 0) || (Z.of_nat (count g) <=? dest_index) then mret false
  else
    d ← get_server q;
    let n := (length body / SYNC_REPORT_ENTRY)%nat in
    (if store_server tcfg =? FDFS_STORE_SERVER_ROUND_ROBIN then
       t ← sync_entries q dest_index n body 0;
       if 0 <? t then set_synced q t else mret tt
     else
       t ← sync_entries q dest_index n body (s32 (last_synced_timestamp (stat d)));
       set_synced q t);;
    mret true.

Definition tracker_deal_storage_sync_report (leader : leader_info) (p q : positive) (client_leader_chg : Z) (body : list Z)
    : prog tracker_state (Z * list notice * Z) :=
  if decide (length body = 0)%nat then mret (EINVAL, [], client_leader_chg)
  else if negb (length body =? length body / SYNC_REPORT_ENTRY * SYNC_REPORT_ENTRY)%nat
  then mret (EINVAL, [], client_leader_chg)
  else
    known ← in_group p (sync_report q body);
    status ← (if known : bool then
                modify (λ s, s <| g_storage_sync_time_chg_count ::= λ n, s32 (n + 1) |>);;
                s ← get;
                if Z.rem (g_storage_sync_time_chg_count s) TRACKER_SYNC_TO_FILE_FREQ =? 0
                then a ← ask_tracker env; mret (a_result a)                   (* tracker_save_sync_timestamps *)
                else mret 0
              else mret 0);
    tracker_check_and_sync cfg leader p q client_leader_chg status.

End sync.
