(* ===== verification/TrackerSyncReqInv.v ===== *)
(** * What the requests for copying files promise

    On a sound group: a server that was told to copy waits for it, a server
    that has no source comes online, the source is active, and nothing else
    changes the states of the servers. *)

From S2P Require Import Prelude CLib FdfsShared SortedArray SharedFunc TrackerMem TrackerMemInv TrackerMemGrow TrackerMemOps.
From S2P Require Import TrackerMemActive TrackerQuery TrackerMemSpec TrackerAlive TrackerGroups TrackerKeeps TrackerGroupsInv.
From S2P Require Import TrackerJoin TrackerJoinInv TrackerTable TrackerStore TrackerReport TrackerReportInv TrackerStoreInv TrackerSyncReq.
#[local] Open Scope Z_scope.

(** The names of the group and of the server stay. *)
Definition same_names (q : positive) (s s' : group_state) : Prop :=
  group_name (grp s') = group_name (grp s) ∧ id_of (details s') q = id_of (details s) q.

Lemma same_names_trans q s1 s2 s3 : same_names q s1 s2 → same_names q s2 s3 → same_names q s1 s3.
Proof. unfold same_names. intros [] []. split; congruence. Qed.

Lemma text_at_length body i n : (0 < n)%nat → (length (text_at body i n) < n)%nat.
Proof.
  intros Hn. unfold text_at. pose proof (c_string_length (take (n - 1) (drop i body))) as H. rewrite length_take in H. lia.
Qed.

Lemma id_at_length body i : (length (text_at body i FDFS_STORAGE_ID_MAX_SIZE) < FDFS_STORAGE_ID_MAX_SIZE)%nat.
Proof. apply text_at_length. unfold FDFS_STORAGE_ID_MAX_SIZE. lia. Qed.

Section sync.
Context (env : nat → answer) (cfg : groups_config).

Lemma quiet_chg_count : quiet (λ g, g <| chg_count ::= λ n, s32 (n + 1) |>).
Proof. intros ?. split; [intros v0 ds0 H0; destruct H0; by constructor|done]. Qed.

(** A new state of a server that is not active. *)
Lemma set_status_ok v m s q d st :
  standing v m s → q ∈ v_all v → details s !! q = Some d →
  status d ≠ FDFS_STORAGE_STATUS_ACTIVE → st ≠ FDFS_STORAGE_STATUS_ACTIVE →
  returns (set_status q st) s (λ _ s', standing v (<[storage_id d := st]> m) s' ∧ same_names q s s' ∧
    details s' = <[q := d <| status := st |>]> (details s)).
Proof.
  intros Hs Hq Hd Hst Hst'. unfold set_status. apply returns_bind, (returns_upd_server _ q d); [done|]. apply returns_upd_grp.
  split; [|split; [split; [done|by apply (id_of_insert _ _ d)]|done]].
  apply (standing_grp v _ _ _ (standing_status v m s q d st Hs Hq Hd Hst Hst') quiet_chg_count).
Qed.

Lemma save_storages_ok v m s : standing v m s →
  returns (save_storages env) s (λ _ s', standing v m s' ∧ grp s' = grp s ∧ details s' = details s).
Proof. intros Hs. unfold save_storages. step. apply returns_ret. split; [by destruct Hs|done]. Qed.

(** The source of a server is set to a server of the group. *)
Lemma standing_source v m s q d d' :
  standing v m s → q ∈ v_all v → details s !! q = Some d →
  storage_id d' = storage_id d → status d' = status d → (∀ p, psync_src_server d' = Some p → p ∈ v_all v) →
  current_write_path d' = current_write_path d → path_total_mbs d' = path_total_mbs d → path_free_mbs d' = path_free_mbs d →
  standing v m (s <| details ::= <[q := d']> |>).
Proof.
  intros [Hok [Hr Hc] Hm] Hq Hd Hid Hst Hsrc Hcw Ht Hf. constructor.
  - apply (group_ok_upd Hok q d); [done|done|done|by rewrite Hst|done].
  - split; [|done]. apply (settled_upd s q d d' Hd); [|done]. unfold sized. by rewrite Hcw, Ht, Hf.
  - by apply (states_upd_same Hok Hm q d).
Qed.

(** ** Notify *)

(** The state of a server that reports its progress; no source ([[]]) means
    that it is done. *)
Definition notified (src_id : list Z) (st : Z) : Z :=
  if decide (src_id = []) then if waits_for_sync st then FDFS_STORAGE_STATUS_ONLINE else st
  else if st =? FDFS_STORAGE_STATUS_INIT then FDFS_STORAGE_STATUS_WAIT_SYNC else st.

Lemma waits_inactive st : waits_for_sync st = true → st ≠ FDFS_STORAGE_STATUS_ACTIVE.
Proof. by intros H ->. Qed.

Lemma take_source_ok v m s q src_id until :
  standing v m s → q ∈ v_all v → (length src_id < FDFS_STORAGE_ID_MAX_SIZE)%nat →
  returns (take_source q src_id until) s (λ r s', standing v m s' ∧ same_names q s s' ∧ (r = 0 ∨ r = ENOENT) ∧
    (r = 0 → ∃ d p, details s' !! q = Some d ∧ psync_src_server d = Some p ∧ id_of (details s') p = Some src_id)).
Proof.
  intros Hs Hq Hlen. destruct (calm_object v m s q Hs Hq) as [d Hd]. unfold take_source. apply returns_bind.
  eapply returns_mono; [apply (tracker_mem_get_storage_ok v); [apply Hs|done]|]. intros src s0 [-> Hl].
  apply returns_bind, (returns_upd_server _ q d); [done|].
  match goal with |- returns _ ?st _ => set (s1 := st) end.
  assert (Hs1 : standing v m s1).
  { apply (standing_source v m s q d); try done. cbn. intros p ->. apply Hl. }
  assert (Hn1 : same_names q s s1) by (split; [done|by apply (id_of_insert _ _ d)]).
  destruct src as [p|]; [|apply returns_ret; split; [done|]; split; [done|]; split; [by right|done]].
  destruct Hl as [Hp Hpid]. destruct (calm_object v m s1 p Hs1 Hp) as [e He]. step.
  destruct (_ || _); [apply returns_ret; split; [done|]; split; [done|]; split; [by right|done]|].
  set (d1 := d <| psync_src_server := Some p |>). assert (Hd1 : details s1 !! q = Some d1) by (cbn; by rewrite lookup_insert_eq).
  apply returns_bind, (returns_upd_server _ q d1); [done|]. apply returns_ret. split; [|split; [|split; [by left|]]].
  - apply (standing_source v m s1 q d1); try done. cbn. by intros p' [= <-].
  - apply (same_names_trans q s s1); [done|]. split; [done|by apply (id_of_insert _ _ d1)].
  - intros _. exists (d1 <| sync_until_timestamp := until |>), p. split; [cbn; by rewrite lookup_insert_eq|]. split; [done|].
    rewrite <- Hpid. etrans; [by apply (id_of_insert _ _ d1)|]. by apply (id_of_insert _ _ d).
Qed.

Lemma sync_notify_ok v m s q d src_id until :
  standing v m s → q ∈ v_all v → details s !! q = Some d → (length src_id < FDFS_STORAGE_ID_MAX_SIZE)%nat →
  returns (sync_notify env q src_id until) s (λ r s',
    standing v (<[storage_id d := notified src_id (status d)]> m) s' ∧ same_names q s s' ∧
    (r = 0 ∨ r = ENOENT ∧ src_id ≠ [])).
Proof.
  intros Hs Hq Hd Hlen. assert (Hsame : <[storage_id d := status d]> m = m).
  { apply insert_id. by apply (states_lookup (st_states _ _ _ Hs) q). }
  unfold sync_notify, notified. step. destruct (decide (src_id = [])) as [|Hne].
  - destruct (waits_for_sync (status d)) eqn:E; [|rewrite Hsame; apply returns_bind, returns_ret, returns_ret; split; [done|]; split; [done|by left]].
    apply returns_bind, returns_bind. eapply returns_mono; [apply (set_status_ok v m s q d); try done; by apply waits_inactive|].
    intros u s1 (Hs1 & Hn1 & _). eapply returns_mono; [by apply (save_storages_ok v)|]. intros u2 s2 (Hs2 & Hg2 & Hd2).
    apply returns_ret. split; [done|]. split; [|by left]. destruct Hn1. split; congruence.
  - set (m' := <[storage_id d := if status d =? FDFS_STORAGE_STATUS_INIT then FDFS_STORAGE_STATUS_WAIT_SYNC else status d]> m).
    apply returns_bind. apply (returns_mono _ _ (λ _ s1, standing v m' s1 ∧ same_names q s s1)).
    { unfold m'. destruct (Z.eqb_spec (status d) FDFS_STORAGE_STATUS_INIT) as [E|]; [|rewrite Hsame; by apply returns_ret].
      eapply returns_mono; [apply (set_status_ok v m s q d); try done; by rewrite E|]. by intros u s1 (? & ? & _). }
    intros u s1 [Hs1 Hn1]. destruct (psync_src_server d).
    + apply returns_bind. apply (returns_mono _ _ (λ _ s2, standing v m' s2 ∧ grp s2 = grp s1 ∧ details s2 = details s1)).
      { destruct (_ =? _); [by apply (save_storages_ok v m')|by apply returns_ret]. }
      intros u2 s2 (Hs2 & Hg2 & Hd2). apply returns_ret. split; [exact Hs2|]. split; [|by left]. destruct Hn1. split; congruence.
    + apply returns_bind. eapply returns_mono; [by apply (take_source_ok v m' s1 q)|].
      intros r s2 (Hs2 & Hn2 & Hr & _). assert (Hn := same_names_trans q s s1 s2 Hn1 Hn2).
      destruct (c_true r) eqn:Er.
      { apply returns_ret. split; [done|]. split; [done|]. destruct Hr as [->|?]; [done|by right]. } apply returns_bind.
      eapply returns_mono; [by apply (save_storages_ok v m')|]. intros u3 s3 (Hs3 & Hg3 & Hd3). apply returns_ret.
      split; [exact Hs3|]. split; [|by left]. destruct Hn. split; congruence.
Qed.

(** ** Choosing the source *)

(** Another server may be the source: it has files, or will have them. *)
Definition source_states : list Z := [FDFS_STORAGE_STATUS_ACTIVE; FDFS_STORAGE_STATUS_ONLINE; FDFS_STORAGE_STATUS_OFFLINE].
Definition other_source (m : gmap (list Z) Z) (id : list Z) : Prop :=
  map_Exists (λ i st, i ≠ id ∧ st ∈ source_states) m.
#[global] Instance other_source_decision m id : Decision (other_source m id).
Proof. unfold other_source. apply _. Defined.
Definition other_active (m : gmap (list Z) Z) (id i : list Z) : Prop :=
  i ≠ id ∧ m !! i = Some FDFS_STORAGE_STATUS_ACTIVE.

(** The answer to a server that asks for a source, and its new state. *)
Inductive source_answer (now : Z) (m : gmap (list Z) Z) (id : list Z) : Z * sync_reply → gmap (list Z) Z → Prop :=
  | answer_alone : ¬ other_source m id → source_answer now m id (0, None) (<[id := FDFS_STORAGE_STATUS_ONLINE]> m)
  | answer_source i : other_active m id i →
      source_answer now m id (0, Some (i, s32 now)) (<[id := FDFS_STORAGE_STATUS_WAIT_SYNC]> m)
  | answer_later : other_source m id → (∀ i, ¬ other_active m id i) → source_answer now m id (ENOENT, None) m.

Lemma may_be_source_states st : may_be_source st = true ↔ st ∈ source_states.
Proof. unfold may_be_source, source_states. rewrite !orb_true_iff, !Z.eqb_eq. set_solver. Qed.

Lemma count_sources_ok s id l : (∀ p, p ∈ l → is_Some (details s !! p)) →
  returns (count_sources id l) s (λ n s', s' = s ∧
    (n = 0%nat ↔ ∀ p d, p ∈ l → details s !! p = Some d → storage_id d ≠ id → may_be_source (status d) = false)).
Proof.
  induction l as [|p l IH]; intros Hl; cbn [count_sources].
  { apply returns_ret. split; [done|]. split; [by intros _ p d []%not_elem_of_nil|done]. }
  destruct (Hl p) as [d Hd]; [by left|]. step. apply returns_bind.
  eapply returns_mono; [apply IH; intros q Hq; apply Hl; by right|]. intros n s' [-> Hn]. apply returns_ret. split; [done|].
  assert (Hhead : negb (strcmp (storage_id d) id =? 0) && may_be_source (status d) = false ↔
    (storage_id d ≠ id → may_be_source (status d) = false)).
  { rewrite andb_false_iff, negb_false_iff, Z.eqb_eq, strcmp_eq. destruct (decide (storage_id d = id)); naive_solver. }
  transitivity (negb (strcmp (storage_id d) id =? 0) && may_be_source (status d) = false ∧ n = 0%nat).
  { destruct (negb _ && _); split; [done|by intros []|done|by intros []]. }
  rewrite Hhead, Hn. split.
  - intros [H1 H2] q e [->|Hq]%elem_of_cons He; [by simplify_eq; apply H1|by eapply H2].
  - intros H. split; [apply (H p d); [by left|done]|]. intros q e Hq. apply H. by right.
Qed.

Lemma first_other_ok s id l : (∀ p, p ∈ l → is_Some (details s !! p)) →
  returns (first_other id l) s (λ r s', s' = s ∧
    match r with
    | Some p => p ∈ l ∧ ∃ d, details s !! p = Some d ∧ storage_id d ≠ id
    | None => ∀ p d, p ∈ l → details s !! p = Some d → storage_id d = id
    end).
Proof.
  induction l as [|p l IH]; intros Hl; cbn [first_other].
  { apply returns_ret. split; [done|]. by intros p d []%not_elem_of_nil. }
  destruct (Hl p) as [d Hd]; [by left|]. step. destruct (Z.eqb_spec (strcmp (storage_id d) id) 0) as [E|E].
  - apply strcmp_eq in E. eapply returns_mono; [apply IH; intros q Hq; apply Hl; by right|].
    intros [q|] s' [-> H]; (split; [done|]).
    + destruct H. split; [by right|done].
    + intros q e [->|Hq]%elem_of_cons He; [by simplify_eq|by apply (H q)].
  - apply returns_ret. split; [done|]. split; [by left|]. exists d. split; [done|]. by rewrite <- strcmp_eq.
Qed.

Lemma other_source_servers v m s id : standing v m s →
  ¬ other_source m id ↔ ∀ p d, p ∈ v_all v → details s !! p = Some d → storage_id d ≠ id → may_be_source (status d) = false.
Proof.
  intros Hs. split.
  - intros H p d Hp Hd Hne. apply not_true_iff_false. intros E. apply H. exists (storage_id d), (status d).
    split; [by apply (states_lookup (st_states _ _ _ Hs) p)|]. by rewrite <- may_be_source_states.
  - intros H (i & st & Hi & Hne & E). rewrite <- may_be_source_states in E. apply (st_states _ _ _ Hs) in Hi as (p & d & Hp & Hd & <- & <-).
    by rewrite (H p d) in E.
Qed.

Lemma servers_all v s : group_ok v (grp s) (details s) →
  servers_in (all_servers (grp s)) (count (grp s)) = deref (Some (v_all v)).
Proof. intros Hok. unfold servers_in. by rewrite (ok_all _ _ _ Hok), fmap_app, (ok_count _ _ _ Hok), entries_spec. Qed.

Lemma servers_active v s : group_ok v (grp s) (details s) →
  servers_in (active_servers (grp s)) (active_count (grp s)) = deref (Some (v_active v)).
Proof.
  intros Hok. unfold servers_in. destruct (ok_active _ _ _ Hok) as [rest ->]. by rewrite (ok_active_count _ _ _ Hok), entries_spec.
Qed.

(** Whether no other server may be the source is found by counting. *)
Lemma source_count_ok v m s q d : standing v m s → q ∈ v_all v → details s !! q = Some d →
  returns (if decide (count (grp s) ≤ 1)%nat then mret 0%nat
           else l ← servers_in (all_servers (grp s)) (count (grp s)); count_sources (storage_id d) l) s
    (λ n s', s' = s ∧ (n = 0%nat ↔ ¬ other_source m (storage_id d))).
Proof.
  intros Hs Hq Hd. assert (Hok := st_ok _ _ _ Hs). destruct (decide _) as [Hc|Hc].
  - apply returns_ret. split; [done|]. rewrite (other_source_servers v m s) by done. split; [|done]. intros _ p e Hp He Hne.
    rewrite (ok_count _ _ _ Hok) in Hc. destruct (v_all v) as [|a [|b l]]; [by apply not_elem_of_nil in Hq| |cbn in Hc; lia].
    apply list_elem_of_singleton in Hp, Hq. subst. by simplify_eq.
  - rewrite (servers_all v) by done. apply returns_bind, (returns_deref _ _ (v_all v)); [done|].
    eapply returns_mono; [apply count_sources_ok; intros p Hp; by apply (objects_in_use v)|]. intros n s' [-> Hn].
    split; [done|]. by rewrite Hn, (other_source_servers v m s).
Qed.

Lemma sync_dest_req_ok v m s q d :
  standing v m s → q ∈ v_all v → details s !! q = Some d → status d ≠ FDFS_STORAGE_STATUS_ACTIVE →
  returns (sync_dest_req env cfg q) s (λ r s', ∃ m',
    standing v m' s' ∧ same_names q s s' ∧ source_answer (g_current_time (t_config cfg)) m (storage_id d) r m').
Proof.
  intros Hs Hq Hd Hst. assert (Hok := st_ok _ _ _ Hs). unfold sync_dest_req. step. step. apply returns_bind.
  eapply returns_mono; [by apply (source_count_ok v m s q d)|]. intros n s0 [-> Hn]. destruct (decide (n = 0%nat)) as [E|E].
  - apply returns_bind. eapply returns_mono; [by apply (set_status_ok v m s q d)|]. intros u s1 (Hs1 & Hn1 & _).
    apply returns_bind. eapply returns_mono; [by eapply save_storages_ok|]. intros u2 s2 (Hs2 & Hg2 & Hd2). apply returns_ret.
    eexists. split; [exact Hs2|]. split; [destruct Hn1; split; congruence|]. constructor. by apply Hn.
  - apply returns_bind. unfold tracker_get_group_sync_src_server. step. step. rewrite (servers_active v) by done.
    apply returns_bind, (returns_deref _ _ (v_active v)); [done|].
    eapply returns_mono; [apply first_other_ok; intros p Hp%(active_all Hok); by apply (objects_in_use v)|].
    intros [p|] s0 [-> H].
    + destruct H as (Hp & e & He & Hne). step.
      apply returns_bind, (returns_upd_server _ q d); [done|].
      set (d1 := d <| psync_src_server := Some p |> <| sync_until_timestamp := s32 (g_current_time (t_config cfg)) |>).
      set (s1 := s <| details ::= <[q := d1]> |>).
      assert (Hs1 : standing v m s1).
      { apply (standing_source v m s q d); try done. cbn. intros p' [= <-]. by apply (active_all Hok). }
      apply returns_bind. eapply returns_mono.
      { apply (set_status_ok v m s1 q d1 FDFS_STORAGE_STATUS_WAIT_SYNC); try done. cbn. by rewrite lookup_insert_eq. }
      intros u s2 (Hs2 & Hn2 & _). apply returns_bind.
      eapply returns_mono; [by eapply save_storages_ok|]. intros u2 s3 (Hs3 & Hg3 & Hd3). apply returns_ret.
      eexists. split; [exact Hs3|]. split.
      * apply (same_names_trans q s s1); [split; [done|by apply (id_of_insert _ _ d)]|]. destruct Hn2; split; congruence.
      * constructor. split; [done|]. rewrite (states_lookup (st_states _ _ _ Hs) p e); [|by apply (active_all Hok)|done].
        f_equal. by apply (states_active Hok p e); [apply (active_all Hok)|..].
    + apply returns_ret. exists m. split; [done|]. split; [done|]. constructor.
      * apply dec_stable. intros Ho. apply E. by apply Hn.
      * intros i [Hi Hm]. apply (st_states _ _ _ Hs) in Hm as (p & e & Hp & He & <- & Hact). apply Hi.
        apply (H p); [by apply (states_active Hok p e)|done].
Qed.

(** ** Asking for the source *)

(** The server to send files to, and from which time on; no file is sent to
    a server that is not known, has no files or was deleted. *)
Definition source_told (m : gmap (list Z) Z) (dest : list Z) (r : Z * sync_reply) : Prop :=
  match r.2 with
  | Some (i, _) => r.1 = 0 ∧ ∃ st, m !! i = Some st ∧ st ∈ FDFS_STORAGE_STATUS_RECOVERY :: source_states
  | None => r.1 = 0 ∧ is_Some (m !! dest) ∨
      r.1 = ENOENT ∧ ∀ st, m !! dest = Some st →
        st ∈ [FDFS_STORAGE_STATUS_INIT; FDFS_STORAGE_STATUS_DELETED; FDFS_STORAGE_STATUS_IP_CHANGED]
  end.

Lemma sync_src_req_ok v m s dest : standing v m s → (length dest < FDFS_STORAGE_ID_MAX_SIZE)%nat →
  returns (sync_src_req env dest) s (λ r s', standing v m s' ∧ group_name (grp s') = group_name (grp s) ∧ source_told m dest r).
Proof.
  intros Hs Hlen. assert (Hok := st_ok _ _ _ Hs). unfold sync_src_req. apply returns_bind.
  eapply returns_mono; [by apply (tracker_mem_get_storage_ok v)|]. intros [q|] s0 [-> H].
  2:{ apply returns_ret. split; [done|]. split; [done|]. right. split; [done|]. intros st Hst. by rewrite (states_none (st_states _ _ _ Hs)) in Hst. }
  destruct H as [Hq Hid]. destruct (calm_object v m s q Hs Hq) as [d Hd]. step.
  assert (Hm : m !! dest = Some (status d)).
  { unfold id_of in Hid. rewrite Hd in Hid. injection Hid as <-. by apply (states_lookup (st_states _ _ _ Hs) q). }
  destruct (_ || _ || _) eqn:Ebad.
  { apply returns_ret. split; [done|]. split; [done|]. right. split; [done|]. intros st. rewrite Hm. intros [= <-].
    rewrite !orb_true_iff, !Z.eqb_eq in Ebad. set_solver. }
  destruct (psync_src_server d) as [p|] eqn:Ep; [|apply returns_ret; split; [done|]; split; [done|]; left; split; [done|by eexists]].
  assert (Hp : p ∈ v_all v) by (apply (ok_src _ _ _ Hok q d); [by apply in_all|done..]).
  destruct (calm_object v m s p Hs Hp) as [e He]. step. destruct (may_be_source _ || _) eqn:Eok.
  - apply returns_ret. split; [done|]. split; [done|]. split; [done|]. exists (status e).
    split; [by apply (states_lookup (st_states _ _ _ Hs) p)|]. rewrite orb_true_iff, Z.eqb_eq, may_be_source_states in Eok. apply elem_of_cons. tauto.
  - apply returns_bind, (returns_upd_server _ q d); [done|]. apply returns_bind. eapply returns_mono.
    { apply (save_storages_ok v m). by apply (standing_source v m s q d). }
    intros u s1 (Hs1 & Hg & _). apply returns_ret. split; [done|]. split; [by rewrite Hg|]. left. split; [done|by eexists].
Qed.

(** ** Times of files that arrived *)

Lemma set_timestamp_ok n rows src dest t :
  length rows = n → Forall (λ r, length r = n) rows → (src < n)%nat → (dest < n)%nat →
  ∃ rows', set_timestamp rows src dest t = Some rows' ∧ length rows' = n ∧ Forall (λ r, length r = n) rows'.
Proof.
  intros Hl HF Hs Hd. unfold set_timestamp. destruct (lookup_lt_is_Some_2 rows src) as [row Hrow]; [by rewrite Hl|].
  rewrite Hrow. cbn [mbind option_bind]. assert (Hr := Forall_lookup_1 _ _ _ _ HF Hrow). cbn in Hr.
  rewrite decide_True by lia. eexists. split; [done|]. rewrite length_insert. split; [done|].
  apply Forall_insert; [done|]. by rewrite length_insert.
Qed.

Lemma index_of_range p l i : index_of p l i = -1 ∨ i ≤ index_of p l i < i + Z.of_nat (length l).
Proof.
  revert i. induction l as [|q l IH]; intros i; cbn [index_of length]; [by left|]. case_decide; [right; lia|].
  destruct (IH (i + 1)) as [E|E]; [by left|right; lia].
Qed.

Lemma get_storage_index_ok v s p : group_ok v (grp s) (details s) →
  returns (tracker_mem_get_storage_index p) s (λ i s', s' = s ∧ (i = -1 ∨ 0 ≤ i < Z.of_nat (count (grp s)))).
Proof.
  intros Hok. unfold tracker_mem_get_storage_index. step. rewrite (servers_all v) by done.
  apply returns_bind, (returns_deref _ _ (v_all v)); [done|]. apply returns_ret. split; [done|].
  rewrite (ok_count _ _ _ Hok). destruct (index_of_range p (v_all v) 0); [by left|right; lia].
Qed.

Lemma count_le_alloc v g ds : group_ok v g ds → (count g ≤ alloc_size g)%nat.
Proof. intros Hok. rewrite (ok_count _ _ _ Hok), (ok_alloc _ _ _ Hok), length_app. lia. Qed.

Definition calm_here {A} (m : prog group_state A) v ms s : Prop :=
  returns m s (λ _ s', standing v ms s' ∧ group_name (grp s') = group_name (grp s) ∧ details s' = details s ∧ count (grp s') = count (grp s)).

Lemma sync_entry_ok v m s q dest entry :
  standing v m s → 0 ≤ dest < Z.of_nat (count (grp s)) → (SYNC_REPORT_ENTRY ≤ length entry)%nat →
  calm_here (sync_entry q dest entry) v m s.
Proof.
  intros Hs Hdest Hlen. assert (Hok := st_ok _ _ _ Hs). unfold calm_here, sync_entry.
  destruct (buff2int_is_Some (drop FDFS_STORAGE_ID_MAX_SIZE entry)) as [t Ht].
  { rewrite length_drop. unfold SYNC_REPORT_ENTRY in Hlen. lia. }
  apply returns_bind, (returns_deref _ _ t); [done|]. destruct (_ <=? _); [by apply returns_ret|]. apply returns_bind.
  eapply returns_mono; [apply (tracker_mem_get_storage_ok v); [done|by apply id_at_length]|].
  intros [p|] s0 [-> H]; [|by apply returns_ret]. destruct H as [Hp _]. destruct (calm_object v m s p Hs Hp) as [d Hd]. step.
  destruct (negb _); [by apply returns_ret|]. apply returns_bind. eapply returns_mono; [by apply (get_storage_index_ok v)|].
  intros i s0 [-> Hi]. step. destruct (_ || _) eqn:E; [by apply returns_ret|].
  assert (Hle := count_le_alloc _ _ _ Hok).
  destruct (set_timestamp_ok (alloc_size (grp s)) (last_sync_timestamps (grp s)) (Z.to_nat i) (Z.to_nat dest) t)
    as (rows & Hrows & Hl & HF); [apply Hok|apply Hok|lia|lia|].
  apply returns_bind, (returns_deref _ _ rows); [done|]. apply returns_bind, returns_upd_grp, returns_ret.
  split; [|done]. destruct Hs as [_ [Hr Hc] Hm]. constructor; [|by split|done]. destruct Hok. by constructor.
Qed.

Lemma sync_entries_ok v m s q dest n body synced :
  standing v m s → 0 ≤ dest < Z.of_nat (count (grp s)) → (n * SYNC_REPORT_ENTRY ≤ length body)%nat →
  calm_here (sync_entries cfg q dest n body synced) v m s.
Proof.
  revert s body synced. induction n as [|n IH]; intros s body synced Hs Hdest Hlen; cbn [sync_entries]; [by apply returns_ret|].
  apply returns_bind. eapply returns_mono.
  { apply (sync_entry_ok v m); [done|done|]. rewrite length_take. lia. }
  intros t s1 (Hs1 & Hn1 & Hd1 & Hc1). eapply returns_mono.
  { apply IH; [done|by rewrite Hc1|]. rewrite length_drop. lia. }
  cbn beta. intros r s2 (? & ? & ? & ?). split; [done|]. split; [congruence|]. split; congruence.
Qed.

Lemma sync_report_calm q body : calm q (sync_report cfg q body).
Proof.
  intros v m s Hs Hq. assert (Hok := st_ok _ _ _ Hs). destruct (calm_object v m s q Hs Hq) as [d Hd].
  unfold sync_report. apply returns_bind. eapply returns_mono; [by apply (get_storage_index_ok v)|]. intros i s0 [-> Hi]. step.
  destruct (_ || _) eqn:E; [by apply returns_ret|]. step. apply returns_bind.
  assert (Hset : ∀ t s1, standing v m s1 ∧ group_name (grp s1) = group_name (grp s) ∧ details s1 = details s ∧ count (grp s1) = count (grp s) →
    returns (set_synced q t) s1 (λ _ s', group_name (grp s') = group_name (grp s) ∧ id_of (details s') q = id_of (details s) q ∧ standing v m s')).
  { intros t s1 (Hs1 & Hn & Hds & _). eapply returns_mono; [by apply calm_upd_server|]. intros u s2 (? & ? & ?). split; [congruence|].
    split; [congruence|done]. }
  eapply (returns_mono _ _ (λ _ s', group_name (grp s') = group_name (grp s) ∧ id_of (details s') q = id_of (details s) q ∧ standing v m s'));
    [|intros; by apply returns_ret].
  assert (Hbody : (length body / SYNC_REPORT_ENTRY * SYNC_REPORT_ENTRY ≤ length body)%nat).
  { rewrite Nat.mul_comm. by apply Nat.Div0.mul_div_le. }
  destruct (_ =? FDFS_STORE_SERVER_ROUND_ROBIN); apply returns_bind;
    (eapply returns_mono; [by apply (sync_entries_ok v m s q i); [done|lia|]|]); intros t s1 H1; [|by apply Hset].
  destruct (0 <? t); [by apply Hset|]. apply returns_ret. destruct H1 as (? & ? & -> & _). done.
Qed.

End sync.
