(* ===== verification/TrackerSyncServe.v ===== *)
(** * The requests for copying files, at the tracker

    [serve_sync] runs a handler of TrackerSyncReq; [sync_spec] says what it
    does to the map from groups to servers to states, and what its reply
    means. *)

From S2P Require Import Prelude CLib FdfsShared SortedArray SharedFunc TrackerMem TrackerMemInv TrackerMemGrow TrackerMemOps.
From S2P Require Import TrackerMemActive TrackerQuery TrackerMemSpec TrackerAlive TrackerGroups TrackerKeeps TrackerGroupsInv.
From S2P Require Import TrackerJoin TrackerJoinInv TrackerTable TrackerStore TrackerReport TrackerReportInv TrackerStoreInv.
From S2P Require Import TrackerSyncReq TrackerSyncReqInv.
#[local] Open Scope Z_scope.

(** A client that joined is given by its group [p] and its server [q]. *)
Inductive sync_request :=
  | ReqNotify (p q : positive) (body : list Z)
  | ReqDest (p q : positive) (body : list Z)
  | ReqDestQuery (p q : positive) (body : list Z)
  | ReqTimes (p q : positive) (client_leader_chg : Z) (body : list Z)
  | ReqSource (body : list Z)
  | ReqStatus (body : list Z)
  | ReqDelete (body : list Z)
  | ReqSetTrunk (body : list Z)
  | ReqIpChanged (client_ip body : list Z)
  | ReqFetch (cmd : Z) (name_buff body : list Z).

Section serve.
Context (env : nat → answer) (cfg : groups_config) (leader : leader_info).
#[local] Notation tcfg := (t_config cfg).
#[local] Notation table := (gmap (list Z) (gmap (list Z) Z)).

Definition serve_sync (req : sync_request) : prog tracker_state (Z * sync_reply) :=
  match req with
  | ReqNotify p q body => r ← tracker_deal_storage_sync_notify env p q body; mret (r, None)
  | ReqDest p q body => tracker_deal_storage_sync_dest_req env cfg p q body
  | ReqDestQuery p q body => tracker_deal_storage_sync_dest_query p q body
  | ReqTimes p q chg body => r ← tracker_deal_storage_sync_report env cfg leader p q chg body; mret (r.1.1, None)
  | ReqSource body => tracker_deal_storage_sync_src_req env body
  | ReqStatus body => r ← tracker_deal_storage_report_status env cfg body; mret (r, None)
  | ReqDelete body => r ← tracker_deal_server_delete_storage env cfg body; mret (r, None)
  | ReqSetTrunk body => r ← tracker_deal_server_set_trunk_server env cfg body; mret (r.1, None)
  | ReqIpChanged ip body => r ← tracker_deal_storage_report_ip_changed env cfg ip body; mret (r, None)
  | ReqFetch cmd buff body => r ← tracker_deal_service_query_fetch_update cfg cmd buff body; mret (r.1, None)
  end.

(** ** The specification *)

Definition named (body : list Z) : list Z := c_string (take FDFS_GROUP_NAME_MAX_LEN body).

(** The client points to a server of a group of the tracker. *)
Definition a_client (T : tracker_state) (p q : positive) : Prop :=
  p ∈ all_groups T ∧ ∃ gm, gmem T !! p = Some gm ∧
    ∃ i, (i < count (m_group gm))%nat ∧ all_servers (m_group gm) !! i = Some (Some q).

(** [P] holds of the group a request names. *)
Definition at_named (T : tracker_state) (body : list Z) (P : group_state → Prop) : Prop :=
  ∀ p gm, gmem T !! p = Some gm → group_name (m_group gm) = named body → P (enter T gm).

(** The operation a request that names a group asks for. *)
Definition op_of (req : sync_request) : option group_op :=
  match req with
  | ReqStatus body => OpSync <$> parse_briefs 1 (drop FDFS_GROUP_NAME_MAX_LEN body)
  | ReqDelete body => Some (OpDelete (text_at body FDFS_GROUP_NAME_MAX_LEN FDFS_STORAGE_ID_MAX_SIZE))
  | ReqIpChanged _ body =>
      Some (OpIpChanged (text_at body FDFS_GROUP_NAME_MAX_LEN IP_ADDRESS_SIZE)
                        (text_at body (FDFS_GROUP_NAME_MAX_LEN + IP_ADDRESS_SIZE) IP_ADDRESS_SIZE))
  | ReqSetTrunk body => Some (OpSetTrunk (text_at body FDFS_GROUP_NAME_MAX_LEN FDFS_STORAGE_ID_MAX_SIZE))
  | ReqFetch cmd buff body =>
      let filename := drop FDFS_GROUP_NAME_MAX_LEN body in Some (OpQuery cmd buff filename (Z.of_nat (length filename)))
  | _ => None
  end.

Definition named_pre (T : tracker_state) (body : list Z) (req : sync_request) : Prop :=
  at_named T body (λ s, ∀ o, op_of req = Some o → op_pre env tcfg s o).

(** The client has joined; it is not active when it asks for a source. *)
Definition sync_pre (T : tracker_state) (req : sync_request) : Prop :=
  match req with
  | ReqNotify p q _ | ReqDestQuery p q _ => a_client T p q
  | ReqDest p q _ => a_client T p q ∧ ∀ gm, gmem T !! p = Some gm → ¬ is_active (m_details gm) q
  | ReqTimes p q _ _ => a_client T p q ∧ leader_ok cfg leader T
  | ReqSource _ => True
  | ReqStatus body | ReqDelete body | ReqSetTrunk body | ReqIpChanged _ body | ReqFetch _ _ body => named_pre T body req
  end.

(** The servers of the group of a client change by [R]. *)
Definition client_moves (T : tracker_state) (p q : positive) (M M' : table)
    (R : gmap (list Z) Z → list Z → Z → gmap (list Z) Z → Prop) : Prop :=
  ∃ n i ms st ms', client_names T p q = Some (n, i) ∧ M !! n = Some ms ∧ ms !! i = Some st ∧ R ms i st ms' ∧
    M' = <[n := ms']> M.

(** The named group, if there is one, makes the operation [o]. *)
Definition named_op (T : tracker_state) (body : list Z) (o : option group_op) (r : Z) (M M' : table) : Prop :=
  ∃ p gm o' m', gmem T !! p = Some gm ∧ group_name (m_group gm) = named body ∧ o = Some o' ∧
    op_spec env tcfg (enter T gm) o' r m' ∧ M' = <[named body := m']> M.

Definition sync_spec (T : tracker_state) (req : sync_request) (r : Z * sync_reply) (M' : table) : Prop :=
  let M := tracker_table T in
  match req with
  | ReqNotify p q body =>
      r.1 = EINVAL ∧ M' = M ∨
      (r.1 = 0 ∨ r.1 = ENOENT ∧ text_at body 0 FDFS_STORAGE_ID_MAX_SIZE ≠ []) ∧ client_moves T p q M M' (λ ms i st ms',
        ms' = <[i := notified (text_at body 0 FDFS_STORAGE_ID_MAX_SIZE) st]> ms)
  | ReqDest p q _ =>
      r = (EINVAL, None) ∧ M' = M ∨
      client_moves T p q M M' (λ ms i _ ms', source_answer (g_current_time tcfg) ms i r ms')
  | ReqDestQuery p q _ =>
      r = (EINVAL, None) ∧ M' = M ∨
      r.1 = 0 ∧ client_moves T p q M M' (λ ms i _ ms', ms' = ms ∧ ∀ src until, r.2 = Some (src, until) → is_Some (ms !! src))
  | ReqSource body =>
      M' = M ∧ (r = (EINVAL, None) ∨
        match M !! named body with
        | None => r = (ENOENT, None)
        | Some ms => source_told ms (text_at body FDFS_GROUP_NAME_MAX_LEN FDFS_STORAGE_ID_MAX_SIZE) r
        end)
  | ReqTimes _ _ _ _ | ReqSetTrunk _ | ReqFetch _ _ _ => M' = M
  | ReqStatus body | ReqDelete body | ReqIpChanged _ body =>
      r.1 ∈ [EINVAL; ENOENT; EOPNOTSUPP] ∧ M' = M ∨ named_op T body (op_of req) r.1 M M'
  end.

(** ** A client *)

Lemma a_client_ok w T p q : groups_ok w T → a_client T p q → client_ok w T p q.
Proof.
  intros Hok (Hp & gm & Hgm & Hq). rewrite (table_groups w T Hok) in Hp. split; [done|].
  destruct (gok_members _ _ Hok p Hp) as (gm' & Hgm' & _ & [v Hv] & _). assert (gm' = gm) as -> by congruence.
  exists gm, v. split; [done|]. split; [done|]. by apply (TrackerMemSpec.in_group v (enter T gm)).
Qed.

Lemma client_ok_a w T p q : groups_ok w T → client_ok w T p q → a_client T p q.
Proof.
  intros Hok (Hp & gm & v & Hgm & Hv & Hq). split; [by rewrite (table_groups w T Hok)|]. exists gm. split; [done|].
  apply list_elem_of_lookup in Hq as [i Hi]. exists i. rewrite (ok_all _ _ _ Hv), (ok_count _ _ _ Hv).
  split; [by eapply lookup_lt_Some|]. by rewrite list_lookup_fmap, (lookup_app_l_Some _ _ _ _ Hi).
Qed.

Definition client_kept (w : groups_view) (T : tracker_state) (p q : positive) (T' : tracker_state) : Prop :=
  groups_ok w T' ∧ client_ok w T' p q ∧ client_names T' p q = client_names T p q ∧
  g_tracker_servers T' = g_tracker_servers T.

Lemma client_moves_ok {A} (w : groups_view) (T : tracker_state) (p q : positive) (m : prog group_state A)
    (R : A → gmap (list Z) Z → list Z → Z → gmap (list Z) Z → Prop) :
  groups_ok w T → client_ok w T p q →
  (∀ gm v ms d, gmem T !! p = Some gm → standing v ms (enter T gm) → q ∈ v_all v → m_details gm !! q = Some d →
     returns m (enter T gm) (λ r s', ∃ ms', standing v ms' s' ∧ same_names q (enter T gm) s' ∧ R r ms (storage_id d) (status d) ms')) →
  returns (in_group p m) T (λ r T', client_kept w T p q T' ∧ client_moves T p q (tracker_table T) (tracker_table T') (R r)).
Proof.
  intros Hok Hc Hm. eapply returns_mono.
  - apply (in_group_client Hok Hc m (λ r s s', ∃ d, details s !! q = Some d ∧ id_of (details s') q = Some (storage_id d) ∧
      server_states s !! storage_id d = Some (status d) ∧ R r (server_states s) (storage_id d) (status d) (server_states s'))).
    intros gm v ms Hgm Hs Hq. destruct (calm_object v ms (enter T gm) q Hs Hq) as [d Hd].
    eapply returns_mono; [by apply (Hm gm v ms d)|]. intros r s' (ms' & Hs' & [Hn Hi] & HR). split; [exact Hn|].
    split; [by exists v, ms'|]. exists d. split; [exact Hd|]. split; [rewrite Hi; unfold id_of; by rewrite Hd|].
    rewrite (server_states_eq v s' ms') by apply Hs'. rewrite (server_states_eq v (enter T gm) ms) by apply Hs.
    split; [exact (states_lookup (st_states _ _ _ Hs) q d Hq Hd)|done].
  - intros r T' (Hok' & Hc' & gm & s' & Hgm & -> & Ht & Hn & d & Hd & Hi & Hst & HR). cbn in Hd.
    assert (Hnames : client_names T p q = Some (group_name (m_group gm), storage_id d)).
    { unfold client_names. rewrite Hgm. cbn. unfold id_of. by rewrite Hd. }
    split.
    { do 2 (split; [done|]). split; [|done]. rewrite Hnames. unfold client_names. cbn. rewrite lookup_insert_eq. cbn. by rewrite Hi, Hn. }
    exists (group_name (m_group gm)), (storage_id d), (server_states (enter T gm)), (status d), (server_states s').
    split; [done|].
    split; [by apply (table_lookup Hok p gm); [apply Hc|]|]. by split.
Qed.

(** ** A named group *)

Lemma named_length body : (length (named body) < FDFS_GROUP_NAME_SIZE)%nat.
Proof.
  unfold named. pose proof (c_string_length (take FDFS_GROUP_NAME_MAX_LEN body)) as H.
  rewrite length_take in H. unfold FDFS_GROUP_NAME_MAX_LEN, FDFS_GROUP_NAME_SIZE in *. lia.
Qed.

Lemma with_named_group_ok {A} (w : groups_view) (T : tracker_state) body (none : A) k (Q : A → tracker_state → Prop) :
  groups_ok w T →
  (tracker_table T !! named body = None → Q none T) →
  (∀ p gm, p ∈ w_all w → gmem T !! p = Some gm → group_name (m_group gm) = named body → returns (k p) T Q) →
  returns (with_named_group body none k) T Q.
Proof.
  intros Hok Hnone Hsome. unfold with_named_group. apply returns_bind.
  eapply returns_mono; [apply (get_group_ex_ok Hok), named_length|]. intros [p|] T0 [-> H].
  - destruct H as [Hp Hn]. unfold name_of in Hn. destruct (gmem T !! p) as [gm|] eqn:Hgm; [|done]. injection Hn as Hn.
    by apply (Hsome p gm).
  - apply returns_ret, Hnone. destruct (tracker_table T !! named body) as [ms|] eqn:E; [|done]. exfalso.
    apply (group_table_spec _ w) in E as (p & gm & Hp & Hgm & Hn & _); [|done]. apply (H p Hp). unfold name_of. rewrite Hgm.
    cbn. by rewrite Hn.
Qed.

(** An operation on one group. *)
Lemma run_in_group_ok w T p o :
  ids_ok (t_config cfg) → groups_ok w T → p ∈ w_all w →
  (∀ gm, gmem T !! p = Some gm → op_pre env (t_config cfg) (enter T gm) o) →
  returns (in_group p (run_op env (t_config cfg) o)) T (λ r T', groups_ok w T' ∧
    ∃ gm m', gmem T !! p = Some gm ∧ op_spec env (t_config cfg) (enter T gm) o r m' ∧
      tracker_table T' = <[group_name (m_group gm) := m']> (tracker_table T)).
Proof.
  intros Hids Hok Hp Hpre. eapply returns_mono.
  - apply (in_group_changes Hok p _ (λ r s, ∃ gm, gmem T !! p = Some gm ∧ group_name (grp s) = group_name (m_group gm) ∧
      op_spec env (t_config cfg) (enter T gm) o r (server_states s))); [done|].
    intros gm v Hgm Hv Hmem.
    eapply returns_mono; [apply (returns_keeps settled); [apply _|by apply (run_op_ok env (t_config cfg) v (enter T gm)); auto]|].
    intros r s [[Hf HP] Hst]. destruct (member_settled T gm s Hmem Hst Hf) as [Hn Hms].
    split; [done|]. split; [done|]. by exists gm.
  - intros r T' (Hok' & s & -> & gm & Hgm & Hn & HP). split; [done|]. exists gm, (server_states s). split; [done|].
    split; [done|]. by apply (table_leave Hok p gm).
Qed.

(** The operation of a request on the group it names. *)
Lemma named_run_ok w T p gm req body o :
  ids_ok tcfg → groups_ok w T → p ∈ w_all w → gmem T !! p = Some gm → group_name (m_group gm) = named body →
  op_of req = Some o → named_pre T body req →
  returns (in_group p (run_op env tcfg o)) T (λ r T', groups_ok w T' ∧
    named_op T body (op_of req) r (tracker_table T) (tracker_table T')).
Proof.
  intros Hids Hok Hp Hgm Hn Ho Hpre. eapply returns_mono.
  - apply (run_in_group_ok w T p o); [done|done|done|]. intros gm' Hgm'. assert (gm' = gm) as -> by congruence. by apply (Hpre p).
  - intros r T' (Hok' & gm' & m' & Hgm' & Hspec & Ht). split; [done|]. assert (gm' = gm) as -> by congruence.
    exists p, gm, o, m'. by rewrite <- Hn.
Qed.

(** An operation that leaves the objects of the servers alone. *)
Lemma in_group_same_states {A} w T p (m : prog group_state A) :
  Keeps settled m → groups_ok w T → p ∈ w_all w →
  (∀ gm v, gmem T !! p = Some gm → group_ok v (m_group gm) (m_details gm) →
     returns m (enter T gm) (λ _ s, group_ok v (grp s) (details s) ∧ details s = m_details gm)) →
  returns (in_group p m) T (λ _ T', groups_ok w T' ∧ tracker_table T' = tracker_table T).
Proof.
  intros Hk Hok Hp Hm. destruct (gok_members _ _ Hok p Hp) as (gm & Hgm & _ & [v Hv] & _).
  eapply returns_mono.
  - apply (in_group_changes Hok p m (λ _ s, group_name (grp s) = group_name (m_group gm) ∧ server_states s = server_states (enter T gm))); [done|].
    intros gm' v' Hgm' Hv' Hmem. assert (gm' = gm) as -> by congruence.
    eapply returns_mono; [apply (returns_keeps settled); [done|by apply (Hm gm v)]|].
    intros r s [[Hs Hd] Hst]. destruct (member_settled T gm s Hmem Hst) as [Hn Hms]; [by exists v|].
    split; [done|]. split; [done|]. split; [done|]. apply (server_states_eq v s); [done|]. rewrite Hd.
    by apply (server_states_ok v (enter T gm)).
  - intros r T' (Hok' & s & -> & Hn & Hst). split; [done|]. rewrite (table_leave Hok p gm s), Hst by done.
    by apply insert_id, (table_lookup Hok p gm).
Qed.

(** ** The requests of a client *)

Lemma notify_moves_ok w T p q src_id until :
  groups_ok w T → client_ok w T p q → (length src_id < FDFS_STORAGE_ID_MAX_SIZE)%nat →
  returns (in_group p (sync_notify env q src_id until)) T (λ r T', client_kept w T p q T' ∧
    client_moves T p q (tracker_table T) (tracker_table T') (λ ms i st ms',
      (r = 0 ∨ r = ENOENT ∧ src_id ≠ []) ∧ ms' = <[i := notified src_id st]> ms)).
Proof.
  intros Hok Hc Hlen. apply (client_moves_ok w T p q _ (λ r ms i st ms', (r = 0 ∨ r = ENOENT ∧ src_id ≠ []) ∧
    ms' = <[i := notified src_id st]> ms)); [done|done|].
  intros gm v ms d _ Hs Hq Hd. eapply returns_mono; [by apply (sync_notify_ok env v ms (enter T gm) q d)|].
  intros r s' (Hs' & Hn & Hr). eexists. split; [exact Hs'|]. done.
Qed.

Lemma serve_notify_ok w T p q body :
  groups_ok w T → client_ok w T p q →
  returns (serve_sync (ReqNotify p q body)) T (λ r T', client_kept w T p q T' ∧ sync_spec T (ReqNotify p q body) r (tracker_table T')).
Proof.
  intros Hok Hc. cbn [serve_sync sync_spec]. unfold tracker_deal_storage_sync_notify. apply returns_bind.
  destruct (Nat.eqb_spec (length body) TrackerStorageSyncReqBody_size) as [E|E]; cbn [negb];
    [|by apply returns_ret, returns_ret; split; [done|left]].
  destruct (buff2long_is_Some (drop FDFS_STORAGE_ID_MAX_SIZE body)) as [until Hu].
  { rewrite length_drop, E. unfold TrackerStorageSyncReqBody_size, FDFS_STORAGE_ID_MAX_SIZE. lia. }
  apply returns_bind, (returns_deref _ _ until); [done|]. eapply returns_mono; [by apply (notify_moves_ok w), id_at_length|].
  intros r T' [Hok' (n & i & ms & st & ms' & H1 & H2 & H3 & [Hr H4] & H5)]. apply returns_ret. split; [done|]. right. split; [done|].
  by exists n, i, ms, st, ms'.
Qed.

Lemma dest_moves_ok w T p q :
  groups_ok w T → client_ok w T p q → (∀ gm, gmem T !! p = Some gm → ¬ is_active (m_details gm) q) →
  returns (in_group p (sync_dest_req env cfg q)) T (λ r T', client_kept w T p q T' ∧
    client_moves T p q (tracker_table T) (tracker_table T') (λ ms i _ ms', source_answer (g_current_time tcfg) ms i r ms')).
Proof.
  intros Hok Hc Hact. apply (client_moves_ok w T p q _ (λ r ms i _ ms', source_answer (g_current_time tcfg) ms i r ms')); [done|done|].
  intros gm v ms d Hgm Hs Hq Hd. apply (sync_dest_req_ok env cfg v ms (enter T gm) q d); [done|done|done|].
  by rewrite <- (is_active_lookup _ _ _ Hd); apply Hact.
Qed.

Lemma serve_dest_ok w T p q body :
  groups_ok w T → client_ok w T p q → (∀ gm, gmem T !! p = Some gm → ¬ is_active (m_details gm) q) →
  returns (serve_sync (ReqDest p q body)) T (λ r T', client_kept w T p q T' ∧ sync_spec T (ReqDest p q body) r (tracker_table T')).
Proof.
  intros Hok Hc Hact. cbn [serve_sync sync_spec]. unfold tracker_deal_storage_sync_dest_req.
  destruct (decide _); [|by apply returns_ret; split; [|left]]. eapply returns_mono; [by apply (dest_moves_ok w)|].
  intros r T' [Hok' H]. split; [done|]. by right.
Qed.

Lemma sync_dest_query_ok v ms s q : standing v ms s → q ∈ v_all v →
  returns (sync_dest_query q) s (λ r s', s' = s ∧ ∀ src until, r = Some (src, until) → is_Some (ms !! src)).
Proof.
  intros Hs Hq. destruct (calm_object v ms s q Hs Hq) as [d Hd]. unfold sync_dest_query. step.
  destruct (psync_src_server d) as [p|] eqn:Ep; [|by apply returns_ret].
  assert (Hp : p ∈ v_all v) by (apply (ok_src _ _ _ (st_ok _ _ _ Hs) q d); [by apply in_all|done..]).
  destruct (calm_object v ms s p Hs Hp) as [e He]. step. apply returns_ret. split; [done|]. intros src until [= <- _].
  rewrite (states_lookup (st_states _ _ _ Hs) p e) by done. by eexists.
Qed.

Lemma serve_dest_query_ok w T p q body :
  groups_ok w T → client_ok w T p q →
  returns (serve_sync (ReqDestQuery p q body)) T (λ r T', groups_ok w T' ∧ sync_spec T (ReqDestQuery p q body) r (tracker_table T')).
Proof.
  intros Hok Hc. cbn [serve_sync sync_spec]. unfold tracker_deal_storage_sync_dest_query.
  destruct (decide _); [|by apply returns_ret; split; [|left]]. apply returns_bind. eapply returns_mono.
  - apply (client_moves_ok w T p q _ (λ r ms i _ ms', ms' = ms ∧ ∀ src until, r = Some (src, until) → is_Some (ms !! src))); [done|done|].
    intros gm v ms d Hgm Hs Hq Hd. eapply returns_mono; [by apply (sync_dest_query_ok v ms)|]. intros r s' [-> H]. exists ms. done.
  - intros r T' [[Hok' _] H]. apply returns_ret. split; [done|]. by right.
Qed.

Lemma serve_times_ok w T p q chg body :
  groups_ok w T → client_ok w T p q → leader_ok cfg leader T →
  returns (serve_sync (ReqTimes p q chg body)) T (λ r T', groups_ok w T' ∧ sync_spec T (ReqTimes p q chg body) r (tracker_table T')).
Proof.
  intros Hok Hc Hl. cbn [serve_sync sync_spec]. unfold tracker_deal_storage_sync_report. apply returns_bind.
  destruct (decide _); [by apply returns_ret, returns_ret|]. destruct (negb _); [by apply returns_ret, returns_ret|].
  apply returns_bind. eapply returns_mono; [by apply (in_group_calm w T p q), sync_report_calm|]. intros known T1 H1.
  apply returns_bind. apply (returns_mono _ _ (λ _ T2, client_same w p q T T2)).
  { destruct known; [|by apply returns_ret]. gstep. gstep. destruct (_ =? 0).
    - gstep. apply returns_ret. apply (client_same_trans _ _ _ _ _ _ H1). by apply groups_ok_ticks; [apply H1|apply H1|..].
    - apply returns_ret. apply (client_same_trans _ _ _ _ _ _ H1). by apply groups_ok_ticks; [apply H1|apply H1|..]. }
  intros status T2 H2. eapply returns_mono.
  { apply (check_and_sync_ok cfg leader w T2 p q); [apply H2|apply H2|]. eapply leader_same; [apply H2|done]. }
  intros r T3 [H3 _]. apply returns_ret. assert (H := client_same_trans _ _ _ _ _ _ H2 H3). split; [apply H|apply H].
Qed.

(** ** The requests that name a group *)

Lemma serve_source_ok w T body :
  groups_ok w T →
  returns (serve_sync (ReqSource body)) T (λ r T', groups_ok w T' ∧ sync_spec T (ReqSource body) r (tracker_table T')).
Proof.
  intros Hok. cbn [serve_sync sync_spec]. unfold tracker_deal_storage_sync_src_req.
  destruct (negb _); [by apply returns_ret; split; [|split; [|left]]|].
  apply (with_named_group_ok w T); [done|intros Hnone; split; [done|]; split; [done|]; right; by rewrite Hnone|].
  intros p gm Hp Hgm Hn. destruct (gok_members _ _ Hok p Hp) as (gm' & Hgm' & Hmem). assert (gm' = gm) as -> by congruence.
  eapply returns_mono.
  - apply (in_group_changes Hok p _ (λ r s', group_name (grp s') = group_name (m_group gm) ∧
      server_states s' = server_states (enter T gm) ∧
      source_told (server_states (enter T gm)) (text_at body FDFS_GROUP_NAME_MAX_LEN FDFS_STORAGE_ID_MAX_SIZE) r)); [done|].
    intros gm' v Hgm'' Hv _. assert (gm' = gm) as -> by congruence. destruct (member_standing T gm Hmem) as [v' Hs].
    eapply returns_mono; [apply (sync_src_req_ok env v' _ _ _ Hs), id_at_length|].
    intros r s' (Hs' & Hn' & Hr). cbn in Hn'.
    destruct (standing_member v' _ s' Hs') as [Hmem' Hst']; [rewrite Hn'; apply Hmem|]. done.
  - intros r T' (Hok' & s' & -> & Hn' & Hst & Hr). split; [done|]. split.
    + rewrite (table_leave Hok p gm), Hst by done. by apply insert_id, (table_lookup Hok p gm).
    + right. by rewrite <- Hn, (table_lookup Hok p gm).
Qed.

Lemma serve_named_ok w T req :
  ids_ok tcfg → groups_ok w T → sync_pre T req →
  match req with ReqStatus _ | ReqDelete _ | ReqIpChanged _ _ => True | _ => False end →
  returns (serve_sync req) T (λ r T', groups_ok w T' ∧ sync_spec T req r (tracker_table T')).
Proof.
  intros Hids Hok Hpre Hreq.
  assert (Hrefuse : ∀ r : Z, r ∈ [EINVAL; ENOENT; EOPNOTSUPP] →
    returns (mret (r, @None (list Z * Z)) : prog tracker_state _) T (λ r T', groups_ok w T' ∧ sync_spec T req r (tracker_table T'))).
  { intros r Hr. apply returns_ret. split; [done|]. destruct req; try done; by left. }
  destruct req as [| | | | |body|body| |ip body|]; try done; clear Hreq; cbn [serve_sync sync_pre] in *; apply returns_bind.
  - unfold tracker_deal_storage_report_status.
    destruct (Nat.eqb_spec (length body) (FDFS_GROUP_NAME_MAX_LEN + FDFSStorageBrief_size)%nat) as [E|]; cbn [negb];
      [|apply returns_ret, Hrefuse; set_solver].
    destruct (parse_briefs_ok 1 (drop FDFS_GROUP_NAME_MAX_LEN body)) as [l Hl]; [rewrite length_drop, E; lia|].
    apply (with_named_group_ok w T); [done|intros _; apply Hrefuse; set_solver|]. intros p gm Hp Hgm Hn.
    apply returns_bind, (returns_deref _ _ l); [done|].
    eapply returns_mono; [apply (named_run_ok w T p gm (ReqStatus body) body (OpSync l)); try done; cbn [op_of]; by rewrite Hl|].
    intros r T' [Hok' H]. apply returns_ret. split; [done|]. by right.
  - unfold tracker_deal_server_delete_storage. destruct (decide _); [apply returns_ret, Hrefuse; set_solver|].
    destruct (decide _); [apply returns_ret, Hrefuse; set_solver|].
    apply (with_named_group_ok w T); [done|intros _; apply Hrefuse; set_solver|]. intros p gm Hp Hgm Hn.
    eapply returns_mono; [by apply (named_run_ok w T p gm (ReqDelete body) body _ Hids Hok Hp Hgm Hn eq_refl)|].
    intros r T' [Hok' H]. apply returns_ret. split; [done|]. by right.
  - unfold tracker_deal_storage_report_ip_changed. destruct (g_use_storage_id _); [apply returns_ret, Hrefuse; set_solver|].
    destruct (negb _); [apply returns_ret, Hrefuse; set_solver|].
    apply (with_named_group_ok w T); [done|intros _; apply Hrefuse; set_solver|]. intros p gm Hp Hgm Hn.
    destruct (negb _); [apply returns_ret, Hrefuse; set_solver|].
    eapply returns_mono; [by apply (named_run_ok w T p gm (ReqIpChanged ip body) body _ Hids Hok Hp Hgm Hn eq_refl)|].
    intros r T' [Hok' H]. apply returns_ret. split; [done|]. by right.
Qed.

Lemma serve_set_trunk_ok w T body :
  groups_ok w T →
  returns (serve_sync (ReqSetTrunk body)) T (λ r T', groups_ok w T' ∧ sync_spec T (ReqSetTrunk body) r (tracker_table T')).
Proof.
  intros Hok. cbn [serve_sync sync_spec]. unfold tracker_deal_server_set_trunk_server. apply returns_bind.
  destruct (decide _); [by apply returns_ret, returns_ret|]. destruct (decide _); [by apply returns_ret, returns_ret|].
  apply (with_named_group_ok w T); [done|intros _; by apply returns_ret|]. intros p gm Hp Hgm Hn.
  eapply returns_mono.
  - apply (in_group_same_states w T p); [keeps ltac:(idtac)|done|done|]. intros gm' v Hgm' Hv. apply returns_bind.
    eapply returns_mono; [by apply (set_trunk_server_ok env tcfg v (enter T gm')), id_at_length|].
    intros [r o] s (Hv' & Hd & Hr). cbn [fst snd] in Hr. destruct (c_true r) eqn:Er; [by apply returns_ret|].
    destruct Hr as (q & -> & Hq & _); [unfold c_true in Er; by apply Z.eqb_eq, negb_false_iff|].
    destruct (objects_in_use v s q Hv' (active_all Hv' q Hq)) as [d Hdq]. step. by apply returns_ret.
  - intros r T' H. by apply returns_ret.
Qed.

Lemma answers_active v s info cmd servers : group_ok v (grp s) (details s) →
  answers tcfg v s info cmd servers → ∀ p, p ∈ servers → p ∈ v_active v.
Proof.
  intros Hok (store & Hs & H). assert (Hstore := ok_store _ _ _ Hok). rewrite Hs in Hstore.
  destruct (cmd =? _); [destruct H as (q & d & -> & Hq & _); by intros p ->%list_elem_of_singleton|].
  destruct (cmd =? _); [destruct H as (q & -> & Hq & _); by intros p ->%list_elem_of_singleton|].
  destruct H as (l & -> & H). intros p Hp. destruct l as [|a l]; [by apply list_elem_of_singleton in Hp as ->|].
  destruct (bNormalFile info).
  - rewrite H in Hp. by apply list_elem_of_filter in Hp as [_ Hp].
  - destruct H as (o & E & Ho). destruct o as [q|]; [|done]. injection E as -> ->. apply list_elem_of_singleton in Hp as ->. apply Ho.
Qed.

#[local] Instance keeps_ip_addrs_of l : Keeps settled (ip_addrs_of l).
Proof. induction l; cbn [ip_addrs_of]; keeps ltac:(idtac). Qed.

Lemma serve_fetch_ok w T cmd buff body :
  ids_ok tcfg → groups_ok w T → named_pre T body (ReqFetch cmd buff body) →
  returns (serve_sync (ReqFetch cmd buff body)) T (λ r T', groups_ok w T' ∧
    sync_spec T (ReqFetch cmd buff body) r (tracker_table T')).
Proof.
  intros Hids Hok Hpre. cbn [serve_sync sync_spec]. unfold tracker_deal_service_query_fetch_update. apply returns_bind.
  destruct (decide _); [by apply returns_ret, returns_ret|]. destruct (decide _); [by apply returns_ret, returns_ret|].
  apply (with_named_group_ok w T); [done|intros _; by apply returns_ret|]. intros p gm Hp Hgm Hn.
  destruct (Hpre p gm Hgm Hn _ eq_refl) as ([info Hi] & Hdown & Hmax).
  set (filename := drop FDFS_GROUP_NAME_MAX_LEN body) in *.
  eapply returns_mono.
  - apply (in_group_same_states w T p); [keeps ltac:(idtac)|done|done|]. intros gm' v Hgm' Hv. assert (gm' = gm) as -> by congruence.
    apply returns_bind.
    eapply returns_mono; [by apply (get_storage_by_filename_ok tcfg Hids v (enter T gm) cmd buff filename _ info)|].
    intros r s (Hd & Hv' & Hr). destruct (c_true r.1) eqn:Er; [by apply returns_ret|].
    destruct (decide _); [by rewrite Hr in Er|]. destruct Hr as [_ Hr]. apply returns_bind.
    eapply returns_mono.
    { apply ip_addrs_of_ok. intros q Hq. apply (objects_in_use v); [done|].
      apply (active_all Hv'). by apply (answers_active v (enter T gm) info cmd r.2). }
    intros ips s' [-> _]. step. by apply returns_ret.
  - intros r T' H. by apply returns_ret.
Qed.

(** ** All requests *)

Lemma serve_sync_ok w T req :
  ids_ok tcfg → groups_ok w T → sync_pre T req →
  returns (serve_sync req) T (λ r T', groups_ok w T' ∧ sync_spec T req r (tracker_table T')).
Proof.
  intros Hids Hok Hpre. destruct req; cbn [sync_pre] in Hpre.
  - eapply returns_mono; [by apply serve_notify_ok, a_client_ok|]. intros r T' [[Hok1 _] ?]. done.
  - destruct Hpre. eapply returns_mono; [by apply serve_dest_ok; [|apply a_client_ok|]|]. intros r T' [[Hok1 _] ?]. done.
  - by apply serve_dest_query_ok, a_client_ok.
  - destruct Hpre. by apply serve_times_ok; [|apply a_client_ok|].
  - by apply serve_source_ok.
  - by apply serve_named_ok.
  - by apply serve_named_ok.
  - by apply serve_set_trunk_ok.
  - by apply serve_named_ok.
  - by apply serve_fetch_ok.
Qed.

End serve.
