(* ===== verification/TrackerServe.v ===== *)
(** * What a tracker promises

    Seen from outside the tracker is a map from the names of groups to the
    maps from the ids of their servers to the states of these.  Every
    request, in every state that the requests reach from the start, is
    served without undefined behaviour and changes the map as [serve_spec]
    says; an upload is sent where [upload_answer] says, and under load
    balance the group of most free space is the next one. *)

From stdpp Require Import strings sorting.
From S2P Require Import Prelude CLib CFloat FdfsShared SortedArray SharedFunc TrackerMem TrackerMemInv TrackerMemOps TrackerMemSpec.
From S2P Require Import TrackerMemGrow TrackerMemActive TrackerMemSync TrackerAlive TrackerGroups TrackerKeeps TrackerGroupsInv TrackerJoin TrackerJoinInv TrackerTable.
From S2P Require Import TrackerStore TrackerReport TrackerReportInv TrackerStoreInv TrackerAll StorageReport TrackerSyncReq TrackerSyncReqInv TrackerSyncServe.
#[local] Open Scope Z_scope.

(** ** The requests *)

(** A client that joined is given by its group and its server. *)
Inductive request :=
  | ReqJoin (client_ip body : list Z)
  | ReqBeat (p q : positive) (client_leader_chg : Z) (body : list Z)
  | ReqDiskUsage (p q : positive) (client_leader_chg : Z) (body : list Z)
  | ReqTrunkFid (p q : positive) (body : list Z)
  | ReqTrunkFree (p q : positive) (body : list Z)
  | ReqReplicaChg (p : positive) (body : list Z)
  | ReqUpload (cmd : Z) (body : list Z)
  | ReqGroup (p : positive) (o : group_op)
  | ReqSync (r : sync_request)
  | CheckAlive
  | FindTrunkServers.

Section serve.
Context (env : nat → answer) (cfg : groups_config) (leader : leader_info).

Definition serve (req : request) : prog tracker_state Z :=
  match req with
  | ReqJoin ip body => r ← tracker_deal_storage_join env cfg ip body; mret r.1
  | ReqBeat p q chg body => r ← tracker_deal_storage_beat env cfg leader p q chg body; mret r.1.1
  | ReqDiskUsage p q chg body => r ← tracker_deal_storage_df_report env cfg leader p q chg body; mret r.1.1
  | ReqTrunkFid p q body => tracker_deal_report_trunk_fid env p q body
  | ReqTrunkFree p q body => tracker_deal_report_trunk_free_space cfg p q body
  | ReqReplicaChg p body => tracker_deal_storage_replica_chg env cfg p body
  | ReqUpload cmd body =>
      r ← tracker_deal_service_query_storage cfg cmd body;
      mret (match r with inl err => err | inr _ => 0 end)
  | ReqGroup p o => in_group p (run_op env (t_config cfg) o)
  | ReqSync s => r ← serve_sync env cfg leader s; mret r.1
  | CheckAlive => tracker_mem_check_alive env cfg
  | FindTrunkServers => tracker_mem_find_trunk_servers env cfg;; mret 0
  end.

(** What the callers see to: a client has joined, its address fits the
    buffer, the index of the leader is that of a tracker, a server that asks
    for a source is not active; and what the code does not survive: a
    [malloc] that fails during a join or a report of the states of other
    servers (such a report also when storage ids are in use), and, under
    load balance, a path in turn that the group has no longer. *)
Definition serve_pre (T : tracker_state) (req : request) : Prop :=
  match req with
  | ReqJoin ip _ => ¬ oom env ∧ (length ip < FDFS_STORAGE_ID_MAX_SIZE)%nat
  | ReqBeat p q _ _ => a_client T p q ∧ leader_ok cfg leader T
  | ReqDiskUsage p q _ _ => a_client T p q ∧ leader_ok cfg leader T ∧
      ∀ gm, gmem T !! p = Some gm → path_in_range cfg (enter T gm) q
  | ReqTrunkFid p q _ | ReqTrunkFree p q _ => a_client T p q
  | ReqReplicaChg p body => p ∈ all_groups T ∧ ¬ oom env ∧ g_use_storage_id (t_config cfg) = false ∧
      ∀ n l, parse_briefs n body = Some l → Forall (λ b, b_ip_addr b ≠ []) l
  | ReqGroup p o => p ∈ all_groups T ∧ ∀ gm, gmem T !! p = Some gm → op_pre env (t_config cfg) (enter T gm) o
  | ReqSync r => sync_pre env cfg leader T r
  | ReqUpload _ _ | CheckAlive | FindTrunkServers => True
  end.

Notation table := (gmap (list Z) (gmap (list Z) Z)).

(** The server of the client becomes active. *)
Definition activates (T : tracker_state) (p q : positive) (M M' : table) : Prop :=
  ∃ n i ms st, client_names T p q = Some (n, i) ∧ M !! n = Some ms ∧ ms !! i = Some st ∧
    M' = <[n := <[i := activated st]> ms]> M.

(** The result and the new map. *)
Definition serve_spec (T : tracker_state) (req : request) (r : Z) (M' : table) : Prop :=
  let M := tracker_table T in
  match req with
  | ReqJoin ip body =>
      match parse_join body with
      | Some (inr b) => join_table cfg b ip M r M'
      | Some (inl err) => r = err ∧ M' = M
      | None => False
      end
  | ReqBeat p q _ _ => if c_true r then M' = M else activates T p q M M'
  | ReqDiskUsage p q _ _ => if c_true r then r = EINVAL ∧ M' = M else activates T p q M M'
  | ReqReplicaChg p body =>
      r = EINVAL ∧ M' = M ∨
      r = 0 ∧ ∃ gm l n, gmem T !! p = Some gm ∧ parse_briefs n body = Some l ∧
        M' = <[group_name (m_group gm) := fold_left sync_state l (server_states (enter T gm))]> M
  | ReqGroup p o => ∃ gm m', gmem T !! p = Some gm ∧ op_spec env (t_config cfg) (enter T gm) o r m' ∧
        M' = <[group_name (m_group gm) := m']> M
  | ReqSync s => ∃ reply, sync_spec env cfg T s (r, reply) M'
  | CheckAlive => r = 0 ∧ M' = group_table (alive_states cfg) T
  | ReqTrunkFid _ _ _ | ReqTrunkFree _ _ _ | ReqUpload _ _ | FindTrunkServers => M' = M
  end.

(** ** The parts *)

(** *** Joining *)

Lemma long_at_is_Some body i : (i + 8 ≤ length body)%nat → is_Some (long_at body i).
Proof.
  intros Hl. unfold long_at, field. apply buff2long_is_Some. rewrite length_take, length_drop. lia.
Qed.

Lemma int_at_ok body i : (i + 8 ≤ length body)%nat → ∃ n, int_at body i = Some n ∧ - 2 ^ 31 ≤ n < 2 ^ 31.
Proof.
  intros Hl. unfold int_at. destruct (long_at_is_Some body i Hl) as [n ->]. eexists. split; [done|]. apply s32_range.
Qed.

Lemma parse_join_ok body : ∃ r, parse_join body = Some r ∧
  match r with inl err => True | inr b => body_ok b ∧ (length (j_group_name b) < FDFS_GROUP_NAME_SIZE)%nat end.
Proof.
  unfold parse_join. destruct (decide _) as [|Hl]; [by eexists|]. unfold TrackerStorageJoinBody_size in *.
  destruct (int_at_ok body 209) as (n & -> & _); [lia|]. cbn [mbind option_bind].
  destruct (_ || _); [by eexists|]. destruct (negb _); [by eexists|]. destruct (c_true _); [by eexists|].
  destruct (int_at_ok body 17) as (port & -> & _); [lia|]. destruct (int_at_ok body 25) as (http & -> & _); [lia|].
  destruct (int_at_ok body 33) as (paths & -> & _); [lia|]. destruct (int_at_ok body 41) as (subdirs & -> & _); [lia|].
  cbn [mbind option_bind]. destruct (_ || _) eqn:E; [by eexists|]. destruct (parse_trackers _ _) as [ts|]; [|by eexists].
  destruct (int_at_ok body 49) as (prio & -> & _); [lia|]. destruct (int_at_ok body 57) as (joined & -> & _); [lia|].
  destruct (int_at_ok body 65) as (up & -> & _); [lia|]. destruct (lookup_lt_is_Some_2 body 207) as [init ->]; [lia|].
  destruct (lookup_lt_is_Some_2 body 208) as [st ->]; [lia|]. cbn [mbind option_bind]. eexists. split; [done|].
  apply orb_false_iff in E as [E _]. apply orb_false_iff in E as [_ E]. apply orb_false_iff in E as [E1 E2].
  split; [unfold body_ok; cbn; lia|]. cbn.
  assert (H := c_string_length (field body 0 FDFS_GROUP_NAME_MAX_LEN)). unfold field in *.
  rewrite length_take in H. unfold FDFS_GROUP_NAME_MAX_LEN, FDFS_GROUP_NAME_SIZE in *. lia.
Qed.

(** A group that is left as it was entered. *)
Lemma leave_enter T p gm : gmem T !! p = Some gm → leave T p (enter T gm) = T.
Proof.
  destruct T, gm. cbn. intros Hp. unfold leave, enter, update. cbn. by rewrite insert_id.
Qed.

(** The reply to a join: the server to copy from. *)
Lemma join_reply_ok w T p q :
  groups_ok w T → client_ok w T p q →
  returns (in_group p (d ← get_server q;
                       match psync_src_server d with
                       | None => mret []
                       | Some q => e ← get_server q; mret (storage_id e)
                       end)) T (λ _ T', T' = T).
Proof.
  intros Hok (Hp & gm & v & Hgm & Hv & Hq). apply (returns_in_group T p gm); [done|].
  destruct (server_object Hv q Hq) as [d Hd]. apply returns_bind, (returns_get_server _ q d); [done|].
  assert (Hstay : ∀ r : list Z, returns (mret r) (enter T gm) (λ _ s, leave T p s = T)).
  { intros r. apply returns_ret. by apply leave_enter. }
  destruct (psync_src_server d) as [q'|] eqn:E; [|apply Hstay].
  destruct (server_object Hv q') as [e He]; [apply (ok_src _ _ _ Hv q d); [by apply in_all|done..]|].
  apply returns_bind, (returns_get_server _ q' e); [done|]. apply Hstay.
Qed.

Lemma serve_join_ok w T ip body :
  ids_ok (t_config cfg) → ¬ oom env → (length ip < FDFS_STORAGE_ID_MAX_SIZE)%nat → groups_ok w T →
  returns (serve (ReqJoin ip body)) T (λ r T', (∃ w', groups_ok w' T') ∧
    serve_spec T (ReqJoin ip body) r (tracker_table T')).
Proof.
  intros Hids Hoom Hip Hok. cbn [serve serve_spec]. unfold tracker_deal_storage_join. apply returns_bind, returns_bind.
  destruct (parse_join_ok body) as (parsed & E & Hp). apply (returns_deref _ _ parsed); [done|]. rewrite E.
  destruct parsed as [err|b]; [apply returns_ret, returns_ret; split; [by exists w|done]|]. destruct Hp as [Hb Hname].
  apply returns_bind.
  eapply returns_mono; [by apply (add_group_and_storage_ok env cfg b Hb Hoom Hids Hname w T ip)|].
  intros [[r pp] pq] T1 (w1 & Hok1 & Hj & Hc). cbn [fst snd] in Hj, Hc. destruct (c_true r) eqn:Er.
  { apply returns_ret, returns_ret. split; [by exists w1|done]. }
  assert (r = 0) as -> by (unfold c_true in Er; by apply Z.eqb_eq, negb_false_iff).
  destruct Hc as (p & q & -> & -> & Hc); [done|].
  apply returns_bind, (returns_deref _ _ p); [done|]. apply returns_bind, (returns_deref _ _ q); [done|].
  apply returns_bind. eapply returns_mono; [by apply (join_reply_ok w1)|]. intros src T2 ->.
  apply returns_ret, returns_ret. split; [by exists w1|done].
Qed.

(** *** Reports *)

Lemma active_activates w T p q T' : client_active w p q T T' → activates T p q (tracker_table T) (tracker_table T').
Proof. intros (_ & _ & _ & _ & n & i & ms & st & H). by exists n, i, ms, st. Qed.

Lemma serve_replica_chg_ok w T p body :
  ids_ok (t_config cfg) → groups_ok w T → serve_pre T (ReqReplicaChg p body) →
  returns (serve (ReqReplicaChg p body)) T (λ r T', groups_ok w T' ∧
    serve_spec T (ReqReplicaChg p body) r (tracker_table T')).
Proof.
  intros Hids Hok (Hp & Hoom & Hu & Hb). cbn [serve serve_spec]. unfold tracker_deal_storage_replica_chg. cbv zeta.
  destruct (decide _); [apply returns_ret; split; [done|by left]|].
  destruct (Nat.eqb_spec (length body) (length body / FDFSStorageBrief_size * FDFSStorageBrief_size)) as [El|El]; cbn [negb];
    [|apply returns_ret; split; [done|by left]].
  destruct (decide _); [apply returns_ret; split; [done|by left]|].
  destruct (parse_briefs_ok _ body El) as [l Hl]. rewrite Hl. apply returns_bind, (returns_deref _ _ l); [done|].
  rewrite (table_groups w T Hok) in Hp.
  eapply returns_mono; [apply (run_in_group_ok env cfg w T p (OpSync l)); [done|done|done|]|].
  - intros gm _. split; [done|]. split; [done|].
    eapply Forall_impl; [exact (Hb _ _ Hl)|]. intros b. cbn. by destruct (b_ip_addr b).
  - intros r T' (Hok' & gm & m' & Hgm & [-> ->] & Ht). split; [done|]. right. split; [done|]. by eexists gm, l, _.
Qed.

(** ** All requests *)

Lemma serve_ok w T req :
  ids_ok (t_config cfg) → groups_ok w T → serve_pre T req →
  returns (serve req) T (λ r T', (∃ w', groups_ok w' T') ∧ serve_spec T req r (tracker_table T')).
Proof.
  intros Hids Hok Hpre.
  destruct req as [ip body|p q chg body|p q chg body|p q body|p q body|p body|cmd body|p o|sr| |].
  - destruct Hpre. by apply (serve_join_ok w).
  - destruct Hpre as [Hc Hl]. apply (a_client_ok w) in Hc; [|done]. cbn [serve serve_spec]. apply returns_bind.
    eapply returns_mono; [by apply (beat_ok env cfg leader w T p q)|]. intros r T' H. cbn beta in H. apply returns_ret.
    destruct (c_true r.1.1); [split; [exists w; apply H|apply H]|]. split; [exists w; apply H|by apply (active_activates w)].
  - destruct Hpre as (Hc & Hl & Hr). apply (a_client_ok w) in Hc; [|done]. destruct (client_group w T p q Hc) as [gm Hgm].
    cbn [serve serve_spec]. apply returns_bind.
    eapply returns_mono; [by apply (df_report_ok env cfg leader w T p q gm); auto|]. intros r T' H. cbn beta in H. apply returns_ret.
    destruct (c_true r.1.1); [destruct H as [? ->]; by split; [exists w|]|].
    split; [exists w; apply H|by apply (active_activates w)].
  - apply (a_client_ok w) in Hpre; [|done]. eapply returns_mono; [by apply (report_trunk_fid_ok env w T p q)|].
    intros r T' H. cbn beta in H. split; [exists w; apply H|apply H].
  - apply (a_client_ok w) in Hpre; [|done]. eapply returns_mono; [by apply (report_trunk_free_space_ok cfg w T p q)|].
    intros r T' H. cbn beta in H. split; [exists w; apply H|apply H].
  - eapply returns_mono; [by apply (serve_replica_chg_ok w)|]. intros r T' [H ?]. split; [by exists w|done].
  - cbn [serve serve_spec]. apply returns_bind. eapply returns_mono; [by apply (query_storage_ok cfg w)|].
    intros r T' (H & ? & _). apply returns_ret. split; [by exists w|done].
  - destruct Hpre as [Hp Hpre]. rewrite (table_groups w T Hok) in Hp. cbn [serve serve_spec].
    eapply returns_mono; [by apply (run_in_group_ok env cfg w)|]. intros r T' [H ?]. split; [by exists w|done].
  - cbn [serve serve_spec]. apply returns_bind. eapply returns_mono; [by apply (serve_sync_ok env cfg leader w)|].
    intros [r reply] T' [H ?]. apply returns_ret. split; [by exists w|by exists reply].
  - eapply returns_mono; [by apply (check_alive_ok env cfg w)|]. intros r T' (-> & H & -> & _).
    split; [by exists w|done].
  - cbn [serve serve_spec]. apply returns_bind. eapply returns_mono; [by apply (find_trunk_servers_ok env cfg w)|].
    intros r T' (H & ? & _). apply returns_ret. split; [by exists w|done].
Qed.

End serve.

(** ** What holds in every state *)

(** The table of groups is sorted by their names, which are those of the
    map, and every group keeps the servers in the state ACTIVE apart, sorted
    by their ids. *)
Definition tracker_sound (T : tracker_state) : Prop :=
  (∃ l names, entries (sorted_groups (g_groups T)) (gs_count (g_groups T)) = Some l ∧
     mapM (name_of (gmem T)) l = Some names ∧ StronglySorted (λ a b, strcmp a b < 0) names ∧
     ∀ n, n ∈ names ↔ is_Some (tracker_table T !! n)) ∧
  ∀ p gm, p ∈ all_groups T → gmem T !! p = Some gm → serves_active (enter T gm).

Lemma groups_sound w T : groups_ok w T → tracker_sound T.
Proof.
  intros Hok. split.
  - assert (Hin : ∀ p, p ∈ w_sorted w → ∃ gm, gmem T !! p = Some gm).
    { intros p Hp. apply (sorted_all Hok) in Hp. destruct (gok_members _ _ Hok p Hp) as (gm & Hgm & _). by exists gm. }
    destruct (mapM_keys (name_of (gmem T)) (w_sorted w)) as (names & E & Hs & Hnames); [apply Hok| |].
    { apply Forall_forall. intros p Hp. destruct (Hin p Hp) as [gm Hgm]. unfold name_of. rewrite Hgm. by eexists. }
    exists (w_sorted w), names. split.
    { destruct (gok_sorted _ _ Hok) as [rest ->]. rewrite (gok_count _ _ Hok), <- (Permutation_length (gok_perm _ _ Hok)).
      apply entries_spec. }
    split; [done|]. split; [done|]. intros n. rewrite Hnames. split.
    + intros (p & Hp & Hn). destruct (Hin p Hp) as [gm Hgm]. rewrite (name_of_member p gm Hgm) in Hn. injection Hn as <-.
      rewrite (table_lookup Hok p gm); [by eexists|by apply (sorted_all Hok)|done].
    + intros [ms Hms]. apply (group_table_spec _ w) in Hms as (p & gm & Hp & Hgm & <- & _); [|done].
      exists p. split; [by apply (sorted_all Hok)|by apply name_of_member].
  - intros p gm Hp Hgm. rewrite (table_groups w T Hok) in Hp.
    destruct (gok_members _ _ Hok p Hp) as (gm' & Hgm' & _ & [v Hv] & _). assert (gm' = gm) as -> by congruence.
    by apply (group_serves_active v (enter T gm)).
Qed.

(** The states a tracker reaches from its start. *)
Inductive tracker_reachable (env : nat → answer) : tracker_state → Prop :=
  | reachable_start T T' : tracker_mem_init_groups env T = Some (0, T') → tracker_reachable env T'
  | reachable_serve T cfg leader req r T' :
      tracker_reachable env T → ids_ok (t_config cfg) → serve_pre env cfg leader T req →
      serve env cfg leader req T = Some (r, T') → tracker_reachable env T'.

Lemma tracker_reachable_ok env T : tracker_reachable env T → ∃ w, groups_ok w T.
Proof.
  induction 1 as [T T' E|T cfg leader req r T' _ [w Hok] Hids Hpre E].
  - assert (H := init_groups_ok env T). unfold returns in H. rewrite E in H. destruct H as [_ H].
    destruct (H eq_refl) as [spare Hok]. by eexists.
  - assert (H := serve_ok env cfg leader w T req Hids Hok Hpre). unfold returns in H. rewrite E in H. apply H.
Qed.

(** C6: a tracker implements the specification [serve_spec].  In every state
    that its requests reach from the start, a request (a join, a heart
    beat, a report, a query for an upload, a request for the copying of
    files, an operation on a group, the periodic checks) that fulfils
    [serve_pre] is served without undefined behaviour, gives the result and
    changes the map from groups to servers to states as the specification
    says, and leaves the groups sorted by name and in every group the active
    servers sorted by id and exactly those in the state ACTIVE. *)
Theorem tracker_refines env cfg leader T req :
  tracker_reachable env T → ids_ok (t_config cfg) → serve_pre env cfg leader T req →
  ∃ r T', serve env cfg leader req T = Some (r, T') ∧ serve_spec env cfg T req r (tracker_table T') ∧ tracker_sound T'.
Proof.
  intros [w Hok]%tracker_reachable_ok Hids Hpre.
  destruct (proj1 (returns_run _ _ _) (serve_ok env cfg leader w T req Hids Hok Hpre)) as (r & T' & E & [w' Hok'] & Hs).
  exists r, T'. split; [done|]. split; [done|]. by apply (groups_sound w').
Qed.


(** C31: with the lookup policy "load balance" the group that uploads go to
    next is the active group with the most free space, the first of these
    by name, or, when even that one has no space above the reserve and trunk
    files are in use, the active group with the most space in trunk files;
    nothing changes when no group is active. *)
Theorem load_balance_group env cfg T :
  tracker_reachable env T → store_lookup cfg = FDFS_STORE_LOOKUP_LOAD_BALANCE →
  ∃ T', tracker_find_max_free_space_group cfg T = Some (tt, T') ∧
    (T' = T ∧ (∀ j g, (j < gs_count (g_groups T))%nat → slot T j = Some g → active_count g = 0%nat) ∨
     ∃ i, T' = set_write_group T i ∧ balanced cfg T i).
Proof.
  intros [w Hok]%tracker_reachable_ok Hlb.
  destruct (proj1 (returns_run _ _ _) (find_max_free_space_group_ok cfg w T Hok)) as ([] & T' & E & H).
  rewrite Hlb, Z.eqb_refl in H. by exists T'.
Qed.

(** *** A new server *)

(** The state of the server of a client. *)
Definition client_state (T : tracker_state) (p q : positive) : option Z :=
  n ← client_names T p q; ms ← tracker_table T !! n.1; ms !! n.2.

Lemma moved_state w T p q T' R :
  client_kept w T p q T' → client_moves T p q (tracker_table T) (tracker_table T') R →
  ∃ n i ms st ms', client_names T p q = Some (n, i) ∧ tracker_table T !! n = Some ms ∧ R ms i st ms' ∧ ms !! i = Some st ∧
    client_state T p q = Some st ∧ client_state T' p q = ms' !! i.
Proof.
  intros (_ & _ & Hn & _) (n & i & ms & st & ms' & H1 & H2 & H3 & HR & H4). exists n, i, ms, st, ms'.
  do 4 (split; [done|]). unfold client_state. rewrite Hn, H1, H4. cbn. by rewrite H2, lookup_insert_eq.
Qed.

Lemma active_state w T p q T' (st : Z) : client_active w p q T T' → client_state T p q = Some st → client_state T' p q = Some (activated st).
Proof.
  intros (_ & _ & Hn & _ & n & i & ms & s & H1 & H2 & H3 & H4). unfold client_state. rewrite Hn, H1, H4. cbn.
  rewrite H2, lookup_insert_eq. cbn. rewrite H3, lookup_insert_eq. by intros [= ->].
Qed.

(** C8: how a new server comes online.  A server of a group that is not active
    and asks for a source is told that it needs none (no other server has
    files) and is ONLINE; or gets an active server of its group, not itself,
    and waits for it; or is told to ask again, when no server is active now.
    Once it reports that the copy is done it is ONLINE, and its next heart
    beat that succeeds makes it ACTIVE. *)
Theorem new_server_online env cfg leader T p q report beat chg :
  tracker_reachable env T → a_client T p q → leader_ok cfg leader T →
  (∀ gm, gmem T !! p = Some gm → ¬ is_active (m_details gm) q) →
  length report = TrackerStorageSyncReqBody_size → text_at report 0 FDFS_STORAGE_ID_MAX_SIZE = [] →
  ∃ n i ms r T1, client_names T p q = Some (n, i) ∧ tracker_table T !! n = Some ms ∧
    serve_sync env cfg leader (ReqDest p q []) T = Some (r, T1) ∧
    match r with
    | (0, None) => ¬ other_source ms i ∧ client_state T1 p q = Some FDFS_STORAGE_STATUS_ONLINE
    | (0, Some (src, _)) => other_active ms i src ∧ client_state T1 p q = Some FDFS_STORAGE_STATUS_WAIT_SYNC
    | _ => r.1 = ENOENT ∧ other_source ms i ∧ (∀ src, ¬ other_active ms i src) ∧ client_state T1 p q = client_state T p q
    end ∧
    (r.1 = 0 → ∃ T2 r3 T3, serve_sync env cfg leader (ReqNotify p q report) T1 = Some ((0, None), T2) ∧
       client_state T2 p q = Some FDFS_STORAGE_STATUS_ONLINE ∧
       tracker_deal_storage_beat env cfg leader p q chg beat T2 = Some (r3, T3) ∧
       (r3.1.1 = 0 → client_state T3 p q = Some FDFS_STORAGE_STATUS_ACTIVE)).
Proof.
  intros [w Hok]%tracker_reachable_ok Hc%(a_client_ok w) Hl Hact Hlen Hrep; [|exact Hok].
  destruct (proj1 (returns_run _ _ _) (dest_moves_ok env cfg w T p q Hok Hc Hact)) as (r & T1 & E1 & Hk1 & H1).
  apply (moved_state w T p q T1) in H1 as (n & i & ms & st & ms' & Hn & Hm & Ha & Hi & Hst & Hst1); [|exact Hk1].
  exists n, i, ms, r, T1. do 3 (split; [assumption|]). split.
  { rewrite Hst1, Hst, <- Hi. destruct Ha as [Ha|src Ha|Ha Ha']; cbn; by rewrite ?lookup_insert_eq. }
  intros Hr.
  destruct (buff2long_is_Some (drop FDFS_STORAGE_ID_MAX_SIZE report)) as [until Hu].
  { rewrite length_drop, Hlen. unfold TrackerStorageSyncReqBody_size, FDFS_STORAGE_ID_MAX_SIZE. lia. }
  destruct Hk1 as (Hok1 & Hc1 & _ & Hg1).
  destruct (proj1 (returns_run _ _ _) (notify_moves_ok env w T1 p q [] (s32 until) Hok1 Hc1 ltac:(unfold FDFS_STORAGE_ID_MAX_SIZE; cbn; lia)))
    as (r2 & T2 & E2 & Hk2 & H2).
  apply (moved_state w T1 p q T2) in H2 as (n2 & i2 & ms2 & st2 & ms2' & _ & _ & [Hr2 ->] & _ & Hst1' & Hst2); [|exact Hk2].
  assert (r2 = 0) as -> by (by destruct Hr2 as [|[_ ?]]).
  assert (Hon : client_state T2 p q = Some FDFS_STORAGE_STATUS_ONLINE).
  { rewrite Hst2, lookup_insert_eq. rewrite Hst1 in Hst1'. destruct Ha as [Ha|src Ha|Ha Ha']; [..|done];
      rewrite lookup_insert_eq in Hst1'; by injection Hst1' as <-. }
  destruct Hk2 as (Hok2 & Hc2 & _ & Hg2).
  assert (Hl2 : leader_ok cfg leader T2).
  { apply (leader_same cfg leader T); [congruence|done]. }
  destruct (proj1 (returns_run _ _ _) (beat_ok env cfg leader w T2 p q chg beat Hok2 Hc2 Hl2)) as (r3 & T3 & E3 & H3).
  exists T2, r3, T3. split.
  { cbn [serve_sync]. unfold tracker_deal_storage_sync_notify. rewrite Hlen, Nat.eqb_refl, Hu, Hrep. cbn [negb].
    unfold mbind, prog_bind, deref. by rewrite E2. }
  split; [exact Hon|]. split; [exact E3|]. intros Hr3. rewrite Hr3 in H3. exact (active_state w T2 p q T3 _ H3 Hon).
Qed.

(** ** A sample tracker *)

Definition sample_groups_config (lookup : Z) : groups_config :=
  {| t_config := sample_cfg; store_lookup := lookup; store_path := 0; store_group := [];
     reserved_space := ReservedMb 100 |}.
Definition sample_leader : leader_info := {| leader_index := -1; g_tracker_leader_chg_count := 0 |}.

Definition sample_tracker_start : tracker_state := {|
  g_groups := {| gs_alloc_size := 0; gs_count := 0; groups := []; sorted_groups := []; pStoreGroup := None;
                 current_write_group := 0 |};
  gmem := ∅; g_tracker_servers := None; g_last_tracker_servers := None; g_storage_stat_chg_count := 0;
  g_storage_sync_time_chg_count := 0;
  tglob := {| g_trunk_server_chg_count := 0; changelog := []; g_changelog_fsize := 0; ticks := 0 |} |}.

Definition tracker_after (T : tracker_state) (m : prog tracker_state Z) : tracker_state :=
  match m T with Some (_, T') => T' | None => T end.

Definition sample_serve (lookup : Z) : request → prog tracker_state Z :=
  serve sample_env (sample_groups_config lookup) sample_leader.

Definition sample_join : list Z := Eval vm_compute in default [] (report_join sample_info true FDFS_STORAGE_STATUS_ACTIVE).

Definition tracker_0 : tracker_state := Eval vm_compute in
  tracker_after sample_tracker_start (tracker_mem_init_groups sample_env).
Definition tracker_1 : tracker_state := Eval vm_compute in
  tracker_after tracker_0 (sample_serve FDFS_STORE_LOOKUP_LOAD_BALANCE (ReqJoin ip_a sample_join)).
(** The server reports the space of its two paths, and becomes active. *)
Definition sample_usage : request := ReqDiskUsage 1 1 0 (report_df_stat [(1000, 500); (1000, 700)]).
Definition tracker_2 : tracker_state := Eval vm_compute in
  tracker_after tracker_1 (sample_serve FDFS_STORE_LOOKUP_LOAD_BALANCE sample_usage).

Lemma sample_groups_ids lookup : ids_ok (t_config (sample_groups_config lookup)).
Proof. apply sample_ids_ok. Qed.

Lemma tracker_1_reachable : tracker_reachable sample_env tracker_1.
Proof.
  eapply (reachable_serve _ tracker_0 (sample_groups_config FDFS_STORE_LOOKUP_LOAD_BALANCE) sample_leader (ReqJoin ip_a sample_join) 0).
  - apply (reachable_start _ sample_tracker_start). vm_compute. reflexivity.
  - apply sample_groups_ids.
  - split; [apply sample_not_oom|apply (bool_decide_unpack (length _ < _)%nat); reflexivity].
  - vm_compute. reflexivity.
Qed.

Lemma sample_usage_pre lookup : serve_pre sample_env (sample_groups_config lookup) sample_leader tracker_1 sample_usage.
Proof.
  split; [|split].
  - split; [vm_compute; by left|]. eexists. split; [vm_compute; reflexivity|]. exists 0%nat. cbn. split; [lia|done].
  - by intros ?.
  - intros gm _ H. done.
Qed.

Lemma tracker_2_reachable : tracker_reachable sample_env tracker_2.
Proof.
  eapply (reachable_serve _ tracker_1 (sample_groups_config FDFS_STORE_LOOKUP_LOAD_BALANCE) sample_leader sample_usage 0);
    [apply tracker_1_reachable|apply sample_groups_ids|apply sample_usage_pre|vm_compute; reflexivity].
Qed.

Lemma tracker_refines_witness :
  ∃ r T', serve sample_env (sample_groups_config FDFS_STORE_LOOKUP_ROUND_ROBIN) sample_leader sample_usage tracker_1 = Some (r, T') ∧
    serve_spec sample_env (sample_groups_config FDFS_STORE_LOOKUP_ROUND_ROBIN) tracker_1 sample_usage r (tracker_table T') ∧
    tracker_sound T'.
Proof. apply tracker_refines; [apply tracker_1_reachable|apply sample_groups_ids|apply sample_usage_pre]. Defined.


Lemma load_balance_group_witness :
  let cfg := sample_groups_config FDFS_STORE_LOOKUP_LOAD_BALANCE in
  ∃ T', tracker_find_max_free_space_group cfg tracker_2 = Some (tt, T') ∧
    (T' = tracker_2 ∧ (∀ j g, (j < gs_count (g_groups tracker_2))%nat → slot tracker_2 j = Some g → active_count g = 0%nat) ∨
     ∃ i, T' = set_write_group tracker_2 i ∧ balanced cfg tracker_2 i).
Proof. apply (load_balance_group sample_env); [apply tracker_2_reachable|done]. Defined.

(** The first server of the sample asks for a source before it is active. *)
Lemma new_server_online_witness :
  let cfg := sample_groups_config FDFS_STORE_LOOKUP_LOAD_BALANCE in
  ∃ n i ms r T1, client_names tracker_1 1 1 = Some (n, i) ∧ tracker_table tracker_1 !! n = Some ms ∧
    serve_sync sample_env cfg sample_leader (ReqDest 1 1 []) tracker_1 = Some (r, T1) ∧
    match r with
    | (0, None) => ¬ other_source ms i ∧ client_state T1 1 1 = Some FDFS_STORAGE_STATUS_ONLINE
    | (0, Some (src, _)) => other_active ms i src ∧ client_state T1 1 1 = Some FDFS_STORAGE_STATUS_WAIT_SYNC
    | _ => r.1 = ENOENT ∧ other_source ms i ∧ (∀ src, ¬ other_active ms i src) ∧ client_state T1 1 1 = client_state tracker_1 1 1
    end ∧
    (r.1 = 0 → ∃ T2 r3 T3, serve_sync sample_env cfg sample_leader (ReqNotify 1 1 (repeat 0 24)) T1 = Some ((0, None), T2) ∧
       client_state T2 1 1 = Some FDFS_STORAGE_STATUS_ONLINE ∧
       tracker_deal_storage_beat sample_env cfg sample_leader 1 1 0 [] T2 = Some (r3, T3) ∧
       (r3.1.1 = 0 → client_state T3 1 1 = Some FDFS_STORAGE_STATUS_ACTIVE)).
Proof.
  intros cfg. apply (new_server_online sample_env cfg sample_leader tracker_1 1 1 (repeat 0 24) [] 0);
    [apply tracker_1_reachable|apply (sample_usage_pre FDFS_STORE_LOOKUP_LOAD_BALANCE)|apply (sample_usage_pre FDFS_STORE_LOOKUP_LOAD_BALANCE)| |done|done].
  intros gm Hgm (d & Hd & Hst). vm_compute in Hgm. injection Hgm as <-. vm_compute in Hd. injection Hd as <-.
  vm_compute in Hst. done.
Defined.
