(* ===== verification/TrackerUsage.v ===== *)
(** * What a report of disk usage leaves behind

    The sizes the tracker keeps of a server after a report are the ones the
    server sent ([report_df_stat]), and their sums. *)

From S2P Require Import Prelude CLib FdfsShared SortedArray SharedFunc TrackerMem TrackerMemInv TrackerMemGrow.
From S2P Require Import TrackerMemOps TrackerMemActive TrackerMemSpec TrackerAlive TrackerGroups TrackerKeeps TrackerGroupsInv.
From S2P Require Import TrackerJoin TrackerJoinInv TrackerTable TrackerStore TrackerReport TrackerReportInv StorageReport TrackerSyncServe TrackerServe.
#[local] Open Scope Z_scope.

Section usage.
Context (cfg : groups_config) (q : positive) (l : list (Z * Z)).
Context (Hl : Forall (λ space, is_int64 space.1 ∧ is_int64 space.2) l).

(** The server with the reported sizes from path [i] on. *)
Definition sizes_from (i : nat) (d d' : FDFSStorageDetail) : Prop :=
  ∃ totals frees, path_total_mbs d = Some totals ∧ path_free_mbs d = Some frees ∧
    path_total_mbs d' = Some (take i totals ++ drop i l.*1) ∧ path_free_mbs d' = Some (take i frees ++ drop i l.*2) ∧
    s_total_mb d' = fold_left (λ mb space, s64 (mb + space.1)) (drop i l) (s_total_mb d) ∧
    s_free_mb d' = fold_left (λ mb space, s64 (mb + space.2)) (drop i l) (s_free_mb d).

Definition turn_ok (d : FDFSStorageDetail) : Prop :=
  store_path cfg = FDFS_STORE_PATH_LOAD_BALANCE → 0 ≤ current_write_path d < Z.of_nat (length l).

Definition has_sizes (d : FDFSStorageDetail) : Prop :=
  ∃ totals frees, path_total_mbs d = Some totals ∧ path_free_mbs d = Some frees ∧
    length totals = length l ∧ length frees = length l.

Lemma set_one i (x : Z) a b :
  (i < length a)%nat → b !! i = Some x → take (S i) (<[i:=x]> a) ++ drop (S i) b = take i a ++ drop i b.
Proof.
  intros Hi Hx. rewrite (take_S_r _ i x) by (by rewrite list_lookup_insert_eq). rewrite take_insert_ge by lia.
  rewrite (drop_S b x i Hx), <- app_assoc. done.
Qed.

(** One path. *)
Lemma sizes_step i t f d d1 d2 d' totals frees :
  l !! i = Some (t, f) → path_total_mbs d = Some totals → path_free_mbs d = Some frees →
  length totals = length l → length frees = length l →
  path_total_mbs d1 = Some (<[i:=t]> totals) → path_free_mbs d1 = Some (<[i:=f]> frees) →
  s_total_mb d1 = s64 (s_total_mb d + t) → s_free_mb d1 = s64 (s_free_mb d + f) →
  (∃ c, d2 = d1 <| current_write_path := c |>) → sizes_from (S i) d2 d' → sizes_from i d d'.
Proof.
  intros Hi Ht Hf Lt Lf Ht1 Hf1 Hst1 Hsf1 [c ->] (totals2 & frees2 & Ht2 & Hf2 & H1 & H2 & H3 & H4).
  change (path_total_mbs d1 = Some totals2) in Ht2. change (path_free_mbs d1 = Some frees2) in Hf2.
  change (s_total_mb (d1 <| current_write_path := c |>)) with (s_total_mb d1) in H3.
  change (s_free_mb (d1 <| current_write_path := c |>)) with (s_free_mb d1) in H4.
  assert (Hil := lookup_lt_Some _ _ _ Hi). simplify_eq.
  rewrite set_one in H1, H2 by (lia || by rewrite list_lookup_fmap, Hi).
  exists totals, frees. split; [done|]. split; [done|]. split; [done|]. split; [done|].
  rewrite (drop_S l (t, f) i Hi). cbn [fold_left fst snd]. by rewrite <- Hst1, <- Hsf1.
Qed.

Lemma report_paths_read n i s d :
  (i + n)%nat = length l → details s !! q = Some d → has_sizes d → turn_ok d →
  returns (report_paths cfg q (report_df_stat l) n i) s (λ _ s',
    grp s' = grp s ∧ ∃ d', details s' !! q = Some d' ∧ sizes_from i d d').
Proof.
  revert i s d. induction n as [|n IH]; intros i s d Hi Hd (totals & frees & Ht & Hf & Lt & Lf) Hturn; cbn [report_paths].
  { apply returns_ret. split; [done|]. exists d. split; [done|]. exists totals, frees.
    rewrite !drop_ge, !take_ge, !app_nil_r by (rewrite ?length_fmap; lia). done. }
  destruct (lookup_lt_is_Some_2 l i) as [[t f] Hlk]; [lia|].
  destruct (proj1 (Forall_lookup _ _) Hl i (t, f) Hlk) as [Hti Hfi].
  destruct (df_stat_read l i t f Hlk Hti Hfi) as [-> ->].
  apply returns_bind, (returns_deref _ _ t); [done|]. apply returns_bind, (returns_deref _ _ f); [done|]. step.
  rewrite Ht, Hf, !set_mb_ok by lia. apply returns_bind, (returns_deref _ _ (<[i:=t]> totals)); [done|].
  apply returns_bind, (returns_deref _ _ (<[i:=f]> frees)); [done|].
  apply returns_bind, (returns_upd_server _ q d); [done|].
  match goal with |- context [<[q := ?x]>] => set (d1 := x) end.
  set (s1 := s <| details ::= <[q := d1]> |>).
  assert (Hd1 : details s1 !! q = Some d1) by (cbn; by rewrite lookup_insert_eq).
  apply returns_bind. eapply (returns_mono _ _ (λ _ s', grp s' = grp s ∧ ∃ c, details s' !! q = Some (d1 <| current_write_path := c |>) ∧
    (store_path cfg = FDFS_STORE_PATH_LOAD_BALANCE → 0 ≤ c < Z.of_nat (length l)))).
  - destruct (Z.eqb_spec (store_path cfg) FDFS_STORE_PATH_LOAD_BALANCE) as [Hlb|Hlb];
      [|apply returns_ret; split; [done|]; exists (current_write_path d); split; [rewrite Hd1; by destruct d|done]].
    destruct (Hturn Hlb) as [Hc0 Hc1]. rewrite (proj2 (Z.ltb_ge _ _)) by done.
    destruct (lookup_lt_is_Some_2 (<[i := f]> frees) (Z.to_nat (current_write_path d))) as [best Hbest];
      [rewrite length_insert; lia|].
    apply returns_bind, (returns_deref _ _ best); [done|]. destruct (best <? f).
    + apply (returns_upd_server _ q d1); [done|]. split; [done|]. exists (Z.of_nat i). cbn. rewrite lookup_insert_eq. split; [done|lia].
    + apply returns_ret. split; [done|]. exists (current_write_path d). split; [rewrite Hd1; by destruct d|done].
  - intros u s2 (Hg2 & c & Hd2 & Hc).
    eapply returns_mono; [apply (IH (S i) s2 (d1 <| current_write_path := c |>)); [lia|exact Hd2| |exact Hc]|].
    + exists (<[i:=t]> totals), (<[i:=f]> frees). by rewrite !length_insert.
    + intros u' s3 (Hg3 & d' & Hd' & Hs). split; [congruence|]. exists d'. split; [done|].
      eapply (sizes_step i t f d d1 _ d' totals frees); try done. by exists c.
Qed.

(** The sizes of the server as reported. *)
Definition usage_of (d : FDFSStorageDetail) : Prop :=
  path_total_mbs d = Some l.*1 ∧ path_free_mbs d = Some l.*2 ∧
  s_total_mb d = fold_left (λ mb space, s64 (mb + space.1)) l 0 ∧
  s_free_mb d = fold_left (λ mb space, s64 (mb + space.2)) l 0.

Lemma returns_conj {S A} (m : prog S A) s P Q : returns m s P → returns m s Q → returns m s (λ r s', P r s' ∧ Q r s').
Proof.
  intros (r & s' & E & HP)%returns_run (r2 & s2 & E2 & HQ)%returns_run. apply returns_run. exists r, s'.
  assert (r2 = r ∧ s2 = s') as [-> ->] by (rewrite E in E2; by injection E2). done.
Qed.

Lemma report_sizes_read v ms s :
  standing v ms s → q ∈ v_all v → path_in_range cfg s q → Z.of_nat (length l) = store_path_count (grp s) → l ≠ [] →
  returns (report_sizes cfg q (report_df_stat l)) s (λ _ s', ∃ d, details s' !! q = Some d ∧ usage_of d).
Proof.
  intros Hs Hq Hr Hn Hne. destruct (ready_object v s q (st_ok _ _ _ Hs)) as (d & Hd & Hcw & Hsz); [apply Hs|by apply in_all|].
  destruct Hsz as (t & f & Ht & Hf & Lt & Lf); [destruct l; [done|cbn in Hn; lia]|].
  unfold report_sizes. step. step. apply returns_bind, (returns_upd_server _ q d); [done|].
  match goal with |- context [<[q := ?x]>] => set (d0 := x) end. set (s1 := s <| details ::= <[q := d0]> |>).
  assert (Hs1 : standing v ms s1) by by apply (standing_quiet v ms s q d (λ d, d <| s_total_mb := 0 |> <| s_free_mb := 0 |>)).
  assert (Hd0 : details s1 !! q = Some d0) by (cbn; by rewrite lookup_insert_eq).
  replace (Z.to_nat (store_path_count (grp s))) with (length l) by lia.
  apply returns_bind. eapply returns_mono; [apply returns_conj;
    [apply (report_paths_ok cfg v ms q (report_df_stat l) (length l) 0 s1)|apply (report_paths_read (length l) 0 s1 d0)]|].
  all: try done.
  - intros Hlb e. rewrite Hd0. intros [= <-]. exact (Hr Hlb d Hd).
  - rewrite df_stat_length. lia.
  - exists t, f. split; [done|]. split; [done|]. lia.
  - intros Hlb. specialize (Hr Hlb d Hd). change (0 ≤ current_write_path d < Z.of_nat (length l)). lia.
  - intros u s2 [(_ & Hs2 & _) (Hg2 & d' & Hd' & Hsizes)].
    assert (Hu : usage_of d') by (destruct Hsizes as (? & ? & _ & _ & H); exact H).
    step. step. destruct (_ || _).
    { apply returns_upd_grp. by exists d'. }
    destruct (_ <? _); [|apply returns_ret; by exists d'].
    eapply returns_mono; [by apply (find_min_free_space_ok v ms s2)|]. intros u' s3 (_ & Hd3 & _). rewrite Hd3. by exists d'.
Qed.

End usage.

(** C33: what a storage server reports is what the tracker keeps.  After the
    sizes that a server of a reachable tracker wrote into its report
    ([report_df_stat], one entry for each path of the group) were taken over
    by the handler, the total and free space of every path of this server
    are the reported ones and its sums are those of the report. *)
Theorem df_report_stored env cfg T p q gm l :
  tracker_reachable env T → a_client T p q → gmem T !! p = Some gm → path_in_range cfg (enter T gm) q →
  Forall (λ space, is_int64 space.1 ∧ is_int64 space.2) l → l ≠ [] →
  Z.of_nat (length l) = store_path_count (m_group gm) →
  ∃ T' gm' d, in_group p (report_sizes cfg q (report_df_stat l)) T = Some (tt, T') ∧ gmem T' !! p = Some gm' ∧
    m_details gm' !! q = Some d ∧ usage_of l d.
Proof.
  intros [w Hok]%tracker_reachable_ok (Hp & gm' & Hgm' & i & Hi & Hq) Hgm Hr Hl Hne Hn.
  assert (gm' = gm) as -> by congruence. rewrite (table_groups w T Hok) in Hp.
  destruct (gok_members _ _ Hok p Hp) as (gm' & Hgm2 & Hmem). assert (gm' = gm) as -> by congruence.
  destruct (member_standing T gm Hmem) as [v Hs].
  assert (Hqv : q ∈ v_all v) by (apply (TrackerMemSpec.in_group v (enter T gm)); [apply Hs|by exists i]).
  enough (H : returns (in_group p (report_sizes cfg q (report_df_stat l))) T (λ _ T', ∃ gm' d, gmem T' !! p = Some gm' ∧
    m_details gm' !! q = Some d ∧ usage_of l d)).
  { apply returns_run in H as ([] & T' & E & gm' & d & H). by exists T', gm', d. }
  apply (returns_in_group T p gm); [done|].
  eapply returns_mono; [apply (report_sizes_read cfg q l Hl v (server_states (enter T gm)) (enter T gm) Hs Hqv Hr); done|].
  intros u s (d & Hd & Hu). exists {| m_group := grp s; m_details := details s |}, d. cbn. by rewrite lookup_insert_eq.
Qed.

Lemma df_report_stored_witness :
  ∃ T' gm' d, in_group 1 (report_sizes (sample_groups_config FDFS_STORE_LOOKUP_LOAD_BALANCE) 1 (report_df_stat [(1000, 500); (1000, 700)])) tracker_1
      = Some (tt, T') ∧ gmem T' !! 1%positive = Some gm' ∧ m_details gm' !! 1%positive = Some d ∧
    usage_of [(1000, 500); (1000, 700)] d.
Proof.
  destruct (gmem tracker_1 !! 1%positive) as [gm|] eqn:E; [|vm_compute in E; discriminate].
  apply (df_report_stored sample_env _ _ _ _ gm); [apply tracker_1_reachable|apply (sample_usage_pre FDFS_STORE_LOOKUP_LOAD_BALANCE)|exact E|done| |done|].
  - repeat constructor; unfold is_int64; cbn; lia.
  - vm_compute in E. injection E as <-. done.
Defined.

(** ** The path of most free space *)

Definition balance_config : groups_config :=
  {| t_config := sample_cfg; store_lookup := FDFS_STORE_LOOKUP_ROUND_ROBIN; store_path := FDFS_STORE_PATH_LOAD_BALANCE;
     store_group := []; reserved_space := ReservedMb 100 |}.

Definition write_path (T : tracker_state) : option Z :=
  gm ← gmem T !! 1%positive; current_write_path <$> m_details gm !! 1%positive.

Definition report_twice (first second : list (Z * Z)) : tracker_state :=
  tracker_after (tracker_after tracker_1 (serve sample_env balance_config sample_leader (ReqDiskUsage 1 1 0 (report_df_stat first))))
    (serve sample_env balance_config sample_leader (ReqDiskUsage 1 1 0 (report_df_stat second))).

(** The space of a path is compared with what the path in turn had in the
    report before when that one comes later: the second path had most space,
    fills up, and stays in turn although the first has more. *)
Lemma load_balance_path_stale :
  write_path (report_twice [(1000, 500); (1000, 700)] [(1000, 500); (1000, 100)]) = Some 1.
Proof. vm_compute. reflexivity. Qed.
